(* ===== verification/_CoqProject ===== *)
-Q . S2P
Prelude.v
Exec.v
Params.v
State.v
Spinlock.v
Mem.v
Kalloc.v
Vm.v
VmTable.v
VmUser.v
VmAlloc.v
VmCopy.v
Sched.v
Sleeplock.v
Bio.v
BioSpec.v
Log.v
LogSpec.v
LogCrash.v
LogOp.v
RingBuf.v
Uart.v
Printf.v
Console.v
Fs.v
FsBlock.v
FsFile.v
FsInode.v
FsData.v
FsWrite.v
Pipe.v
PipeSpec.v
ConsoleSpec.v
File.v
FsSpec.v
FsDir.v
FsPath.v
FsTrunc.v
Proc.v
KExec.v
Syscall.v
Sysproc.v
Sysfile.v
Virtio.v
VirtioSpec.v
VirtioSystem.v
Trap.v
Main.v
Safe.v
SafeKernel.v
FdTable.v
FdSystem.v
Machine.v
Trampoline.v
Start.v
Init.v
UProg.v
Ulib.v
UPrintf.v
Grep.v
Umalloc.v
UmallocSpec.v
Sh.v
ShSpec.v
ShParse.v
ShRun.v
ShMain.v
Primes.v
UProgs.v
UProgsSpec.v
FindSpec.v
Pingpong.v
Mkfs.v
MkfsFile.v
MkfsSpec.v
MkfsImage.v
MkfsMain.v
MkfsBoot.v
