(* ===== verification/Prelude.v ===== *)
(** * xv6 for RISC-V: a verification development

    The program is a teaching operating system: a Unix-like kernel for
    multiprocessor RISC-V machines (src/kernel), its user programs (src/user)
    and the host program that builds the disk image (src/mkfs).  This library
    models the C and assembly code function by function and proves what the
    parts promise and what they promise together.  This file holds the
    documentation and the prelude that all the other files share.

    ** How code is modelled

    - Integers are [Z]; the wrap-around of the C types is written out with [u8],
      [u16], [u32], [u64], [i16], [i32].  Memory is a finite map of bytes.
    - The globals of the kernel are one record, [State.kernel].  A kernel
      function is a function of the monad [KM] (Exec): it returns, panics, gives
      up the CPU in swtch() with the rest of its execution as a continuation
      ([Swtch]), or has used up the fuel of a loop ([NoFuel]).
    - [wp] is total correctness: it excludes panic, [NoFuel] and a switch.  The
      theorems stated with it are about executions that find what they wait for
      at the first look; what happens at the switches is the matter of the
      theorems over [rtc] of a step relation, and of [Swtch] results.
    - The fuel of a loop is a bound that the code keeps (the size of a table, the
      number of bytes asked for, the length of a path), so that [NoFuel] does
      not occur.  The loops that wait are the exception: class [Waits] gives
      the number of wakeups for which they have fuel, as a parameter.
    - Parameters: [Linker] (addresses the linker chooses, with [LinkerOk]: what
      kernel.ld arranges), [Disk] (virtio_disk_rw() as the buffer cache sees it,
      with [DiskOk]), [Frame] (the address of a local variable on the kernel
      stack), [Os] (the system calls of a user program), the values that device
      registers give.  Each class with laws has an instance that satisfies them.

    ** The files

    Kernel, bottom up:
    - Params, State: param.h, memlayout.h, riscv.h, fs.h, ... and the structs.
    - Spinlock: spinlock.c as a step machine of several harts.
    - Mem (string.c), Kalloc (kalloc.c), Vm and VmTable, VmUser, VmAlloc, VmCopy
      (vm.c).
    - Sched (sleep, wakeup, yield, kill of proc.c), Sleeplock (sleeplock.c).
    - Bio, BioSpec (bio.c); Log, LogSpec, LogCrash, LogOp (log.c).
    - RingBuf, Uart, Printf, Console, ConsoleSpec (uart.c, printf.c, console.c).
    - Fs (fs.c) with FsBlock, FsFile, FsInode, FsData, FsWrite, FsSpec (blocks,
      inodes and file contents), FsDir (directories), FsPath (path names) and
      FsTrunc (freeing a file).
    - Pipe, PipeSpec (pipe.c), File (file.c), Proc (proc.c), KExec (exec.c).
    - Syscall, Sysproc, Sysfile (syscall.c, sysproc.c, sysfile.c).
    - Virtio, VirtioSpec, VirtioSystem (virtio_disk.c and the device).
    - Trap (trap.c, plic.c), Main (main.c).
    - Safe, SafeKernel, FdTable, FdSystem: the kernel as a whole.
    - Machine, Trampoline, Start: the RISC-V machine, the assembly files and
      start.c.

    User programs: Init (init.c and zombie.c as interaction trees), UProg (the
    monad and interface of the others), Ulib, UPrintf, Umalloc and UmallocSpec,
    Grep, Sh, ShSpec, ShParse, ShRun and ShMain, Primes, Pingpong, UProgs,
    UProgsSpec and FindSpec.  Image builder: Mkfs, MkfsFile, MkfsSpec,
    MkfsImage, MkfsMain, MkfsBoot.

    A file named after a C file holds the definitions, with the names of the C
    functions; the files named [...Spec] and the like hold its proofs.

    ** What the theorems show

    - Crash safety: an operation between begin_op() and end_op() changes the
      logical disk all at once at every crash point, and recovery restores it,
      also when it is interrupted itself (LogOp, LogCrash).
    - File contents: balloc(), bmap(), readi() and writei() implement files that
      do not share blocks; reading gives back what was written; a piece of
      filewrite() fits into a transaction (FsSpec).  The last iput() of an
      unlinked file frees exactly its blocks and its inode (FsTrunc).
    - Directories are finite maps from names to inode numbers: dirlookup() is
      lookup, dirlink() is insertion (FsDir).  namei() and nameiparent() follow a
      path through them, and keep the inode table a sound cache of the disk
      (FsPath).
    - The image that mkfs writes holds its input files, and fsinit() accepts it
      (MkfsBoot).
    - The disk: driver, device and interrupts in any order move exactly the
      blocks they are asked for and lose no completion (VirtioSystem).
    - Spinlocks exclude each other and implement the list of held locks that the
      rest of the model uses (Spinlock); every trap handler takes and gives up
      spinlocks in the right order (SafeKernel); no wakeup is lost (Sched).
    - Descriptors and file reference counts agree, whatever the order in which
      the processes run (FdSystem).  The method is rely-guarantee: a judgement
      over the code of one process between two switches (Safe), the relation
      that each process guarantees to the others (FdTable).
    - Page tables: walk(), mappages(), uvmunmap(), uvmalloc() with its roll-back,
      uvmcopy(), copyin(), copyout() act on the address space as a function
      (VmTable, VmUser, VmAlloc, VmCopy).
    - Pipes and console input refine queues and a line editor (PipeSpec,
      ConsoleSpec).
    - Registers survive traps, interrupts and context switches, and every hart
      reaches main() with the machine set up (Trampoline, Start).
    - User programs: init keeps one shell running, whatever orphans it is handed
      (Init); the shell from its input to the programs it starts, malloc() and
      free(), grep, find, xargs, the sieve of processes.

    Most theorems have hypotheses; a lemma [..._witness] applies each of these at
    a concrete state.

    ** Bounds and assumptions

    - The free bitmap is one block ([sb_size <= BPB]) where blocks are written;
      mkfs makes such a disk.
    - FsPath assumes two free slots in the inode table and that no other process
      holds the inodes of the path locked; if one does, namex() waits in ilock().
    - [room W j k]: the log has space for [j] more blocks than [W] and the cache
      for [k] more buffers, which begin_op() and NBUF see to.
    - The switches of FdSystem and VirtioSystem are those the code makes itself
      (sleep(), yield() at the end of a trap from user space, exit()); a timer
      interrupt that preempts a process inside the kernel is not a step.
    - The device of VirtioSystem and the translation of Machine are what the
      virtio standard and the RISC-V manual say of them.
    - mkfs runs on a little-endian host whose system calls on the image succeed.

    ** Not modelled

    - user/usertests.c, grind.c, forktest.c, stressfs.c and gradelib.py test the
      running system; test.c is a scratch program of its author.
    - kernel/ramdisk.c is not part of the build and does not fit struct buf.
    - user/usys.pl, kernel.ld and user.ld: generated stubs and linker scripts;
      user/initcode.S: the call exec("/init") by hand.
    - The registers of the devices beyond what the drivers read and write, caches,
      and the weak memory model: Spinlock has one step per access of a lock word,
      the other files one per stretch of code under a lock. *)

From Stdlib Require Export ZArith Lia.
From stdpp Require Export base numbers gmap strings functions.
From stdpp Require Export list.

#[global] Open Scope Z_scope.

(** ** C integer types: a w-bit integer is a [Z] and its wrap-around is written out *)

Definition u8 (x : Z) : Z := x mod 2 ^ 8.
Definition u16 (x : Z) : Z := x mod 2 ^ 16.
Definition u32 (x : Z) : Z := x mod 2 ^ 32.
Definition u64 (x : Z) : Z := x mod 2 ^ 64.
Definition i8 (x : Z) : Z := (x + 2 ^ 7) mod 2 ^ 8 - 2 ^ 7.
Definition i16 (x : Z) : Z := (x + 2 ^ 15) mod 2 ^ 16 - 2 ^ 15.
Definition i32 (x : Z) : Z := (x + 2 ^ 31) mod 2 ^ 32 - 2 ^ 31.
Definition b2z (b : bool) : Z := if b then 1 else 0.

(** [x & m] used as a C condition. *)
Definition has (x m : Z) : bool := negb (Z.land x m =? 0).

(** ** Tactics *)

(** Linear arithmetic with [/] and [mod] by constants. *)
Ltac dlia := zify; Z.to_euclidean_division_equations; lia.

(** Case analysis on the boolean comparisons of the goal and the context. *)
Ltac bool_hyp :=
  match goal with
  | H : (_ =? _) = true |- _ => apply Z.eqb_eq in H
  | H : (_ =? _) = false |- _ => apply Z.eqb_neq in H
  | H : (_ <? _) = true |- _ => apply Z.ltb_lt in H
  | H : (_ <? _) = false |- _ => apply Z.ltb_ge in H
  | H : (_ <=? _) = true |- _ => apply Z.leb_le in H
  | H : (_ <=? _) = false |- _ => apply Z.leb_gt in H
  | H : (_ && _)%bool = true |- _ => apply andb_true_iff in H; destruct H
  | H : (_ || _)%bool = false |- _ => apply orb_false_iff in H; destruct H
  | H : negb _ = true |- _ => apply negb_true_iff in H
  | H : negb _ = false |- _ => apply negb_false_iff in H
  | H : bool_decide _ = true |- _ => apply bool_decide_eq_true in H
  | H : bool_decide _ = false |- _ => apply bool_decide_eq_false in H
  end.

Ltac bools := repeat bool_hyp.

Ltac case_bool :=
  match goal with
  | |- context [if ?b then _ else _] =>
      match type of b with bool => let E := fresh "E" in destruct b eqn:E end
  | |- context [match ?b with true => _ | false => _ end] =>
      let E := fresh "E" in destruct b eqn:E
  end.

(** ** Facts about machine integers *)

Lemma u8_range x : 0 <= u8 x < 256.
Proof. unfold u8. dlia. Qed.

Lemma u32_range x : 0 <= u32 x < 2 ^ 32.
Proof. unfold u32. dlia. Qed.

Lemma u64_range x : 0 <= u64 x < 2 ^ 64.
Proof. unfold u64. dlia. Qed.

Lemma u8_id x : 0 <= x < 256 -> u8 x = x.
Proof. intros. unfold u8. apply Z.mod_small. lia. Qed.

Lemma u16_id x : 0 <= x < 65536 -> u16 x = x.
Proof. intros. unfold u16. apply Z.mod_small. lia. Qed.

Lemma u32_id x : 0 <= x < 2 ^ 32 -> u32 x = x.
Proof. intros. unfold u32. apply Z.mod_small. lia. Qed.

Lemma u64_id x : 0 <= x < 2 ^ 64 -> u64 x = x.
Proof. intros. unfold u64. apply Z.mod_small. lia. Qed.

Lemma i32_id x : - 2 ^ 31 <= x < 2 ^ 31 -> i32 x = x.
Proof. intros. unfold i32. rewrite Z.mod_small; lia. Qed.

Lemma i16_id x : - 2 ^ 15 <= x < 2 ^ 15 -> i16 x = x.
Proof. intros. unfold i16. rewrite Z.mod_small; lia. Qed.

Create HintDb xv6 discriminated.
#[export] Hint Resolve u8_range u32_range u64_range : xv6.

(** Reducing the C integer conversions that are the identity. *)
Ltac unwrap :=
  repeat first [ rewrite u64_id by lia | rewrite u32_id by lia | rewrite u16_id by lia
               | rewrite u8_id by lia | rewrite i32_id by lia | rewrite i16_id by lia ].

(** ** Bits *)

Lemma has_pow2 x k : 0 <= k -> has x (2 ^ k) = Z.testbit x k.
Proof.
  intros Hk. unfold has. destruct (Z.testbit x k) eqn:E.
  - apply negb_true_iff, Z.eqb_neq. intros H0.
    assert (Z.testbit (Z.land x (2 ^ k)) k = false) as H1 by (rewrite H0; apply Z.bits_0).
    rewrite Z.land_spec, Z.pow2_bits_true, E in H1 by lia. discriminate.
  - apply negb_false_iff, Z.eqb_eq. apply Z.bits_inj'. intros n Hn.
    rewrite Z.land_spec, Z.bits_0, Z.pow2_bits_eqb by lia.
    destruct (Z.eqb_spec k n) as [->|]; [rewrite E|]; auto using andb_false_r.
Qed.

Lemma testbit_high x k n : 0 <= x < 2 ^ k -> 0 <= k <= n -> Z.testbit x n = false.
Proof.
  intros Hx Hn. rewrite <- (Z.mod_small x (2 ^ k)) by lia.
  apply Z.mod_pow2_bits_high. lia.
Qed.

Lemma land_low x k : 0 <= k -> Z.land x (2 ^ k - 1) = x mod 2 ^ k.
Proof. intros. rewrite <- Z.land_ones by lia. f_equal. rewrite Z.ones_equiv. lia. Qed.

(** Adding is [|] when the bits do not overlap. *)
Lemma lor_disjoint_add a b k :
  0 <= k -> 0 <= b < 2 ^ k -> Z.lor (a * 2 ^ k) b = a * 2 ^ k + b.
Proof.
  intros Hk Hb. symmetry. rewrite <- Z.lxor_lor; [apply Z.add_nocarry_lxor|].
  all: apply Z.bits_inj'; intros n Hn; rewrite Z.land_spec, Z.bits_0;
    destruct (Z.lt_ge_cases n k);
    [ rewrite Z.mul_pow2_bits_low by lia; reflexivity
    | rewrite (testbit_high b k n) by lia; apply andb_false_r ].
Qed.

Lemma lor_range a b k : 0 <= k -> 0 <= a < 2 ^ k -> 0 <= b < 2 ^ k -> 0 <= Z.lor a b < 2 ^ k.
Proof.
  intros Hk Ha Hb. split; [apply Z.lor_nonneg; lia|].
  rewrite <- (Z.mod_small a (2 ^ k)), <- (Z.mod_small b (2 ^ k)) by lia.
  rewrite <- !Z.land_ones by lia. rewrite <- Z.land_lor_distr_l, Z.land_ones by lia.
  apply Z.mod_pos_bound. lia.
Qed.

Lemma land_lnot_low x k :
  0 <= k -> Z.land x (Z.lnot (2 ^ k - 1)) = x - x mod 2 ^ k.
Proof.
  intros Hk. rewrite <- Z.ldiff_land.
  replace (2 ^ k - 1) with (Z.ones k) by (rewrite Z.ones_equiv; lia).
  rewrite Z.ldiff_ones_r, Z.shiftl_mul_pow2, Z.shiftr_div_pow2 by lia.
  pose proof (Z.div_mod x (2 ^ k) ltac:(lia)). lia.
Qed.

(** ** Little-endian byte sequences *)

Fixpoint le_bytes (n : nat) (v : Z) : list Z :=
  match n with
  | O => []
  | S n => v mod 256 :: le_bytes n (v / 256)
  end.

Fixpoint le_val (l : list Z) : Z :=
  match l with
  | [] => 0
  | b :: l => b + 256 * le_val l
  end.

Definition bytes_ok (l : list Z) : Prop := Forall (fun b => 0 <= b < 256) l.

Lemma le_bytes_length n v : length (le_bytes n v) = n.
Proof. revert v. induction n; simpl; auto. Qed.

Lemma le_bytes_ok n v : bytes_ok (le_bytes n v).
Proof.
  revert v. induction n as [|n IH]; simpl; intros v; constructor; [|apply IH].
  apply Z.mod_pos_bound. lia.
Qed.

Lemma le_val_bytes n v : le_val (le_bytes n v) = v mod 256 ^ Z.of_nat n.
Proof.
  revert v. induction n as [|n IH]; intros v.
  - simpl. rewrite Z.mod_1_r. reflexivity.
  - cbn [le_bytes le_val]. rewrite IH, Nat2Z.inj_succ, Z.pow_succ_r by lia.
    rewrite Z.rem_mul_r by lia. reflexivity.
Qed.

Lemma le_val_range l : bytes_ok l -> 0 <= le_val l < 256 ^ Z.of_nat (length l).
Proof.
  induction 1 as [|b l Hb Hl IH]; [simpl; lia|].
  cbn [le_val length]. rewrite Nat2Z.inj_succ, Z.pow_succ_r by lia. lia.
Qed.

Lemma le_bytes_val l : bytes_ok l -> le_bytes (length l) (le_val l) = l.
Proof.
  induction 1 as [|b l Hb Hl IH]; [reflexivity|].
  cbn [length le_bytes le_val]. f_equal.
  - rewrite Z.mul_comm, Z.mod_add by lia. apply Z.mod_small. lia.
  - rewrite Z.mul_comm, Z.div_add by lia.
    rewrite (Z.div_small b) by lia. rewrite Z.add_0_l. exact IH.
Qed.

(** ** Arrays: lists read and written at a C index *)

(** [a[i]] and [a[i] = x]; the code only uses indices inside the array. *)
Definition zget {A} `{Inhabited A} (l : list A) (i : Z) : A := l !!! Z.to_nat i.
Definition zset {A} (l : list A) (i : Z) (x : A) : list A := <[Z.to_nat i := x]> l.

(** [memmove] into the middle of an array. *)
Definition splice (l : list Z) (off : Z) (new : list Z) : list Z :=
  take (Z.to_nat off) l ++ new ++ drop (Z.to_nat off + length new) l.
Definition slice (l : list Z) (off n : Z) : list Z :=
  take (Z.to_nat n) (drop (Z.to_nat off) l).

Section arrays.
Context {A : Type} `{Inhabited A}.
Implicit Types (l : list A) (x : A) (i j : Z).

Lemma zget_zset_eq l i x :
  0 <= i < Z.of_nat (length l) -> zget (zset l i x) i = x.
Proof. intros. unfold zget, zset. apply list_lookup_total_insert_eq. lia. Qed.

Lemma zget_zset_ne l i j x : 0 <= i -> 0 <= j -> i <> j -> zget (zset l i x) j = zget l j.
Proof. intros. unfold zget, zset. apply list_lookup_total_insert_ne. lia. Qed.

Lemma zset_length l i x : length (zset l i x) = length l.
Proof. apply length_insert. Qed.

Lemma zget_elem_of l i : 0 <= i < Z.of_nat (length l) -> zget l i ∈ l.
Proof. intros. apply list_elem_of_lookup_total. exists (Z.to_nat i). split; [lia|auto]. Qed.
End arrays.

(** Removing an element from a list. *)
Section removal.
Context {A : Type} `{EqDecision A}.
Implicit Types (x : A) (l : list A).

Lemma filter_ne_id x l : x ∉ l -> filter (fun y => y <> x) l = l.
Proof.
  induction l as [|y l IH]; intros Hx; [reflexivity|].
  apply not_elem_of_cons in Hx. destruct Hx. rewrite filter_cons_True by auto. f_equal. auto.
Qed.

Lemma filter_ne_hd x l : x ∉ l -> filter (fun y => y <> x) (x :: l) = l.
Proof. intros. rewrite filter_cons_False by auto. by apply filter_ne_id. Qed.

Lemma length_filter_ne x l :
  NoDup l -> x ∈ l -> length l = S (length (filter (fun y => y <> x) l)).
Proof.
  induction 1 as [|y l Hy Hl IH]; intros Hx; [set_solver|].
  apply elem_of_cons in Hx. destruct (decide (y = x)) as [->|].
  - by rewrite filter_ne_hd.
  - rewrite filter_cons_True by auto. simpl. f_equal. apply IH. destruct Hx; congruence.
Qed.
End removal.

Lemma splice_length l off new :
  0 <= off -> off + Z.of_nat (length new) <= Z.of_nat (length l) ->
  length (splice l off new) = length l.
Proof. intros. unfold splice. rewrite !length_app, length_take, length_drop. lia. Qed.

Lemma slice_length l off n :
  0 <= off -> 0 <= n -> off + n <= Z.of_nat (length l) ->
  length (slice l off n) = Z.to_nat n.
Proof. intros. unfold slice. rewrite length_take, length_drop. lia. Qed.

Lemma slice_splice_eq l off new :
  0 <= off -> off + Z.of_nat (length new) <= Z.of_nat (length l) ->
  slice (splice l off new) off (Z.of_nat (length new)) = new.
Proof.
  intros. unfold slice, splice. rewrite Nat2Z.id.
  rewrite drop_app_ge, length_take by (rewrite length_take; lia).
  replace (Z.to_nat off - _)%nat with 0%nat by lia. rewrite drop_0.
  rewrite take_app_le by lia. apply take_ge. lia.
Qed.

Lemma slice_splice_ne l off new off' n :
  0 <= off -> off + Z.of_nat (length new) <= Z.of_nat (length l) -> 0 <= off' -> 0 <= n ->
  off' + n <= off \/ off + Z.of_nat (length new) <= off' -> slice (splice l off new) off' n = slice l off' n.
Proof.
  intros H1 H2 H3 H4 Hd. unfold slice, splice. apply list_eq. intros i.
  destruct (decide (i < Z.to_nat n)%nat) as [Hi|Hi]; [|rewrite !lookup_take_ge by lia; reflexivity].
  rewrite !lookup_take_lt, !lookup_drop by lia. destruct Hd.
  - rewrite lookup_app_l by (rewrite length_take; lia). by rewrite lookup_take_lt by lia.
  - rewrite lookup_app_r by (rewrite length_take; lia). rewrite length_take.
    rewrite lookup_app_r by lia. rewrite lookup_drop. f_equal. lia.
Qed.

(** 16- and 32-bit fields of a block. *)
Definition get16 (l : list Z) (off : Z) : Z := le_val (slice l off 2).
Definition put16 (l : list Z) (off v : Z) : list Z := splice l off (le_bytes 2 v).
Definition get32 (l : list Z) (off : Z) : Z := le_val (slice l off 4).
Definition put32 (l : list Z) (off v : Z) : list Z := splice l off (le_bytes 4 v).

Lemma get32_put32_eq l off v : 0 <= off -> off + 4 <= Z.of_nat (length l) -> get32 (put32 l off v) off = u32 v.
Proof.
  intros H1 H2. unfold get32, put32. pose proof (slice_splice_eq l off (le_bytes 4 v)) as Hs.
  rewrite le_bytes_length in Hs. change (Z.of_nat 4) with 4 in Hs. rewrite Hs by lia. by rewrite le_val_bytes.
Qed.

Lemma get32_put32_ne l off v off' :
  0 <= off -> off + 4 <= Z.of_nat (length l) -> 0 <= off' -> off' + 4 <= off \/ off + 4 <= off' ->
  get32 (put32 l off v) off' = get32 l off'.
Proof. intros. unfold get32, put32. rewrite slice_splice_ne; [reflexivity|rewrite ?le_bytes_length; lia..]. Qed.

Lemma put32_length l off v : 0 <= off -> off + 4 <= Z.of_nat (length l) -> length (put32 l off v) = length l.
Proof. intros. apply splice_length; rewrite ?le_bytes_length; lia. Qed.

#[export] Hint Rewrite @zset_length @length_app @length_take @length_drop @length_replicate
  @length_insert le_bytes_length : len.

(** The bytes of a C string literal, without its NUL. *)
Definition str (s : string) : list Z := (fun c => Z.of_nat (Ascii.nat_of_ascii c)) <$> String.list_ascii_of_string s.

(** Lengths of composed lists. *)
Ltac len := autorewrite with len; simpl; try lia.
