(* ===== verification/Exec.v ===== *)
(** * The monad of kernel code.

    A C function of the kernel is a function from the kernel state to a [res]:
    it returns, panics, gives up the CPU in [swtch] with the rest of its
    execution as a continuation, or the model's loop fuel runs out.  [wp] is
    total correctness of an execution that is not switched out. *)

From S2P Require Import Prelude.

Inductive res (S A : Type) : Type :=
| Ok (a : A) (s : S)                  (* returned [a] *)
| Panic (msg : string)                (* panic(msg) *)
| Swtch (s : S) (k : S -> res S A)    (* swtch() away; [k] when switched back to *)
| NoFuel.                             (* a loop bound of the model was reached *)
Arguments Ok {S A}.
Arguments Panic {S A}.
Arguments Swtch {S A}.
Arguments NoFuel {S A}.

Definition M (S A : Type) : Type := S -> res S A.

Section monad.
Context {S : Type}.

Definition ret {A} (a : A) : M S A := fun s => Ok a s.

Fixpoint rbind {A B} (r : res S A) (f : A -> M S B) : res S B :=
  match r with
  | Ok a s => f a s
  | Panic m => Panic m
  | Swtch s k => Swtch s (fun s' => rbind (k s') f)
  | NoFuel => NoFuel
  end.

Definition bind {A B} (m : M S A) (f : A -> M S B) : M S B := fun s => rbind (m s) f.
Definition gets {A} (f : S -> A) : M S A := fun s => Ok (f s) s.
Definition modify (f : S -> S) : M S unit := fun s => Ok tt (f s).
Definition panic {A} (msg : string) : M S A := fun _ => Panic msg.
Definition swtch : M S unit := fun s => Swtch s (fun s' => Ok tt s').
Definition when (b : bool) (m : M S unit) : M S unit := if b then m else ret tt.

(** [loop fuel body a]: repeat [body] from [a] until it answers [inr b]. *)
Fixpoint loop {A B} (fuel : nat) (body : A -> M S (A + B)) (a : A) : M S B :=
  match fuel with
  | O => fun _ => NoFuel
  | Datatypes.S n => bind (body a) (fun r => match r with
                                   | inl a' => loop n body a'
                                   | inr b => ret b
                                   end)
  end.

(** [for x in l: f x]. *)
Fixpoint forM {A} (l : list A) (f : A -> M S unit) : M S unit :=
  match l with
  | [] => ret tt
  | x :: l => bind (f x) (fun _ => forM l f)
  end.

(** [for x in l: if ((r = f x)) return r;] and [None] when no iteration returns. *)
Fixpoint findM {A B} (l : list A) (f : A -> M S (option B)) : M S (option B) :=
  match l with
  | [] => ret None
  | x :: l => bind (f x) (fun r => match r with
                                   | Some b => ret (Some b)
                                   | None => findM l f
                                   end)
  end.
End monad.

Declare Scope xv6_scope.
Delimit Scope xv6_scope with xv6.
Notation "x <- m ;; k" := (bind m (fun x => k))
  (at level 100, m at next level, right associativity) : xv6_scope.
Notation "'do' p <- m ;; k" := (bind m (fun x => match x with p => k end))
  (at level 100, p pattern, m at next level, right associativity) : xv6_scope.
Notation "m ;;; k" := (bind m (fun _ => k)) (at level 100, right associativity) : xv6_scope.
#[global] Open Scope xv6_scope.

(** ** Total correctness *)

Section wp.
Context {S : Type}.

Definition wp {A} (m : M S A) (Q : A -> S -> Prop) (s : S) : Prop :=
  match m s with
  | Ok a s' => Q a s'
  | _ => False
  end.

Lemma wp_ok {A} (m : M S A) Q s :
  wp m Q s <-> exists a s', m s = Ok a s' /\ Q a s'.
Proof.
  unfold wp. destruct (m s) as [a s'| | |]; split; intros H; try done; eauto;
    destruct H as (? & ? & [=] & ?); subst; auto.
Qed.

Lemma wp_eq {A} (m : M S A) a s s' : wp m (fun b s1 => b = a /\ s1 = s') s -> m s = Ok a s'.
Proof. unfold wp. destruct (m s); [|done..]. by intros [-> ->]. Qed.

(** The final state of an execution that returns. *)
Definition run {A} (m : M S A) (s : S) : S := match m s with Ok _ s' => s' | _ => s end.

Lemma wp_run {A} (m : M S A) (P : S -> Prop) s : wp m (fun _ s' => P s') s -> P (run m s).
Proof. unfold wp, run. by destruct (m s). Qed.

(** Running a sequence whose first part returns, or is switched out. *)
Lemma bind_ok {A B} (m : M S A) (f : A -> M S B) a s s' : m s = Ok a s' -> bind m f s = f a s'.
Proof. unfold bind. by intros ->. Qed.

Lemma bind_swtch {A B} (m : M S A) (f : A -> M S B) s s' k :
  m s = Swtch s' k -> bind m f s = Swtch s' (fun s'' => rbind (k s'') f).
Proof. unfold bind. by intros ->. Qed.

Lemma wp_mono {A} (m : M S A) (P Q : A -> S -> Prop) s :
  wp m P s -> (forall a s', P a s' -> Q a s') -> wp m Q s.
Proof. unfold wp. destruct (m s); auto. Qed.

Lemma wp_ret {A} (a : A) (Q : A -> S -> Prop) s : Q a s -> wp (ret a) Q s.
Proof. auto. Qed.

Lemma wp_bind {A B} (m : M S A) (f : A -> M S B) Q s :
  wp m (fun a => wp (f a) Q) s -> wp (bind m f) Q s.
Proof. unfold wp, bind. destruct (m s); simpl; auto; done. Qed.

Lemma wp_bind_inv {A B} (m : M S A) (f : A -> M S B) Q s :
  wp (bind m f) Q s -> wp m (fun a => wp (f a) Q) s.
Proof. unfold wp, bind. destruct (m s); simpl; auto; done. Qed.

Lemma wp_gets {A} (f : S -> A) (Q : A -> S -> Prop) s : Q (f s) s -> wp (gets f) Q s.
Proof. auto. Qed.

Lemma wp_modify (f : S -> S) (Q : unit -> S -> Prop) s : Q tt (f s) -> wp (modify f) Q s.
Proof. auto. Qed.

Lemma wp_when (b : bool) m (Q : unit -> S -> Prop) s :
  (b = true -> wp m Q s) -> (b = false -> Q tt s) -> wp (when b m) Q s.
Proof. destruct b; simpl; intros H1 H2; [apply H1 | apply H2]; auto. Qed.

(** A loop whose first iteration is the last. *)
Lemma wp_loop_exit {A B} fuel (body : A -> M S (A + B)) (a : A) (Q : B -> S -> Prop) s :
  wp (body a) (fun r s' => match r with inl _ => False | inr b => Q b s' end) s -> wp (loop (Datatypes.S fuel) body a) Q s.
Proof. intros Hb. cbn [loop]. apply wp_bind. eapply wp_mono; [exact Hb|]. by intros [a'|b] s'. Qed.

(** A loop with an invariant whose measure is below the fuel returns. *)
Lemma wp_loop {A B} (I : nat -> A -> S -> Prop) (body : A -> M S (A + B)) (Q : B -> S -> Prop) :
  (forall n a s, I n a s ->
     wp (body a) (fun r s' => match r with
                              | inl a' => exists m, (m < n)%nat /\ I m a' s'
                              | inr b => Q b s'
                              end) s) ->
  forall fuel n a s, I n a s -> (n < fuel)%nat -> wp (loop fuel body a) Q s.
Proof.
  intros Hbody fuel. induction fuel as [|fuel IH]; intros n a s HI Hn; [lia|].
  cbn [loop]. apply wp_bind. eapply wp_mono; [apply (Hbody n a s HI)|].
  intros [a'|b] s' H; cbn beta in *.
  - destruct H as (m & Hm & HI'). apply (IH m); auto. lia.
  - exact H.
Qed.

Lemma wp_forM {A} (I : list A -> S -> Prop) (l : list A) (f : A -> M S unit) s :
  I l s ->
  (forall x rest s, I (x :: rest) s -> wp (f x) (fun _ s' => I rest s') s) ->
  wp (forM l f) (fun _ s' => I [] s') s.
Proof.
  intros H0 Hstep. revert s H0. induction l as [|x l IH]; intros s H0; [exact H0|].
  cbn [forM]. apply wp_bind. eapply wp_mono; [apply Hstep, H0|]. auto.
Qed.
End wp.

(** One step of symbolic execution. *)
Ltac wp_step :=
  lazymatch goal with
  | |- wp (bind _ _) _ _ => apply wp_bind; cbn beta
  | |- wp (ret _) _ _ => apply wp_ret; cbn beta iota
  | |- wp (gets _) _ _ => apply wp_gets; cbn beta iota
  | |- wp (modify _) _ _ => apply wp_modify; cbn beta iota
  | |- wp (when true ?m) _ _ => change (when true m) with m
  | |- wp (when false _) _ _ => apply wp_ret; cbn beta iota
  | |- wp (if true then ?m else _) _ _ => cbn beta iota
  | |- wp (if false then _ else ?m) _ _ => cbn beta iota
  | |- wp (when _ _) _ _ => apply wp_when; intros ?
  | |- wp (match ?x with (_, _) => _ end) _ _ => destruct x eqn:?; cbn beta iota
  end.
Ltac wp_steps := repeat wp_step.
