(* ===== verification/Params.v ===== *)
(** * Constants and macros of the kernel's headers.

    param.h, memlayout.h, fs.h, fcntl.h, stat.h, syscall.h, elf.h and the
    paging part of riscv.h.  A macro with arguments is a function of the same
    name, evaluated at the width the C expression has. *)

From S2P Require Import Prelude.

(** ** param.h *)
Definition NPROC : Z := 64.
Definition NCPU : Z := 8.
Definition NOFILE : Z := 16.
Definition NFILE : Z := 100.
Definition NINODE : Z := 50.
Definition NDEV : Z := 10.
Definition ROOTDEV : Z := 1.
Definition MAXARG : Z := 32.
Definition MAXOPBLOCKS : Z := 10.
Definition LOGSIZE : Z := MAXOPBLOCKS * 3.
Definition NBUF : Z := MAXOPBLOCKS * 3.
Definition FSSIZE : Z := 2000.
Definition MAXPATH : Z := 128.

(** ** riscv.h, paging *)
Definition PGSIZE : Z := 4096.
Definition PGSHIFT : Z := 12.
Definition PGROUNDUP (sz : Z) : Z := Z.land (u64 (sz + PGSIZE - 1)) (Z.lnot (PGSIZE - 1)).
Definition PGROUNDDOWN (a : Z) : Z := Z.land a (Z.lnot (PGSIZE - 1)).
Definition PTE_V : Z := 2 ^ 0.
Definition PTE_R : Z := 2 ^ 1.
Definition PTE_W : Z := 2 ^ 2.
Definition PTE_X : Z := 2 ^ 3.
Definition PTE_U : Z := 2 ^ 4.
Definition PA2PTE (pa : Z) : Z := u64 (Z.shiftl (Z.shiftr pa 12) 10).
Definition PTE2PA (pte : Z) : Z := u64 (Z.shiftl (Z.shiftr pte 10) 12).
Definition PTE_FLAGS (pte : Z) : Z := Z.land pte 1023.
Definition PXMASK : Z := 511.
Definition PXSHIFT (level : Z) : Z := PGSHIFT + 9 * level.
Definition PX (level va : Z) : Z := Z.land (Z.shiftr va (PXSHIFT level)) PXMASK.
Definition MAXVA : Z := 2 ^ (9 + 9 + 9 + 12 - 1).

(** ** memlayout.h *)
Definition UART0 : Z := 268435456.       (* 0x10000000 *)
Definition UART0_IRQ : Z := 10.
Definition VIRTIO0 : Z := 268439552.     (* 0x10001000 *)
Definition VIRTIO0_IRQ : Z := 1.
Definition PLIC : Z := 201326592.        (* 0x0c000000 *)
Definition KERNBASE : Z := 2147483648.   (* 0x80000000 *)
Definition PHYSTOP : Z := KERNBASE + 128 * 1024 * 1024.
Definition TRAMPOLINE : Z := MAXVA - PGSIZE.
Definition KSTACK (p : Z) : Z := TRAMPOLINE - (p + 1) * 2 * PGSIZE.
Definition TRAPFRAME : Z := TRAMPOLINE - PGSIZE.

(** ** fs.h *)
Definition ROOTINO : Z := 1.
Definition BSIZE : Z := 1024.
Definition FSMAGIC : Z := 270544960.     (* 0x10203040 *)
Definition NDIRECT : Z := 12.
Definition NINDIRECT : Z := BSIZE / 4.
Definition MAXFILE : Z := NDIRECT + NINDIRECT.
Definition DINODE_SIZE : Z := 64.        (* sizeof(struct dinode) *)
Definition IPB : Z := BSIZE / DINODE_SIZE.
Definition BPB : Z := BSIZE * 8.
Definition DIRSIZ : Z := 14.
Definition DIRENT_SIZE : Z := 16.        (* sizeof(struct dirent) *)

(** ** stat.h, fcntl.h *)
Definition T_DIR : Z := 1.
Definition T_FILE : Z := 2.
Definition T_DEVICE : Z := 3.
Definition O_RDONLY : Z := 0.
Definition O_WRONLY : Z := 1.
Definition O_RDWR : Z := 2.
Definition O_CREATE : Z := 512.
Definition O_TRUNC : Z := 1024.

(** ** The linker's symbols (kernel.ld): parameters of the model *)
Class Linker := {
  kend : Z;             (* end: first address after the kernel *)
  etext : Z;            (* end of kernel text *)
  trampoline : Z;       (* physical address of trampoline.S, where uservec starts *)
  userret : Z;          (* address of userret in trampoline.S *)
  kernelvec : Z;        (* kernelvec.S *)
  forkret_addr : Z;     (* the functions whose address the kernel stores *)
  usertrap_addr : Z;
}.

(** What kernel.ld guarantees of them: the kernel image lies in RAM, and the
    text and the trampoline page are page-aligned. *)
Class LinkerOk `{Linker} : Prop := {
  kend_range : KERNBASE < kend < PHYSTOP;
  etext_range : KERNBASE < etext <= kend;
  etext_aligned : etext mod PGSIZE = 0;
  trampoline_range : KERNBASE <= trampoline < etext;
  trampoline_aligned : trampoline mod PGSIZE = 0;
}.

(** A concrete link map, for the examples. *)
Definition ld0 : Linker :=
  {| kend := KERNBASE + 139264; etext := KERNBASE + 32768; trampoline := KERNBASE + 28672;
     userret := KERNBASE + 28828; kernelvec := KERNBASE + 22000; forkret_addr := KERNBASE + 7000; usertrap_addr := KERNBASE + 9000 |}.
Lemma ld0_ok : @LinkerOk ld0.
Proof. split; unfold KERNBASE, PHYSTOP, KERNBASE, PGSIZE; simpl; first [reflexivity | unfold KERNBASE; lia]. Qed.

(** ** Arithmetic of the macros *)

Lemma PGROUNDDOWN_eq a : PGROUNDDOWN a = a - a mod PGSIZE.
Proof. unfold PGROUNDDOWN, PGSIZE. apply (land_lnot_low a 12). lia. Qed.

Lemma PGROUNDDOWN_page a : PGROUNDDOWN a = a / PGSIZE * PGSIZE.
Proof. rewrite PGROUNDDOWN_eq. unfold PGSIZE. dlia. Qed.

Lemma PGROUNDUP_eq sz :
  0 <= sz < 2 ^ 64 - PGSIZE -> PGROUNDUP sz = (sz + PGSIZE - 1) / PGSIZE * PGSIZE.
Proof.
  intros H. unfold PGROUNDUP. unfold PGSIZE in *. rewrite u64_id by lia.
  rewrite (land_lnot_low _ 12) by lia. change (2 ^ 12) with 4096. dlia.
Qed.

Lemma PX_eq level va : 0 <= level -> PX level va = va / 2 ^ (12 + 9 * level) mod 512.
Proof.
  intros. unfold PX, PXSHIFT, PGSHIFT, PXMASK. rewrite (land_low _ 9) by lia.
  rewrite Z.shiftr_div_pow2 by lia. reflexivity.
Qed.

Lemma PX_range level va : 0 <= level -> 0 <= PX level va < 512.
Proof. intros. rewrite PX_eq by lia. apply Z.mod_pos_bound. lia. Qed.

Lemma PA2PTE_eq pa : 0 <= pa < 2 ^ 56 -> PA2PTE pa = pa / 4096 * 1024.
Proof.
  intros. unfold PA2PTE. rewrite Z.shiftl_mul_pow2, Z.shiftr_div_pow2 by lia.
  change (2 ^ 12) with 4096. change (2 ^ 10) with 1024. rewrite u64_id; [lia | dlia].
Qed.

Lemma PTE2PA_eq pte : 0 <= pte < 2 ^ 54 -> PTE2PA pte = pte / 1024 * 4096.
Proof.
  intros. unfold PTE2PA. rewrite Z.shiftl_mul_pow2, Z.shiftr_div_pow2 by lia.
  change (2 ^ 12) with 4096. change (2 ^ 10) with 1024. rewrite u64_id; [lia | dlia].
Qed.

(** A page-table entry is the frame number above ten flag bits. *)
Lemma pte_make pa fl :
  0 <= pa < 2 ^ 56 -> 0 <= fl < 1024 -> Z.lor (PA2PTE pa) fl = pa / 4096 * 1024 + fl.
Proof. intros. rewrite PA2PTE_eq by lia. apply (lor_disjoint_add _ _ 10); lia. Qed.

Lemma PTE2PA_make pa fl :
  0 <= pa < 2 ^ 56 -> pa mod PGSIZE = 0 -> 0 <= fl < 1024 ->
  PTE2PA (Z.lor (PA2PTE pa) fl) = pa.
Proof.
  unfold PGSIZE. intros. rewrite pte_make by lia. rewrite PTE2PA_eq; dlia.
Qed.

Lemma PTE_FLAGS_make pa fl :
  0 <= pa < 2 ^ 56 -> 0 <= fl < 1024 -> PTE_FLAGS (Z.lor (PA2PTE pa) fl) = fl.
Proof.
  intros. rewrite pte_make by lia. unfold PTE_FLAGS.
  rewrite (land_low _ 10) by lia. change (2 ^ 10) with 1024. dlia.
Qed.

(** A flag bit of the assembled entry is that bit of the flags. *)
Lemma has_make pa fl k :
  0 <= pa < 2 ^ 56 -> 0 <= fl < 1024 -> 0 <= k < 10 ->
  has (Z.lor (PA2PTE pa) fl) (2 ^ k) = Z.testbit fl k.
Proof.
  intros. rewrite has_pow2, Z.lor_spec, PA2PTE_eq by lia.
  rewrite (Z.mul_pow2_bits_low _ 10) by lia. reflexivity.
Qed.
