(* ===== verification/State.v ===== *)
(** * The kernel's data: the structs of the headers and the globals of the C files. *)

From S2P Require Import Prelude Exec Params.

#[local] Set Primitive Projections.

(** enum procstate (proc.h) *)
Inductive procstate := UNUSED | USED | SLEEPING | RUNNABLE | RUNNING | ZOMBIE.

(** struct file's type (file.h) *)
Inductive ftype := FD_NONE | FD_PIPE | FD_INODE | FD_DEVICE.

(** The devices with a devsw entry. *)
Inductive dev := CONSOLE.

(** Sleep-locks: one per buffer and per in-memory inode. *)
Inductive slid := SLbuf (i : nat) | SLinode (i : nat).

(** Spinlocks, by the object they are embedded in. *)
Inductive lockid :=
| Lkmem | Lbcache | Llog | Litable | Lftable | Lwait | Lpid | Lticks | Lcons | Luart | Lvdisk | Lpr
| Lproc (i : nat) | Lpipe (pi : Z) | Lsleep (id : slid).

(** Sleep channels: the address of the object a process sleeps on. *)
Inductive chan :=
| Cproc (i : nat) | Clog | Cnread (pi : Z) | Cnwrite (pi : Z) | Cticks | Csleep (id : slid)
| Ccons | Cuart | Cbuf (i : nat) | Cdiskfree.

(** What a virtio descriptor points to. *)
Inductive daddr := Dnull | Dop (i : nat) | Ddata (b : nat) | Dstatus (i : nat).

#[export] Instance procstate_eq : EqDecision procstate.
Proof. solve_decision. Defined.
#[export] Instance ftype_eq : EqDecision ftype.
Proof. solve_decision. Defined.
#[export] Instance slid_eq : EqDecision slid.
Proof. solve_decision. Defined.
#[export] Instance lockid_eq : EqDecision lockid.
Proof. solve_decision. Defined.
#[export] Instance chan_eq : EqDecision chan.
Proof. solve_decision. Defined.

(** Long-term lock (sleeplock.h); its inner spinlock is [Lsleep id]. *)
Record sleeplock := mkSleeplock {
  sl_locked : bool;
  sl_pid : Z;
}.
#[export] Instance sleeplock_inhabited : Inhabited sleeplock :=
  populate (mkSleeplock false 0).
Definition with_sl_locked (v : bool) (s : sleeplock) : sleeplock :=
  mkSleeplock v (sl_pid s).
Definition with_sl_pid (v : Z) (s : sleeplock) : sleeplock :=
  mkSleeplock (sl_locked s) v.

(** struct buf; [prev] and [next] are buffer numbers, [NBUF] stands for [&bcache.head]. *)
Record buf := mkBuf {
  b_valid : bool;   (* has data been read from disk? *)
  b_disk : bool;   (* does disk own buf? *)
  b_dev : Z;
  b_blockno : Z;
  b_lock : sleeplock;
  b_refcnt : Z;
  b_prev : nat;
  b_next : nat;
  b_data : list Z;
}.
#[export] Instance buf_inhabited : Inhabited buf :=
  populate (mkBuf false false 0 0 inhabitant 0 0%nat 0%nat []).
Definition with_b_valid (v : bool) (s : buf) : buf :=
  mkBuf v (b_disk s) (b_dev s) (b_blockno s) (b_lock s) (b_refcnt s) (b_prev s) (b_next s) (b_data s).
Definition with_b_disk (v : bool) (s : buf) : buf :=
  mkBuf (b_valid s) v (b_dev s) (b_blockno s) (b_lock s) (b_refcnt s) (b_prev s) (b_next s) (b_data s).
Definition with_b_dev (v : Z) (s : buf) : buf :=
  mkBuf (b_valid s) (b_disk s) v (b_blockno s) (b_lock s) (b_refcnt s) (b_prev s) (b_next s) (b_data s).
Definition with_b_blockno (v : Z) (s : buf) : buf :=
  mkBuf (b_valid s) (b_disk s) (b_dev s) v (b_lock s) (b_refcnt s) (b_prev s) (b_next s) (b_data s).
Definition with_b_lock (v : sleeplock) (s : buf) : buf :=
  mkBuf (b_valid s) (b_disk s) (b_dev s) (b_blockno s) v (b_refcnt s) (b_prev s) (b_next s) (b_data s).
Definition with_b_refcnt (v : Z) (s : buf) : buf :=
  mkBuf (b_valid s) (b_disk s) (b_dev s) (b_blockno s) (b_lock s) v (b_prev s) (b_next s) (b_data s).
Definition with_b_prev (v : nat) (s : buf) : buf :=
  mkBuf (b_valid s) (b_disk s) (b_dev s) (b_blockno s) (b_lock s) (b_refcnt s) v (b_next s) (b_data s).
Definition with_b_next (v : nat) (s : buf) : buf :=
  mkBuf (b_valid s) (b_disk s) (b_dev s) (b_blockno s) (b_lock s) (b_refcnt s) (b_prev s) v (b_data s).
Definition with_b_data (v : list Z) (s : buf) : buf :=
  mkBuf (b_valid s) (b_disk s) (b_dev s) (b_blockno s) (b_lock s) (b_refcnt s) (b_prev s) (b_next s) v.

(** struct superblock. *)
Record superblock := mkSuperblock {
  sb_magic : Z;
  sb_size : Z;
  sb_nblocks : Z;
  sb_ninodes : Z;
  sb_nlog : Z;
  sb_logstart : Z;
  sb_inodestart : Z;
  sb_bmapstart : Z;
}.
#[export] Instance superblock_inhabited : Inhabited superblock :=
  populate (mkSuperblock 0 0 0 0 0 0 0 0).
Definition with_sb_magic (v : Z) (s : superblock) : superblock :=
  mkSuperblock v (sb_size s) (sb_nblocks s) (sb_ninodes s) (sb_nlog s) (sb_logstart s) (sb_inodestart s) (sb_bmapstart s).
Definition with_sb_size (v : Z) (s : superblock) : superblock :=
  mkSuperblock (sb_magic s) v (sb_nblocks s) (sb_ninodes s) (sb_nlog s) (sb_logstart s) (sb_inodestart s) (sb_bmapstart s).
Definition with_sb_nblocks (v : Z) (s : superblock) : superblock :=
  mkSuperblock (sb_magic s) (sb_size s) v (sb_ninodes s) (sb_nlog s) (sb_logstart s) (sb_inodestart s) (sb_bmapstart s).
Definition with_sb_ninodes (v : Z) (s : superblock) : superblock :=
  mkSuperblock (sb_magic s) (sb_size s) (sb_nblocks s) v (sb_nlog s) (sb_logstart s) (sb_inodestart s) (sb_bmapstart s).
Definition with_sb_nlog (v : Z) (s : superblock) : superblock :=
  mkSuperblock (sb_magic s) (sb_size s) (sb_nblocks s) (sb_ninodes s) v (sb_logstart s) (sb_inodestart s) (sb_bmapstart s).
Definition with_sb_logstart (v : Z) (s : superblock) : superblock :=
  mkSuperblock (sb_magic s) (sb_size s) (sb_nblocks s) (sb_ninodes s) (sb_nlog s) v (sb_inodestart s) (sb_bmapstart s).
Definition with_sb_inodestart (v : Z) (s : superblock) : superblock :=
  mkSuperblock (sb_magic s) (sb_size s) (sb_nblocks s) (sb_ninodes s) (sb_nlog s) (sb_logstart s) v (sb_bmapstart s).
Definition with_sb_bmapstart (v : Z) (s : superblock) : superblock :=
  mkSuperblock (sb_magic s) (sb_size s) (sb_nblocks s) (sb_ninodes s) (sb_nlog s) (sb_logstart s) (sb_inodestart s) v.

(** struct log, with its in-memory struct logheader. *)
Record log := mkLog {
  l_start : Z;
  l_size : Z;
  l_outstanding : Z;   (* FS system calls executing *)
  l_committing : bool;
  l_dev : Z;
  lh_n : Z;
  lh_block : list Z;
}.
#[export] Instance log_inhabited : Inhabited log :=
  populate (mkLog 0 0 0 false 0 0 []).
Definition with_l_start (v : Z) (s : log) : log :=
  mkLog v (l_size s) (l_outstanding s) (l_committing s) (l_dev s) (lh_n s) (lh_block s).
Definition with_l_size (v : Z) (s : log) : log :=
  mkLog (l_start s) v (l_outstanding s) (l_committing s) (l_dev s) (lh_n s) (lh_block s).
Definition with_l_outstanding (v : Z) (s : log) : log :=
  mkLog (l_start s) (l_size s) v (l_committing s) (l_dev s) (lh_n s) (lh_block s).
Definition with_l_committing (v : bool) (s : log) : log :=
  mkLog (l_start s) (l_size s) (l_outstanding s) v (l_dev s) (lh_n s) (lh_block s).
Definition with_l_dev (v : Z) (s : log) : log :=
  mkLog (l_start s) (l_size s) (l_outstanding s) (l_committing s) v (lh_n s) (lh_block s).
Definition with_lh_n (v : Z) (s : log) : log :=
  mkLog (l_start s) (l_size s) (l_outstanding s) (l_committing s) (l_dev s) v (lh_block s).
Definition with_lh_block (v : list Z) (s : log) : log :=
  mkLog (l_start s) (l_size s) (l_outstanding s) (l_committing s) (l_dev s) (lh_n s) v.

(** struct inode: in-memory copy of an inode. *)
Record inode := mkInode {
  i_dev : Z;
  i_inum : Z;
  i_ref : Z;
  i_lock : sleeplock;
  i_valid : bool;
  i_type : Z;
  i_major : Z;
  i_minor : Z;
  i_nlink : Z;
  i_size : Z;
  i_addrs : list Z;
}.
#[export] Instance inode_inhabited : Inhabited inode :=
  populate (mkInode 0 0 0 inhabitant false 0 0 0 0 0 []).
Definition with_i_dev (v : Z) (s : inode) : inode :=
  mkInode v (i_inum s) (i_ref s) (i_lock s) (i_valid s) (i_type s) (i_major s) (i_minor s) (i_nlink s) (i_size s) (i_addrs s).
Definition with_i_inum (v : Z) (s : inode) : inode :=
  mkInode (i_dev s) v (i_ref s) (i_lock s) (i_valid s) (i_type s) (i_major s) (i_minor s) (i_nlink s) (i_size s) (i_addrs s).
Definition with_i_ref (v : Z) (s : inode) : inode :=
  mkInode (i_dev s) (i_inum s) v (i_lock s) (i_valid s) (i_type s) (i_major s) (i_minor s) (i_nlink s) (i_size s) (i_addrs s).
Definition with_i_lock (v : sleeplock) (s : inode) : inode :=
  mkInode (i_dev s) (i_inum s) (i_ref s) v (i_valid s) (i_type s) (i_major s) (i_minor s) (i_nlink s) (i_size s) (i_addrs s).
Definition with_i_valid (v : bool) (s : inode) : inode :=
  mkInode (i_dev s) (i_inum s) (i_ref s) (i_lock s) v (i_type s) (i_major s) (i_minor s) (i_nlink s) (i_size s) (i_addrs s).
Definition with_i_type (v : Z) (s : inode) : inode :=
  mkInode (i_dev s) (i_inum s) (i_ref s) (i_lock s) (i_valid s) v (i_major s) (i_minor s) (i_nlink s) (i_size s) (i_addrs s).
Definition with_i_major (v : Z) (s : inode) : inode :=
  mkInode (i_dev s) (i_inum s) (i_ref s) (i_lock s) (i_valid s) (i_type s) v (i_minor s) (i_nlink s) (i_size s) (i_addrs s).
Definition with_i_minor (v : Z) (s : inode) : inode :=
  mkInode (i_dev s) (i_inum s) (i_ref s) (i_lock s) (i_valid s) (i_type s) (i_major s) v (i_nlink s) (i_size s) (i_addrs s).
Definition with_i_nlink (v : Z) (s : inode) : inode :=
  mkInode (i_dev s) (i_inum s) (i_ref s) (i_lock s) (i_valid s) (i_type s) (i_major s) (i_minor s) v (i_size s) (i_addrs s).
Definition with_i_size (v : Z) (s : inode) : inode :=
  mkInode (i_dev s) (i_inum s) (i_ref s) (i_lock s) (i_valid s) (i_type s) (i_major s) (i_minor s) (i_nlink s) v (i_addrs s).
Definition with_i_addrs (v : list Z) (s : inode) : inode :=
  mkInode (i_dev s) (i_inum s) (i_ref s) (i_lock s) (i_valid s) (i_type s) (i_major s) (i_minor s) (i_nlink s) (i_size s) v.

(** struct file; [f_pipe] is the address of the pipe's page, [f_ip] an inode-table slot. *)
Record file := mkFile {
  f_type : ftype;
  f_ref : Z;
  f_readable : bool;
  f_writable : bool;
  f_pipe : Z;
  f_ip : nat;
  f_off : Z;
  f_major : Z;
}.
#[export] Instance file_inhabited : Inhabited file :=
  populate (mkFile FD_NONE 0 false false 0 0%nat 0 0).
Definition with_f_type (v : ftype) (s : file) : file :=
  mkFile v (f_ref s) (f_readable s) (f_writable s) (f_pipe s) (f_ip s) (f_off s) (f_major s).
Definition with_f_ref (v : Z) (s : file) : file :=
  mkFile (f_type s) v (f_readable s) (f_writable s) (f_pipe s) (f_ip s) (f_off s) (f_major s).
Definition with_f_readable (v : bool) (s : file) : file :=
  mkFile (f_type s) (f_ref s) v (f_writable s) (f_pipe s) (f_ip s) (f_off s) (f_major s).
Definition with_f_writable (v : bool) (s : file) : file :=
  mkFile (f_type s) (f_ref s) (f_readable s) v (f_pipe s) (f_ip s) (f_off s) (f_major s).
Definition with_f_pipe (v : Z) (s : file) : file :=
  mkFile (f_type s) (f_ref s) (f_readable s) (f_writable s) v (f_ip s) (f_off s) (f_major s).
Definition with_f_ip (v : nat) (s : file) : file :=
  mkFile (f_type s) (f_ref s) (f_readable s) (f_writable s) (f_pipe s) v (f_off s) (f_major s).
Definition with_f_off (v : Z) (s : file) : file :=
  mkFile (f_type s) (f_ref s) (f_readable s) (f_writable s) (f_pipe s) (f_ip s) v (f_major s).
Definition with_f_major (v : Z) (s : file) : file :=
  mkFile (f_type s) (f_ref s) (f_readable s) (f_writable s) (f_pipe s) (f_ip s) (f_off s) v.

(** struct pipe. *)
Record pipe := mkPipe {
  pi_data : list Z;
  pi_nread : Z;
  pi_nwrite : Z;
  pi_readopen : bool;
  pi_writeopen : bool;
}.
#[export] Instance pipe_inhabited : Inhabited pipe :=
  populate (mkPipe [] 0 0 false false).
Definition with_pi_data (v : list Z) (s : pipe) : pipe :=
  mkPipe v (pi_nread s) (pi_nwrite s) (pi_readopen s) (pi_writeopen s).
Definition with_pi_nread (v : Z) (s : pipe) : pipe :=
  mkPipe (pi_data s) v (pi_nwrite s) (pi_readopen s) (pi_writeopen s).
Definition with_pi_nwrite (v : Z) (s : pipe) : pipe :=
  mkPipe (pi_data s) (pi_nread s) v (pi_readopen s) (pi_writeopen s).
Definition with_pi_readopen (v : bool) (s : pipe) : pipe :=
  mkPipe (pi_data s) (pi_nread s) (pi_nwrite s) v (pi_writeopen s).
Definition with_pi_writeopen (v : bool) (s : pipe) : pipe :=
  mkPipe (pi_data s) (pi_nread s) (pi_nwrite s) (pi_readopen s) v.

(** struct context. *)
Record context := mkContext {
  ctx_ra : Z;
  ctx_sp : Z;
  ctx_s : list Z;   (* s0..s11 *)
}.
#[export] Instance context_inhabited : Inhabited context :=
  populate (mkContext 0 0 []).
Definition with_ctx_ra (v : Z) (s : context) : context :=
  mkContext v (ctx_sp s) (ctx_s s).
Definition with_ctx_sp (v : Z) (s : context) : context :=
  mkContext (ctx_ra s) v (ctx_s s).
Definition with_ctx_s (v : list Z) (s : context) : context :=
  mkContext (ctx_ra s) (ctx_sp s) v.

(** struct trapframe; the 31 user registers ra, sp, gp, tp, t0-2, s0-1, a0-7, s2-11, t3-6 in order. *)
Record trapframe_t := mkTrapframe {
  tf_kernel_satp : Z;
  tf_kernel_sp : Z;
  tf_kernel_trap : Z;
  tf_epc : Z;
  tf_kernel_hartid : Z;
  tf_regs : list Z;
}.
#[export] Instance trapframe_t_inhabited : Inhabited trapframe_t :=
  populate (mkTrapframe 0 0 0 0 0 []).
Definition with_tf_kernel_satp (v : Z) (s : trapframe_t) : trapframe_t :=
  mkTrapframe v (tf_kernel_sp s) (tf_kernel_trap s) (tf_epc s) (tf_kernel_hartid s) (tf_regs s).
Definition with_tf_kernel_sp (v : Z) (s : trapframe_t) : trapframe_t :=
  mkTrapframe (tf_kernel_satp s) v (tf_kernel_trap s) (tf_epc s) (tf_kernel_hartid s) (tf_regs s).
Definition with_tf_kernel_trap (v : Z) (s : trapframe_t) : trapframe_t :=
  mkTrapframe (tf_kernel_satp s) (tf_kernel_sp s) v (tf_epc s) (tf_kernel_hartid s) (tf_regs s).
Definition with_tf_epc (v : Z) (s : trapframe_t) : trapframe_t :=
  mkTrapframe (tf_kernel_satp s) (tf_kernel_sp s) (tf_kernel_trap s) v (tf_kernel_hartid s) (tf_regs s).
Definition with_tf_kernel_hartid (v : Z) (s : trapframe_t) : trapframe_t :=
  mkTrapframe (tf_kernel_satp s) (tf_kernel_sp s) (tf_kernel_trap s) (tf_epc s) v (tf_regs s).
Definition with_tf_regs (v : list Z) (s : trapframe_t) : trapframe_t :=
  mkTrapframe (tf_kernel_satp s) (tf_kernel_sp s) (tf_kernel_trap s) (tf_epc s) (tf_kernel_hartid s) v.

(** struct proc; [parent] is a process slot. *)
Record proc := mkProc {
  p_state : procstate;
  p_chan : option chan;
  p_killed : bool;
  p_xstate : Z;
  p_pid : Z;
  p_parent : option nat;
  p_kstack : Z;
  p_sz : Z;
  p_pagetable : Z;
  p_trapframe : Z;
  p_context : context;
  p_ofile : list (option nat);
  p_cwd : option nat;
  p_name : list Z;
}.
#[export] Instance proc_inhabited : Inhabited proc :=
  populate (mkProc UNUSED None false 0 0 None 0 0 0 0 inhabitant [] None []).
Definition with_p_state (v : procstate) (s : proc) : proc :=
  mkProc v (p_chan s) (p_killed s) (p_xstate s) (p_pid s) (p_parent s) (p_kstack s) (p_sz s) (p_pagetable s) (p_trapframe s) (p_context s) (p_ofile s) (p_cwd s) (p_name s).
Definition with_p_chan (v : option chan) (s : proc) : proc :=
  mkProc (p_state s) v (p_killed s) (p_xstate s) (p_pid s) (p_parent s) (p_kstack s) (p_sz s) (p_pagetable s) (p_trapframe s) (p_context s) (p_ofile s) (p_cwd s) (p_name s).
Definition with_p_killed (v : bool) (s : proc) : proc :=
  mkProc (p_state s) (p_chan s) v (p_xstate s) (p_pid s) (p_parent s) (p_kstack s) (p_sz s) (p_pagetable s) (p_trapframe s) (p_context s) (p_ofile s) (p_cwd s) (p_name s).
Definition with_p_xstate (v : Z) (s : proc) : proc :=
  mkProc (p_state s) (p_chan s) (p_killed s) v (p_pid s) (p_parent s) (p_kstack s) (p_sz s) (p_pagetable s) (p_trapframe s) (p_context s) (p_ofile s) (p_cwd s) (p_name s).
Definition with_p_pid (v : Z) (s : proc) : proc :=
  mkProc (p_state s) (p_chan s) (p_killed s) (p_xstate s) v (p_parent s) (p_kstack s) (p_sz s) (p_pagetable s) (p_trapframe s) (p_context s) (p_ofile s) (p_cwd s) (p_name s).
Definition with_p_parent (v : option nat) (s : proc) : proc :=
  mkProc (p_state s) (p_chan s) (p_killed s) (p_xstate s) (p_pid s) v (p_kstack s) (p_sz s) (p_pagetable s) (p_trapframe s) (p_context s) (p_ofile s) (p_cwd s) (p_name s).
Definition with_p_kstack (v : Z) (s : proc) : proc :=
  mkProc (p_state s) (p_chan s) (p_killed s) (p_xstate s) (p_pid s) (p_parent s) v (p_sz s) (p_pagetable s) (p_trapframe s) (p_context s) (p_ofile s) (p_cwd s) (p_name s).
Definition with_p_sz (v : Z) (s : proc) : proc :=
  mkProc (p_state s) (p_chan s) (p_killed s) (p_xstate s) (p_pid s) (p_parent s) (p_kstack s) v (p_pagetable s) (p_trapframe s) (p_context s) (p_ofile s) (p_cwd s) (p_name s).
Definition with_p_pagetable (v : Z) (s : proc) : proc :=
  mkProc (p_state s) (p_chan s) (p_killed s) (p_xstate s) (p_pid s) (p_parent s) (p_kstack s) (p_sz s) v (p_trapframe s) (p_context s) (p_ofile s) (p_cwd s) (p_name s).
Definition with_p_trapframe (v : Z) (s : proc) : proc :=
  mkProc (p_state s) (p_chan s) (p_killed s) (p_xstate s) (p_pid s) (p_parent s) (p_kstack s) (p_sz s) (p_pagetable s) v (p_context s) (p_ofile s) (p_cwd s) (p_name s).
Definition with_p_context (v : context) (s : proc) : proc :=
  mkProc (p_state s) (p_chan s) (p_killed s) (p_xstate s) (p_pid s) (p_parent s) (p_kstack s) (p_sz s) (p_pagetable s) (p_trapframe s) v (p_ofile s) (p_cwd s) (p_name s).
Definition with_p_ofile (v : list (option nat)) (s : proc) : proc :=
  mkProc (p_state s) (p_chan s) (p_killed s) (p_xstate s) (p_pid s) (p_parent s) (p_kstack s) (p_sz s) (p_pagetable s) (p_trapframe s) (p_context s) v (p_cwd s) (p_name s).
Definition with_p_cwd (v : option nat) (s : proc) : proc :=
  mkProc (p_state s) (p_chan s) (p_killed s) (p_xstate s) (p_pid s) (p_parent s) (p_kstack s) (p_sz s) (p_pagetable s) (p_trapframe s) (p_context s) (p_ofile s) v (p_name s).
Definition with_p_name (v : list Z) (s : proc) : proc :=
  mkProc (p_state s) (p_chan s) (p_killed s) (p_xstate s) (p_pid s) (p_parent s) (p_kstack s) (p_sz s) (p_pagetable s) (p_trapframe s) (p_context s) (p_ofile s) (p_cwd s) v.

(** The console input buffer of console.c. *)
Record cons_t := mkCons {
  c_buf : list Z;
  c_r : Z;   (* read index *)
  c_w : Z;   (* write index *)
  c_e : Z;   (* edit index *)
}.
#[export] Instance cons_t_inhabited : Inhabited cons_t :=
  populate (mkCons [] 0 0 0).
Definition with_c_buf (v : list Z) (s : cons_t) : cons_t :=
  mkCons v (c_r s) (c_w s) (c_e s).
Definition with_c_r (v : Z) (s : cons_t) : cons_t :=
  mkCons (c_buf s) v (c_w s) (c_e s).
Definition with_c_w (v : Z) (s : cons_t) : cons_t :=
  mkCons (c_buf s) (c_r s) v (c_e s).
Definition with_c_e (v : Z) (s : cons_t) : cons_t :=
  mkCons (c_buf s) (c_r s) (c_w s) v.

(** uart.c's transmit buffer, and the 16550a device: bytes waiting in RHR, the successive
    LSR_TX_IDLE answers, and the bytes written to THR (newest last). *)
Record uart_t := mkUart {
  u_tx_buf : list Z;
  u_tx_w : Z;
  u_tx_r : Z;
  u_rx : list Z;
  u_idle : list bool;
  u_sent : list Z;
}.
#[export] Instance uart_t_inhabited : Inhabited uart_t :=
  populate (mkUart [] 0 0 [] [] []).
Definition with_u_tx_buf (v : list Z) (s : uart_t) : uart_t :=
  mkUart v (u_tx_w s) (u_tx_r s) (u_rx s) (u_idle s) (u_sent s).
Definition with_u_tx_w (v : Z) (s : uart_t) : uart_t :=
  mkUart (u_tx_buf s) v (u_tx_r s) (u_rx s) (u_idle s) (u_sent s).
Definition with_u_tx_r (v : Z) (s : uart_t) : uart_t :=
  mkUart (u_tx_buf s) (u_tx_w s) v (u_rx s) (u_idle s) (u_sent s).
Definition with_u_rx (v : list Z) (s : uart_t) : uart_t :=
  mkUart (u_tx_buf s) (u_tx_w s) (u_tx_r s) v (u_idle s) (u_sent s).
Definition with_u_idle (v : list bool) (s : uart_t) : uart_t :=
  mkUart (u_tx_buf s) (u_tx_w s) (u_tx_r s) (u_rx s) v (u_sent s).
Definition with_u_sent (v : list Z) (s : uart_t) : uart_t :=
  mkUart (u_tx_buf s) (u_tx_w s) (u_tx_r s) (u_rx s) (u_idle s) v.

(** A descriptor (struct virtq_desc); an address the driver puts in one is that of a command, of a
    buffer's data or of a status byte. *)
Record vdesc := mkVdesc {
  d_addr : daddr;
  d_len : Z;
  d_flags : Z;
  d_next : Z;
}.
#[export] Instance vdesc_inhabited : Inhabited vdesc :=
  populate (mkVdesc Dnull 0 0 0).
Definition with_d_addr (v : daddr) (s : vdesc) : vdesc :=
  mkVdesc v (d_len s) (d_flags s) (d_next s).
Definition with_d_len (v : Z) (s : vdesc) : vdesc :=
  mkVdesc (d_addr s) v (d_flags s) (d_next s).
Definition with_d_flags (v : Z) (s : vdesc) : vdesc :=
  mkVdesc (d_addr s) (d_len s) v (d_next s).
Definition with_d_next (v : Z) (s : vdesc) : vdesc :=
  mkVdesc (d_addr s) (d_len s) (d_flags s) v.

(** disk.info[i] and disk.ops[i]. *)
Record vinfo := mkVinfo {
  in_b : option nat;
  in_status : Z;
}.
#[export] Instance vinfo_inhabited : Inhabited vinfo :=
  populate (mkVinfo None 0).
Definition with_in_b (v : option nat) (s : vinfo) : vinfo :=
  mkVinfo v (in_status s).
Definition with_in_status (v : Z) (s : vinfo) : vinfo :=
  mkVinfo (in_b s) v.

(** struct virtio_blk_req. *)
Record vop := mkVop {
  o_type : Z;
  o_reserved : Z;
  o_sector : Z;
}.
#[export] Instance vop_inhabited : Inhabited vop :=
  populate (mkVop 0 0 0).
Definition with_o_type (v : Z) (s : vop) : vop :=
  mkVop v (o_reserved s) (o_sector s).
Definition with_o_reserved (v : Z) (s : vop) : vop :=
  mkVop (o_type s) v (o_sector s).
Definition with_o_sector (v : Z) (s : vop) : vop :=
  mkVop (o_type s) (o_reserved s) v.

(** struct disk of virtio_disk.c with its three rings, and the device's position in the avail ring. *)
Record vdisk_t := mkVdisk {
  v_desc : list vdesc;
  v_avail_idx : Z;   (* disk.avail->idx *)
  v_avail_ring : list Z;
  v_used_ring_idx : Z;   (* disk.used->idx *)
  v_used_ring : list Z;   (* disk.used->ring[].id *)
  v_free : list bool;
  v_used_idx : Z;   (* disk.used_idx *)
  v_info : list vinfo;
  v_ops : list vop;
  v_pos : Z;
}.
#[export] Instance vdisk_t_inhabited : Inhabited vdisk_t :=
  populate (mkVdisk [] 0 [] 0 [] [] 0 [] [] 0).
Definition with_v_desc (v : list vdesc) (s : vdisk_t) : vdisk_t :=
  mkVdisk v (v_avail_idx s) (v_avail_ring s) (v_used_ring_idx s) (v_used_ring s) (v_free s) (v_used_idx s) (v_info s) (v_ops s) (v_pos s).
Definition with_v_avail_idx (v : Z) (s : vdisk_t) : vdisk_t :=
  mkVdisk (v_desc s) v (v_avail_ring s) (v_used_ring_idx s) (v_used_ring s) (v_free s) (v_used_idx s) (v_info s) (v_ops s) (v_pos s).
Definition with_v_avail_ring (v : list Z) (s : vdisk_t) : vdisk_t :=
  mkVdisk (v_desc s) (v_avail_idx s) v (v_used_ring_idx s) (v_used_ring s) (v_free s) (v_used_idx s) (v_info s) (v_ops s) (v_pos s).
Definition with_v_used_ring_idx (v : Z) (s : vdisk_t) : vdisk_t :=
  mkVdisk (v_desc s) (v_avail_idx s) (v_avail_ring s) v (v_used_ring s) (v_free s) (v_used_idx s) (v_info s) (v_ops s) (v_pos s).
Definition with_v_used_ring (v : list Z) (s : vdisk_t) : vdisk_t :=
  mkVdisk (v_desc s) (v_avail_idx s) (v_avail_ring s) (v_used_ring_idx s) v (v_free s) (v_used_idx s) (v_info s) (v_ops s) (v_pos s).
Definition with_v_free (v : list bool) (s : vdisk_t) : vdisk_t :=
  mkVdisk (v_desc s) (v_avail_idx s) (v_avail_ring s) (v_used_ring_idx s) (v_used_ring s) v (v_used_idx s) (v_info s) (v_ops s) (v_pos s).
Definition with_v_used_idx (v : Z) (s : vdisk_t) : vdisk_t :=
  mkVdisk (v_desc s) (v_avail_idx s) (v_avail_ring s) (v_used_ring_idx s) (v_used_ring s) (v_free s) v (v_info s) (v_ops s) (v_pos s).
Definition with_v_info (v : list vinfo) (s : vdisk_t) : vdisk_t :=
  mkVdisk (v_desc s) (v_avail_idx s) (v_avail_ring s) (v_used_ring_idx s) (v_used_ring s) (v_free s) (v_used_idx s) v (v_ops s) (v_pos s).
Definition with_v_ops (v : list vop) (s : vdisk_t) : vdisk_t :=
  mkVdisk (v_desc s) (v_avail_idx s) (v_avail_ring s) (v_used_ring_idx s) (v_used_ring s) (v_free s) (v_used_idx s) (v_info s) v (v_pos s).
Definition with_v_pos (v : Z) (s : vdisk_t) : vdisk_t :=
  mkVdisk (v_desc s) (v_avail_idx s) (v_avail_ring s) (v_used_ring_idx s) (v_used_ring s) (v_free s) (v_used_idx s) (v_info s) (v_ops s) v.

(** The supervisor registers, the interrupts waiting in the PLIC and those it was told are served. *)
Record csr_t := mkCsr {
  r_sstatus : Z;
  r_sepc : Z;
  r_scause : Z;
  r_stval : Z;
  r_stvec : Z;
  r_satp : Z;
  r_sip : Z;
  r_tp : Z;
  r_irqs : list Z;
  r_served : list Z;
}.
#[export] Instance csr_t_inhabited : Inhabited csr_t :=
  populate (mkCsr 0 0 0 0 0 0 0 0 [] []).
Definition with_r_sstatus (v : Z) (s : csr_t) : csr_t :=
  mkCsr v (r_sepc s) (r_scause s) (r_stval s) (r_stvec s) (r_satp s) (r_sip s) (r_tp s) (r_irqs s) (r_served s).
Definition with_r_sepc (v : Z) (s : csr_t) : csr_t :=
  mkCsr (r_sstatus s) v (r_scause s) (r_stval s) (r_stvec s) (r_satp s) (r_sip s) (r_tp s) (r_irqs s) (r_served s).
Definition with_r_scause (v : Z) (s : csr_t) : csr_t :=
  mkCsr (r_sstatus s) (r_sepc s) v (r_stval s) (r_stvec s) (r_satp s) (r_sip s) (r_tp s) (r_irqs s) (r_served s).
Definition with_r_stval (v : Z) (s : csr_t) : csr_t :=
  mkCsr (r_sstatus s) (r_sepc s) (r_scause s) v (r_stvec s) (r_satp s) (r_sip s) (r_tp s) (r_irqs s) (r_served s).
Definition with_r_stvec (v : Z) (s : csr_t) : csr_t :=
  mkCsr (r_sstatus s) (r_sepc s) (r_scause s) (r_stval s) v (r_satp s) (r_sip s) (r_tp s) (r_irqs s) (r_served s).
Definition with_r_satp (v : Z) (s : csr_t) : csr_t :=
  mkCsr (r_sstatus s) (r_sepc s) (r_scause s) (r_stval s) (r_stvec s) v (r_sip s) (r_tp s) (r_irqs s) (r_served s).
Definition with_r_sip (v : Z) (s : csr_t) : csr_t :=
  mkCsr (r_sstatus s) (r_sepc s) (r_scause s) (r_stval s) (r_stvec s) (r_satp s) v (r_tp s) (r_irqs s) (r_served s).
Definition with_r_tp (v : Z) (s : csr_t) : csr_t :=
  mkCsr (r_sstatus s) (r_sepc s) (r_scause s) (r_stval s) (r_stvec s) (r_satp s) (r_sip s) v (r_irqs s) (r_served s).
Definition with_r_irqs (v : list Z) (s : csr_t) : csr_t :=
  mkCsr (r_sstatus s) (r_sepc s) (r_scause s) (r_stval s) (r_stvec s) (r_satp s) (r_sip s) (r_tp s) v (r_served s).
Definition with_r_served (v : list Z) (s : csr_t) : csr_t :=
  mkCsr (r_sstatus s) (r_sepc s) (r_scause s) (r_stval s) (r_stvec s) (r_satp s) (r_sip s) (r_tp s) (r_irqs s) v.

(** The kernel: every global variable of the modelled files, the running process of this CPU
    and the spinlocks this CPU holds (most recent first). *)
Record kernel := mkKernel {
  k_cur : option nat;   (* mycpu()->proc *)
  k_held : list lockid;
  k_mem : gmap Z Z;   (* memory, by kernel virtual address *)
  k_freelist : Z;   (* kmem.freelist *)
  k_procs : list proc;
  k_nextpid : Z;
  k_initproc : option nat;
  k_tf : gmap Z trapframe_t;   (* trapframe pages *)
  k_disk : gmap Z (list Z);   (* the disk's blocks *)
  k_writes : list (Z * list Z);   (* history: the block writes the disk did, newest first *)
  k_bufs : list buf;
  k_bhead : nat * nat;   (* bcache.head.prev, .next *)
  k_log : log;
  k_sb : superblock;
  k_itable : list inode;
  k_ftable : list file;
  k_pipes : gmap Z pipe;
  k_ticks : Z;
  k_cons : cons_t;
  k_uart : uart_t;
  k_first : bool;   (* forkret's static first *)
  k_kpgtbl : Z;   (* kernel_pagetable *)
  k_devsw : list (option dev);
  k_locking : bool;   (* pr.locking *)
  k_vdisk : vdisk_t;
  k_csr : csr_t;
}.
Definition with_k_cur (v : option nat) (s : kernel) : kernel :=
  mkKernel v (k_held s) (k_mem s) (k_freelist s) (k_procs s) (k_nextpid s) (k_initproc s) (k_tf s) (k_disk s) (k_writes s) (k_bufs s) (k_bhead s) (k_log s) (k_sb s) (k_itable s) (k_ftable s) (k_pipes s) (k_ticks s) (k_cons s) (k_uart s) (k_first s) (k_kpgtbl s) (k_devsw s) (k_locking s) (k_vdisk s) (k_csr s).
Definition with_k_held (v : list lockid) (s : kernel) : kernel :=
  mkKernel (k_cur s) v (k_mem s) (k_freelist s) (k_procs s) (k_nextpid s) (k_initproc s) (k_tf s) (k_disk s) (k_writes s) (k_bufs s) (k_bhead s) (k_log s) (k_sb s) (k_itable s) (k_ftable s) (k_pipes s) (k_ticks s) (k_cons s) (k_uart s) (k_first s) (k_kpgtbl s) (k_devsw s) (k_locking s) (k_vdisk s) (k_csr s).
Definition with_k_mem (v : gmap Z Z) (s : kernel) : kernel :=
  mkKernel (k_cur s) (k_held s) v (k_freelist s) (k_procs s) (k_nextpid s) (k_initproc s) (k_tf s) (k_disk s) (k_writes s) (k_bufs s) (k_bhead s) (k_log s) (k_sb s) (k_itable s) (k_ftable s) (k_pipes s) (k_ticks s) (k_cons s) (k_uart s) (k_first s) (k_kpgtbl s) (k_devsw s) (k_locking s) (k_vdisk s) (k_csr s).
Definition with_k_freelist (v : Z) (s : kernel) : kernel :=
  mkKernel (k_cur s) (k_held s) (k_mem s) v (k_procs s) (k_nextpid s) (k_initproc s) (k_tf s) (k_disk s) (k_writes s) (k_bufs s) (k_bhead s) (k_log s) (k_sb s) (k_itable s) (k_ftable s) (k_pipes s) (k_ticks s) (k_cons s) (k_uart s) (k_first s) (k_kpgtbl s) (k_devsw s) (k_locking s) (k_vdisk s) (k_csr s).
Definition with_k_procs (v : list proc) (s : kernel) : kernel :=
  mkKernel (k_cur s) (k_held s) (k_mem s) (k_freelist s) v (k_nextpid s) (k_initproc s) (k_tf s) (k_disk s) (k_writes s) (k_bufs s) (k_bhead s) (k_log s) (k_sb s) (k_itable s) (k_ftable s) (k_pipes s) (k_ticks s) (k_cons s) (k_uart s) (k_first s) (k_kpgtbl s) (k_devsw s) (k_locking s) (k_vdisk s) (k_csr s).
Definition with_k_nextpid (v : Z) (s : kernel) : kernel :=
  mkKernel (k_cur s) (k_held s) (k_mem s) (k_freelist s) (k_procs s) v (k_initproc s) (k_tf s) (k_disk s) (k_writes s) (k_bufs s) (k_bhead s) (k_log s) (k_sb s) (k_itable s) (k_ftable s) (k_pipes s) (k_ticks s) (k_cons s) (k_uart s) (k_first s) (k_kpgtbl s) (k_devsw s) (k_locking s) (k_vdisk s) (k_csr s).
Definition with_k_initproc (v : option nat) (s : kernel) : kernel :=
  mkKernel (k_cur s) (k_held s) (k_mem s) (k_freelist s) (k_procs s) (k_nextpid s) v (k_tf s) (k_disk s) (k_writes s) (k_bufs s) (k_bhead s) (k_log s) (k_sb s) (k_itable s) (k_ftable s) (k_pipes s) (k_ticks s) (k_cons s) (k_uart s) (k_first s) (k_kpgtbl s) (k_devsw s) (k_locking s) (k_vdisk s) (k_csr s).
Definition with_k_tf (v : gmap Z trapframe_t) (s : kernel) : kernel :=
  mkKernel (k_cur s) (k_held s) (k_mem s) (k_freelist s) (k_procs s) (k_nextpid s) (k_initproc s) v (k_disk s) (k_writes s) (k_bufs s) (k_bhead s) (k_log s) (k_sb s) (k_itable s) (k_ftable s) (k_pipes s) (k_ticks s) (k_cons s) (k_uart s) (k_first s) (k_kpgtbl s) (k_devsw s) (k_locking s) (k_vdisk s) (k_csr s).
Definition with_k_disk (v : gmap Z (list Z)) (s : kernel) : kernel :=
  mkKernel (k_cur s) (k_held s) (k_mem s) (k_freelist s) (k_procs s) (k_nextpid s) (k_initproc s) (k_tf s) v (k_writes s) (k_bufs s) (k_bhead s) (k_log s) (k_sb s) (k_itable s) (k_ftable s) (k_pipes s) (k_ticks s) (k_cons s) (k_uart s) (k_first s) (k_kpgtbl s) (k_devsw s) (k_locking s) (k_vdisk s) (k_csr s).
Definition with_k_writes (v : list (Z * list Z)) (s : kernel) : kernel :=
  mkKernel (k_cur s) (k_held s) (k_mem s) (k_freelist s) (k_procs s) (k_nextpid s) (k_initproc s) (k_tf s) (k_disk s) v (k_bufs s) (k_bhead s) (k_log s) (k_sb s) (k_itable s) (k_ftable s) (k_pipes s) (k_ticks s) (k_cons s) (k_uart s) (k_first s) (k_kpgtbl s) (k_devsw s) (k_locking s) (k_vdisk s) (k_csr s).
Definition with_k_bufs (v : list buf) (s : kernel) : kernel :=
  mkKernel (k_cur s) (k_held s) (k_mem s) (k_freelist s) (k_procs s) (k_nextpid s) (k_initproc s) (k_tf s) (k_disk s) (k_writes s) v (k_bhead s) (k_log s) (k_sb s) (k_itable s) (k_ftable s) (k_pipes s) (k_ticks s) (k_cons s) (k_uart s) (k_first s) (k_kpgtbl s) (k_devsw s) (k_locking s) (k_vdisk s) (k_csr s).
Definition with_k_bhead (v : nat * nat) (s : kernel) : kernel :=
  mkKernel (k_cur s) (k_held s) (k_mem s) (k_freelist s) (k_procs s) (k_nextpid s) (k_initproc s) (k_tf s) (k_disk s) (k_writes s) (k_bufs s) v (k_log s) (k_sb s) (k_itable s) (k_ftable s) (k_pipes s) (k_ticks s) (k_cons s) (k_uart s) (k_first s) (k_kpgtbl s) (k_devsw s) (k_locking s) (k_vdisk s) (k_csr s).
Definition with_k_log (v : log) (s : kernel) : kernel :=
  mkKernel (k_cur s) (k_held s) (k_mem s) (k_freelist s) (k_procs s) (k_nextpid s) (k_initproc s) (k_tf s) (k_disk s) (k_writes s) (k_bufs s) (k_bhead s) v (k_sb s) (k_itable s) (k_ftable s) (k_pipes s) (k_ticks s) (k_cons s) (k_uart s) (k_first s) (k_kpgtbl s) (k_devsw s) (k_locking s) (k_vdisk s) (k_csr s).
Definition with_k_sb (v : superblock) (s : kernel) : kernel :=
  mkKernel (k_cur s) (k_held s) (k_mem s) (k_freelist s) (k_procs s) (k_nextpid s) (k_initproc s) (k_tf s) (k_disk s) (k_writes s) (k_bufs s) (k_bhead s) (k_log s) v (k_itable s) (k_ftable s) (k_pipes s) (k_ticks s) (k_cons s) (k_uart s) (k_first s) (k_kpgtbl s) (k_devsw s) (k_locking s) (k_vdisk s) (k_csr s).
Definition with_k_itable (v : list inode) (s : kernel) : kernel :=
  mkKernel (k_cur s) (k_held s) (k_mem s) (k_freelist s) (k_procs s) (k_nextpid s) (k_initproc s) (k_tf s) (k_disk s) (k_writes s) (k_bufs s) (k_bhead s) (k_log s) (k_sb s) v (k_ftable s) (k_pipes s) (k_ticks s) (k_cons s) (k_uart s) (k_first s) (k_kpgtbl s) (k_devsw s) (k_locking s) (k_vdisk s) (k_csr s).
Definition with_k_ftable (v : list file) (s : kernel) : kernel :=
  mkKernel (k_cur s) (k_held s) (k_mem s) (k_freelist s) (k_procs s) (k_nextpid s) (k_initproc s) (k_tf s) (k_disk s) (k_writes s) (k_bufs s) (k_bhead s) (k_log s) (k_sb s) (k_itable s) v (k_pipes s) (k_ticks s) (k_cons s) (k_uart s) (k_first s) (k_kpgtbl s) (k_devsw s) (k_locking s) (k_vdisk s) (k_csr s).
Definition with_k_pipes (v : gmap Z pipe) (s : kernel) : kernel :=
  mkKernel (k_cur s) (k_held s) (k_mem s) (k_freelist s) (k_procs s) (k_nextpid s) (k_initproc s) (k_tf s) (k_disk s) (k_writes s) (k_bufs s) (k_bhead s) (k_log s) (k_sb s) (k_itable s) (k_ftable s) v (k_ticks s) (k_cons s) (k_uart s) (k_first s) (k_kpgtbl s) (k_devsw s) (k_locking s) (k_vdisk s) (k_csr s).
Definition with_k_ticks (v : Z) (s : kernel) : kernel :=
  mkKernel (k_cur s) (k_held s) (k_mem s) (k_freelist s) (k_procs s) (k_nextpid s) (k_initproc s) (k_tf s) (k_disk s) (k_writes s) (k_bufs s) (k_bhead s) (k_log s) (k_sb s) (k_itable s) (k_ftable s) (k_pipes s) v (k_cons s) (k_uart s) (k_first s) (k_kpgtbl s) (k_devsw s) (k_locking s) (k_vdisk s) (k_csr s).
Definition with_k_cons (v : cons_t) (s : kernel) : kernel :=
  mkKernel (k_cur s) (k_held s) (k_mem s) (k_freelist s) (k_procs s) (k_nextpid s) (k_initproc s) (k_tf s) (k_disk s) (k_writes s) (k_bufs s) (k_bhead s) (k_log s) (k_sb s) (k_itable s) (k_ftable s) (k_pipes s) (k_ticks s) v (k_uart s) (k_first s) (k_kpgtbl s) (k_devsw s) (k_locking s) (k_vdisk s) (k_csr s).
Definition with_k_uart (v : uart_t) (s : kernel) : kernel :=
  mkKernel (k_cur s) (k_held s) (k_mem s) (k_freelist s) (k_procs s) (k_nextpid s) (k_initproc s) (k_tf s) (k_disk s) (k_writes s) (k_bufs s) (k_bhead s) (k_log s) (k_sb s) (k_itable s) (k_ftable s) (k_pipes s) (k_ticks s) (k_cons s) v (k_first s) (k_kpgtbl s) (k_devsw s) (k_locking s) (k_vdisk s) (k_csr s).
Definition with_k_first (v : bool) (s : kernel) : kernel :=
  mkKernel (k_cur s) (k_held s) (k_mem s) (k_freelist s) (k_procs s) (k_nextpid s) (k_initproc s) (k_tf s) (k_disk s) (k_writes s) (k_bufs s) (k_bhead s) (k_log s) (k_sb s) (k_itable s) (k_ftable s) (k_pipes s) (k_ticks s) (k_cons s) (k_uart s) v (k_kpgtbl s) (k_devsw s) (k_locking s) (k_vdisk s) (k_csr s).
Definition with_k_kpgtbl (v : Z) (s : kernel) : kernel :=
  mkKernel (k_cur s) (k_held s) (k_mem s) (k_freelist s) (k_procs s) (k_nextpid s) (k_initproc s) (k_tf s) (k_disk s) (k_writes s) (k_bufs s) (k_bhead s) (k_log s) (k_sb s) (k_itable s) (k_ftable s) (k_pipes s) (k_ticks s) (k_cons s) (k_uart s) (k_first s) v (k_devsw s) (k_locking s) (k_vdisk s) (k_csr s).
Definition with_k_devsw (v : list (option dev)) (s : kernel) : kernel :=
  mkKernel (k_cur s) (k_held s) (k_mem s) (k_freelist s) (k_procs s) (k_nextpid s) (k_initproc s) (k_tf s) (k_disk s) (k_writes s) (k_bufs s) (k_bhead s) (k_log s) (k_sb s) (k_itable s) (k_ftable s) (k_pipes s) (k_ticks s) (k_cons s) (k_uart s) (k_first s) (k_kpgtbl s) v (k_locking s) (k_vdisk s) (k_csr s).
Definition with_k_locking (v : bool) (s : kernel) : kernel :=
  mkKernel (k_cur s) (k_held s) (k_mem s) (k_freelist s) (k_procs s) (k_nextpid s) (k_initproc s) (k_tf s) (k_disk s) (k_writes s) (k_bufs s) (k_bhead s) (k_log s) (k_sb s) (k_itable s) (k_ftable s) (k_pipes s) (k_ticks s) (k_cons s) (k_uart s) (k_first s) (k_kpgtbl s) (k_devsw s) v (k_vdisk s) (k_csr s).
Definition with_k_vdisk (v : vdisk_t) (s : kernel) : kernel :=
  mkKernel (k_cur s) (k_held s) (k_mem s) (k_freelist s) (k_procs s) (k_nextpid s) (k_initproc s) (k_tf s) (k_disk s) (k_writes s) (k_bufs s) (k_bhead s) (k_log s) (k_sb s) (k_itable s) (k_ftable s) (k_pipes s) (k_ticks s) (k_cons s) (k_uart s) (k_first s) (k_kpgtbl s) (k_devsw s) (k_locking s) v (k_csr s).
Definition with_k_csr (v : csr_t) (s : kernel) : kernel :=
  mkKernel (k_cur s) (k_held s) (k_mem s) (k_freelist s) (k_procs s) (k_nextpid s) (k_initproc s) (k_tf s) (k_disk s) (k_writes s) (k_bufs s) (k_bhead s) (k_log s) (k_sb s) (k_itable s) (k_ftable s) (k_pipes s) (k_ticks s) (k_cons s) (k_uart s) (k_first s) (k_kpgtbl s) (k_devsw s) (k_locking s) (k_vdisk s) v.

(** A zeroed struct proc. *)
Definition proc0 : proc :=
  with_p_ofile (replicate (Z.to_nat NOFILE) None) (with_p_name (replicate 16 0) inhabitant).

(** The zero-initialised globals the kernel boots with (bss), on the disk [d]. *)
Definition boot (d : gmap Z (list Z)) : kernel := {|
  k_cur := None; k_held := []; k_mem := ∅; k_freelist := 0;
  k_procs := replicate (Z.to_nat NPROC) proc0; k_nextpid := 1; k_initproc := None; k_tf := ∅;
  k_disk := d; k_writes := []; k_bufs := replicate (Z.to_nat NBUF) (with_b_data (replicate (Z.to_nat BSIZE) 0) inhabitant); k_bhead := (0, 0)%nat;
  k_log := with_lh_block (replicate (Z.to_nat LOGSIZE) 0) inhabitant; k_sb := inhabitant;
  k_itable := replicate (Z.to_nat NINODE) (with_i_addrs (replicate 13 0) inhabitant); k_ftable := replicate (Z.to_nat NFILE) inhabitant;
  k_pipes := ∅; k_ticks := 0; k_cons := mkCons (replicate 128 0) 0 0 0; k_uart := mkUart (replicate 32 0) 0 0 [] [] []; k_first := true;
  k_kpgtbl := 0; k_devsw := replicate (Z.to_nat NDEV) None; k_locking := false;
  k_vdisk := mkVdisk (replicate 8 inhabitant) 0 (replicate 8 0) 0 (replicate 8 0) (replicate 8 false) 0 (replicate 8 inhabitant) (replicate 8 inhabitant) 0;
  k_csr := inhabitant |}.

(** ** Kernel code *)

Abbreviation KM := (M kernel).

(** acquire and release of spinlock.c as this CPU sees them: [Spinlock.v] has
    the detailed code and shows that it implements this pair. *)
Definition acquire (l : lockid) : KM unit := fun s =>
  if decide (l ∈ k_held s) then Panic "acquire" else Ok tt (with_k_held (l :: k_held s) s).

Definition release (l : lockid) : KM unit := fun s =>
  if decide (l ∈ k_held s)
  then Ok tt (with_k_held (filter (fun l' => l' <> l) (k_held s)) s)
  else Panic "release".

Definition holding (l : lockid) : KM bool := gets (fun s => bool_decide (l ∈ k_held s)).

(** myproc(): the slot of the current process, if there is one. *)
Definition myproc : KM (option nat) := gets (fun s => k_cur s).

(** myproc() where the code dereferences it: a null pointer traps, and a trap in
    the kernel panics. *)
Definition curproc : KM nat := fun s =>
  match k_cur s with
  | Some i => Ok i s
  | None => Panic "kerneltrap"
  end.

Section locks.
Implicit Types (s : kernel) (l : lockid).

Lemma with_held_id s : with_k_held (k_held s) s = s.
Proof. reflexivity. Qed.

Lemma wp_acquire l (Q : unit -> kernel -> Prop) s :
  l ∉ k_held s -> Q tt (with_k_held (l :: k_held s) s) -> wp (acquire l) Q s.
Proof. intros H HQ. unfold wp, acquire. rewrite decide_False; auto. Qed.

Lemma wp_release l L (Q : unit -> kernel -> Prop) s :
  k_held s = l :: L -> l ∉ L -> Q tt (with_k_held L s) -> wp (release l) Q s.
Proof.
  intros H Hl HQ. unfold wp, release. rewrite H, decide_True by set_solver.
  rewrite filter_ne_hd by auto. exact HQ.
Qed.
End locks.

(** Simplify reads of updated kernel states. *)
Ltac ksimp :=
  cbn [k_cur k_held k_mem k_freelist k_procs k_nextpid k_initproc k_tf k_disk k_writes k_bufs k_bhead
    k_log k_sb k_itable k_ftable k_pipes k_ticks k_cons k_uart k_first k_kpgtbl k_devsw k_locking
    k_vdisk k_csr with_k_cur with_k_held with_k_mem with_k_freelist with_k_procs with_k_nextpid
    with_k_initproc with_k_tf with_k_disk with_k_writes with_k_bufs with_k_bhead with_k_log
    with_k_sb with_k_itable with_k_ftable with_k_pipes with_k_ticks with_k_cons with_k_uart
    with_k_first with_k_kpgtbl with_k_devsw with_k_locking with_k_vdisk with_k_csr].
