(* ===== verification/Spinlock.v ===== *)
(** * spinlock.c on a multiprocessor.

    The code of [acquire] and [release] is a step machine: one step per memory
    access of a lock word, interleaved over all CPUs in any order.  [push_off],
    [pop_off] and [holding] are functions of the state.  The history variable
    [held] records, per CPU, the locks whose [acquire] returned and whose
    [release] has not passed its check; [State.acquire]/[State.release] are the
    operations on that list. *)

From S2P Require Import Prelude Exec.

Module Spin.

(** struct cpu, with the SIE bit of the CPU's sstatus. *)
Record cpu := mkCpu { noff : Z; intena : bool; sie : bool }.

(** struct spinlock. *)
Record spinlock := mkLock { locked : Z; name : string; lkcpu : option nat }.

(** Where a CPU is inside acquire() or release(). *)
Inductive pc :=
| Idle
| AcqLocked (l : nat)   (* acquire: holding() reads lk->locked *)
| AcqCpu (l : nat)      (* acquire: holding() reads lk->cpu *)
| AcqSwap (l : nat)     (* acquire: the test-and-set loop *)
| AcqSet (l : nat)      (* acquire: lk->cpu = mycpu() *)
| RelLocked (l : nat)   (* release: holding() reads lk->locked *)
| RelCpu (l : nat)      (* release: holding() reads lk->cpu *)
| RelClr (l : nat)      (* release: lk->cpu = 0 *)
| RelSwap (l : nat)     (* release: __sync_lock_release *)
| RelPop.               (* release: pop_off() *)

Record smp := mkSmp {
  cpus : nat -> cpu;
  locks : nat -> spinlock;
  pcs : nat -> pc;
  held : nat -> list nat;
}.

Definition set_cpu (c : nat) (v : cpu) (s : smp) : smp :=
  mkSmp (<[c := v]> (cpus s)) (locks s) (pcs s) (held s).
Definition set_lock (l : nat) (v : spinlock) (s : smp) : smp :=
  mkSmp (cpus s) (<[l := v]> (locks s)) (pcs s) (held s).
Definition set_pc (c : nat) (p : pc) (s : smp) : smp :=
  mkSmp (cpus s) (locks s) (<[c := p]> (pcs s)) (held s).
Definition set_held (c : nat) (L : list nat) (s : smp) : smp :=
  mkSmp (cpus s) (locks s) (pcs s) (<[c := L]> (held s)).

(** ** The operations *)

Definition initlock (lk : spinlock) (nm : string) : spinlock :=
  {| name := nm; locked := 0; lkcpu := None |}.

Definition intr_get (c : nat) : M smp bool := gets (fun s => sie (cpus s c)).
Definition intr_set (c : nat) (b : bool) : M smp unit :=
  modify (fun s => set_cpu c (mkCpu (noff (cpus s c)) (intena (cpus s c)) b) s).

Definition push_off (c : nat) : M smp unit :=
  old <- intr_get c ;;
  intr_set c false ;;;
  k <- gets (fun s => cpus s c) ;;
  when (noff k =? 0) (modify (fun s => set_cpu c (mkCpu (noff k) old (sie k)) s)) ;;;
  modify (fun s => set_cpu c (mkCpu (noff (cpus s c) + 1) (intena (cpus s c)) (sie (cpus s c))) s).

Definition pop_off (c : nat) : M smp unit :=
  on <- intr_get c ;;
  if (on : bool) then panic "pop_off - interruptible" else
  k <- gets (fun s => cpus s c) ;;
  if noff k <? 1 then panic "pop_off" else
  modify (fun s => set_cpu c (mkCpu (noff k - 1) (intena k) (sie k)) s) ;;;
  when ((noff k - 1 =? 0) && intena k) (intr_set c true).

Definition holding (c l : nat) (s : smp) : bool :=
  negb (locked (locks s l) =? 0) && bool_decide (lkcpu (locks s l) = Some c).

(** ** Steps of acquire and release *)

Definition set_locked (l : nat) (v : Z) (s : smp) : smp :=
  set_lock l (mkLock v (name (locks s l)) (lkcpu (locks s l))) s.
Definition set_lkcpu (l : nat) (v : option nat) (s : smp) : smp :=
  set_lock l (mkLock (locked (locks s l)) (name (locks s l)) v) s.

(** One step of CPU [c] inside acquire(); [None] from a state that is not in it. *)
Definition acquire_step (c : nat) (s : smp) : option (res smp unit) :=
  match pcs s c with
  | AcqLocked l =>
      Some (Ok tt (set_pc c (if locked (locks s l) =? 0 then AcqSwap l else AcqCpu l) s))
  | AcqCpu l =>
      Some (if bool_decide (lkcpu (locks s l) = Some c) then Panic "acquire"
            else Ok tt (set_pc c (AcqSwap l) s))
  | AcqSwap l =>
      let old := locked (locks s l) in
      let s' := set_locked l 1 s in
      Some (Ok tt (if old =? 0 then set_pc c (AcqSet l) s' else s'))
  | AcqSet l =>
      Some (Ok tt (set_held c (l :: held s c) (set_pc c Idle (set_lkcpu l (Some c) s))))
  | _ => None
  end.

(** One step of CPU [c] inside release(). *)
Definition release_step (c : nat) (s : smp) : option (res smp unit) :=
  match pcs s c with
  | RelLocked l =>
      Some (if locked (locks s l) =? 0 then Panic "release" else Ok tt (set_pc c (RelCpu l) s))
  | RelCpu l =>
      Some (if bool_decide (lkcpu (locks s l) = Some c)
            then Ok tt (set_held c (filter (fun x => x <> l) (held s c)) (set_pc c (RelClr l) s))
            else Panic "release")
  | RelClr l => Some (Ok tt (set_pc c (RelSwap l) (set_lkcpu l None s)))
  | RelSwap l => Some (Ok tt (set_pc c RelPop (set_locked l 0 s)))
  | RelPop => Some ((pop_off c ;;; modify (set_pc c Idle)) s)
  | _ => None
  end.

(** A step of the machine, with its outcome: an idle CPU calls acquire() or
    release() on any lock, or a CPU inside one of them takes its next step. *)
Inductive step (s : smp) : res smp unit -> Prop :=
| step_call_acquire c l : pcs s c = Idle -> step s ((push_off c ;;; modify (set_pc c (AcqLocked l))) s)
| step_call_release c l : pcs s c = Idle -> step s (Ok tt (set_pc c (RelLocked l) s))
| step_acquire c r : acquire_step c s = Some r -> step s r
| step_release c r : release_step c s = Some r -> step s r.

(** Every CPU idle with interrupts on, every lock initialised. *)
Definition initial (s : smp) : Prop :=
  (forall c, cpus s c = mkCpu 0 false true /\ pcs s c = Idle /\ held s c = []) /\
  (forall l, exists nm, locks s l = initlock (mkLock 0 nm None) nm).

Inductive reachable : smp -> Prop :=
| reach_init s : initial s -> reachable s
| reach_step s s' : reachable s -> step s (Ok tt s') -> reachable s'.

(** ** The invariant *)

(** CPU [c] is between its successful test-and-set of [l] and its release of it. *)
Definition owns (s : smp) (c l : nat) : Prop :=
  l ∈ held s c \/ pcs s c = AcqSet l \/ pcs s c = RelClr l \/ pcs s c = RelSwap l.

(** push_off()s of [c] beyond those of the locks in [held]. *)
Definition extra (p : pc) : nat :=
  match p with
  | Idle | RelLocked _ | RelCpu _ => 0
  | _ => 1
  end.

Record inv (s : smp) : Prop := {
  inv_locked : forall l, locked (locks s l) = 0 \/ locked (locks s l) = 1;
  inv_free : forall c l, owns s c l -> locked (locks s l) = 1;
  inv_excl : forall c1 c2 l, owns s c1 l -> owns s c2 l -> c1 = c2;
  inv_cpu : forall c l, lkcpu (locks s l) = Some c <-> l ∈ held s c \/ pcs s c = RelClr l;
  inv_nodup : forall c, NoDup (held s c);
  inv_fresh : forall c l, pcs s c = AcqSwap l \/ pcs s c = AcqSet l \/ pcs s c = RelClr l \/ pcs s c = RelSwap l ->
                l ∉ held s c;
  inv_noff : forall c, noff (cpus s c) = Z.of_nat (length (held s c) + extra (pcs s c));
  inv_sie : forall c, noff (cpus s c) <> 0 -> sie (cpus s c) = false;
}.

Ltac fn_simp :=
  repeat first [ rewrite fn_lookup_insert in * | rewrite fn_lookup_insert_ne in * by congruence ].

(** Case analysis on whether an updated component is the one looked at. *)
Ltac upd x y := destruct (decide (x = y)) as [<-|?]; fn_simp; simpl in *.

Lemma initial_inv s : initial s -> inv s.
Proof.
  intros [Hc Hl].
  assert (forall c l, ~ owns s c l) as Hown.
  { intros c l. destruct (Hc c) as (? & Hp & Hh). unfold owns. rewrite Hp, Hh. set_solver. }
  assert (forall l, locked (locks s l) = 0 /\ lkcpu (locks s l) = None) as Hlk.
  { intros l. destruct (Hl l) as [nm ->]. auto. }
  split.
  - intros l. destruct (Hlk l). auto.
  - intros c l H. destruct (Hown _ _ H).
  - intros c1 c2 l H. destruct (Hown _ _ H).
  - intros c l. destruct (Hlk l) as [_ ->], (Hc c) as (? & -> & ->). set_solver.
  - intros c. destruct (Hc c) as (? & ? & ->). constructor.
  - intros c l _. destruct (Hc c) as (? & ? & ->). set_solver.
  - intros c. destruct (Hc c) as (-> & -> & ->). reflexivity.
  - intros c. destruct (Hc c) as (-> & ?). simpl. congruence.
Qed.

Lemma push_off_ok c s :
  exists s', push_off c s = Ok tt s' /\ locks s' = locks s /\ pcs s' = pcs s /\ held s' = held s /\
    cpus s' c = mkCpu (noff (cpus s c) + 1)
                  (if noff (cpus s c) =? 0 then sie (cpus s c) else intena (cpus s c)) false /\
    forall d, d <> c -> cpus s' d = cpus s d.
Proof.
  unfold push_off, bind, intr_get, intr_set, gets, modify, when, set_cpu. simpl.
  fn_simp. simpl. destruct (noff (cpus s c) =? 0); simpl; fn_simp; simpl; eexists;
    (split; [reflexivity|]); simpl; fn_simp; repeat split; intros; fn_simp; auto.
Qed.

Lemma pop_off_ok c s :
  sie (cpus s c) = false -> 1 <= noff (cpus s c) ->
  exists s', pop_off c s = Ok tt s' /\ locks s' = locks s /\ pcs s' = pcs s /\ held s' = held s /\
    cpus s' c = mkCpu (noff (cpus s c) - 1) (intena (cpus s c))
                  ((noff (cpus s c) =? 1) && intena (cpus s c)) /\
    forall d, d <> c -> cpus s' d = cpus s d.
Proof.
  intros Hs Hn. unfold pop_off, bind, intr_get, intr_set, gets, modify, when, set_cpu. simpl.
  rewrite Hs. simpl. replace (noff (cpus s c) <? 1) with false by (symmetry; apply Z.ltb_ge; lia).
  replace (noff (cpus s c) - 1 =? 0) with (noff (cpus s c) =? 1) by (destruct (Z.eqb_spec (noff (cpus s c)) 1), (Z.eqb_spec (noff (cpus s c) - 1) 0); lia).
  destruct (_ && _) eqn:E; simpl; eexists;
    (split; [reflexivity|]); simpl; fn_simp; simpl; rewrite ?Hs; repeat split; intros; fn_simp; auto.
Qed.

(** A step of CPU [c] that touches only its own pc and CPU state, and keeps what it owns. *)
Lemma inv_local s s' c :
  inv s -> locks s' = locks s -> held s' = held s ->
  (forall d, d <> c -> pcs s' d = pcs s d /\ cpus s' d = cpus s d) ->
  (forall l, owns s' c l -> owns s c l) ->
  (forall l, pcs s' c = RelClr l <-> pcs s c = RelClr l) ->
  (forall l, pcs s' c = AcqSwap l \/ pcs s' c = AcqSet l \/ pcs s' c = RelClr l \/ pcs s' c = RelSwap l ->
     l ∉ held s c) ->
  noff (cpus s' c) = Z.of_nat (length (held s c) + extra (pcs s' c)) ->
  (noff (cpus s' c) <> 0 -> sie (cpus s' c) = false) ->
  inv s'.
Proof.
  intros HI HL HH Hoth Hown Hrel Hacq Hn Hs.
  assert (forall d l, owns s' d l -> owns s d l) as Hown'.
  { intros d l H. destruct (decide (d = c)) as [->|Hd]; [auto|].
    unfold owns in *. destruct (Hoth d Hd) as [Hp _]. rewrite Hp, HH in H. exact H. }
  split.
  - intros l. rewrite HL. apply HI.
  - intros d l H. rewrite HL. eapply inv_free; eauto.
  - intros c1 c2 l H1 H2. eapply inv_excl; eauto.
  - intros d l. rewrite HL, HH, (inv_cpu s HI). destruct (decide (d = c)) as [->|Hd].
    + rewrite Hrel. reflexivity.
    + destruct (Hoth d Hd) as [-> _]. reflexivity.
  - intros d. rewrite HH. apply HI.
  - intros d l H. rewrite HH. destruct (decide (d = c)) as [->|Hd].
    + auto.
    + destruct (Hoth d Hd) as [Hp _]. rewrite Hp in H. eapply inv_fresh; eauto.
  - intros d. rewrite HH. destruct (decide (d = c)) as [->|Hd]; [exact Hn|].
    destruct (Hoth d Hd) as [-> ->]. apply HI.
  - intros d. destruct (decide (d = c)) as [->|Hd]; [exact Hs|].
    destruct (Hoth d Hd) as [_ ->]. apply HI.
Qed.

Tactic Notation "inv_facts" constr(HI) :=
  pose proof (inv_locked _ HI) as Flocked; pose proof (inv_free _ HI) as Ffree;
  pose proof (inv_excl _ HI) as Fexcl; pose proof (inv_cpu _ HI) as Fcpu;
  pose proof (inv_nodup _ HI) as Fnodup; pose proof (inv_fresh _ HI) as Ffresh;
  pose proof (inv_noff _ HI) as Fnoff; pose proof (inv_sie _ HI) as Fsie.

(** The test-and-set takes a free lock. *)
Lemma inv_swap s c l :
  inv s -> pcs s c = AcqSwap l -> locked (locks s l) = 0 ->
  inv (set_pc c (AcqSet l) (set_locked l 1 s)).
Proof.
  intros HI Hp H0. inv_facts HI.
  assert (forall d, ~ owns s d l) as Hno by (intros d Hd; apply HI in Hd; lia).
  assert (forall d k, owns (set_pc c (AcqSet l) (set_locked l 1 s)) d k ->
            owns s d k \/ (d = c /\ k = l)) as Hown.
  { intros d k. unfold owns, set_pc, set_locked, set_lock. simpl. upd c d; [|tauto].
    intros [?|[[=]|[[=]|[=]]]]; auto. }
  split; intros *.
  - unfold set_pc, set_locked, set_lock; simpl. upd l l0; auto.
  - intros Hd. unfold set_pc, set_locked, set_lock; simpl. upd l l0; auto.
    destruct (Hown _ _ Hd) as [?|[-> ->]]; [eauto|congruence].
  - intros Ha Hb. destruct (Hown _ _ Ha) as [Ha'|[-> ->]], (Hown _ _ Hb) as [Hb'|[-> Hk]]; subst;
      eauto; exfalso; eapply Hno; eauto.
  - unfold set_pc, set_locked, set_lock; simpl.
    replace (lkcpu _) with (lkcpu (locks s l0)) by (upd l l0; auto).
    rewrite (inv_cpu s HI). upd c c0; [|tauto]. rewrite Hp. intuition congruence.
  - simpl. auto.
  - simpl. upd c c0; eauto. intros [|[[=]|[|]]]; subst; try discriminate. eapply Ffresh. tauto.
  - simpl. upd c c0; auto. rewrite Fnoff, Hp. reflexivity.
  - simpl. auto.
Qed.

(** A test-and-set that finds the lock taken changes nothing. *)
Lemma inv_spin s c l :
  inv s -> pcs s c = AcqSwap l -> locked (locks s l) <> 0 -> inv (set_locked l 1 s).
Proof.
  intros HI Hp H0. inv_facts HI.
  assert (forall k, locked (locks (set_locked l 1 s) k) = locked (locks s k) /\
                    lkcpu (locks (set_locked l 1 s) k) = lkcpu (locks s k)) as HL.
  { intros k. unfold set_locked, set_lock; simpl. upd l k; auto. destruct (Flocked l); auto. lia. }
  split; intros *; rewrite ?(proj1 (HL _)), ?(proj2 (HL _)); eauto.
Qed.

(** acquire() returns: the lock is this CPU's. *)
Lemma inv_set s c l :
  inv s -> pcs s c = AcqSet l ->
  inv (set_held c (l :: held s c) (set_pc c Idle (set_lkcpu l (Some c) s))).
Proof.
  intros HI Hp. inv_facts HI.
  assert (forall d k, owns (set_held c (l :: held s c) (set_pc c Idle (set_lkcpu l (Some c) s))) d k ->
            owns s d k) as Hown.
  { intros d k. unfold owns, set_held, set_pc, set_lkcpu, set_lock. simpl. upd c d; [|tauto].
    rewrite Hp, elem_of_cons. intros [[->|?]|[[=]|[[=]|[=]]]]; auto. }
  assert (owns s c l) as Hcl by (unfold owns; auto).
  split; intros *.
  - unfold set_held, set_pc, set_lkcpu, set_lock; simpl. upd l l0; auto.
  - intros Hd. unfold set_held, set_pc, set_lkcpu, set_lock; simpl. apply Hown in Hd. upd l l0; eauto.
  - intros Ha Hb. eauto.
  - unfold set_held, set_pc, set_lkcpu, set_lock; simpl. upd l l0.
    + upd c c0; [set_solver|]. split; [congruence|]. intros Hd.
      exfalso. assert (c0 = c); [|congruence]. eapply Fexcl; [|exact Hcl]. unfold owns. tauto.
    + rewrite Fcpu. upd c c0; [|tauto]. rewrite Hp, elem_of_cons. intuition congruence.
  - simpl. upd c c0; auto. constructor; [eapply Ffresh; eauto | auto].
  - simpl. upd c c0; eauto. intros [|[|[|]]]; discriminate.
  - simpl. upd c c0; auto. rewrite Fnoff, Hp. simpl. lia.
  - simpl. auto.
Qed.

(** release() passes its check: it owns the lock it leaves. *)
Lemma inv_relcpu s c l :
  inv s -> pcs s c = RelCpu l -> lkcpu (locks s l) = Some c ->
  inv (set_held c (filter (fun x => x <> l) (held s c)) (set_pc c (RelClr l) s)).
Proof.
  intros HI Hp Hc. inv_facts HI.
  assert (l ∈ held s c) as Hin by (apply Fcpu in Hc; rewrite Hp in Hc; intuition congruence).
  assert (forall d k, owns (set_held c (filter (fun x => x <> l) (held s c)) (set_pc c (RelClr l) s)) d k ->
            owns s d k) as Hown.
  { intros d k. unfold owns, set_held, set_pc. simpl. upd c d; [|tauto].
    rewrite list_elem_of_filter. intros [[_ ?]|[[=]|[[=]|[=]]]]; subst; auto. }
  split; intros *.
  - simpl. auto.
  - intros Hd. simpl. eauto.
  - intros Ha Hb. eauto.
  - simpl. rewrite Fcpu. upd c c0; [|tauto]. rewrite Hp, list_elem_of_filter.
    destruct (decide (l0 = l)) as [->|]; intuition congruence.
  - simpl. upd c c0; auto. by apply list.NoDup_filter.
  - simpl. upd c c0; eauto. rewrite list_elem_of_filter.
    intros [[=]|[[=]|[[=]|[=]]]]; subst; tauto.
  - simpl. upd c c0; auto. rewrite Fnoff, Hp. simpl.
    rewrite (length_filter_ne l (held s c)) by auto. lia.
  - simpl. auto.
Qed.

Lemma inv_relclr s c l :
  inv s -> pcs s c = RelClr l -> inv (set_pc c (RelSwap l) (set_lkcpu l None s)).
Proof.
  intros HI Hp. inv_facts HI.
  assert (owns s c l) as Hcl by (unfold owns; auto).
  assert (forall d k, owns (set_pc c (RelSwap l) (set_lkcpu l None s)) d k -> owns s d k) as Hown.
  { intros d k. unfold owns, set_pc, set_lkcpu, set_lock. simpl. upd c d; [|tauto].
    rewrite Hp. intros [?|[[=]|[[=]|[=]]]]; subst; auto. }
  split; intros *.
  - unfold set_pc, set_lkcpu, set_lock; simpl. upd l l0; auto.
  - intros Hd. unfold set_pc, set_lkcpu, set_lock; simpl. apply Hown in Hd. upd l l0; eauto.
  - intros Ha Hb. eauto.
  - unfold set_pc, set_lkcpu, set_lock; simpl. upd l l0.
    + split; [discriminate|]. intros Hd. exfalso. destruct (decide (c0 = c)) as [->|Hne].
      * fn_simp. destruct Hd as [Hd|[=]]. eapply Ffresh; eauto.
      * fn_simp. apply Hne. eapply Fexcl; [|exact Hcl]. unfold owns. tauto.
    + rewrite Fcpu. upd c c0; [|tauto]. rewrite Hp. intuition congruence.
  - simpl. auto.
  - simpl. upd c c0; eauto. intros [|[|[|[=]]]]; subst; try discriminate. eapply Ffresh. eauto.
  - simpl. upd c c0; auto. rewrite Fnoff, Hp. reflexivity.
  - simpl. auto.
Qed.

Lemma inv_relswap s c l :
  inv s -> pcs s c = RelSwap l -> inv (set_pc c RelPop (set_locked l 0 s)).
Proof.
  intros HI Hp. inv_facts HI.
  assert (owns s c l) as Hcl by (unfold owns; auto).
  assert (forall d k, owns (set_pc c RelPop (set_locked l 0 s)) d k -> owns s d k /\ k <> l) as Hown.
  { intros d k Hd. assert (owns s d k) as Hs.
    { revert Hd. unfold owns, set_pc, set_locked, set_lock. simpl. upd c d; [|tauto].
      intros [?|[[=]|[[=]|[=]]]]; auto. }
    split; [exact Hs|]. intros ->. assert (d = c) as -> by eauto.
    revert Hd. unfold owns, set_pc, set_locked, set_lock. simpl. fn_simp.
    intros [?|[[=]|[[=]|[=]]]]. eapply Ffresh; eauto. }
  split; intros *.
  - unfold set_pc, set_locked, set_lock; simpl. upd l l0; auto.
  - intros Hd. apply Hown in Hd. destruct Hd. unfold set_pc, set_locked, set_lock; simpl. upd l l0; eauto; congruence.
  - intros Ha Hb. apply Hown in Ha, Hb. destruct Ha, Hb. eauto.
  - unfold set_pc, set_locked, set_lock; simpl.
    replace (lkcpu _) with (lkcpu (locks s l0)) by (upd l l0; auto).
    rewrite Fcpu. upd c c0; [|tauto]. rewrite Hp. intuition congruence.
  - simpl. auto.
  - simpl. upd c c0; eauto. intros [|[|[|]]]; discriminate.
  - simpl. upd c c0; auto. rewrite Fnoff, Hp. reflexivity.
  - simpl. auto.
Qed.

(** The program points at which a CPU does not own a lock outside [held]. *)
Definition plain (p : pc) : bool :=
  match p with AcqSet _ | RelClr _ | RelSwap _ => false | _ => true end.

(** A CPU that owns nothing in transit moves on; [t] may differ in its struct cpu. *)
Lemma inv_move s t c p :
  inv s -> plain (pcs s c) = true -> plain p = true ->
  locks t = locks s -> pcs t = pcs s -> held t = held s ->
  (forall d, d <> c -> cpus t d = cpus s d) ->
  noff (cpus t c) = Z.of_nat (length (held s c) + extra p) ->
  (noff (cpus t c) <> 0 -> sie (cpus t c) = false) ->
  (forall l, p = AcqSwap l -> l ∉ held s c) ->
  inv (set_pc c p t).
Proof.
  intros HI Hp Hp' HL HP HH Hd Hn Hs Hsw.
  apply (inv_local s _ c); simpl; auto; fn_simp; auto.
  - intros d Hne. fn_simp. rewrite HP. auto.
  - intros l. unfold owns. simpl. fn_simp. rewrite HH. destruct p; intuition discriminate.
  - intros l. destruct p, (pcs s c); try discriminate; intuition discriminate.
  - intros l [->|[->|[->| ->]]]; try discriminate. auto.
Qed.

Lemma inv_jump s c p :
  inv s -> plain (pcs s c) = true -> plain p = true -> extra p = extra (pcs s c) ->
  (forall l, p = AcqSwap l -> l ∉ held s c) -> inv (set_pc c p s).
Proof.
  intros HI ? ? He ?. apply (inv_move s s); auto; [|apply HI].
  rewrite He. apply HI.
Qed.

Lemma acquire_step_inv s s' c : inv s -> acquire_step c s = Some (Ok tt s') -> inv s'.
Proof.
  intros HI Hr. inv_facts HI. unfold acquire_step in Hr.
  destruct (pcs s c) as [|l|l|l|l|l|l|l|l|] eqn:Hp; try discriminate.
  - injection Hr as <-. apply inv_jump; rewrite ?Hp; auto; destruct (_ =? _) eqn:E; try discriminate; auto.
    intros k [= <-] Hin. apply Z.eqb_eq in E. rewrite (Ffree c l) in E; [lia|]. unfold owns. auto.
  - destruct (bool_decide _) eqn:E; [discriminate|]. apply bool_decide_eq_false in E.
    injection Hr as <-. apply inv_jump; rewrite ?Hp; auto.
    intros k [= <-] Hin. apply E, Fcpu. auto.
  - injection Hr as <-. destruct (Z.eqb_spec (locked (locks s l)) 0) as [E|E].
    + by apply inv_swap.
    + by apply (inv_spin s c).
  - injection Hr as <-. by apply inv_set.
Qed.

Lemma release_step_inv s s' c : inv s -> release_step c s = Some (Ok tt s') -> inv s'.
Proof.
  intros HI Hr. inv_facts HI. unfold release_step in Hr.
  destruct (pcs s c) as [|l|l|l|l|l|l|l|l|] eqn:Hp; try discriminate.
  - destruct (_ =? _) eqn:E; [discriminate|]. injection Hr as <-.
    apply inv_jump; rewrite ?Hp; auto. discriminate.
  - destruct (bool_decide _) eqn:E; [|discriminate]. apply bool_decide_eq_true in E.
    injection Hr as <-. by apply inv_relcpu.
  - injection Hr as <-. by apply inv_relclr.
  - injection Hr as <-. by apply inv_relswap.
  - assert (1 <= noff (cpus s c)) as Hn by (rewrite Fnoff, Hp; simpl; lia).
    destruct (pop_off_ok c s) as (t & Ht & HL & HP & HH & Hc & Hd); [apply Fsie; lia | lia |].
    injection Hr as Hr. unfold bind in Hr. rewrite Ht in Hr. injection Hr as <-.
    apply (inv_move s); rewrite ?Hp, ?Hc; auto; simpl; [rewrite Fnoff, Hp; simpl; lia | | discriminate].
    intros Hnz. replace (noff (cpus s c) =? 1) with false; [reflexivity|].
    symmetry. apply Z.eqb_neq. lia.
Qed.

Lemma step_inv s s' : inv s -> step s (Ok tt s') -> inv s'.
Proof.
  intros HI Hstep. inv_facts HI. inversion Hstep as [c l Hp Hr|c l Hp|c r Hr|c r Hr]; subst.
  - destruct (push_off_ok c s) as (t & Ht & HL & HP & HH & Hc & Hd).
    unfold bind in Hr. rewrite Ht in Hr. injection Hr as <-.
    apply (inv_move s); rewrite ?Hp, ?Hc; auto; simpl; [rewrite Fnoff, Hp; simpl; lia | discriminate].
  - apply inv_jump; rewrite ?Hp; auto. discriminate.
  - by apply (acquire_step_inv s s' c).
  - by apply (release_step_inv s s' c).
Qed.

Lemma reachable_inv s : reachable s -> inv s.
Proof. induction 1; eauto using initial_inv, step_inv. Qed.

(** ** The theorems *)

(** C14: mutual exclusion. In every interleaving of any number of CPUs calling
    acquire() and release() on any locks, no lock is held by two CPUs, a CPU
    that holds a lock has interrupts off, and holding() answers exactly whether
    the calling CPU holds the lock. *)
Theorem spinlock_mutual_exclusion s :
  reachable s ->
  (forall c1 c2 l, l ∈ held s c1 -> l ∈ held s c2 -> c1 = c2) /\
  (forall c l, l ∈ held s c -> sie (cpus s c) = false) /\
  (forall c l, pcs s c <> RelClr l -> holding c l s = true <-> l ∈ held s c).
Proof.
  intros Hs%reachable_inv. inv_facts Hs. repeat split.
  - intros c1 c2 l H1 H2. apply (Fexcl c1 c2 l); unfold owns; auto.
  - intros c l Hl. apply Fsie. rewrite Fnoff. destruct (held s c); [set_solver | simpl; lia].
  - unfold holding. intros [_ Hc%bool_decide_eq_true]%andb_true_iff. apply Fcpu in Hc. tauto.
  - unfold holding. intros Hl. rewrite bool_decide_eq_true_2 by (apply Fcpu; auto).
    rewrite (Ffree c l) by (unfold owns; auto). reflexivity.
Qed.

Definition smp0 : smp :=
  mkSmp (fun _ => mkCpu 0 false true) (fun _ => mkLock 0 "lk" None) (fun _ => Idle) (fun _ => []).

Lemma smp0_initial : initial smp0.
Proof. split; [auto|]. intros l. exists "lk". reflexivity. Qed.

(** What a step does to the table of held locks. *)
Inductive held_step (h h' : nat -> list nat) : Prop :=
| held_stutter : (forall d, h' d = h d) -> held_step h h'
| held_acquire c l :
    (forall d, l ∉ h d) -> h' c = l :: h c -> (forall d, d <> c -> h' d = h d) -> held_step h h'
| held_release c l :
    l ∈ h c -> h' c = filter (fun x => x <> l) (h c) -> (forall d, d <> c -> h' d = h d) -> held_step h h'.

(** C15: refinement. Every step of the machine is, on the table of held locks,
    nothing, an acquire of a lock that no CPU holds, or a release of a lock its
    CPU holds; and the only panics are an acquire() of a lock the CPU already
    holds and a release() of one it does not hold. *)
Theorem spinlock_refines_held s r :
  reachable s -> step s r ->
  match r with
  | Ok _ s' => held_step (held s) (held s')
  | Panic m =>
      (m = "acquire" /\ exists c l, pcs s c = AcqCpu l /\ l ∈ held s c) \/
      (m = "release" /\ exists c l, (pcs s c = RelLocked l \/ pcs s c = RelCpu l) /\ l ∉ held s c)
  | _ => False
  end.
Proof.
  intros Hs%reachable_inv Hstep. inv_facts Hs.
  inversion Hstep as [c l Hp|c l Hp|c r' Hr|c r' Hr]; subst.
  - destruct (push_off_ok c s) as (t & Ht & HL & HP & HH & _). unfold bind. rewrite Ht. simpl.
    apply held_stutter. intros. rewrite HH. auto.
  - apply held_stutter. auto.
  - unfold acquire_step in Hr. destruct (pcs s c) as [|l|l|l|l|l|l|l|l|] eqn:Hp; try discriminate;
      injection Hr as <-.
    + apply held_stutter. auto.
    + destruct (bool_decide _) eqn:E; [|apply held_stutter; auto]. apply bool_decide_eq_true in E.
      left. split; [reflexivity|]. exists c, l. split; [auto|]. apply Fcpu in E. rewrite Hp in E.
      intuition discriminate.
    + apply held_stutter. intros d. destruct (_ =? _); reflexivity.
    + apply held_acquire with c l; simpl; [|by rewrite fn_lookup_insert|intros; fn_simp; auto].
      intros d Hd. assert (d = c) as -> by (apply (Fexcl d c l); unfold owns; auto).
      eapply Ffresh; eauto.
  - unfold release_step in Hr. destruct (pcs s c) as [|l|l|l|l|l|l|l|l|] eqn:Hp; try discriminate;
      injection Hr as <-.
    + destruct (_ =? _) eqn:E; [|apply held_stutter; auto]. apply Z.eqb_eq in E.
      right. split; [reflexivity|]. exists c, l. split; [auto|]. intros Hl.
      rewrite (Ffree c l) in E; [lia|]. unfold owns; auto.
    + destruct (bool_decide _) eqn:E.
      * apply bool_decide_eq_true, Fcpu in E. rewrite Hp in E. destruct E as [E|[=]].
        apply held_release with c l; simpl; [auto|by rewrite fn_lookup_insert|intros; fn_simp; auto].
      * apply bool_decide_eq_false in E. right. split; [reflexivity|]. exists c, l. split; [auto|].
        intros Hl. apply E, Fcpu. auto.
    + apply held_stutter. auto.
    + apply held_stutter. auto.
    + assert (1 <= noff (cpus s c)) as Hn by (rewrite Fnoff, Hp; simpl; lia).
      destruct (pop_off_ok c s) as (t & Ht & HL & HP & HH & _); [apply Fsie; lia | lia |].
      unfold bind. rewrite Ht. simpl. apply held_stutter. intros. rewrite HH. auto.
Qed.

(** Push_off() and pop_off() nest. From any state in which a positive
    nesting count means interrupts off, push_off() turns interrupts off, and
    the matching pop_off() does not panic and gives back the nesting count and
    the interrupt state. *)
Theorem push_pop_balanced c s :
  0 <= noff (cpus s c) -> (noff (cpus s c) <> 0 -> sie (cpus s c) = false) ->
  exists s1 s2,
    push_off c s = Ok tt s1 /\ sie (cpus s1 c) = false /\ noff (cpus s1 c) = noff (cpus s c) + 1 /\
    pop_off c s1 = Ok tt s2 /\
    noff (cpus s2 c) = noff (cpus s c) /\ sie (cpus s2 c) = sie (cpus s c) /\
    (forall d, d <> c -> cpus s2 d = cpus s d).
Proof.
  intros Hn Hs. destruct (push_off_ok c s) as (s1 & H1 & _ & _ & _ & Hc & Hd).
  destruct (pop_off_ok c s1) as (s2 & H2 & _ & _ & _ & Hc2 & Hd2); rewrite ?Hc; simpl; auto; [lia|].
  exists s1, s2. rewrite Hc in Hc2. rewrite Hc, Hc2. simpl. repeat split; auto; [lia | |].
  - destruct (Z.eqb_spec (noff (cpus s c)) 0) as [->|Hne]; [simpl; auto|].
    replace (noff (cpus s c) + 1 =? 1) with false by (symmetry; apply Z.eqb_neq; lia).
    simpl. symmetry. auto.
  - intros d Hne. rewrite Hd2, Hd; auto.
Qed.

(** ** Witnesses: CPU 0 takes lock 7 *)

Definition after (r : option (res smp unit)) (s : smp) : smp :=
  match r with Some (Ok _ s') => s' | _ => s end.
Definition smp1 : smp := after (Some ((push_off 0 ;;; modify (set_pc 0 (AcqLocked 7))) smp0)) smp0.
Definition smp2 : smp := after (acquire_step 0 smp1) smp1.
Definition smp3 : smp := after (acquire_step 0 smp2) smp2.
Definition smp4 : smp := after (acquire_step 0 smp3) smp3.

Lemma smp4_reachable : reachable smp4.
Proof.
  apply reach_step with smp3; [|apply (step_acquire _ 0); reflexivity].
  apply reach_step with smp2; [|apply (step_acquire _ 0); reflexivity].
  apply reach_step with smp1; [|apply (step_acquire _ 0); reflexivity].
  apply reach_step with smp0; [apply reach_init, smp0_initial|].
  apply (step_call_acquire smp0 0 7). reflexivity.
Qed.

Lemma spinlock_mutual_exclusion_witness :
  held smp4 0 = [7%nat] /\ sie (cpus smp4 0) = false.
Proof.
  split; [reflexivity|].
  apply (proj1 (proj2 (spinlock_mutual_exclusion smp4 smp4_reachable)) 0 7)%nat.
  constructor.
Defined.

Lemma spinlock_refines_held_witness : held_step (held smp3) (held smp4).
Proof.
  apply (spinlock_refines_held smp3 (Ok tt smp4)).
  - apply reach_step with smp2; [|apply (step_acquire _ 0); reflexivity].
    apply reach_step with smp1; [|apply (step_acquire _ 0); reflexivity].
    apply reach_step with smp0; [apply reach_init, smp0_initial|].
    apply (step_call_acquire smp0 0 7). reflexivity.
  - apply (step_acquire _ 0). reflexivity.
Defined.

Lemma push_pop_balanced_witness :
  exists s1 s2, push_off 0 smp4 = Ok tt s1 /\ pop_off 0 s1 = Ok tt s2 /\ noff (cpus s2 0) = 1.
Proof.
  destruct (push_pop_balanced 0 smp4) as (s1 & s2 & H1 & _ & _ & H2 & H3 & _).
  - vm_compute. discriminate.
  - reflexivity.
  - exists s1, s2. repeat split; auto.
Defined.

End Spin.
