(* ===== verification/Mem.v ===== *)
(** * Kernel memory and string.c.

    Memory is a finite map from addresses to bytes.  [memset], [memcmp] and
    [memmove] work on memory at given addresses; the functions on strings work
    on the bytes a [char*] points to, as a list (reading past the list gives the
    terminating NUL). *)

From S2P Require Import Prelude.

(** ** Memory accesses *)

Definition mem_get (m : gmap Z Z) (a : Z) : Z := default 0 (m !! a).

Fixpoint load_bytes (m : gmap Z Z) (a : Z) (n : nat) : list Z :=
  match n with
  | O => []
  | S n => mem_get m a :: load_bytes m (a + 1) n
  end.

Fixpoint store_bytes (m : gmap Z Z) (a : Z) (l : list Z) : gmap Z Z :=
  match l with
  | [] => m
  | b :: l => store_bytes (<[a := b]> m) (a + 1) l
  end.

(** 64-bit and 32-bit loads and stores, little-endian. *)
Definition load64 (m : gmap Z Z) (a : Z) : Z := le_val (load_bytes m a 8).
Definition store64 (m : gmap Z Z) (a v : Z) : gmap Z Z := store_bytes m a (le_bytes 8 v).
Definition load32 (m : gmap Z Z) (a : Z) : Z := le_val (load_bytes m a 4).
Definition store32 (m : gmap Z Z) (a v : Z) : gmap Z Z := store_bytes m a (le_bytes 4 v).

Definition mem_ok (m : gmap Z Z) : Prop := forall a, 0 <= mem_get m a < 256.

Lemma store_bytes_lookup m a l x :
  store_bytes m a l !! x =
    if decide (a <= x < a + Z.of_nat (length l)) then Some (l !!! Z.to_nat (x - a)) else m !! x.
Proof.
  revert m a. induction l as [|b l IH]; intros m a; cbn [store_bytes length].
  - rewrite decide_False by lia. reflexivity.
  - rewrite IH. destruct (decide (x = a)) as [->|Hx].
    + rewrite decide_False, decide_True, lookup_insert_eq by lia.
      rewrite Z.sub_diag. reflexivity.
    + case_decide.
      * rewrite decide_True by lia. replace (Z.to_nat (x - a)) with (S (Z.to_nat (x - (a + 1)))) by lia.
        reflexivity.
      * rewrite decide_False, lookup_insert_ne by lia. reflexivity.
Qed.

Lemma mem_get_store m a l x :
  mem_get (store_bytes m a l) x =
    if decide (a <= x < a + Z.of_nat (length l)) then l !!! Z.to_nat (x - a) else mem_get m x.
Proof. unfold mem_get. rewrite store_bytes_lookup. case_decide; reflexivity. Qed.

Lemma load_bytes_length m a n : length (load_bytes m a n) = n.
Proof. revert a. induction n; simpl; auto. Qed.

#[export] Hint Rewrite load_bytes_length : len.

Lemma load_bytes_lookup m a n i :
  (i < n)%nat -> load_bytes m a n !! i = Some (mem_get m (a + Z.of_nat i)).
Proof.
  revert a i. induction n as [|n IH]; intros a i Hi; [lia|].
  destruct i as [|i]; cbn [load_bytes].
  - simpl. by rewrite Z.add_0_r.
  - rewrite lookup_cons_ne_0 by lia. simpl Init.Nat.pred. rewrite IH by lia. do 2 f_equal. lia.
Qed.

Lemma load_bytes_total m a n i :
  (i < n)%nat -> load_bytes m a n !!! i = mem_get m (a + Z.of_nat i).
Proof. intros. apply list_lookup_total_correct, load_bytes_lookup. auto. Qed.

Lemma load_bytes_ext m m' a n :
  (forall i, a <= i < a + Z.of_nat n -> mem_get m i = mem_get m' i) ->
  load_bytes m a n = load_bytes m' a n.
Proof.
  revert a. induction n as [|n IH]; intros a H; cbn [load_bytes]; [reflexivity|].
  f_equal; [apply H; lia | apply IH; intros; apply H; lia].
Qed.

Lemma load_store_same m a l : load_bytes (store_bytes m a l) a (length l) = l.
Proof.
  apply list_eq_same_length with (length l); [auto | by len |].
  intros i x y Hi. rewrite load_bytes_lookup by lia. intros [= <-].
  rewrite mem_get_store, decide_True by lia. intros Hy.
  rewrite Z.add_simpl_l, Nat2Z.id. by apply list_lookup_total_correct.
Qed.

Lemma load_store_disjoint m a l b n :
  b + Z.of_nat n <= a \/ a + Z.of_nat (length l) <= b ->
  load_bytes (store_bytes m a l) b n = load_bytes m b n.
Proof.
  intros H. apply load_bytes_ext. intros i Hi. rewrite mem_get_store, decide_False by lia. auto.
Qed.

Lemma load_bytes_app m a n k :
  load_bytes m a (n + k) = load_bytes m a n ++ load_bytes m (a + Z.of_nat n) k.
Proof.
  revert a. induction n as [|n IH]; intros a; cbn [load_bytes Nat.add app].
  - by rewrite Z.add_0_r.
  - rewrite IH. do 3 f_equal. lia.
Qed.

Lemma store_bytes_app m a l1 l2 :
  store_bytes m a (l1 ++ l2) = store_bytes (store_bytes m a l1) (a + Z.of_nat (length l1)) l2.
Proof.
  revert m a. induction l1 as [|b l1 IH]; intros m a; cbn [store_bytes app length].
  - by rewrite Z.add_0_r.
  - rewrite IH. f_equal. lia.
Qed.

Lemma load_bytes_ok m a n : mem_ok m -> bytes_ok (load_bytes m a n).
Proof. intros Hm. revert a. induction n; constructor; auto. apply IHn. Qed.

Lemma mem_ok_store m a l : mem_ok m -> bytes_ok l -> mem_ok (store_bytes m a l).
Proof.
  intros Hm Hl x. rewrite mem_get_store. case_decide; [|auto].
  apply (Forall_lookup_total_1 _ l _ Hl). lia.
Qed.

Lemma load64_store64_eq m a v : load64 (store64 m a v) a = u64 v.
Proof.
  unfold load64, store64. rewrite <- (le_bytes_length 8 v) at 2.
  rewrite load_store_same, le_val_bytes. reflexivity.
Qed.

Lemma load64_store_ne m a l b :
  b + 8 <= a \/ a + Z.of_nat (length l) <= b -> load64 (store_bytes m a l) b = load64 m b.
Proof. intros. unfold load64. rewrite load_store_disjoint; auto. Qed.

Lemma load64_store64_ne m a v b :
  b + 8 <= a \/ a + 8 <= b -> load64 (store64 m a v) b = load64 m b.
Proof. intros. unfold store64. apply load64_store_ne. rewrite le_bytes_length. auto. Qed.

Lemma load64_range m a : mem_ok m -> 0 <= load64 m a < 2 ^ 64.
Proof.
  intros Hm. unfold load64. pose proof (le_val_range _ (load_bytes_ok m a 8 Hm)) as H.
  rewrite load_bytes_length in H. exact H.
Qed.

Lemma mem_ok_store64 m a v : mem_ok m -> mem_ok (store64 m a v).
Proof. intros. apply mem_ok_store; auto using le_bytes_ok. Qed.

(** ** string.c: blocks of memory *)

Fixpoint memset_loop (m : gmap Z Z) (cdst c i : Z) (n : nat) : gmap Z Z :=
  match n with
  | O => m
  | S n => memset_loop (<[cdst + i := u8 c]> m) cdst c (i + 1) n
  end.
Definition memset (m : gmap Z Z) (dst c n : Z) : gmap Z Z := memset_loop m dst c 0 (Z.to_nat n).

Fixpoint memcmp_loop (m : gmap Z Z) (s1 s2 : Z) (n : nat) : Z :=
  match n with
  | O => 0
  | S n =>
      if mem_get m s1 =? mem_get m s2 then memcmp_loop m (s1 + 1) (s2 + 1) n
      else mem_get m s1 - mem_get m s2
  end.
Definition memcmp (m : gmap Z Z) (v1 v2 n : Z) : Z := memcmp_loop m v1 v2 (Z.to_nat n).

(** [while(n-- > 0) *d++ = *s++;] *)
Fixpoint move_up (m : gmap Z Z) (d s : Z) (n : nat) : gmap Z Z :=
  match n with
  | O => m
  | S n => move_up (<[d := mem_get m s]> m) (d + 1) (s + 1) n
  end.
(** [while(n-- > 0) *--d = *--s;] *)
Fixpoint move_down (m : gmap Z Z) (d s : Z) (n : nat) : gmap Z Z :=
  match n with
  | O => m
  | S n => move_down (<[d - 1 := mem_get m (s - 1)]> m) (d - 1) (s - 1) n
  end.
Definition memmove (m : gmap Z Z) (dst src n : Z) : gmap Z Z :=
  if n =? 0 then m
  else if (src <? dst) && (dst <? src + n)
  then move_down m (dst + n) (src + n) (Z.to_nat n)
  else move_up m dst src (Z.to_nat n).

(** ** string.c: strings *)

(** [*p] *)
Definition chr (p : list Z) : Z := default 0 (head p).

Fixpoint strncmp (p q : list Z) (n : nat) : Z :=
  match n with
  | O => 0
  | S n =>
      if negb (chr p =? 0) && (chr p =? chr q) then strncmp (tail p) (tail q) n
      else u8 (chr p) - u8 (chr q)
  end.

(** The bytes strncpy(s, t, n) writes at [s]. *)
Fixpoint strncpy (t : list Z) (n : nat) : list Z :=
  match n with
  | O => []
  | S n => if chr t =? 0 then 0 :: replicate n 0 else chr t :: strncpy (tail t) n
  end.

(** The bytes safestrcpy(s, t, n) writes at [s]; the loop runs while [--n > 0]. *)
Fixpoint safestrcpy_loop (t : list Z) (n : nat) : list Z :=
  match n with
  | O => [0]
  | S n => if chr t =? 0 then [0; 0] else chr t :: safestrcpy_loop (tail t) n
  end.
Definition safestrcpy (t : list Z) (n : Z) : list Z :=
  if n <=? 0 then [] else safestrcpy_loop t (Z.to_nat (n - 1)).

Fixpoint strlen (s : list Z) : Z :=
  match s with
  | [] => 0
  | c :: s => if c =? 0 then 0 else 1 + strlen s
  end.

#[global] Strategy 100 [store_bytes load_bytes store64 load64 store32 load32 memset memmove memcmp].

(** ** Facts and theorems about string.c *)

Lemma memset_loop_spec m d c i n :
  memset_loop m d c i n = store_bytes m (d + i) (replicate n (u8 c)).
Proof.
  revert m i. induction n as [|n IH]; intros m i; cbn [memset_loop replicate store_bytes]; [reflexivity|].
  rewrite IH. f_equal. lia.
Qed.

Lemma memset_spec m dst c n : memset m dst c n = store_bytes m dst (replicate (Z.to_nat n) (u8 c)).
Proof. unfold memset. rewrite memset_loop_spec. by rewrite Z.add_0_r. Qed.

Lemma insert_load_ext m a v b n :
  ~ (b <= a < b + Z.of_nat n) -> load_bytes (<[a := v]> m) b n = load_bytes m b n.
Proof.
  intros H. apply load_bytes_ext. intros i Hi. unfold mem_get.
  rewrite lookup_insert_ne by lia. reflexivity.
Qed.

Lemma move_up_spec m d s n :
  d <= s \/ s + Z.of_nat n <= d -> move_up m d s n = store_bytes m d (load_bytes m s n).
Proof.
  revert m d s. induction n as [|n IH]; intros m d s H; cbn [move_up load_bytes store_bytes]; [reflexivity|].
  rewrite IH by lia. rewrite insert_load_ext by lia. reflexivity.
Qed.

Lemma move_down_spec m d s n :
  s <= d -> move_down m d s n = store_bytes m (d - Z.of_nat n) (load_bytes m (s - Z.of_nat n) n).
Proof.
  revert m d s. induction n as [|n IH]; intros m d s H; cbn [move_down]; [reflexivity|].
  rewrite IH by lia. rewrite insert_load_ext by lia.
  replace (S n) with (n + 1)%nat by lia. rewrite load_bytes_app.
  replace (s - 1 - Z.of_nat n) with (s - Z.of_nat (n + 1)) by lia.
  replace (d - 1 - Z.of_nat n) with (d - Z.of_nat (n + 1)) by lia.
  cbn [load_bytes]. replace (s - Z.of_nat (n + 1) + Z.of_nat n) with (s - 1) by lia.
  apply map_eq. intros x. rewrite !store_bytes_lookup. autorewrite with len. cbn [length].
  destruct (decide (x = d - 1)) as [->|Hx].
  - rewrite decide_False, decide_True, lookup_insert_eq by lia. f_equal. symmetry.
    rewrite lookup_total_app_r; len.
    replace (Z.to_nat _ - n)%nat with 0%nat by lia. reflexivity.
  - rewrite lookup_insert_ne by auto. case_decide; [rewrite decide_True by lia | rewrite decide_False by lia; auto].
    f_equal. rewrite lookup_total_app_l; [auto | len].
Qed.

Lemma memmove_spec m dst src n :
  0 <= n -> memmove m dst src n = store_bytes m dst (load_bytes m src (Z.to_nat n)).
Proof.
  intros Hn. unfold memmove. destruct (Z.eqb_spec n 0) as [->|Hn0]; [reflexivity|].
  destruct (_ && _) eqn:E; bools.
  - rewrite move_down_spec by lia. f_equal; [lia | f_equal; lia].
  - apply move_up_spec. destruct (Z.ltb_spec src dst); simpl in E; bools; lia.
Qed.

(** Memmove() copies the source bytes as they were before the call,
    whatever the overlap of the two areas, and changes nothing else. *)
Theorem memmove_correct m dst src n a :
  0 <= n ->
  load_bytes (memmove m dst src n) dst (Z.to_nat n) = load_bytes m src (Z.to_nat n) /\
  (~ dst <= a < dst + n -> mem_get (memmove m dst src n) a = mem_get m a).
Proof.
  intros Hn. rewrite memmove_spec by auto. split.
  - rewrite <- (load_bytes_length m src (Z.to_nat n)) at 2. apply load_store_same.
  - intros Ha. rewrite mem_get_store, load_bytes_length, decide_False by lia. reflexivity.
Qed.

Lemma memmove_correct_witness :
  load_bytes (memmove (store_bytes ∅ 10 [1; 2; 3; 4]) 12 10 4) 12 4 = [1; 2; 3; 4].
Proof.
  change 4%nat with (Z.to_nat 4).
  rewrite (proj1 (memmove_correct (store_bytes ∅ 10 [1; 2; 3; 4]) 12 10 4 0 ltac:(lia))).
  vm_compute. reflexivity.
Defined.

(** The string at [l], cut at [n] characters. *)
Fixpoint cstr (n : nat) (l : list Z) : list Z :=
  match n with
  | O => []
  | S n => if chr l =? 0 then [] else chr l :: cstr n (tail l)
  end.

Lemma chr_ok l : bytes_ok l -> 0 <= chr l < 256.
Proof. destruct l; unfold chr; simpl; [lia|]. intros H. by apply Forall_inv in H. Qed.

Lemma tail_ok l : bytes_ok l -> bytes_ok (tail l).
Proof. destruct l; simpl; auto. intros H. by apply Forall_inv_tail in H. Qed.

#[export] Hint Resolve tail_ok : xv6.

(** Strncmp() is 0 exactly when the two strings agree up to [n] characters,
    and the sign of its result is the byte order of the first difference: it is
    negative exactly when the first string is a strict prefix of the second, or
    has the smaller byte where they differ. *)
Theorem strncmp_correct p q n :
  bytes_ok p -> bytes_ok q ->
  (strncmp p q n = 0 <-> cstr n p = cstr n q) /\
  (strncmp p q n < 0 <->
     exists pre b rest, cstr n q = pre ++ b :: rest /\
       (cstr n p = pre \/ exists a rest', cstr n p = pre ++ a :: rest' /\ a < b)).
Proof.
  revert p q. induction n as [|n IH]; intros p q Hp Hq; cbn [strncmp cstr].
  { split; [tauto|]. split; [lia|]. intros (pre & b & rest & H & _). destruct pre; discriminate. }
  pose proof (chr_ok p Hp). pose proof (chr_ok q Hq). unwrap.
  destruct (IH (tail p) (tail q)) as [IH0 IHlt]; auto with xv6.
  destruct (Z.eqb_spec (chr p) 0) as [E1|E1]; destruct (Z.eqb_spec (chr q) 0) as [E2|E2]; simpl.
  - split; [split; intros; lia || auto|]. split; [lia|]. intros (pre & b & rest & Hx & _). destruct pre; discriminate.
  - split; [split; [lia|discriminate]|]. split; [|lia]. intros _. exists [], (chr q), (cstr n (tail q)). auto.
  - destruct (Z.eqb_spec (chr p) (chr q)); [lia|].
    split; [split; [lia|discriminate]|]. split; [lia|]. intros (pre & b & rest & Hx & _). destruct pre; discriminate.
  - destruct (Z.eqb_spec (chr p) (chr q)) as [E|E].
    + rewrite IH0, IHlt. rewrite E. split; [split; [congruence | by intros [= ->]]|]. split.
      * intros (pre & b & rest & Hx & Hy). exists (chr q :: pre), b, rest. rewrite Hx. split; [auto|].
        destruct Hy as [->|(a & r & -> & ?)]; [left; auto | right; exists a, r; auto].
      * intros (pre & b & rest & Hx & Hy). destruct pre as [|c pre]; injection Hx as <- Hx.
        { destruct Hy as [[=]|(a & r & [= <- Hy] & ?)]. lia. }
        exists pre, b, rest. split; [auto|].
        destruct Hy as [[= ->]|(a & r & [= Hy] & ?)]; [left; auto | right; exists a, r; auto].
    + split; [split; [lia | by intros [= ? ?]]|]. split.
      * intros. exists [], (chr q), (cstr n (tail q)). split; [auto|]. right. exists (chr p), (cstr n (tail p)).
        split; [auto | lia].
      * intros (pre & b & rest & Hx & Hy). destruct pre as [|c pre]; injection Hx as <- Hx.
        { destruct Hy as [[=]|(a & r & [= <- Hy] & ?)]. lia. }
        destruct Hy as [[= ? ?]|(a & r & [= ? Hy] & ?)]; congruence.
Qed.

Lemma strncmp_correct_witness :
  bytes_ok [97; 98; 0; 9] /\ strncmp [97; 98; 0; 9] [97; 98] 14 = 0.
Proof.
  assert (bytes_ok [97; 98; 0; 9]) as H1 by (repeat constructor; lia).
  assert (bytes_ok [97; 98]) as H2 by (repeat constructor; lia).
  split; [exact H1|]. apply (strncmp_correct _ _ 14 H1 H2). reflexivity.
Defined.

Lemma cstr_nz n l : Forall (fun c => c <> 0) (cstr n l).
Proof.
  revert l. induction n; intros l; cbn [cstr]; [constructor|].
  destruct (Z.eqb_spec (chr l) 0); constructor; auto.
Qed.

Lemma cstr_length n l : (length (cstr n l) <= n)%nat.
Proof. revert l. induction n; intros l; cbn [cstr]; [auto|]. destruct (_ =? _); simpl; [lia|]. specialize (IHn (tail l)). lia. Qed.

Lemma strncpy_spec t n : strncpy t n = cstr n t ++ replicate (n - length (cstr n t)) 0.
Proof.
  revert t. induction n as [|n IH]; intros t; cbn [strncpy cstr]; [reflexivity|].
  destruct (_ =? _); simpl; [reflexivity|]. by rewrite IH.
Qed.

Lemma strncpy_length t n : length (strncpy t n) = n.
Proof. rewrite strncpy_spec, length_app, length_replicate. pose proof (cstr_length n t). lia. Qed.

Lemma cstr_app_replicate l n k rest :
  Forall (fun c => c <> 0) l -> (length l + k = n)%nat -> cstr n (l ++ replicate k 0 ++ rest) = l.
Proof.
  intros Hl. revert n. induction Hl as [|c l Hc Hl IH]; intros n Hn; simpl in *.
  - destruct n, k; simpl; try lia; auto.
  - destruct n; [lia|]. cbn [cstr chr app head default]. simpl. 
    replace (c =? 0) with false by (symmetry; by apply Z.eqb_neq). f_equal. apply IH. lia.
Qed.

(** The two bounded copies. strncpy() writes exactly [n] bytes that read back
    as the source string cut at [n]; safestrcpy() with [n > 0] writes at most [n]
    bytes, always with a NUL among them, that read back as the source cut at [n-1]. *)
Theorem string_copies_correct t n :
  (length (strncpy t n) = n /\ forall rest, cstr n (strncpy t n ++ rest) = cstr n t) /\
  (forall k, 0 < k ->
     Z.of_nat (length (safestrcpy t k)) <= k /\
     strlen (safestrcpy t k) = Z.of_nat (length (cstr (Z.to_nat (k - 1)) t)) /\
     exists zeros, safestrcpy t k = cstr (Z.to_nat (k - 1)) t ++ 0 :: zeros).
Proof.
  split.
  - rewrite strncpy_spec. pose proof (cstr_length n t). split; [len|].
    intros rest. rewrite <- app_assoc. apply cstr_app_replicate; [apply cstr_nz | lia].
  - intros k Hk. unfold safestrcpy. replace (k <=? 0) with false by (symmetry; apply Z.leb_gt; lia).
    replace k with (Z.of_nat (Z.to_nat (k - 1)) + 1) at 2 by lia.
    generalize (Z.to_nat (k - 1)) as j. clear Hk. intros j. revert t.
    induction j as [|j IH]; intros t; cbn [safestrcpy_loop cstr]; [split; [simpl; lia|]; split; [reflexivity | by exists []]|].
    destruct (Z.eqb_spec (chr t) 0); [simpl; split; [lia|]; split; [reflexivity | by exists [0]]|].
    destruct (IH (tail t)) as (H1 & H2 & zs & H3). simpl.
    replace (chr t =? 0) with false by (symmetry; by apply Z.eqb_neq).
    split; [lia|]. split; [lia|]. exists zs. by rewrite H3.
Qed.

Lemma string_copies_correct_witness : strlen (safestrcpy [105; 110; 105; 116; 99; 111; 100; 101] 5) = 4.
Proof. rewrite (proj1 (proj2 (proj2 (string_copies_correct [105; 110; 105; 116; 99; 111; 100; 101] 14) 5 ltac:(lia)))). reflexivity. Defined.
