(* ===== verification/Kalloc.v ===== *)
(** * kalloc.c: the physical page allocator.

    The free pages are linked through their first word, as in the C code.
    [kmem_inv] ties that linked list to the list of free pages. *)

From S2P Require Import Prelude Exec Params State Mem.

(** ** Memory accesses of kernel code *)

Definition upd_mem (f : gmap Z Z -> gmap Z Z) : KM unit :=
  modify (fun s => with_k_mem (f (k_mem s)) s).
Definition ld64 (a : Z) : KM Z := gets (fun s => load64 (k_mem s) a).
Definition st64 (a v : Z) : KM unit := upd_mem (fun m => store64 m a v).

(** The contents of a page of which every byte is [c]. *)
Definition fill (c : Z) : list Z := replicate (Z.to_nat PGSIZE) c.

Lemma fill_length c : Z.of_nat (length (fill c)) = PGSIZE.
Proof. unfold fill. rewrite length_replicate. reflexivity. Qed.

Lemma fill_lookup c i : 0 <= i < PGSIZE -> fill c !!! Z.to_nat i = c.
Proof. intros. unfold fill. apply lookup_total_replicate_2. lia. Qed.

Lemma memset_page m p c : 0 <= c < 256 -> memset m p c PGSIZE = store_bytes m p (fill c).
Proof. intros. rewrite memset_spec, u8_id by lia. reflexivity. Qed.

#[global] Opaque fill.

Section kalloc.
Context `{LinkerOk}.

(** ** kalloc.c *)

Definition kfree (pa : Z) : KM unit :=
  if negb (pa mod PGSIZE =? 0) || (pa <? kend) || (PHYSTOP <=? pa) then panic "kfree" else
  (* Fill with junk to catch dangling refs. *)
  upd_mem (fun m => memset m pa 1 PGSIZE) ;;;
  acquire Lkmem ;;;
  fl <- gets k_freelist ;;
  st64 pa fl ;;;
  modify (with_k_freelist pa) ;;;
  release Lkmem.

Definition kalloc : KM Z :=
  acquire Lkmem ;;;
  r <- gets k_freelist ;;
  when (negb (r =? 0)) (nxt <- ld64 r ;; modify (with_k_freelist nxt)) ;;;
  release Lkmem ;;;
  when (negb (r =? 0)) (upd_mem (fun m => memset m r 5 PGSIZE)) ;;;
  ret r.

Definition freerange (pa_start pa_end : Z) : KM unit :=
  let p0 := PGROUNDUP pa_start in
  loop (Z.to_nat ((pa_end - p0) / PGSIZE + 2)) (fun p =>
    if p + PGSIZE <=? pa_end then kfree p ;;; ret (inl (p + PGSIZE)) else ret (inr tt)) p0.

Definition kinit : KM unit := freerange kend PHYSTOP.

(** ** The free list *)

Definition page_ok (p : Z) : Prop := p mod PGSIZE = 0 /\ kend <= p < PHYSTOP.

Fixpoint free_list (m : gmap Z Z) (head : Z) (l : list Z) : Prop :=
  match l with
  | [] => head = 0
  | p :: l => head = p /\ free_list m (load64 m p) l
  end.

Record kmem_inv (s : kernel) (fl : list Z) : Prop := {
  km_list : free_list (k_mem s) (k_freelist s) fl;
  km_nodup : NoDup fl;
  km_ok : Forall page_ok fl;
}.

Definition in_page (p a : Z) : Prop := p <= a < p + PGSIZE.

Lemma page_ok_nz p : page_ok p -> 0 < p < 2 ^ 56.
Proof.
  intros [_ ?]. pose proof kend_range. unfold KERNBASE, PHYSTOP, KERNBASE in *. lia.
Qed.

(** Two different pages do not overlap. *)
Lemma page_disjoint p q a : p mod PGSIZE = 0 -> q mod PGSIZE = 0 -> in_page p a -> in_page q a -> p = q.
Proof. unfold in_page, PGSIZE. intros. dlia. Qed.

Lemma free_list_frame m m' h l :
  free_list m h l -> (forall p a, p ∈ l -> in_page p a -> mem_get m' a = mem_get m a) ->
  free_list m' h l.
Proof.
  revert h. induction l as [|p l IH]; intros h; simpl; [auto|].
  intros [-> Hl] Hf. split; [reflexivity|].
  replace (load64 m' p) with (load64 m p).
  - apply IH; [exact Hl|]. intros q a Hq. apply Hf. set_solver.
  - unfold load64. f_equal. apply load_bytes_ext. intros i Hi. symmetry. apply (Hf p); [set_solver|].
    unfold in_page, PGSIZE. lia.
Qed.

Lemma kmem_inv_frame s s' fl :
  kmem_inv s fl -> k_freelist s' = k_freelist s ->
  (forall p a, p ∈ fl -> in_page p a -> mem_get (k_mem s') a = mem_get (k_mem s) a) -> kmem_inv s' fl.
Proof.
  intros [HL HN HO] Hf Hm. split; [|exact HN|exact HO]. rewrite Hf. eapply free_list_frame; eauto.
Qed.

(** Writing inside a page that is not free leaves the free list alone. *)
Lemma kmem_inv_store s fl p a bs :
  kmem_inv s fl -> p mod PGSIZE = 0 -> p ∉ fl -> p <= a -> a + Z.of_nat (length bs) <= p + PGSIZE ->
  kmem_inv (with_k_mem (store_bytes (k_mem s) a bs) s) fl.
Proof.
  intros [HL HN HO] Hp Hfl Ho Hlen. split; [|exact HN|exact HO].
  eapply free_list_frame; [exact HL|]. intros q x Hq Hx.
  change (k_mem (with_k_mem ?m s)) with m. rewrite mem_get_store, decide_False; [reflexivity|].
  intros Hin. apply Hfl. replace p with q; [exact Hq|].
  rewrite Forall_forall in HO. destruct (HO q Hq) as [Hqm _].
  apply (page_disjoint q p x); auto. unfold in_page. lia.
Qed.

(** ** Specifications *)

Lemma kalloc_spec s fl (Q : Z -> kernel -> Prop) :
  kmem_inv s fl -> Lkmem ∉ k_held s ->
  match fl with
  | [] => Q 0 s
  | p :: fl' =>
      let s' := with_k_mem (store_bytes (k_mem s) p (fill 5))
                  (with_k_freelist (load64 (k_mem s) p) s) in
      kmem_inv s' fl' -> page_ok p -> p ∉ fl' -> Q p s'
  end ->
  wp kalloc Q s.
Proof.
  intros [HL HN HO] Hh HQ. unfold kalloc. wp_step. apply wp_acquire; [exact Hh|]. do 2 wp_step.
  destruct fl as [|p fl]; simpl in HL.
  - cbn [k_freelist with_k_held]. rewrite HL. cbn [Z.eqb negb]. wp_steps.
    eapply wp_release; [reflexivity|auto|]. wp_steps. exact HQ.
  - destruct HL as [Hp HL]. apply Forall_cons in HO. destruct HO as [Hpo HO].
    apply NoDup_cons in HN. destruct HN as [Hpf HN]. pose proof (page_ok_nz p Hpo) as Hnz.
    cbn [k_freelist with_k_held]. rewrite Hp. replace (p =? 0) with false by lia. cbn [negb].
    unfold ld64, upd_mem. wp_steps.
    eapply wp_release; [reflexivity|auto|]. wp_steps. rewrite memset_page by lia.
    ksimp. apply HQ; auto.
    apply (kmem_inv_store (with_k_freelist (load64 (k_mem s) p) s) fl p);
      [by split | apply Hpo | exact Hpf | lia | rewrite fill_length; lia].
Qed.

Lemma kfree_spec s fl pa (Q : unit -> kernel -> Prop) :
  kmem_inv s fl -> Lkmem ∉ k_held s -> page_ok pa -> pa ∉ fl ->
  (let s' := with_k_freelist pa
      (with_k_mem (store64 (store_bytes (k_mem s) pa (fill 1)) pa (k_freelist s)) s) in
   kmem_inv s' (pa :: fl) -> Q tt s') ->
  wp (kfree pa) Q s.
Proof.
  intros HI Hh Hpa Hfl HQ. unfold kfree, st64, upd_mem. pose proof Hpa as [Hm Hr].
  replace (_ || _ || _) with false.
  2: { symmetry. rewrite !orb_false_iff. repeat split; [apply negb_false_iff| |]; lia. }
  wp_steps. apply wp_acquire; [exact Hh|]. wp_steps.
  eapply wp_release; [reflexivity|auto|]. rewrite memset_page by lia. ksimp. apply HQ.
  set (s1 := with_k_mem (store_bytes (k_mem s) pa (fill 1)) s).
  assert (kmem_inv s1 fl) as H1.
  { apply (kmem_inv_store s fl pa); [exact HI | exact Hm | exact Hfl | lia | rewrite fill_length; lia]. }
  assert (kmem_inv (with_k_mem (store64 (k_mem s1) pa (k_freelist s)) s1) fl) as [HL HN HO].
  { apply (kmem_inv_store s1 fl pa); [exact H1 | exact Hm | exact Hfl | lia |].
    rewrite le_bytes_length. unfold PGSIZE. lia. }
  split; [|by constructor|by constructor]. cbn [free_list]. split; [reflexivity|].
  unfold s1 in *. cbn [k_mem k_freelist with_k_mem with_k_freelist] in *.
  rewrite load64_store64_eq. destruct HI as [HL' _ HO']. rewrite u64_id; [exact HL|].
  destruct fl as [|q fl]; cbn [free_list] in HL'; [rewrite HL'; lia|]. destruct HL' as [-> _].
  apply Forall_cons in HO'. destruct HO' as [Hq _]. pose proof (page_ok_nz q Hq). lia.
Qed.

(** The [n] pages from [p] upwards. *)
Fixpoint page_seq (p : Z) (n : nat) : list Z :=
  match n with
  | O => []
  | S n => p :: page_seq (p + PGSIZE) n
  end.

Lemma page_seq_elem p n q : q ∈ page_seq p n <-> exists i, 0 <= i < Z.of_nat n /\ q = p + i * PGSIZE.
Proof.
  revert p. induction n as [|n IH]; intros p; cbn [page_seq].
  - split; [intros H1; by apply elem_of_nil in H1 | intros (? & ? & ?); lia].
  - rewrite elem_of_cons, IH. split.
    + intros [->|(i & Hi & ->)]; [exists 0; lia | exists (i + 1); lia].
    + intros (i & Hi & ->). destruct (decide (i = 0)) as [->|]; [left; lia | right; exists (i - 1); lia].
Qed.

Lemma freerange_loop n : forall fuel p pa_end s fl,
  kmem_inv s fl -> Lkmem ∉ k_held s ->
  Forall page_ok (page_seq p n) -> (forall q, q ∈ page_seq p n -> q ∉ fl) ->
  p + Z.of_nat n * PGSIZE <= pa_end < p + (Z.of_nat n + 1) * PGSIZE -> (n < fuel)%nat ->
  wp (loop fuel (fun p =>
        if p + PGSIZE <=? pa_end then kfree p ;;; ret (inl (p + PGSIZE)) else ret (inr tt)) p)
     (fun _ s' => kmem_inv s' (rev (page_seq p n) ++ fl) /\ k_held s' = k_held s) s.
Proof.
  induction n as [|n IH]; intros fuel p pa_end s fl HI Hh Hok Hfl Hend Hfuel;
    (destruct fuel as [|fuel]; [lia|]); cbn [loop]; wp_step.
  - replace (p + PGSIZE <=? pa_end) with false by lia. wp_steps. auto.
  - replace (p + PGSIZE <=? pa_end) with true by (unfold PGSIZE in *; lia). wp_step.
    cbn [page_seq] in *. apply Forall_cons in Hok. destruct Hok as [Hp Hok].
    apply (kfree_spec s fl); auto; [apply Hfl; set_solver|]. intros s' HI'. wp_steps.
    assert (k_held s' = k_held s) as Hs' by reflexivity.
    eapply wp_mono; [apply (IH fuel (p + PGSIZE) pa_end s' (p :: fl)); auto; [|lia|lia]|].
    + intros q Hq Hin. apply elem_of_cons in Hin. destruct Hin as [->|Hin].
      * apply page_seq_elem in Hq. destruct Hq as (i & Hi & Hq). unfold PGSIZE in *. lia.
      * revert Hin. apply Hfl. set_solver.
    + cbn beta. intros _ s'' [HI'' Hh'']. split; [|congruence].
      cbn [rev]. rewrite <- app_assoc. exact HI''.
Qed.

(** ** Theorems *)

(** With the free pages [fl] linked from kmem.freelist, kalloc()
    returns 0 and changes nothing when there is none; otherwise it returns a
    page-aligned page of [end, PHYSTOP), takes it off the free list, fills it
    with 5s and changes no other byte of memory and nothing else of the kernel. *)
Theorem kalloc_correct s fl :
  kmem_inv s fl -> Lkmem ∉ k_held s ->
  wp kalloc (fun r s' =>
    match fl with
    | [] => r = 0 /\ s' = s
    | p :: fl' =>
        r = p /\ p mod PGSIZE = 0 /\ kend <= p < PHYSTOP /\ p ∉ fl' /\ kmem_inv s' fl' /\
        (forall a, mem_get (k_mem s') a = if decide (in_page p a) then 5 else mem_get (k_mem s) a) /\
        s' = with_k_mem (k_mem s') (with_k_freelist (k_freelist s') s)
    end) s.
Proof.
  intros HI Hh. apply (kalloc_spec s fl); auto. destruct fl as [|p fl]; [auto|].
  intros s' HI' [Hm Hr] Hp. repeat (split; [auto; fail|]). split; [|reflexivity].
  intros a. unfold s'. change (k_mem (with_k_mem ?m _)) with m. rewrite mem_get_store, fill_length.
  unfold in_page. case_decide; [apply fill_lookup; lia | reflexivity].
Qed.

(** Kfree(). It panics on an address that is not a page of [end, PHYSTOP);
    freeing a page that is not already free puts it in front of the free list
    and changes memory only inside that page. *)
Theorem kfree_correct s fl pa :
  kmem_inv s fl -> Lkmem ∉ k_held s -> pa ∉ fl ->
  (~ page_ok pa -> kfree pa s = Panic "kfree") /\
  (page_ok pa ->
   wp (kfree pa) (fun _ s' =>
     kmem_inv s' (pa :: fl) /\
     (forall a, ~ in_page pa a -> mem_get (k_mem s') a = mem_get (k_mem s) a) /\
     s' = with_k_mem (k_mem s') (with_k_freelist pa s)) s).
Proof.
  intros HI Hh Hfl. split.
  - intros Hpa. unfold kfree. replace (_ || _ || _) with true; [reflexivity|].
    symmetry. apply not_false_iff_true. intros Hf. bools. apply Hpa. split; lia.
  - intros Hpa. apply (kfree_spec s fl); auto. intros s' HI'. split; [exact HI'|]. split; [|reflexivity].
    intros a Ha. unfold s'. simpl. unfold store64, in_page in *.
    rewrite !mem_get_store, fill_length, le_bytes_length. unfold PGSIZE in *.
    rewrite !decide_False by lia. reflexivity.
Qed.

(** Kinit(). Starting from an empty free list, it frees every page of
    [end, PHYSTOP) exactly once: the free list it leaves has no duplicates and
    its members are exactly the page-aligned addresses of that range. *)
Theorem kinit_correct s :
  k_freelist s = 0 -> Lkmem ∉ k_held s ->
  wp kinit (fun _ s' => exists fl, kmem_inv s' fl /\ NoDup fl /\ forall p, p ∈ fl <-> page_ok p) s.
Proof.
  intros Hf Hh. unfold kinit, freerange. pose proof kend_range as Hk.
  assert (PGROUNDUP kend = (kend + PGSIZE - 1) / PGSIZE * PGSIZE) as Hup.
  { apply PGROUNDUP_eq. unfold PHYSTOP, KERNBASE, PGSIZE in *. lia. }
  set (p0 := PGROUNDUP kend) in *. set (n := Z.to_nat ((PHYSTOP - p0) / PGSIZE)).
  assert (p0 mod PGSIZE = 0 /\ kend <= p0 < kend + PGSIZE) as [Hp0 Hp1].
  { unfold PGSIZE in *. split; dlia. }
  assert (forall q, q ∈ page_seq p0 n <-> page_ok q) as Hseq.
  { intros q. rewrite page_seq_elem. unfold page_ok, n, PGSIZE, PHYSTOP, KERNBASE in *. split.
    - intros (i & Hi & ->). split; dlia.
    - intros [? ?]. exists ((q - p0) / 4096). split; dlia. }
  eapply wp_mono; [apply (freerange_loop n _ p0 PHYSTOP s [])|].
  - split; [simpl; auto | constructor | constructor].
  - exact Hh.
  - apply Forall_forall. intros q Hq. by apply Hseq.
  - set_solver.
  - unfold n, PGSIZE, PHYSTOP, KERNBASE in *. dlia.
  - unfold n, PGSIZE, PHYSTOP, KERNBASE in *. dlia.
  - cbn beta. intros _ s' [HI _]. exists (rev (page_seq p0 n) ++ []). split; [exact HI|].
    split; [apply HI|]. intros q. rewrite app_nil_r, list_elem_of_In, <- in_rev, <- list_elem_of_In. apply Hseq.
Qed.
End kalloc.

(** ** Witnesses: a memory with one free page, the first after the kernel *)

Definition pg0 : Z := KERNBASE + 139264.
Definition one_free : kernel := with_k_freelist pg0 (boot ∅).

Lemma one_free_inv : @kmem_inv ld0 one_free [pg0].
Proof.
  split; [split; reflexivity | apply NoDup_singleton |].
  constructor; [|constructor]. split; [reflexivity | simpl; unfold pg0, PHYSTOP, KERNBASE; lia].
Qed.

Lemma kalloc_correct_witness : wp kalloc (fun r s' => r = pg0 /\ kmem_inv (H := ld0) s' []) one_free.
Proof.
  eapply wp_mono; [apply (@kalloc_correct ld0 ld0_ok one_free [pg0])|].
  - apply one_free_inv.
  - apply not_elem_of_nil.
  - cbn beta iota. tauto.
Defined.

Lemma kfree_correct_witness :
  kfree (H := ld0) 4097 one_free = Panic "kfree" /\
  wp (kfree (H := ld0) (pg0 + 4096)) (fun _ s' => kmem_inv (H := ld0) s' [pg0 + 4096; pg0]) one_free.
Proof.
  split.
  - apply (@kfree_correct ld0 ld0_ok one_free [pg0] 4097).
    + apply one_free_inv.
    + apply not_elem_of_nil.
    + set_solver.
    + intros [? _]. discriminate.
  - eapply wp_mono; [apply (@kfree_correct ld0 ld0_ok one_free [pg0] (pg0 + 4096))|].
    + apply one_free_inv.
    + apply not_elem_of_nil.
    + unfold pg0, KERNBASE. set_solver.
    + split; [reflexivity | simpl; unfold pg0, PHYSTOP, KERNBASE; lia].
    + cbn beta. tauto.
Defined.

Lemma kinit_correct_witness :
  wp (kinit (H := ld0)) (fun _ s' => exists fl, kmem_inv (H := ld0) s' fl /\ pg0 ∈ fl) (boot ∅).
Proof.
  eapply wp_mono; [apply (@kinit_correct ld0 ld0_ok (boot ∅))|].
  - reflexivity.
  - apply not_elem_of_nil.
  - cbn beta. intros _ s' (fl & HI & _ & Hfl). exists fl. split; [exact HI|].
    apply Hfl. split; [reflexivity | simpl; unfold pg0, PHYSTOP, KERNBASE; lia].
Defined.
