(* ===== verification/Vm.v ===== *)
(** * vm.c: Sv39 page tables and user memory.

    Page tables live in memory: a page-table page is 512 64-bit words at a
    page-aligned address.  A kernel-side buffer that is copied to or from user
    space is the list of its bytes. *)

From S2P Require Import Prelude Exec Params State Mem Kalloc.

Section vm.
Context `{LinkerOk}.

(** &pagetable[i] *)
Definition pte_addr (pagetable i : Z) : Z := pagetable + 8 * i.

Definition walk (pagetable va : Z) (alloc : bool) : KM Z :=
  if MAXVA <=? va then panic "walk" else
  loop 3 (fun st : Z * Z =>
    let '(level, pagetable) := st in
    if 0 <? level then
      let pte := pte_addr pagetable (PX level va) in
      v <- ld64 pte ;;
      if has v PTE_V then ret (inl (level - 1, PTE2PA v))
      else if negb alloc then ret (inr 0)
      else
        pagetable <- kalloc ;;
        if pagetable =? 0 then ret (inr 0) else
        upd_mem (fun m => memset m pagetable 0 PGSIZE) ;;;
        st64 pte (Z.lor (PA2PTE pagetable) PTE_V) ;;;
        ret (inl (level - 1, pagetable))
    else ret (inr (pte_addr pagetable (PX 0 va)))) (2, pagetable).

Definition walkaddr (pagetable va : Z) : KM Z :=
  if MAXVA <=? va then ret 0 else
  pte <- walk pagetable va false ;;
  if pte =? 0 then ret 0 else
  v <- ld64 pte ;;
  if negb (has v PTE_V) then ret 0 else
  if negb (has v PTE_U) then ret 0 else
  ret (PTE2PA v).

Definition mappages (pagetable va size pa perm : Z) : KM Z :=
  if size =? 0 then panic "mappages: size" else
  let a := PGROUNDDOWN va in
  let last := PGROUNDDOWN (u64 (va + size - 1)) in
  loop (Z.to_nat ((if last <? a then MAXVA - a else last - a) / PGSIZE + 2)) (fun st : Z * Z =>
    let '(a, pa) := st in
    pte <- walk pagetable a true ;;
    if pte =? 0 then ret (inr (-1)) else
    v <- ld64 pte ;;
    if has v PTE_V then panic "mappages: remap" else
    st64 pte (Z.lor (Z.lor (PA2PTE pa) perm) PTE_V) ;;;
    if a =? last then ret (inr 0) else ret (inl (u64 (a + PGSIZE), u64 (pa + PGSIZE)))) (a, pa).

Definition kvmmap (kpgtbl va pa sz perm : Z) : KM unit :=
  r <- mappages kpgtbl va sz pa perm ;;
  if negb (r =? 0) then panic "kvmmap" else ret tt.

Definition uvmunmap (pagetable va npages : Z) (do_free : bool) : KM unit :=
  if negb (va mod PGSIZE =? 0) then panic "uvmunmap: not aligned" else
  let bound := u64 (va + u64 (npages * PGSIZE)) in
  loop (Z.to_nat (npages + 1)) (fun a =>
    if negb (a <? bound) then ret (inr tt) else
    pte <- walk pagetable a false ;;
    if pte =? 0 then panic "uvmunmap: walk" else
    v <- ld64 pte ;;
    if negb (has v PTE_V) then panic "uvmunmap: not mapped" else
    if PTE_FLAGS v =? PTE_V then panic "uvmunmap: not a leaf" else
    when do_free (kfree (PTE2PA v)) ;;;
    st64 pte 0 ;;;
    ret (inl (u64 (a + PGSIZE)))) va.

Definition uvmcreate : KM Z :=
  pagetable <- kalloc ;;
  if pagetable =? 0 then ret 0 else
  upd_mem (fun m => memset m pagetable 0 PGSIZE) ;;;
  ret pagetable.

Definition uvmfirst (pagetable : Z) (src : list Z) : KM unit :=
  let sz := Z.of_nat (length src) in
  if PGSIZE <=? sz then panic "uvmfirst: more than a page" else
  mem <- kalloc ;;
  upd_mem (fun m => memset m mem 0 PGSIZE) ;;;
  mappages pagetable 0 PGSIZE mem (Z.lor (Z.lor (Z.lor PTE_W PTE_R) PTE_X) PTE_U) ;;;
  upd_mem (fun m => store_bytes m mem src).

Definition uvmdealloc (pagetable oldsz newsz : Z) : KM Z :=
  if oldsz <=? newsz then ret oldsz else
  when (PGROUNDUP newsz <? PGROUNDUP oldsz)
    (let npages := i32 ((PGROUNDUP oldsz - PGROUNDUP newsz) / PGSIZE) in
     uvmunmap pagetable (PGROUNDUP newsz) (u64 npages) true) ;;;
  ret newsz.

Definition uvmalloc (pagetable oldsz newsz xperm : Z) : KM Z :=
  if newsz <? oldsz then ret oldsz else
  let oldsz := PGROUNDUP oldsz in
  loop (Z.to_nat ((newsz - oldsz) / PGSIZE + 2)) (fun a =>
    if negb (a <? newsz) then ret (inr newsz) else
    mem <- kalloc ;;
    if mem =? 0 then uvmdealloc pagetable a oldsz ;;; ret (inr 0) else
    upd_mem (fun m => memset m mem 0 PGSIZE) ;;;
    r <- mappages pagetable a PGSIZE mem (Z.lor (Z.lor PTE_R PTE_U) xperm) ;;
    if negb (r =? 0) then
      kfree mem ;;;
      uvmdealloc pagetable a oldsz ;;;
      ret (inr 0)
    else ret (inl (u64 (a + PGSIZE)))) oldsz.

(** The C recursion follows the levels of the table; [depth] bounds it. *)
Fixpoint freewalk (depth : nat) (pagetable : Z) : KM unit :=
  match depth with
  | O => fun _ => NoFuel
  | S depth =>
      forM (seqZ 0 512) (fun i =>
        pte <- ld64 (pte_addr pagetable i) ;;
        if has pte PTE_V && (Z.land pte (Z.lor (Z.lor PTE_R PTE_W) PTE_X) =? 0) then
          freewalk depth (PTE2PA pte) ;;;
          st64 (pte_addr pagetable i) 0
        else if has pte PTE_V then panic "freewalk: leaf"
        else ret tt) ;;;
      kfree pagetable
  end.

Definition uvmfree (pagetable sz : Z) : KM unit :=
  when (0 <? sz) (uvmunmap pagetable 0 (PGROUNDUP sz / PGSIZE) true) ;;;
  freewalk 3 pagetable.

Definition uvmcopy (old new sz : Z) : KM Z :=
  loop (Z.to_nat (sz / PGSIZE + 2)) (fun i =>
    if negb (i <? sz) then ret (inr 0) else
    pte <- walk old i false ;;
    if pte =? 0 then panic "uvmcopy: pte should exist" else
    v <- ld64 pte ;;
    if negb (has v PTE_V) then panic "uvmcopy: page not present" else
    let pa := PTE2PA v in
    let flags := PTE_FLAGS v in
    mem <- kalloc ;;
    if mem =? 0 then uvmunmap new 0 (i / PGSIZE) true ;;; ret (inr (-1)) else
    upd_mem (fun m => memmove m mem pa PGSIZE) ;;;
    r <- mappages new i PGSIZE mem flags ;;
    if negb (r =? 0) then
      kfree mem ;;;
      uvmunmap new 0 (i / PGSIZE) true ;;;
      ret (inr (-1))
    else ret (inl (u64 (i + PGSIZE)))) 0.

Definition uvmclear (pagetable va : Z) : KM unit :=
  pte <- walk pagetable va false ;;
  if pte =? 0 then panic "uvmclear" else
  v <- ld64 pte ;;
  st64 pte (Z.land v (Z.lnot PTE_U)).

Definition copyout (pagetable dstva : Z) (src : list Z) : KM Z :=
  loop (Z.to_nat (Z.of_nat (length src) / PGSIZE + 3)) (fun st : Z * list Z =>
    let '(dstva, src) := st in
    let len := Z.of_nat (length src) in
    if negb (0 <? len) then ret (inr 0) else
    let va0 := PGROUNDDOWN dstva in
    pa0 <- walkaddr pagetable va0 ;;
    if pa0 =? 0 then ret (inr (-1)) else
    let n := PGSIZE - (dstva - va0) in
    let n := if len <? n then len else n in
    upd_mem (fun m => store_bytes m (pa0 + (dstva - va0)) (take (Z.to_nat n) src)) ;;;
    ret (inl (u64 (va0 + PGSIZE), drop (Z.to_nat n) src))) (dstva, src).

(** The second component is what has been copied to the kernel buffer. *)
Definition copyin (pagetable srcva len : Z) : KM (Z * list Z) :=
  loop (Z.to_nat (len / PGSIZE + 3)) (fun st : Z * Z * list Z =>
    let '(srcva, len, dst) := st in
    if negb (0 <? len) then ret (inr (0, dst)) else
    let va0 := PGROUNDDOWN srcva in
    pa0 <- walkaddr pagetable va0 ;;
    if pa0 =? 0 then ret (inr (-1, dst)) else
    let n := PGSIZE - (srcva - va0) in
    let n := if len <? n then len else n in
    bytes <- gets (fun s => load_bytes (k_mem s) (pa0 + (srcva - va0)) (Z.to_nat n)) ;;
    ret (inl (u64 (va0 + PGSIZE), len - n, dst ++ bytes))) (srcva, len, []).

(** The inner loop of copyinstr: at most [n] bytes from [p], up to the NUL;
    answers the bytes copied (with the NUL) and [got_null]. *)
Fixpoint copy_str (m : gmap Z Z) (p : Z) (n : nat) : list Z * bool :=
  match n with
  | O => ([], false)
  | S n =>
      if mem_get m p =? 0 then ([0], true)
      else let '(l, got) := copy_str m (p + 1) n in (mem_get m p :: l, got)
  end.

Definition copyinstr (pagetable srcva max : Z) : KM (Z * list Z) :=
  loop (Z.to_nat (max / PGSIZE + 3)) (fun st : Z * Z * list Z * bool =>
    let '(srcva, max, dst, got_null) := st in
    if got_null || negb (0 <? max) then ret (inr (if got_null then 0 else -1, dst)) else
    let va0 := PGROUNDDOWN srcva in
    pa0 <- walkaddr pagetable va0 ;;
    if pa0 =? 0 then ret (inr (-1, dst)) else
    let n := PGSIZE - (srcva - va0) in
    let n := if max <? n then max else n in
    m <- gets k_mem ;;
    let '(l, got) := copy_str m (pa0 + (srcva - va0)) (Z.to_nat n) in
    ret (inl (u64 (va0 + PGSIZE), max - n, dst ++ l, got))) (srcva, max, [], false).

End vm.
