(* ===== verification/VmTable.v ===== *)
(** * Page tables: walk(), mappages() and uvmunmap().

    [pt_inv m t root] says that memory [m] holds the page table [t] at [root]:
    [t] maps a path of table indices (none for the root, one or two indices for
    the lower levels) to the page-table page there.  [vlookup] is the table as a
    function from virtual addresses to page-table entries; the theorems state
    what the C functions do to that function. *)

From S2P Require Import Prelude Exec Params State Mem Kalloc Vm.

Section table.
Context `{LinkerOk}.

Implicit Types (t : gmap (list Z) Z) (m : gmap Z Z) (s : kernel) (x y : list Z) (fl : list Z).

Record pt_inv m t (root : Z) : Prop := {
  pt_root : t !! [] = Some root;
  pt_inj : forall x y p, t !! x = Some p -> t !! y = Some p -> x = y;
  pt_page : forall x p, t !! x = Some p -> page_ok p;
  pt_up : forall x i p, t !! (x ++ [i]) = Some p -> is_Some (t !! x) /\ 0 <= i < 512 /\ (length x < 2)%nat;
  pt_dir : forall x p i, t !! x = Some p -> (length x < 2)%nat -> 0 <= i < 512 ->
    match t !! (x ++ [i]) with
    | Some q => load64 m (pte_addr p i) = Z.lor (PA2PTE q) PTE_V
    | None => has (load64 m (pte_addr p i)) PTE_V = false
    end;
}.

(** The page-table entry of [va]; 0 when there is no path to it. *)
Definition vlookup m t (va : Z) : Z :=
  match t !! [PX 2 va; PX 1 va] with
  | Some p => load64 m (pte_addr p (PX 0 va))
  | None => 0
  end.

Record vm_inv s t (root : Z) fl : Prop := {
  vm_pt : pt_inv (k_mem s) t root;
  vm_km : kmem_inv s fl;
  vm_sep : forall x p, t !! x = Some p -> p ∉ fl;
}.

(** The table grew by pages taken from the free list, and nothing outside the
    table's pages changed. *)
Record vm_ext s t fl s' t' fl' : Prop := {
  ext_sub : t ⊆ t';
  ext_new : exists new, fl = new ++ fl' /\ (forall x p, t' !! x = Some p -> t !! x = Some p \/ p ∈ new) /\
    forall p, p ∈ new -> exists x, t' !! x = Some p;
  ext_mem : forall a, (forall x p, t' !! x = Some p -> ~ in_page p a) -> mem_get (k_mem s') a = mem_get (k_mem s) a;
  ext_rest : s' = with_k_mem (k_mem s') (with_k_freelist (k_freelist s') s);
}.

Lemma vm_ext_refl s t fl : vm_ext s t fl s t fl.
Proof. split; auto. exists []. split_and!; auto. intros p Hp. by apply not_elem_of_nil in Hp. Qed.

Lemma vm_ext_trans s1 t1 fl1 s2 t2 fl2 s3 t3 fl3 :
  vm_ext s1 t1 fl1 s2 t2 fl2 -> vm_ext s2 t2 fl2 s3 t3 fl3 -> vm_ext s1 t1 fl1 s3 t3 fl3.
Proof.
  intros [A1 (n1 & -> & B1 & E1) C1 D1] [A2 (n2 & -> & B2 & E2) C2 D2]. split.
  - by transitivity t2.
  - exists (n1 ++ n2). split_and!; [by rewrite app_assoc| |].
    + intros x p Hx. destruct (B2 x p Hx) as [Hx'|]; [|set_solver]. destruct (B1 x p Hx'); set_solver.
    + intros p. rewrite elem_of_app. intros [Hp|Hp]; [|auto]. destruct (E1 p Hp) as [x Hx]. exists x.
      by apply (lookup_weaken t2 t3).
  - intros a Ha. rewrite C2 by auto. apply C1. intros x p Hx. apply (Ha x).
    by apply (lookup_weaken t2 t3).
  - rewrite D2. rewrite D1. reflexivity.
Qed.

(** ** Addresses of entries *)

Lemma pte_addr_page p i : 0 <= i < 512 -> p <= pte_addr p i /\ pte_addr p i + 8 <= p + PGSIZE.
Proof. unfold pte_addr, PGSIZE. lia. Qed.

(** Different entries of (aligned) page-table pages do not overlap. *)
Lemma pte_addr_disjoint p i q j :
  p mod PGSIZE = 0 -> q mod PGSIZE = 0 -> 0 <= i < 512 -> 0 <= j < 512 -> p <> q \/ i <> j ->
  pte_addr p i + 8 <= pte_addr q j \/ pte_addr q j + 8 <= pte_addr p i.
Proof. unfold pte_addr, PGSIZE. intros. dlia. Qed.

Lemma load64_ext m m' a :
  (forall b, a <= b < a + 8 -> mem_get m b = mem_get m' b) -> load64 m a = load64 m' a.
Proof. intros Hb. unfold load64. f_equal. apply load_bytes_ext. auto. Qed.

Lemma load64_zero m a : (forall b, a <= b < a + 8 -> mem_get m b = 0) -> load64 m a = 0.
Proof.
  intros Hb. unfold load64. rewrite (load_bytes_ext m ∅) by (intros; rewrite Hb by lia; reflexivity).
  reflexivity.
Qed.

(** ** Growing the table by one page *)

Section extend.
Variables (m m' : gmap Z Z) (t : gmap (list Z) Z) (root p q i : Z) (x : list Z).
Hypothesis Hpt : pt_inv m t root.
Hypothesis Hx : t !! x = Some p.
Hypothesis Hlen : (length x < 2)%nat.
Hypothesis Hi : 0 <= i < 512.
Hypothesis Hfresh : t !! (x ++ [i]) = None.
Hypothesis Hq : page_ok q.
Hypothesis Hqt : forall y r, t !! y = Some r -> r <> q.
Hypothesis Hzero : forall a, in_page q a -> mem_get m' a = 0.
Hypothesis Hpte : load64 m' (pte_addr p i) = Z.lor (PA2PTE q) PTE_V.
Hypothesis Hrest : forall a, ~ in_page q a -> ~ (pte_addr p i <= a < pte_addr p i + 8) ->
  mem_get m' a = mem_get m a.

Let t' := <[x ++ [i] := q]> t.

Lemma extend_load y r j :
  t !! y = Some r -> 0 <= j < 512 -> (y, j) <> (x, i) -> load64 m' (pte_addr r j) = load64 m (pte_addr r j).
Proof.
  intros Hy Hj Hne. apply load64_ext. intros b Hb.
  destruct (pt_page _ _ _ Hpt _ _ Hy) as [Hr _]. destruct (pt_page _ _ _ Hpt _ _ Hx) as [Hp _].
  pose proof (pte_addr_page r j Hj). apply Hrest.
  - intros Hin. apply (Hqt _ _ Hy). apply (page_disjoint r q b); auto; [apply Hq|].
    unfold in_page, PGSIZE in *. lia.
  - assert (r <> p \/ j <> i) as Hd.
    { destruct (decide (r = p)) as [->|]; [|auto]. right. intros ->. apply Hne. f_equal.
      eapply pt_inj; eauto. }
    pose proof (pte_addr_disjoint r j p i). lia.
Qed.

Lemma extend_zero j : 0 <= j < 512 -> load64 m' (pte_addr q j) = 0.
Proof.
  intros Hj. apply load64_zero. intros b Hb. apply Hzero.
  pose proof (pte_addr_page q j Hj). unfold in_page. lia.
Qed.

Lemma extend_inv : pt_inv m' t' root.
Proof.
  split.
  - unfold t'. rewrite lookup_insert_ne by (by destruct x). apply Hpt.
  - intros y z r. unfold t'. rewrite !lookup_insert. intros Hy Hz.
    repeat case_decide; subst; auto; simplify_eq; try (exfalso; eapply Hqt; eauto; fail).
    eapply pt_inj; eauto.
  - intros y r. unfold t'. rewrite lookup_insert. case_decide; [intros [= <-]; exact Hq|].
    eapply pt_page; eauto.
  - intros y j r. unfold t'. rewrite lookup_insert. case_decide as E.
    + apply app_inj_tail in E as [-> ->]. intros _. split; [|auto].
      rewrite lookup_insert_ne; [eauto|]. intros E. apply (f_equal length) in E. rewrite length_app in E. simpl in E. lia.
    + intros Hy. destruct (pt_up _ _ _ Hpt _ _ _ Hy) as (Hup & Hj & Hl). split; [|auto].
      rewrite lookup_insert. case_decide; [eauto | exact Hup].
  - intros y r j. unfold t'. rewrite (lookup_insert t (x ++ [i]) y). case_decide as E.
    + intros [= <-] Hl Hj. subst y. rewrite lookup_insert_ne.
      2: { intros E. apply (f_equal length) in E. rewrite !length_app in E. simpl in E. lia. }
      destruct (t !! ((x ++ [i]) ++ [j])) eqn:E'.
      { apply (pt_up _ _ _ Hpt) in E'. destruct E' as ([? E'] & _). congruence. }
      rewrite extend_zero by auto. reflexivity.
    + intros Hy Hl Hj. rewrite lookup_insert. case_decide as E2.
      * apply app_inj_tail in E2 as [-> ->]. simplify_eq. exact Hpte.
      * rewrite (extend_load y); auto; [by apply (pt_dir _ _ _ Hpt)|]. intros [= -> ->]. auto.
Qed.

Lemma extend_vlookup va : vlookup m' t' va = vlookup m t va.
Proof.
  unfold vlookup, t'. pose proof (PX_range 0 va ltac:(lia)).
  rewrite lookup_insert. case_decide as E.
  - rewrite <- E, Hfresh. by apply extend_zero.
  - destruct (t !! [PX 2 va; PX 1 va]) eqn:E'; [|reflexivity]. eapply extend_load; eauto.
    intros [= E'' _]. rewrite <- E'' in Hlen. simpl in Hlen. lia.
Qed.
End extend.

(** ** walk *)

Lemma dir_pte q : page_ok q -> 
  has (Z.lor (PA2PTE q) PTE_V) PTE_V = true /\ PTE2PA (Z.lor (PA2PTE q) PTE_V) = q /\
  0 <= Z.lor (PA2PTE q) PTE_V < 2 ^ 64.
Proof.
  intros Hq. pose proof (page_ok_nz q Hq). destruct Hq as [Hq _]. change PTE_V with (2 ^ 0) at 2.
  rewrite has_make, PTE2PA_make, pte_make by (unfold PTE_V; simpl; lia).
  split_and!; [reflexivity|reflexivity| |]; unfold PTE_V; simpl; dlia.
Qed.

(** Memory after a page [q] is allocated, cleared and entered in slot [i] of [p]. *)
Lemma level_mem m p q i :
  page_ok p -> page_ok q -> p <> q -> 0 <= i < 512 ->
  let m' := store64 (store_bytes (store_bytes m q (fill 5)) q (fill 0)) (pte_addr p i) (Z.lor (PA2PTE q) PTE_V) in
  (forall a, in_page q a -> mem_get m' a = 0) /\
  (forall a, ~ in_page q a -> ~ (pte_addr p i <= a < pte_addr p i + 8) -> mem_get m' a = mem_get m a) /\
  load64 m' (pte_addr p i) = Z.lor (PA2PTE q) PTE_V.
Proof.
  intros Hp Hq Hpq Hi m'. pose proof (pte_addr_page p i Hi) as Hpi.
  pose proof (fill_length 0). pose proof (fill_length 5). split_and!.
  - intros a Ha. unfold m', store64. rewrite mem_get_store, le_bytes_length, decide_False.
    2: { intros ?. apply Hpq. apply (page_disjoint p q a); [apply Hp|apply Hq| |exact Ha]. unfold in_page. lia. }
    unfold in_page in Ha. rewrite mem_get_store, decide_True by lia. apply fill_lookup. lia.
  - intros a Ha Ha2. unfold m', store64, in_page in *.
    rewrite !mem_get_store, le_bytes_length, !decide_False by lia. reflexivity.
  - unfold m'. rewrite load64_store64_eq, u64_id; [reflexivity|]. apply (dir_pte q Hq).
Qed.

(** The allocating branch of walk: a page off the free list becomes the next
    level of the table, and no entry changes. *)
Lemma alloc_level {A} s t root fl x p i (f0 : KM A) (f : Z -> KM A) Q :
  vm_inv s t root fl -> Lkmem ∉ k_held s -> t !! x = Some p -> (length x < 2)%nat ->
  0 <= i < 512 -> t !! (x ++ [i]) = None ->
  (fl = [] -> wp f0 Q s) ->
  (forall q s' fl', fl = q :: fl' -> vm_inv s' (<[x ++ [i] := q]> t) root fl' ->
     vm_ext s t fl s' (<[x ++ [i] := q]> t) fl' ->
     (forall va, vlookup (k_mem s') (<[x ++ [i] := q]> t) va = vlookup (k_mem s) t va) ->
     wp (f q) Q s') ->
  wp (q <- kalloc ;; if q =? 0 then f0 else
      upd_mem (fun m => memset m q 0 PGSIZE) ;;;
      st64 (pte_addr p i) (Z.lor (PA2PTE q) PTE_V) ;;; f q) Q s.
Proof.
  intros [Hpt Hkm Hsep] Hh Hx Hl Hi Hf HQ0 HQ. wp_step. apply (kalloc_spec s fl); [exact Hkm|exact Hh|].
  destruct fl as [|q fl]; [by apply HQ0|]. cbv zeta. intros Hkm' Hq Hqf.
  pose proof (page_ok_nz q Hq). pose proof (dir_pte q Hq) as (_ & _ & Hr).
  replace (q =? 0) with false by lia. unfold st64, upd_mem. wp_steps. rewrite memset_page by lia.
  pose proof (pt_page _ _ _ Hpt _ _ Hx) as Hp. pose proof (pte_addr_page p i Hi) as Hpi.
  destruct (proj1 (not_elem_of_cons _ _ _) (Hsep _ _ Hx)) as [Hpq Hpf]. ksimp.
  destruct (level_mem (k_mem s) p q i Hp Hq Hpq Hi) as (Hz & Hrest & Hpte).
  set (m3 := store64 (store_bytes (store_bytes (k_mem s) q (fill 5)) q (fill 0)) (pte_addr p i)
    (Z.lor (PA2PTE q) PTE_V)) in *.
  lazymatch goal with |- wp _ _ ?s' => change s' with (with_k_mem m3 (with_k_freelist (load64 (k_mem s) q) s)) end.
  assert (forall y r, t !! y = Some r -> r <> q) as Hqt.
  { intros y r Hy. exact (proj1 (proj1 (not_elem_of_cons _ _ _) (Hsep _ _ Hy))). }
  assert (kmem_inv (with_k_mem m3 (with_k_freelist (load64 (k_mem s) q) s)) fl) as Hkm3.
  { apply (kmem_inv_frame _ _ _ Hkm'); [reflexivity|]. intros r a Hr' Ha. ksimp.
    assert (page_ok r) as Hro by (apply (proj1 (Forall_forall _ _) (km_ok _ _ Hkm')), Hr').
    rewrite mem_get_store, decide_False, Hrest; [reflexivity| | |].
    - intros Hqa. apply Hqf. replace q with r; [exact Hr'|]. apply (page_disjoint r q a); [apply Hro|apply Hq|exact Ha|exact Hqa].
    - intros ?. apply Hpf. replace p with r; [exact Hr'|]. apply (page_disjoint r p a); [apply Hro|apply Hp|exact Ha|].
      unfold in_page. lia.
    - rewrite fill_length. intros Hqa. apply Hqf. replace q with r; [exact Hr'|].
      apply (page_disjoint r q a); [apply Hro|apply Hq|exact Ha|exact Hqa]. }
  clearbody m3. apply (HQ q _ fl); [reflexivity| | |].
  - split; ksimp.
    + exact (extend_inv _ m3 _ _ _ _ _ _ Hpt Hx Hl Hi Hf Hq Hqt Hz Hpte Hrest).
    + exact Hkm3.
    + intros y r. rewrite lookup_insert. case_decide; [intros [= <-]; exact Hqf|].
      intros Hy. exact (proj2 (proj1 (not_elem_of_cons _ _ _) (Hsep _ _ Hy))).
  - split; ksimp.
    + apply insert_subseteq, Hf.
    + exists [q]. split; [reflexivity|]. split.
      * intros y r. rewrite lookup_insert. case_decide; [|intros Hy; left; exact Hy].
        intros [= <-]. right. apply list_elem_of_singleton. reflexivity.
      * intros r Hr'. apply list_elem_of_singleton in Hr'. subst r. exists (x ++ [i]). apply lookup_insert_eq.
    + intros a Ha. apply Hrest.
      * apply (Ha (x ++ [i])). apply lookup_insert_eq.
      * intros ?. apply (Ha x p); [|unfold in_page; lia]. rewrite lookup_insert_ne; [exact Hx|].
        intros E. apply (f_equal length) in E. rewrite length_app in E. simpl in E. lia.
    + reflexivity.
  - intros va. ksimp. exact (extend_vlookup _ m3 _ _ _ _ _ _ Hpt Hx Hl Hi Hf Hq Hqt Hz Hrest va).
Qed.

(** A valid directory entry leads to the page of the next level. *)
Lemma down_pte m t root x p i q :
  pt_inv m t root -> t !! x = Some p -> (length x < 2)%nat -> 0 <= i < 512 -> t !! (x ++ [i]) = Some q ->
  has (load64 m (pte_addr p i)) PTE_V = true /\ PTE2PA (load64 m (pte_addr p i)) = q.
Proof.
  intros Hpt Hx Hl Hi Hq. pose proof (pt_dir _ _ _ Hpt x p i Hx Hl Hi) as Hd. rewrite Hq in Hd.
  rewrite Hd. destruct (dir_pte q (pt_page _ _ _ Hpt _ _ Hq)) as (? & ? & _). auto.
Qed.

(** One level of walk(alloc = 1), followed by [f] on the next level's page. *)
Lemma walk_level {A} s t root fl x p i (f0 : KM A) (f : Z -> KM A) Q :
  vm_inv s t root fl -> Lkmem ∉ k_held s -> t !! x = Some p -> (length x < 2)%nat -> 0 <= i < 512 ->
  (fl = [] -> t !! (x ++ [i]) = None -> wp f0 Q s) ->
  (forall q s' t' fl', t' !! (x ++ [i]) = Some q -> vm_inv s' t' root fl' -> vm_ext s t fl s' t' fl' ->
     (forall va, vlookup (k_mem s') t' va = vlookup (k_mem s) t va) -> wp (f q) Q s') ->
  wp (v <- ld64 (pte_addr p i) ;;
      if has v PTE_V then f (PTE2PA v) else
      q <- kalloc ;; if q =? 0 then f0 else
      upd_mem (fun m => memset m q 0 PGSIZE) ;;;
      st64 (pte_addr p i) (Z.lor (PA2PTE q) PTE_V) ;;; f q) Q s.
Proof.
  intros Hv Hh Hx Hl Hi HQ0 HQ. wp_step. apply wp_gets. destruct (t !! (x ++ [i])) as [q|] eqn:Hq.
  - destruct (down_pte _ _ _ _ _ _ _ (vm_pt _ _ _ _ Hv) Hx Hl Hi Hq) as [-> ->].
    apply (HQ q s t fl); auto using vm_ext_refl.
  - pose proof (pt_dir _ _ _ (vm_pt _ _ _ _ Hv) x p i Hx Hl Hi) as Hd. rewrite Hq in Hd. rewrite Hd.
    apply (alloc_level s t root fl x p i f0 f); auto. intros. eapply HQ; eauto. apply lookup_insert_eq.
Qed.

(** The address of the entry of [va], 0 when the table has no page for it. *)
Definition leaf_addr t (va : Z) : Z :=
  match t !! [PX 2 va; PX 1 va] with
  | Some p => pte_addr p (PX 0 va)
  | None => 0
  end.

Lemma leaf_addr_none t va : t !! [PX 2 va; PX 1 va] = None -> leaf_addr t va = 0.
Proof. unfold leaf_addr. by intros ->. Qed.

(** Without the level-1 page there is no level-0 page. *)
Lemma pt_no_path m t root i j : pt_inv m t root -> t !! [i] = None -> t !! [i; j] = None.
Proof.
  intros Hpt Hn. destruct (t !! [i; j]) eqn:E; [|reflexivity].
  destruct (pt_up _ _ _ Hpt [i] j _ E) as [[? ?] _]. congruence.
Qed.

Lemma ext_held s t fl s' t' fl' : vm_ext s t fl s' t' fl' -> k_held s' = k_held s.
Proof. intros He. rewrite (ext_rest _ _ _ _ _ _ He). reflexivity. Qed.

Lemma walk_spec s t root fl va (Q : Z -> kernel -> Prop) :
  vm_inv s t root fl -> Lkmem ∉ k_held s -> 0 <= va < MAXVA ->
  (forall r s' t' fl', vm_inv s' t' root fl' -> vm_ext s t fl s' t' fl' ->
     (forall va, vlookup (k_mem s') t' va = vlookup (k_mem s) t va) ->
     r = leaf_addr t' va -> r = 0 /\ fl' = [] \/ r <> 0 -> Q r s') ->
  wp (walk root va true) Q s.
Proof.
  intros Hv Hh Hva HQ. unfold walk. replace (MAXVA <=? va) with false by lia.
  pose proof (PX_range 2 va ltac:(lia)) as H2. pose proof (PX_range 1 va ltac:(lia)) as H1.
  cbn [loop]. apply wp_bind. cbn [Z.ltb Z.compare negb].
  apply (walk_level s t root fl [] root (PX 2 va) (ret (inr 0)) (fun q => ret (inl (2 - 1, q))));
    [exact Hv|exact Hh|exact (pt_root _ _ _ (vm_pt _ _ _ _ Hv))|simpl; lia|exact H2| |].
  { intros -> Hn. wp_steps. eapply HQ; eauto using vm_ext_refl. rewrite leaf_addr_none; auto.
    eapply pt_no_path; [apply Hv|exact Hn]. }
  cbn [app]. intros p1 s1 t1 fl1 Hp1 Hv1 He1 Hl1. wp_steps. cbn [Z.sub Z.add Z.opp Z.pos_sub Pos.pred_double].
  apply wp_bind. cbn [Z.ltb Z.compare negb].
  pose proof (ext_held _ _ _ _ _ _ He1) as Hh1.
  apply (walk_level s1 t1 root fl1 [PX 2 va] p1 (PX 1 va) (ret (inr 0)) (fun q => ret (inl (1 - 1, q))));
    [exact Hv1|rewrite Hh1; exact Hh|exact Hp1|simpl; lia|exact H1| |].
  { intros -> Hn. wp_steps. eapply HQ; eauto. rewrite leaf_addr_none; auto. }
  cbn [app]. intros p2 s2 t2 fl2 Hp2 Hv2 He2 Hl2. wp_steps. cbn [Z.sub Z.add Z.opp Z.pos_sub].
  apply (HQ _ _ t2 fl2); [exact Hv2|eapply vm_ext_trans; eauto| | |].
  - intros va'. by rewrite Hl2.
  - unfold leaf_addr. by rewrite Hp2.
  - right. pose proof (page_ok_nz p2 (pt_page _ _ _ (vm_pt _ _ _ _ Hv2) _ _ Hp2)).
    unfold pte_addr. pose proof (PX_range 0 va ltac:(lia)). lia.
Qed.

Lemma walk_lookup_spec s t root va (Q : Z -> kernel -> Prop) :
  pt_inv (k_mem s) t root -> 0 <= va < MAXVA -> Q (leaf_addr t va) s -> wp (walk root va false) Q s.
Proof.
  intros Hpt Hva HQ. unfold walk. replace (MAXVA <=? va) with false by lia.
  pose proof (PX_range 2 va ltac:(lia)) as H2. pose proof (PX_range 1 va ltac:(lia)) as H1.
  pose proof (pt_dir _ _ _ Hpt [] root (PX 2 va) (pt_root _ _ _ Hpt) ltac:(simpl; lia) H2) as Hd2.
  cbn [loop app] in *. apply wp_bind. cbn [Z.ltb Z.compare negb]. unfold ld64. wp_steps.
  destruct (t !! [PX 2 va]) as [p1|] eqn:Hp1.
  2: { rewrite Hd2. wp_steps. rewrite leaf_addr_none in HQ; [exact HQ|]. by eapply pt_no_path. }
  destruct (down_pte _ _ _ [] _ _ _ Hpt (pt_root _ _ _ Hpt) ltac:(simpl; lia) H2 Hp1) as [-> ->].
  pose proof (pt_dir _ _ _ Hpt [PX 2 va] p1 (PX 1 va) Hp1 ltac:(simpl; lia) H1) as Hd1. cbn [app] in Hd1.
  wp_steps. change (2 - 1) with 1. cbn [Z.ltb Z.compare negb]. wp_steps.
  destruct (t !! [PX 2 va; PX 1 va]) as [p2|] eqn:Hp2.
  2: { rewrite Hd1. wp_steps. rewrite leaf_addr_none in HQ; [exact HQ|exact Hp2]. }
  destruct (down_pte _ _ _ [PX 2 va] _ _ _ Hpt Hp1 ltac:(simpl; lia) H1 Hp2) as [-> ->].
  wp_steps. unfold leaf_addr in HQ. rewrite Hp2 in HQ. exact HQ.
Qed.

(** On a table that has the entry, walk(alloc = 1) changes nothing. *)
Lemma walk_present s t root va :
  pt_inv (k_mem s) t root -> 0 <= va < MAXVA -> leaf_addr t va <> 0 -> walk root va true s = Ok (leaf_addr t va) s.
Proof.
  intros Hpt Hva Hl. unfold leaf_addr in *. destruct (t !! [PX 2 va; PX 1 va]) as [p2|] eqn:Hp2; [|done].
  pose proof (PX_range 2 va ltac:(lia)) as H2. pose proof (PX_range 1 va ltac:(lia)) as H1.
  destruct (pt_up _ _ _ Hpt [PX 2 va] _ _ Hp2) as [[p1 Hp1] _].
  destruct (down_pte _ _ _ [] _ _ _ Hpt (pt_root _ _ _ Hpt) ltac:(simpl; lia) H2 Hp1) as [E1 E2].
  destruct (down_pte _ _ _ [PX 2 va] _ _ _ Hpt Hp1 ltac:(simpl; lia) H1 Hp2) as [E3 E4].
  unfold walk. replace (MAXVA <=? va) with false by lia.
  apply wp_eq. cbn [loop]. apply wp_bind. cbn [Z.ltb Z.compare]. unfold ld64. wp_steps. rewrite E1, E2.
  wp_steps. change (2 - 1) with 1. cbn [Z.ltb Z.compare]. wp_steps. rewrite E3, E4. wp_steps. exact (conj eq_refl eq_refl).
Qed.

(** ** Writing a leaf entry *)

(** The three table indices identify the page of an address below MAXVA. *)
Lemma PX_inj va va' :
  0 <= va < MAXVA -> 0 <= va' < MAXVA -> PX 2 va = PX 2 va' -> PX 1 va = PX 1 va' -> PX 0 va = PX 0 va' ->
  va / PGSIZE = va' / PGSIZE.
Proof. rewrite !PX_eq by lia. unfold MAXVA, PGSIZE. simpl. intros. dlia. Qed.

Lemma PX_page level va va' : 0 <= level -> va / PGSIZE = va' / PGSIZE -> PX level va = PX level va'.
Proof.
  intros Hl Hp. rewrite !PX_eq by lia. unfold PGSIZE in Hp. rewrite !Z.pow_add_r by lia.
  rewrite <- !Z.div_div by lia. change (2 ^ 12) with 4096. by rewrite Hp.
Qed.

Lemma leaf_addr_page t va va' : va / PGSIZE = va' / PGSIZE -> leaf_addr t va = leaf_addr t va'.
Proof. intros Hp. unfold leaf_addr. by rewrite !(PX_page _ va va') by (auto; lia). Qed.

Lemma vlookup_page m t va va' : va / PGSIZE = va' / PGSIZE -> vlookup m t va = vlookup m t va'.
Proof. intros Hp. unfold vlookup. by rewrite !(PX_page _ va va') by (auto; lia). Qed.

Lemma vlookup_leaf m t va : leaf_addr t va <> 0 -> vlookup m t va = load64 m (leaf_addr t va).
Proof. unfold vlookup, leaf_addr. by destruct (t !! _). Qed.

Lemma vlookup_none m t va : leaf_addr t va = 0 -> (forall x p, t !! x = Some p -> page_ok p) -> vlookup m t va = 0.
Proof.
  unfold vlookup, leaf_addr. destruct (t !! _) as [p|] eqn:E; [|auto]. intros Hp Hok.
  pose proof (page_ok_nz p (Hok _ _ E)). pose proof (PX_range 0 va ltac:(lia)). unfold pte_addr in Hp. lia.
Qed.

Lemma leaf_inv t va :
  leaf_addr t va <> 0 -> exists p, t !! [PX 2 va; PX 1 va] = Some p /\ leaf_addr t va = pte_addr p (PX 0 va).
Proof. unfold leaf_addr. destruct (t !! _) as [p|]; [eauto|done]. Qed.

Section leaf.
Variables (m : gmap Z Z) (t : gmap (list Z) Z) (root va v : Z).
Hypothesis Hpt : pt_inv m t root.
Hypothesis Hva : 0 <= va < MAXVA.
Hypothesis Hleaf : leaf_addr t va <> 0.
Hypothesis Hv : 0 <= v < 2 ^ 64.

Let m' := store64 m (leaf_addr t va) v.

Lemma leaf_load y r j :
  t !! y = Some r -> 0 <= j < 512 -> (y, j) <> ([PX 2 va; PX 1 va], PX 0 va) ->
  load64 m' (pte_addr r j) = load64 m (pte_addr r j).
Proof.
  intros Hy Hj Hne. destruct (leaf_inv t va Hleaf) as (p & Hp & Ha). unfold m'. rewrite Ha.
  apply load64_store64_ne. apply pte_addr_disjoint; auto using PX_range with lia.
  - apply (pt_page _ _ _ Hpt _ _ Hy).
  - apply (pt_page _ _ _ Hpt _ _ Hp).
  - destruct (decide (r = p)) as [->|]; [|auto]. right. intros ->. apply Hne. f_equal. eapply pt_inj; eauto.
Qed.

Lemma leaf_store_inv : pt_inv m' t root.
Proof.
  destruct Hpt as [A B C D E]. split; auto. intros x p i Hx Hl Hi.
  rewrite (leaf_load x) by (auto; intros [= -> ->]; simpl in Hl; lia). by apply E.
Qed.

Lemma leaf_store_lookup va' :
  0 <= va' < MAXVA -> vlookup m' t va' = if decide (va' / PGSIZE = va / PGSIZE) then v else vlookup m t va'.
Proof.
  intros Hva'. case_decide as E.
  - rewrite vlookup_leaf by (by rewrite (leaf_addr_page t va' va)). rewrite (leaf_addr_page t va' va) by auto.
    unfold m'. rewrite load64_store64_eq, u64_id; auto.
  - unfold vlookup. destruct (t !! [PX 2 va'; PX 1 va']) as [p|] eqn:Hp; [|reflexivity].
    eapply leaf_load; [exact Hp|apply PX_range; lia|].
    intros [= H2 H1 H0']. apply E. by apply PX_inj.
Qed.
End leaf.

(** The same, as a step of the kernel. *)
Lemma leaf_store_vm s t root fl va v :
  vm_inv s t root fl -> 0 <= va < MAXVA -> leaf_addr t va <> 0 -> 0 <= v < 2 ^ 64 ->
  let s' := with_k_mem (store64 (k_mem s) (leaf_addr t va) v) s in
  vm_inv s' t root fl /\ vm_ext s t fl s' t fl.
Proof.
  intros [Hpt Hkm Hsep] Hva Hl Hv s'. destruct (leaf_inv t va Hl) as (p & Hp & Ha).
  pose proof (pte_addr_page p (PX 0 va) (PX_range 0 va ltac:(lia))) as Hpp.
  pose proof (pt_page _ _ _ Hpt _ _ Hp) as Hpo. unfold s'. split; split; ksimp.
  - by apply leaf_store_inv.
  - apply (kmem_inv_store s fl p); [exact Hkm|apply Hpo|eapply Hsep, Hp| |]; rewrite ?le_bytes_length, Ha; lia.
  - exact Hsep.
  - reflexivity.
  - exists []. split_and!; auto. intros ? Hp0. by apply not_elem_of_nil in Hp0.
  - intros a Ho. unfold store64. rewrite mem_get_store, le_bytes_length, decide_False; [reflexivity|].
    intros ?. apply (Ho _ _ Hp). unfold in_page. lia.
  - reflexivity.
Qed.

(** ** mappages *)

(** [f] with the [k] pages from [va] mapped to the pages from [pa]. *)
Definition map_range (f : Z -> Z) (va pa perm k va' : Z) : Z :=
  let i := va' / PGSIZE - va / PGSIZE in
  if (0 <=? i) && (i <? k) then Z.lor (Z.lor (PA2PTE (pa + i * PGSIZE)) perm) PTE_V else f va'.

Lemma map_range_next f va pa perm k va' :
  0 <= k -> map_range f va pa perm (k + 1) va' =
    if decide (va' / PGSIZE = va / PGSIZE + k) then Z.lor (Z.lor (PA2PTE (pa + k * PGSIZE)) perm) PTE_V
    else map_range f va pa perm k va'.
Proof.
  intros. unfold map_range. case_decide.
  - replace ((0 <=? _) && _) with true by (symmetry; apply andb_true_iff; lia). do 4 f_equal. lia.
  - do 2 f_equal. destruct (_ <? k + 1) eqn:E1, (_ <? k) eqn:E2; lia.
Qed.

Lemma leaf_pte_range pa perm :
  0 <= pa < 2 ^ 56 -> 0 <= perm < 1024 -> 0 <= Z.lor (Z.lor (PA2PTE pa) perm) PTE_V < 2 ^ 64.
Proof.
  intros. rewrite <- Z.lor_assoc.
  assert (0 <= Z.lor perm PTE_V < 2 ^ 10) by (apply lor_range; unfold PTE_V; lia).
  rewrite pte_make by lia. dlia.
Qed.

(** What mappages did when it returned [r] after mapping [k] pages. *)
Record mapped s t fl root va pa perm k s' t' fl' : Prop := {
  md_inv : vm_inv s' t' root fl';
  md_ext : vm_ext s t fl s' t' fl';
  md_look : forall va', 0 <= va' < MAXVA ->
    vlookup (k_mem s') t' va' = map_range (vlookup (k_mem s) t) va pa perm k va';
}.

Lemma mapped_step s t fl root va pa perm k s1 t1 fl1 s2 t2 fl2 :
  mapped s t fl root va pa perm k s1 t1 fl1 ->
  vm_inv s2 t2 root fl2 -> vm_ext s1 t1 fl1 s2 t2 fl2 ->
  (forall va', vlookup (k_mem s2) t2 va' = vlookup (k_mem s1) t1 va') ->
  mapped s t fl root va pa perm k s2 t2 fl2.
Proof.
  intros [A B C] D E F. split; [exact D|by eapply vm_ext_trans|]. intros. rewrite F. auto.
Qed.

Lemma mapped_store s t fl root va pa perm k s1 t1 fl1 a :
  mapped s t fl root va pa perm k s1 t1 fl1 -> 0 <= k -> a = (va / PGSIZE + k) * PGSIZE -> 0 <= a < MAXVA ->
  0 <= pa + k * PGSIZE < 2 ^ 56 -> 0 <= perm < 1024 -> leaf_addr t1 a <> 0 ->
  mapped s t fl root va pa perm (k + 1)
    (with_k_mem (store64 (k_mem s1) (leaf_addr t1 a) (Z.lor (Z.lor (PA2PTE (pa + k * PGSIZE)) perm) PTE_V)) s1) t1 fl1.
Proof.
  intros [A B C] Hk Ha Hva Hpa Hperm Hl. pose proof (leaf_pte_range _ _ Hpa Hperm) as Hv.
  destruct (leaf_store_vm s1 t1 root fl1 a _ A Hva Hl Hv) as [A' B'].
  split; [exact A'|by eapply vm_ext_trans|]. intros va' Hva'. ksimp.
  rewrite (leaf_store_lookup _ t1 root) by (auto; apply A). rewrite map_range_next, C by auto.
  rewrite Ha, Z.div_mul by (unfold PGSIZE; lia). reflexivity.
Qed.

Definition map_pages (va size : Z) : Z := (va + size - 1) / PGSIZE - va / PGSIZE + 1.

Section mappages.
Variables (s : kernel) (t : gmap (list Z) Z) (root : Z) (fl : list Z) (va size pa perm : Z).
Hypothesis Hvm : vm_inv s t root fl.
Hypothesis Hheld : Lkmem ∉ k_held s.
Hypothesis Hva : 0 <= va.
Hypothesis Hsize : 0 < size.
Hypothesis Hend : va + size <= MAXVA.
Hypothesis Hperm : 0 <= perm < 1024.
Hypothesis Hpa : 0 <= pa.
Hypothesis Hpaend : pa + size + PGSIZE <= 2 ^ 56.
Hypothesis Hfree : forall va', 0 <= va' < MAXVA -> va / PGSIZE <= va' / PGSIZE <= (va + size - 1) / PGSIZE ->
  has (vlookup (k_mem s) t va') PTE_V = false.

Definition map_result (r : Z) (s' : kernel) : Prop :=
  exists k t' fl', mapped s t fl root va pa perm k s' t' fl' /\
    (r = 0 /\ k = map_pages va size \/ r = -1 /\ 0 <= k < map_pages va size /\ fl' = []).

Lemma mappages_body k s1 t1 fl1 :
  mapped s t fl root va pa perm k s1 t1 fl1 -> 0 <= k < map_pages va size ->
  wp (pte <- walk root ((va / PGSIZE + k) * PGSIZE) true ;;
      if pte =? 0 then ret (inr (-1)) else
      v <- ld64 pte ;;
      if has v PTE_V then panic "mappages: remap" else
      st64 pte (Z.lor (Z.lor (PA2PTE (pa + k * PGSIZE)) perm) PTE_V) ;;;
      if (va / PGSIZE + k) * PGSIZE =? (va + size - 1) / PGSIZE * PGSIZE then ret (inr 0)
      else ret (inl (u64 ((va / PGSIZE + k) * PGSIZE + PGSIZE), u64 (pa + k * PGSIZE + PGSIZE))))
    (fun r s2 => match r with
     | inl (a, p) => a = (va / PGSIZE + (k + 1)) * PGSIZE /\ p = pa + (k + 1) * PGSIZE /\
         k + 1 < map_pages va size /\ exists t2 fl2, mapped s t fl root va pa perm (k + 1) s2 t2 fl2
     | inr r => map_result r s2
     end) s1.
Proof.
  intros Hm Hk. unfold map_pages in Hk. set (a := (va / PGSIZE + k) * PGSIZE).
  assert (a / PGSIZE = va / PGSIZE + k) as Hak by (apply Z.div_mul; unfold PGSIZE; lia).
  assert (0 <= a < MAXVA) as Ha by (unfold a, MAXVA, PGSIZE in *; dlia).
  assert (0 <= pa + k * PGSIZE < 2 ^ 56) as Hpak by (unfold PGSIZE in *; dlia).
  wp_step. apply (walk_spec s1 t1 root fl1 a); [apply Hm| |exact Ha|].
  { rewrite (ext_held _ _ _ _ _ _ (md_ext _ _ _ _ _ _ _ _ _ _ _ Hm)). exact Hheld. }
  intros r s2 t2 fl2 Hv2 He2 Hl2 Hr Hr0.
  pose proof (mapped_step _ _ _ _ _ _ _ _ _ _ _ _ _ _ Hm Hv2 He2 Hl2) as Hm2.
  destruct (r =? 0) eqn:Er.
  { wp_steps. exists k, t2, fl2. split; [exact Hm2|]. right. unfold map_pages.
    split; [reflexivity|]. split; [lia|]. destruct Hr0 as [[_ ?]|]; [auto|lia]. }
  assert (leaf_addr t2 a <> 0) as Hleaf by lia. unfold ld64. wp_steps.
  rewrite Hr, <- vlookup_leaf, (md_look _ _ _ _ _ _ _ _ _ _ _ Hm2) by auto.
  unfold map_range at 1. replace ((0 <=? _) && _) with false
    by (symmetry; apply andb_false_iff; right; lia).
  rewrite Hfree by (auto; lia). unfold st64, upd_mem. wp_steps.
  pose proof (mapped_store _ _ _ _ _ _ _ _ _ _ _ a Hm2 ltac:(lia) eq_refl Ha Hpak Hperm Hleaf) as Hm3.
  destruct (a =? _) eqn:Ea; wp_steps.
  - exists (k + 1), t2, fl2. split; [exact Hm3|]. left. unfold map_pages. unfold a, PGSIZE in *. lia.
  - unfold map_pages, a, MAXVA, PGSIZE in *. rewrite (u64_id (_ * 4096 + 4096)) by lia.
    rewrite (u64_id (pa + _ + _)) by lia. apply Z.eqb_neq in Ea. split; [lia|]. split; [lia|]. split; [lia|]. exists t2, fl2. exact Hm3.
Qed.

Lemma mappages_spec : wp (mappages root va size pa perm) map_result s.
Proof.
  unfold mappages. replace (size =? 0) with false by lia.
  rewrite u64_id by (unfold MAXVA in *; lia). rewrite !PGROUNDDOWN_page.
  assert (0 < map_pages va size) as Hn by (unfold map_pages, PGSIZE; dlia).
  eapply wp_loop with (n := Z.to_nat (map_pages va size - 1)) (I := fun n st s1 =>
    exists k t1 fl1, 0 <= k < map_pages va size /\ n = Z.to_nat (map_pages va size - 1 - k) /\
      st = ((va / PGSIZE + k) * PGSIZE, pa + k * PGSIZE) /\ mapped s t fl root va pa perm k s1 t1 fl1).
  - intros n st s1 (k & t1 & fl1 & Hk & -> & -> & Hm). cbn beta iota.
    eapply wp_mono; [apply (mappages_body k s1 t1 fl1 Hm Hk)|]. intros [[a p]|r] s2; [|auto].
    intros (-> & -> & Hk1 & t2 & fl2 & Hm2). exists (Z.to_nat (map_pages va size - 1 - (k + 1))).
    split; [lia|]. exists (k + 1), t2, fl2. split; [lia|auto].
  - exists 0, t, fl. split; [lia|]. split; [f_equal; lia|]. split; [f_equal; unfold PGSIZE; lia|].
    split; [exact Hvm|apply vm_ext_refl|]. intros. unfold map_range.
    destruct (0 <=? _) eqn:E; [|reflexivity]. replace (_ <? 0) with false by lia. reflexivity.
  - unfold map_pages in *. destruct (_ <? _) eqn:E; unfold PGSIZE in *; dlia.
Qed.
End mappages.

(** ** uvmunmap *)

Definition pt_same t m m' : Prop :=
  forall x p a, t !! x = Some p -> in_page p a -> mem_get m' a = mem_get m a.

Lemma pt_same_load t m m' x p i :
  pt_same t m m' -> t !! x = Some p -> 0 <= i < 512 -> load64 m' (pte_addr p i) = load64 m (pte_addr p i).
Proof.
  intros Hs Hx Hi. apply load64_ext. intros b Hb. eapply Hs; [exact Hx|].
  pose proof (pte_addr_page p i Hi). unfold in_page. lia.
Qed.

Lemma pt_inv_frame m m' t root : pt_inv m t root -> pt_same t m m' -> pt_inv m' t root.
Proof.
  intros [A B C D E] Hs. split; auto. intros x p i Hx Hl Hi.
  rewrite (pt_same_load _ _ _ _ _ _ Hs Hx Hi). by apply E.
Qed.

Lemma vlookup_frame m m' t va : pt_same t m m' -> vlookup m' t va = vlookup m t va.
Proof.
  intros Hs. unfold vlookup. destruct (t !! _) eqn:E; [|reflexivity].
  eapply pt_same_load; eauto. apply PX_range. lia.
Qed.

(** [f] with the [k] pages from [va] unmapped. *)
Definition clear_range (f : Z -> Z) (va k va' : Z) : Z :=
  let i := va' / PGSIZE - va / PGSIZE in if (0 <=? i) && (i <? k) then 0 else f va'.

Lemma clear_range_next f va k va' :
  0 <= k -> clear_range f va (k + 1) va' =
    if decide (va' / PGSIZE = va / PGSIZE + k) then 0 else clear_range f va k va'.
Proof.
  intros. unfold clear_range. case_decide.
  - replace ((0 <=? _) && _) with true by (symmetry; apply andb_true_iff; lia). reflexivity.
  - do 2 f_equal. destruct (_ <? k + 1) eqn:E1, (_ <? k) eqn:E2; lia.
Qed.

(** The state after [k] pages from [va] have been unmapped and [freed] has been
    given back to the allocator. *)
Record unmapped s t root fl va k (freed : list Z) s' : Prop := {
  um_inv : vm_inv s' t root (rev freed ++ fl);
  um_look : forall va', 0 <= va' < MAXVA -> vlookup (k_mem s') t va' = clear_range (vlookup (k_mem s) t) va k va';
  um_mem : forall a, (forall x p, t !! x = Some p -> ~ in_page p a) -> (forall p, p ∈ freed -> ~ in_page p a) ->
    mem_get (k_mem s') a = mem_get (k_mem s) a;
  um_rest : s' = with_k_mem (k_mem s') (with_k_freelist (k_freelist s') s);
}.

Lemma unmapped_refl s t root fl va : vm_inv s t root fl -> unmapped s t root fl va 0 [] s.
Proof.
  intros Hv. split; auto. intros. unfold clear_range.
  destruct (0 <=? _) eqn:E; [|reflexivity]. replace (_ <? 0) with false by lia. reflexivity.
Qed.

Lemma unmapped_kfree s t root fl va k freed s1 pa (Q : unit -> kernel -> Prop) :
  unmapped s t root fl va k freed s1 -> Lkmem ∉ k_held s ->
  page_ok pa -> pa ∉ rev freed ++ fl -> (forall x, t !! x <> Some pa) ->
  (forall s2, unmapped s t root fl va k (freed ++ [pa]) s2 -> Q tt s2) ->
  wp (kfree pa) Q s1.
Proof.
  intros [[Hpt Hkm Hsep] Hlook Hmem Hrest] Hh Hpa Hnf Hnt HQ.
  apply (kfree_spec s1 (rev freed ++ fl)); [exact Hkm|by rewrite Hrest|exact Hpa|exact Hnf|].
  cbv zeta. intros Hkm'. apply HQ.
  set (m' := store64 (store_bytes (k_mem s1) pa (fill 1)) pa (k_freelist s1)) in *.
  assert (forall a, ~ in_page pa a -> mem_get m' a = mem_get (k_mem s1) a) as Hm'.
  { intros a Ha. unfold m', store64, in_page, PGSIZE in *. pose proof (fill_length 1). unfold PGSIZE in *.
    rewrite !mem_get_store, le_bytes_length, !decide_False by lia. reflexivity. }
  assert (pt_same t (k_mem s1) m') as Hs.
  { intros x p a Hx Ha. apply Hm'. intros Hpa'. apply (Hnt x). rewrite Hx. f_equal.
    apply (page_disjoint p pa a); [apply (pt_page _ _ _ Hpt _ _ Hx)|apply Hpa|exact Ha|exact Hpa']. }
  clearbody m'. split; ksimp.
  - rewrite rev_app_distr. cbn [rev app]. split; ksimp; [eapply pt_inv_frame; eauto|exact Hkm'|].
    intros x p Hx. apply not_elem_of_cons. split; [intros ->; by apply (Hnt x)|by apply (Hsep x)].
  - intros va' Hva'. rewrite (vlookup_frame _ _ _ _ Hs). auto.
  - intros a Ha Hf. rewrite Hm'; [|apply Hf, elem_of_app; right; by apply list_elem_of_singleton].
    apply Hmem; [exact Ha|]. intros p Hp. apply Hf, elem_of_app. by left.
  - rewrite Hrest. reflexivity.
Qed.

Lemma unmapped_clear s t root fl va k freed s1 a :
  unmapped s t root fl va k freed s1 -> 0 <= k -> a = (va / PGSIZE + k) * PGSIZE -> 0 <= a < MAXVA ->
  leaf_addr t a <> 0 ->
  unmapped s t root fl va (k + 1) freed (with_k_mem (store64 (k_mem s1) (leaf_addr t a) 0) s1).
Proof.
  intros [Hv Hlook Hmem Hrest] Hk Ha Hva Hl.
  destruct (leaf_store_vm s1 t root _ a 0 Hv Hva Hl ltac:(lia)) as [Hv' He].
  split; [exact Hv'| | |].
  - intros va' Hva'. ksimp. rewrite (leaf_store_lookup _ t root) by (auto; try apply Hv; lia).
    rewrite clear_range_next, Hlook by auto. rewrite Ha, Z.div_mul by (unfold PGSIZE; lia). reflexivity.
  - intros b Hb Hf. rewrite (ext_mem _ _ _ _ _ _ He) by auto. auto.
  - rewrite Hrest. reflexivity.
Qed.

(** The pages from [va] are leaves that map [pas]; when the physical pages are to
    be freed, they are allocator pages of the caller. *)
Record leaf_pages s t fl va (pas : list Z) (do_free : bool) : Prop := {
  lp_pte : forall i pa, pas !! i = Some pa -> let e := vlookup (k_mem s) t (va + Z.of_nat i * PGSIZE) in
    has e PTE_V = true /\ PTE_FLAGS e <> PTE_V /\ PTE2PA e = pa;
  lp_own : do_free = true -> NoDup pas /\ forall p, p ∈ pas -> page_ok p /\ p ∉ fl /\ forall x, t !! x <> Some p;
}.

Lemma valid_leaf m t root va : pt_inv m t root -> has (vlookup m t va) PTE_V = true -> leaf_addr t va <> 0.
Proof. intros Hpt Hv E. rewrite vlookup_none in Hv; [done|exact E|eapply pt_page, Hpt]. Qed.

Section unmap.
Variables (s : kernel) (t : gmap (list Z) Z) (root : Z) (fl : list Z) (va : Z) (pas : list Z) (do_free : bool).
Hypothesis Hvm : vm_inv s t root fl.
Hypothesis Hheld : Lkmem ∉ k_held s.
Hypothesis Hva : 0 <= va.
Hypothesis Haligned : va mod PGSIZE = 0.
Hypothesis Hend : va + Z.of_nat (length pas) * PGSIZE <= MAXVA.
Hypothesis Hlp : leaf_pages s t fl va pas do_free.

Let freed (k : nat) : list Z := if do_free then take k pas else [].

Lemma unmap_free k pa s1 (Q : unit -> kernel -> Prop) :
  pas !! k = Some pa -> unmapped s t root fl va (Z.of_nat k) (freed k) s1 ->
  (forall s2, unmapped s t root fl va (Z.of_nat k) (freed (S k)) s2 -> Q tt s2) ->
  wp (when do_free (kfree pa)) Q s1.
Proof.
  intros Hpa Hu HQ. unfold freed in *. apply wp_when; intros Hd; rewrite Hd in Hu, HQ; [|auto].
  destruct (lp_own _ _ _ _ _ _ Hlp Hd) as [Hnd Hown].
  destruct (Hown pa (list_elem_of_lookup_2 _ _ _ Hpa)) as (Hok & Hfl & Ht).
  eapply unmapped_kfree; eauto.
  - rewrite elem_of_app. intros [Hin|]; [|auto]. rewrite list_elem_of_In, <- in_rev, <- list_elem_of_In in Hin.
    apply list_elem_of_lookup_1 in Hin as [j Hj]. apply lookup_take_Some in Hj as [Hj Hjk].
    pose proof (NoDup_lookup _ _ _ _ Hnd Hj Hpa). lia.
  - intros s2 Hu2. apply HQ. by rewrite (take_S_r _ _ _ Hpa).
Qed.

Lemma unmap_body k s1 :
  (k < length pas)%nat -> unmapped s t root fl va (Z.of_nat k) (freed k) s1 ->
  wp (pte <- walk root (va + Z.of_nat k * PGSIZE) false ;;
      if pte =? 0 then panic "uvmunmap: walk" else
      v <- ld64 pte ;;
      if negb (has v PTE_V) then panic "uvmunmap: not mapped" else
      if PTE_FLAGS v =? PTE_V then panic "uvmunmap: not a leaf" else
      when do_free (kfree (PTE2PA v)) ;;;
      st64 pte 0 ;;;
      ret (inl (u64 (va + Z.of_nat k * PGSIZE + PGSIZE))))
    (fun (r : Z + unit) s2 => r = inl (va + Z.of_nat (S k) * PGSIZE) /\
       unmapped s t root fl va (Z.of_nat (S k)) (freed (S k)) s2) s1.
Proof.
  intros Hk Hu. set (a := va + Z.of_nat k * PGSIZE). destruct (lookup_lt_is_Some_2 _ _ Hk) as [pa Hpa].
  destruct (lp_pte _ _ _ _ _ _ Hlp k pa Hpa) as (HV & HF & HP). fold a in HV, HF, HP.
  assert (0 <= a < MAXVA) as Ha by (unfold a, PGSIZE, MAXVA in *; lia).
  assert (a = (va / PGSIZE + Z.of_nat k) * PGSIZE) as Hak by (unfold a, PGSIZE in *; dlia).
  pose proof (valid_leaf _ _ _ _ (vm_pt _ _ _ _ Hvm) HV) as Hleaf.
  wp_step. apply (walk_lookup_spec s1 t root); [apply Hu|exact Ha|].
  replace (_ =? 0) with false by lia. unfold ld64. wp_steps. rewrite <- vlookup_leaf by auto.
  rewrite (um_look _ _ _ _ _ _ _ _ Hu) by auto. unfold clear_range.
  replace (a / PGSIZE) with (va / PGSIZE + Z.of_nat k) by (rewrite Hak, Z.div_mul; unfold PGSIZE; lia).
  replace ((0 <=? _) && _) with false by (symmetry; apply andb_false_iff; right; lia).
  rewrite HV, HP. cbn [negb]. replace (PTE_FLAGS _ =? _) with false by lia. wp_step.
  apply (unmap_free k pa s1); [exact Hpa|exact Hu|]. intros s2 Hu2. unfold st64, upd_mem. wp_steps.
  split; [f_equal; unfold a, MAXVA, PGSIZE in *; rewrite u64_id; lia|].
  replace (Z.of_nat (S k)) with (Z.of_nat k + 1) by lia. apply unmapped_clear; auto. lia.
Qed.

Lemma uvmunmap_spec :
  wp (uvmunmap root va (Z.of_nat (length pas)) do_free)
    (fun _ s' => unmapped s t root fl va (Z.of_nat (length pas)) (if do_free then pas else []) s') s.
Proof.
  unfold uvmunmap. rewrite Haligned. cbn [Z.eqb negb].
  rewrite (u64_id (_ * _)), u64_id by (unfold MAXVA, PGSIZE in *; lia).
  eapply wp_loop with (n := length pas) (I := fun n a s1 => exists k, (k <= length pas)%nat /\
    n = (length pas - k)%nat /\ a = va + Z.of_nat k * PGSIZE /\ unmapped s t root fl va (Z.of_nat k) (freed k) s1).
  - intros n a s1 (k & Hk & -> & -> & Hu). destruct (_ <? _) eqn:E; cbn [negb].
    + eapply wp_mono; [apply (unmap_body k s1); [unfold PGSIZE in *; lia|exact Hu]|].
      intros r s2 (-> & Hu2). exists (length pas - S k)%nat. split; [unfold PGSIZE in *; lia|].
      exists (S k). split; [unfold PGSIZE in *; lia|auto].
    + wp_steps. assert (k = length pas) as -> by (unfold PGSIZE in *; lia).
      unfold freed in Hu. by rewrite firstn_all in Hu.
  - exists 0%nat. split; [lia|]. split; [lia|]. split; [lia|].
    unfold freed. destruct do_free; by apply unmapped_refl.
  - lia.
Qed.
End unmap.

(** ** Theorems *)

(** Walk() on a well-formed page table returns the address of the entry of
    [va].  Without [alloc] it changes nothing and returns 0 when a directory
    level is missing; with [alloc] it adds the missing levels with pages taken
    from the free list, keeps the table well-formed and every entry of every
    address as it was, touches no memory outside the table, and returns 0 only
    when the free list is exhausted. *)
Theorem walk_correct s t root fl va :
  vm_inv s t root fl -> Lkmem ∉ k_held s -> 0 <= va < MAXVA ->
  wp (walk root va false) (fun r s' => s' = s /\ r = leaf_addr t va) s /\
  wp (walk root va true) (fun r s' => exists t' fl', vm_inv s' t' root fl' /\ vm_ext s t fl s' t' fl' /\
    (forall va', vlookup (k_mem s') t' va' = vlookup (k_mem s) t va') /\
    r = leaf_addr t' va /\ (r = 0 -> fl' = [])) s.
Proof.
  intros Hv Hh Hva. split.
  - apply (walk_lookup_spec s t); [apply Hv|exact Hva|auto].
  - apply (walk_spec s t root fl); auto. intros r s' t' fl' Hv' He Hl Hr Hr0. exists t', fl'.
    split_and!; auto. intros ->. destruct Hr0 as [[_ ?]|]; [auto|done].
Qed.

(** Mappages() over a range that is not mapped yet installs, for every page
    that the byte range [va, va+size) touches, the entry of the corresponding
    physical page with the permissions and PTE_V, and leaves the entry of every
    other address as it was; it answers -1 only when the free list ran out, and
    then exactly a prefix of the range is mapped.  On a page that is already
    mapped it panics. *)
Theorem mappages_correct s t root fl va size pa perm :
  vm_inv s t root fl -> Lkmem ∉ k_held s -> 0 <= va -> 0 < size -> va + size <= MAXVA ->
  0 <= perm < 1024 -> 0 <= pa -> pa + size + PGSIZE <= 2 ^ 56 ->
  ((forall va', 0 <= va' < MAXVA -> va / PGSIZE <= va' / PGSIZE <= (va + size - 1) / PGSIZE ->
      has (vlookup (k_mem s) t va') PTE_V = false) ->
   wp (mappages root va size pa perm) (map_result s t root fl va size pa perm) s) /\
  (has (vlookup (k_mem s) t va) PTE_V = true -> mappages root va size pa perm s = Panic "mappages: remap").
Proof.
  intros Hv Hh Hva Hs He Hp Hpa Hpe. split; [by apply mappages_spec|]. intros HV.
  unfold mappages. replace (size =? 0) with false by lia.
  rewrite u64_id by (unfold MAXVA in *; lia).
  set (fuel := Z.to_nat _). assert (exists n, fuel = S n) as [n ->].
  { assert (0 < fuel)%nat as Hf; [|destruct fuel; [lia|eauto]]. unfold fuel. clear fuel. rewrite !PGROUNDDOWN_page.
    assert (va / PGSIZE * PGSIZE <= va) by (unfold PGSIZE; dlia).
    destruct (_ <? _) eqn:E; [set (d := MAXVA - _)|set (d := _ * _ - _)];
      (assert (0 <= d / PGSIZE) by (apply Z.div_pos; unfold d, PGSIZE in *; lia)); lia. }
  cbn [loop]. set (a := PGROUNDDOWN va).
  assert (a / PGSIZE = va / PGSIZE) as Ha.
  { unfold a. rewrite PGROUNDDOWN_page, Z.div_mul; unfold PGSIZE; lia. }
  assert (0 <= a < MAXVA) as Har by (unfold a; rewrite PGROUNDDOWN_page; unfold PGSIZE; dlia).
  pose proof (valid_leaf _ _ _ _ (vm_pt _ _ _ _ Hv) HV) as Hleaf. rewrite <- (leaf_addr_page t a va Ha) in Hleaf.
  assert (walk root a true s = Ok (leaf_addr t a) s) as Hw.
  { apply walk_present; [apply Hv|exact Har|exact Hleaf]. }
  unfold bind at 1 2. rewrite Hw. cbn [rbind]. rewrite (proj2 (Z.eqb_neq _ _) Hleaf).
  unfold bind at 1, ld64, gets. cbn [rbind]. rewrite <- vlookup_leaf by auto. rewrite (vlookup_page _ t a va Ha), HV. reflexivity.
Qed.

(** Uvmunmap() over [n] mapped leaf pages clears exactly their entries:
    every other address keeps its entry, and no memory outside the table and
    the freed pages changes.  With [do_free] the physical pages join the free
    list (each once, in the order of unmapping), without it the free list is
    unchanged. *)
Theorem uvmunmap_correct s t root fl va pas do_free :
  vm_inv s t root fl -> Lkmem ∉ k_held s -> 0 <= va -> va mod PGSIZE = 0 ->
  va + Z.of_nat (length pas) * PGSIZE <= MAXVA -> leaf_pages s t fl va pas do_free ->
  wp (uvmunmap root va (Z.of_nat (length pas)) do_free) (fun _ s' =>
    vm_inv s' t root (rev (if do_free then pas else []) ++ fl) /\
    (forall va', 0 <= va' < MAXVA -> vlookup (k_mem s') t va' =
       if decide (va / PGSIZE <= va' / PGSIZE < va / PGSIZE + Z.of_nat (length pas)) then 0
       else vlookup (k_mem s) t va') /\
    (forall a, (forall x p, t !! x = Some p -> ~ in_page p a) ->
       (forall p, p ∈ (if do_free then pas else []) -> ~ in_page p a) ->
       mem_get (k_mem s') a = mem_get (k_mem s) a)) s.
Proof.
  intros Hv Hh Hva Hal He Hlp. eapply wp_mono; [by apply (uvmunmap_spec s t root fl va pas do_free)|].
  intros u s' Hu. split_and!; [apply Hu| |apply Hu]. intros va' Hva'.
  rewrite (um_look _ _ _ _ _ _ _ _ Hu) by auto. unfold clear_range. case_decide.
  - replace ((0 <=? _) && _) with true by (symmetry; apply andb_true_iff; lia). reflexivity.
  - destruct (0 <=? _) eqn:E1; [|reflexivity]. replace (_ <? _) with false by lia. reflexivity.
Qed.

End table.

(** ** Witnesses: a table that maps the page at 0, and two free pages *)

Definition pg (k : Z) : Z := pg0 + k * PGSIZE.
Definition vm_leaf : Z := Z.lor (Z.lor (PA2PTE (pg 3)) (Z.lor (Z.lor PTE_R PTE_W) PTE_U)) PTE_V.
Definition vm_mem : gmap Z Z :=
  store64 (store64 (store64 (store64 ∅ (pg 4) (pg 5)) (pg 2) vm_leaf)
    (pg 1) (Z.lor (PA2PTE (pg 2)) PTE_V)) (pg 0) (Z.lor (PA2PTE (pg 1)) PTE_V).
Definition vm0 : kernel := with_k_freelist (pg 4) (with_k_mem vm_mem (boot ∅)).
Definition vm_tbl : gmap (list Z) Z := <[[] := pg 0]> (<[[0] := pg 1]> (<[[0; 0] := pg 2]> ∅)).

Lemma vm_mem_load a : a mod 8 = 0 -> load64 vm_mem a =
  if a =? pg 0 then Z.lor (PA2PTE (pg 1)) PTE_V else if a =? pg 1 then Z.lor (PA2PTE (pg 2)) PTE_V
  else if a =? pg 2 then vm_leaf else if a =? pg 4 then pg 5 else 0.
Proof.
  intros Ha. unfold vm_mem. assert (forall k, pg k = 2147622912 + k * 4096) as Hpg by reflexivity.
  repeat (match goal with |- context [a =? ?b] => destruct (Z.eqb_spec a b) as [->|] end;
    [rewrite load64_store64_eq; reflexivity|rewrite load64_store64_ne by (rewrite Hpg in *; dlia)]).
  reflexivity.
Qed.

Lemma vm_tbl_inv x p : vm_tbl !! x = Some p -> x = [] /\ p = pg 0 \/ x = [0] /\ p = pg 1 \/ x = [0; 0] /\ p = pg 2.
Proof.
  unfold vm_tbl. rewrite !lookup_insert. repeat case_decide; intros [= <-]; auto.
Qed.

Lemma pg_ok k : 0 <= k < 30000 -> @page_ok ld0 (pg k).
Proof. split; unfold pg, pg0, PHYSTOP, KERNBASE, PGSIZE; simpl; unfold KERNBASE; dlia. Qed.

Lemma vm0_pt : @pt_inv ld0 vm_mem vm_tbl (pg 0).
Proof.
  split.
  - reflexivity.
  - intros x y p Hx Hy. apply vm_tbl_inv in Hx, Hy. 
    destruct Hx as [[-> ->]|[[-> ->]|[-> ->]]], Hy as [[-> Hy]|[[-> Hy]|[-> Hy]]]; done.
  - intros x p Hx. apply vm_tbl_inv in Hx as [[_ ->]|[[_ ->]|[_ ->]]]; by apply pg_ok.
  - intros x i p Hx. apply vm_tbl_inv in Hx as [[E _]|[[E _]|[E _]]].
    + by destruct x.
    + apply (app_inj_tail x []) in E as [-> ->]. split; [eauto|simpl; lia].
    + apply (app_inj_tail x [0]) in E as [-> ->]. split; [eauto|simpl; lia].
  - intros x p i Hx Hl Hi. apply vm_tbl_inv in Hx as Hx'. rewrite vm_mem_load.
    2: { destruct Hx' as [[_ ->]|[[_ ->]|[_ ->]]]; unfold pte_addr, pg, pg0, KERNBASE, PGSIZE; dlia. }
    destruct Hx' as [[-> ->]|[[-> ->]|[-> ->]]]; [..|simpl in Hl; lia];
    destruct (decide (i = 0)) as [->|Hne]; try reflexivity; unfold vm_tbl; cbn [app];
    rewrite !lookup_insert_ne by congruence; unfold pte_addr, pg, pg0, KERNBASE, PGSIZE;
    repeat match goal with |- context [?a =? ?b] => replace (a =? b) with false by lia end; reflexivity.
Qed.

Lemma vm0_inv : @vm_inv ld0 vm0 vm_tbl (pg 0) [pg 4; pg 5].
Proof.
  split.
  - exact vm0_pt.
  - split; [|apply (bool_decide_unpack _); vm_compute; reflexivity|repeat constructor; apply pg_ok; lia].
    cbn [free_list]. split; [reflexivity|]. change (k_mem vm0) with vm_mem. rewrite !vm_mem_load by reflexivity.
    split; reflexivity.
  - intros x p Hx. apply vm_tbl_inv in Hx as [[_ ->]|[[_ ->]|[_ ->]]];
      apply (bool_decide_unpack _); vm_compute; reflexivity.
Qed.

Lemma walk_correct_witness : wp (walk (pg 0) 5 false) (fun r s' => s' = vm0 /\ r = pg 2) vm0.
Proof.
  eapply wp_mono.
  - apply (proj1 (@walk_correct ld0 ld0_ok vm0 vm_tbl (pg 0) [pg 4; pg 5] 5 vm0_inv
      (not_elem_of_nil _) ltac:(unfold MAXVA; lia))).
  - cbn beta. intros r s' [-> ->]. split; [reflexivity|]. vm_compute. reflexivity.
Defined.

Lemma mappages_correct_witness :
  mappages (pg 0) 0 4096 (pg 7) 2 vm0 = Panic "mappages: remap" /\
  wp (mappages (pg 0) 4096 4097 (pg 7) 2)
    (map_result (H := ld0) vm0 vm_tbl (pg 0) [pg 4; pg 5] 4096 4097 (pg 7) 2) vm0.
Proof.
  pose proof (fun va size pa H1 H2 H3 H4 H5 => @mappages_correct ld0 ld0_ok vm0 vm_tbl (pg 0) [pg 4; pg 5]
    va size pa 2 vm0_inv (not_elem_of_nil _) H1 H2 H3 ltac:(lia) H4 H5) as Hm.
  split.
  - apply (Hm 0 4096 (pg 7)); vm_compute; congruence.
  - refine (proj1 (Hm 4096 4097 (pg 7) _ _ _ _ _) _); [vm_compute; congruence..|]. intros va' Hva Hr. unfold PGSIZE in Hr.
    assert (va' / 4096 = 1 \/ va' / 4096 = 2) as Hp.
    { change (4096 / 4096) with 1 in Hr. change ((4096 + 4097 - 1) / 4096) with 2 in Hr. lia. }
    destruct Hp as [Hp|Hp]; [rewrite (vlookup_page _ _ va' 4096) by auto|rewrite (vlookup_page _ _ va' 8192) by auto];
      vm_compute; reflexivity.
Defined.

Lemma uvmunmap_correct_witness :
  wp (uvmunmap (H := ld0) (pg 0) 0 1 true) (fun _ s' => vm_inv (H := ld0) s' vm_tbl (pg 0) [pg 3; pg 4; pg 5]) vm0.
Proof.
  eapply wp_mono.
  - apply (@uvmunmap_correct ld0 ld0_ok vm0 vm_tbl (pg 0) [pg 4; pg 5] 0 [pg 3] true).
    + exact vm0_inv.
    + apply not_elem_of_nil.
    + lia.
    + reflexivity.
    + vm_compute. congruence.
    + split.
      * intros [|i] pa Hi; [|done]. injection Hi as <-. split_and!; vm_compute; congruence.
      * intros _. split; [apply NoDup_singleton|]. intros p Hp. apply list_elem_of_singleton in Hp as ->.
        split_and!; [apply pg_ok; lia|apply (bool_decide_unpack _); vm_compute; reflexivity|].
        intros x Hx. apply vm_tbl_inv in Hx as [[_ Hx]|[[_ Hx]|[_ Hx]]]; vm_compute in Hx; congruence.
  - cbn beta. intros u s' [Hv _]. exact Hv.
Defined.
