(* ===== verification/VmUser.v ===== *)
(** * User memory: copyout(), copyin() and copyinstr(). *)

From S2P Require Import Prelude Exec Params State Mem Kalloc Vm VmTable.

Section user.
Context `{LinkerOk}.

Implicit Types (t : gmap (list Z) Z) (m : gmap Z Z) (s : kernel) (src : list Z).

(** The physical address of a user-accessible virtual address. *)
Definition uaddr m t (va : Z) : option Z :=
  if decide (0 <= va < MAXVA) then
    let e := vlookup m t va in
    if has e PTE_V && has e PTE_U && negb (PTE2PA e =? 0) then Some (PTE2PA e + va mod PGSIZE) else None
  else None.

(** Different user pages have different physical pages, outside the table. *)
Record user_ok m t : Prop := {
  uo_aligned : forall va pa, uaddr m t va = Some pa -> 0 <= pa /\ pa mod PGSIZE = va mod PGSIZE;
  uo_inj : forall va va' pa, uaddr m t va = Some pa -> uaddr m t va' = Some pa -> va = va';
  uo_table : forall va pa x p, uaddr m t va = Some pa -> t !! x = Some p -> ~ in_page p pa;
}.

Lemma uaddr_frame m m' t va : pt_same t m m' -> uaddr m' t va = uaddr m t va.
Proof. intros Hs. unfold uaddr. by rewrite (vlookup_frame m m'). Qed.

Lemma uaddr_page m t va0 o :
  va0 mod PGSIZE = 0 -> 0 <= o < PGSIZE -> uaddr m t (va0 + o) = (fun pa => pa + o) <$> uaddr m t va0.
Proof.
  intros Hal Ho. unfold uaddr.
  assert ((va0 + o) / PGSIZE = va0 / PGSIZE) as Hd by (unfold PGSIZE in *; dlia).
  assert ((va0 + o) mod PGSIZE = o) as Hm by (unfold PGSIZE in *; dlia).
  rewrite (vlookup_page m t (va0 + o) va0 Hd), Hm, Hal.
  destruct (decide (0 <= va0 < MAXVA)) as [Hr|Hr].
  - rewrite decide_True by (unfold MAXVA, PGSIZE in *; simpl in *; dlia).
    destruct (_ && _ && _); simpl; [|reflexivity]. f_equal. lia.
  - rewrite decide_False by (unfold MAXVA, PGSIZE in *; simpl in *; dlia). reflexivity.
Qed.

Lemma uaddr_chunk m t va pa o :
  uaddr m t va = Some pa -> 0 <= o -> va mod PGSIZE + o < PGSIZE -> uaddr m t (va + o) = Some (pa + o).
Proof.
  intros Hpa Ho Hlen. pose proof (Z.mod_pos_bound va PGSIZE ltac:(unfold PGSIZE; lia)).
  assert ((va - va mod PGSIZE) mod PGSIZE = 0) as Hal by (unfold PGSIZE; dlia).
  pose proof (uaddr_page m t (va - va mod PGSIZE) (va mod PGSIZE) Hal ltac:(lia)) as Hu1.
  pose proof (uaddr_page m t (va - va mod PGSIZE) (va mod PGSIZE + o) Hal ltac:(lia)) as Hu2.
  replace (va - va mod PGSIZE + va mod PGSIZE) with va in Hu1 by lia.
  replace (va - va mod PGSIZE + (va mod PGSIZE + o)) with (va + o) in Hu2 by lia.
  rewrite Hu2. rewrite Hpa in Hu1. destruct (uaddr _ _ (va - _)); simpl in *; [|done].
  injection Hu1 as ->. f_equal. lia.
Qed.

Lemma walkaddr_spec s t root va (Q : Z -> kernel -> Prop) :
  pt_inv (k_mem s) t root -> 0 <= va -> va mod PGSIZE = 0 ->
  (uaddr (k_mem s) t va = None -> Q 0 s) ->
  (forall pa, uaddr (k_mem s) t va = Some pa -> pa <> 0 -> Q pa s) ->
  wp (walkaddr root va) Q s.
Proof.
  intros Hpt Hva Hal HN HS. unfold walkaddr, uaddr in *. destruct (MAXVA <=? va) eqn:E.
  { wp_steps. apply HN. rewrite decide_False by lia. reflexivity. }
  rewrite decide_True in HN by lia. rewrite decide_True in HS by lia. rewrite Hal, Z.add_0_r in HS.
  wp_step. apply (walk_lookup_spec s t root); [exact Hpt|lia|].
  destruct (leaf_addr t va =? 0) eqn:El; wp_steps.
  { apply HN. rewrite vlookup_none; [reflexivity|lia|eapply pt_page, Hpt]. }
  unfold ld64. wp_steps. rewrite <- vlookup_leaf by lia.
  destruct (has _ PTE_V); cbn [negb andb] in *; [|wp_steps; by apply HN].
  destruct (has _ PTE_U); cbn [negb andb] in *; [|wp_steps; by apply HN].
  wp_steps. destruct (PTE2PA _ =? 0) eqn:Ep; cbn [negb] in *; [|apply HS; [reflexivity|lia]].
  apply Z.eqb_eq in Ep. rewrite Ep. by apply HN.
Qed.

(** What the copy loops do with the page of [va]. *)
Lemma user_page s t root va (Q : Z -> kernel -> Prop) :
  pt_inv (k_mem s) t root -> 0 <= va < 2 ^ 64 ->
  (uaddr (k_mem s) t va = None -> Q 0 s) ->
  (forall pa, uaddr (k_mem s) t va = Some (pa + va mod PGSIZE) -> pa <> 0 -> va - va mod PGSIZE < MAXVA -> Q pa s) ->
  wp (walkaddr root (va - va mod PGSIZE)) Q s.
Proof.
  intros Hpt Hva HN HS. pose proof (Z.mod_pos_bound va PGSIZE ltac:(unfold PGSIZE; lia)) as Hmod.
  assert ((va - va mod PGSIZE) mod PGSIZE = 0) as Hal by (unfold PGSIZE; dlia).
  pose proof (uaddr_page (k_mem s) t (va - va mod PGSIZE) (va mod PGSIZE) Hal ltac:(lia)) as Hu.
  replace (va - va mod PGSIZE + va mod PGSIZE) with va in Hu by lia.
  apply (walkaddr_spec s t root); [exact Hpt|unfold PGSIZE in *; dlia|exact Hal| |].
  - intros E. rewrite E in Hu. by apply HN.
  - intros pa Hpa Hnz. rewrite Hpa in Hu. apply HS; [exact Hu|exact Hnz|].
    unfold uaddr in Hpa. case_decide; [lia|done].
Qed.

(** ** copyout *)

Record copied s t (dstva : Z) src s' : Prop := {
  cp_same : pt_same t (k_mem s) (k_mem s');
  cp_bytes : forall j, (j < length src)%nat ->
    exists pa, uaddr (k_mem s) t (dstva + Z.of_nat j) = Some pa /\ mem_get (k_mem s') pa = src !!! j;
  cp_frame : forall a, (forall j, (j < length src)%nat -> uaddr (k_mem s) t (dstva + Z.of_nat j) <> Some a) ->
    mem_get (k_mem s') a = mem_get (k_mem s) a;
  cp_rest : s' = with_k_mem (k_mem s') s;
}.

(** One more chunk inside one page. *)
Lemma copied_step s t dstva src chunk s1 va pa :
  user_ok (k_mem s) t -> copied s t dstva src s1 -> va = dstva + Z.of_nat (length src) ->
  uaddr (k_mem s) t va = Some pa -> va mod PGSIZE + Z.of_nat (length chunk) <= PGSIZE ->
  copied s t dstva (src ++ chunk) (with_k_mem (store_bytes (k_mem s1) pa chunk) s1).
Proof.
  intros [Ual Uinj Utab] [Cs Cb Cf Cr] Hva Hpa Hlen.
  assert (forall o, 0 <= o < Z.of_nat (length chunk) -> uaddr (k_mem s) t (va + o) = Some (pa + o)) as Hu.
  { intros o Ho. apply uaddr_chunk; [exact Hpa|lia|lia]. }
  split; ksimp.
  - intros x p a Hx Ha. rewrite mem_get_store, decide_False; [by apply (Cs x p)|]. intros Hin.
    apply (Utab (va + (a - pa)) a x p); [|exact Hx|exact Ha]. rewrite Hu by lia. f_equal. lia.
  - intros j Hj. rewrite length_app in Hj. destruct (decide (j < length src)%nat) as [Hlt|Hge].
    + destruct (Cb j Hlt) as (pa' & Hpa' & Hb). exists pa'. split; [exact Hpa'|].
      rewrite mem_get_store, decide_False; [by rewrite lookup_total_app_l|]. intros Hin.
      pose proof (Uinj (dstva + Z.of_nat j) (va + (pa' - pa)) pa' Hpa') as He.
      rewrite Hu in He by lia. specialize (He ltac:(f_equal; lia)). lia.
    + exists (pa + (Z.of_nat j - Z.of_nat (length src))). split.
      * rewrite <- Hu by lia. f_equal. lia.
      * rewrite mem_get_store, decide_True by lia. rewrite lookup_total_app_r by lia. f_equal. lia.
  - intros a Ha. rewrite mem_get_store, decide_False.
    + apply Cf. intros j Hj. apply Ha. rewrite length_app. lia.
    + intros Hin. apply (Ha (length src + Z.to_nat (a - pa))%nat); [rewrite length_app; lia|].
      replace (dstva + _) with (va + (a - pa)) by lia. rewrite Hu by lia. f_equal. lia.
  - rewrite Cr. reflexivity.
Qed.

(** The number of pages that [n] bytes from [va] touch. *)
Definition npages (va n : Z) : Z := (n + va mod PGSIZE + PGSIZE - 1) / PGSIZE.

Lemma npages_fuel va n : 0 <= n -> 0 <= npages va n < n / PGSIZE + 3.
Proof. unfold npages, PGSIZE. intros. dlia. Qed.

Lemma npages_next va n k :
  0 < n -> k = (if n <? PGSIZE - va mod PGSIZE then n else PGSIZE - va mod PGSIZE) ->
  0 < k <= n /\ va mod PGSIZE + k <= PGSIZE /\ 0 <= npages (va - va mod PGSIZE + PGSIZE) (n - k) < npages va n /\
  (k < n -> va - va mod PGSIZE + PGSIZE = va + k).
Proof.
  intros Hn ->. unfold npages, PGSIZE. destruct (_ <? _) eqn:E; split_and!; dlia.
Qed.

Definition copyout_result s t dstva src (r : Z) s' : Prop :=
  exists k, (k <= length src)%nat /\ copied s t dstva (take k src) s' /\
    (r = 0 /\ k = length src \/ r = -1 /\ (k < length src)%nat /\ uaddr (k_mem s) t (dstva + Z.of_nat k) = None).

Lemma copyout_spec s t root dstva src :
  pt_inv (k_mem s) t root -> user_ok (k_mem s) t -> 0 <= dstva < 2 ^ 64 ->
  wp (copyout root dstva src) (copyout_result s t dstva src) s.
Proof.
  intros Hpt Huo Hva. unfold copyout.
  eapply wp_loop with (n := Z.to_nat (npages dstva (Z.of_nat (length src)))) (I := fun n '(va, rest) s1 =>
    exists k, (k <= length src)%nat /\ rest = drop k src /\ copied s t dstva (take k src) s1 /\ 0 <= va < 2 ^ 64 /\
      (rest = [] \/ va = dstva + Z.of_nat k) /\ n = Z.to_nat (npages va (Z.of_nat (length rest)))).
  - intros n [va rest] s1 (k & Hk & -> & Hc & Hvr & Hrest & ->). cbn beta iota zeta. rewrite !length_drop.
    destruct (Z.ltb_spec 0 (Z.of_nat (length src - k))) as [E|E]; cbn [negb].
    2: { wp_steps. exists k. split; [lia|]. split; [exact Hc|]. left. split; [reflexivity|lia]. }
    destruct Hrest as [Hn|Hrest]; [apply (f_equal length) in Hn; rewrite length_drop in Hn; simpl in Hn; lia|].
    rewrite !PGROUNDDOWN_eq. wp_step.
    apply (user_page s1 t root); [eapply pt_inv_frame; [exact Hpt|apply Hc]|exact Hvr| |];
      rewrite (uaddr_frame _ _ _ _ (cp_same _ _ _ _ _ Hc)).
    { intros Hn. wp_steps. exists k. split; [lia|]. split; [exact Hc|]. right.
      rewrite <- Hrest. split; [reflexivity|]. split; [lia|exact Hn]. }
    intros pa Hu Hnz Hmax. replace (pa =? 0) with false by lia. unfold upd_mem. wp_steps.
    replace (va - (va - va mod PGSIZE)) with (va mod PGSIZE) by lia.
    set (nz := if _ <? _ then _ else _).
    destruct (npages_next va (Z.of_nat (length src - k)) nz E eq_refl) as (N1 & N2 & N3 & N4).
    assert (0 <= va - va mod PGSIZE) by (unfold PGSIZE; dlia).
    rewrite u64_id by (unfold MAXVA, PGSIZE in *; lia).
    eexists. split; [|exists (k + Z.to_nat nz)%nat; split; [lia|]; split; [by rewrite drop_drop|]; split].
    + instantiate (1 := Z.to_nat (npages (va - va mod PGSIZE + PGSIZE) (Z.of_nat (length src - k) - nz))). lia.
    + rewrite <- take_take_drop. apply (copied_step s t dstva (take k src) _ s1 va); [exact Huo|exact Hc| |exact Hu|];
        rewrite ?length_take, ?length_drop; lia.
    + split; [unfold MAXVA, PGSIZE in *; lia|]. split.
      * destruct (decide (nz < Z.of_nat (length src - k))); [right; lia|left; apply nil_length_inv; len; lia].
      * rewrite !length_drop. do 2 f_equal. lia.
  - exists 0%nat. split_and!; [lia|reflexivity| |lia|lia|right; lia|reflexivity].
    split; [intros x p a _ _; reflexivity|intros j Hj; simpl in Hj; lia|reflexivity..].
  - pose proof (npages_fuel dstva (Z.of_nat (length src))). lia.
Qed.

Lemma user_ok_frame m m' t : pt_same t m m' -> user_ok m t -> user_ok m' t.
Proof.
  intros Hs [A B C]. split.
  - intros va pa. rewrite (uaddr_frame _ _ _ _ Hs). apply A.
  - intros va va' pa. rewrite !(uaddr_frame _ _ _ _ Hs). apply B.
  - intros va pa x p. rewrite (uaddr_frame _ _ _ _ Hs). apply C.
Qed.

Lemma copied_nil s t va : copied s t va [] s.
Proof. split; [by intros ?|intros j Hj; simpl in Hj; lia|by intros|reflexivity]. Qed.

(** Two copies one after the other. *)
Lemma copied_app s t va src1 src2 m1 m2 :
  user_ok (k_mem s) t ->
  copied s t va src1 (with_k_mem m1 s) ->
  copied (with_k_mem m1 s) t (va + Z.of_nat (length src1)) src2 (with_k_mem m2 s) ->
  copied s t va (src1 ++ src2) (with_k_mem m2 s).
Proof.
  intros Hu [S1 B1 F1 _] [S2 B2 F2 _]. ksimp. change (k_mem (with_k_mem ?m s)) with m in *.
  assert (forall j, (j < length src2)%nat -> exists pa, uaddr (k_mem s) t (va + Z.of_nat (length src1 + j)) = Some pa /\
    mem_get m2 pa = src2 !!! j) as B2'.
  { intros j Hj. destruct (B2 j Hj) as (pa & Hpa & Hm). exists pa. rewrite (uaddr_frame _ _ _ _ S1) in Hpa. split; [|exact Hm].
    rewrite <- Hpa. f_equal. lia. }
  split; change (k_mem (with_k_mem ?m s)) with m in *.
  - intros x p a Hx Ha. rewrite (S2 x p a Hx Ha). by apply (S1 x p).
  - intros j Hj. rewrite length_app in Hj. destruct (decide (j < length src1)%nat) as [Hl|Hl].
    + destruct (B1 j Hl) as (pa & Hpa & Hm). exists pa. split; [exact Hpa|]. rewrite lookup_total_app_l by exact Hl.
      rewrite F2; [exact Hm|]. intros j' Hj' E. rewrite (uaddr_frame _ _ _ _ S1) in E.
      pose proof (uo_inj _ _ Hu _ _ _ Hpa E). lia.
    + destruct (B2' (j - length src1)%nat ltac:(lia)) as (pa & Hpa & Hm). exists pa.
      rewrite lookup_total_app_r by lia. split; [|exact Hm]. rewrite <- Hpa. f_equal. lia.
  - intros a Ha. rewrite F2, F1; [reflexivity| |].
    + intros j Hj. apply Ha. rewrite length_app. lia.
    + intros j Hj. rewrite (uaddr_frame _ _ _ _ S1).
      replace (va + Z.of_nat (length src1) + Z.of_nat j) with (va + Z.of_nat (length src1 + j)) by lia.
      apply Ha. rewrite length_app. lia.
  - reflexivity.
Qed.

(** One more byte [c] was stored after the bytes [bs], or its address is not
    mapped. *)
Definition byte_stored s t (addr : Z) bs (c rc : Z) (m' : gmap Z Z) : Prop :=
  rc = 0 /\ copied s t addr (bs ++ [c]) (with_k_mem m' s) \/
  rc = -1 /\ copied s t addr bs (with_k_mem m' s) /\ uaddr (k_mem s) t (addr + Z.of_nat (length bs)) = None.

Lemma copyout_byte s s1 t root addr bs c :
  pt_inv (k_mem s) t root -> user_ok (k_mem s) t ->
  copied s t addr bs (with_k_mem (k_mem s1) s) -> 0 <= addr + Z.of_nat (length bs) < 2 ^ 64 ->
  wp (copyout root (addr + Z.of_nat (length bs)) [c]) (fun rc s' => exists m',
    s' = with_k_mem m' s1 /\ byte_stored s t addr bs c rc m') s1.
Proof.
  intros Hpt Hu Hc Ha. pose proof (cp_same _ _ _ _ _ Hc) as Hs. change (k_mem (with_k_mem ?m s)) with m in Hs.
  eapply wp_mono.
  { apply (copyout_spec _ t); [eapply pt_inv_frame; [exact Hpt|exact Hs]|eapply user_ok_frame; [exact Hs|exact Hu]|exact Ha]. }
  intros rc s' (k & Hk & Hcp & Hrc). cbn [length] in *.
  rewrite (uaddr_frame _ _ _ _ Hs) in Hrc. exists (k_mem s').
  assert (copied s t addr (bs ++ take k [c]) (with_k_mem (k_mem s') s)) as Happ.
  { apply (copied_app s t addr bs _ (k_mem s1)); [exact Hu|exact Hc|]. destruct Hcp as [A B C D].
    split; [exact A|exact B|exact C|reflexivity]. }
  split; [apply Hcp|]. destruct Hrc as [[-> ->]|(-> & Hk0 & Hn)].
  - left. split; [reflexivity|exact Happ].
  - right. replace k with 0%nat in * by lia. cbn [take] in Happ. rewrite app_nil_r in Happ.
    split; [reflexivity|]. split; [exact Happ|]. rewrite <- Hn. f_equal. lia.
Qed.

(** ** copyin and copyinstr *)

(** [bytes] is what user memory holds at [va]. *)
Definition ureads s t (va : Z) (bytes : list Z) : Prop :=
  forall j, (j < length bytes)%nat ->
    exists pa, uaddr (k_mem s) t (va + Z.of_nat j) = Some pa /\ bytes !!! j = mem_get (k_mem s) pa.

Lemma ureads_app s t srcva bytes chunk va pa :
  ureads s t srcva bytes -> va = srcva + Z.of_nat (length bytes) -> uaddr (k_mem s) t va = Some pa ->
  va mod PGSIZE + Z.of_nat (length chunk) <= PGSIZE ->
  chunk = load_bytes (k_mem s) pa (length chunk) -> ureads s t srcva (bytes ++ chunk).
Proof.
  intros Hr Hva Hpa Hlen Hc j Hj. rewrite length_app in Hj. destruct (decide (j < length bytes)%nat).
  - rewrite lookup_total_app_l by lia. by apply Hr.
  - exists (pa + (Z.of_nat j - Z.of_nat (length bytes))). split.
    + replace (srcva + Z.of_nat j) with (va + (Z.of_nat j - Z.of_nat (length bytes))) by lia.
      apply uaddr_chunk; auto; lia.
    + rewrite lookup_total_app_r, Hc, load_bytes_total by lia. f_equal. lia.
Qed.

Definition copyin_result s t srcva len (res : Z * list Z) s' : Prop :=
  s' = s /\ ureads s t srcva (snd res) /\
  (fst res = 0 /\ Z.of_nat (length (snd res)) = len \/
   fst res = -1 /\ Z.of_nat (length (snd res)) < len /\
     uaddr (k_mem s) t (srcva + Z.of_nat (length (snd res))) = None).

Lemma copyin_spec s t root srcva len :
  pt_inv (k_mem s) t root -> 0 <= srcva < 2 ^ 64 -> 0 <= len ->
  wp (copyin root srcva len) (copyin_result s t srcva len) s.
Proof.
  intros Hpt Hva Hlen. unfold copyin.
  eapply wp_loop with (n := Z.to_nat (npages srcva len)) (I := fun n '(va, rest, bytes) s1 =>
    s1 = s /\ ureads s t srcva bytes /\ 0 <= rest /\ rest + Z.of_nat (length bytes) = len /\ 0 <= va < 2 ^ 64 /\
      (rest = 0 \/ va = srcva + Z.of_nat (length bytes)) /\ n = Z.to_nat (npages va rest)).
  - intros n [[va rest] bytes] s1 (-> & Hr & Hr0 & Hl & Hvr & Hrest & ->). cbn beta iota zeta.
    destruct (Z.ltb_spec 0 rest) as [E|E]; cbn [negb].
    2: { wp_steps. split; [reflexivity|]. split; [exact Hr|]. left. simpl. split; [reflexivity|lia]. }
    destruct Hrest as [Hn|Hrest]; [lia|]. rewrite !PGROUNDDOWN_eq. wp_step.
    apply (user_page s t root); [exact Hpt|exact Hvr| |].
    { intros Hn. wp_steps. split; [reflexivity|]. split; [exact Hr|]. right. simpl.
      rewrite <- Hrest. split; [reflexivity|]. split; [lia|exact Hn]. }
    intros pa Hpa Hnz Hmax. replace (pa =? 0) with false by lia. wp_steps.
    replace (va - (va - va mod PGSIZE)) with (va mod PGSIZE) by lia.
    set (nz := if _ <? _ then _ else _). destruct (npages_next va rest nz E eq_refl) as (N1 & N2 & N3 & N4).
    rewrite u64_id by (unfold MAXVA, PGSIZE in *; pose proof (Z.mod_pos_bound va 4096); lia).
    exists (Z.to_nat (npages (va - va mod PGSIZE + PGSIZE) (rest - nz))). split; [lia|].
    split_and!; [reflexivity| |lia|rewrite length_app, load_bytes_length; lia| | | |reflexivity].
    + apply (ureads_app _ _ _ _ _ va (pa + va mod PGSIZE)); auto; rewrite load_bytes_length; [lia|reflexivity].
    + unfold PGSIZE in *; pose proof (Z.mod_pos_bound va 4096); lia.
    + unfold MAXVA, PGSIZE in *; pose proof (Z.mod_pos_bound va 4096); lia.
    + rewrite length_app, load_bytes_length. lia.
  - split_and!; [reflexivity| |lia|simpl; lia|lia|lia|right; simpl; lia|reflexivity]. intros j Hj. simpl in Hj. lia.
  - pose proof (npages_fuel srcva len Hlen). lia.
Qed.

Lemma copy_str_spec m p n :
  let '(l, got) := copy_str m p n in
  l = load_bytes m p (length l) /\ (length l <= n)%nat /\
  if got : bool then exists str, l = str ++ [0] /\ Forall (fun c => c <> 0) str
  else length l = n /\ Forall (fun c => c <> 0) l.
Proof.
  revert p. induction n as [|n IH]; intros p; cbn [copy_str]; [auto|].
  destruct (mem_get m p =? 0) eqn:E.
  - cbn [length load_bytes]. apply Z.eqb_eq in E. rewrite E. split_and!; [reflexivity|lia|].
    exists []. auto.
  - specialize (IH (p + 1)). destruct (copy_str m (p + 1) n) as [l got]. destruct IH as (Hl & Hn & Hg).
    cbn [length load_bytes]. rewrite <- Hl. split_and!; [reflexivity|lia|].
    apply Z.eqb_neq in E. destruct got.
    + destruct Hg as (str & -> & Hs). exists (mem_get m p :: str). split; [reflexivity|by constructor].
    + destruct Hg as [Hg Hs]. split; [lia|by constructor].
Qed.

Definition copyinstr_result s t srcva max (res : Z * list Z) s' : Prop :=
  s' = s /\ ureads s t srcva (snd res) /\ Z.of_nat (length (snd res)) <= max /\
  (fst res = 0 /\ (exists str, snd res = str ++ [0] /\ Forall (fun c => c <> 0) str) \/
   fst res = -1 /\ Forall (fun c => c <> 0) (snd res) /\
     (Z.of_nat (length (snd res)) = max \/ uaddr (k_mem s) t (srcva + Z.of_nat (length (snd res))) = None)).

Lemma copyinstr_spec s t root srcva max :
  pt_inv (k_mem s) t root -> 0 <= srcva < 2 ^ 64 -> 0 <= max ->
  wp (copyinstr root srcva max) (copyinstr_result s t srcva max) s.
Proof.
  intros Hpt Hva Hlen. unfold copyinstr.
  eapply wp_loop with (n := Z.to_nat (npages srcva max)) (I := fun n '(va, rest, bytes, got) s1 =>
    s1 = s /\ ureads s t srcva bytes /\ Z.of_nat (length bytes) <= max /\
    if got : bool then n = 0%nat /\ exists str, bytes = str ++ [0] /\ Forall (fun c => c <> 0) str
    else 0 <= rest /\ rest + Z.of_nat (length bytes) = max /\ 0 <= va < 2 ^ 64 /\ Forall (fun c => c <> 0) bytes /\
      (rest = 0 \/ va = srcva + Z.of_nat (length bytes)) /\ n = Z.to_nat (npages va rest)).
  - intros n [[[va rest] bytes] got] s1 (-> & Hr & Hl & Hgot). cbn beta iota zeta.
    destruct got; cbn [orb].
    { wp_steps. destruct Hgot as [_ Hs]. split_and!; auto. }
    destruct Hgot as (Hr0 & Hsum & Hvr & Hnz & Hrest & ->). destruct (Z.ltb_spec 0 rest) as [E|E]; cbn [negb].
    2: { wp_steps. split_and!; auto. right. simpl. split_and!; auto. left. lia. }
    destruct Hrest as [Hn|Hrest]; [lia|]. rewrite !PGROUNDDOWN_eq. wp_step.
    apply (user_page s t root); [exact Hpt|exact Hvr| |].
    { intros Hn. wp_steps. split_and!; auto. right. simpl. rewrite <- Hrest. auto. }
    intros pa Hpa Hpnz Hmax. replace (pa =? 0) with false by lia. do 2 wp_step.
    replace (va - (va - va mod PGSIZE)) with (va mod PGSIZE) by lia.
    set (nz := if _ <? _ then _ else _). destruct (npages_next va rest nz E eq_refl) as (N1 & N2 & N3 & N4).
    assert (0 <= va - va mod PGSIZE) by (unfold PGSIZE; dlia).
    pose proof (copy_str_spec (k_mem s) (pa + va mod PGSIZE) (Z.to_nat nz)) as Hcs.
    destruct (copy_str _ _ _) as [l got]. destruct Hcs as (Hl1 & Hl2 & Hg). wp_steps.
    rewrite u64_id by (unfold MAXVA, PGSIZE in *; lia).
    assert (ureads s t srcva (bytes ++ l)) as Hr' by (eapply ureads_app; eauto; lia).
    exists (if got then 0%nat else Z.to_nat (npages (va - va mod PGSIZE + PGSIZE) (rest - nz))).
    split; [destruct got; lia|]. split_and!; [reflexivity|exact Hr'|rewrite length_app; lia|]. destruct got.
    + split; [reflexivity|]. destruct Hg as (str & -> & Hs). exists (bytes ++ str).
      split; [by rewrite app_assoc|by apply Forall_app].
    + destruct Hg as [Hg Hs]. rewrite length_app. split_and!; try lia; [|by apply Forall_app].
      unfold MAXVA, PGSIZE in *; lia.
  - split_and!; try lia; [reflexivity|intros j Hj; simpl in Hj; lia|simpl; lia|simpl; lia|constructor|right; simpl; lia].
  - pose proof (npages_fuel srcva max Hlen). lia.
Qed.

(** ** Theorems *)

(** C38: copyout() writes exactly the source bytes to the user addresses from
    [dstva], through the page table, and nothing else: it succeeds when every
    page of the range is mapped and user-accessible, and otherwise answers -1
    having written the bytes before the first inaccessible address. *)
Theorem copyout_correct s t root dstva src :
  pt_inv (k_mem s) t root -> user_ok (k_mem s) t -> 0 <= dstva < 2 ^ 64 ->
  wp (copyout root dstva src) (fun r s' => exists k, (k <= length src)%nat /\ copied s t dstva (take k src) s' /\
    (r = 0 /\ k = length src \/
     r = -1 /\ (k < length src)%nat /\ uaddr (k_mem s) t (dstva + Z.of_nat k) = None)) s.
Proof. apply copyout_spec. Qed.

Lemma ureads_copied s t dstva src s' bytes :
  copied s t dstva src s' -> ureads s' t dstva bytes -> length bytes = length src -> bytes = src.
Proof.
  intros Hc Hr Hl. apply list_eq_same_length with (length src); auto.
  intros j x y Hj Hx Hy. apply list_lookup_total_correct in Hx, Hy. subst.
  destruct (cp_bytes _ _ _ _ _ Hc j Hj) as (pa & Hpa & <-).
  destruct (Hr j ltac:(lia)) as (pa' & Hpa' & ->).
  rewrite (uaddr_frame _ _ _ _ (cp_same _ _ _ _ _ Hc)) in Hpa'. congruence.
Qed.

(** Bytes that copyout() stored are the bytes that copyin() reads back from
    the same user addresses. *)
Theorem copyout_copyin_roundtrip s t root va src :
  pt_inv (k_mem s) t root -> user_ok (k_mem s) t -> 0 <= va < 2 ^ 64 ->
  wp (r <- copyout root va src ;;
      if r =? 0 then copyin root va (Z.of_nat (length src)) else ret (r, []))
    (fun '(r, bytes) s' => r = 0 /\ bytes = src \/ r = -1 /\ bytes = [] /\
       exists j, (j < length src)%nat /\ uaddr (k_mem s) t (va + Z.of_nat j) = None) s.
Proof.
  intros Hpt Huo Hva. wp_step. eapply wp_mono; [by apply (copyout_spec s t)|]. cbn beta.
  intros r s1 (k & Hk & Hc & [[-> ->]|(-> & Hlt & Hn)]); cbn [Z.eqb].
  2: { wp_steps. right. eauto. }
  rewrite firstn_all in Hc. eapply wp_mono.
  - apply (copyin_spec s1 t); [|exact Hva|lia]. eapply pt_inv_frame; [exact Hpt|apply Hc].
  - intros [r bytes] s' (-> & Hr & Hres). simpl in *. left. destruct Hres as [[-> Hl]|(_ & Hl & Hn)].
    + split; [reflexivity|]. eapply ureads_copied; eauto. lia.
    + destruct (cp_bytes _ _ _ _ _ Hc (length bytes) ltac:(lia)) as (pa & Hpa & _).
      rewrite (uaddr_frame _ _ _ _ (cp_same _ _ _ _ _ Hc)) in Hn. congruence.
Qed.

(** Copyinstr() leaves the kernel state alone and copies a NUL-terminated
    user string of at most [max] bytes, terminator included; it answers -1
    exactly when it met an inaccessible page, or [max] bytes, before a NUL. *)
Theorem copyinstr_correct s t root srcva max :
  pt_inv (k_mem s) t root -> 0 <= srcva < 2 ^ 64 -> 0 <= max ->
  wp (copyinstr root srcva max) (fun '(r, dst) s' =>
    s' = s /\ ureads s t srcva dst /\ Z.of_nat (length dst) <= max /\
    (r = 0 /\ (exists str, dst = str ++ [0] /\ Forall (fun c => c <> 0) str) \/
     r = -1 /\ Forall (fun c => c <> 0) dst /\
       (Z.of_nat (length dst) = max \/ uaddr (k_mem s) t (srcva + Z.of_nat (length dst)) = None))) s.
Proof.
  intros Hpt Hva Hm. eapply wp_mono; [by apply (copyinstr_spec s t)|]. intros [r dst] s' Hr. exact Hr.
Qed.

End user.

(** ** Witnesses: the table [vm_tbl], whose only user page is the one at 0 *)

Lemma vm0_uaddr va : uaddr vm_mem vm_tbl va = if decide (0 <= va < PGSIZE) then Some (pg 3 + va) else None.
Proof.
  unfold uaddr. destruct (decide (0 <= va < MAXVA)) as [Hr|Hr].
  2: { rewrite decide_False; [reflexivity|]. unfold MAXVA, PGSIZE in *. lia. }
  case_decide as Hp.
  - rewrite (vlookup_page _ _ va 0) by (unfold PGSIZE in *; dlia).
    change (vlookup vm_mem vm_tbl 0) with vm_leaf. rewrite (Z.mod_small va PGSIZE Hp). reflexivity.
  - assert (vlookup vm_mem vm_tbl va = 0) as ->; [|reflexivity]. unfold vlookup.
    destruct (vm_tbl !! _) as [p|] eqn:E; [|reflexivity].
    apply vm_tbl_inv in E as [[E _]|[[E _]|[E ->]]]; [done..|]. injection E as E2 E1.
    rewrite vm_mem_load by (unfold pte_addr, pg, pg0, KERNBASE, PGSIZE; dlia).
    pose proof (PX_range 0 va ltac:(lia)). assert (PX 0 va <> 0) as Hnz.
    { intros E0. apply Hp. pose proof (PX_inj va 0 Hr ltac:(unfold MAXVA; lia) E2 E1 E0) as Hq.
      unfold PGSIZE in *. dlia. }
    unfold pte_addr, pg, pg0, KERNBASE, PGSIZE.
    repeat match goal with |- context [?a =? ?b] => replace (a =? b) with false by lia end. reflexivity.
Qed.

Lemma vm0_user : user_ok vm_mem vm_tbl.
Proof.
  split.
  - intros va pa. rewrite vm0_uaddr. case_decide; intros [= <-]. unfold pg, pg0, KERNBASE, PGSIZE in *. dlia.
  - intros va va' pa. rewrite !vm0_uaddr. repeat case_decide; intros [= <-] [= E]. lia.
  - intros va pa x p. rewrite vm0_uaddr. case_decide; intros [= <-] Hx.
    apply vm_tbl_inv in Hx as [[_ ->]|[[_ ->]|[_ ->]]]; unfold in_page, pg, pg0, KERNBASE, PGSIZE in *; lia.
Qed.

Lemma copyout_correct_witness :
  wp (copyout (pg 0) 10 [1; 2; 3]) (fun r s' => r = 0 /\ copied vm0 vm_tbl 10 [1; 2; 3] s') vm0.
Proof.
  eapply wp_mono; [apply (@copyout_correct ld0 ld0_ok vm0 vm_tbl (pg 0) 10 [1; 2; 3])|].
  - exact vm0_pt.
  - exact vm0_user.
  - lia.
  - cbn beta. intros r s' (k & Hk & Hc & [[-> ->]|(_ & Hlt & Hn)]); [split; [reflexivity|exact Hc]|].
    change (k_mem vm0) with vm_mem in Hn. rewrite vm0_uaddr, decide_True in Hn; [done|].
    simpl in Hlt. unfold PGSIZE. lia.
Defined.

Lemma copyout_copyin_roundtrip_witness :
  wp (r <- copyout (pg 0) 4094 [7; 8; 9] ;; if r =? 0 then copyin (pg 0) 4094 3 else ret (r, []))
    (fun '(r, bytes) _ => r = 0 /\ bytes = [7; 8; 9] \/ r = -1 /\ bytes = []) vm0.
Proof.
  eapply wp_mono; [apply (@copyout_copyin_roundtrip ld0 ld0_ok vm0 vm_tbl (pg 0) 4094 [7; 8; 9])|].
  - exact vm0_pt.
  - exact vm0_user.
  - lia.
  - intros [r bytes] s' [?|(? & ? & _)]; auto.
Defined.

Lemma copyinstr_correct_witness :
  wp (copyinstr (pg 0) 0 64) (fun '(r, dst) s' => s' = vm0 /\ Z.of_nat (length dst) <= 64) vm0.
Proof.
  eapply wp_mono; [apply (@copyinstr_correct ld0 ld0_ok vm0 vm_tbl (pg 0) 0 64)|].
  - exact vm0_pt.
  - lia.
  - lia.
  - intros [r dst] s' (-> & _ & Hl & _). auto.
Defined.
