(* ===== verification/VmAlloc.v ===== *)
(** * Growing a user address space: uvmalloc() and its roll-back.

    The lemmas about an address space that grows page by page serve uvmcopy()
    as well: page [k] is mapped with the permissions [perms k], and byte [o] of it is [cont k o]. *)

From S2P Require Import Prelude Exec Params State Mem Kalloc Vm VmTable.

Section grow.
Context `{LinkerOk}.

Implicit Types (pas new fl : list Z).

Variables (s : kernel) (t : gmap (list Z) Z) (root : Z) (fl : list Z) (base : Z) (perms : nat -> Z) (cont : nat -> Z -> Z).
Hypothesis Hvm : vm_inv s t root fl.
Hypothesis Hheld : Lkmem ∉ k_held s.
Hypothesis Hbase : 0 <= base.
Hypothesis Haligned : base mod PGSIZE = 0.
Hypothesis Hperm : forall k, 0 <= perms k < 1024.
Hypothesis Hleafperm : forall k, Z.lor (perms k) PTE_V <> PTE_V.

(** The entry of [va'] when the pages from [base] map [pas]. *)
Definition map_list (f : Z -> Z) pas (va' : Z) : Z :=
  let i := va' / PGSIZE - base / PGSIZE in
  if 0 <=? i then
    match pas !! Z.to_nat i with
    | Some pa => Z.lor (Z.lor (PA2PTE pa) (perms (Z.to_nat i))) PTE_V
    | None => f va'
    end
  else f va'.

(** The address space has grown by the pages [pas] at [base]: they have their
    contents, came from the free list like the new table pages, and no other entry and no
    memory outside the table and the free list changed.  [ex] are pages that are
    allocated and filled but not mapped (yet). *)
Record grown (ex pas : list Z) (s1 : kernel) (t1 : gmap (list Z) Z) fl1 : Prop := {
  gr_inv : vm_inv s1 t1 root fl1;
  gr_sub : t ⊆ t1;
  gr_acct : exists new, fl ≡ₚ (ex ++ pas) ++ new ++ fl1 /\ (forall x p, t1 !! x = Some p -> t !! x = Some p \/ p ∈ new) /\
    forall p, p ∈ new -> exists x, t1 !! x = Some p;
  gr_look : forall va', 0 <= va' < MAXVA -> vlookup (k_mem s1) t1 va' = map_list (vlookup (k_mem s) t) pas va';
  gr_page : forall k p o, (pas ++ ex) !! k = Some p -> 0 <= o < PGSIZE -> mem_get (k_mem s1) (p + o) = cont k o;
  gr_mem : forall a, (forall x p, t !! x = Some p -> ~ in_page p a) -> (forall p, p ∈ fl -> ~ in_page p a) ->
    mem_get (k_mem s1) a = mem_get (k_mem s) a;
  gr_rest : s1 = with_k_mem (k_mem s1) (with_k_freelist (k_freelist s1) s);
}.

Lemma grown_held ex pas s1 t1 fl1 : grown ex pas s1 t1 fl1 -> Lkmem ∉ k_held s1.
Proof. intros Hg. by rewrite (gr_rest _ _ _ _ _ Hg). Qed.

(** The pages in use are allocator pages, distinct, and neither free nor part of
    the table. *)
Lemma grown_own ex pas s1 t1 fl1 :
  grown ex pas s1 t1 fl1 ->
  NoDup (ex ++ pas) /\ forall p, p ∈ ex ++ pas -> page_ok p /\ p ∉ fl1 /\ forall x, t1 !! x <> Some p.
Proof.
  intros Hg. destruct (gr_acct _ _ _ _ _ Hg) as (new & Hp & Hnew & _). destruct Hvm as [_ [_ Hnd Hok] Hsep].
  assert (NoDup ((ex ++ pas) ++ new ++ fl1)) as Hnd' by (by rewrite <- Hp).
  apply NoDup_app in Hnd' as (Hnp & Hdis & _). split; [exact Hnp|]. intros p Hin.
  assert (p ∈ fl) as Hpf by (rewrite Hp; apply elem_of_app; by left). specialize (Hdis p Hin).
  rewrite elem_of_app in Hdis. split_and!.
  - by apply (proj1 (Forall_forall _ _) Hok).
  - tauto.
  - intros x Hx. destruct (Hnew x p Hx) as [Hx'|Hx']; [by apply (Hsep x p)|tauto].
Qed.

Lemma grown_refl : grown [] [] s t fl.
Proof.
  split; auto; [exists []; split_and!; auto; set_solver| |set_solver].
  intros. unfold map_list. by destruct (0 <=? _).
Qed.

Lemma map_list_snoc f pas pa va' :
  map_list f (pas ++ [pa]) va' =
    if decide (va' / PGSIZE = base / PGSIZE + Z.of_nat (length pas)) then Z.lor (Z.lor (PA2PTE pa) (perms (length pas))) PTE_V
    else map_list f pas va'.
Proof.
  unfold map_list. destruct (0 <=? _) eqn:E.
  - case_decide as D.
    + rewrite D. replace (base / PGSIZE + Z.of_nat (length pas) - base / PGSIZE) with (Z.of_nat (length pas)) by lia. rewrite Nat2Z.id.
      by rewrite lookup_app_r, Nat.sub_diag by lia.
    + destruct (decide (Z.to_nat (va' / PGSIZE - base / PGSIZE) < length pas)%nat).
      * by rewrite lookup_app_l by lia.
      * rewrite !(lookup_ge_None_2 _ (Z.to_nat _)) by (rewrite ?length_app; simpl; lia). reflexivity.
  - rewrite decide_False by lia. reflexivity.
Qed.

(** A page of the free list, or of the new part of the table, is not one of the
    pages in use. *)
Lemma grown_table ex pas s1 t1 fl1 x p a :
  grown ex pas s1 t1 fl1 -> (forall x p, t !! x = Some p -> ~ in_page p a) -> (forall p, p ∈ fl -> ~ in_page p a) ->
  t1 !! x = Some p -> ~ in_page p a.
Proof.
  intros Hg Ht Hf Hx. destruct (gr_acct _ _ _ _ _ Hg) as (new & Hp & Hnew & _).
  destruct (Hnew x p Hx) as [Hx'|Hx']; [by apply (Ht x)|]. apply Hf. rewrite Hp, !elem_of_app. auto.
Qed.

Lemma grown_take pas s1 t1 mem fl2 m2 h :
  grown [] pas s1 t1 (mem :: fl2) -> page_ok mem -> kmem_inv (with_k_mem m2 (with_k_freelist h s1)) fl2 ->
  (forall a, ~ in_page mem a -> mem_get m2 a = mem_get (k_mem s1) a) ->
  (forall o, 0 <= o < PGSIZE -> mem_get m2 (mem + o) = cont (length pas) o) ->
  grown [mem] pas (with_k_mem m2 (with_k_freelist h s1)) t1 fl2.
Proof.
  intros Hg Hok Hkm2 Hframe Hz. destruct (gr_inv _ _ _ _ _ Hg) as [Hpt Hkm Hsep].
  assert (pt_same t1 (k_mem s1) m2) as Hs.
  { intros x p a Hx Ha. apply Hframe. intros Hin. apply (Hsep x p Hx).
    rewrite (page_disjoint p mem a); [apply list_elem_of_here|apply (pt_page _ _ _ Hpt _ _ Hx)|apply Hok|exact Ha|exact Hin]. }
  destruct (grown_own _ _ _ _ _ Hg) as [_ Hown]. cbn [app] in Hown.
  destruct Hg as [_ Gs (new & Ga & Gn & Gt) Gl Gz Gm Gr]. split; ksimp.
  - split; ksimp; [by eapply pt_inv_frame|exact Hkm2|]. intros x p Hx.
    exact (proj2 (proj1 (not_elem_of_cons _ _ _) (Hsep x p Hx))).
  - exact Gs.
  - exists new. split_and!; auto. rewrite Ga. cbn [app]. by rewrite app_assoc, <- Permutation_middle, <- app_assoc.
  - intros va' Hva'. by rewrite (vlookup_frame _ _ _ _ Hs), Gl.
  - intros k p o Hk Ho. apply lookup_app_Some in Hk as [Hk|[Hk E]].
    + rewrite Hframe; [apply (Gz k); [by rewrite app_nil_r|exact Ho]|]. intros Hin. destruct (Hown p (list_elem_of_lookup_2 _ _ _ Hk)) as (Hpo & Hnf & _).
      apply Hnf. rewrite (page_disjoint p mem (p + o)); [left|apply Hpo|apply Hok|unfold in_page; lia|exact Hin].
    + destruct (k - length pas)%nat eqn:Ek; [|discriminate]. injection E as ->. replace k with (length pas) by lia. by apply Hz.
  - intros a Ht Hf. rewrite Hframe; [by apply Gm|]. apply Hf. rewrite Ga, !elem_of_app, elem_of_cons. auto.
  - rewrite Gr. reflexivity.
Qed.

(** A page is taken off the free list and filled by [w]. *)
Lemma grown_kalloc pas s1 t1 fl1 (w : gmap Z Z -> Z -> gmap Z Z) {A} (f0 : KM A) (f : Z -> KM A) Q :
  grown [] pas s1 t1 fl1 ->
  (forall mem m, page_ok mem -> mem ∈ fl1 -> (forall a, ~ in_page mem a -> mem_get m a = mem_get (k_mem s1) a) ->
     exists l, w m mem = store_bytes m mem l /\ length l = Z.to_nat PGSIZE /\ forall o, 0 <= o < PGSIZE -> l !!! Z.to_nat o = cont (length pas) o) ->
  (fl1 = [] -> wp f0 Q s1) ->
  (forall mem s2 fl2, grown [mem] pas s2 t1 fl2 -> wp (f mem) Q s2) ->
  wp (mem <- kalloc ;; if mem =? 0 then f0 else
      upd_mem (fun m => w m mem) ;;; f mem) Q s1.
Proof.
  intros Hg Hw HQ0 HQ. pose proof (grown_held _ _ _ _ _ Hg) as Hh. destruct (gr_inv _ _ _ _ _ Hg) as [Hpt Hkm Hsep].
  wp_step. apply (kalloc_spec s1 fl1); [exact Hkm|exact Hh|]. destruct fl1 as [|mem fl2]; [by apply HQ0|].
  cbv zeta. intros Hkm' Hok Hmf. pose proof (page_ok_nz mem Hok). replace (mem =? 0) with false by lia.
  unfold upd_mem. wp_steps. ksimp. destruct (Hw mem (store_bytes (k_mem s1) mem (fill 5)) Hok ltac:(left)) as (l & El & Hll & Hlo).
  { intros a Ha. unfold in_page in Ha. pose proof (fill_length 5). rewrite mem_get_store, decide_False by lia. reflexivity. }
  assert (Z.of_nat (length l) = PGSIZE) as Hlz by (rewrite Hll; reflexivity). rewrite El. set (m2 := store_bytes (store_bytes (k_mem s1) mem (fill 5)) mem l).
  assert (forall a, ~ in_page mem a -> mem_get m2 a = mem_get (k_mem s1) a) as Hframe.
  { intros a Ha. unfold m2, in_page in *. pose proof (fill_length 5).
    rewrite !mem_get_store, !decide_False by lia. reflexivity. }
  assert (forall o, 0 <= o < PGSIZE -> mem_get m2 (mem + o) = cont (length pas) o) as Hz.
  { intros o Ho. unfold m2. rewrite mem_get_store, decide_True by lia. rewrite <- Hlo by lia. f_equal. lia. }
  assert (kmem_inv (with_k_mem m2 (with_k_freelist (load64 (k_mem s1) mem) s1)) fl2) as Hkm2.
  { apply (kmem_inv_store (with_k_mem (store_bytes (k_mem s1) mem (fill 5))
      (with_k_freelist (load64 (k_mem s1) mem) s1)) fl2 mem);
      [exact Hkm'|apply Hok|exact Hmf|lia|lia]. }
  lazymatch goal with |- wp _ _ ?s' => change s' with (with_k_mem m2 (with_k_freelist (load64 (k_mem s1) mem) s1)) end.
  clearbody m2. apply (HQ mem _ fl2). by apply grown_take.
Qed.

(** mappages() of the new page: it is mapped when a table could be had. *)
Lemma grown_mapped mem pas s2 t1 fl2 k s3 t3 fl3 :
  grown [mem] pas s2 t1 fl2 ->
  mapped s2 t1 fl2 root (base + Z.of_nat (length pas) * PGSIZE) mem (perms (length pas)) k s3 t3 fl3 -> k = 0 \/ k = 1 ->
  if decide (k = 1) then grown [] (pas ++ [mem]) s3 t3 fl3 else grown [mem] pas s3 t3 fl3.
Proof.
  intros Hg [Mi Me Ml] Hk. set (a0 := base + Z.of_nat (length pas) * PGSIZE) in *.
  destruct (grown_own _ _ _ _ _ Hg) as [_ Hown]. pose proof (fun x p a => grown_table _ _ _ _ _ x p a Hg) as Htab.
  destruct Hg as [_ Gs (new & Ga & Gn & Gt) Gl Gz Gm Gr]. destruct Me as [Es (new2 & Ef & En & Et) Em Er].
  assert (forall p, p ∈ mem :: pas -> forall x, t3 !! x <> Some p) as Hnt.
  { intros p Hp x Hx. destruct (Hown p Hp) as (_ & Hnf & Hnt). destruct (En x p Hx) as [Hx'|Hx']; [by apply (Hnt x)|].
    apply Hnf. rewrite Ef. apply elem_of_app. by left. }
  assert (forall j p o, (pas ++ [mem]) !! j = Some p -> 0 <= o < PGSIZE -> mem_get (k_mem s3) (p + o) = cont j o) as Hz.
  { intros j p o Hj Ho. assert (p ∈ mem :: pas) as Hp by (apply list_elem_of_lookup_2 in Hj; set_solver). rewrite Em; [by apply (Gz j)|].
    intros x q Hx Hq. apply (Hnt p Hp x). rewrite Hx. f_equal.
    apply (page_disjoint q p (p + o)); [apply (pt_page _ _ _ (vm_pt _ _ _ _ Mi) _ _ Hx)|apply (Hown p Hp)|exact Hq|unfold in_page; lia]. }
  assert (t ⊆ t3) as Hsub by (by transitivity t1).
  assert (forall a, (forall x p, t !! x = Some p -> ~ in_page p a) -> (forall p, p ∈ fl -> ~ in_page p a) ->
    mem_get (k_mem s3) a = mem_get (k_mem s) a) as Hm.
  { intros a Ht Hf. rewrite Em; [by apply Gm|]. intros x p Hx. destruct (En x p Hx) as [Hx'|Hx']; [by eapply Htab|].
    apply Hf. rewrite Ga, Ef, !elem_of_app. auto. }
  assert (exists new', fl ≡ₚ ([mem] ++ pas) ++ new' ++ fl3 /\
    (forall x p, t3 !! x = Some p -> t !! x = Some p \/ p ∈ new') /\ forall p, p ∈ new' -> exists x, t3 !! x = Some p) as Hacct.
  { exists (new ++ new2). split_and!.
    - rewrite Ga, Ef. by rewrite <- !app_assoc.
    - intros x p Hx. rewrite elem_of_app. destruct (En x p Hx) as [Hx'|]; [|auto]. destruct (Gn x p Hx'); auto.
    - intros p. rewrite elem_of_app. intros [Hp|Hp]; [|auto]. destruct (Gt p Hp) as [x Hx]. exists x.
      by apply (lookup_weaken t1 t3). }
  assert (s3 = with_k_mem (k_mem s3) (with_k_freelist (k_freelist s3) s)) as Hrest by (rewrite Er, Gr; reflexivity).
  assert (a0 / PGSIZE = base / PGSIZE + Z.of_nat (length pas)) as Ha0 by (unfold a0, PGSIZE; dlia).
  case_decide as Dk; split; auto.
  - destruct Hacct as (new' & Hp & Hn). exists new'. split; [|exact Hn]. rewrite Hp. cbn [app].
    by rewrite <- Permutation_cons_append.
  - intros va' Hva'. rewrite Ml, map_list_snoc by auto. unfold map_range. rewrite Ha0, Dk. case_decide.
    + replace ((0 <=? _) && _) with true by (symmetry; apply andb_true_iff; lia). do 3 f_equal. lia.
    + replace ((0 <=? _) && _) with false by (symmetry; apply andb_false_iff; lia). by apply Gl.
  - by rewrite app_nil_r.
  - intros va' Hva'. rewrite Ml by auto. unfold map_range. 
    replace ((0 <=? _) && _) with false by (symmetry; apply andb_false_iff; lia). by apply Gl.
Qed.

(** kfree() of the page that could not be mapped. *)
Lemma grown_kfree mem pas s3 t3 fl3 (Q : unit -> kernel -> Prop) :
  grown [mem] pas s3 t3 fl3 -> (forall s4, grown [] pas s4 t3 (mem :: fl3) -> Q tt s4) -> wp (kfree mem) Q s3.
Proof.
  intros Hg HQ. destruct (grown_own _ _ _ _ _ Hg) as [Hnd Hown]. pose proof (grown_held _ _ _ _ _ Hg) as Hh.
  destruct (Hown mem (list_elem_of_here _ _)) as (Hok & Hnf & Hnt).
  destruct Hg as [Gi Gs (new & Ga & Gn & Gt) Gl Gz Gm Gr].
  apply (unmapped_kfree s3 t3 root fl3 0 0 [] s3); [by apply unmapped_refl|exact Hh|exact Hok|exact Hnf|exact Hnt|].
  intros s4 [Ui Ul Um Ur]. apply HQ. cbn [rev app] in *. apply NoDup_cons in Hnd as [Hnp _].
  assert (forall a, (forall x p, t3 !! x = Some p -> ~ in_page p a) -> ~ in_page mem a ->
    mem_get (k_mem s4) a = mem_get (k_mem s3) a) as Hframe.
  { intros a Ha Hma. apply Um; [exact Ha|]. intros p Hp. apply list_elem_of_singleton in Hp as ->. exact Hma. }
  split; auto.
  - exists new. split_and!; auto. rewrite Ga. cbn [app].
    by rewrite (app_assoc pas new (mem :: fl3)), <- Permutation_middle, <- app_assoc.
  - intros va' Hva'. rewrite Ul, <- Gl by auto. unfold clear_range.
    destruct (0 <=? _) eqn:E; [|reflexivity]. replace (_ <? 0) with false by lia. reflexivity.
  - intros k p o Hk Ho. rewrite app_nil_r in Hk. pose proof (list_elem_of_lookup_2 _ _ _ Hk) as Hp. destruct (Hown p) as (Hpo & _ & Hpt); [by right|].
    rewrite Hframe; [apply (Gz k); [by apply lookup_app_l_Some|exact Ho]| |].
    + intros x q Hx Hq. apply (Hpt x). rewrite Hx. f_equal.
      apply (page_disjoint q p (p + o)); [apply (pt_page _ _ _ (vm_pt _ _ _ _ Gi) _ _ Hx)|apply Hpo|exact Hq|unfold in_page; lia].
    + intros Hma. apply Hnp. rewrite (page_disjoint mem p (p + o)); [exact Hp|apply Hok|apply Hpo|exact Hma|unfold in_page; lia].
  - intros a Ht Hf. rewrite Hframe; [by apply Gm| |apply Hf; rewrite Ga; set_solver].
    intros x p Hx. destruct (Gn x p Hx) as [Hx'|Hx']; [by apply (Ht x)|]. apply Hf. rewrite Ga. set_solver.
  - rewrite Ur, Gr. reflexivity.
Qed.

(** One page more: [c0] cleans up when there is no page for the data or for a
    table, [nx] goes on. *)
Lemma grow_step {A} pas s1 t1 fl1 (w : gmap Z Z -> Z -> gmap Z Z) (c0 nx : KM A) (Q : A -> kernel -> Prop) :
  let a := base + Z.of_nat (length pas) * PGSIZE in
  grown [] pas s1 t1 fl1 -> a + PGSIZE <= MAXVA ->
  (forall va', 0 <= va' < MAXVA -> va' / PGSIZE - base / PGSIZE = Z.of_nat (length pas) -> has (vlookup (k_mem s) t va') PTE_V = false) ->
  (forall mem m, page_ok mem -> mem ∈ fl1 -> (forall a, ~ in_page mem a -> mem_get m a = mem_get (k_mem s1) a) ->
     exists l, w m mem = store_bytes m mem l /\ length l = Z.to_nat PGSIZE /\ forall o, 0 <= o < PGSIZE -> l !!! Z.to_nat o = cont (length pas) o) ->
  (forall s2 t2 fl2, grown [] pas s2 t2 fl2 -> (length fl2 <= 1)%nat -> wp c0 Q s2) ->
  (forall mem s2 t2 fl2, grown [] (pas ++ [mem]) s2 t2 fl2 -> wp nx Q s2) ->
  wp (mem <- kalloc ;; if mem =? 0 then c0 else
      upd_mem (fun m => w m mem) ;;;
      r <- mappages root a PGSIZE mem (perms (length pas)) ;;
      if negb (r =? 0) then kfree mem ;;; c0 else nx) Q s1.
Proof.
  intros a Hg Hmax Hfree Hw Hc Hn. assert (a mod PGSIZE = 0) as Hal by (unfold a, PGSIZE in *; dlia).
  apply (grown_kalloc pas s1 t1 fl1 w c0 (fun mem => r <- mappages root a PGSIZE mem (perms (length pas)) ;; if negb (r =? 0) then kfree mem ;;; c0 else nx)); auto.
  { intros ->. apply (Hc s1 t1 []); [exact Hg|cbn; lia]. }
  intros mem s2 fl2 Hg2. destruct (grown_own _ _ _ _ _ Hg2) as [_ Hown].
  destruct (Hown mem (list_elem_of_here _ _)) as (Hok & _ & _). pose proof (page_ok_nz mem Hok).
  wp_step. eapply wp_mono.
  { apply (mappages_spec s2 t1 root fl2 a PGSIZE mem (perms (length pas))); auto; try (unfold a, PHYSTOP, KERNBASE, PGSIZE in *; lia).
    - apply Hg2.
    - by eapply grown_held.
    - destruct Hok as [_ Hok]. unfold PHYSTOP, KERNBASE, PGSIZE in *. lia.
    - intros va' Hva' Hr. rewrite (gr_look _ _ _ _ _ Hg2) by auto. unfold map_list.
      assert (va' / PGSIZE - base / PGSIZE = Z.of_nat (length pas)) as E by (unfold a, PGSIZE in *; dlia). rewrite E.
      replace (0 <=? _) with true by lia. rewrite lookup_ge_None_2 by lia. by apply Hfree. }
  intros r s3 (k & t3 & fl3 & Hm & Hres). assert (map_pages a PGSIZE = 1) as Hmp by (unfold map_pages, PGSIZE in *; dlia).
  rewrite Hmp in Hres. pose proof (grown_mapped mem pas s2 t1 fl2 k s3 t3 fl3 Hg2 Hm) as Hg3.
  destruct Hres as [[-> ->]|(-> & Hk & ->)]; cbn [Z.eqb negb].
  - specialize (Hg3 (or_intror eq_refl)). rewrite decide_True in Hg3 by auto. eauto.
  - specialize (Hg3 ltac:(lia)). rewrite decide_False in Hg3 by lia. wp_step. apply (grown_kfree mem pas s3 t3 []); [exact Hg3|].
    intros s4 Hg4. apply (Hc s4 t3 [mem]); [exact Hg4|cbn; lia].
Qed.

(** The roll-back: the pages are unmapped and all given back. *)
Record rolled (n : Z) (s1 : kernel) (t1 : gmap (list Z) Z) fl1 : Prop := {
  ro_inv : vm_inv s1 t1 root fl1;
  ro_sub : t ⊆ t1;
  ro_acct : exists new, fl ≡ₚ new ++ fl1 /\ forall p, p ∈ new -> exists x, t1 !! x = Some p;
  ro_look : forall va', 0 <= va' < MAXVA ->
    if decide (0 <= va' / PGSIZE - base / PGSIZE < n) then has (vlookup (k_mem s1) t1 va') PTE_V = false
    else vlookup (k_mem s1) t1 va' = vlookup (k_mem s) t va';
  ro_mem : forall a, (forall x p, t !! x = Some p -> ~ in_page p a) -> (forall p, p ∈ fl -> ~ in_page p a) ->
    mem_get (k_mem s1) a = mem_get (k_mem s) a;
  ro_rest : s1 = with_k_mem (k_mem s1) (with_k_freelist (k_freelist s1) s);
}.

Lemma leaf_pte_facts pa k :
  page_ok pa -> let e := Z.lor (Z.lor (PA2PTE pa) (perms k)) PTE_V in
  has e PTE_V = true /\ PTE_FLAGS e <> PTE_V /\ PTE2PA e = pa.
Proof.
  intros Hpa e. unfold e. pose proof (page_ok_nz pa Hpa). destruct Hpa as [Hal _]. rewrite <- Z.lor_assoc.
  assert (0 <= Z.lor (perms k) PTE_V < 2 ^ 10) by (apply lor_range; unfold PTE_V; try lia; apply Hperm).
  rewrite PTE_FLAGS_make, PTE2PA_make by lia. split_and!; [|apply Hleafperm|reflexivity].
  change (has (Z.lor (PA2PTE pa) (Z.lor (perms k) PTE_V)) (2 ^ 0) = true). rewrite has_make by lia.
  rewrite Z.lor_spec. change (Z.testbit PTE_V 0) with true. apply orb_true_r.
Qed.

Lemma grown_leaves pas s1 t1 fl1 :
  grown [] pas s1 t1 fl1 -> base + Z.of_nat (length pas) * PGSIZE <= MAXVA -> leaf_pages s1 t1 fl1 base pas true.
Proof.
  intros Hg Hend. destruct (grown_own _ _ _ _ _ Hg) as [Hnd Hown]. cbn [app] in *. split; [|auto].
  intros i pa Hi. pose proof (lookup_lt_Some _ _ _ Hi). cbv zeta.
  rewrite (gr_look _ _ _ _ _ Hg) by (unfold MAXVA, PGSIZE in *; lia). unfold map_list.
  replace ((base + Z.of_nat i * PGSIZE) / PGSIZE) with (base / PGSIZE + Z.of_nat i) by (unfold PGSIZE; dlia).
  replace (0 <=? _) with true by lia. replace (Z.to_nat _) with i by lia. rewrite Hi.
  apply leaf_pte_facts, Hown. by eapply list_elem_of_lookup_2.
Qed.

Lemma unmapped_rolls pas s1 t1 fl1 n s2 :
  grown [] pas s1 t1 fl1 -> Z.of_nat (length pas) <= n ->
  (forall va', 0 <= va' < MAXVA -> 0 <= va' / PGSIZE - base / PGSIZE < n -> has (vlookup (k_mem s) t va') PTE_V = false) ->
  unmapped s1 t1 root fl1 base (Z.of_nat (length pas)) pas s2 -> rolled n s2 t1 (rev pas ++ fl1).
Proof.
  intros Hg Hn Hfree [Ui Ul Um Ur]. pose proof (fun x p a => grown_table _ _ _ _ _ x p a Hg) as Htab.
  destruct Hg as [Gi Gs (new & Ga & Gn & Gt) Gl Gz Gm Gr]. split; auto.
  - exists new. split; [|exact Gt]. rewrite Ga. cbn [app]. rewrite Permutation_app_swap_app.
    apply Permutation_app_head, Permutation_app_tail, Permutation_rev.
  - intros va' Hva'. rewrite Ul by auto. unfold clear_range. rewrite Gl by auto. unfold map_list. case_decide as D.
    + replace (0 <=? _) with true by lia. cbn [andb]. destruct (_ <? Z.of_nat _) eqn:E; [reflexivity|].
      rewrite lookup_ge_None_2 by lia. by apply Hfree.
    + destruct (0 <=? _) eqn:E1; [|reflexivity]. cbn [andb]. replace (_ <? _) with false by lia.
      rewrite lookup_ge_None_2 by lia. reflexivity.
  - intros a Ht Hf. rewrite Um; [by apply Gm| |].
    + intros x p Hx. by eapply Htab.
    + intros p Hp. apply Hf. rewrite Ga. cbn [app]. apply elem_of_app. by left.
  - rewrite Ur, Gr. reflexivity.
Qed.

(** uvmunmap() of the pages that were mapped. *)
Lemma uvmunmap_rolls pas s1 t1 fl1 n (Q : unit -> kernel -> Prop) :
  grown [] pas s1 t1 fl1 -> base + Z.of_nat (length pas) * PGSIZE <= MAXVA -> Z.of_nat (length pas) <= n ->
  (forall va', 0 <= va' < MAXVA -> 0 <= va' / PGSIZE - base / PGSIZE < n -> has (vlookup (k_mem s) t va') PTE_V = false) ->
  (forall s2, rolled n s2 t1 (rev pas ++ fl1) -> Q tt s2) ->
  wp (uvmunmap root base (Z.of_nat (length pas)) true) Q s1.
Proof.
  intros Hg Hend Hn Hfree HQ. pose proof (grown_leaves _ _ _ _ Hg Hend) as Hlv. pose proof (grown_held _ _ _ _ _ Hg) as Hh.
  eapply wp_mono; [apply (uvmunmap_spec s1 t1 root fl1 base pas true); auto; apply Hg|].
  intros [] s2 Hu. by apply HQ, (unmapped_rolls pas s1).
Qed.

Lemma uvmdealloc_rolls pas s1 t1 fl1 n (Q : Z -> kernel -> Prop) :
  grown [] pas s1 t1 fl1 -> base + Z.of_nat (length pas) * PGSIZE <= MAXVA -> Z.of_nat (length pas) <= n ->
  (forall va', 0 <= va' < MAXVA -> 0 <= va' / PGSIZE - base / PGSIZE < n -> has (vlookup (k_mem s) t va') PTE_V = false) ->
  (forall r s2, rolled n s2 t1 (rev pas ++ fl1) -> Q r s2) ->
  wp (uvmdealloc root (base + Z.of_nat (length pas) * PGSIZE) base) Q s1.
Proof.
  intros Hg Hend Hn Hfree HQ. unfold uvmdealloc. destruct (_ <=? base) eqn:E.
  { wp_steps. apply HQ, (unmapped_rolls pas s1); auto. assert (length pas = 0)%nat as Hl by (unfold PGSIZE in *; lia).
    apply nil_length_inv in Hl. subst pas. apply unmapped_refl, Hg. }
  rewrite !PGROUNDUP_eq by (unfold MAXVA, PGSIZE in *; lia).
  replace ((base + PGSIZE - 1) / PGSIZE * PGSIZE) with base by (unfold PGSIZE in *; dlia).
  replace ((base + _ * PGSIZE + PGSIZE - 1) / PGSIZE * PGSIZE) with (base + Z.of_nat (length pas) * PGSIZE)
    by (unfold PGSIZE in *; dlia).
  replace (base <? _) with true by lia. replace (base + _ - base) with (Z.of_nat (length pas) * PGSIZE) by lia.
  rewrite Z.div_mul, i32_id, u64_id by (unfold MAXVA, PGSIZE in *; lia). wp_step. cbn [when].
  apply (uvmunmap_rolls pas s1 t1 fl1 n); auto. intros s2 Hr. wp_steps. by apply HQ.
Qed.

End grow.

(** ** uvmalloc *)

Section uvmalloc.
Context `{LinkerOk}.
Variables (s : kernel) (t : gmap (list Z) Z) (root : Z) (fl : list Z) (base perm : Z).
Hypothesis Hvm : vm_inv s t root fl.
Hypothesis Hheld : Lkmem ∉ k_held s.
Hypothesis Hbase : 0 <= base.
Hypothesis Haligned : base mod PGSIZE = 0.
Hypothesis Hperm : 0 <= perm < 1024.
Hypothesis Hleafperm : Z.lor perm PTE_V <> PTE_V.

(** The pages have all the same permissions and are zeroed. *)
Notation grown := (grown s t root fl base (fun _ => perm) (fun _ _ => 0)).
Notation rolled := (rolled s t root fl base).

Variable newsz : Z.
Hypothesis Hnew : newsz <= MAXVA.
Let n : Z := Z.max 0 ((newsz - base + PGSIZE - 1) / PGSIZE).
Hypothesis Hfree : forall va', 0 <= va' < MAXVA -> 0 <= va' / PGSIZE - base / PGSIZE < n ->
  has (vlookup (k_mem s) t va') PTE_V = false.

Definition uvmalloc_result (r : Z) (s' : kernel) : Prop :=
  (r = newsz /\ exists pas t' fl', Z.of_nat (length pas) = n /\ grown [] pas s' t' fl') \/
  (r = 0 /\ exists t' fl', rolled n s' t' fl' /\ Z.of_nat (length fl') <= n).

Lemma uvmalloc_body pas s1 t1 fl1 :
  grown [] pas s1 t1 fl1 -> Z.of_nat (length pas) < n ->
  let a := base + Z.of_nat (length pas) * PGSIZE in
  wp (mem <- kalloc ;;
      if mem =? 0 then uvmdealloc root a base ;;; ret (inr 0) else
      upd_mem (fun m => memset m mem 0 PGSIZE) ;;;
      r <- mappages root a PGSIZE mem perm ;;
      if negb (r =? 0) then
        kfree mem ;;;
        uvmdealloc root a base ;;;
        ret (inr 0)
      else ret (inl (u64 (a + PGSIZE))))
    (fun r s2 => match r with
     | inl a' => a' = a + PGSIZE /\ exists mem t2 fl2, grown [] (pas ++ [mem]) s2 t2 fl2
     | inr r => uvmalloc_result r s2
     end) s1.
Proof.
  intros Hg Hlt a. assert (a + PGSIZE <= newsz + PGSIZE - 1) as Ha by (unfold a, n, PGSIZE in *; dlia).
  assert (a + PGSIZE <= MAXVA) as Hmax by (unfold a, n, MAXVA, PGSIZE in *; dlia).
  apply (grow_step s t root fl base (fun _ => perm) (fun _ _ => 0) Hvm Hheld Hbase Haligned (fun _ => Hperm) (fun _ => Hleafperm) pas s1 t1 fl1
    (fun m mem => memset m mem 0 PGSIZE) (uvmdealloc root a base ;;; ret (inr 0)) (ret (inl (u64 (a + PGSIZE)))) _ Hg Hmax).
  - intros va' Hva' E. apply Hfree; [exact Hva'|lia].
  - intros mem m Hok _ _. pose proof (page_ok_nz mem Hok). exists (fill 0). split; [apply memset_page; lia|]. split; [reflexivity|]. intros o Ho. apply fill_lookup. lia.
  - intros s2 t2 fl2 Hg2 Hl. wp_step. apply (uvmdealloc_rolls s t root fl base (fun _ => perm) (fun _ _ => 0) Hvm Hheld Hbase Haligned (fun _ => Hperm) (fun _ => Hleafperm)
      pas s2 t2 fl2 n); auto; [unfold a, PGSIZE in *; lia|lia|].
    intros r s3 Hr. wp_steps. right. split; [reflexivity|]. exists t2, (rev pas ++ fl2). split; [exact Hr|]. rewrite length_app, length_rev. lia.
  - intros mem s2 t2 fl2 Hg2. wp_steps. split; [|eauto]. rewrite u64_id; [reflexivity|]. unfold a, MAXVA, PGSIZE in *. lia.
Qed.

Lemma uvmalloc_loop :
  base < newsz + PGSIZE ->
  wp (loop (Z.to_nat ((newsz - base) / PGSIZE + 2)) (fun a =>
    if negb (a <? newsz) then ret (inr newsz) else
    mem <- kalloc ;;
    if mem =? 0 then uvmdealloc root a base ;;; ret (inr 0) else
    upd_mem (fun m => memset m mem 0 PGSIZE) ;;;
    r <- mappages root a PGSIZE mem perm ;;
    if negb (r =? 0) then
      kfree mem ;;;
      uvmdealloc root a base ;;;
      ret (inr 0)
    else ret (inl (u64 (a + PGSIZE)))) base) uvmalloc_result s.
Proof.
  intros Hbn. eapply wp_loop with (n := Z.to_nat n) (I := fun k a s1 => exists pas t1 fl1, grown [] pas s1 t1 fl1 /\
    a = base + Z.of_nat (length pas) * PGSIZE /\ Z.of_nat (length pas) <= n /\ k = Z.to_nat (n - Z.of_nat (length pas))).
  - intros k a s1 (pas & t1 & fl1 & Hg & -> & Hle & ->). destruct (_ <? newsz) eqn:E; cbn [negb].
    + assert (Z.of_nat (length pas) < n) as Hlt by (unfold n, PGSIZE in *; dlia).
      eapply wp_mono; [by apply (uvmalloc_body pas s1 t1 fl1)|]. intros [a'|r] s2; [|auto].
      intros (-> & mem & t2 & fl2 & Hg2). exists (Z.to_nat (n - Z.of_nat (length (pas ++ [mem])))).
      rewrite length_app. cbn [length]. split; [lia|]. exists (pas ++ [mem]), t2, fl2.
      rewrite length_app. cbn [length]. split_and!; [exact Hg2|lia|lia|reflexivity].
    + wp_steps. left. split; [reflexivity|]. exists pas, t1, fl1. split; [|exact Hg]. unfold n, PGSIZE in *. dlia.
  - exists [], t, fl. split; [by apply grown_refl|]. cbn [length]. split_and!; [lia|unfold n; lia|f_equal; lia].
  - unfold n, PGSIZE in *. dlia.
Qed.

End uvmalloc.

(** ** Theorems *)

(** C36: uvmalloc() either grows the address space to [newsz]: every page from
    PGROUNDUP(oldsz) up to it is mapped with PTE_R|PTE_U|xperm to a zeroed page
    of its own off the free list; or it answers 0 and rolls back: the range is
    unmapped again, every data page is on the free list again (the free list
    lost only pages that are now part of the table), and at most as many pages
    as were asked for are left free.  No other entry and no memory outside the
    table and the free list changes in either case; when [newsz < oldsz] it
    answers [oldsz] and does nothing. *)
Theorem uvmalloc_correct `{LinkerOk} s t root fl oldsz newsz xperm :
  vm_inv s t root fl -> Lkmem ∉ k_held s -> 0 <= oldsz -> 0 <= newsz <= MAXVA -> 0 <= xperm < 1024 ->
  let base := PGROUNDUP oldsz in
  let perm := Z.lor (Z.lor PTE_R PTE_U) xperm in
  let n := Z.max 0 ((newsz - base + PGSIZE - 1) / PGSIZE) in
  (forall va', 0 <= va' < MAXVA -> 0 <= va' / PGSIZE - base / PGSIZE < n ->
     has (vlookup (k_mem s) t va') PTE_V = false) ->
  wp (uvmalloc root oldsz newsz xperm) (fun r s' =>
    if newsz <? oldsz then r = oldsz /\ s' = s else
    (r = newsz /\ exists pas t' fl', Z.of_nat (length pas) = n /\ grown s t root fl base (fun _ => perm) (fun _ _ => 0) [] pas s' t' fl') \/
    (r = 0 /\ exists t' fl', rolled s t root fl base n s' t' fl' /\ Z.of_nat (length fl') <= n)) s.
Proof.
  intros Hv Hh Hold Hnew Hx base perm n Hfree. unfold uvmalloc. destruct (newsz <? oldsz) eqn:E; [by wp_steps|].
  assert (base = (oldsz + PGSIZE - 1) / PGSIZE * PGSIZE) as Hb.
  { apply PGROUNDUP_eq. unfold MAXVA, PGSIZE in *. lia. }
  apply (uvmalloc_loop s t root fl base perm); auto; try (rewrite Hb; unfold PGSIZE in *; dlia).
  - apply lor_range with (k := 10); [lia|vm_compute; split; congruence|lia].
  - intros Hc. apply (f_equal (fun z => Z.testbit z 1)) in Hc. unfold perm in Hc. rewrite !Z.lor_spec in Hc. done.
  - lia.
Qed.

Lemma uvmalloc_correct_witness :
  wp (uvmalloc (H := ld0) (pg 0) 4096 8192 PTE_W)
    (fun r s' => r = 8192 \/ r = 0 /\ exists t' fl', vm_inv (H := ld0) s' t' (pg 0) fl') vm0.
Proof.
  eapply wp_mono; [apply (@uvmalloc_correct ld0 ld0_ok vm0 vm_tbl (pg 0) [pg 4; pg 5] 4096 8192 PTE_W)|].
  - exact vm0_inv.
  - apply not_elem_of_nil.
  - lia.
  - unfold MAXVA. lia.
  - unfold PTE_W. lia.
  - intros va' Hva Hp. change (PGROUNDUP 4096 / PGSIZE) with 1 in Hp.
    change (Z.max 0 ((8192 - PGROUNDUP 4096 + PGSIZE - 1) / PGSIZE)) with 1 in Hp.
    rewrite (vlookup_page _ _ va' 4096) by (change (4096 / PGSIZE) with 1; lia). vm_compute. reflexivity.
  - cbn [Z.ltb Z.compare Pos.compare Pos.compare_cont]. intros r s' [[-> _]|(-> & t' & fl' & Hr & _)]; [auto|].
    right. split; [reflexivity|]. exists t', fl'. apply Hr.
Defined.
