(* ===== verification/VmCopy.v ===== *)
(** * Copying a user address space: uvmcopy().

    What fork() does for the memory of the child: every page of the parent gets a
    page of its own in the child's table, with the same permissions and bytes. *)

From S2P Require Import Prelude Exec Params State Mem Kalloc Vm VmTable VmAlloc.

Section copy.
Context `{LinkerOk}.

(** The parent's table [told], its pages [src], and the child's table [t], of which
    nothing is shared. *)
Variables (s : kernel) (told t : gmap (list Z) Z) (old new : Z) (fl src : list Z).
Hypothesis Hvm : vm_inv s t new fl.
Hypothesis Hheld : Lkmem ∉ k_held s.
Hypothesis Hold : pt_inv (k_mem s) told old.
Hypothesis Happart : forall x p, told !! x = Some p -> p ∉ fl /\ forall y, t !! y <> Some p.

Definition old_pte (va : Z) : Z := vlookup (k_mem s) told va.

Record user_pages (pas : list Z) : Prop := {
  us_pte : forall k pa, pas !! k = Some pa -> let e := old_pte (Z.of_nat k * PGSIZE) in has e PTE_V = true /\ PTE_FLAGS e <> PTE_V /\ PTE2PA e = pa;
  us_own : forall pa, pa ∈ pas -> page_ok pa /\ pa ∉ fl /\ forall y, t !! y <> Some pa;
  us_fit : Z.of_nat (length pas) * PGSIZE <= MAXVA;
  us_free : forall va, 0 <= va < MAXVA -> va / PGSIZE < Z.of_nat (length pas) -> has (vlookup (k_mem s) t va) PTE_V = false;
}.
Hypothesis Hsrc : user_pages src.

Definition perms (k : nat) : Z := if decide (k < length src)%nat then PTE_FLAGS (old_pte (Z.of_nat k * PGSIZE)) else PTE_R.
Definition cont (k : nat) (o : Z) : Z := mem_get (k_mem s) (src !!! k + o).

Notation grown := (grown s t new fl 0 perms cont).

Lemma flags_range e : 0 <= PTE_FLAGS e < 1024.
Proof. unfold PTE_FLAGS. change 1023 with (Z.ones 10). rewrite Z.land_ones by lia. apply Z.mod_pos_bound. lia. Qed.

(** The flags of a valid entry include PTE_V. *)
Lemma flags_valid e : has e PTE_V = true -> Z.lor (PTE_FLAGS e) PTE_V = PTE_FLAGS e.
Proof.
  intros Hv. change PTE_V with (2 ^ 0) in *. rewrite has_pow2 in Hv by lia. apply Z.bits_inj'. intros k Hk. unfold PTE_FLAGS. rewrite Z.lor_spec, Z.pow2_bits_eqb by lia.
  destruct (Z.eqb_spec 0 k) as [<-|Hne]; [|by rewrite orb_false_r]. rewrite orb_true_r, Z.land_spec, Hv. reflexivity.
Qed.

Lemma perms_range k : 0 <= perms k < 1024.
Proof. unfold perms. destruct (decide _); [apply flags_range|]. unfold PTE_R. lia. Qed.

Lemma src_pte k : (k < length src)%nat -> let e := old_pte (Z.of_nat k * PGSIZE) in
  has e PTE_V = true /\ PTE_FLAGS e <> PTE_V /\ PTE2PA e = src !!! k.
Proof.
  intros Hk. destruct (lookup_lt_is_Some_2 _ _ Hk) as [pa Hpa]. rewrite (list_lookup_total_correct _ _ _ Hpa). by apply (us_pte _ Hsrc).
Qed.

Lemma perms_leaf k : Z.lor (perms k) PTE_V <> PTE_V.
Proof.
  unfold perms. destruct (decide (k < length src)%nat) as [Hk|]; [|vm_compute; discriminate]. destruct (src_pte k Hk) as (Hv & Hl & _).
  rewrite flags_valid by exact Hv. exact Hl.
Qed.

(** The parent is out of the child's way. *)
Lemma grown_apart pas s1 t1 fl1 a p : grown [] pas s1 t1 fl1 -> page_ok p -> p ∉ fl -> (forall y, t !! y <> Some p) -> in_page p a ->
  mem_get (k_mem s1) a = mem_get (k_mem s) a.
Proof.
  intros Hg Hok Hnf Hnt Ha. apply (gr_mem _ _ _ _ _ _ _ _ _ _ _ _ Hg).
  - intros x q Hx Hq. apply (Hnt x). rewrite Hx. f_equal. apply (page_disjoint q p a); [apply (pt_page _ _ _ (vm_pt _ _ _ _ Hvm) _ _ Hx)|apply Hok|exact Hq|exact Ha].
  - intros q Hqf Hq. apply Hnf. assert (page_ok q) as Hqo by (apply (proj1 (Forall_forall _ _) (km_ok _ _ (vm_km _ _ _ _ Hvm)) q Hqf)).
    rewrite (page_disjoint p q a); [exact Hqf|apply Hok|apply Hqo|exact Ha|exact Hq].
Qed.

Lemma grown_old pas s1 t1 fl1 : grown [] pas s1 t1 fl1 -> pt_same told (k_mem s) (k_mem s1).
Proof.
  intros Hg x p a Hx Ha. destruct (Happart x p Hx) as [Hnf Hnt]. apply (grown_apart pas s1 t1 fl1 a p Hg); auto. apply (pt_page _ _ _ Hold _ _ Hx).
Qed.

(** The bytes that memmove() copies. *)
Lemma copy_fill pas s1 t1 fl1 mem m : grown [] pas s1 t1 fl1 -> (length pas < length src)%nat -> page_ok mem -> mem ∈ fl1 ->
  (forall a, ~ in_page mem a -> mem_get m a = mem_get (k_mem s1) a) ->
  exists l, memmove m mem (src !!! length pas) PGSIZE = store_bytes m mem l /\ length l = Z.to_nat PGSIZE /\
    forall o, 0 <= o < PGSIZE -> l !!! Z.to_nat o = cont (length pas) o.
Proof.
  intros Hg Hk Hok Hin Hm. destruct (lookup_lt_is_Some_2 _ _ Hk) as [pa Hpa]. pose proof (list_lookup_total_correct _ _ _ Hpa) as Epa.
  destruct (us_own _ Hsrc pa (list_elem_of_lookup_2 _ _ _ Hpa)) as (Hpo & Hpf & Hpt). rewrite Epa.
  exists (load_bytes m pa (Z.to_nat PGSIZE)). split; [apply memmove_spec; unfold PGSIZE; lia|]. split; [apply load_bytes_length|].
  intros o Ho. rewrite load_bytes_total by (unfold PGSIZE in *; lia). rewrite Z2Nat.id by lia. unfold cont. rewrite Epa.
  rewrite Hm; [apply (grown_apart pas s1 t1 fl1 _ pa Hg); auto; unfold in_page; lia|]. intros Hma. apply Hpf.
  destruct (gr_acct _ _ _ _ _ _ _ _ _ _ _ _ Hg) as (nw & Hp & _). rewrite Hp, !elem_of_app. right. right.
  rewrite (page_disjoint pa mem (pa + o)); [exact Hin|apply Hpo|apply Hok|unfold in_page; lia|exact Hma].
Qed.

Variable sz : Z.
Hypothesis Hsz : 0 <= sz /\ (sz + PGSIZE - 1) / PGSIZE = Z.of_nat (length src).
Let n : Z := Z.of_nat (length src).

Definition copy_result (r : Z) (s' : kernel) : Prop :=
  (r = 0 /\ exists pas t' fl', length pas = length src /\ grown [] pas s' t' fl') \/
  (r = -1 /\ exists t' fl', rolled s t new fl 0 n s' t' fl' /\ Z.of_nat (length fl') <= n).

Lemma copy_body pas s1 t1 fl1 : grown [] pas s1 t1 fl1 -> (length pas < length src)%nat -> let i := Z.of_nat (length pas) * PGSIZE in
  wp (pte <- walk old i false ;;
      if pte =? 0 then panic "uvmcopy: pte should exist" else
      v <- ld64 pte ;;
      if negb (has v PTE_V) then panic "uvmcopy: page not present" else
      let pa := PTE2PA v in
      let flags := PTE_FLAGS v in
      mem <- kalloc ;;
      if mem =? 0 then uvmunmap new 0 (i / PGSIZE) true ;;; ret (inr (-1)) else
      upd_mem (fun m => memmove m mem pa PGSIZE) ;;;
      r <- mappages new i PGSIZE mem flags ;;
      if negb (r =? 0) then
        kfree mem ;;;
        uvmunmap new 0 (i / PGSIZE) true ;;;
        ret (inr (-1))
      else ret (inl (u64 (i + PGSIZE))))
    (fun r s2 => match r with
     | inl i' => i' = i + PGSIZE /\ exists mem t2 fl2, grown [] (pas ++ [mem]) s2 t2 fl2
     | inr r => copy_result r s2
     end) s1.
Proof.
  intros Hg Hk i. destruct (src_pte (length pas) Hk) as (Hv & _ & Hpa). fold i in Hv, Hpa. pose proof (us_fit _ Hsrc) as Hfit.
  assert (i + PGSIZE <= MAXVA /\ i / PGSIZE = Z.of_nat (length pas)) as [Hmax Hdiv] by (unfold i, PGSIZE in *; dlia).
  pose proof (grown_old pas s1 t1 fl1 Hg) as Hsame. pose proof (valid_leaf _ _ _ _ Hold Hv) as Hleaf.
  wp_step. apply (walk_lookup_spec s1 told old); [by apply (pt_inv_frame (k_mem s))|unfold i, PGSIZE in *; lia|].
  rewrite (proj2 (Z.eqb_neq _ _) Hleaf). unfold ld64. do 2 wp_step. rewrite <- vlookup_leaf by exact Hleaf. rewrite (vlookup_frame (k_mem s)) by exact Hsame.
  fold (old_pte i). rewrite Hv. cbn [negb]. cbv zeta. rewrite Hpa, Hdiv.
  assert (PTE_FLAGS (old_pte i) = perms (length pas)) as -> by (unfold perms; by rewrite decide_True).
  change (wp (mem <- kalloc ;;
      if mem =? 0 then uvmunmap new 0 (Z.of_nat (length pas)) true ;;; ret (inr (-1)) else
      upd_mem (fun m => memmove m mem (src !!! length pas) PGSIZE) ;;;
      r <- mappages new (0 + i) PGSIZE mem (perms (length pas)) ;;
      if negb (r =? 0) then kfree mem ;;; uvmunmap new 0 (Z.of_nat (length pas)) true ;;; ret (inr (-1)) else ret (inl (u64 (i + PGSIZE))))
    (fun r s2 => match r with inl i' => i' = i + PGSIZE /\ exists mem t2 fl2, grown [] (pas ++ [mem]) s2 t2 fl2 | inr r => copy_result r s2 end) s1).
  apply (grow_step s t new fl 0 perms cont Hvm Hheld ltac:(lia) ltac:(done) perms_range perms_leaf pas s1 t1 fl1
    (fun m mem => memmove m mem (src !!! length pas) PGSIZE) (uvmunmap new 0 (Z.of_nat (length pas)) true ;;; ret (inr (-1))) (ret (inl (u64 (i + PGSIZE)))) _ Hg).
  - unfold i in *. lia.
  - intros va' Hva' E. apply (us_free _ Hsrc); [exact Hva'|]. rewrite Z.div_0_l, Z.sub_0_r in E by (unfold PGSIZE; lia). lia.
  - intros mem m Hok Hin Hm. by apply (copy_fill pas s1 t1 fl1).
  - intros s2 t2 fl2 Hg2 Hl. wp_step. apply (uvmunmap_rolls s t new fl 0 perms cont Hvm Hheld ltac:(lia) ltac:(done) perms_range perms_leaf pas s2 t2 fl2 n); auto.
    + unfold i, PGSIZE in *. lia.
    + unfold n. lia.
    + intros va' Hva' E. apply (us_free _ Hsrc); [exact Hva'|]. rewrite Z.div_0_l, Z.sub_0_r in E by (unfold PGSIZE; lia). unfold n in E. lia.
    + intros s3 Hr. wp_steps. right. split; [reflexivity|]. exists t2, (rev pas ++ fl2). split; [exact Hr|]. rewrite length_app, length_rev. unfold n. lia.
  - intros mem s2 t2 fl2 Hg2. wp_steps. split; [|eauto]. rewrite u64_id; [reflexivity|]. unfold i, MAXVA, PGSIZE in *. lia.
Qed.

Lemma uvmcopy_spec : wp (uvmcopy old new sz) copy_result s.
Proof.
  unfold uvmcopy. eapply wp_loop with (n := length src) (I := fun k i s1 => exists pas t1 fl1, grown [] pas s1 t1 fl1 /\
    i = Z.of_nat (length pas) * PGSIZE /\ (k + length pas = length src)%nat).
  - intros k i s1 (pas & t1 & fl1 & Hg & -> & Hk). destruct (Z.ltb_spec (Z.of_nat (length pas) * PGSIZE) sz) as [Hlt|Hge]; cbn [negb].
    + assert (length pas < length src)%nat as Hl by (unfold PGSIZE in *; dlia).
      eapply wp_mono; [by apply (copy_body pas s1 t1 fl1)|]. intros [i'|r] s2; [|auto]. intros (-> & mem & t2 & fl2 & Hg2). exists (k - 1)%nat.
      split; [lia|]. exists (pas ++ [mem]), t2, fl2. split; [exact Hg2|]. rewrite length_app. cbn [length]. lia.
    + wp_steps. left. split; [reflexivity|]. exists pas, t1, fl1. split; [|exact Hg]. unfold PGSIZE in *. dlia.
  - exists [], t, fl. split; [apply grown_refl; auto using perms_range, perms_leaf; lia|]. cbn. lia.
  - unfold PGSIZE in *. dlia.
Qed.

(** The child has the parent's pages: same flags, same bytes, in pages that were
    free and that no two addresses of different pages share. *)
Record cloned (s' : kernel) (t' : gmap (list Z) Z) : Prop := {
  cl_flags : forall va, 0 <= va < n * PGSIZE -> PTE_FLAGS (vlookup (k_mem s') t' va) = PTE_FLAGS (old_pte va);
  cl_bytes : forall va, 0 <= va < n * PGSIZE ->
    mem_get (k_mem s') (PTE2PA (vlookup (k_mem s') t' va) + va mod PGSIZE) = mem_get (k_mem s) (PTE2PA (old_pte va) + va mod PGSIZE);
  cl_fresh : forall va, 0 <= va < n * PGSIZE -> PTE2PA (vlookup (k_mem s') t' va) ∈ fl;
  cl_apart : forall va va', 0 <= va < n * PGSIZE -> 0 <= va' < n * PGSIZE ->
    PTE2PA (vlookup (k_mem s') t' va) = PTE2PA (vlookup (k_mem s') t' va') -> va / PGSIZE = va' / PGSIZE;
  cl_other : forall va, n * PGSIZE <= va < MAXVA -> vlookup (k_mem s') t' va = vlookup (k_mem s) t va;
}.

Lemma grown_cloned pas s' t' fl' : length pas = length src -> grown [] pas s' t' fl' -> cloned s' t'.
Proof.
  intros Hl Hg. pose proof (us_fit _ Hsrc) as Hfit. destruct (grown_own s t new fl 0 perms cont Hvm _ _ _ _ _ Hg) as [Hnd Hown]. cbn [app] in Hnd, Hown.
  assert (forall va, 0 <= va < n * PGSIZE -> exists k pa, va / PGSIZE = Z.of_nat k /\ (k < length src)%nat /\ pas !! k = Some pa /\
    vlookup (k_mem s') t' va = Z.lor (Z.lor (PA2PTE pa) (perms k)) PTE_V /\ old_pte va = old_pte (Z.of_nat k * PGSIZE)) as Hva.
  { intros va Hva. exists (Z.to_nat (va / PGSIZE)). assert (0 <= va / PGSIZE < n) as Hd by (unfold PGSIZE in *; dlia). unfold n in Hd.
    destruct (lookup_lt_is_Some_2 pas (Z.to_nat (va / PGSIZE))) as [pa Hpa]; [lia|]. exists pa. rewrite Z2Nat.id by lia. split; [reflexivity|]. split; [lia|].
    split; [exact Hpa|]. split; [|apply vlookup_page; unfold PGSIZE; dlia].
    rewrite (gr_look _ _ _ _ _ _ _ _ _ _ _ _ Hg) by (unfold n in *; lia). unfold map_list. rewrite Z.div_0_l, Z.sub_0_r by (unfold PGSIZE; lia).
    rewrite (proj2 (Z.leb_le _ _)) by lia. by rewrite Hpa. }
  assert (forall k pa, pas !! k = Some pa -> page_ok pa /\ PTE2PA (Z.lor (Z.lor (PA2PTE pa) (perms k)) PTE_V) = pa) as Hpa.
  { intros k pa Hk. destruct (Hown pa (list_elem_of_lookup_2 _ _ _ Hk)) as (Hok & _). split; [exact Hok|].
    by apply (leaf_pte_facts perms perms_range perms_leaf). }
  split.
  - intros va Hv. destruct (Hva va Hv) as (k & pa & _ & Hk & Hp & -> & ->). destruct (Hpa k pa Hp) as [Hok _]. pose proof (page_ok_nz pa Hok).
    rewrite <- Z.lor_assoc, PTE_FLAGS_make; [|lia|apply lor_range with (k := 10); [lia|apply perms_range|unfold PTE_V; lia]].
    unfold perms. rewrite decide_True by exact Hk. apply flags_valid. by apply src_pte.
  - intros va Hv. destruct (Hva va Hv) as (k & pa & Ek & Hk & Hp & -> & ->). destruct (Hpa k pa Hp) as [Hok ->].
    pose proof (Z.mod_pos_bound va PGSIZE ltac:(unfold PGSIZE; lia)) as Hm. destruct (src_pte k Hk) as (_ & _ & ->).
    apply (gr_page _ _ _ _ _ _ _ _ _ _ _ _ Hg k); [by rewrite app_nil_r|exact Hm].
  - intros va Hv. destruct (Hva va Hv) as (k & pa & _ & Hk & Hp & -> & _). destruct (Hpa k pa Hp) as [_ ->].
    destruct (gr_acct _ _ _ _ _ _ _ _ _ _ _ _ Hg) as (nw & Hperm & _). rewrite Hperm, elem_of_app. left. by eapply list_elem_of_lookup_2.
  - intros va va' Hv Hv'. destruct (Hva va Hv) as (k & pa & -> & _ & Hp & -> & _). destruct (Hva va' Hv') as (k' & pa' & -> & _ & Hp' & -> & _).
    destruct (Hpa k pa Hp) as [_ ->], (Hpa k' pa' Hp') as [_ ->]. intros ->. f_equal. by apply (NoDup_lookup pas k k' pa').
  - intros va Hv. rewrite (gr_look _ _ _ _ _ _ _ _ _ _ _ _ Hg) by (unfold n in *; unfold PGSIZE in *; lia). unfold map_list.
    destruct (0 <=? _); [|reflexivity]. rewrite lookup_ge_None_2; [reflexivity|]. rewrite Z.div_0_l, Z.sub_0_r by (unfold PGSIZE; lia). unfold n, PGSIZE in *. dlia.
Qed.
End copy.

(** C37: uvmcopy() either gives the child a copy of the parent's memory: every
    address below [sz], rounded up to a page, is mapped with the parent's flags to a page of its own, which
    was free and holds the parent's bytes, and the rest of the child's table is as it was; or it
    answers -1 and undoes its work: the range is unmapped and the pages are free
    again, but for those that are now tables, which the caller frees with the table.
    The memory outside the child's table and the free pages, that is the parent, does not change. *)
Theorem uvmcopy_correct `{LinkerOk} s told t old new fl src sz :
  vm_inv s t new fl -> Lkmem ∉ k_held s -> pt_inv (k_mem s) told old ->
  (forall x p, told !! x = Some p -> p ∉ fl /\ forall y, t !! y <> Some p) ->
  user_pages s told t fl src -> 0 <= sz -> (sz + PGSIZE - 1) / PGSIZE = Z.of_nat (length src) ->
  wp (uvmcopy old new sz) (fun r s' => exists t' fl', vm_inv s' t' new fl' /\ t ⊆ t' /\
    (forall a, (forall x p, t !! x = Some p -> ~ in_page p a) -> (forall p, p ∈ fl -> ~ in_page p a) -> mem_get (k_mem s') a = mem_get (k_mem s) a) /\
    s' = with_k_mem (k_mem s') (with_k_freelist (k_freelist s') s) /\
    (r = 0 /\ cloned s told t fl src s' t' \/
     r = -1 /\ rolled s t new fl 0 (Z.of_nat (length src)) s' t' fl' /\ Z.of_nat (length fl') <= Z.of_nat (length src))) s.
Proof.
  intros Hvm Hh Hold Hap Hsrc Hz Hn. eapply wp_mono; [exact (uvmcopy_spec s told t old new fl src Hvm Hh Hold Hap Hsrc sz (conj Hz Hn))|].
  intros r s' [(-> & pas & t' & fl' & Hl & Hg)|(-> & t' & fl' & Hr & Hl)]; exists t', fl'.
  - split; [apply Hg|]. split; [apply Hg|]. split; [apply Hg|]. split; [apply Hg|]. left. split; [reflexivity|].
    by eapply grown_cloned.
  - split; [apply Hr|]. split; [apply Hr|]. split; [apply Hr|]. split; [apply Hr|]. by right.
Qed.

(** ** A parent with one page *)

Definition copy_mem : gmap Z Z := store_bytes (store64 vm_mem (pg 5) (pg 7)) (pg 3) [104; 105].
Definition copy0 : kernel := with_k_freelist (pg 4) (with_k_mem copy_mem (boot ∅)).
Definition child_tbl : gmap (list Z) Z := {[ [] := pg 6 ]}.

Lemma copy_mem_get a : mem_get copy_mem a = if decide (pg 3 <= a < pg 3 + 2) then [104; 105] !!! Z.to_nat (a - pg 3) else
  if decide (pg 5 <= a < pg 5 + 8) then le_bytes 8 (pg 7) !!! Z.to_nat (a - pg 5) else mem_get vm_mem a.
Proof. unfold copy_mem, store64. rewrite !mem_get_store. rewrite le_bytes_length. reflexivity. Qed.

Lemma pg_eq k : pg k = 2147622912 + k * 4096. Proof. reflexivity. Qed.

Lemma copy0_old : @pt_inv ld0 copy_mem vm_tbl (pg 0).
Proof.
  apply (pt_inv_frame vm_mem); [exact vm0_pt|]. intros x p a Hx Ha. unfold in_page, PGSIZE in Ha. rewrite copy_mem_get.
  apply vm_tbl_inv in Hx as [[_ ->]|[[_ ->]|[_ ->]]]; rewrite !pg_eq in *; by rewrite !decide_False by lia.
Qed.

(** Page 6 is empty. *)
Lemma copy_mem_root a : pg 6 <= a < pg 7 -> mem_get copy_mem a = 0.
Proof.
  intros Ha. rewrite copy_mem_get. rewrite !decide_False by (rewrite !pg_eq in *; lia). unfold vm_mem, store64. rewrite !mem_get_store, !le_bytes_length.
  rewrite !decide_False by (rewrite !pg_eq in *; lia). reflexivity.
Qed.

Lemma copy0_inv : @vm_inv ld0 copy0 child_tbl (pg 6) [pg 4; pg 5; pg 7].
Proof.
  assert (forall x p, child_tbl !! x = Some p -> x = [] /\ p = pg 6) as Ht by (unfold child_tbl; intros x p [<- <-]%lookup_singleton_Some; done).
  split.
  - split; [reflexivity| | | |].
    + intros x y p [-> _]%Ht [-> _]%Ht. done.
    + intros x p [_ ->]%Ht. by apply pg_ok.
    + intros x i p [E _]%Ht. by destruct x.
    + intros x p i [-> ->]%Ht _ Hi. replace (child_tbl !! ([] ++ [i])) with (@None Z) by (symmetry; by apply lookup_singleton_ne).
      rewrite load64_zero; [reflexivity|]. intros b Hb. apply copy_mem_root. unfold pte_addr in Hb. rewrite !pg_eq in *. lia.
  - split; [vm_compute; done|apply (bool_decide_unpack _); vm_compute; reflexivity|repeat constructor; apply pg_ok; lia].
  - intros x p [_ ->]%Ht. apply (bool_decide_unpack _). vm_compute. reflexivity.
Qed.

Lemma copy0_pages : @user_pages ld0 copy0 vm_tbl child_tbl [pg 4; pg 5; pg 7] [pg 3].
Proof.
  split.
  - intros [|k] pa Hk; [|discriminate]. injection Hk as <-. vm_compute. split; [done|]. split; [discriminate|done].
  - intros pa ->%list_elem_of_singleton. split; [by apply pg_ok|]. split; [apply (bool_decide_unpack _); vm_compute; reflexivity|].
    intros y. unfold child_tbl. intros [_ E]%lookup_singleton_Some. discriminate.
  - vm_compute. discriminate.
  - intros va _ _. unfold vlookup. unfold child_tbl. by rewrite lookup_singleton_ne.
Qed.

Lemma uvmcopy_correct_witness :
  wp (uvmcopy (H := ld0) (pg 0) (pg 6) 3000) (fun r s' => exists t' fl', vm_inv (H := ld0) s' t' (pg 6) fl' /\
    (r = 0 /\ mem_get (k_mem s') (PTE2PA (vlookup (k_mem s') t' 1) + 1) = 105 \/ r = -1 /\ (length fl' <= 1)%nat)) copy0.
Proof.
  eapply wp_mono; [apply (@uvmcopy_correct ld0 ld0_ok copy0 vm_tbl child_tbl (pg 0) (pg 6) [pg 4; pg 5; pg 7] [pg 3] 3000)|].
  - exact copy0_inv.
  - apply not_elem_of_nil.
  - exact copy0_old.
  - intros x p Hx. apply vm_tbl_inv in Hx as [[_ ->]|[[_ ->]|[_ ->]]]; (split; [apply (bool_decide_unpack _); vm_compute; reflexivity|]);
      unfold child_tbl; intros y [_ E]%lookup_singleton_Some; discriminate.
  - exact copy0_pages.
  - lia.
  - reflexivity.
  - cbn beta. intros r s' (t' & fl' & Hv & _ & _ & _ & [[-> Hc]|(-> & _ & Hl)]); exists t', fl'; (split; [exact Hv|]); [left|right]; (split; [reflexivity|]).
    + change 1 with (1 mod PGSIZE) at 2. rewrite (cl_bytes _ _ _ _ _ _ _ Hc) by (cbn; unfold PGSIZE; lia). vm_compute. reflexivity.
    + cbn in Hl. lia.
Defined.
