(* ===== verification/Sched.v ===== *)
(** * proc.c, first part: sleep, wakeup, yield, kill, and the copy helpers.

    swtch() suspends the execution with its continuation ([Swtch]).  On the CPU
    that runs a thread, [mycpu()->noff] is the number of spinlocks held, and
    interrupts are off while it is positive (Spinlock.v). *)

From S2P Require Import Prelude Exec Params State Mem Vm.

(** The bound of the model's wait loops: how often a thread may find, after being
    woken, that it has to sleep again. *)
Class Waits := waits : nat.

Definition proc_at (i : nat) : KM proc := gets (fun s => k_procs s !!! i).
Definition upd_proc (i : nat) (f : proc -> proc) : KM unit :=
  modify (fun s => with_k_procs (alter f i (k_procs s)) s).

(** for(p = proc; p < &proc[NPROC]; p++) *)
Definition procs : list nat := seq 0 (Z.to_nat NPROC).

Definition allocpid : KM Z :=
  acquire Lpid ;;;
  pid <- gets (fun s => k_nextpid s) ;;
  modify (with_k_nextpid (i32 (pid + 1))) ;;;
  release Lpid ;;;
  ret pid.

Definition sched : KM unit :=
  i <- curproc ;;
  h <- holding (Lproc i) ;;
  if negb h then panic "sched p->lock" else
  noff <- gets (fun s => length (k_held s)) ;;
  if negb (noff =? 1)%nat then panic "sched locks" else
  p <- proc_at i ;;
  if decide (p_state p = RUNNING) then panic "sched running" else
  swtch.

Definition yield : KM unit :=
  i <- curproc ;;
  acquire (Lproc i) ;;;
  upd_proc i (with_p_state RUNNABLE) ;;;
  sched ;;;
  release (Lproc i).

Definition sleep (c : chan) (lk : lockid) : KM unit :=
  i <- curproc ;;
  acquire (Lproc i) ;;;
  release lk ;;;
  upd_proc i (with_p_chan (Some c)) ;;;
  upd_proc i (with_p_state SLEEPING) ;;;
  sched ;;;
  upd_proc i (with_p_chan None) ;;;
  release (Lproc i) ;;;
  acquire lk.

Definition wakeup (c : chan) : KM unit :=
  forM procs (fun i =>
    cur <- myproc ;;
    if decide (cur = Some i) then ret tt else
    acquire (Lproc i) ;;;
    p <- proc_at i ;;
    when (bool_decide (p_state p = SLEEPING /\ p_chan p = Some c))
      (upd_proc i (with_p_state RUNNABLE)) ;;;
    release (Lproc i)).

Definition kill (pid : Z) : KM Z :=
  r <- findM procs (fun i =>
    acquire (Lproc i) ;;;
    p <- proc_at i ;;
    if p_pid p =? pid then
      upd_proc i (with_p_killed true) ;;;
      when (bool_decide (p_state p = SLEEPING)) (upd_proc i (with_p_state RUNNABLE)) ;;;
      release (Lproc i) ;;;
      ret (Some 0)
    else
      release (Lproc i) ;;;
      ret None) ;;
  match r with
  | Some r => ret r
  | None => ret (-1)
  end.

Definition setkilled (i : nat) : KM unit :=
  acquire (Lproc i) ;;;
  upd_proc i (with_p_killed true) ;;;
  release (Lproc i).

Definition killed (i : nat) : KM bool :=
  acquire (Lproc i) ;;;
  p <- proc_at i ;;
  release (Lproc i) ;;;
  ret (p_killed p).

(** The kernel side of the two copies is a list of bytes; a kernel address is
    used directly. *)
Definition either_copyout (user_dst : bool) (dst : Z) (src : list Z) : KM Z :=
  i <- curproc ;;
  p <- proc_at i ;;
  if user_dst then copyout (p_pagetable p) dst src
  else
    modify (fun s => with_k_mem (store_bytes (k_mem s) dst src) s) ;;;
    ret 0.

Definition either_copyin (user_src : bool) (src len : Z) : KM (Z * list Z) :=
  i <- curproc ;;
  p <- proc_at i ;;
  if user_src then copyin (p_pagetable p) src len
  else
    bytes <- gets (fun s => load_bytes (k_mem s) src (Z.to_nat len)) ;;
    ret (0, bytes).

Lemma wp_killed i (Q : bool -> kernel -> Prop) s :
  Lproc i ∉ k_held s -> Q (p_killed (k_procs s !!! i)) s -> wp (killed i) Q s.
Proof.
  intros Hh HQ. unfold killed, proc_at. wp_step. apply wp_acquire; [exact Hh|]. wp_steps.
  eapply wp_release; [reflexivity|exact Hh|]. wp_steps. exact HQ.
Qed.

(** ** wakeup *)

Definition no_proc_lock (s : kernel) : Prop := forall i, Lproc i ∉ k_held s.

(** What wakeup(c) does to process [i]. *)
Definition woken (cur : option nat) (c : chan) (i : nat) (p : proc) : proc :=
  if bool_decide (cur <> Some i /\ p_state p = SLEEPING /\ p_chan p = Some c) then with_p_state RUNNABLE p else p.

Lemma alter_at (f : proc -> proc) (i : nat) (l : list proc) : (i < length l)%nat -> alter f i l !!! i = f (l !!! i).
Proof.
  intros Hi. destruct (lookup_lt_is_Some_2 l i Hi) as [p Hp].
  rewrite (list_lookup_total_correct _ _ _ Hp). apply list_lookup_total_correct.
  by rewrite list_lookup_alter_eq, Hp.
Qed.

(** Every process [i] in [idx] was changed by [g i], and nothing else changed. *)
Definition procs_changed (g : nat -> proc -> proc) (idx : list nat) (s s' : kernel) : Prop :=
  s' = with_k_procs (k_procs s') s /\
  forall j, k_procs s' !! j = (fun p => if bool_decide (j ∈ idx) then g j p else p) <$> k_procs s !! j.

(** A loop over process slots whose body changes the slot it visits. *)
Lemma wp_forM_procs (P : kernel -> Prop) (g : nat -> proc -> proc) (body : nat -> KM unit) idx s :
  NoDup idx ->
  (forall l s, P s -> P (with_k_procs l s)) ->
  (forall i s, P s -> wp (body i) (fun _ s' => s' = with_k_procs (alter (g i) i (k_procs s)) s) s) ->
  P s -> wp (forM idx body) (fun _ s' => procs_changed g idx s s') s.
Proof.
  intros Hnd HP Hbody. revert s. induction Hnd as [|i idx Hi Hnd IH]; intros s Hs; cbn [forM].
  - wp_steps. split; [reflexivity|]. intros j. destruct (k_procs s !! j); [|reflexivity]. cbn [fmap option_fmap option_map].
    rewrite bool_decide_false; [reflexivity|apply not_elem_of_nil].
  - wp_step. eapply wp_mono; [by apply Hbody|]. intros _ s1 ->. eapply wp_mono; [apply IH; auto|].
    intros _ s2 [Hs2 Hl]. split; [rewrite Hs2; reflexivity|]. intros j. rewrite Hl. ksimp.
    destruct (decide (j = i)) as [->|Hj].
    + rewrite list_lookup_alter_eq. destruct (k_procs s !! i); [|reflexivity]. cbn [fmap option_fmap option_map].
      rewrite bool_decide_false, bool_decide_true; [reflexivity|by left|exact Hi].
    + rewrite list_lookup_alter_ne by auto. destruct (k_procs s !! j); [|reflexivity]. cbn [fmap option_fmap option_map].
      f_equal. rewrite (bool_decide_ext (j ∈ i :: idx) (j ∈ idx)); [reflexivity|]. rewrite elem_of_cons. tauto.
Qed.

Lemma alter_id (f : proc -> proc) (i : nat) (l : list proc) : (forall p, l !! i = Some p -> f p = p) -> alter f i l = l.
Proof.
  intros Hf. apply list_eq. intros j. destruct (decide (j = i)) as [->|Hj].
  - rewrite list_lookup_alter_eq. destruct (l !! i) eqn:E; simpl; [|reflexivity]. f_equal. auto.
  - by rewrite list_lookup_alter_ne.
Qed.

Lemma alter_ext (f g : proc -> proc) (i : nat) (l : list proc) :
  (forall p, l !! i = Some p -> f p = g p) -> alter f i l = alter g i l.
Proof.
  intros Hf. apply list_eq. intros j. destruct (decide (j = i)) as [->|Hj].
  - rewrite !list_lookup_alter_eq. destruct (l !! i) eqn:E; simpl; [|reflexivity]. f_equal. auto.
  - by rewrite !list_lookup_alter_ne.
Qed.

Lemma alter_cond (b : proc -> bool) (f : proc -> proc) (i : nat) (l : list proc) :
  alter (fun p => if b p then f p else p) i l = if b (l !!! i) then alter f i l else l.
Proof.
  destruct (l !! i) as [p|] eqn:E.
  - rewrite (list_lookup_total_correct _ _ _ E). destruct (b p) eqn:B.
    + apply list_eq. intros j. destruct (decide (j = i)) as [->|]; [rewrite !list_lookup_alter_eq, E; simpl; by rewrite B|].
      by rewrite !list_lookup_alter_ne.
    + apply alter_id. intros q Hq. simplify_eq. by rewrite B.
  - assert (forall g : proc -> proc, alter g i l = l) as Hid by (intros; apply alter_id; congruence).
    rewrite !Hid. by destruct (b _).
Qed.

Lemma wakeup_spec c s :
  no_proc_lock s -> wp (wakeup c) (fun _ s' => procs_changed (woken (k_cur s) c) procs s s') s.
Proof.
  intros Hnl. unfold wakeup.
  apply (wp_forM_procs (fun s' => no_proc_lock s' /\ k_cur s' = k_cur s)); [apply NoDup_seq|auto| |auto].
  clear Hnl. intros i s1 [Hnl Hcur]. unfold myproc. do 2 wp_step. unfold woken. rewrite Hcur. case_decide as D.
  { wp_steps. rewrite alter_id; [reflexivity|]. intros p _. rewrite bool_decide_false; [reflexivity|]. tauto. }
  wp_step. apply wp_acquire; [apply Hnl|]. unfold proc_at, upd_proc. wp_steps; ksimp.
  - eapply wp_release; [reflexivity|apply Hnl|]. ksimp. rewrite alter_cond.
    apply bool_decide_eq_true in H. rewrite bool_decide_true by tauto. reflexivity.
  - eapply wp_release; [reflexivity|apply Hnl|]. ksimp. rewrite alter_cond.
    apply bool_decide_eq_false in H. rewrite bool_decide_false by tauto. reflexivity.
Qed.

(** ** sleep *)

(** The process table after process [i] went to sleep on [c]. *)
Definition asleep (i : nat) (c : chan) (s : kernel) : kernel :=
  with_k_held [Lproc i]
    (with_k_procs (alter (fun p => with_p_state SLEEPING (with_p_chan (Some c) p)) i (k_procs s)) s).

Lemma alter_alter (f g : proc -> proc) (i : nat) (l : list proc) :
  alter f i (alter g i l) = alter (fun p => f (g p)) i l.
Proof.
  apply list_eq. intros j. destruct (decide (j = i)) as [->|].
  - rewrite !list_lookup_alter_eq. by destruct (l !! i).
  - by rewrite !list_lookup_alter_ne.
Qed.

Lemma sleep_runs i c lk s :
  k_cur s = Some i -> (i < length (k_procs s))%nat -> k_held s = [lk] -> lk <> Lproc i ->
  exists k, sleep c lk s = Swtch (asleep i c s) k /\
    forall s', k_held s' = [Lproc i] ->
      k s' = Ok tt (with_k_held [lk] (with_k_procs (alter (with_p_chan None) i (k_procs s')) s')).
Proof.
  intros Hcur Hi Hh Hlk. eexists. split.
  - unfold sleep, bind, curproc. rewrite Hcur. cbn [rbind]. unfold acquire. rewrite Hh, decide_False by set_solver.
    cbn [rbind]. unfold release at 1. ksimp. rewrite decide_True by set_solver. cbn [rbind].
    rewrite filter_cons_True by auto. rewrite filter_ne_hd by set_solver.
    unfold upd_proc, modify. cbn [rbind]. ksimp. unfold sched, bind, curproc. ksimp. rewrite Hcur. cbn [rbind].
    unfold holding, gets. ksimp. rewrite bool_decide_true by set_solver. cbn [rbind negb length Nat.eqb].
    unfold proc_at, gets. ksimp. cbn [rbind length Nat.eqb negb]. ksimp. rewrite alter_alter, alter_at by auto.
    cbn [p_state with_p_state].
    rewrite decide_False by done. cbn [rbind swtch]. unfold asleep. reflexivity.
  - cbn beta. intros s' Hs'. unfold release, acquire, modify, bind. cbn [rbind]. ksimp.
    rewrite Hs', decide_True by set_solver. cbn [rbind]. ksimp. rewrite filter_ne_hd by set_solver.
    rewrite decide_False by set_solver. reflexivity.
Qed.

(** ** Theorems *)


(** Wakeup(c) makes RUNNABLE exactly the other processes that sleep on [c],
    and changes nothing else in the kernel. *)
Theorem wakeup_correct c s :
  no_proc_lock s -> length (k_procs s) = Z.to_nat NPROC ->
  wp (wakeup c) (fun _ s' => s' = with_k_procs (k_procs s') s /\ forall j p, k_procs s !! j = Some p ->
    k_procs s' !! j = Some (
      if decide (k_cur s <> Some j /\ p_state p = SLEEPING /\ p_chan p = Some c)
      then with_p_state RUNNABLE p else p)) s.
Proof.
  intros Hnl Hlen. eapply wp_mono; [by apply wakeup_spec|]. intros _ s' [Hs Hl]. split; [exact Hs|].
  intros j p Hj. pose proof (lookup_lt_Some _ _ _ Hj). rewrite Hl, Hj. cbn [fmap option_fmap option_map].
  rewrite bool_decide_true by (apply elem_of_seq; lia). unfold woken. f_equal.
  case_decide; [by rewrite bool_decide_true|by rewrite bool_decide_false].
Qed.

(** kill's loop from slot [a]. *)
Definition kill_proc (p : proc) : proc :=
  if decide (p_state p = SLEEPING) then with_p_state RUNNABLE (with_p_killed true p) else with_p_killed true p.

Definition kill_from (pid : Z) (s : kernel) (n : nat) (r : option Z) (s' : kernel) : Prop :=
  match r with
  | Some r => r = 0 /\ exists i, (i < n)%nat /\ p_pid (k_procs s !!! i) = pid /\
      (forall j, (j < i)%nat -> p_pid (k_procs s !!! j) <> pid) /\
      s' = with_k_procs (alter kill_proc i (k_procs s)) s
  | None => s' = s /\ forall j, (j < n)%nat -> p_pid (k_procs s !!! j) <> pid
  end.

Lemma kill_loop pid s m : forall n a,
  no_proc_lock s -> (a + m = n)%nat -> (forall j, (j < a)%nat -> p_pid (k_procs s !!! j) <> pid) ->
  wp (findM (seq a m) (fun i =>
      acquire (Lproc i) ;;;
      p <- proc_at i ;;
      if p_pid p =? pid then
        upd_proc i (with_p_killed true) ;;;
        when (bool_decide (p_state p = SLEEPING)) (upd_proc i (with_p_state RUNNABLE)) ;;;
        release (Lproc i) ;;;
        ret (Some 0)
      else
        release (Lproc i) ;;;
        ret None)) (kill_from pid s n) s.
Proof.
  induction m as [|m IH]; intros n a Hnl Ham Hbefore; cbn [seq findM].
  - wp_steps. split; [reflexivity|]. intros j Hj. apply Hbefore. lia.
  - do 2 wp_step. apply wp_acquire; [apply Hnl|]. unfold proc_at, upd_proc. wp_steps. ksimp.
    destruct (Z.eqb_spec (p_pid (k_procs s !!! a)) pid) as [E|E]; wp_steps; ksimp.
    + eapply wp_release; [reflexivity|apply Hnl|]. wp_steps. split; [reflexivity|]. exists a.
      split_and!; [lia|exact E|exact Hbefore|]. ksimp. rewrite alter_alter. apply bool_decide_eq_true in H.
      rewrite (alter_ext kill_proc (fun p => with_p_state RUNNABLE (with_p_killed true p))); [reflexivity|].
      intros p Hp. apply list_lookup_total_correct in Hp. subst p. unfold kill_proc. by rewrite decide_True.
    + eapply wp_release; [reflexivity|apply Hnl|]. wp_steps. split; [reflexivity|]. exists a.
      split_and!; [lia|exact E|exact Hbefore|]. ksimp. apply bool_decide_eq_false in H.
      rewrite (alter_ext kill_proc (with_p_killed true)); [reflexivity|].
      intros p Hp. apply list_lookup_total_correct in Hp. subst p. unfold kill_proc. by rewrite decide_False.
    + eapply wp_release; [reflexivity|apply Hnl|]. wp_steps.
      apply IH; [exact Hnl|lia|]. intros j Hj. destruct (decide (j = a)) as [->|]; [exact E|apply Hbefore; lia].
Qed.

(** Kill(pid) marks the first process with that pid as killed, wakes it if
    it sleeps, and answers 0; with no such process it answers -1; nothing else
    changes. *)
Theorem kill_correct pid s :
  no_proc_lock s ->
  wp (kill pid) (fun r s' =>
    (r = 0 /\ exists i, (i < Z.to_nat NPROC)%nat /\ p_pid (k_procs s !!! i) = pid /\
        (forall j, (j < i)%nat -> p_pid (k_procs s !!! j) <> pid) /\
        s' = with_k_procs (alter kill_proc i (k_procs s)) s) \/
     (r = -1 /\ s' = s /\ forall j, (j < Z.to_nat NPROC)%nat -> p_pid (k_procs s !!! j) <> pid)) s.
Proof.
  intros Hnl. unfold kill, procs. wp_step. eapply wp_mono; [apply (kill_loop pid s _ (Z.to_nat NPROC)); auto; lia|].
  intros [r|] s'; cbn [kill_from]; intros Hr; wp_steps; [left|right]; auto.
Qed.

(** ** Witnesses *)

(** Two processes: 0 runs and holds the log lock, 1 sleeps on the log. *)
Definition two_procs (held : list lockid) : kernel :=
  with_k_cur (Some 0%nat) (with_k_held held (with_k_procs
    (with_p_pid 1 (with_p_state RUNNING proc0) :: with_p_pid 2 (with_p_chan (Some Clog) (with_p_state SLEEPING proc0)) ::
     replicate 62 proc0) (boot ∅))).

Lemma two_procs_free held : (forall i, Lproc i ∉ held) -> no_proc_lock (two_procs held).
Proof. intros Hh i. apply Hh. Qed.


Lemma wakeup_correct_witness :
  wp (wakeup Clog) (fun _ s' => p_state (k_procs s' !!! 1%nat) = RUNNABLE) (two_procs []).
Proof.
  eapply wp_mono; [apply (wakeup_correct Clog (two_procs []))|].
  - apply two_procs_free. intros i. apply not_elem_of_nil.
  - reflexivity.
  - cbn beta. intros _ s' [_ Hl]. specialize (Hl 1%nat _ eq_refl). apply list_lookup_total_correct in Hl. rewrite Hl.
    rewrite decide_True; [reflexivity|]. split; [discriminate|]. split; reflexivity.
Defined.

Lemma kill_correct_witness : wp (kill 2) (fun r s' => r = 0 \/ r = -1 /\ s' = two_procs []) (two_procs []).
Proof.
  eapply wp_mono; [apply (kill_correct 2 (two_procs []))|].
  - apply two_procs_free. intros i. apply not_elem_of_nil.
  - cbn beta. tauto.
Defined.
