(* ===== verification/Sleeplock.v ===== *)
(** * sleeplock.c: locks that are held across sleep().

    A sleep-lock is embedded in a buffer or an in-memory inode; [sl_get] and
    [sl_upd] are the access to it. *)

From S2P Require Import Prelude Exec Params State Mem Sched.

Definition sl_get (id : slid) (s : kernel) : sleeplock :=
  match id with
  | SLbuf i => b_lock (k_bufs s !!! i)
  | SLinode i => i_lock (k_itable s !!! i)
  end.

Definition sl_set (id : slid) (v : sleeplock) (s : kernel) : kernel :=
  match id with
  | SLbuf i => with_k_bufs (alter (with_b_lock v) i (k_bufs s)) s
  | SLinode i => with_k_itable (alter (with_i_lock v) i (k_itable s)) s
  end.

Definition initsleeplock (id : slid) : KM unit := modify (sl_set id (mkSleeplock false 0)).

Definition acquiresleep `{Waits} (id : slid) : KM unit :=
  acquire (Lsleep id) ;;;
  loop (S waits) (fun _ : unit =>
    lk <- gets (sl_get id) ;;
    if sl_locked lk then sleep (Csleep id) (Lsleep id) ;;; ret (inl tt) else ret (inr tt)) tt ;;;
  i <- curproc ;;
  p <- proc_at i ;;
  modify (sl_set id (mkSleeplock true (p_pid p))) ;;;
  release (Lsleep id).

Definition releasesleep (id : slid) : KM unit :=
  acquire (Lsleep id) ;;;
  modify (sl_set id (mkSleeplock false 0)) ;;;
  wakeup (Csleep id) ;;;
  release (Lsleep id).

Definition holdingsleep (id : slid) : KM bool :=
  acquire (Lsleep id) ;;;
  lk <- gets (sl_get id) ;;
  i <- curproc ;;
  p <- proc_at i ;;
  release (Lsleep id) ;;;
  ret (sl_locked lk && (sl_pid lk =? p_pid p)).

(** ** Specifications, in a process context without spinlocks *)

(** Process [i], with pid [pid], runs and holds no spinlock. *)
Record running (i : nat) (pid : Z) (s : kernel) : Prop := {
  ru_cur : k_cur s = Some i;
  ru_held : k_held s = [];
  ru_len : (i < length (k_procs s))%nat;
  ru_pid : p_pid (k_procs s !!! i) = pid;
}.

Lemma running_frame i pid s s' :
  running i pid s -> k_cur s' = k_cur s -> k_held s' = k_held s -> k_procs s' = k_procs s -> running i pid s'.
Proof. intros [A B C D] E1 E2 E3. split; by rewrite ?E1, ?E2, ?E3. Qed.

(** Only sleepers other than the current process were woken. *)
Record wakes (s s' : kernel) : Prop := {
  wk_rest : s' = with_k_procs (k_procs s') s;
  wk_procs : forall j p, k_procs s !! j = Some p -> exists p', k_procs s' !! j = Some p' /\
    (p' = p \/ k_cur s <> Some j /\ p_state p = SLEEPING /\ p' = with_p_state RUNNABLE p);
  wk_len : length (k_procs s') = length (k_procs s);
}.

Lemma wakes_refl s : wakes s s.
Proof. split; eauto. Qed.

Lemma wakes_trans s1 s2 s3 : wakes s1 s2 -> wakes s2 s3 -> wakes s1 s3.
Proof.
  intros [A1 B1 C1] [A2 B2 C2]. split.
  - rewrite A2. rewrite A1. reflexivity.
  - intros j p Hp. destruct (B1 j p Hp) as (p1 & Hp1 & H1). destruct (B2 j p1 Hp1) as (p2 & Hp2 & H2).
    exists p2. split; [exact Hp2|]. assert (k_cur s2 = k_cur s1) as Hc by (by rewrite A1).
    destruct H2 as [->|(? & Hs & ->)]; [exact H1|]. destruct H1 as [->|(? & ? & ->)]; [|done].
    rewrite Hc in *. auto.
  - congruence.
Qed.

Lemma wakes_running i pid s s' : wakes s s' -> running i pid s -> running i pid s'.
Proof.
  intros [A B C] [R1 R2 R3 R4]. split; [by rewrite A|by rewrite A|lia|].
  destruct (lookup_lt_is_Some_2 _ _ R3) as [p Hp]. destruct (B i p Hp) as (p' & Hp' & Hc).
  rewrite (list_lookup_total_correct _ _ _ Hp'). rewrite (list_lookup_total_correct _ _ _ Hp) in R4.
  destruct Hc as [->|(Hc & _)]; [exact R4|done].
Qed.

Lemma wp_curproc i (Q : nat -> kernel -> Prop) s : k_cur s = Some i -> Q i s -> wp curproc Q s.
Proof. intros Hc HQ. unfold wp, curproc. by rewrite Hc. Qed.

Lemma wakeup_wakes c s (Q : unit -> kernel -> Prop) :
  no_proc_lock s -> (forall s', wakes s s' -> Q tt s') -> wp (wakeup c) Q s.
Proof.
  intros Hnl HQ. eapply wp_mono; [by apply wakeup_spec|]. intros [] s' [Hs Hl]. apply HQ. split; [exact Hs| |].
  - intros j p Hp. rewrite Hl, Hp. cbn [fmap option_fmap option_map]. eexists. split; [reflexivity|].
    destruct (bool_decide (j ∈ _)); [|auto]. unfold woken. case_bool_decide as D; [right; tauto|auto].
  - destruct (Nat.eq_dec (length (k_procs s')) (length (k_procs s))) as [|Hne]; [auto|exfalso].
    assert (forall j, is_Some (k_procs s' !! j) <-> is_Some (k_procs s !! j)) as Hi.
    { intros j. rewrite Hl. by rewrite fmap_is_Some. }
    destruct (decide (length (k_procs s') < length (k_procs s))%nat) as [Hlt|Hge].
    + pose proof (proj2 (lookup_lt_is_Some _ _) Hlt) as E. apply Hi in E. apply lookup_lt_is_Some in E. lia.
    + assert (length (k_procs s) < length (k_procs s'))%nat as Hlt by lia.
      pose proof (proj2 (lookup_lt_is_Some _ _) Hlt) as E. apply Hi in E. apply lookup_lt_is_Some in E. lia.
Qed.

Lemma sl_set_held id v s : k_held (sl_set id v s) = k_held s.
Proof. by destruct id. Qed.

Lemma sl_set_procs id v s : k_procs (sl_set id v s) = k_procs s.
Proof. by destruct id. Qed.

Lemma sl_set_cur id v s : k_cur (sl_set id v s) = k_cur s.
Proof. by destruct id. Qed.

Lemma sl_set_with_held id v L s : sl_set id v (with_k_held L s) = with_k_held L (sl_set id v s).
Proof. by destruct id. Qed.

Lemma sl_get_with_held id L s : sl_get id (with_k_held L s) = sl_get id s.
Proof. by destruct id. Qed.

Lemma sl_set_with_procs id v l s : sl_set id v (with_k_procs l s) = with_k_procs l (sl_set id v s).
Proof. by destruct id. Qed.

Lemma running_sl_set i pid id v s : running i pid s -> running i pid (sl_set id v s).
Proof. intros Hr. eapply running_frame; eauto using sl_set_cur, sl_set_held, sl_set_procs. Qed.

Lemma acquiresleep_spec `{Waits} i pid id s (Q : unit -> kernel -> Prop) :
  running i pid s -> sl_locked (sl_get id s) = false ->
  Q tt (sl_set id (mkSleeplock true pid) s) -> wp (acquiresleep id) Q s.
Proof.
  intros [R1 R2 R3 R4] Hl HQ. unfold acquiresleep. wp_step. apply wp_acquire; [rewrite R2; apply not_elem_of_nil|].
  cbn [loop]. wp_steps. rewrite sl_get_with_held, Hl. wp_steps.
  apply (wp_curproc i); [exact R1|]. unfold proc_at. wp_steps. rewrite sl_set_with_held.
  eapply wp_release; [by ksimp; rewrite R2|apply not_elem_of_nil|].
  change (k_procs (with_k_held ?L s)) with (k_procs s). rewrite R4.
  assert (forall s', k_held s' = [] -> with_k_held [] (with_k_held (Lsleep id :: k_held s) s') = s') as Hid.
  { intros s' Hs'. rewrite <- Hs' at 1. reflexivity. }
  rewrite Hid; [exact HQ|by rewrite sl_set_held].
Qed.

Lemma holdingsleep_spec i pid id s (Q : bool -> kernel -> Prop) :
  running i pid s -> Q (sl_locked (sl_get id s) && (sl_pid (sl_get id s) =? pid)) s -> wp (holdingsleep id) Q s.
Proof.
  intros [R1 R2 R3 R4] HQ. unfold holdingsleep. wp_step. apply wp_acquire; [rewrite R2; apply not_elem_of_nil|].
  wp_steps. rewrite sl_get_with_held. apply (wp_curproc i); [exact R1|]. unfold proc_at. wp_steps.
  eapply wp_release; [by ksimp; rewrite R2|apply not_elem_of_nil|]. wp_steps.
  change (k_procs (with_k_held ?L s)) with (k_procs s). rewrite R4.
  assert (with_k_held [] (with_k_held (Lsleep id :: k_held s) s) = s) as -> by (rewrite <- R2 at 1; reflexivity).
  exact HQ.
Qed.

Lemma releasesleep_spec i pid id s (Q : unit -> kernel -> Prop) :
  running i pid s ->
  (forall s', wakes (sl_set id (mkSleeplock false 0) s) s' -> Q tt s') -> wp (releasesleep id) Q s.
Proof.
  intros [R1 R2 R3 R4] HQ. unfold releasesleep. wp_step. apply wp_acquire; [rewrite R2; apply not_elem_of_nil|].
  wp_steps. rewrite sl_set_with_held. apply wakeup_wakes.
  { intros j. ksimp. rewrite R2. set_solver. }
  intros s' [W1 W2 W3]. eapply wp_release; [rewrite W1; ksimp; by rewrite R2|apply not_elem_of_nil|]. apply HQ.
  split; ksimp; [|exact W2|exact W3].
  rewrite W1. ksimp. assert (forall l s1, k_held s1 = [] ->
    with_k_held [] (with_k_procs l (with_k_held (Lsleep id :: k_held s) s1)) = with_k_procs l s1) as Hid.
  { intros l s1 Hs1. rewrite <- Hs1 at 1. reflexivity. }
  rewrite Hid; [reflexivity|by rewrite sl_set_held].
Qed.

(** ** Theorems *)

(** Acquiresleep() on a free sleep-lock takes it for the calling process
    without switching, and holdingsleep() then answers true for that process; on
    a locked one the process switches away asleep on the lock (holding no
    spinlock but its own), and releasesleep() by the owner frees the lock and
    leaves the sleeper RUNNABLE. *)
Theorem sleeplock_correct `{Waits} i pid id s :
  running i pid s -> (i < Z.to_nat NPROC)%nat ->
  (sl_locked (sl_get id s) = false ->
     acquiresleep id s = Ok tt (sl_set id (mkSleeplock true pid) s)) /\
  (sl_locked (sl_get id s) = true ->
     exists s1 k, acquiresleep id s = Swtch s1 k /\ k_held s1 = [Lproc i] /\
       p_state (k_procs s1 !!! i) = SLEEPING /\ p_chan (k_procs s1 !!! i) = Some (Csleep id) /\
       forall j pid' s2, running j pid' s2 -> j <> i -> k_procs s2 !! i = k_procs s1 !! i ->
         wp (releasesleep id) (fun _ s3 => p_state (k_procs s3 !!! i) = RUNNABLE) s2).
Proof.
  intros Hr Hi. split.
  - intros Hl. apply wp_eq. eapply acquiresleep_spec; eauto.
  - intros Hl. destruct Hr as [R1 R2 R3 R4].
    destruct (sleep_runs i (Csleep id) (Lsleep id) (with_k_held [Lsleep id] s)) as (k & Hs & _); auto.
    eexists _, _. split.
    { unfold acquiresleep. erewrite bind_ok by (unfold acquire; rewrite R2, decide_False by apply not_elem_of_nil; reflexivity).
      apply bind_swtch. cbn [loop]. apply bind_swtch. erewrite bind_ok by reflexivity. rewrite sl_get_with_held, Hl.
      apply bind_swtch, Hs. }
    unfold asleep. ksimp. rewrite alter_at by auto. split_and!; try reflexivity.
    intros j pid' s2 [Q1 Q2 Q3 Q4] Hj Hp. unfold releasesleep. wp_step.
    apply wp_acquire; [rewrite Q2; apply not_elem_of_nil|]. wp_steps. rewrite sl_set_with_held.
    eapply wp_mono; [apply wakeup_spec; intros x; ksimp; rewrite Q2; set_solver|]. intros _ s3 [Hs3 Hl3].
    eapply wp_release; [rewrite Hs3; ksimp; by rewrite Q2|apply not_elem_of_nil|]. ksimp.
    specialize (Hl3 i). revert Hl3. ksimp. rewrite sl_set_procs, sl_set_cur, Hp, list_lookup_alter_eq.
    destruct (lookup_lt_is_Some_2 _ _ R3) as [p Ep]. rewrite Ep. cbn [fmap option_fmap option_map].
    rewrite bool_decide_true by (apply elem_of_seq; lia). intros Hl3. apply list_lookup_total_correct in Hl3.
    rewrite Hl3. unfold woken. rewrite bool_decide_true; [reflexivity|]. rewrite Q1. split; [congruence|auto].
Qed.

Lemma sleeplock_correct_witness :
  acquiresleep (H := 3%nat) (SLbuf 4) (two_procs []) = Ok tt (sl_set (SLbuf 4) (mkSleeplock true 1) (two_procs [])).
Proof.
  apply (sleeplock_correct (H := 3%nat) 0 1 (SLbuf 4) (two_procs [])).
  - split; [reflexivity|reflexivity|apply (bool_decide_unpack _); vm_compute; reflexivity|reflexivity].
  - apply (bool_decide_unpack _). vm_compute. reflexivity.
  - reflexivity.
Defined.
