(* ===== verification/Bio.v ===== *)
(** * bio.c: the buffer cache.

    A buffer pointer is a buffer number; [HEAD] stands for [&bcache.head].  The
    disk driver is an interface, [Disk]: [DiskOk] is what the cache relies on. *)

From S2P Require Import Prelude Exec Params State Mem Sched Sleeplock.

Definition HEAD : nat := Z.to_nat NBUF.

Definition buf_at (b : nat) : KM buf := gets (fun s => k_bufs s !!! b).
Definition upd_buf (b : nat) (f : buf -> buf) : KM unit :=
  modify (fun s => with_k_bufs (alter f b (k_bufs s)) s).

(** The list pointers of a buffer or of the head. *)
Definition nxt (s : kernel) (b : nat) : nat :=
  if decide (b = HEAD) then snd (k_bhead s) else b_next (k_bufs s !!! b).
Definition prv (s : kernel) (b : nat) : nat :=
  if decide (b = HEAD) then fst (k_bhead s) else b_prev (k_bufs s !!! b).
Definition set_nxt (b v : nat) (s : kernel) : kernel :=
  if decide (b = HEAD) then with_k_bhead (fst (k_bhead s), v) s else with_k_bufs (alter (with_b_next v) b (k_bufs s)) s.
Definition set_prv (b v : nat) (s : kernel) : kernel :=
  if decide (b = HEAD) then with_k_bhead (v, snd (k_bhead s)) s else with_k_bufs (alter (with_b_prev v) b (k_bufs s)) s.

(** The contents of a block on the disk. *)
Definition disk_block (s : kernel) (n : Z) : list Z := default (replicate (Z.to_nat BSIZE) 0) (k_disk s !! n).

(** virtio_disk_rw(b, write) *)
Class Disk := virtio_disk_rw : nat -> bool -> KM unit.

(** Its contract, for a process without spinlocks: it transfers the block and
    returns when the transfer is done; other processes may have been woken. *)
Class DiskOk `{Disk} : Prop := {
  disk_read : forall i pid b s (Q : unit -> kernel -> Prop), running i pid s ->
    (b < length (k_bufs s))%nat ->
    (forall s', wakes (with_k_bufs (alter (with_b_data (disk_block s (b_blockno (k_bufs s !!! b)))) b (k_bufs s)) s) s' ->
       Q tt s') ->
    wp (virtio_disk_rw b false) Q s;
  disk_write : forall i pid b s (Q : unit -> kernel -> Prop), running i pid s ->
    (b < length (k_bufs s))%nat ->
    (forall s', let n := b_blockno (k_bufs s !!! b) in let d := b_data (k_bufs s !!! b) in
       wakes (with_k_disk (<[n := d]> (k_disk s)) (with_k_writes ((n, d) :: k_writes s) s)) s' -> Q tt s') ->
    wp (virtio_disk_rw b true) Q s;
}.

(** A disk that transfers at once. *)
Definition sync_disk : Disk := fun b write =>
  bf <- buf_at b ;;
  if write then
    modify (fun s => with_k_disk (<[b_blockno bf := b_data bf]> (k_disk s))
                       (with_k_writes ((b_blockno bf, b_data bf) :: k_writes s) s))
  else modify (fun s => with_k_bufs (alter (with_b_data (disk_block s (b_blockno bf))) b (k_bufs s)) s).

Lemma sync_disk_ok : @DiskOk sync_disk.
Proof.
  split; intros i pid b s Q _ _ HQ; unfold virtio_disk_rw, sync_disk, buf_at; wp_steps; apply HQ, wakes_refl.
Qed.

Section bio.
Context `{Disk} `{Waits}.

Definition binit : KM unit :=
  modify (set_prv HEAD HEAD) ;;;
  modify (set_nxt HEAD HEAD) ;;;
  forM (seq 0 (Z.to_nat NBUF)) (fun b =>
    n <- gets (fun s => nxt s HEAD) ;;
    modify (set_nxt b n) ;;;
    modify (set_prv b HEAD) ;;;
    initsleeplock (SLbuf b) ;;;
    n <- gets (fun s => nxt s HEAD) ;;
    modify (set_prv n b) ;;;
    modify (set_nxt HEAD b)).

Definition bget (dev blockno : Z) : KM nat :=
  acquire Lbcache ;;;
  b <- gets (fun s => nxt s HEAD) ;;
  hit <- loop (S HEAD) (fun b =>
    if decide (b = HEAD) then ret (inr None) else
    bf <- buf_at b ;;
    if (b_dev bf =? dev) && (b_blockno bf =? blockno) then
      upd_buf b (with_b_refcnt (u32 (b_refcnt bf + 1))) ;;;
      ret (inr (Some b))
    else
      b' <- gets (fun s => nxt s b) ;;
      ret (inl b')) b ;;
  match hit with
  | Some b =>
      release Lbcache ;;;
      acquiresleep (SLbuf b) ;;;
      ret b
  | None =>
      b <- gets (fun s => prv s HEAD) ;;
      free <- loop (S HEAD) (fun b =>
        if decide (b = HEAD) then ret (inr None) else
        bf <- buf_at b ;;
        if b_refcnt bf =? 0 then
          upd_buf b (fun bf => with_b_refcnt 1 (with_b_valid false (with_b_blockno blockno (with_b_dev dev bf)))) ;;;
          ret (inr (Some b))
        else
          b' <- gets (fun s => prv s b) ;;
          ret (inl b')) b ;;
      match free with
      | Some b =>
          release Lbcache ;;;
          acquiresleep (SLbuf b) ;;;
          ret b
      | None => panic "bget: no buffers"
      end
  end.

Definition bread (dev blockno : Z) : KM nat :=
  b <- bget dev blockno ;;
  bf <- buf_at b ;;
  when (negb (b_valid bf))
    (virtio_disk_rw b false ;;;
     upd_buf b (with_b_valid true)) ;;;
  ret b.

Definition bwrite (b : nat) : KM unit :=
  h <- holdingsleep (SLbuf b) ;;
  if negb h then panic "bwrite" else
  virtio_disk_rw b true.

Definition brelse (b : nat) : KM unit :=
  h <- holdingsleep (SLbuf b) ;;
  if negb h then panic "brelse" else
  releasesleep (SLbuf b) ;;;
  acquire Lbcache ;;;
  upd_buf b (fun bf => with_b_refcnt (u32 (b_refcnt bf - 1)) bf) ;;;
  bf <- buf_at b ;;
  when (b_refcnt bf =? 0)
    (n <- gets (fun s => nxt s b) ;;
     p <- gets (fun s => prv s b) ;;
     modify (set_prv n p) ;;;
     n <- gets (fun s => nxt s b) ;;
     p <- gets (fun s => prv s b) ;;
     modify (set_nxt p n) ;;;
     h <- gets (fun s => nxt s HEAD) ;;
     modify (set_nxt b h) ;;;
     modify (set_prv b HEAD) ;;;
     h <- gets (fun s => nxt s HEAD) ;;
     modify (set_prv h b) ;;;
     modify (set_nxt HEAD b)) ;;;
  release Lbcache.

Definition bpin (b : nat) : KM unit :=
  acquire Lbcache ;;;
  upd_buf b (fun bf => with_b_refcnt (u32 (b_refcnt bf + 1)) bf) ;;;
  release Lbcache.

Definition bunpin (b : nat) : KM unit :=
  acquire Lbcache ;;;
  upd_buf b (fun bf => with_b_refcnt (u32 (b_refcnt bf - 1)) bf) ;;;
  release Lbcache.
End bio.

(** ** The doubly-linked list *)

Definition upd (f : nat -> nat) (x v y : nat) : nat := if decide (y = x) then v else f y.

(** Following [n] from [x] goes through [l] and arrives at [y]. *)
Fixpoint seg (n : nat -> nat) (x : nat) (l : list nat) (y : nat) : Prop :=
  match l with
  | [] => n x = y
  | z :: l => n x = z /\ seg n z l y
  end.

(** The list between the head and itself, in both directions. *)
Definition ring (n p : nat -> nat) (l : list nat) : Prop := seg n HEAD l HEAD /\ seg p HEAD (rev l) HEAD.

Lemma seg_app n x l1 z l2 y : seg n x (l1 ++ z :: l2) y <-> seg n x l1 z /\ seg n z l2 y.
Proof. revert x. induction l1 as [|w l1 IH]; intros x; simpl; [|rewrite IH]; tauto. Qed.

Lemma seg_ext n n' x l y : (forall z, z ∈ x :: l -> n z = n' z) -> seg n x l y -> seg n' x l y.
Proof.
  revert x. induction l as [|z l IH]; intros x Hz; simpl.
  - rewrite <- Hz; [auto|by left].
  - intros [Hn Hs]. split; [rewrite <- Hz; [auto|by left]|]. apply IH; [|exact Hs]. intros w Hw. apply Hz. by right.
Qed.

Lemma seg_upd n x l y a v : a ∉ x :: l -> seg n x l y -> seg (upd n a v) x l y.
Proof. intros Ha. apply seg_ext. intros z Hz. unfold upd. rewrite decide_False; [reflexivity|]. by intros ->. Qed.

(** The last element before [y] can be pointed elsewhere. *)
Lemma seg_retarget n x l y y' z :
  NoDup (x :: l) -> last (x :: l) = Some z -> seg n x l y -> seg (upd n z y') x l y'.
Proof.
  revert x. induction l as [|w l IH]; intros x Hnd Hl.
  - injection Hl as <-. intros _. simpl. unfold upd. by rewrite decide_True.
  - apply NoDup_cons in Hnd as [Hx Hnd]. intros [Hn Hs]. rewrite last_cons_cons in Hl. split.
    + unfold upd. rewrite decide_False; [exact Hn|]. intros ->. apply Hx. by eapply last_Some_elem_of.
    + by apply IH.
Qed.

Lemma seg_head n x l y : seg n x l y -> n x = hd y l.
Proof. destruct l; simpl; tauto. Qed.

Lemma seg_last n x l y : seg n x l y -> exists z, last (x :: l) = Some z /\ n z = y.
Proof.
  revert x. induction l as [|w l IH]; intros x Hs.
  - exists x. auto.
  - destruct Hs as [_ Hs]. rewrite last_cons_cons. auto.
Qed.

(** Taking [b] out of a segment: [x] is the element before it. *)
Lemma seg_remove n a l1 b l2 c x :
  NoDup (a :: l1 ++ b :: l2) -> last (a :: l1) = Some x -> seg n a (l1 ++ b :: l2) c ->
  seg (upd n x (n b)) a (l1 ++ l2) c.
Proof.
  intros Hnd Hx Hs. apply seg_app in Hs as [Hs1 Hs2].
  assert (NoDup (a :: l1)) as Hnd1.
  { change (NoDup ((a :: l1) ++ b :: l2)) in Hnd. by apply NoDup_app in Hnd as [? _]. }
  assert (x ∉ b :: l2) as Hxb.
  { change (NoDup ((a :: l1) ++ b :: l2)) in Hnd. apply NoDup_app in Hnd as (_ & Hd & _). apply Hd.
    by eapply last_Some_elem_of. }
  pose proof (seg_head _ _ _ _ Hs2) as Hh. destruct l2 as [|z l2]; simpl in Hh.
  - rewrite app_nil_r, Hh. by eapply seg_retarget.
  - destruct Hs2 as [_ Hs2]. rewrite Hh. apply seg_app. split; [by eapply seg_retarget|].
    apply seg_upd; [|exact Hs2]. set_solver.
Qed.

Lemma last_rev {A} (x : A) l : last (x :: rev l) = Some (hd x l).
Proof. destruct l as [|y l]; [reflexivity|]. cbn [rev hd]. rewrite app_comm_cons, last_snoc. reflexivity. Qed.

Lemma ring_remove n p l1 b l2 :
  NoDup (HEAD :: l1 ++ b :: l2) -> ring n p (l1 ++ b :: l2) ->
  ring (upd n (p b) (n b)) (upd p (n b) (p b)) (l1 ++ l2).
Proof.
  intros Hnd [Hn Hp]. rewrite rev_app_distr in *. cbn [rev] in *. rewrite <- app_assoc in Hp. cbn [app] in Hp.
  pose proof (proj1 (seg_app _ _ _ _ _ _) Hn) as [_ Hn2]. pose proof (proj1 (seg_app _ _ _ _ _ _) Hp) as [_ Hp2].
  apply seg_head in Hn2, Hp2.
  assert (NoDup (HEAD :: rev l2 ++ b :: rev l1)) as Hnd'.
  { rewrite <- (rev_involutive l1) in Hnd. apply NoDup_cons in Hnd as [H1 H2]. apply NoDup_cons. split.
    - revert H1. rewrite rev_involutive, !elem_of_app, !elem_of_cons, !list_elem_of_In, <- !in_rev. tauto.
    - eapply NoDup_Permutation_proper; [|exact H2]. rewrite rev_involutive, <- !Permutation_rev.
      rewrite Permutation_app_comm. simpl. by rewrite Permutation_middle, Permutation_app_comm. }
  split.
  - eapply seg_remove; [exact Hnd| |exact Hn]. rewrite Hp2. rewrite <- (rev_involutive l1) at 1. apply last_rev.
  - rewrite rev_app_distr. eapply seg_remove; [exact Hnd'| |exact Hp]. rewrite Hn2. apply last_rev.
Qed.

Lemma ring_insert n p l b :
  NoDup (HEAD :: l) -> b ∉ HEAD :: l -> ring n p l ->
  ring (upd (upd n b (n HEAD)) HEAD b) (upd (upd p b HEAD) (n HEAD) b) (b :: l).
Proof.
  intros Hnd Hb [Hn Hp]. pose proof (seg_head _ _ _ _ Hn) as Hh. apply not_elem_of_cons in Hb as [HbH Hbl].
  split.
  - split; [unfold upd; by rewrite decide_True|]. apply NoDup_cons in Hnd as [HH Hnd]. destruct l as [|z l]; simpl in *.
    + unfold upd. rewrite (decide_False (P := b = HEAD)), decide_True by auto. exact Hh.
    + split; [unfold upd; rewrite (decide_False (P := b = HEAD)), decide_True by auto; exact Hh|].
      destruct Hn as [_ Hn]. apply seg_upd; [exact HH|]. by apply seg_upd.
  - cbn [rev]. apply seg_app. split.
    + eapply seg_retarget; [|rewrite Hh; apply last_rev|apply seg_upd; [|exact Hp]].
      * apply NoDup_cons in Hnd as [HH Hnd]. apply NoDup_cons. split.
        -- by rewrite list_elem_of_In, <- in_rev, <- list_elem_of_In.
        -- by rewrite <- Permutation_rev.
      * rewrite elem_of_cons, list_elem_of_In, <- in_rev, <- list_elem_of_In. tauto.
    + simpl. unfold upd. rewrite Hh. assert (b <> hd HEAD l) as Hne.
      { destruct l; simpl; [auto|]. set_solver. }
      by rewrite decide_False, decide_True.
Qed.

(** A loop that follows [f] around the list, up to the first buffer that passes
    the test. *)
Lemma scan_loop (f : kernel -> nat -> nat) (test : buf -> bool) (act : nat -> buf -> KM unit) s l x fuel
    (Q : option nat -> kernel -> Prop) :
  seg (f s) x l HEAD -> HEAD ∉ l -> (length l < fuel)%nat ->
  (forall l1 b l2, l = l1 ++ b :: l2 -> Forall (fun b => test (k_bufs s !!! b) = false) l1 ->
     test (k_bufs s !!! b) = true -> wp (act b (k_bufs s !!! b)) (fun _ s' => Q (Some b) s') s) ->
  (Forall (fun b => test (k_bufs s !!! b) = false) l -> Q None s) ->
  wp (loop fuel (fun b =>
    if decide (b = HEAD) then ret (inr None) else
    bf <- buf_at b ;;
    if test bf then act b bf ;;; ret (inr (Some b))
    else b' <- gets (fun s => f s b) ;; ret (inl b')) (f s x)) Q s.
Proof.
  revert x fuel Q. induction l as [|z l IH]; intros x fuel Q Hs HH Hf HQ HN; (destruct fuel as [|fuel]; [simpl in Hf; lia|]);
    cbn [loop seg] in *.
  - rewrite Hs. wp_step. rewrite decide_True by auto. wp_steps. by apply HN.
  - destruct Hs as [-> Hs]. wp_step. rewrite decide_False by set_solver. unfold buf_at at 1. wp_steps.
    destruct (test (k_bufs s !!! z)) eqn:E.
    + wp_step. eapply wp_mono; [apply (HQ [] z l); auto|]. intros u s' Hq. wp_steps. exact Hq.
    + wp_steps. apply IH; [exact Hs|set_solver|simpl in Hf; lia| |].
      * intros l1 b l2 -> Ht. apply (HQ (z :: l1) b l2); [reflexivity|by constructor].
      * intros Ht. apply HN. by constructor.
Qed.

(** ** The invariant of the cache *)

Record buf_ok (s : kernel) (bf : buf) : Prop := {
  bo_ref : 0 <= b_refcnt bf < 2 ^ 32;
  bo_data : length (b_data bf) = Z.to_nat BSIZE;
  bo_free : b_refcnt bf = 0 -> sl_locked (b_lock bf) = false;
  bo_clean : b_refcnt bf = 0 -> b_valid bf = true -> b_dev bf = ROOTDEV -> b_data bf = disk_block s (b_blockno bf);
}.

Record bcache_inv (s : kernel) (l : list nat) : Prop := {
  bi_len : length (k_bufs s) = HEAD;
  bi_perm : l ≡ₚ seq 0 HEAD;
  bi_ring : ring (nxt s) (prv s) l;
  bi_uniq : forall i j bi bj, k_bufs s !! i = Some bi -> k_bufs s !! j = Some bj ->
    b_dev bi = ROOTDEV -> b_dev bj = ROOTDEV -> b_blockno bi = b_blockno bj -> i = j;
  bi_buf : forall i bf, k_bufs s !! i = Some bf -> buf_ok s bf;
  bi_disk : forall n d, k_disk s !! n = Some d -> length d = Z.to_nat BSIZE;
}.

Lemma bi_elem s l b : bcache_inv s l -> b ∈ l <-> (b < HEAD)%nat.
Proof. intros [_ Hp _ _ _]. rewrite Hp, elem_of_seq. lia. Qed.

Lemma bi_nodup s l : bcache_inv s l -> NoDup (HEAD :: l).
Proof.
  intros Hi. apply NoDup_cons. split.
  - rewrite (bi_elem _ _ _ Hi). lia.
  - rewrite (bi_perm _ _ Hi). apply NoDup_seq.
Qed.

Lemma bi_lookup s l b : bcache_inv s l -> (b < HEAD)%nat -> k_bufs s !! b = Some (k_bufs s !!! b).
Proof. intros Hi Hb. apply list_lookup_lookup_total_lt. by rewrite (bi_len _ _ Hi). Qed.

(** The contents of a block as the file system sees it: the cached copy, if there
    is one, else the disk's. *)
Definition is_block (n : Z) (bf : buf) : Prop := b_dev bf = ROOTDEV /\ b_blockno bf = n /\ b_valid bf = true.

#[export] Instance is_block_dec n bf : Decision (is_block n bf).
Proof. unfold is_block. apply _. Defined.

Definition content (s : kernel) (n : Z) : list Z :=
  match list_find (is_block n) (k_bufs s) with
  | Some (_, bf) => b_data bf
  | None => disk_block s n
  end.

Lemma content_buf s l b bf n :
  bcache_inv s l -> k_bufs s !! b = Some bf -> is_block n bf -> content s n = b_data bf.
Proof.
  intros Hi Hb (Hd & Hn & Hv). unfold content. destruct (list_find _ _) as [[j bj]|] eqn:E.
  - apply list_find_Some in E as (Hj & (Hdj & Hnj & Hvj) & _).
    assert (j = b) as -> by (eapply (bi_uniq _ _ Hi); eauto; congruence).
    by simplify_eq.
  - apply list_find_None in E. rewrite Forall_forall in E. exfalso. apply (E bf); [by eapply list_elem_of_lookup_2|done].
Qed.

Lemma content_disk s n :
  (forall b bf, k_bufs s !! b = Some bf -> ~ is_block n bf) -> content s n = disk_block s n.
Proof.
  intros Hb. unfold content. destruct (list_find _ _) as [[j bj]|] eqn:E; [|reflexivity].
  apply list_find_Some in E as (Hj & Hp & _). exfalso. by eapply Hb.
Qed.

Lemma disk_block_length s l n : bcache_inv s l -> length (disk_block s n) = Z.to_nat BSIZE.
Proof.
  intros Hi. unfold disk_block. destruct (k_disk s !! n) as [d|] eqn:E; [by eapply bi_disk|apply length_replicate].
Qed.

Lemma content_length s l n : bcache_inv s l -> length (content s n) = Z.to_nat BSIZE.
Proof.
  intros Hi. unfold content. destruct (list_find _ _) as [[j bj]|] eqn:E; [|by eapply disk_block_length].
  apply list_find_Some in E as (Hj & _). apply (bi_buf _ _ Hi _ _ Hj).
Qed.

(** Only the buffers, the list head and the disk matter. *)
Lemma bcache_inv_frame s s' l :
  bcache_inv s l -> k_bufs s' = k_bufs s -> k_bhead s' = k_bhead s -> k_disk s' = k_disk s -> bcache_inv s' l.
Proof.
  intros [A B C D E F] E1 E2 E3. assert (forall bf, buf_ok s bf -> buf_ok s' bf) as Hok.
  { intros bf [B1 B2 B3 B4]. split; auto. unfold disk_block. rewrite E3. auto. }
  assert (forall x, nxt s x = nxt s' x) as Hn by (intros; unfold nxt; by rewrite E1, E2).
  assert (forall x, prv s x = prv s' x) as Hp by (intros; unfold prv; by rewrite E1, E2).
  split; rewrite ?E1, ?E3; [exact A|exact B| |exact D|eauto|exact F].
  destruct C as [C1 C2]. split; [eapply seg_ext; [|exact C1]|eapply seg_ext; [|exact C2]]; auto.
Qed.

Lemma content_frame s s' n : k_bufs s' = k_bufs s -> k_disk s' = k_disk s -> content s' n = content s n.
Proof. intros E1 E2. unfold content, disk_block. by rewrite E1, E2. Qed.

(** ** Specifications *)

Lemma alter_insert {A} (f : A -> A) (i : nat) (l : list A) x : l !! i = Some x -> alter f i l = <[i := f x]> l.
Proof.
  intros Hx. apply list_eq. intros j. destruct (decide (j = i)) as [->|].
  - rewrite list_lookup_alter_eq, Hx, list_lookup_insert_eq; [reflexivity|]. by eapply lookup_lt_Some.
  - by rewrite list_lookup_alter_ne, list_lookup_insert_ne.
Qed.

Definition set_buf (b : nat) (bf : buf) (s : kernel) : kernel := with_k_bufs (<[b := bf]> (k_bufs s)) s.

(** Changing a buffer but not its place in the list. *)
Lemma set_buf_inv s l b bf bf' :
  bcache_inv s l -> k_bufs s !! b = Some bf -> b_prev bf' = b_prev bf -> b_next bf' = b_next bf -> buf_ok s bf' ->
  (forall j bj, j <> b -> k_bufs s !! j = Some bj -> b_dev bj = ROOTDEV -> b_dev bf' = ROOTDEV ->
     b_blockno bj <> b_blockno bf') ->
  bcache_inv (set_buf b bf' s) l.
Proof.
  intros [A B C D E F] Hb Hp Hn Hok Hu. pose proof (lookup_lt_Some _ _ _ Hb) as Hlt.
  assert (forall x, (<[b:=bf']> (k_bufs s) !!! x).(b_next) = (k_bufs s !!! x).(b_next) /\
    (<[b:=bf']> (k_bufs s) !!! x).(b_prev) = (k_bufs s !!! x).(b_prev)) as Hx.
  { intros x. destruct (decide (x = b)) as [->|].
    - rewrite list_lookup_total_insert_eq, (list_lookup_total_correct _ _ _ Hb) by auto. auto.
    - by rewrite list_lookup_total_insert_ne. }
  unfold set_buf. split; ksimp.
  - by rewrite length_insert.
  - exact B.
  - destruct C as [C1 C2]. split; [eapply seg_ext; [|exact C1]|eapply seg_ext; [|exact C2]]; intros x _;
      unfold nxt, prv; ksimp; case_decide; auto; symmetry; apply Hx.
  - intros i j bi bj Hi Hj Hz Hd Hbn.
    destruct (decide (i = b)) as [->|Hib], (decide (j = b)) as [->|Hjb]; [reflexivity|exfalso|exfalso|].
    + rewrite list_lookup_insert_eq in Hi by auto. rewrite list_lookup_insert_ne in Hj by auto. injection Hi as <-.
      apply (Hu j bj); auto; congruence.
    + rewrite list_lookup_insert_ne in Hi by auto. rewrite list_lookup_insert_eq in Hj by auto. injection Hj as <-.
      apply (Hu i bi); auto; congruence.
    + rewrite list_lookup_insert_ne in Hi, Hj by auto. eapply D; eauto.
  - intros i bi. destruct (decide (i = b)) as [->|Hib].
    1: rewrite list_lookup_insert_eq by auto; intros [= <-]. 2: rewrite list_lookup_insert_ne by auto; intros Hi.
    + destruct Hok. split; auto.
    + destruct (E i bi Hi). split; auto.
  - exact F.
Qed.

Definition bget_hit (s : kernel) (n pid : Z) (b : nat) (bf' : buf) : Prop :=
  exists bf, k_bufs s !! b = Some bf /\ b_dev bf = ROOTDEV /\ b_blockno bf = n /\
    bf' = with_b_lock (mkSleeplock true pid) (with_b_refcnt (b_refcnt bf + 1) bf).

Definition bget_miss (s : kernel) (l : list nat) (n pid : Z) (b : nat) (bf' : buf) : Prop :=
  (forall j bj, k_bufs s !! j = Some bj -> ~ (b_dev bj = ROOTDEV /\ b_blockno bj = n)) /\
  exists bf l1 l2, k_bufs s !! b = Some bf /\ b_refcnt bf = 0 /\ l = l1 ++ b :: l2 /\
    Forall (fun x => b_refcnt (k_bufs s !!! x) <> 0) l2 /\
    bf' = with_b_lock (mkSleeplock true pid)
            (with_b_refcnt 1 (with_b_valid false (with_b_blockno n (with_b_dev ROOTDEV bf)))).

(** The block can be had without waiting: if it is cached nobody holds its lock,
    and otherwise some buffer is unused. *)
Definition available (s : kernel) (n : Z) : Prop :=
  (forall b bf, k_bufs s !! b = Some bf -> b_dev bf = ROOTDEV -> b_blockno bf = n ->
     sl_locked (b_lock bf) = false /\ b_refcnt bf < 2 ^ 32 - 1) /\
  ((exists b bf, k_bufs s !! b = Some bf /\ b_dev bf = ROOTDEV /\ b_blockno bf = n) \/
   (exists b bf, k_bufs s !! b = Some bf /\ b_refcnt bf = 0)).

Section specs.
Context `{DiskOk} `{Waits}.

(** acquiresleep() of the chosen buffer. *)
Lemma take_buf i pid s b bf1 (Q : nat -> kernel -> Prop) :
  running i pid s -> (b < length (k_bufs s))%nat -> sl_locked (b_lock bf1) = false ->
  Q b (set_buf b (with_b_lock (mkSleeplock true pid) bf1) s) ->
  wp (release Lbcache ;;; acquiresleep (SLbuf b) ;;; ret b) Q
    (with_k_held [Lbcache] (set_buf b bf1 s)).
Proof.
  intros Hr Hb Hl HQ. pose proof (ru_held _ _ _ Hr) as Hh. wp_step.
  eapply wp_release; [reflexivity|apply not_elem_of_nil|].
  assert (with_k_held [] (with_k_held [Lbcache] (set_buf b bf1 s)) = set_buf b bf1 s) as ->.
  { unfold set_buf. rewrite <- Hh. reflexivity. }
  wp_step. eapply acquiresleep_spec.
  - eapply running_frame; [exact Hr|reflexivity..].
  - unfold sl_get, set_buf. ksimp. rewrite list_lookup_total_insert_eq by auto. exact Hl.
  - wp_steps. unfold sl_set, set_buf. ksimp. erewrite alter_insert by (apply list_lookup_insert_eq; exact Hb).
    rewrite list_insert_insert_eq. exact HQ.
Qed.

Lemma rev_mid {A} (l l1 : list A) b l2 : rev l = l1 ++ b :: l2 -> l = rev l2 ++ b :: rev l1.
Proof.
  intros E. apply (f_equal (@rev A)) in E. rewrite rev_involutive, rev_app_distr in E. cbn [rev] in E.
  by rewrite <- app_assoc in E.
Qed.

Lemma bget_spec i pid s l n (Q : nat -> kernel -> Prop) :
  bcache_inv s l -> running i pid s -> available s n ->
  (forall b bf', bget_hit s n pid b bf' \/ bget_miss s l n pid b bf' -> Q b (set_buf b bf' s)) ->
  wp (bget ROOTDEV n) Q s.
Proof.
  intros Hi Hr [Hfree Hsome] HQ. pose proof (ru_held _ _ _ Hr) as Hh. pose proof (bi_nodup _ _ Hi) as Hnd.
  apply NoDup_cons in Hnd as [HH _].
  unfold bget. wp_step. apply wp_acquire; [rewrite Hh; apply not_elem_of_nil|]. rewrite Hh.
  set (s0 := with_k_held [Lbcache] s). assert (bcache_inv s0 l) as Hi0 by (eapply bcache_inv_frame; [exact Hi|reflexivity..]).
  destruct (bi_ring _ _ Hi0) as [Hn Hp]. pose proof (bi_len _ _ Hi) as Hlen.
  assert (length l = HEAD) as Hll by (rewrite (bi_perm _ _ Hi); apply length_seq).
  do 2 wp_step. wp_step. apply (scan_loop nxt (fun bf => (b_dev bf =? ROOTDEV) && (b_blockno bf =? n))
    (fun b bf => upd_buf b (with_b_refcnt (u32 (b_refcnt bf + 1)))) s0 l); [exact Hn|exact HH|lia| |].
  - intros l1 b l2 Hl _ Ht. apply andb_true_iff in Ht as [Hd Hb]. apply Z.eqb_eq in Hd, Hb.
    assert (b < HEAD)%nat as Hlt by (apply (bi_elem _ _ _ Hi); rewrite Hl; set_solver).
    pose proof (bi_lookup _ _ _ Hi Hlt) as Hbf. change (k_bufs s0) with (k_bufs s) in *.
    destruct (Hfree b _ Hbf Hd Hb) as [Hul Hrc]. pose proof (bo_ref _ _ (bi_buf _ _ Hi _ _ Hbf)).
    unfold upd_buf. wp_steps. rewrite u32_id by lia. change (k_bufs s0) with (k_bufs s).
    rewrite (alter_insert _ _ _ _ Hbf).
    apply (take_buf i pid s b (with_b_refcnt (b_refcnt (k_bufs s !!! b) + 1) (k_bufs s !!! b))); [exact Hr|lia|exact Hul|].
    apply HQ. left. exists (k_bufs s !!! b). auto.
  - intros Hnone. rewrite Forall_forall in Hnone. change (k_bufs s0) with (k_bufs s) in *.
    assert (forall j bj, k_bufs s !! j = Some bj -> ~ (b_dev bj = ROOTDEV /\ b_blockno bj = n)) as Hmiss.
    { intros j bj Hj [Hd Hb]. pose proof (lookup_lt_Some _ _ _ Hj). specialize (Hnone j).
      rewrite (bi_elem _ _ _ Hi) in Hnone. specialize (Hnone ltac:(lia)).
      rewrite (list_lookup_total_correct _ _ _ Hj), Hd, Hb, !Z.eqb_refl in Hnone. done. }
    do 2 wp_step. wp_step. apply (scan_loop prv (fun bf => b_refcnt bf =? 0) (fun b bf =>
      upd_buf b (fun bf => with_b_refcnt 1 (with_b_valid false (with_b_blockno n (with_b_dev ROOTDEV bf))))) s0 (rev l));
      [exact Hp|rewrite list_elem_of_In, <- in_rev, <- list_elem_of_In; exact HH|rewrite length_rev; lia| |].
    + intros l1 b l2 Hl Hbusy Ht. apply rev_mid in Hl. apply Z.eqb_eq in Ht.
      assert (b < HEAD)%nat as Hlt by (apply (bi_elem _ _ _ Hi); rewrite Hl; set_solver).
      pose proof (bi_lookup _ _ _ Hi Hlt) as Hbf. change (k_bufs s0) with (k_bufs s) in *.
      unfold upd_buf. wp_steps. change (k_bufs s0) with (k_bufs s). rewrite (alter_insert _ _ _ _ Hbf).
      apply (take_buf i pid s b (with_b_refcnt 1 (with_b_valid false (with_b_blockno n (with_b_dev ROOTDEV (k_bufs s !!! b))))));
        [exact Hr|lia|by apply (bo_free _ _ (bi_buf _ _ Hi _ _ Hbf))|].
      apply HQ. right. split; [exact Hmiss|]. exists (k_bufs s !!! b), (rev l2), (rev l1).
      split_and!; auto. rewrite Forall_forall in *. intros x Hx. rewrite list_elem_of_In, <- in_rev, <- list_elem_of_In in Hx.
      specialize (Hbusy x Hx). lia.
    + intros Hbusy. exfalso. rewrite Forall_forall in Hbusy. destruct Hsome as [(b & bf & Hb & Hd & Hn')|(b & bf & Hb & Hz)].
      * by eapply Hmiss.
      * pose proof (lookup_lt_Some _ _ _ Hb). specialize (Hbusy b).
        rewrite list_elem_of_In, <- in_rev, <- list_elem_of_In, (bi_elem _ _ _ Hi) in Hbusy. specialize (Hbusy ltac:(lia)).
        change (k_bufs s0) with (k_bufs s) in Hbusy. rewrite (list_lookup_total_correct _ _ _ Hb), Hz in Hbusy. done.
Qed.

(** ** The cache seen by one process

    [pins] are the blocks held in the cache by the log, [lks] the buffers the
    process has locked, with their blocks; nobody else holds a buffer. *)
Record cache (i : nat) (pid : Z) (pins : list Z) (lks : list (nat * Z)) (s : kernel) : Prop := {
  ca_inv : exists l, bcache_inv s l;
  ca_run : running i pid s;
  ca_nodup : NoDup lks.*1;
  ca_ref : forall b bf, k_bufs s !! b = Some bf -> b_refcnt bf =
    (if decide (b_dev bf = ROOTDEV /\ b_blockno bf ∈ pins) then 1 else 0) + (if decide (b ∈ lks.*1) then 1 else 0);
  ca_lock : forall b bf, k_bufs s !! b = Some bf -> b_lock bf = mkSleeplock true pid /\ b ∈ lks.*1 \/
    sl_locked (b_lock bf) = false /\ b ∉ lks.*1;
  ca_lks : forall b n, (b, n) ∈ lks -> exists bf, k_bufs s !! b = Some bf /\ is_block n bf;
  ca_pins : forall n, n ∈ pins -> exists b bf, k_bufs s !! b = Some bf /\ is_block n bf;
}.

(** A free buffer exists when pins and locks do not use them all. *)
Lemma free_buf i pid pins lks s :
  cache i pid pins lks s -> (length pins + length lks < HEAD)%nat -> exists b bf, k_bufs s !! b = Some bf /\ b_refcnt bf = 0.
Proof.
  intros Hc Hlen. destruct (ca_inv _ _ _ _ _ Hc) as [l Hi].
  destruct (decide (Exists (fun b => b_refcnt (k_bufs s !!! b) = 0) (seq 0 HEAD))) as [He|He].
  { apply Exists_exists in He as (b & Hb & Hz). apply elem_of_seq in Hb.
    exists b, (k_bufs s !!! b). split; [eapply bi_lookup; [exact Hi|lia]|exact Hz]. }
  exfalso. rewrite <- Forall_Exists_neg, Forall_forall in He.
  set (free := filter (fun b => b ∉ lks.*1) (seq 0 HEAD)).
  assert (length free <= length pins)%nat as Hp.
  { rewrite <- (length_fmap (fun b => b_blockno (k_bufs s !!! b)) free). apply submseteq_length, NoDup_submseteq.
    - apply NoDup_fmap_2_strong; [|apply list.NoDup_filter, NoDup_seq]. intros x y Hx Hy Hxy.
      apply list_elem_of_filter in Hx as [Hx1 Hx2], Hy as [Hy1 Hy2]. apply elem_of_seq in Hx2 as Hx3, Hy2 as Hy3.
      pose proof (bi_lookup _ _ x Hi ltac:(lia)) as Ex. pose proof (bi_lookup _ _ y Hi ltac:(lia)) as Ey.
      pose proof (He x Hx2) as Rx. pose proof (He y Hy2) as Ry. cbn beta in Rx, Ry.
      rewrite (ca_ref _ _ _ _ _ Hc _ _ Ex) in Rx. rewrite (ca_ref _ _ _ _ _ Hc _ _ Ey) in Ry.
      rewrite (decide_False (P := x ∈ _)) in Rx by auto. rewrite (decide_False (P := y ∈ _)) in Ry by auto.
      repeat case_decide; try lia. eapply (bi_uniq _ _ Hi); [exact Ex|exact Ey|tauto|tauto|exact Hxy].
    - intros n Hn. apply list_elem_of_fmap in Hn as (b & -> & Hb). apply list_elem_of_filter in Hb as [Hb1 Hb2].
      apply elem_of_seq in Hb2 as Hb3. pose proof (bi_lookup _ _ b Hi ltac:(lia)) as Eb. pose proof (He b Hb2) as Rb.
      cbn beta in Rb. rewrite (ca_ref _ _ _ _ _ Hc _ _ Eb), (decide_False (P := b ∈ _)) in Rb by auto.
      case_decide; [tauto|lia]. }
  assert (HEAD <= length lks.*1 + length free)%nat as Hl; [|rewrite length_fmap in Hl; lia].
  rewrite <- length_app, <- (length_seq HEAD 0) at 1. apply submseteq_length, NoDup_submseteq; [apply NoDup_seq|].
  intros b Hb. rewrite elem_of_app. destruct (decide (b ∈ lks.*1)); [auto|right]. by apply list_elem_of_filter.
Qed.

Lemma cache_available i pid pins lks s n :
  cache i pid pins lks s -> n ∉ lks.*2 -> (length pins + length lks < HEAD)%nat -> available s n.
Proof.
  intros Hc Hn Hlen. destruct (ca_inv _ _ _ _ _ Hc) as [l Hi]. split.
  - intros b bf Hb Hd Hbn. pose proof (ca_ref _ _ _ _ _ Hc _ _ Hb) as Hr.
    assert (b ∉ lks.*1) as Hnl.
    { intros Hin. apply list_elem_of_fmap in Hin as ([b' m] & -> & Hin). simpl in *.
      destruct (ca_lks _ _ _ _ _ Hc _ _ Hin) as (bf' & Hb' & Hd' & Hm & _). simplify_eq. apply Hn.
      apply list_elem_of_fmap. by exists (b', b_blockno bf). }
    destruct (ca_lock _ _ _ _ _ Hc _ _ Hb) as [[_ ?]|[Hl _]]; [done|]. split; [exact Hl|].
    rewrite (decide_False (P := b ∈ _)) in Hr by auto. case_decide; lia.
  - right. by eapply free_buf.
Qed.

(** What the cache operations may change: the buffers, and which processes sleep. *)
Definition bio_frame (s s' : kernel) : Prop := wakes (with_k_bhead (k_bhead s') (with_k_bufs (k_bufs s') s)) s'.

Lemma bio_frame_eq s s' : bio_frame s s' -> s' = with_k_procs (k_procs s') (with_k_bhead (k_bhead s') (with_k_bufs (k_bufs s') s)).
Proof. apply wk_rest. Qed.

Lemma bio_frame_of h l s s' : wakes (with_k_bhead h (with_k_bufs l s)) s' -> bio_frame s s'.
Proof. intros Hw. unfold bio_frame. rewrite (wk_rest _ _ Hw) at 1 2. exact Hw. Qed.

Lemma bio_frame_trans s1 s2 s3 : bio_frame s1 s2 -> bio_frame s2 s3 -> bio_frame s1 s3.
Proof.
  intros W1 [A2 B2 C2]. eapply (wakes_trans _ (with_k_bhead (k_bhead s3) (with_k_bufs (k_bufs s3) s2))); [|split; [exact A2|exact B2|exact C2]].
  destruct W1 as [A1 B1 C1]. split; [|exact B1|exact C1]. rewrite A1. reflexivity.
Qed.

(** Other blocks keep their contents when a buffer is given to block [n]. *)
Lemma content_set_buf s l b bf bf' n m :
  bcache_inv s l -> bcache_inv (set_buf b bf' s) l -> k_bufs s !! b = Some bf ->
  (is_block m bf -> m <> n -> b_data bf = disk_block s m) -> is_block n bf' -> m <> n ->
  content (set_buf b bf' s) m = content s m.
Proof.
  intros Hi Hi' Hb Hbf Hn Hne. pose proof (lookup_lt_Some _ _ _ Hb) as Hlt.
  assert (~ is_block m bf') as Hnm by (intros (_ & E & _); destruct Hn as (_ & E' & _); congruence).
  unfold content at 2. destruct (list_find (is_block m) (k_bufs s)) as [[j bj]|] eqn:E.
  - apply list_find_Some in E as (Hj & Hp & _). destruct (decide (j = b)) as [->|Hjb].
    + simplify_eq. rewrite (Hbf Hp Hne), content_disk; [reflexivity|]. intros k bk. unfold set_buf. ksimp.
      destruct (decide (k = b)) as [->|Hkb]; [rewrite list_lookup_insert_eq by auto; by intros [= <-]|].
      rewrite list_lookup_insert_ne by auto. intros Hk Hmk. apply Hkb. destruct Hp as (? & ? & _), Hmk as (? & ? & _).
      eapply (bi_uniq _ _ Hi); eauto. congruence.
    + apply (content_buf _ l j bj); [exact Hi'| |exact Hp]. unfold set_buf. ksimp. by rewrite list_lookup_insert_ne.
  - apply list_find_None in E. rewrite Forall_forall in E. rewrite content_disk; [reflexivity|].
    intros j bj. unfold set_buf. ksimp. destruct (decide (j = b)) as [->|Hjb].
    + rewrite list_lookup_insert_eq by auto. by intros [= <-].
    + rewrite list_lookup_insert_ne by auto. intros Hj. apply E. by eapply list_elem_of_lookup_2.
Qed.

(** Locking one more buffer. *)
Lemma cache_take i pid pins lks s s' b bf bf' n l :
  cache i pid pins lks s -> bcache_inv (set_buf b bf' s) l -> wakes (set_buf b bf' s) s' ->
  k_bufs s !! b = Some bf -> b ∉ lks.*1 -> is_block n bf' -> b_lock bf' = mkSleeplock true pid ->
  b_refcnt bf' = (if decide (n ∈ pins) then 1 else 0) + 1 ->
  (forall m, is_block m bf -> m ∈ pins -> m = n) ->
  cache i pid pins ((b, n) :: lks) s'.
Proof.
  intros [Ci Cr Cn Cf Cl Ck Cp] Hi [Wr Wp Wl] Hb Hnb Hbl Hlk Href Hpin. pose proof (lookup_lt_Some _ _ _ Hb) as Hlt.
  assert (k_bufs s' = <[b := bf']> (k_bufs s)) as Hbufs by (rewrite Wr; reflexivity).
  assert (forall j bj, k_bufs s' !! j = Some bj -> j = b /\ bj = bf' \/ j <> b /\ k_bufs s !! j = Some bj) as Hlook.
  { intros j bj. rewrite Hbufs. destruct (decide (j = b)) as [->|].
    - rewrite list_lookup_insert_eq by auto. intros [= <-]. auto.
    - rewrite list_lookup_insert_ne by auto. auto. }
  split.
  - exists l. eapply bcache_inv_frame; [exact Hi|by rewrite Wr..].
  - eapply wakes_running; [by split|]. eapply running_frame; [exact Cr|reflexivity..].
  - by constructor.
  - intros j bj Hj. cbn [fmap list_fmap]. destruct (Hlook j bj Hj) as [[-> ->]|[Hne Hj']].
    + rewrite (decide_True (P := b ∈ _)) by (by left). rewrite Href. destruct Hbl as (Hd & Hn & _).
      rewrite Hd, Hn. repeat case_decide; try tauto; lia.
    + rewrite (Cf j bj Hj'). f_equal. rewrite (decide_ext (j ∈ lks.*1) (j ∈ (b, n).1 :: lks.*1)); [reflexivity|].
      rewrite elem_of_cons. simpl. tauto.
  - intros j bj Hj. cbn [fmap list_fmap]. rewrite elem_of_cons. cbn [fst]. destruct (Hlook j bj Hj) as [[-> ->]|[Hne Hj']]; [auto|].
    destruct (Cl j bj Hj') as [[? ?]|[? ?]]; [left; auto|right; split; [auto|tauto]].
  - intros j m Hj. rewrite Hbufs. apply elem_of_cons in Hj as [[= -> ->]|Hj].
    + exists bf'. rewrite list_lookup_insert_eq by auto. auto.
    + destruct (Ck j m Hj) as (bj & Ej & Hm). exists bj. split; [|exact Hm]. rewrite list_lookup_insert_ne; [exact Ej|].
      intros ->. apply Hnb. apply list_elem_of_fmap. by exists (j, m).
  - intros m Hm. rewrite Hbufs. destruct (Cp m Hm) as (j & bj & Ej & Hmj). destruct (decide (j = b)) as [->|Hne].
    + simplify_eq. exists b, bf'. rewrite list_lookup_insert_eq by auto. split; [reflexivity|].
      by rewrite (Hpin m Hmj Hm).
    + exists j, bj. by rewrite list_lookup_insert_ne.
Qed.

Lemma bread_valid s b n i pid l (Q : nat -> kernel -> Prop) bf1 :
  bcache_inv (set_buf b bf1 s) l -> running i pid s -> (b < length (k_bufs s))%nat -> b_blockno bf1 = n ->
  (forall bf' s', bf' = (if b_valid bf1 then bf1 else with_b_valid true (with_b_data (disk_block s n) bf1)) ->
     wakes (set_buf b bf' s) s' -> Q b s') ->
  wp (bf <- buf_at b ;;
      when (negb (b_valid bf)) (virtio_disk_rw b false ;;; upd_buf b (with_b_valid true)) ;;;
      ret b) Q (set_buf b bf1 s).
Proof.
  intros Hi Hr Hb Hn HQ. unfold buf_at. do 2 wp_step.
  assert (k_bufs (set_buf b bf1 s) !!! b = bf1) as Hbf by (unfold set_buf; ksimp; by apply list_lookup_total_insert_eq).
  rewrite Hbf. destruct (b_valid bf1) eqn:E; cbn [negb]; wp_steps.
  { eapply HQ; [reflexivity|]. apply wakes_refl. }
  apply (disk_read i pid); [eapply running_frame; [exact Hr|reflexivity..]|unfold set_buf; ksimp; by rewrite length_insert|].
  intros s1 Hw. unfold upd_buf. wp_steps. eapply HQ; [reflexivity|]. revert Hw.
  rewrite Hbf, Hn. unfold set_buf. ksimp. erewrite alter_insert by (apply list_lookup_insert_eq; exact Hb).
  rewrite list_insert_insert_eq. intros [Wr Wp Wl]. split; ksimp; [|exact Wp|exact Wl].
  rewrite Wr. ksimp. erewrite alter_insert by (apply list_lookup_insert_eq; exact Hb). rewrite list_insert_insert_eq. reflexivity.
Qed.

(** The chosen buffer, before the block is read, is a legal state of the cache. *)
Lemma bget_state i pid pins lks s l n b bf1 :
  cache i pid pins lks s -> bcache_inv s l -> n ∉ lks.*2 ->
  bget_hit s n pid b bf1 \/ bget_miss s l n pid b bf1 ->
  exists bf, k_bufs s !! b = Some bf /\ bcache_inv (set_buf b bf1 s) l /\ b ∉ lks.*1 /\
    b_dev bf1 = ROOTDEV /\ b_blockno bf1 = n /\ b_lock bf1 = mkSleeplock true pid /\
    b_refcnt bf1 = (if decide (n ∈ pins) then 1 else 0) + 1 /\
    b_prev bf1 = b_prev bf /\ b_next bf1 = b_next bf /\
    (forall m, is_block m bf -> m ∈ pins -> m = n) /\
    (forall m, is_block m bf -> m <> n -> b_data bf = disk_block s m) /\
    (b_valid bf1 = true -> b_data bf1 = content s n) /\ (b_valid bf1 = false -> content s n = disk_block s n).
Proof.
  intros Hc Hi Hn [(bf & Hb & Hd & Hbn & ->)|(Hmiss & bf & l1 & l2 & Hb & Hz & _ & _ & ->)]; exists bf.
  - assert (b ∉ lks.*1) as Hnl.
    { intros Hin. apply list_elem_of_fmap in Hin as ([b' m] & -> & Hin). simpl in *.
      destruct (ca_lks _ _ _ _ _ Hc _ _ Hin) as (bf' & Hb' & Hd' & Hm & _). simplify_eq. apply Hn.
      apply list_elem_of_fmap. by exists (b', b_blockno bf). }
    pose proof (ca_ref _ _ _ _ _ Hc _ _ Hb) as Hr. rewrite (decide_False (P := b ∈ _)) in Hr by auto.
    assert (b_refcnt bf = if decide (n ∈ pins) then 1 else 0) as Hr' by (rewrite Hr; repeat case_decide; try tauto; simplify_eq; tauto).
    pose proof (bi_buf _ _ Hi _ _ Hb) as [O1 O2 O3 O4]. split_and!; auto.
    + eapply set_buf_inv; eauto.
      * split; simpl; auto; repeat case_decide; lia.
      * simpl. intros j bj Hj Ej Hdj _ E. apply Hj. eapply (bi_uniq _ _ Hi); eauto.
    + simpl. rewrite Hr'. reflexivity.
    + intros m (_ & ? & _). congruence.
    + intros m (_ & ? & _). congruence.
    + simpl. intros Hv. symmetry. eapply content_buf; eauto. by split.
    + simpl. intros Hv. apply content_disk. intros j bj Hj (? & ? & ?).
      assert (j = b) as -> by (eapply (bi_uniq _ _ Hi); eauto; congruence). congruence.
  - pose proof (ca_ref _ _ _ _ _ Hc _ _ Hb) as Hr. rewrite Hz in Hr. pose proof (bi_buf _ _ Hi _ _ Hb) as [O1 O2 O3 O4].
    assert (b ∉ lks.*1) as Hnl by (repeat case_decide; try lia; auto).
    assert (forall m, is_block m bf -> m ∈ pins -> m = n) as Hpm.
    { intros m (? & <- & _) Hp. repeat case_decide; tauto || lia. }
    assert (n ∉ pins) as Hnp.
    { intros Hp. destruct (ca_pins _ _ _ _ _ Hc _ Hp) as (j & bj & Hj & ? & ? & _). by eapply Hmiss. }
    split_and!; auto.
    + eapply set_buf_inv; eauto; [split; simpl; auto; lia|]. simpl. intros j bj _ Ej Hdj _ E. by eapply Hmiss.
    + simpl. by rewrite decide_False.
    + intros m (? & <- & ?) _. auto.
    + discriminate.
    + intros _. apply content_disk. intros j bj Hj (? & ? & _). by eapply Hmiss.
Qed.

Lemma bread_spec i pid pins lks s n (Q : nat -> kernel -> Prop) :
  cache i pid pins lks s -> n ∉ lks.*2 -> (length pins + length lks < HEAD)%nat ->
  (forall b s', cache i pid pins ((b, n) :: lks) s' -> b ∉ lks.*1 -> (forall m, content s' m = content s m) ->
     bio_frame s s' -> Q b s') ->
  wp (bread ROOTDEV n) Q s.
Proof.
  intros Hc Hn Hlen HQ. destruct (ca_inv _ _ _ _ _ Hc) as [l Hi]. pose proof (ca_run _ _ _ _ _ Hc) as Hr.
  unfold bread. wp_step. apply (bget_spec i pid s l n); [exact Hi|exact Hr|by eapply cache_available|].
  intros b bf1 Hget. destruct (bget_state _ _ _ _ _ _ _ _ _ Hc Hi Hn Hget)
    as (bf & Hb & Hi1 & Hnl & Hd & Hbn & Hlk & Href & Hpv & Hnx & Hpin & Hold & Hv & Hnv).
  pose proof (lookup_lt_Some _ _ _ Hb) as Hlt.
  apply (bread_valid s b n i pid l); [exact Hi1|exact Hr|exact Hlt|exact Hbn|]. intros bf' s' Hbf' Hw.
  assert (bcache_inv (set_buf b bf' s) l /\ is_block n bf' /\ b_lock bf' = b_lock bf1 /\ b_refcnt bf' = b_refcnt bf1 /\
    b_data bf' = content s n) as (Hi' & Hbl & Hlk' & Href' & Hdata).
  { subst bf'. destruct (b_valid bf1) eqn:E; [split_and!; auto; by split|]. split_and!; auto; [|by split|simpl; by rewrite Hnv].
    eapply set_buf_inv; eauto.
    - pose proof (bi_buf _ _ Hi1 b bf1) as Ho. unfold set_buf in Ho. revert Ho. ksimp. rewrite list_lookup_insert_eq by auto.
      intros Ho. destruct (Ho eq_refl). split; simpl; auto; [by eapply disk_block_length|].
      intros Hz. rewrite Href in Hz. case_decide; lia.
    - simpl. intros j bj Hj Ej Hdj _ Ebn. apply Hj. apply (bi_uniq _ _ Hi1 j b bj bf1); auto.
      + unfold set_buf. ksimp. by rewrite list_lookup_insert_ne.
      + unfold set_buf. ksimp. by rewrite list_lookup_insert_eq. }
  apply HQ; [| exact Hnl| |].
  - eapply cache_take; eauto; congruence.
  - intros m. rewrite (content_frame (set_buf b bf' s) s') by (by rewrite (wk_rest _ _ Hw)).
    destruct (decide (m = n)) as [->|Hne].
    + rewrite (content_buf _ l b bf'); auto. unfold set_buf. ksimp. by apply list_lookup_insert_eq.
    + eapply content_set_buf; eauto.
  - apply (bio_frame_of (k_bhead s) (<[b := bf']> (k_bufs s))). exact Hw.
Qed.

(** A locked buffer holds the contents of its block. *)
Lemma cache_data i pid pins lks s b n :
  cache i pid pins lks s -> (b, n) ∈ lks ->
  exists bf, k_bufs s !! b = Some bf /\ is_block n bf /\ b_data bf = content s n /\ 1 <= b_refcnt bf /\
    b_lock bf = mkSleeplock true pid.
Proof.
  intros Hc Hin. destruct (ca_inv _ _ _ _ _ Hc) as [l Hi]. destruct (ca_lks _ _ _ _ _ Hc _ _ Hin) as (bf & Hb & Hbl).
  assert (b ∈ lks.*1) as Hb1 by (apply list_elem_of_fmap; by exists (b, n)).
  exists bf. split_and!; auto.
  - symmetry. eapply content_buf; eauto.
  - rewrite (ca_ref _ _ _ _ _ Hc _ _ Hb), (decide_True (P := b ∈ _)) by auto. case_decide; lia.
  - destruct (ca_lock _ _ _ _ _ Hc _ _ Hb) as [[? _]|[_ ?]]; [auto|done].
Qed.

Lemma holding_buf i pid pins lks s b n (Q : bool -> kernel -> Prop) :
  cache i pid pins lks s -> (b, n) ∈ lks -> Q true s -> wp (holdingsleep (SLbuf b)) Q s.
Proof.
  intros Hc Hin HQ. destruct (cache_data _ _ _ _ _ _ _ Hc Hin) as (bf & Hb & _ & _ & _ & Hlk).
  apply (holdingsleep_spec i pid); [apply Hc|]. unfold sl_get. rewrite (list_lookup_total_correct _ _ _ Hb), Hlk.
  cbn [sl_locked sl_pid andb]. by rewrite Z.eqb_refl.
Qed.

(** Buffers, locks and processes apart, [s'] is [s]: the cache is as it was. *)
Lemma cache_frame i pid pins lks s s' l :
  cache i pid pins lks s -> bcache_inv s' l -> running i pid s' -> k_bufs s' = k_bufs s -> cache i pid pins lks s'.
Proof. intros [Ci Cr Cn Cf Cl Ck Cp] Hi Hr E. split; rewrite ?E; eauto. Qed.

Lemma bwrite_spec i pid pins lks s b n (Q : unit -> kernel -> Prop) :
  cache i pid pins lks s -> (b, n) ∈ lks ->
  (forall s', cache i pid pins lks s' -> (forall m, content s' m = content s m) ->
     wakes (with_k_disk (<[n := content s n]> (k_disk s)) (with_k_writes ((n, content s n) :: k_writes s) s)) s' -> Q tt s') ->
  wp (bwrite b) Q s.
Proof.
  intros Hc Hin HQ. unfold bwrite. wp_step. apply (holding_buf i pid pins lks s b n); [exact Hc|exact Hin|]. cbn [negb].
  destruct (cache_data _ _ _ _ _ _ _ Hc Hin) as (bf & Hb & Hbl & Hd & Hrc & _). destruct (ca_inv _ _ _ _ _ Hc) as [l Hi].
  apply (disk_write i pid); [apply Hc|by eapply lookup_lt_Some|]. intros s' bn d. unfold bn, d.
  rewrite (list_lookup_total_correct _ _ _ Hb), Hd. destruct Hbl as (Hdev & Hbn & Hval). rewrite Hbn. intros Hw.
  pose proof (wk_rest _ _ Hw) as Hs'.
  assert (bcache_inv s' l) as Hi'.
  { destruct Hi as [A B C D E F]. rewrite Hs'. split; ksimp; auto.
    - intros j bj Hj. destruct (E j bj Hj) as [O1 O2 O3 O4]. split; auto. intros Hz Hv Hdj. rewrite O4 by auto.
      unfold disk_block. ksimp. rewrite lookup_insert_ne; [reflexivity|]. intros E'.
      assert (j = b) as -> by (eapply D; eauto; congruence). simplify_eq. lia.
    - intros m dm. destruct (decide (m = n)) as [->|].
      + rewrite lookup_insert_eq. intros [= <-]. rewrite <- Hd. apply (bo_data _ _ (E b bf Hb)).
      + rewrite lookup_insert_ne by auto. apply F. }
  apply HQ; [| |exact Hw].
  - eapply cache_frame; [exact Hc|exact Hi'| |by rewrite Hs'].
    eapply wakes_running; [exact Hw|]. eapply running_frame; [apply Hc|reflexivity..].
  - intros m. destruct (decide (m = n)) as [->|Hne].
    + rewrite (content_buf s' l b bf); [exact Hd|exact Hi'|by rewrite Hs'|by split].
    + unfold content, disk_block. rewrite Hs'. ksimp. by rewrite lookup_insert_ne by auto.
Qed.

(** Storing into the data of a locked buffer. *)
Lemma upd_data_spec i pid pins lks s b n (g : list Z -> list Z) (Q : unit -> kernel -> Prop) :
  cache i pid pins lks s -> (b, n) ∈ lks -> length (g (content s n)) = Z.to_nat BSIZE ->
  (forall s', cache i pid pins lks s' -> content s' n = g (content s n) ->
     (forall m, m <> n -> content s' m = content s m) -> bio_frame s s' -> Q tt s') ->
  wp (upd_buf b (fun bf => with_b_data (g (b_data bf)) bf)) Q s.
Proof.
  intros Hc Hin Hlen HQ. destruct (cache_data _ _ _ _ _ _ _ Hc Hin) as (bf & Hb & Hbl & Hd & Hrc & Hlk).
  destruct (ca_inv _ _ _ _ _ Hc) as [l Hi]. pose proof (lookup_lt_Some _ _ _ Hb) as Hlt.
  unfold upd_buf. wp_steps. rewrite (alter_insert _ _ _ _ Hb). set (bf' := with_b_data _ bf).
  assert (is_block n bf') as Hbl' by exact Hbl.
  assert (bcache_inv (set_buf b bf' s) l) as Hi'.
  { eapply set_buf_inv; eauto.
    - destruct (bi_buf _ _ Hi _ _ Hb). split; auto; [simpl; by rewrite Hd|]. simpl. lia.
    - intros j bj Hj Ej Hdj Hdb E. apply Hj. eapply (bi_uniq _ _ Hi); eauto. }
  change (Q tt (set_buf b bf' s)).
  assert (forall j bj, k_bufs (set_buf b bf' s) !! j = Some bj -> exists bj0, k_bufs s !! j = Some bj0 /\
    bj = if decide (j = b) then with_b_data (g (b_data bj0)) bj0 else bj0) as Hlook.
  { unfold set_buf. ksimp. intros j bj. destruct (decide (j = b)) as [->|].
    - rewrite list_lookup_insert_eq by auto. intros [= <-]. eauto.
    - rewrite list_lookup_insert_ne by auto. eauto. }
  assert (forall j bj, k_bufs s !! j = Some bj -> exists bj', k_bufs (set_buf b bf' s) !! j = Some bj' /\
    forall m, is_block m bj -> is_block m bj') as Hback.
  { unfold set_buf. ksimp. intros j bj Hj. destruct (decide (j = b)) as [->|].
    - simplify_eq. exists bf'. rewrite list_lookup_insert_eq by auto. auto.
    - exists bj. rewrite list_lookup_insert_ne by auto. auto. }
  apply HQ.
  - destruct Hc as [Ci Cr Cn Cf Cl Ck Cp]. split; [by exists l|by eapply running_frame; [exact Cr|..]|exact Cn| | | |].
    + intros j bj Hj. destruct (Hlook j bj Hj) as (bj0 & Hj0 & ->). pose proof (Cf j bj0 Hj0) as Hf.
      destruct (decide (j = b)); exact Hf.
    + intros j bj Hj. destruct (Hlook j bj Hj) as (bj0 & Hj0 & ->). pose proof (Cl j bj0 Hj0) as Hf.
      destruct (decide (j = b)); exact Hf.
    + intros j m Hj. destruct (Ck j m Hj) as (bj & Ej & Hm). destruct (Hback j bj Ej) as (bj' & Ej' & Hm'). eauto.
    + intros m Hm. destruct (Cp m Hm) as (j & bj & Ej & Hmj). destruct (Hback j bj Ej) as (bj' & Ej' & Hm'). eauto.
  - rewrite (content_buf _ l b bf'); [simpl; by rewrite Hd|exact Hi'| |exact Hbl']. unfold set_buf. ksimp. by apply list_lookup_insert_eq.
  - intros m Hm. eapply content_set_buf; eauto. intros Hmb. destruct Hmb as (_ & ? & _), Hbl as (_ & ? & _). congruence.
  - apply wakes_refl.
Qed.
End specs.
