(* ===== verification/BioSpec.v ===== *)
(** * bio.c: releasing and pinning buffers, the initial cache, and the theorems. *)

From S2P Require Import Prelude Exec Params State Mem Sched Sleeplock Bio.

(** ** The list pointers of the state *)

(** A buffer without its place in the list. *)
Definition core (bf : buf) : buf := with_b_prev 0%nat (with_b_next 0%nat bf).

(** Only list pointers changed. *)
Definition core_frame (s s' : kernel) : Prop :=
  s' = with_k_bhead (k_bhead s') (with_k_bufs (k_bufs s') s) /\ core <$> k_bufs s' = core <$> k_bufs s.

Lemma core_frame_refl s : core_frame s s.
Proof. split; reflexivity. Qed.

Lemma core_frame_trans s1 s2 s3 : core_frame s1 s2 -> core_frame s2 s3 -> core_frame s1 s3.
Proof. intros [A1 B1] [A2 B2]. split; [rewrite A2, A1; reflexivity|congruence]. Qed.

Lemma core_frame_len s s' : core_frame s s' -> length (k_bufs s') = length (k_bufs s).
Proof. intros [_ E]. apply (f_equal length) in E. by rewrite !length_fmap in E. Qed.

Lemma core_alter (f : buf -> buf) (b : nat) (l : list buf) : (forall bf, core (f bf) = core bf) -> core <$> alter f b l = core <$> l.
Proof.
  intros Hf. apply list_eq. intros j. rewrite !list_lookup_fmap. destruct (decide (j = b)) as [->|].
  - rewrite list_lookup_alter_eq. destruct (l !! b); simpl; [by rewrite Hf|reflexivity].
  - by rewrite list_lookup_alter_ne.
Qed.

Lemma set_nxt_core b v s : core_frame s (set_nxt b v s).
Proof. unfold set_nxt. case_decide; split; ksimp; try reflexivity. by apply core_alter. Qed.

Lemma set_prv_core b v s : core_frame s (set_prv b v s).
Proof. unfold set_prv. case_decide; split; ksimp; try reflexivity. by apply core_alter. Qed.

Section ptrs.
Context (s : kernel) (b v : nat).
Hypothesis Hlen : length (k_bufs s) = HEAD.
Hypothesis Hb : (b <= HEAD)%nat.

Lemma alter_total (f : buf -> buf) x : (b < length (k_bufs s))%nat ->
  alter f b (k_bufs s) !!! x = if decide (x = b) then f (k_bufs s !!! b) else k_bufs s !!! x.
Proof.
  intros Hlt. case_decide as D.
  - subst. apply list_lookup_total_correct. rewrite list_lookup_alter_eq, list_lookup_lookup_total_lt; auto.
  - rewrite !list_lookup_total_alt, list_lookup_alter_ne; auto.
Qed.

Lemma nxt_set_nxt x : nxt (set_nxt b v s) x = upd (nxt s) b v x.
Proof.
  unfold nxt, set_nxt, upd. destruct (decide (b = HEAD)) as [->|Hne]; ksimp.
  - by repeat case_decide.
  - rewrite alter_total by lia. repeat case_decide; congruence || reflexivity.
Qed.

Lemma prv_set_nxt x : prv (set_nxt b v s) x = prv s x.
Proof.
  unfold prv, set_nxt. destruct (decide (b = HEAD)) as [->|Hne]; ksimp; [reflexivity|].
  rewrite alter_total by lia. repeat case_decide; subst; reflexivity.
Qed.

Lemma prv_set_prv x : prv (set_prv b v s) x = upd (prv s) b v x.
Proof.
  unfold prv, set_prv, upd. destruct (decide (b = HEAD)) as [->|Hne]; ksimp.
  - by repeat case_decide.
  - rewrite alter_total by lia. repeat case_decide; congruence || reflexivity.
Qed.

Lemma nxt_set_prv x : nxt (set_prv b v s) x = nxt s x.
Proof.
  unfold nxt, set_prv. destruct (decide (b = HEAD)) as [->|Hne]; ksimp; [reflexivity|].
  rewrite alter_total by lia. repeat case_decide; subst; reflexivity.
Qed.
End ptrs.

Lemma ring_ext n p n' p' l : (forall x, n x = n' x) -> (forall x, p x = p' x) -> ring n p l -> ring n' p' l.
Proof. intros Hn Hp [A B]. split; eapply seg_ext; [|exact A| |exact B]; auto. Qed.

(** Putting [b] at the head of the list, as binit and brelse do. *)
Definition push (b : nat) (s : kernel) : kernel :=
  let s1 := set_prv b HEAD (set_nxt b (nxt s HEAD) s) in
  set_nxt HEAD b (set_prv (nxt s1 HEAD) b s1).

(** Taking [b] out of the list. *)
Definition unlink (b : nat) (s : kernel) : kernel :=
  let s1 := set_prv (nxt s b) (prv s b) s in set_nxt (prv s1 b) (nxt s1 b) s1.

Lemma seg_in n x l y : seg n x l y -> n x ∈ l ++ [y].
Proof. destruct l; simpl; [intros ->; by left|intros [-> _]; by left]. Qed.

Lemma push_core b s : core_frame s (push b s).
Proof. unfold push. repeat (eapply core_frame_trans; [|apply set_nxt_core || apply set_prv_core]). apply core_frame_refl. Qed.

Lemma unlink_core b s : core_frame s (unlink b s).
Proof. unfold unlink. repeat (eapply core_frame_trans; [|apply set_nxt_core || apply set_prv_core]). apply core_frame_refl. Qed.

Lemma push_ring b s l :
  length (k_bufs s) = HEAD -> (b < HEAD)%nat -> (forall x, x ∈ l -> (x < HEAD)%nat) -> NoDup l -> b ∉ l ->
  ring (nxt s) (prv s) l -> ring (nxt (push b s)) (prv (push b s)) (b :: l).
Proof.
  intros Hlen Hb Hl Hnd Hbl Hr. assert (nxt s HEAD <= HEAD)%nat as Hh.
  { destruct Hr as [Hn _]. apply seg_in in Hn. apply elem_of_app in Hn as [Hn|Hn]; [apply Hl in Hn; lia|].
    apply list_elem_of_singleton in Hn. lia. }
  set (s1 := set_nxt b (nxt s HEAD) s). set (s2 := set_prv b HEAD s1).
  assert (length (k_bufs s1) = HEAD) as L1 by (rewrite (core_frame_len s s1); [exact Hlen|apply set_nxt_core]).
  assert (length (k_bufs s2) = HEAD) as L2 by (rewrite (core_frame_len s1 s2); [exact L1|apply set_prv_core]).
  assert (nxt s2 HEAD = nxt s HEAD) as E2.
  { unfold s2. rewrite nxt_set_prv by (auto; lia). unfold s1. rewrite nxt_set_nxt by (auto; lia). unfold upd.
    rewrite decide_False; [reflexivity|lia]. }
  unfold push. fold s1. fold s2. rewrite E2.
  assert (length (k_bufs (set_prv (nxt s HEAD) b s2)) = HEAD) as L3 by (rewrite (core_frame_len s2); [exact L2|apply set_prv_core]).
  eapply ring_ext; [| |apply (ring_insert (nxt s) (prv s) l b)]; [| | | |exact Hr].
  - intros x. rewrite nxt_set_nxt by (auto; lia). unfold upd at 1 3. case_decide; [reflexivity|].
    rewrite nxt_set_prv by auto. unfold s2. rewrite nxt_set_prv by (auto; lia). unfold s1. by rewrite nxt_set_nxt by (auto; lia).
  - intros x. rewrite prv_set_nxt by (auto; lia). rewrite prv_set_prv by auto. unfold upd at 1 3. case_decide; [reflexivity|].
    unfold s2. rewrite prv_set_prv by (auto; lia). unfold upd. case_decide; [reflexivity|]. unfold s1. by rewrite prv_set_nxt by (auto; lia).
  - apply NoDup_cons. split; [|exact Hnd]. intros Hin. apply Hl in Hin. lia.
  - apply not_elem_of_cons. split; [lia|exact Hbl].
Qed.

Lemma unlink_ring b s l1 l2 :
  length (k_bufs s) = HEAD -> (forall x, x ∈ l1 ++ b :: l2 -> (x < HEAD)%nat) -> NoDup (l1 ++ b :: l2) ->
  ring (nxt s) (prv s) (l1 ++ b :: l2) -> ring (nxt (unlink b s)) (prv (unlink b s)) (l1 ++ l2).
Proof.
  intros Hlen Hl Hnd Hr. destruct Hr as [Hn Hp].
  assert (nxt s b <= HEAD)%nat as Hnb.
  { apply seg_app in Hn as [_ Hn]. apply seg_in in Hn. apply elem_of_app in Hn as [Hn|Hn].
    - specialize (Hl (nxt s b)). rewrite elem_of_app, elem_of_cons in Hl. specialize (Hl ltac:(auto)). lia.
    - apply list_elem_of_singleton in Hn. lia. }
  assert (prv s b <= HEAD)%nat as Hpb.
  { rewrite rev_app_distr in Hp. cbn [rev] in Hp. rewrite <- app_assoc in Hp. cbn [app] in Hp.
    apply seg_app in Hp as [_ Hp]. apply seg_in in Hp. apply elem_of_app in Hp as [Hp|Hp].
    - rewrite list_elem_of_In, <- in_rev, <- list_elem_of_In in Hp.
      specialize (Hl (prv s b)). rewrite elem_of_app in Hl. specialize (Hl ltac:(auto)). lia.
    - apply list_elem_of_singleton in Hp. lia. }
  set (s1 := set_prv (nxt s b) (prv s b) s).
  assert (length (k_bufs s1) = HEAD) as L1 by (rewrite (core_frame_len s s1); [exact Hlen|apply set_prv_core]).
  assert (nxt s1 b = nxt s b) as E1 by (unfold s1; by rewrite nxt_set_prv).
  assert (prv s1 b = prv s b) as E2 by (unfold s1; rewrite prv_set_prv by auto; unfold upd; by case_decide).
  unfold unlink. fold s1. rewrite E1, E2.
  eapply ring_ext; [| |apply (ring_remove (nxt s) (prv s) l1 b l2)]; [| | |by split].
  - intros x. rewrite nxt_set_nxt by auto. unfold upd. case_decide; [reflexivity|]. unfold s1. by rewrite nxt_set_prv.
  - intros x. rewrite prv_set_nxt by auto. unfold s1. by rewrite prv_set_prv.
  - apply NoDup_cons. split; [|exact Hnd]. intros Hin. apply Hl in Hin. lia.
Qed.

(** ** The invariant when only the list changed *)

Lemma core_inv bf bf' : core bf = core bf' -> bf = with_b_prev (b_prev bf) (with_b_next (b_next bf) bf').
Proof. destruct bf, bf'. unfold core. cbn. intros E. injection E. intros. subst. reflexivity. Qed.

Lemma core_lookup s s' j bf : core_frame s s' -> k_bufs s' !! j = Some bf ->
  exists bf0, k_bufs s !! j = Some bf0 /\ bf = with_b_prev (b_prev bf) (with_b_next (b_next bf) bf0).
Proof.
  intros [_ E] Hj. apply (f_equal (fun l => l !! j)) in E. rewrite !list_lookup_fmap, Hj in E.
  destruct (k_bufs s !! j) as [bf0|] eqn:E0; [|done]. exists bf0. split; [reflexivity|]. apply core_inv. exact (Some_inj _ _ E).
Qed.

Lemma core_lookup_back s s' j bf : core_frame s s' -> k_bufs s !! j = Some bf ->
  exists bf', k_bufs s' !! j = Some bf' /\ bf' = with_b_prev (b_prev bf') (with_b_next (b_next bf') bf).
Proof.
  intros [_ E] Hj. apply (f_equal (fun l => l !! j)) in E. rewrite !list_lookup_fmap, Hj in E.
  destruct (k_bufs s' !! j) as [bf'|] eqn:E0; [|done]. exists bf'. split; [reflexivity|]. apply core_inv. exact (Some_inj _ _ E).
Qed.

Lemma relink_inv s s' l l' :
  bcache_inv s l -> core_frame s s' -> l' ≡ₚ l -> ring (nxt s') (prv s') l' -> bcache_inv s' l'.
Proof.
  intros [A B C D E F] Hf Hp Hr. assert (k_disk s' = k_disk s) as Hd by (rewrite (proj1 Hf); reflexivity). split.
  - by rewrite (core_frame_len _ _ Hf).
  - by rewrite Hp.
  - exact Hr.
  - intros i j bi bj Hi Hj. apply (core_lookup s) in Hi as (bi0 & Hi & ->); [|exact Hf].
    apply (core_lookup s) in Hj as (bj0 & Hj & ->); [|exact Hf]. simpl. eauto.
  - intros i bi Hi. apply (core_lookup s) in Hi as (bi0 & Hi & ->); [|exact Hf]. destruct (E _ _ Hi) as [O1 O2 O3 O4].
    split; simpl; auto. unfold disk_block. rewrite Hd. auto.
  - rewrite Hd. exact F.
Qed.

Lemma relink_content s s' l l' n :
  bcache_inv s l -> bcache_inv s' l' -> core_frame s s' -> content s' n = content s n.
Proof.
  intros Hi Hi' Hf. unfold content at 2. destruct (list_find (is_block n) (k_bufs s)) as [[j bj]|] eqn:E.
  - apply list_find_Some in E as (Hj & Hp & _). destruct (core_lookup_back s s' j bj Hf Hj) as (bj' & Hj' & Eq).
    rewrite (content_buf s' l' j bj'); [by rewrite Eq|exact Hi'|exact Hj'|by rewrite Eq].
  - apply list_find_None in E. rewrite Forall_forall in E. rewrite content_disk.
    + unfold disk_block. rewrite (proj1 Hf). reflexivity.
    + intros j bj Hj. apply (core_lookup s) in Hj as (bj0 & Hj & ->); [|exact Hf]. intros Hb. apply (E bj0); [|exact Hb].
      by eapply list_elem_of_lookup_2.
Qed.

Section release.
Context `{DiskOk} `{Waits}.

(** One reference less. *)
Definition drop_ref (bf : buf) : buf := with_b_refcnt (b_refcnt bf - 1) (with_b_lock (mkSleeplock false 0) bf).

(** The buffer goes back: its lock is free, one reference less, and the block's
    contents must survive if that was the last one. *)
Lemma drop_cache i pid pins lks1 lks2 s b n bf l :
  cache i pid pins (lks1 ++ (b, n) :: lks2) s -> bcache_inv s l -> k_bufs s !! b = Some bf ->
  n ∈ pins \/ content s n = disk_block s n ->
  bcache_inv (set_buf b (drop_ref bf) s) l /\ cache i pid pins (lks1 ++ lks2) (set_buf b (drop_ref bf) s) /\
  (forall m, content (set_buf b (drop_ref bf) s) m = content s m).
Proof.
  intros Hc Hi Hb Hclean. assert ((b, n) ∈ lks1 ++ (b, n) :: lks2) as Hin by set_solver.
  destruct (cache_data _ _ _ _ _ _ _ Hc Hin) as (bf0 & Hb0 & Hbl & Hd & Hrc & Hlk). simplify_eq.
  pose proof (ca_nodup _ _ _ _ _ Hc) as Hnd. rewrite fmap_app, fmap_cons in Hnd.
  assert (b ∉ (lks1 ++ lks2).*1) as Hnb.
  { rewrite fmap_app. apply NoDup_app in Hnd as (_ & N1 & N2). apply NoDup_cons in N2 as [N2 _].
    rewrite elem_of_app. intros [N|N]; [|done]. specialize (N1 _ N). set_solver. }
  assert (forall x, x <> b -> x ∈ (lks1 ++ (b, n) :: lks2).*1 <-> x ∈ (lks1 ++ lks2).*1) as Hx.
  { intros x Hne. rewrite !fmap_app, fmap_cons, !elem_of_app, elem_of_cons. simpl. tauto. }
  pose proof (ca_ref _ _ _ _ _ Hc _ _ Hb) as Href. rewrite (decide_True (P := b ∈ _)) in Href.
  2: { apply list_elem_of_fmap. by exists (b, n). }
  pose proof (lookup_lt_Some _ _ _ Hb) as Hlt. pose proof (bi_buf _ _ Hi _ _ Hb) as [O1 O2 O3 O4].
  assert (bcache_inv (set_buf b (drop_ref bf) s) l) as Hi'.
  { eapply set_buf_inv; eauto.
    - split; simpl; auto; [lia|]. intros Hz _ _. rewrite Hd. destruct Hbl as (Hbd & Hbn & _). rewrite Hbn.
      destruct Hclean as [Hp|Hcl]; [|exact Hcl]. exfalso. rewrite Hbn, (decide_True (P := _ /\ _)) in Href by auto. lia.
    - intros j bj Hj Ej Hdj Hdb E. apply Hj. eapply (bi_uniq _ _ Hi); eauto. }
  assert (forall j bj, k_bufs (set_buf b (drop_ref bf) s) !! j = Some bj ->
    j = b /\ bj = drop_ref bf \/ j <> b /\ k_bufs s !! j = Some bj) as Hlook.
  { unfold set_buf. ksimp. intros j bj. destruct (decide (j = b)) as [->|].
    - rewrite list_lookup_insert_eq by auto. intros [= <-]. auto.
    - rewrite list_lookup_insert_ne by auto. auto. }
  assert (forall j bj m, k_bufs s !! j = Some bj -> is_block m bj ->
    exists bj', k_bufs (set_buf b (drop_ref bf) s) !! j = Some bj' /\ is_block m bj') as Hback.
  { unfold set_buf. ksimp. intros j bj m Hj Hm. destruct (decide (j = b)) as [->|].
    - simplify_eq. exists (drop_ref bf). rewrite list_lookup_insert_eq by auto. auto.
    - exists bj. rewrite list_lookup_insert_ne by auto. auto. }
  split; [exact Hi'|]. split.
  - destruct Hc as [Ci Cr Cn Cf Cl Ck Cp]. split; [by exists l|eapply running_frame; [exact Cr|reflexivity..]| | | | |].
    + rewrite fmap_app. apply NoDup_app in Hnd as (N0 & N1 & N2). apply NoDup_cons in N2 as [N2 N3].
      apply NoDup_app. split_and!; auto. intros x Hx1 Hx2. apply (N1 x Hx1). by right.
    + intros j bj Hj. destruct (Hlook j bj Hj) as [[-> ->]|[Hne Hj']].
      * rewrite (decide_False (P := b ∈ _)) by auto. simpl. lia.
      * rewrite (Cf j bj Hj'). f_equal. by rewrite (decide_ext _ _ _ _ (Hx j Hne)).
    + intros j bj Hj. destruct (Hlook j bj Hj) as [[-> ->]|[Hne Hj']]; [right; auto|].
      rewrite <- (Hx j Hne). auto.
    + intros j m Hj. destruct (Ck j m) as (bj & Ej & Hm); [set_solver|]. eauto.
    + intros m Hm. destruct (Cp m Hm) as (j & bj & Ej & Hmj). destruct (Hback j bj m Ej Hmj) as (bj' & ? & ?). eauto.
  - intros m. destruct (decide (m = n)) as [->|Hne].
    + rewrite (content_buf _ l b (drop_ref bf)); [exact Hd|exact Hi'| |exact Hbl]. unfold set_buf. ksimp. by apply list_lookup_insert_eq.
    + eapply content_set_buf; [exact Hi|exact Hi'|exact Hb| |exact Hbl|exact Hne].
      intros (_ & E & _). destruct Hbl as (_ & E' & _). congruence.
Qed.

Lemma set_nxt_held L b v s : set_nxt b v (with_k_held L s) = with_k_held L (set_nxt b v s).
Proof. unfold set_nxt. by case_decide. Qed.

Lemma set_prv_held L b v s : set_prv b v (with_k_held L s) = with_k_held L (set_prv b v s).
Proof. unfold set_prv. by case_decide. Qed.

Lemma push_held L b s : push b (with_k_held L s) = with_k_held L (push b s).
Proof.
  unfold push. cbv zeta. change (nxt (with_k_held L s) HEAD) with (nxt s HEAD). rewrite set_nxt_held, set_prv_held.
  change (nxt (with_k_held L ?x) HEAD) with (nxt x HEAD). by rewrite set_prv_held, set_nxt_held.
Qed.

Lemma unlink_held L b s : unlink b (with_k_held L s) = with_k_held L (unlink b s).
Proof.
  unfold unlink. cbv zeta. change (nxt (with_k_held L s) b) with (nxt s b). change (prv (with_k_held L s) b) with (prv s b).
  rewrite set_prv_held. change (nxt (with_k_held L ?x) b) with (nxt x b). change (prv (with_k_held L ?x) b) with (prv x b).
  by rewrite set_nxt_held.
Qed.

(** Moving a buffer to the head keeps the cache. *)
Lemma front_cache i pid pins lks s l b :
  cache i pid pins lks s -> bcache_inv s l -> (b < HEAD)%nat ->
  let s' := push b (unlink b s) in
  cache i pid pins lks s' /\ (forall m, content s' m = content s m) /\ core_frame s s' /\
  exists l1 l2, l = l1 ++ b :: l2 /\ bcache_inv s' (b :: l1 ++ l2).
Proof.
  intros Hc Hi Hb s'. assert (b ∈ l) as Hin by (by apply (bi_elem _ _ _ Hi)).
  apply list_elem_of_split in Hin as (l1 & l2 & ->). pose proof (bi_nodup _ _ Hi) as Hnd. apply NoDup_cons in Hnd as [_ Hnd].
  assert (forall x, x ∈ l1 ++ b :: l2 -> (x < HEAD)%nat) as Hl by (intros x Hx; by apply (bi_elem _ _ _ Hi)).
  pose proof (unlink_core b s) as C1. pose proof (push_core b (unlink b s)) as C2.
  assert (core_frame s s') as Hf by (by eapply core_frame_trans).
  assert (bcache_inv s' (b :: l1 ++ l2)) as Hi'.
  { eapply relink_inv; [exact Hi|exact Hf|by rewrite Permutation_middle|]. apply push_ring.
    - rewrite (core_frame_len _ _ C1). apply Hi.
    - exact Hb.
    - intros x Hx. apply Hl. rewrite elem_of_app in *. set_solver.
    - apply (NoDup_Permutation_proper _ (b :: l1 ++ l2)) in Hnd; [|by rewrite Permutation_middle].
      by apply NoDup_cons in Hnd as [_ ?].
    - apply (NoDup_Permutation_proper _ (b :: l1 ++ l2)) in Hnd; [|by rewrite Permutation_middle].
      by apply NoDup_cons in Hnd as [? _].
    - apply unlink_ring; [apply Hi|exact Hl|exact Hnd|apply Hi]. }
  split_and!; [|intros m; by eapply relink_content|exact Hf|by exists l1, l2].
  destruct Hc as [Ci Cr Cn Cf Cl Ck Cp]. split; [by eexists| |exact Cn| | | |].
  - eapply running_frame; [exact Cr|rewrite (proj1 Hf); reflexivity..].
  - intros j bj Hj. apply (core_lookup s) in Hj as (bj0 & Hj & ->); [|exact Hf]. apply (Cf j bj0 Hj).
  - intros j bj Hj. apply (core_lookup s) in Hj as (bj0 & Hj & ->); [|exact Hf]. apply (Cl j bj0 Hj).
  - intros j m Hj. destruct (Ck j m Hj) as (bj & Ej & Hm). destruct (core_lookup_back s s' j bj Hf Ej) as (bj' & Ej' & Eq).
    exists bj'. split; [exact Ej'|by rewrite Eq].
  - intros m Hm. destruct (Cp m Hm) as (j & bj & Ej & Hmj). destruct (core_lookup_back s s' j bj Hf Ej) as (bj' & Ej' & Eq).
    exists j, bj'. split; [exact Ej'|by rewrite Eq].
Qed.

Lemma brelse_spec i pid pins lks1 lks2 s b n (Q : unit -> kernel -> Prop) :
  cache i pid pins (lks1 ++ (b, n) :: lks2) s -> n ∈ pins \/ content s n = disk_block s n ->
  (forall s', cache i pid pins (lks1 ++ lks2) s' -> (forall m, content s' m = content s m) -> bio_frame s s' -> Q tt s') ->
  wp (brelse b) Q s.
Proof.
  intros Hc Hclean HQ. assert ((b, n) ∈ lks1 ++ (b, n) :: lks2) as Hin by set_solver.
  destruct (cache_data _ _ _ _ _ _ _ Hc Hin) as (bf & Hb & Hbl & Hd & Hrc & Hlk).
  destruct (ca_inv _ _ _ _ _ Hc) as [l Hi]. destruct (drop_cache _ _ _ _ _ _ _ _ _ _ Hc Hi Hb Hclean) as (Hi1 & Hc1 & Hcont).
  pose proof (lookup_lt_Some _ _ _ Hb) as Hlt. pose proof (ca_run _ _ _ _ _ Hc) as Hr. pose proof (ru_held _ _ _ Hr) as Hh.
  pose proof (bo_ref _ _ (bi_buf _ _ Hi _ _ Hb)) as Hrr.
  unfold brelse. wp_step. apply (holding_buf i pid pins (lks1 ++ (b, n) :: lks2) s b n); [exact Hc|exact Hin|]. cbn [negb].
  wp_step. apply (releasesleep_spec i pid); [exact Hr|]. intros s1 Hw. pose proof (wk_rest _ _ Hw) as Es1.
  set (sC := with_k_procs (k_procs s1) (set_buf b (drop_ref bf) s)).
  assert (wakes (set_buf b (drop_ref bf) s) sC) as HwC.
  { destruct Hw as [W1 W2 W3]. split; [reflexivity|exact W2|exact W3]. }
  assert (cache i pid pins (lks1 ++ lks2) sC) as HcC.
  { eapply (cache_frame i pid pins (lks1 ++ lks2) (set_buf b (drop_ref bf) s)); [exact Hc1|eapply bcache_inv_frame; [exact Hi1|reflexivity..]| |reflexivity].
    eapply (wakes_running i pid (set_buf b (drop_ref bf) s)); [exact HwC|apply Hc1]. }
  assert (bcache_inv sC l) as HiC by (eapply bcache_inv_frame; [exact Hi1|reflexivity..]).
  wp_step. apply wp_acquire; [rewrite Es1; unfold sl_set; ksimp; rewrite Hh; apply not_elem_of_nil|].
  unfold upd_buf, buf_at. wp_step. wp_step.
  assert (with_k_bufs (alter (fun bf0 => with_b_refcnt (u32 (b_refcnt bf0 - 1)) bf0) b (k_bufs (with_k_held (Lbcache :: k_held s1) s1)))
    (with_k_held (Lbcache :: k_held s1) s1) = with_k_held [Lbcache] sC) as ->.
  { unfold sC, set_buf. rewrite Es1 at 2 3 4. unfold sl_set. ksimp. rewrite Hh.
    rewrite (alter_insert _ _ _ _ Hb). erewrite alter_insert by (apply list_lookup_insert_eq; exact Hlt).
    rewrite list_insert_insert_eq. cbn [b_refcnt with_b_lock]. rewrite u32_id by lia. reflexivity. }
  do 2 wp_step. change (k_bufs (with_k_held [Lbcache] sC)) with (<[b := drop_ref bf]> (k_bufs s)).
  rewrite list_lookup_total_insert_eq by auto. wp_step. apply wp_when; intros Hz.
  - wp_steps. lazymatch goal with |- wp _ _ ?x => change x with (push b (unlink b (with_k_held [Lbcache] sC))) end.
    rewrite unlink_held, push_held. assert (b < HEAD)%nat as HbH by (rewrite <- (bi_len _ _ Hi); exact Hlt).
    destruct (front_cache _ _ _ _ _ _ b HcC HiC HbH) as (Hc2 & Hcont2 & Hf & _).
    eapply wp_release; [reflexivity|apply not_elem_of_nil|]. pose proof (ru_held _ _ _ (ca_run _ _ _ _ _ Hc2)) as Hh2.
    assert (with_k_held [] (with_k_held [Lbcache] (push b (unlink b sC))) = push b (unlink b sC)) as -> by (rewrite <- Hh2; reflexivity).
    apply HQ; [exact Hc2|intros m; rewrite Hcont2, (content_frame (set_buf b (drop_ref bf) s)) by reflexivity; auto|].
    red. rewrite (proj1 Hf). destruct HwC as [W1 W2 W3]. split; [reflexivity|exact W2|exact W3].
  - eapply wp_release; [reflexivity|apply not_elem_of_nil|].
    assert (with_k_held [] (with_k_held [Lbcache] sC) = sC) as -> by (unfold sC, set_buf; rewrite <- Hh; reflexivity).
    apply HQ; [exact HcC|intros m; rewrite (content_frame (set_buf b (drop_ref bf) s)) by reflexivity; auto|exact HwC].
Qed.

(** Pinning and unpinning the block of a locked buffer. *)
Lemma repin_cache i pid pins pins' lks s b n bf :
  cache i pid pins lks s -> (b, n) ∈ lks -> k_bufs s !! b = Some bf -> (forall m, m <> n -> m ∈ pins' <-> m ∈ pins) ->
  let bf' := with_b_refcnt ((if decide (n ∈ pins') then 1 else 0) + 1) bf in
  cache i pid pins' lks (set_buf b bf' s) /\ forall m, content (set_buf b bf' s) m = content s m.
Proof.
  intros Hc Hin Hb Hp bf'. destruct (cache_data _ _ _ _ _ _ _ Hc Hin) as (bf0 & Hb0 & Hbl & Hd & Hrc & Hlk). simplify_eq.
  destruct (ca_inv _ _ _ _ _ Hc) as [l Hi]. pose proof (lookup_lt_Some _ _ _ Hb) as Hlt.
  assert (is_block n bf') as Hbl' by exact Hbl.
  assert (b ∈ lks.*1) as Hbk by (apply list_elem_of_fmap; by exists (b, n)).
  assert (bcache_inv (set_buf b bf' s) l) as Hi'.
  { eapply set_buf_inv; eauto.
    - destruct (bi_buf _ _ Hi _ _ Hb). split; simpl; auto; repeat case_decide; lia.
    - intros j bj Hj Ej Hdj Hdb E. apply Hj. eapply (bi_uniq _ _ Hi); eauto. }
  assert (forall j bj, k_bufs (set_buf b bf' s) !! j = Some bj -> j = b /\ bj = bf' \/ j <> b /\ k_bufs s !! j = Some bj) as Hlook.
  { unfold set_buf. ksimp. intros j bj. destruct (decide (j = b)) as [->|].
    - rewrite list_lookup_insert_eq by auto. intros [= <-]. auto.
    - rewrite list_lookup_insert_ne by auto. auto. }
  assert (forall j bj m, k_bufs s !! j = Some bj -> is_block m bj ->
    exists bj', k_bufs (set_buf b bf' s) !! j = Some bj' /\ is_block m bj') as Hback.
  { unfold set_buf. ksimp. intros j bj m Hj Hm. destruct (decide (j = b)) as [->|].
    - simplify_eq. exists bf'. rewrite list_lookup_insert_eq by auto. auto.
    - exists bj. rewrite list_lookup_insert_ne by auto. auto. }
  split.
  - destruct Hc as [Ci Cr Cn Cf Cl Ck Cp]. split; [by exists l|eapply running_frame; [exact Cr|reflexivity..]|exact Cn| | | |].
    + intros j bj Hj. destruct (Hlook j bj Hj) as [[-> ->]|[Hne Hj']].
      * rewrite (decide_True (P := b ∈ _)) by auto. destruct Hbl as (E1 & E2 & _). simpl. rewrite E1, E2.
        repeat case_decide; tauto || lia.
      * rewrite (Cf j bj Hj'). f_equal. rewrite (decide_ext (b_dev bj = ROOTDEV /\ b_blockno bj ∈ pins)
          (b_dev bj = ROOTDEV /\ b_blockno bj ∈ pins')); [reflexivity|].
        split; intros [E1 E2]; (split; [exact E1|]); apply Hp; try exact E2; intros E3; apply Hne;
          destruct Hbl as (? & ? & _); eapply (bi_uniq _ _ Hi); eauto; congruence.
    + intros j bj Hj. destruct (Hlook j bj Hj) as [[-> ->]|[Hne Hj']]; [left; auto|]. auto.
    + intros j m Hj. destruct (Ck j m Hj) as (bj & Ej & Hm). eauto.
    + intros m Hm. destruct (decide (m = n)) as [->|Hne]; [exists b, bf'; unfold set_buf; ksimp; by rewrite list_lookup_insert_eq by auto|].
      destruct (Cp m) as (j & bj & Ej & Hmj); [by apply Hp|]. destruct (Hback j bj m Ej Hmj) as (bj' & ? & ?). eauto.
  - intros m. destruct (decide (m = n)) as [->|Hne].
    + rewrite (content_buf _ l b bf'); [exact Hd|exact Hi'| |exact Hbl']. unfold set_buf. ksimp. by apply list_lookup_insert_eq.
    + eapply content_set_buf; [exact Hi|exact Hi'|exact Hb| |exact Hbl'|exact Hne].
      intros (_ & E & _). destruct Hbl as (_ & E' & _). congruence.
Qed.

Lemma ref_update s b bf r (Q : unit -> kernel -> Prop) (f : Z -> Z) :
  Lbcache ∉ k_held s -> k_bufs s !! b = Some bf -> u32 (f (b_refcnt bf)) = r -> Q tt (set_buf b (with_b_refcnt r bf) s) ->
  wp (acquire Lbcache ;;; upd_buf b (fun bf => with_b_refcnt (u32 (f (b_refcnt bf))) bf) ;;; release Lbcache) Q s.
Proof.
  intros Hh Hb Hr HQ. wp_step. apply wp_acquire; [exact Hh|]. unfold upd_buf. wp_steps.
  eapply wp_release; [reflexivity|exact Hh|]. ksimp. rewrite (alter_insert _ _ _ _ Hb), Hr. exact HQ.
Qed.

(** No spinlock is held by a process that uses the cache. *)
Lemma cache_no_lock i pid pins lks s lk : cache i pid pins lks s -> lk ∉ k_held s.
Proof. intros Hc. rewrite (ru_held _ _ _ (ca_run _ _ _ _ _ Hc)). apply not_elem_of_nil. Qed.

Lemma bpin_spec i pid pins lks s b n (Q : unit -> kernel -> Prop) :
  cache i pid pins lks s -> (b, n) ∈ lks -> n ∉ pins ->
  (forall s', cache i pid (n :: pins) lks s' -> (forall m, content s' m = content s m) -> bio_frame s s' -> Q tt s') ->
  wp (bpin b) Q s.
Proof.
  intros Hc Hin Hn HQ. destruct (cache_data _ _ _ _ _ _ _ Hc Hin) as (bf & Hb & Hbl & _).
  destruct (repin_cache i pid pins (n :: pins) lks s b n bf Hc Hin Hb) as [Hc' Hcont].
  { intros m Hm. rewrite elem_of_cons. tauto. }
  apply (ref_update s b bf 2 Q (fun r => r + 1)); [by eapply cache_no_lock|exact Hb| |].
  - rewrite (ca_ref _ _ _ _ _ Hc _ _ Hb). destruct Hbl as (E1 & E2 & _). rewrite E1, E2.
    rewrite (decide_False (P := _ /\ _)), (decide_True (P := b ∈ _)); [reflexivity| |tauto].
    apply list_elem_of_fmap. by exists (b, n).
  - rewrite decide_True in Hc', Hcont by (by left). apply HQ; [exact Hc'|exact Hcont|apply wakes_refl].
Qed.

Lemma bunpin_spec i pid pins lks s b n (Q : unit -> kernel -> Prop) :
  cache i pid pins lks s -> (b, n) ∈ lks -> n ∈ pins ->
  (forall s', cache i pid (filter (fun m => m <> n) pins) lks s' -> (forall m, content s' m = content s m) ->
     bio_frame s s' -> Q tt s') ->
  wp (bunpin b) Q s.
Proof.
  intros Hc Hin Hn HQ. destruct (cache_data _ _ _ _ _ _ _ Hc Hin) as (bf & Hb & Hbl & _).
  destruct (repin_cache i pid pins (filter (fun m => m <> n) pins) lks s b n bf Hc Hin Hb) as [Hc' Hcont].
  { intros m Hm. rewrite list_elem_of_filter. tauto. }
  apply (ref_update s b bf 1 Q (fun r => r - 1)); [by eapply cache_no_lock|exact Hb| |].
  - rewrite (ca_ref _ _ _ _ _ Hc _ _ Hb). destruct Hbl as (E1 & E2 & _). rewrite E1, E2.
    rewrite (decide_True (P := _ /\ _)), (decide_True (P := b ∈ _)); [reflexivity| |tauto].
    apply list_elem_of_fmap. by exists (b, n).
  - rewrite decide_False in Hc', Hcont by (rewrite list_elem_of_filter; tauto). apply HQ; [exact Hc'|exact Hcont|apply wakes_refl].
Qed.
End release.

(** ** binit *)

Definition unlocked : sleeplock := mkSleeplock false 0.

Lemma alter_comm (f g : buf -> buf) (i j : nat) (l : list buf) :
  (forall bf, f (g bf) = g (f bf)) -> alter f i (alter g j l) = alter g j (alter f i l).
Proof.
  intros Hfg. apply list_eq. intros x. rewrite !list_lookup_alter.
  repeat case_decide; subst; try done; destruct (l !! _); simpl; rewrite ?Hfg; reflexivity.
Qed.

Lemma lock_set_prv b x y s : sl_set (SLbuf b) unlocked (set_prv x y s) = set_prv x y (sl_set (SLbuf b) unlocked s).
Proof. unfold set_prv, sl_set. case_decide; ksimp; [reflexivity|]. by rewrite alter_comm. Qed.

Lemma lock_set_nxt b x y s : sl_set (SLbuf b) unlocked (set_nxt x y s) = set_nxt x y (sl_set (SLbuf b) unlocked s).
Proof. unfold set_nxt, sl_set. case_decide; ksimp; [reflexivity|]. by rewrite alter_comm. Qed.

Lemma lock_lookup b (s : kernel) j : k_bufs (sl_set (SLbuf b) unlocked s) !! j =
  (fun bf => if decide (j = b) then with_b_lock unlocked bf else bf) <$> k_bufs s !! j.
Proof.
  unfold sl_set. ksimp. destruct (decide (j = b)) as [->|].
  - rewrite list_lookup_alter_eq. by destruct (k_bufs s !! b).
  - rewrite list_lookup_alter_ne by auto. by destruct (k_bufs s !! j).
Qed.

Lemma lock_ptrs b s x : nxt (sl_set (SLbuf b) unlocked s) x = nxt s x /\ prv (sl_set (SLbuf b) unlocked s) x = prv s x.
Proof.
  unfold nxt, prv. rewrite !list_lookup_total_alt, !lock_lookup. destruct (k_bufs s !! x); simpl; repeat case_decide; auto.
Qed.

(** One iteration of binit's loop. *)
Lemma binit_step a s :
  length (k_bufs s) = HEAD -> (a < HEAD)%nat ->
  let s1 := sl_set (SLbuf a) unlocked (set_prv a HEAD (set_nxt a (nxt s HEAD) s)) in
  set_nxt HEAD a (set_prv (nxt s1 HEAD) a s1) = push a (sl_set (SLbuf a) unlocked s).
Proof.
  intros Hlen Ha s1. unfold s1. rewrite lock_set_prv, lock_set_nxt. unfold push. cbv zeta.
  by rewrite (proj1 (lock_ptrs a s HEAD)).
Qed.

(** binit's loop: the buffers 0..k-1 are in the list, the last one first. *)
Lemma binit_loop k : forall a s,
  length (k_bufs s) = HEAD -> (a + k <= HEAD)%nat -> ring (nxt s) (prv s) (rev (seq 0 a)) ->
  wp (forM (seq a k) (fun b =>
    n <- gets (fun s => nxt s HEAD) ;;
    modify (set_nxt b n) ;;;
    modify (set_prv b HEAD) ;;;
    initsleeplock (SLbuf b) ;;;
    n <- gets (fun s => nxt s HEAD) ;;
    modify (set_prv n b) ;;;
    modify (set_nxt HEAD b)))
  (fun _ s' => ring (nxt s') (prv s') (rev (seq 0 (a + k))) /\ length (k_bufs s') = HEAD /\
     s' = with_k_bhead (k_bhead s') (with_k_bufs (k_bufs s') s) /\
     forall j bf, k_bufs s' !! j = Some bf -> exists bf0, k_bufs s !! j = Some bf0 /\
       core bf = core (if decide (a <= j < a + k)%nat then with_b_lock unlocked bf0 else bf0)) s.
Proof.
  induction k as [|k IH]; intros a s Hlen Ha Hr; cbn [seq forM].
  - wp_steps. rewrite Nat.add_0_r. split_and!; auto. intros j bf Hj. exists bf. rewrite decide_False by lia. auto.
  - unfold initsleeplock at 1. wp_steps. fold unlocked. rewrite binit_step by (auto; lia).
    set (s1 := sl_set (SLbuf a) unlocked s). pose proof (push_core a s1) as Hpc.
    assert (length (k_bufs s1) = HEAD) as Hlen1 by (unfold s1, sl_set; ksimp; by rewrite length_alter).
    assert (ring (nxt s1) (prv s1) (rev (seq 0 a))) as Hr1.
    { eapply ring_ext; [..|exact Hr]; intros x; symmetry; apply lock_ptrs. }
    eapply wp_mono; [apply IH|].
    + by rewrite (core_frame_len _ _ Hpc).
    + lia.
    + rewrite seq_S, rev_app_distr. apply push_ring; auto; try lia.
      * intros x. rewrite list_elem_of_In, <- in_rev, <- list_elem_of_In, elem_of_seq. lia.
      * rewrite <- Permutation_rev. apply NoDup_seq.
      * rewrite list_elem_of_In, <- in_rev, <- list_elem_of_In, elem_of_seq. lia.
    + intros _ s' (Hr' & Hlen' & Hs' & Hl'). rewrite Nat.add_succ_r, <- Nat.add_succ_l. split_and!; auto.
      * rewrite Hs', (proj1 Hpc). reflexivity.
      * intros j bf Hj. destruct (Hl' j bf Hj) as (bf1 & Hj1 & E1). destruct (core_lookup s1 _ j bf1 Hpc Hj1) as (bf2 & Hj2 & E2).
        unfold s1 in Hj2. rewrite lock_lookup in Hj2. destruct (k_bufs s !! j) as [bf0|]; [|done]. exists bf0.
        split; [reflexivity|]. simpl in Hj2. injection Hj2 as Hj2. rewrite E1, E2. subst bf2.
        destruct (decide (j = a)) as [->|Hne]; repeat case_decide; try lia; reflexivity.
Qed.

Lemma binit_spec s :
  length (k_bufs s) = HEAD ->
  (forall j bf, k_bufs s !! j = Some bf -> b_refcnt bf = 0 /\ b_dev bf = 0 /\ length (b_data bf) = Z.to_nat BSIZE) ->
  (forall n d, k_disk s !! n = Some d -> length d = Z.to_nat BSIZE) ->
  wp binit (fun _ s' => bcache_inv s' (rev (seq 0 HEAD)) /\ s' = with_k_bhead (k_bhead s') (with_k_bufs (k_bufs s') s) /\
    forall j bf, k_bufs s' !! j = Some bf -> b_lock bf = unlocked /\ b_refcnt bf = 0 /\ b_dev bf = 0) s.
Proof.
  intros Hlen Hz Hd. unfold binit. wp_steps. set (s1 := set_nxt HEAD HEAD (set_prv HEAD HEAD s)).
  assert (s1 = with_k_bhead (HEAD, HEAD) s) as Es1.
  { unfold s1, set_nxt, set_prv. by rewrite !decide_True by auto. }
  eapply wp_mono; [apply (binit_loop (Z.to_nat NBUF) 0 s1)|].
  - by rewrite Es1.
  - unfold HEAD. lia.
  - rewrite Es1. split; simpl; unfold nxt, prv; by rewrite decide_True.
  - cbn beta. change (0 + Z.to_nat NBUF)%nat with HEAD. intros _ s' (Hr & Hl & Hs' & Hb).
    rewrite Es1 in *. change (k_bufs (with_k_bhead _ s)) with (k_bufs s) in *.
    assert (forall j bf, k_bufs s' !! j = Some bf -> exists bf0, k_bufs s !! j = Some bf0 /\
      bf = with_b_prev (b_prev bf) (with_b_next (b_next bf) (with_b_lock unlocked bf0))) as Hb'.
    { intros j bf Hj. destruct (Hb j bf Hj) as (bf0 & Hj0 & E). exists bf0. split; [exact Hj0|]. apply lookup_lt_Some in Hj.
      rewrite decide_True in E by lia. by apply core_inv. }
    split; [|split; [rewrite Hs'; reflexivity|]].
    2: { intros j bf Hj. destruct (Hb' j bf Hj) as (b0 & Hj0 & ->). destruct (Hz j b0 Hj0) as (? & ? & _). auto. }
    split.
    + exact Hl.
    + by rewrite <- Permutation_rev.
    + exact Hr.
    + intros i j bi bj Hi Hj Hdi. destruct (Hb' i bi Hi) as (b0 & Hi0 & E). rewrite E in Hdi. simpl in Hdi.
      destruct (Hz i b0 Hi0) as (_ & Hd0 & _). rewrite Hd0 in Hdi. done.
    + intros j bf Hj. destruct (Hb' j bf Hj) as (b0 & Hj0 & ->). destruct (Hz j b0 Hj0) as (H1 & H2 & H3).
      split; simpl; auto; [lia|]. intros _ _ Hdv. by rewrite H2 in Hdv.
    + rewrite Hs'. exact Hd.
Qed.

(** ** Theorems *)

(** Binit() builds a cache that satisfies the invariant: every buffer is on
    the doubly-linked list exactly once (the last one first), unlocked, unused
    and without a block; nothing but the buffers and the list head changes. *)
Theorem binit_correct s :
  length (k_bufs s) = HEAD ->
  (forall j bf, k_bufs s !! j = Some bf -> b_refcnt bf = 0 /\ b_dev bf = 0 /\ length (b_data bf) = Z.to_nat BSIZE) ->
  (forall n d, k_disk s !! n = Some d -> length d = Z.to_nat BSIZE) ->
  wp binit (fun _ s' => bcache_inv s' (rev (seq 0 HEAD)) /\ s' = with_k_bhead (k_bhead s') (with_k_bufs (k_bufs s') s) /\
    forall j bf, k_bufs s' !! j = Some bf -> b_lock bf = unlocked /\ b_refcnt bf = 0 /\ b_dev bf = 0) s.
Proof. apply binit_spec. Qed.

(** Bread() returns a buffer that is locked by the caller and holds the
    contents of the block, from the cache or from the disk; it changes the
    contents of no block, not even of the one whose buffer it recycles, nor the
    disk, and when it recycles a buffer it is the least recently used unused
    one. *)
Theorem bread_correct `{DiskOk} `{Waits} i pid pins lks s l n :
  cache i pid pins lks s -> bcache_inv s l -> n ∉ lks.*2 -> (length pins + length lks < HEAD)%nat ->
  wp (bread ROOTDEV n) (fun b s' => cache i pid pins ((b, n) :: lks) s' /\
    (exists bf, k_bufs s' !! b = Some bf /\ is_block n bf /\ b_data bf = content s n /\
       b_lock bf = mkSleeplock true pid) /\
    (forall m, content s' m = content s m) /\ k_disk s' = k_disk s /\ k_writes s' = k_writes s) s /\
  wp (bget ROOTDEV n) (fun b s' =>
    (exists bf, k_bufs s !! b = Some bf /\ b_dev bf = ROOTDEV /\ b_blockno bf = n) \/
    (exists l1 l2, l = l1 ++ b :: l2 /\ b_refcnt (k_bufs s !!! b) = 0 /\
       Forall (fun x => b_refcnt (k_bufs s !!! x) <> 0) l2)) s.
Proof.
  intros Hc Hi Hn Hlen. split.
  - apply (bread_spec i pid pins lks s n); auto. intros b s' Hc' Hnb Hcont Hf. split; [exact Hc'|].
    assert ((b, n) ∈ (b, n) :: lks) as Hin by (by left).
    destruct (cache_data _ _ _ _ _ _ _ Hc' Hin) as (bf & Hb & Hbl & Hd & _ & Hlk). split_and!; auto.
    + exists bf. rewrite Hd, Hcont. auto.
    + rewrite (bio_frame_eq _ _ Hf). reflexivity.
    + rewrite (bio_frame_eq _ _ Hf). reflexivity.
  - apply (bget_spec i pid s l n); auto; [apply Hc|by eapply cache_available|]. intros b bf' [Hh|Hm].
    + destruct Hh as (bf & Hb & Hd & Hbn & _). left. eauto.
    + destruct Hm as (_ & bf & l1 & l2 & Hb & Hz & -> & Hbusy & _). right. exists l1, l2.
      rewrite (list_lookup_total_correct _ _ _ Hb). auto.
Qed.

(** Reading a block, replacing its contents, bwrite() and brelse(): the disk
    and the cache then both hold the new contents, every other block keeps its
    own, exactly one disk write happened, and the cache is as free as before. *)
Theorem block_write_through `{DiskOk} `{Waits} i pid pins s n d :
  cache i pid pins [] s -> (length pins < HEAD)%nat -> length d = Z.to_nat BSIZE ->
  wp (b <- bread ROOTDEV n ;;
      upd_buf b (with_b_data d) ;;;
      bwrite b ;;;
      brelse b) (fun _ s' => cache i pid pins [] s' /\ disk_block s' n = d /\ content s' n = d /\
    (forall m, m <> n -> content s' m = content s m /\ disk_block s' m = disk_block s m) /\
    k_writes s' = (n, d) :: k_writes s) s.
Proof.
  intros Hc Hlen Hd. wp_step. apply (bread_spec i pid pins [] s n); [exact Hc|apply not_elem_of_nil|simpl; lia|].
  intros b s1 Hc1 _ Hcont1 Hf1. wp_step.
  apply (upd_data_spec i pid pins [(b, n)] s1 b n (fun _ => d)); [exact Hc1|by left|exact Hd|].
  intros s2 Hc2 Hn2 Hcont2 Hf2. wp_step. apply (bwrite_spec i pid pins [(b, n)] s2 b n); [exact Hc2|by left|].
  intros s3 Hc3 Hcont3 Hw3. assert (disk_block s3 n = d) as Hd3.
  { rewrite (wk_rest _ _ Hw3). unfold disk_block. ksimp. rewrite lookup_insert_eq. exact Hn2. }
  apply (brelse_spec i pid pins [] [] s3 b n); [exact Hc3|right; by rewrite Hcont3, Hn2|].
  intros s4 Hc4 Hcont4 Hf4. cbn [app] in Hc4. split_and!.
  - exact Hc4.
  - unfold disk_block in *. rewrite (bio_frame_eq _ _ Hf4). exact Hd3.
  - by rewrite Hcont4, Hcont3, Hn2.
  - intros m Hm. rewrite Hcont4, Hcont3, Hcont2, Hcont1 by auto. split; [reflexivity|].
    unfold disk_block. rewrite (bio_frame_eq _ _ Hf4). ksimp. rewrite (wk_rest _ _ Hw3). ksimp. rewrite lookup_insert_ne by auto.
    rewrite (bio_frame_eq _ _ Hf2). ksimp. rewrite (bio_frame_eq _ _ Hf1). reflexivity.
  - rewrite (bio_frame_eq _ _ Hf4). ksimp. rewrite (wk_rest _ _ Hw3). ksimp. rewrite Hn2, (bio_frame_eq _ _ Hf2). ksimp. rewrite (bio_frame_eq _ _ Hf1). reflexivity.
Qed.

(** ** Witnesses: the cache that binit() builds *)

Definition bio0 : kernel := run binit (two_procs []).

Lemma zero_bufs j bf : k_bufs (two_procs []) !! j = Some bf ->
  b_refcnt bf = 0 /\ b_dev bf = 0 /\ length (b_data bf) = Z.to_nat BSIZE /\ b_lock bf = unlocked.
Proof.
  change (k_bufs (two_procs [])) with (replicate (Z.to_nat NBUF) (with_b_data (replicate (Z.to_nat BSIZE) 0) inhabitant)).
  intros Hj. apply lookup_replicate in Hj as [-> _]. split_and!; reflexivity.
Qed.

Lemma bio0_inv : bcache_inv bio0 (rev (seq 0 HEAD)) /\
  bio0 = with_k_bhead (k_bhead bio0) (with_k_bufs (k_bufs bio0) (two_procs [])) /\
  forall j bf, k_bufs bio0 !! j = Some bf -> b_lock bf = unlocked /\ b_refcnt bf = 0 /\ b_dev bf = 0.
Proof.
  unfold bio0. apply (wp_run binit (fun s' => bcache_inv s' (rev (seq 0 HEAD)) /\
    s' = with_k_bhead (k_bhead s') (with_k_bufs (k_bufs s') (two_procs [])) /\
    forall j bf, k_bufs s' !! j = Some bf -> b_lock bf = unlocked /\ b_refcnt bf = 0 /\ b_dev bf = 0)).
  apply binit_spec; [apply length_replicate| |].
  - intros j bf Hj. apply zero_bufs in Hj. tauto.
  - intros n d Hd. change (k_disk (two_procs [])) with (∅ : gmap Z (list Z)) in Hd. by rewrite lookup_empty in Hd.
Qed.

Lemma bio0_cache : cache 0 1 [] [] bio0.
Proof.
  destruct bio0_inv as (Hi & Hs & Hb). split.
  - by eexists.
  - rewrite Hs. split; [reflexivity|reflexivity|apply (bool_decide_unpack _); vm_compute; reflexivity|reflexivity].
  - constructor.
  - intros j bf Hj. destruct (Hb j bf Hj) as (_ & -> & _). rewrite decide_False by (intros [_ H]; by apply not_elem_of_nil in H).
    by rewrite decide_False by apply not_elem_of_nil.
  - intros j bf Hj. destruct (Hb j bf Hj) as (-> & _ & _). right. split; [reflexivity|apply not_elem_of_nil].
  - intros j n Hj. destruct (not_elem_of_nil _ Hj).
  - intros n Hn. destruct (not_elem_of_nil _ Hn).
Qed.

Lemma binit_correct_witness : wp binit (fun _ s' => bcache_inv s' (rev (seq 0 HEAD))) (two_procs []).
Proof.
  eapply wp_mono; [apply (binit_correct (two_procs []))|].
  - apply length_replicate.
  - intros j bf Hj. apply zero_bufs in Hj. tauto.
  - intros n d Hd. change (k_disk (two_procs [])) with (∅ : gmap Z (list Z)) in Hd. by rewrite lookup_empty in Hd.
  - cbn beta. tauto.
Defined.

Lemma bread_correct_witness :
  wp (@bread sync_disk 1%nat ROOTDEV 7) (fun b s' => cache 0 1 [] [(b, 7)] s' /\ k_disk s' = ∅) bio0.
Proof.
  assert (length (@nil Z) + length (@nil (nat * Z)) < HEAD)%nat as Hlen by (apply (bool_decide_unpack _); vm_compute; reflexivity).
  destruct (@bread_correct sync_disk sync_disk_ok 1%nat 0 1 [] [] bio0 (rev (seq 0 HEAD)) 7 bio0_cache (proj1 bio0_inv)
    (not_elem_of_nil _) Hlen) as [Hw _].
  eapply wp_mono; [exact Hw|]. cbn beta. intros b s' (Hc & _ & _ & Hd & _). split; [exact Hc|]. rewrite Hd.
  rewrite (proj1 (proj2 bio0_inv)). reflexivity.
Defined.

Lemma block_write_through_witness :
  let d := replicate (Z.to_nat BSIZE) 1 in
  wp (b <- @bread sync_disk 1%nat ROOTDEV 7 ;;
      upd_buf b (with_b_data d) ;;;
      @bwrite sync_disk b ;;;
      brelse b) (fun _ s' => disk_block s' 7 = d /\ content s' 7 = d) bio0.
Proof.
  intros d. assert (length (@nil Z) < HEAD)%nat as Hlen by (apply (bool_decide_unpack _); vm_compute; reflexivity).
  eapply wp_mono; [exact (@block_write_through sync_disk sync_disk_ok 1%nat 0 1 [] bio0 7 d bio0_cache Hlen (length_replicate _ _))|].
  cbn beta. intros u s' (_ & H1 & H2 & _). split; [exact H1|exact H2].
Defined.
