(* ===== verification/Log.v ===== *)
(** * log.c: the write-ahead log.

    The header block holds struct logheader: [n] at byte 0 and [block[i]] at
    byte 4 + 4 i, little-endian. *)

From S2P Require Import Prelude Exec Params State Mem Sched Sleeplock Bio BioSpec.

Definition upd_log (f : log -> log) : KM unit := modify (fun s => with_k_log (f (k_log s)) s).
Definition get_log : KM log := gets (fun s => k_log s).

Section log.
Context `{Disk} `{Waits}.

Definition install_trans (recovering : bool) : KM unit :=
  lg <- get_log ;;
  forM (seqZ 0 (lh_n lg)) (fun tail =>
    lbuf <- bread (l_dev lg) (u32 (l_start lg + tail + 1)) ;;
    dbuf <- bread (l_dev lg) (u32 (zget (lh_block lg) tail)) ;;
    lb <- buf_at lbuf ;;
    upd_buf dbuf (with_b_data (b_data lb)) ;;;
    bwrite dbuf ;;;
    when (negb recovering) (bunpin dbuf) ;;;
    brelse lbuf ;;;
    brelse dbuf).

Definition read_head : KM unit :=
  lg <- get_log ;;
  b <- bread (l_dev lg) (u32 (l_start lg)) ;;
  bf <- buf_at b ;;
  upd_log (with_lh_n (i32 (get32 (b_data bf) 0))) ;;;
  lg <- get_log ;;
  forM (seqZ 0 (lh_n lg)) (fun i =>
    bf <- buf_at b ;;
    upd_log (fun lg => with_lh_block (zset (lh_block lg) i (i32 (get32 (b_data bf) (4 + 4 * i)))) lg)) ;;;
  brelse b.

Definition write_head : KM unit :=
  lg <- get_log ;;
  b <- bread (l_dev lg) (u32 (l_start lg)) ;;
  upd_buf b (fun bf => with_b_data (put32 (b_data bf) 0 (lh_n lg)) bf) ;;;
  forM (seqZ 0 (lh_n lg)) (fun i =>
    upd_buf b (fun bf => with_b_data (put32 (b_data bf) (4 + 4 * i) (zget (lh_block lg) i)) bf)) ;;;
  bwrite b ;;;
  brelse b.

Definition recover_from_log : KM unit :=
  read_head ;;;
  install_trans true ;;;
  upd_log (with_lh_n 0) ;;;
  write_head.

(** sizeof(struct logheader) is 4 + 4 * LOGSIZE. *)
Definition initlog (dev : Z) (sb : superblock) : KM unit :=
  if BSIZE <=? 4 + 4 * LOGSIZE then panic "initlog: too big logheader" else
  upd_log (fun lg => with_l_dev dev (with_l_size (sb_nlog sb) (with_l_start (sb_logstart sb) lg))) ;;;
  recover_from_log.

Definition begin_op : KM unit :=
  acquire Llog ;;;
  loop (S waits) (fun _ : unit =>
    lg <- get_log ;;
    if l_committing lg then sleep Clog Llog ;;; ret (inl tt)
    else if LOGSIZE <? lh_n lg + (l_outstanding lg + 1) * MAXOPBLOCKS then sleep Clog Llog ;;; ret (inl tt)
    else
      upd_log (fun lg => with_l_outstanding (l_outstanding lg + 1) lg) ;;;
      release Llog ;;;
      ret (inr tt)) tt.

Definition write_log : KM unit :=
  lg <- get_log ;;
  forM (seqZ 0 (lh_n lg)) (fun tail =>
    to <- bread (l_dev lg) (u32 (l_start lg + tail + 1)) ;;
    from <- bread (l_dev lg) (u32 (zget (lh_block lg) tail)) ;;
    fb <- buf_at from ;;
    upd_buf to (with_b_data (b_data fb)) ;;;
    bwrite to ;;;
    brelse from ;;;
    brelse to).

Definition commit : KM unit :=
  lg <- get_log ;;
  when (0 <? lh_n lg)
    (write_log ;;;
     write_head ;;;
     install_trans false ;;;
     upd_log (with_lh_n 0) ;;;
     write_head).

Definition end_op : KM unit :=
  acquire Llog ;;;
  upd_log (fun lg => with_l_outstanding (l_outstanding lg - 1) lg) ;;;
  lg <- get_log ;;
  if l_committing lg then panic "log.committing" else
  do_commit <- (if l_outstanding lg =? 0 then upd_log (with_l_committing true) ;;; ret true
                else wakeup Clog ;;; ret false) ;;
  release Llog ;;;
  when do_commit
    (commit ;;;
     acquire Llog ;;;
     upd_log (with_l_committing false) ;;;
     wakeup Clog ;;;
     release Llog).

Definition log_write (b : nat) : KM unit :=
  acquire Llog ;;;
  lg <- get_log ;;
  if (LOGSIZE <=? lh_n lg) || (l_size lg - 1 <=? lh_n lg) then panic "too big a transaction" else
  if l_outstanding lg <? 1 then panic "log_write outside of trans" else
  bf <- buf_at b ;;
  r <- findM (seqZ 0 (lh_n lg)) (fun i =>
    ret (if u32 (zget (lh_block lg) i) =? b_blockno bf then Some i else None)) ;;
  let i := default (lh_n lg) r in
  upd_log (fun lg => with_lh_block (zset (lh_block lg) i (i32 (b_blockno bf))) lg) ;;;
  when (i =? lh_n lg)
    (bpin b ;;;
     upd_log (fun lg => with_lh_n (lh_n lg + 1) lg)) ;;;
  release Llog.
End log.
