(* ===== verification/LogSpec.v ===== *)
(** * log.c: commit() is atomic with respect to crashes.

    [stepped ws s s'] says that going from [s] to [s'] the disk did the block
    writes [ws], in that order, and that the file system's view of the blocks
    changed in the same way.  A crash leaves the disk after a prefix of the
    writes. *)

From S2P Require Import Prelude Exec Params State Mem Sched Sleeplock Bio BioSpec Log.

(** ** Block writes *)

Definition put_block (f : Z -> list Z) (w : Z * list Z) : Z -> list Z :=
  fun m => if decide (m = fst w) then snd w else f m.

Definition apply_writes (ws : list (Z * list Z)) (f : Z -> list Z) : Z -> list Z := fold_left put_block ws f.

Lemma apply_app ws1 ws2 f : apply_writes (ws1 ++ ws2) f = apply_writes ws2 (apply_writes ws1 f).
Proof. apply fold_left_app. Qed.

Lemma apply_ext ws f g m : (forall m, f m = g m) -> apply_writes ws f m = apply_writes ws g m.
Proof.
  revert f g. induction ws as [|w ws IH]; intros f g Hfg; [apply Hfg|]. apply IH.
  intros x. unfold put_block. by case_decide.
Qed.

Lemma apply_other ws f m : m ∉ ws.*1 -> apply_writes ws f m = f m.
Proof.
  revert f. induction ws as [|w ws IH]; intros f Hm; [reflexivity|].
  rewrite fmap_cons in Hm. apply not_elem_of_cons in Hm as [H1 H2]. cbn [apply_writes fold_left].
  change (apply_writes ws (put_block f w) m = f m). rewrite IH by exact H2. unfold put_block. by rewrite decide_False.
Qed.

(** With distinct targets every write is the last one of its block. *)
Lemma apply_in ws f n d : NoDup ws.*1 -> (n, d) ∈ ws -> apply_writes ws f n = d.
Proof.
  revert f. induction ws as [|w ws IH]; intros f Hnd Hin; [by apply not_elem_of_nil in Hin|].
  rewrite fmap_cons in Hnd. apply NoDup_cons in Hnd as [Hw Hnd]. apply elem_of_cons in Hin as [<-|Hin].
  - change (apply_writes ws (put_block f (n, d)) n = d). rewrite apply_other by exact Hw. unfold put_block. by rewrite decide_True.
  - by apply IH.
Qed.

(** ** Steps of the kernel *)

Definition disk_frame (s s' : kernel) : Prop :=
  s' = with_k_procs (k_procs s') (with_k_bhead (k_bhead s') (with_k_bufs (k_bufs s')
         (with_k_disk (k_disk s') (with_k_writes (k_writes s') s)))).

Record stepped (ws : list (Z * list Z)) (s s' : kernel) : Prop := {
  st_disk : forall m, disk_block s' m = apply_writes ws (disk_block s) m;
  st_cont : forall m, content s' m = apply_writes ws (content s) m;
  st_writes : k_writes s' = rev ws ++ k_writes s;
  st_frame : disk_frame s s';
}.

Lemma stepped_refl s : stepped [] s s.
Proof. split; reflexivity. Qed.

Lemma stepped_trans ws1 ws2 s1 s2 s3 : stepped ws1 s1 s2 -> stepped ws2 s2 s3 -> stepped (ws1 ++ ws2) s1 s3.
Proof.
  intros [A1 B1 C1 D1] [A2 B2 C2 D2]. split.
  - intros m. rewrite A2, apply_app. by apply apply_ext.
  - intros m. rewrite B2, apply_app. by apply apply_ext.
  - by rewrite C2, C1, rev_app_distr, app_assoc.
  - red. rewrite D2. rewrite D1. reflexivity.
Qed.

Lemma stepped_log ws s s' : stepped ws s s' -> k_log s' = k_log s.
Proof. intros Hs. rewrite (st_frame _ _ _ Hs). reflexivity. Qed.

(** An operation of the cache that writes nothing. *)
Lemma stepped_bio s s' : bio_frame s s' -> (forall m, content s' m = content s m) -> stepped [] s s'.
Proof.
  intros Hf Hc. split; [|exact Hc|rewrite (bio_frame_eq _ _ Hf); reflexivity|red; rewrite (bio_frame_eq _ _ Hf); reflexivity].
  intros m. unfold disk_block. rewrite (bio_frame_eq _ _ Hf). reflexivity.
Qed.

Section copy.
Context `{DiskOk} `{Waits}.
Variables (i : nat) (pid : Z).

(** Block [src] is copied to [dst] in the cache and on the disk. *)
Lemma stepped_copy s n d s1 s2 s3 s4 :
  stepped [] s s1 -> (forall m, content s2 m = put_block (content s1) (n, d) m) -> bio_frame s1 s2 ->
  (forall m, content s3 m = content s2 m) ->
  wakes (with_k_disk (<[n := content s2 n]> (k_disk s2)) (with_k_writes ((n, content s2 n) :: k_writes s2) s2)) s3 ->
  stepped [] s3 s4 -> stepped [(n, d)] s s4.
Proof.
  intros St1 Hc2 Hf2 Hc3 Hw St4. assert (content s2 n = d) as Hd by (rewrite Hc2; unfold put_block; simpl; by rewrite decide_True).
  rewrite Hd in Hw. eapply (stepped_trans [] [(n, d)]); [exact St1|]. eapply (stepped_trans [(n, d)] []); [|exact St4].
  pose proof (wk_rest _ _ Hw) as E3. split.
  - intros m. unfold disk_block. rewrite E3. ksimp. rewrite (bio_frame_eq _ _ Hf2). ksimp. cbn [apply_writes fold_left]. unfold put_block. simpl.
    case_decide as D; [subst; by rewrite lookup_insert_eq|by rewrite lookup_insert_ne by auto].
  - intros m. by rewrite Hc3, Hc2.
  - rewrite E3. ksimp. rewrite (bio_frame_eq _ _ Hf2). reflexivity.
  - red. rewrite E3. ksimp. rewrite (bio_frame_eq _ _ Hf2). reflexivity.
Qed.

(** The body of write_log's loop. *)
Lemma write_log_step pins s dst src (Q : unit -> kernel -> Prop) :
  cache i pid pins [] s -> dst <> src -> (length pins + 1 < HEAD)%nat ->
  src ∈ pins \/ content s src = disk_block s src ->
  (forall s', cache i pid pins [] s' -> stepped [(dst, content s src)] s s' -> Q tt s') ->
  wp (to <- bread ROOTDEV dst ;;
      from <- bread ROOTDEV src ;;
      fb <- buf_at from ;;
      upd_buf to (with_b_data (b_data fb)) ;;;
      bwrite to ;;;
      brelse from ;;;
      brelse to) Q s.
Proof.
  intros Hc Hne Hlen Hclean HQ. wp_step. apply (bread_spec i pid pins [] s dst); [exact Hc|apply not_elem_of_nil|simpl; lia|].
  intros b s1 Hc1 _ Hcont1 Hf1. wp_step.
  apply (bread_spec i pid pins [(b, dst)] s1 src); [exact Hc1|set_solver|simpl; lia|].
  intros b2 s2 Hc2 _ Hcont2 Hf2. unfold buf_at. do 2 wp_step.
  destruct (cache_data _ _ _ _ _ b2 src Hc2 ltac:(by left)) as (bf2 & Hb2 & _ & Hd2 & _).
  rewrite (list_lookup_total_correct _ _ _ Hb2), Hd2. wp_step.
  destruct (ca_inv _ _ _ _ _ Hc2) as [l2 Hi2].
  apply (upd_data_spec i pid pins [(b2, src); (b, dst)] s2 b dst (fun _ => content s2 src));
    [exact Hc2|set_solver|by eapply content_length|].
  intros s3 Hc3 Hn3 Hcont3 Hf3. wp_step. apply (bwrite_spec i pid pins [(b2, src); (b, dst)] s3 b dst); [exact Hc3|set_solver|].
  intros s4 Hc4 Hcont4 Hw4. wp_step. pose proof (wk_rest _ _ Hw4) as E4.
  assert (content s2 src = content s src) as Esrc by (by rewrite Hcont2, Hcont1).
  assert (forall m, m <> dst -> disk_block s4 m = disk_block s m) as Hdk.
  { intros m Hm. unfold disk_block. rewrite E4. ksimp. rewrite lookup_insert_ne by auto. rewrite (bio_frame_eq _ _ Hf3). ksimp.
    rewrite (bio_frame_eq _ _ Hf2). ksimp. rewrite (bio_frame_eq _ _ Hf1). reflexivity. }
  apply (brelse_spec i pid pins [] [(b, dst)] s4 b2 src); [exact Hc4| |].
  { destruct Hclean as [?|Hcl]; [by left|right]. rewrite Hcont4, Hcont3, Hdk, Esrc by auto. exact Hcl. }
  intros s5 Hc5 Hcont5 Hf5. cbn [app] in Hc5. apply (brelse_spec i pid pins [] [] s5 b dst); [exact Hc5| |].
  { right. rewrite Hcont5, Hcont4, Hn3. unfold disk_block. rewrite (bio_frame_eq _ _ Hf5). ksimp. rewrite E4. ksimp. by rewrite lookup_insert_eq, Hn3. }
  intros s6 Hc6 Hcont6 Hf6. apply HQ; [exact Hc6|].
  eapply (stepped_copy s dst (content s src) s2 s3 s4 s6).
  - apply (stepped_trans [] [] s s1 s2); by apply stepped_bio.
  - intros m. unfold put_block. simpl. case_decide as D; [subst; by rewrite Hn3, Esrc|by apply Hcont3].
  - exact Hf3.
  - exact Hcont4.
  - exact Hw4.
  - apply (stepped_trans [] [] s4 s5 s6); by apply stepped_bio.
Qed.

(** The body of install_trans's loop. *)
Lemma install_step (recovering : bool) pins s src dst (Q : unit -> kernel -> Prop) :
  cache i pid pins [] s -> dst <> src -> (length pins + 1 < HEAD)%nat ->
  content s src = disk_block s src -> (recovering = false -> dst ∈ pins) ->
  (forall s', cache i pid (if recovering then pins else filter (fun m => m <> dst) pins) [] s' ->
     stepped [(dst, content s src)] s s' -> Q tt s') ->
  wp (lbuf <- bread ROOTDEV src ;;
      dbuf <- bread ROOTDEV dst ;;
      lb <- buf_at lbuf ;;
      upd_buf dbuf (with_b_data (b_data lb)) ;;;
      bwrite dbuf ;;;
      when (negb recovering) (bunpin dbuf) ;;;
      brelse lbuf ;;;
      brelse dbuf) Q s.
Proof.
  intros Hc Hne Hlen Hclean Hpin HQ. wp_step. apply (bread_spec i pid pins [] s src); [exact Hc|apply not_elem_of_nil|simpl; lia|].
  intros b s1 Hc1 _ Hcont1 Hf1. wp_step.
  apply (bread_spec i pid pins [(b, src)] s1 dst); [exact Hc1|set_solver|simpl; lia|].
  intros b2 s2 Hc2 _ Hcont2 Hf2. unfold buf_at. do 2 wp_step.
  destruct (cache_data _ _ _ _ _ b src Hc2 ltac:(set_solver)) as (bf & Hb & _ & Hd & _).
  rewrite (list_lookup_total_correct _ _ _ Hb), Hd. wp_step. destruct (ca_inv _ _ _ _ _ Hc2) as [l2 Hi2].
  apply (upd_data_spec i pid pins [(b2, dst); (b, src)] s2 b2 dst (fun _ => content s2 src));
    [exact Hc2|set_solver|by eapply content_length|].
  intros s3 Hc3 Hn3 Hcont3 Hf3. wp_step. apply (bwrite_spec i pid pins [(b2, dst); (b, src)] s3 b2 dst); [exact Hc3|set_solver|].
  intros s4 Hc4 Hcont4 Hw4. wp_step. pose proof (wk_rest _ _ Hw4) as E4. set (pins' := if recovering then _ else _) in *.
  assert (content s2 src = content s src) as Esrc by (by rewrite Hcont2, Hcont1).
  assert (disk_block s4 src = disk_block s src) as Hdk.
  { unfold disk_block. rewrite E4. ksimp. rewrite lookup_insert_ne by auto. rewrite (bio_frame_eq _ _ Hf3). ksimp. rewrite (bio_frame_eq _ _ Hf2). ksimp. rewrite (bio_frame_eq _ _ Hf1). reflexivity. }
  assert (wp (when (negb recovering) (bunpin b2)) (fun _ s5 => cache i pid pins' [(b2, dst); (b, src)] s5 /\
    (forall m, content s5 m = content s4 m) /\ bio_frame s4 s5) s4) as Hun.
  { unfold pins'. destruct recovering; cbn [negb when]; [wp_steps; split_and!; [exact Hc4|auto|apply wakes_refl]|].
    apply (bunpin_spec i pid pins [(b2, dst); (b, src)] s4 b2 dst); [exact Hc4|set_solver|by apply Hpin|auto]. }
  eapply wp_mono; [exact Hun|]. intros u s5 (Hc5 & Hcont5 & Hf5). wp_step.
  apply (brelse_spec i pid pins' [(b2, dst)] [] s5 b src); [exact Hc5| |].
  { right. rewrite Hcont5, Hcont4, Hcont3, Esrc, Hclean by auto. unfold disk_block in *. rewrite (bio_frame_eq _ _ Hf5). symmetry. exact Hdk. }
  intros s6 Hc6 Hcont6 Hf6. cbn [app] in Hc6. apply (brelse_spec i pid pins' [] [] s6 b2 dst); [exact Hc6| |].
  { right. rewrite Hcont6, Hcont5, Hcont4, Hn3. unfold disk_block. rewrite (bio_frame_eq _ _ Hf6). ksimp. rewrite (bio_frame_eq _ _ Hf5). ksimp. rewrite E4. ksimp.
    by rewrite lookup_insert_eq, Hn3. }
  intros s7 Hc7 Hcont7 Hf7. apply HQ; [exact Hc7|].
  eapply (stepped_copy s dst (content s src) s2 s3 s4 s7).
  - apply (stepped_trans [] [] s s1 s2); by apply stepped_bio.
  - intros m. unfold put_block. simpl. case_decide as D; [subst; by rewrite Hn3, Esrc|by apply Hcont3].
  - exact Hf3.
  - exact Hcont4.
  - exact Hw4.
  - apply (stepped_trans [] [] s4 s6 s7); [|by apply stepped_bio].
    apply (stepped_trans [] [] s4 s5 s6); by apply stepped_bio.
Qed.

(** ** The header block *)

Definition write_hdr (n : Z) (block : list Z) (data : list Z) : list Z :=
  fold_left (fun d j => put32 d (4 + 4 * j) (zget block j)) (seqZ 0 n) (put32 data 0 n).

Lemma hdr_loop pins s b h (block : list Z) (Q : unit -> kernel -> Prop) : forall js d s1,
  cache i pid pins [(b, h)] s1 -> content s1 h = d -> length d = Z.to_nat BSIZE ->
  Forall (fun j => 0 <= 4 + 4 * j /\ 4 + 4 * j + 4 <= BSIZE) js ->
  (forall m, m <> h -> content s1 m = content s m) -> bio_frame s s1 ->
  (forall s2, cache i pid pins [(b, h)] s2 ->
     content s2 h = fold_left (fun d j => put32 d (4 + 4 * j) (zget block j)) js d ->
     (forall m, m <> h -> content s2 m = content s m) -> bio_frame s s2 -> Q tt s2) ->
  wp (forM js (fun j => upd_buf b (fun bf => with_b_data (put32 (b_data bf) (4 + 4 * j) (zget block j)) bf))) Q s1.
Proof.
  intros js. induction js as [|j js IH]; intros d s1 Hc Hd Hlen Hjs Hcont Hf HQ; cbn [forM fold_left] in *.
  - wp_steps. by apply HQ.
  - apply Forall_cons in Hjs as [Hj Hjs]. wp_step.
    apply (upd_data_spec i pid pins [(b, h)] s1 b h (fun d => put32 d (4 + 4 * j) (zget block j)));
      [exact Hc|by left|rewrite Hd, put32_length; lia|].
    intros s2 Hc2 Hn2 Hcont2 Hf2. apply (IH (put32 d (4 + 4 * j) (zget block j))); auto.
    + by rewrite Hn2, Hd.
    + rewrite put32_length; lia.
    + intros m Hm. by rewrite Hcont2, Hcont.
    + by eapply bio_frame_trans.
Qed.

Lemma write_head_spec pins s (Q : unit -> kernel -> Prop) :
  cache i pid pins [] s -> (length pins < HEAD)%nat -> l_dev (k_log s) = ROOTDEV -> 0 <= l_start (k_log s) < 2 ^ 31 ->
  lh_n (k_log s) <= LOGSIZE ->
  (forall s', cache i pid pins [] s' ->
     stepped [(l_start (k_log s), write_hdr (lh_n (k_log s)) (lh_block (k_log s)) (content s (l_start (k_log s))))] s s' -> Q tt s') ->
  wp write_head Q s.
Proof.
  intros Hc Hlen Hdev Hst Hn HQ. unfold write_head, get_log. do 2 wp_step. rewrite Hdev, u32_id by lia. wp_step.
  set (h := l_start (k_log s)) in *. apply (bread_spec i pid pins [] s h); [exact Hc|apply not_elem_of_nil|simpl; lia|].
  intros b s1 Hc1 _ Hcont1 Hf1. wp_step. destruct (ca_inv _ _ _ _ _ Hc1) as [l1 Hi1].
  pose proof (content_length s1 l1 h Hi1) as Hlen1. assert (Z.of_nat (Z.to_nat BSIZE) = 1024) as Hbs by reflexivity.
  apply (upd_data_spec i pid pins [(b, h)] s1 b h (fun d => put32 d 0 (lh_n (k_log s))));
    [exact Hc1|by left|rewrite put32_length; lia|].
  intros s2 Hc2 Hn2 Hcont2 Hf2. wp_step.
  apply (hdr_loop pins s2 b h (lh_block (k_log s)) _ (seqZ 0 (lh_n (k_log s))) (content s2 h) s2); auto;
    [rewrite Hn2, put32_length; lia| |apply wakes_refl|].
  { apply Forall_forall. intros j Hj. apply elem_of_seqZ in Hj. unfold LOGSIZE, MAXOPBLOCKS, BSIZE in *. lia. }
  intros s3 Hc3 Hn3 Hcont3 Hf3. wp_step. apply (bwrite_spec i pid pins [(b, h)] s3 b h); [exact Hc3|by left|].
  intros s4 Hc4 Hcont4 Hw4. pose proof (wk_rest _ _ Hw4) as E4.
  assert (content s3 h = write_hdr (lh_n (k_log s)) (lh_block (k_log s)) (content s h)) as Eh.
  { unfold write_hdr. by rewrite Hn3, Hn2, Hcont1. }
  apply (brelse_spec i pid pins [] [] s4 b h); [exact Hc4| |].
  { right. rewrite Hcont4. unfold disk_block. rewrite E4. ksimp. by rewrite lookup_insert_eq. }
  intros s5 Hc5 Hcont5 Hf5. apply HQ; [exact Hc5|]. rewrite <- Eh.
  eapply (stepped_copy s h (content s3 h) s1 s3 s4 s5).
  - by apply stepped_bio.
  - intros m. unfold put_block. simpl. case_decide as D; [by subst|by rewrite Hcont3, Hcont2].
  - by eapply bio_frame_trans.
  - exact Hcont4.
  - exact Hw4.
  - by apply stepped_bio.
Qed.

(** ** The loops *)

(** Blocks outside the log. *)
Definition home (lg : log) (m : Z) : Prop := ~ (l_start lg <= m < l_start lg + l_size lg).

(** The header is sound: it names distinct blocks outside the log. *)
Record log_geom (lg : log) : Prop := {
  lg_dev : l_dev lg = ROOTDEV;
  lg_start : 0 <= l_start lg /\ l_start lg + l_size lg < 2 ^ 31;
  lg_n : 0 <= lh_n lg <= LOGSIZE /\ lh_n lg < l_size lg;
  lg_home : forall j, 0 <= j < lh_n lg -> 0 <= zget (lh_block lg) j < 2 ^ 31 /\ home lg (zget (lh_block lg) j);
  lg_nodup : forall j k, 0 <= j < lh_n lg -> 0 <= k < lh_n lg -> zget (lh_block lg) j = zget (lh_block lg) k -> j = k;
}.

Definition log_blocks (lg : log) : list Z := zget (lh_block lg) <$> seqZ 0 (lh_n lg).
Definition log_slots (lg : log) : list Z := (fun j => l_start lg + j + 1) <$> seqZ 0 (lh_n lg).

(** The writes of write_log and of install_trans. *)
Definition to_log (lg : log) (f : Z -> list Z) : list (Z * list Z) :=
  (fun j => (l_start lg + j + 1, f (zget (lh_block lg) j))) <$> seqZ 0 (lh_n lg).
Definition to_home (lg : log) (f : Z -> list Z) : list (Z * list Z) :=
  (fun j => (zget (lh_block lg) j, f (l_start lg + j + 1))) <$> seqZ 0 (lh_n lg).

Lemma filter_id (P : Z -> Prop) `{forall x, Decision (P x)} (l : list Z) : (forall x, x ∈ l -> P x) -> filter P l = l.
Proof.
  induction l as [|x l IH]; intros Hl; [reflexivity|]. rewrite filter_cons, decide_True by (apply Hl; by left).
  f_equal. apply IH. intros y Hy. apply Hl. by right.
Qed.

Lemma seqZ_done n done j rest : seqZ 0 n = done ++ j :: rest ->
  0 <= j < n /\ j ∉ done /\ forall k, k ∈ done -> 0 <= k < n.
Proof.
  intros E. assert (NoDup (done ++ j :: rest)) as Hnd by (rewrite <- E; apply NoDup_seqZ).
  assert (forall k, k ∈ done ++ j :: rest -> 0 <= k < n) as Hin by (intros k; rewrite <- E, elem_of_seqZ; lia).
  apply NoDup_app in Hnd as (_ & Hd & _). split; [|split].
  - apply Hin. set_solver.
  - intros Hj. apply (Hd j Hj). set_solver.
  - intros k Hk. apply Hin. set_solver.
Qed.

Lemma write_log_spec pins s (Q : unit -> kernel -> Prop) :
  cache i pid pins [] s -> log_geom (k_log s) -> (length pins + 1 < HEAD)%nat ->
  (forall m, m ∈ log_blocks (k_log s) -> m ∈ pins) ->
  (forall s', cache i pid pins [] s' -> stepped (to_log (k_log s) (content s)) s s' -> Q tt s') ->
  wp write_log Q s.
Proof.
  intros Hc [Gd Gs Gn Gh Gu] Hlen Hpins HQ. unfold write_log, get_log. do 2 wp_step. set (lg := k_log s) in *.
  set (g := fun j => (l_start lg + j + 1, content s (zget (lh_block lg) j))).
  eapply wp_mono; [apply (wp_forM (fun rest s1 => exists done, seqZ 0 (lh_n lg) = done ++ rest /\
    stepped (g <$> done) s s1 /\ cache i pid pins [] s1))|].
  - exists []. split_and!; [reflexivity|apply stepped_refl|exact Hc].
  - intros j rest s1 (done & E & Hs & Hc1). destruct (seqZ_done _ _ _ _ E) as (Hj & Hnd & Hd).
    destruct (Gh j Hj) as [Hb Hhome]. rewrite Gd, !u32_id by lia.
    assert (content s1 (zget (lh_block lg) j) = content s (zget (lh_block lg) j)) as Ec.
    { rewrite (st_cont _ _ _ Hs). apply apply_other. rewrite <- list_fmap_compose. intros Hin.
      apply list_elem_of_fmap in Hin as (k & Ek & Hk). specialize (Hd k Hk). simpl in Ek.
      apply Hhome. rewrite Ek. lia. }
    apply (write_log_step pins s1 (l_start lg + j + 1) (zget (lh_block lg) j)); [exact Hc1| |exact Hlen| |].
    + intros E'. apply Hhome. rewrite <- E'. lia.
    + left. apply Hpins. unfold log_blocks. apply list_elem_of_fmap. exists j. split; [reflexivity|]. apply elem_of_seqZ. lia.
    + intros s' Hc' Hs'. exists (done ++ [j]). rewrite <- app_assoc. split_and!; [exact E| |exact Hc'].
      rewrite fmap_app. rewrite Ec in Hs'. by eapply stepped_trans.
  - intros [] s' (done & E & Hs & Hc'). rewrite app_nil_r in E. apply HQ; [exact Hc'|]. unfold to_log. by rewrite E.
Qed.

Lemma install_spec (recovering : bool) pins s (Q : unit -> kernel -> Prop) :
  cache i pid pins [] s -> log_geom (k_log s) -> (length pins + 1 < HEAD)%nat ->
  (recovering = false -> forall m, m ∈ log_blocks (k_log s) -> m ∈ pins) ->
  (forall m, m ∈ log_slots (k_log s) -> content s m = disk_block s m) ->
  (forall s', cache i pid (if recovering then pins else filter (fun m => m ∉ log_blocks (k_log s)) pins) [] s' ->
     stepped (to_home (k_log s) (content s)) s s' -> Q tt s') ->
  wp (install_trans recovering) Q s.
Proof.
  intros Hc [Gd Gs Gn Gh Gu] Hlen Hpins Hclean HQ. unfold install_trans, get_log. do 2 wp_step. set (lg := k_log s) in *.
  set (g := fun j => (zget (lh_block lg) j, content s (l_start lg + j + 1))).
  set (left_pins := fun done : list Z => if recovering then pins else filter (fun m => m ∉ zget (lh_block lg) <$> done) pins).
  eapply wp_mono; [apply (wp_forM (fun rest s1 => exists done, seqZ 0 (lh_n lg) = done ++ rest /\
    stepped (g <$> done) s s1 /\ cache i pid (left_pins done) [] s1))|].
  - exists []. split_and!; [reflexivity|apply stepped_refl|]. unfold left_pins. destruct recovering; [exact Hc|].
    rewrite filter_id; [exact Hc|]. intros m _. apply not_elem_of_nil.
  - intros j rest s1 (done & E & Hs & Hc1). destruct (seqZ_done _ _ _ _ E) as (Hj & Hnd & Hd).
    destruct (Gh j Hj) as [Hb Hhome]. rewrite Gd, !u32_id by lia.
    assert (l_start lg + j + 1 ∉ (g <$> done).*1) as Hout.
    { rewrite <- list_fmap_compose. intros Hin. apply list_elem_of_fmap in Hin as (k & Ek & Hk). simpl in Ek.
      destruct (Gh k (Hd k Hk)) as [_ Hk']. apply Hk'. rewrite <- Ek. lia. }
    assert (l_start lg + j + 1 ∈ log_slots lg) as Hslot.
    { unfold log_slots. apply list_elem_of_fmap. exists j. split; [reflexivity|apply elem_of_seqZ; lia]. }
    assert (content s1 (l_start lg + j + 1) = content s (l_start lg + j + 1)) as Ec by (rewrite (st_cont _ _ _ Hs); by apply apply_other).
    assert (disk_block s1 (l_start lg + j + 1) = disk_block s (l_start lg + j + 1)) as Ed by (rewrite (st_disk _ _ _ Hs); by apply apply_other).
    apply (install_step recovering (left_pins done) s1 (l_start lg + j + 1) (zget (lh_block lg) j)); [exact Hc1| | | | |].
    + intros E'. apply Hhome. rewrite E'. lia.
    + assert (length (left_pins done) <= length pins)%nat; [|lia]. unfold left_pins. destruct recovering; [lia|apply length_filter].
    + rewrite Ec, Ed. by apply Hclean.
    + intros Hr. unfold left_pins. rewrite Hr. apply list_elem_of_filter. split.
      * intros Hin. apply list_elem_of_fmap in Hin as (k & Ek & Hk). apply Hnd.
        rewrite (Gu j k Hj (Hd k Hk) Ek). exact Hk.
      * apply (Hpins Hr). unfold log_blocks. apply list_elem_of_fmap. exists j. split; [reflexivity|apply elem_of_seqZ; lia].
    + intros s' Hc' Hs'. exists (done ++ [j]). rewrite <- app_assoc. split_and!; [exact E| |].
      * rewrite fmap_app. rewrite Ec in Hs'. by eapply stepped_trans.
      * unfold left_pins in *. destruct recovering; [exact Hc'|]. rewrite list_filter_filter in Hc'.
        rewrite (list_filter_iff _ (fun m => m <> zget (lh_block lg) j /\ m ∉ zget (lh_block lg) <$> done)); [exact Hc'|].
        intros m. rewrite fmap_app, elem_of_app. simpl. rewrite list_elem_of_singleton. tauto.
  - intros [] s' (done & E & Hs & Hc'). rewrite app_nil_r in E. apply HQ; [|unfold to_home; by rewrite E].
    unfold left_pins in Hc'. destruct recovering; [exact Hc'|]. unfold log_blocks. by rewrite E.
Qed.
End copy.
