(* ===== verification/LogCrash.v ===== *)
(** * log.c: commit and recovery are atomic with respect to crashes.

    The disk with its log stands for a logical disk: the blocks with the
    committed but not yet installed transaction applied ([logical]).  commit()
    changes the logical disk in one step from the old blocks to the new ones,
    and recovery, which may itself be interrupted, never changes it. *)

From S2P Require Import Prelude Exec Params State Mem Sched Sleeplock Bio BioSpec Log LogSpec.

(** ** The header on the disk *)

Definition read_hdr (lg : log) (d : list Z) : log :=
  let n := i32 (get32 d 0) in
  with_lh_block (fold_left (fun blk j => zset blk j (i32 (get32 d (4 + 4 * j)))) (seqZ 0 n) (lh_block lg)) (with_lh_n n lg).

Lemma fold_zset (g : Z -> Z) : forall (js : list Z) blk k, NoDup js ->
  Forall (fun j => 0 <= j < Z.of_nat (length blk)) js -> 0 <= k ->
  length (fold_left (fun blk j => zset blk j (g j)) js blk) = length blk /\
  zget (fold_left (fun blk j => zset blk j (g j)) js blk) k = if decide (k ∈ js) then g k else zget blk k.
Proof.
  intros js. induction js as [|j js IH]; intros blk k Hnd Hjs Hk; [by rewrite decide_False by apply not_elem_of_nil|].
  apply NoDup_cons in Hnd as [Hj Hnd]. apply Forall_cons in Hjs as [Hb Hjs]. cbn [fold_left].
  destruct (IH (zset blk j (g j)) k Hnd) as [IH1 IH2]; [by rewrite zset_length|exact Hk|].
  rewrite IH1, IH2, zset_length. split; [reflexivity|]. destruct (decide (k ∈ js)) as [D|D].
  - by rewrite decide_True by (right; exact D).
  - destruct (decide (k = j)) as [->|Hne].
    + rewrite decide_True by left. apply zget_zset_eq. exact Hb.
    + rewrite decide_False by (apply not_elem_of_cons; auto). apply zget_zset_ne; lia.
Qed.

Lemma fold_put32 (g : Z -> Z) : forall (js : list Z) d, NoDup js ->
  Forall (fun j => 0 <= j /\ 4 + 4 * j + 4 <= Z.of_nat (length d)) js ->
  let d' := fold_left (fun d j => put32 d (4 + 4 * j) (g j)) js d in
  length d' = length d /\ get32 d' 0 = get32 d 0 /\
  forall k, 0 <= k -> get32 d' (4 + 4 * k) = if decide (k ∈ js) then u32 (g k) else get32 d (4 + 4 * k).
Proof.
  intros js. induction js as [|j js IH]; intros d Hnd Hjs.
  { split_and!; [reflexivity..|]. intros k _. by rewrite decide_False by apply not_elem_of_nil. }
  apply NoDup_cons in Hnd as [Hj Hnd]. apply Forall_cons in Hjs as [Hb Hjs]. cbn [fold_left].
  assert (length (put32 d (4 + 4 * j) (g j)) = length d) as El by (apply put32_length; lia).
  destruct (IH (put32 d (4 + 4 * j) (g j)) Hnd) as (IH1 & IH2 & IH3); [by rewrite El|].
  split_and!; [by rewrite IH1|rewrite IH2; apply get32_put32_ne; lia|].
  intros k Hk. rewrite IH3 by exact Hk. destruct (decide (k ∈ js)) as [D|D].
  - by rewrite decide_True by (right; exact D).
  - destruct (decide (k = j)) as [->|Hne].
    + rewrite decide_True by left. apply get32_put32_eq; lia.
    + rewrite decide_False by (apply not_elem_of_cons; auto). apply get32_put32_ne; lia.
Qed.

(** Two headers with the same contents. *)
Record same_hdr (lg lg' : log) : Prop := {
  sh_start : l_start lg' = l_start lg;
  sh_size : l_size lg' = l_size lg;
  sh_dev : l_dev lg' = l_dev lg;
  sh_n : lh_n lg' = lh_n lg;
  sh_len : length (lh_block lg') = length (lh_block lg);
  sh_block : forall j, 0 <= j < lh_n lg -> zget (lh_block lg') j = zget (lh_block lg) j;
}.

Lemma same_blocks lg lg' : same_hdr lg lg' -> log_blocks lg' = log_blocks lg.
Proof.
  intros [_ _ _ E _ B]. unfold log_blocks. rewrite E. apply list_fmap_ext. intros k j Hj.
  apply B. apply lookup_seqZ in Hj. lia.
Qed.

Lemma same_to_home lg lg' f : same_hdr lg lg' -> to_home lg' f = to_home lg f.
Proof.
  intros [Es _ _ E _ B]. unfold to_home. rewrite E, Es. apply list_fmap_ext. intros k j Hj.
  apply lookup_seqZ in Hj. by rewrite B by lia.
Qed.

Lemma same_geom lg lg' : same_hdr lg lg' -> log_geom lg -> log_geom lg'.
Proof.
  intros [Es Ez Ed E El B] [G1 G2 G3 G4 G5]. split; rewrite ?Es, ?Ez, ?Ed, ?E; auto.
  - intros j Hj. rewrite B by exact Hj. unfold home. rewrite Es, Ez. by apply G4.
  - intros j k Hj Hk. rewrite !B by auto. by apply G5.
Qed.

(** What write_head stores, read_head reads. *)
Lemma read_write_hdr lg d : log_geom lg -> length (lh_block lg) = Z.to_nat LOGSIZE -> length d = Z.to_nat BSIZE ->
  same_hdr lg (read_hdr lg (write_hdr (lh_n lg) (lh_block lg) d)).
Proof.
  intros [_ _ [Gn _] Gh _] Hl Hd. set (n := lh_n lg) in *. unfold write_hdr.
  set (d1 := put32 d 0 n). assert (length d1 = length d) as Hd1 by (apply put32_length; rewrite ?Hd; unfold BSIZE; lia).
  assert (LOGSIZE = 30 /\ BSIZE = 1024) as [HL HB] by (split; reflexivity).
  destruct (fold_put32 (zget (lh_block lg)) (seqZ 0 n) d1) as (E1 & E2 & E3).
  { apply NoDup_seqZ. } { apply Forall_forall. intros j Hj. apply elem_of_seqZ in Hj. rewrite Hd1, Hd. lia. }
  set (d' := fold_left _ _ d1) in *.
  assert (i32 (get32 d' 0) = n) as En.
  { rewrite E2. unfold d1. rewrite get32_put32_eq by lia. rewrite u32_id by lia. apply i32_id. lia. }
  assert (forall k, 0 <= k -> length (lh_block (read_hdr lg d')) = length (lh_block lg) /\
    zget (lh_block (read_hdr lg d')) k = if decide (k ∈ seqZ 0 n) then i32 (get32 d' (4 + 4 * k)) else zget (lh_block lg) k) as Hz.
  { intros k Hk. unfold read_hdr. rewrite En. apply (fold_zset (fun k => i32 (get32 d' (4 + 4 * k)))); [apply NoDup_seqZ| |exact Hk].
    apply Forall_forall. intros j Hj. apply elem_of_seqZ in Hj. lia. }
  split; try reflexivity.
  - exact En.
  - exact (proj1 (Hz 0 ltac:(lia))).
  - intros j Hj. destruct (Hz j ltac:(lia)) as [_ ->]. rewrite E3 by lia.
    assert (j ∈ seqZ 0 n) as Hin by (apply elem_of_seqZ; lia). rewrite !decide_True by exact Hin.
    destruct (Gh j Hj) as [Hb _]. rewrite u32_id by lia. apply i32_id. lia.
Qed.

Lemma read_zero_hdr lg d block : length d = Z.to_nat BSIZE -> lh_n (read_hdr lg (write_hdr 0 block d)) = 0.
Proof.
  intros Hd. unfold read_hdr, write_hdr. change (seqZ 0 0) with (@nil Z). cbn [fold_left with_lh_block with_lh_n lh_n].
  rewrite get32_put32_eq by (rewrite ?Hd; unfold BSIZE; lia). reflexivity.
Qed.

(** ** The logical disk *)

Definition logical (lg : log) (D : Z -> list Z) : Z -> list Z :=
  apply_writes (to_home (read_hdr lg (D (l_start lg))) D) D.

Lemma to_home_targets lg f : (to_home lg f).*1 = log_blocks lg.
Proof. unfold to_home, log_blocks. rewrite <- list_fmap_compose. reflexivity. Qed.

Lemma to_home_ext lg f g : (forall m, m ∈ log_slots lg -> f m = g m) -> to_home lg f = to_home lg g.
Proof.
  intros E. unfold to_home. apply list_fmap_ext. intros k j Hj. rewrite E; [reflexivity|].
  unfold log_slots. apply list_elem_of_fmap. exists j. split; [reflexivity|by eapply list_elem_of_lookup_2].
Qed.

Lemma log_blocks_elem lg m : m ∈ log_blocks lg <-> exists j, 0 <= j < lh_n lg /\ m = zget (lh_block lg) j.
Proof.
  unfold log_blocks. rewrite list_elem_of_fmap. setoid_rewrite elem_of_seqZ.
  split; intros (j & H1 & H2); exists j; split; auto; lia.
Qed.

Lemma log_blocks_home lg m : log_geom lg -> m ∈ log_blocks lg -> home lg m.
Proof. intros G (j & Hj & ->)%log_blocks_elem. apply (lg_home _ G j Hj). Qed.

Lemma log_slots_range lg m : log_geom lg -> m ∈ log_slots lg -> l_start lg < m < l_start lg + l_size lg.
Proof.
  intros G Hm. unfold log_slots in Hm. apply list_elem_of_fmap in Hm as (j & -> & Hj). apply elem_of_seqZ in Hj.
  pose proof (lg_n _ G). lia.
Qed.

Lemma log_blocks_nodup lg : log_geom lg -> NoDup (log_blocks lg).
Proof.
  intros G. unfold log_blocks. apply NoDup_fmap_2_strong; [|apply NoDup_seqZ].
  intros j k Hj Hk. apply elem_of_seqZ in Hj, Hk. apply (lg_nodup _ G); lia.
Qed.

Lemma to_home_at lg f D j : log_geom lg -> 0 <= j < lh_n lg ->
  apply_writes (to_home lg f) D (zget (lh_block lg) j) = f (l_start lg + j + 1).
Proof.
  intros G Hj. apply apply_in; [rewrite to_home_targets; by apply log_blocks_nodup|].
  unfold to_home. apply list_elem_of_fmap. exists j. split; [reflexivity|apply elem_of_seqZ; lia].
Qed.

Lemma to_home_other lg f D m : m ∉ log_blocks lg -> apply_writes (to_home lg f) D m = D m.
Proof. intros. apply apply_other. by rewrite to_home_targets. Qed.

Lemma take_targets k (ws : list (Z * list Z)) m : m ∉ ws.*1 -> m ∉ (take k ws).*1.
Proof. rewrite fmap_take. intros Hm Hin. apply Hm. by eapply elem_of_take in Hin as (j & Hj & _); eapply list_elem_of_lookup_2. Qed.

(** The logical disk depends on where the log is, not on the header in memory. *)
Lemma fold_zset_base (g : Z -> Z) : forall (js b1 b2 : list Z) k, length b1 = length b2 -> 0 <= k ->
  Forall (fun j => 0 <= j) js -> k ∈ js \/ zget b1 k = zget b2 k ->
  zget (fold_left (fun blk j => zset blk j (g j)) js b1) k = zget (fold_left (fun blk j => zset blk j (g j)) js b2) k.
Proof.
  intros js. induction js as [|j js IH]; intros b1 b2 k El Hk Hjs Hor; cbn [fold_left].
  { destruct Hor as [Hin|E]; [by apply not_elem_of_nil in Hin|exact E]. }
  apply Forall_cons in Hjs as [Hj Hjs]. apply IH; [by rewrite !zset_length|exact Hk|exact Hjs|].
  destruct (decide (k = j)) as [->|Hne].
  - right. unfold zget. rewrite !list_lookup_total_alt. unfold zset. destruct (decide (Z.to_nat j < length b1)%nat) as [Hlt|Hge].
    + rewrite !list_lookup_insert_eq by lia. reflexivity.
    + rewrite !list_insert_ge by lia. rewrite !lookup_ge_None_2 by lia. reflexivity.
  - destruct Hor as [Hin|E]; [apply elem_of_cons in Hin as [?|?]; [lia|by left]|right]. rewrite !zget_zset_ne by lia. exact E.
Qed.

Lemma logical_base lg lg2 D m : l_start lg2 = l_start lg -> length (lh_block lg2) = length (lh_block lg) ->
  logical lg2 D m = logical lg D m.
Proof.
  intros Es El. unfold logical. rewrite Es. set (d := D (l_start lg)).
  assert (to_home (read_hdr lg2 d) D = to_home (read_hdr lg d) D) as ->; [|reflexivity].
  unfold to_home. change (l_start (read_hdr lg2 d)) with (l_start lg2). change (l_start (read_hdr lg d)) with (l_start lg).
  change (lh_n (read_hdr lg2 d)) with (lh_n (read_hdr lg d)). rewrite Es. apply list_fmap_ext. intros k j Hj.
  assert (0 <= j < lh_n (read_hdr lg d)) as Hr by (apply lookup_seqZ in Hj; lia). f_equal.
  apply (fold_zset_base (fun j => i32 (get32 d (4 + 4 * j)))); [exact El|lia| |].
  - apply Forall_forall. intros x Hx. apply elem_of_seqZ in Hx. lia.
  - left. apply elem_of_seqZ. cbn in Hr. lia.
Qed.

Lemma logical_ext lg D D' m : (forall x, D x = D' x) -> logical lg D m = logical lg D' m.
Proof. intros E. unfold logical. rewrite E, (to_home_ext _ D D') by auto. by apply apply_ext. Qed.

(** Installing, interrupted anywhere, leaves the logical disk alone. *)
Lemma install_prefix lg (D : Z -> list Z) hdr k m :
  let lg' := read_hdr lg (D (l_start lg)) in
  log_geom lg' -> lh_n (read_hdr lg hdr) = 0 -> home lg m ->
  logical lg (apply_writes (take k (to_home lg' D ++ [(l_start lg, hdr)])) D) m = logical lg D m.
Proof.
  intros lg' G Hz Hm. assert (l_start lg' = l_start lg /\ l_size lg' = l_size lg) as [Es Ez] by (split; reflexivity).
  pose proof (lg_n _ G) as Gn.
  assert (l_start lg ∉ log_blocks lg') as Hst by (intros Hin%(log_blocks_home _ _ G); apply Hin; lia).
  destruct (decide (k <= length (to_home lg' D))%nat) as [Hk|Hk].
  - rewrite take_app_le by exact Hk. set (D' := apply_writes _ D).
    assert (forall x, x ∉ log_blocks lg' -> D' x = D x) as Hout.
    { intros x Hx. apply apply_other, take_targets. by rewrite to_home_targets. }
    unfold logical. rewrite (Hout _ Hst). fold lg'. destruct (decide (m ∈ log_blocks lg')) as [Hin|Hin].
    + apply log_blocks_elem in Hin as (j & Hj & ->). rewrite !to_home_at by auto. apply Hout.
      intros Hs%(log_blocks_home _ _ G). apply Hs. lia.
    + rewrite !to_home_other by auto. by apply Hout.
  - rewrite take_ge by (rewrite length_app; simpl; lia). rewrite apply_app. set (D1 := apply_writes (to_home lg' D) D).
    unfold logical. assert (apply_writes [(l_start lg, hdr)] D1 (l_start lg) = hdr) as Eh.
    { cbn. unfold put_block. simpl. by rewrite decide_True. }
    rewrite Eh. unfold to_home at 1. rewrite Hz. change (seqZ 0 0) with (@nil Z). cbn. unfold put_block. simpl.
    rewrite decide_False; [reflexivity|]. intros ->. apply Hm. lia.
Qed.

Section crash.
Variables (lg : log) (D f : Z -> list Z).
Hypothesis geom : log_geom lg.
Hypothesis len : length (lh_block lg) = Z.to_nat LOGSIZE.
Hypothesis empty : lh_n (read_hdr lg (D (l_start lg))) = 0.
Hypothesis flen : length (f (l_start lg)) = Z.to_nat BSIZE.

Definition hdr1 : list Z := write_hdr (lh_n lg) (lh_block lg) (f (l_start lg)).
Definition commit_writes : list (Z * list Z) :=
  to_log lg f ++ (l_start lg, hdr1) ::
  ((fun m => (m, f m)) <$> log_blocks lg) ++ [(l_start lg, write_hdr 0 (lh_block lg) hdr1)].

Lemma to_log_targets : (to_log lg f).*1 = log_slots lg.
Proof. unfold to_log, log_slots. rewrite <- list_fmap_compose. reflexivity. Qed.

(** Before the header is written the logical disk is the old one. *)
Lemma log_prefix k m : home lg m -> logical lg (apply_writes (take k (to_log lg f)) D) m = D m.
Proof.
  intros Hm. assert (forall x, x ∉ log_slots lg -> apply_writes (take k (to_log lg f)) D x = D x) as Hout.
  { intros x Hx. apply apply_other, take_targets. by rewrite to_log_targets. }
  unfold logical. rewrite Hout by (intros Hin%(log_slots_range _ _ geom); lia).
  unfold to_home. rewrite empty. change (seqZ 0 0) with (@nil Z). cbn. apply Hout.
  intros Hin%(log_slots_range _ _ geom). apply Hm. lia.
Qed.

Definition D2 : Z -> list Z := apply_writes [(l_start lg, hdr1)] (apply_writes (to_log lg f) D).

Lemma D2_start : D2 (l_start lg) = hdr1.
Proof. unfold D2. cbn. unfold put_block. simpl. by rewrite decide_True. Qed.

Lemma D2_other m : m <> l_start lg -> D2 m = apply_writes (to_log lg f) D m.
Proof. intros. unfold D2. cbn. unfold put_block. simpl. by rewrite decide_False. Qed.

Lemma D2_slot j : 0 <= j < lh_n lg -> D2 (l_start lg + j + 1) = f (zget (lh_block lg) j).
Proof.
  intros Hj. rewrite D2_other by lia. apply apply_in.
  - rewrite to_log_targets. unfold log_slots. apply NoDup_fmap_2_strong; [intros; lia|apply NoDup_seqZ].
  - unfold to_log. apply list_elem_of_fmap. exists j. split; [reflexivity|apply elem_of_seqZ; lia].
Qed.

Lemma D2_same : same_hdr lg (read_hdr lg (D2 (l_start lg))).
Proof. rewrite D2_start. by apply read_write_hdr. Qed.

(** After the header is written it is the new one. *)
Lemma D2_logical m : home lg m -> logical lg D2 m = if decide (m ∈ log_blocks lg) then f m else D m.
Proof.
  intros Hm. unfold logical. rewrite (same_to_home _ _ _ D2_same). pose proof (lg_n _ geom). case_decide as Hin.
  - apply log_blocks_elem in Hin as (j & Hj & ->). rewrite to_home_at by auto. by apply D2_slot.
  - rewrite to_home_other by exact Hin. rewrite D2_other by (intros ->; apply Hm; lia).
    apply apply_other. rewrite to_log_targets. intros Hs%(log_slots_range _ _ geom). apply Hm. lia.
Qed.

Lemma D2_install : to_home (read_hdr lg (D2 (l_start lg))) D2 = (fun m => (m, f m)) <$> log_blocks lg.
Proof.
  rewrite (same_to_home _ _ _ D2_same). unfold to_home, log_blocks. rewrite <- list_fmap_compose. apply list_fmap_ext.
  intros k j Hj. apply lookup_seqZ in Hj. simpl. by rewrite D2_slot by lia.
Qed.

Lemma hdr1_length : length hdr1 = Z.to_nat BSIZE.
Proof.
  unfold hdr1, write_hdr. assert (LOGSIZE = 30 /\ BSIZE = 1024) as [HL HB] by (split; reflexivity).
  assert (length (put32 (f (l_start lg)) 0 (lh_n lg)) = Z.to_nat BSIZE) as E by (rewrite put32_length; lia).
  destruct (fold_put32 (zget (lh_block lg)) (seqZ 0 (lh_n lg)) (put32 (f (l_start lg)) 0 (lh_n lg))) as [E1 _].
  - apply NoDup_seqZ.
  - apply Forall_forall. intros j Hj. apply elem_of_seqZ in Hj. pose proof (lg_n _ geom). rewrite E. lia.
  - by rewrite E1.
Qed.

(** Every prefix of the writes of a commit leaves the old or the new disk. *)
Lemma commit_prefix k :
  (forall m, home lg m -> logical lg (apply_writes (take k commit_writes) D) m = D m) \/
  (forall m, home lg m -> logical lg (apply_writes (take k commit_writes) D) m =
     if decide (m ∈ log_blocks lg) then f m else D m).
Proof.
  unfold commit_writes. destruct (decide (k <= length (to_log lg f))%nat) as [Hk|Hk].
  - left. intros m Hm. rewrite take_app_le by exact Hk. by apply log_prefix.
  - right. intros m Hm. rewrite take_app_ge by lia. destruct (k - length (to_log lg f))%nat as [|k'] eqn:Ek; [lia|].
    cbn [take]. rewrite apply_app. rewrite <- D2_install.
    change (apply_writes (?w :: ?l) ?g) with (apply_writes l (apply_writes [w] g)). fold D2.
    rewrite install_prefix; [by apply D2_logical| |by apply read_zero_hdr, hdr1_length|exact Hm].
    eapply same_geom; [exact D2_same|exact geom].
Qed.

(** The disk after the whole commit. *)
Lemma commit_final : apply_writes commit_writes D (l_start lg) = write_hdr 0 (lh_block lg) hdr1 /\
  forall m, home lg m -> apply_writes commit_writes D m = if decide (m ∈ log_blocks lg) then f m else D m.
Proof.
  assert (forall m, apply_writes commit_writes D m =
    put_block (apply_writes (to_home (read_hdr lg (D2 (l_start lg))) D2) D2) (l_start lg, write_hdr 0 (lh_block lg) hdr1) m) as E.
  { intros m. unfold commit_writes. rewrite <- D2_install, apply_app.
    change (apply_writes (?w :: ?l) ?g) with (apply_writes l (apply_writes [w] g)). fold D2. by rewrite apply_app. }
  split; [rewrite E; unfold put_block; simpl; by rewrite decide_True|].
  intros m Hm. rewrite E. unfold put_block. simpl. pose proof (lg_n _ geom).
  rewrite decide_False by (intros ->; apply Hm; lia). by rewrite <- D2_logical.
Qed.
End crash.

(** A disk with an empty log is its own logical disk, and recovery ends there. *)
Lemma recover_final lg D : let lg' := read_hdr lg (D (l_start lg)) in
  let ws := to_home lg' D ++ [(l_start lg, write_hdr 0 (lh_block lg') (D (l_start lg)))] in
  log_geom lg' -> apply_writes ws D (l_start lg) = write_hdr 0 (lh_block lg') (D (l_start lg)) /\
  forall m, home lg m -> apply_writes ws D m = logical lg D m.
Proof.
  intros lg' ws G. pose proof (lg_n _ G) as Gn. assert (l_start lg' = l_start lg /\ l_size lg' = l_size lg) as [Es Ez] by (split; reflexivity).
  unfold ws. rewrite apply_app. cbn. unfold put_block. simpl. split; [by rewrite decide_True|].
  intros m Hm. rewrite decide_False by (intros ->; apply Hm; lia). reflexivity.
Qed.

(** ** commit() and recover_from_log() *)

Lemma cache_relog i pid pins lks lg s : cache i pid pins lks s -> cache i pid pins lks (with_k_log lg s).
Proof.
  intros Hc. destruct (ca_inv _ _ _ _ _ Hc) as [l Hi]. eapply (cache_frame _ _ _ _ s); [exact Hc| | |reflexivity].
  - apply (bcache_inv_frame s); [exact Hi|reflexivity..].
  - apply (running_frame _ _ s); [exact (ca_run _ _ _ _ _ Hc)|reflexivity..].
Qed.

(** A block that is neither pinned nor locked is as on the disk. *)
Lemma cache_clean i pid pins s m : cache i pid pins [] s -> m ∉ pins -> content s m = disk_block s m.
Proof.
  intros Hc Hm. destruct (ca_inv _ _ _ _ _ Hc) as [l Hi]. unfold content.
  destruct (list_find _ _) as [[b bf]|] eqn:E; [|reflexivity]. apply list_find_Some in E as (Hb & (Hd & Hn & Hv) & _).
  rewrite <- Hn. apply (bo_clean _ _ (bi_buf _ _ Hi b bf Hb)); [|exact Hv|exact Hd].
  rewrite (ca_ref _ _ _ _ _ Hc b bf Hb), Hn. rewrite decide_False by tauto. rewrite decide_False by apply not_elem_of_nil. lia.
Qed.

Lemma stepped_relog ws lg s s' : stepped ws (with_k_log lg s) s' -> stepped ws s (with_k_log (k_log s) s').
Proof.
  intros [A B C E]. split; [exact A|exact B|exact C|]. red. rewrite E. reflexivity.
Qed.

Lemma stepped_relog2 ws lg s s' : stepped ws s s' -> stepped ws (with_k_log lg s) (with_k_log lg s').
Proof. intros [A B C E]. split; [exact A|exact B|exact C|]. red. rewrite E. reflexivity. Qed.

Section code.
Context `{DiskOk} `{Waits}.
Variables (i : nat) (pid : Z).

Lemma commit_spec pins s (Q : unit -> kernel -> Prop) :
  cache i pid pins [] s -> log_geom (k_log s) -> 0 < lh_n (k_log s) -> (length pins + 1 < HEAD)%nat ->
  (forall m, m ∈ pins <-> m ∈ log_blocks (k_log s)) -> length (lh_block (k_log s)) = Z.to_nat LOGSIZE ->
  (forall s', cache i pid [] [] s' -> k_log s' = with_lh_n 0 (k_log s) ->
     stepped (commit_writes (k_log s) (content s)) s (with_k_log (k_log s) s') -> Q tt s') ->
  wp commit Q s.
Proof.
  intros Hc G Hpos Hlen Hpins Hbl HQ. unfold commit, get_log. do 2 wp_step. rewrite (proj2 (Z.ltb_lt _ _) Hpos). cbn [when].
  set (lg := k_log s) in *. pose proof (lg_n _ G) as Gn. pose proof (lg_start _ G) as Gs.
  assert (l_start lg ∉ pins) as Hsp by (rewrite Hpins; intros Hh%(log_blocks_home _ _ G); apply Hh; lia).
  wp_step. apply (write_log_spec i pid pins s); [exact Hc|exact G|exact Hlen|apply Hpins|]. intros s1 Hc1 S1. fold lg in S1.
  assert (k_log s1 = lg) as L1 by exact (stepped_log _ _ _ S1).
  wp_step. apply (write_head_spec i pid pins s1); [exact Hc1|lia|rewrite L1; apply (lg_dev _ G)|rewrite L1; lia|rewrite L1; lia|].
  intros s2 Hc2 S2. rewrite L1 in S2.
  assert (content s1 (l_start lg) = content s (l_start lg)) as Eh.
  { rewrite (st_cont _ _ _ S1). apply apply_other. rewrite to_log_targets. intros Hh%(log_slots_range _ _ G). lia. }
  rewrite Eh in S2. change (write_hdr (lh_n lg) (lh_block lg) (content s (l_start lg))) with (hdr1 lg (content s)) in S2.
  assert (k_log s2 = lg) as L2 by (rewrite (stepped_log _ _ _ S2); exact L1).
  assert (forall m, content s2 m = D2 lg (content s) (content s) m) as E2.
  { intros m. rewrite (st_cont _ _ _ S2). apply apply_ext. intros x. apply (st_cont _ _ _ S1). }
  wp_step. apply (install_spec i pid false pins s2); rewrite ?L2; [exact Hc2|exact G|exact Hlen|intros _; apply Hpins| |].
  { intros m Hm. apply (cache_clean i pid pins); [exact Hc2|]. rewrite Hpins. intros Hh%(log_blocks_home _ _ G).
    apply Hh. apply (log_slots_range _ _ G) in Hm. lia. }
  intros s3 Hc3 S3. assert (k_log s3 = lg) as L3 by (rewrite (stepped_log _ _ _ S3); exact L2).
  assert (to_home lg (content s2) = (fun m => (m, content s m)) <$> log_blocks lg) as E3.
  { destruct (ca_inv _ _ _ _ _ Hc) as [l Hi]. rewrite <- (D2_install lg (content s) (content s)); [|exact G|exact Hbl|by eapply content_length].
    rewrite (same_to_home lg (read_hdr lg (D2 lg (content s) (content s) (l_start lg)))); [by apply to_home_ext|]. apply D2_same; [exact G|exact Hbl|by eapply content_length]. }
  rewrite E3 in S3.
  assert (filter (fun m => m ∉ log_blocks lg) pins = []) as Ef.
  { apply elem_of_nil_inv. intros m (Hn & Hm)%list_elem_of_filter. apply Hn. by apply Hpins. }
  rewrite Ef in Hc3. unfold upd_log. do 2 wp_step. rewrite L3.
  apply (write_head_spec i pid [] (with_k_log (with_lh_n 0 lg) s3)); [by apply cache_relog|simpl; unfold HEAD, NBUF, MAXOPBLOCKS; lia|exact (lg_dev _ G)|cbn; lia|cbn; lia|].
  intros s4 Hc4 S4. apply HQ; [exact Hc4|exact (stepped_log _ _ _ S4)|].
  apply stepped_relog in S4. rewrite L3 in S4. cbn [with_k_log k_log with_lh_n l_start lh_n lh_block] in S4.
  assert (content (with_k_log (with_lh_n 0 lg) s3) (l_start lg) = hdr1 lg (content s)) as E4.
  { change (content s3 (l_start lg) = hdr1 lg (content s)). rewrite (st_cont _ _ _ S3), apply_other, E2; [apply D2_start|].
    rewrite <- list_fmap_compose. intros Hin. apply list_elem_of_fmap in Hin as (m & Em & Hm). simpl in Em. subst m.
    apply Hpins in Hm. exact (Hsp Hm). }
  rewrite E4 in S4. unfold commit_writes. eapply stepped_trans; [exact S1|]. eapply (stepped_trans [_]); [exact S2|].
  eapply stepped_trans; [exact S3|exact S4].
Qed.

Lemma read_head_spec s (Q : unit -> kernel -> Prop) :
  cache i pid [] [] s -> l_dev (k_log s) = ROOTDEV -> 0 <= l_start (k_log s) < 2 ^ 32 ->
  (forall s', cache i pid [] [] s' -> k_log s' = read_hdr (k_log s) (content s (l_start (k_log s))) ->
     stepped [] s (with_k_log (k_log s) s') -> Q tt s') ->
  wp read_head Q s.
Proof.
  intros Hc Hdev Hst HQ. unfold read_head, get_log. do 2 wp_step. rewrite Hdev, u32_id by lia.
  set (h := l_start (k_log s)) in *. wp_step.
  apply (bread_spec i pid [] [] s h); [exact Hc|apply not_elem_of_nil|simpl; unfold HEAD, NBUF, MAXOPBLOCKS; lia|].
  intros b s1 Hc1 _ Hcont1 Hf1. assert (k_log s1 = k_log s) as L1 by (rewrite (bio_frame_eq _ _ Hf1); reflexivity).
  destruct (cache_data _ _ _ _ _ b h Hc1 ltac:(by left)) as (bf & Hb & _ & Hd & _). rewrite Hcont1 in Hd.
  unfold buf_at, upd_log. do 6 wp_step. cbv beta. rewrite (list_lookup_total_correct _ _ _ Hb), Hd, L1.
  set (d := content s h) in *. set (n := i32 (get32 d 0)). ksimp. cbn [lh_n with_lh_n].
  wp_step. eapply wp_mono; [apply (wp_forM (fun rest s2 => exists done, seqZ 0 n = done ++ rest /\
    s2 = with_k_log (with_lh_block (fold_left (fun blk j => zset blk j (i32 (get32 d (4 + 4 * j)))) done (lh_block (k_log s)))
           (with_lh_n n (k_log s))) s1))|].
  - exists []. split; reflexivity.
  - intros j rest s2 (done & E & ->). do 2 wp_step. ksimp. rewrite (list_lookup_total_correct _ _ _ Hb), Hd. wp_step.
    exists (done ++ [j]). rewrite <- app_assoc. split; [exact E|]. rewrite fold_left_app. reflexivity.
  - intros [] s2 (done & E & ->). rewrite app_nil_r in E. subst done.
    match goal with |- wp _ _ (with_k_log ?l _) => change l with (read_hdr (k_log s) d) end.
    apply (brelse_spec i pid [] [] [] (with_k_log (read_hdr (k_log s) d) s1) b h); [by apply cache_relog| |].
    { right. change (content s1 h = disk_block s1 h). rewrite Hcont1. unfold d. rewrite (cache_clean i pid [] s h Hc (not_elem_of_nil h)).
      unfold disk_block. rewrite (bio_frame_eq _ _ Hf1). reflexivity. }
    intros s3 Hc3 Hcont3 Hf3. apply HQ; [exact Hc3|rewrite (bio_frame_eq _ _ Hf3); reflexivity|].
    apply (stepped_trans [] [] s s1); [by apply stepped_bio|]. rewrite <- L1. apply (stepped_relog [] (read_hdr (k_log s) d)).
    by apply stepped_bio.
Qed.

Definition recover_writes (lg : log) (D : Z -> list Z) : list (Z * list Z) :=
  let lg' := read_hdr lg (D (l_start lg)) in
  to_home lg' D ++ [(l_start lg, write_hdr 0 (lh_block lg') (D (l_start lg)))].

Lemma recover_spec s (Q : unit -> kernel -> Prop) :
  cache i pid [] [] s -> log_geom (read_hdr (k_log s) (disk_block s (l_start (k_log s)))) ->
  (forall s', cache i pid [] [] s' -> k_log s' = with_lh_n 0 (read_hdr (k_log s) (disk_block s (l_start (k_log s)))) ->
     stepped (recover_writes (k_log s) (disk_block s)) s (with_k_log (k_log s) s') -> Q tt s') ->
  wp recover_from_log Q s.
Proof.
  intros Hc G HQ. assert (forall m, content s m = disk_block s m) as Hcl by (intros m; apply (cache_clean i pid [] s m Hc (not_elem_of_nil m))).
  set (lg' := read_hdr _ _) in *. pose proof (lg_n _ G) as Gn. pose proof (lg_start _ G) as Gs. pose proof (lg_dev _ G) as Gd.
  assert (l_start lg' = l_start (k_log s) /\ l_dev lg' = l_dev (k_log s)) as [Es Ed] by (split; reflexivity).
  assert (2 < HEAD)%nat as Hh by (unfold HEAD, NBUF, MAXOPBLOCKS; lia).
  unfold recover_from_log. wp_step. apply read_head_spec; [exact Hc|by rewrite <- Ed|rewrite <- Es; lia|].
  intros s1 Hc1 L1 S1. rewrite Hcl in L1. fold lg' in L1. wp_step.
  assert (forall m, content s1 m = disk_block s m) as C1 by (intros m; rewrite <- Hcl; exact (st_cont _ _ _ S1 m)).
  apply (install_spec i pid true [] s1); rewrite ?L1; [exact Hc1|exact G|simpl; lia|discriminate| |].
  { intros m _. exact (cache_clean i pid [] s1 m Hc1 (not_elem_of_nil m)). }
  intros s2 Hc2 S2. cbv iota in Hc2. rewrite (to_home_ext lg' _ (disk_block s)) in S2 by auto.
  assert (k_log s2 = lg') as L2 by (rewrite (stepped_log _ _ _ S2); exact L1).
  unfold upd_log. do 2 wp_step. rewrite L2.
  apply (write_head_spec i pid [] (with_k_log (with_lh_n 0 lg') s2)); [by apply cache_relog|simpl; lia|exact Gd|cbn; lia|cbn; lia|].
  intros s3 Hc3 S3. apply HQ; [exact Hc3|by rewrite (stepped_log _ _ _ S3)|].
  cbn [with_k_log k_log with_lh_n l_start lh_n lh_block] in S3. rewrite Es in S3.
  assert (content (with_k_log (with_lh_n 0 lg') s2) (l_start (k_log s)) = disk_block s (l_start (k_log s))) as E3.
  { change (content s2 (l_start (k_log s)) = disk_block s (l_start (k_log s))). rewrite (st_cont _ _ _ S2), apply_other; [apply C1|].
    rewrite to_home_targets. intros Hin%(log_blocks_home _ _ G). apply Hin. lia. }
  rewrite E3 in S3. unfold recover_writes. fold lg'. eapply stepped_trans; [|apply (stepped_relog2 _ _ _ _ S3)].
  eapply (stepped_trans []); [exact S1|apply (stepped_relog2 _ _ _ _ S2)].
Qed.

(** What commit() guarantees: after every prefix of its writes [ws] the
    logical disk is the old or the new one. *)
Record committed (s s' : kernel) : Prop := {
  cm_crash : exists ws, k_writes s' = rev ws ++ k_writes s /\
    forall k, let D := apply_writes (take k ws) (disk_block s) in
      (forall m, home (k_log s) m -> logical (k_log s) D m = disk_block s m) \/
      (forall m, home (k_log s) m -> logical (k_log s) D m = content s m);
  cm_disk : forall m, home (k_log s) m -> disk_block s' m = content s m;
  cm_log : k_log s' = with_lh_n 0 (k_log s);
  cm_hdr : lh_n (read_hdr (k_log s) (disk_block s' (l_start (k_log s)))) = 0;
}.

Lemma commit_outcome pins s (Q : unit -> kernel -> Prop) :
  cache i pid pins [] s -> log_geom (k_log s) -> (length pins + 1 < HEAD)%nat ->
  (forall m, m ∈ pins <-> m ∈ log_blocks (k_log s)) -> length (lh_block (k_log s)) = Z.to_nat LOGSIZE ->
  lh_n (read_hdr (k_log s) (disk_block s (l_start (k_log s)))) = 0 ->
  (forall s', committed s s' -> cache i pid [] [] s' -> Q tt s') ->
  wp commit Q s.
Proof.
  intros Hc G Hlen Hpins Hbl Hz HQ. set (lg := k_log s) in *. pose proof (lg_n _ G) as Gn.
  assert (forall m, (if decide (m ∈ log_blocks lg) then content s m else disk_block s m) = content s m) as Hnew.
  { intros m. case_decide as D; [reflexivity|]. symmetry. apply (cache_clean i pid pins); [exact Hc|by rewrite Hpins]. }
  destruct (decide (lh_n lg = 0)) as [E0|E0].
  - assert (log_blocks lg = []) as Eb by (unfold log_blocks; by rewrite E0).
    assert (pins = []) as -> by (apply elem_of_nil_inv; intros m; rewrite Hpins, Eb; apply not_elem_of_nil).
    rewrite Eb in Hnew. unfold commit, get_log. do 2 wp_step. fold lg. rewrite E0. change (0 <? 0) with false. cbn [when]. wp_steps.
    assert (forall m, disk_block s m = content s m) as Hdc by (intros m; rewrite <- Hnew; by rewrite decide_False by apply not_elem_of_nil).
    apply HQ; [|exact Hc]. split; [|intros m _; apply Hdc|by rewrite <- E0|exact Hz].
    exists []. split; [reflexivity|]. intros k. left. rewrite take_nil. intros m _. unfold logical, to_home.
    cbn [apply_writes fold_left]. fold lg. by rewrite Hz.
  - apply (commit_spec pins); [exact Hc|exact G|fold lg; lia|exact Hlen|exact Hpins|exact Hbl|]. fold lg.
    intros s' Hc' Hl' Hs'. destruct (ca_inv _ _ _ _ _ Hc) as [l Hi]. pose proof (content_length s l (l_start lg) Hi) as Hfl.
    destruct (commit_final lg (disk_block s) (content s) G Hbl Hfl) as [F1 F2].
    apply HQ; [|exact Hc']. split; [exists (commit_writes lg (content s)); split| | |].
    + exact (st_writes _ _ _ Hs').
    + intros k. destruct (commit_prefix lg (disk_block s) (content s) G Hbl Hz Hfl k) as [Ho|Hn]; [by left|right].
      intros m Hm. fold lg. rewrite Hn by exact Hm. apply Hnew.
    + intros m Hm. rewrite (st_disk _ _ _ Hs' m : disk_block s' m = _), F2 by exact Hm. apply Hnew.
    + exact Hl'.
    + fold lg. rewrite (st_disk _ _ _ Hs' _ : disk_block s' _ = _), F1. apply read_zero_hdr. by apply hdr1_length.
Qed.

(** C3: commit() is atomic.  From the moment the transaction's blocks are
    pinned in the cache and the log on the disk is empty, commit() returns, and
    after every prefix of the block writes it issues - every point at which a
    crash can happen - the logical disk is the old disk or, as a whole, the
    blocks of the cache.  When it returns every block outside the log is on the
    disk as in the cache, the log is empty in memory and on the disk, and no
    block is pinned any more. *)
Theorem commit_atomic pins s :
  cache i pid pins [] s -> log_geom (k_log s) -> (length pins + 1 < HEAD)%nat ->
  (forall m, m ∈ pins <-> m ∈ log_blocks (k_log s)) -> length (lh_block (k_log s)) = Z.to_nat LOGSIZE ->
  lh_n (read_hdr (k_log s) (disk_block s (l_start (k_log s)))) = 0 ->
  wp commit (fun _ s' => committed s s' /\ cache i pid [] [] s') s.
Proof. intros. by eapply commit_outcome; eauto. Qed.

(** C2: recovery.  From any disk whose log header is sound - the state of
    the disk after a crash at any point - recover_from_log() returns, the disk
    is then the logical disk of the crashed one, with an empty log, and a crash
    during recovery itself, after any prefix of its writes, leaves the logical
    disk unchanged, so that recovering again gives the same result. *)
Theorem recover_correct s :
  cache i pid [] [] s -> log_geom (read_hdr (k_log s) (disk_block s (l_start (k_log s)))) ->
  wp recover_from_log (fun _ s' => exists ws, k_writes s' = rev ws ++ k_writes s /\
    (forall k m, home (k_log s) m ->
       logical (k_log s) (apply_writes (take k ws) (disk_block s)) m = logical (k_log s) (disk_block s) m) /\
    (forall m, home (k_log s) m -> disk_block s' m = logical (k_log s) (disk_block s) m /\ content s' m = disk_block s' m) /\
    lh_n (k_log s') = 0 /\ lh_n (read_hdr (k_log s) (disk_block s' (l_start (k_log s)))) = 0 /\
    cache i pid [] [] s') s.
Proof.
  intros Hc G. apply recover_spec; [exact Hc|exact G|]. intros s' Hc' Hn Hs'.
  destruct (ca_inv _ _ _ _ _ Hc) as [l Hi]. destruct (recover_final (k_log s) (disk_block s) G) as [F1 F2].
  assert (forall block, lh_n (read_hdr (k_log s) (write_hdr 0 block (disk_block s (l_start (k_log s))))) = 0) as Hz.
  { intros block. apply read_zero_hdr. by eapply disk_block_length. }
  exists (recover_writes (k_log s) (disk_block s)). split_and!.
  - exact (st_writes _ _ _ Hs').
  - intros k m Hm. unfold recover_writes. by apply install_prefix.
  - intros m Hm. split; [rewrite (st_disk _ _ _ Hs' m : disk_block s' m = _); by apply F2|].
    apply (cache_clean i pid [] s' m Hc'), not_elem_of_nil.
  - by rewrite Hn.
  - rewrite (st_disk _ _ _ Hs' _ : disk_block s' _ = _). unfold recover_writes. rewrite F1. apply Hz.
  - exact Hc'.
Qed.
End code.
