(* ===== verification/LogOp.v ===== *)
(** * log.c: begin_op, log_write and end_op.

    [tx pins lks s]: the current process is inside a transaction, the log
    header in memory lists exactly the blocks [pins] that are pinned in the
    cache, and the log on the disk is empty. *)

From S2P Require Import Prelude Exec Params State Mem Sched Sleeplock Bio BioSpec Log LogSpec LogCrash.

Record tx (i : nat) (pid : Z) (pins : list Z) (lks : list (nat * Z)) (s : kernel) : Prop := {
  tx_cache : cache i pid pins lks s;
  tx_geom : log_geom (k_log s);
  tx_len : length (lh_block (k_log s)) = Z.to_nat LOGSIZE;
  tx_pins : forall m, m ∈ pins <-> m ∈ log_blocks (k_log s);
  tx_num : length pins = Z.to_nat (lh_n (k_log s));
  tx_empty : lh_n (read_hdr (k_log s) (disk_block s (l_start (k_log s)))) = 0;
  tx_open : l_committing (k_log s) = false;
}.

(** The part of the state log_write changes. *)
Definition log_frame (s s' : kernel) : Prop := s' = with_k_bufs (k_bufs s') (with_k_log (k_log s') s).

(** log_write's search for a block that is already in the transaction. *)
Lemma absorb_find (lg : log) n (s : kernel) : log_geom lg ->
  exists r, findM (seqZ 0 (lh_n lg)) (fun i => ret (if u32 (zget (lh_block lg) i) =? n then Some i else None)) s = Ok r s /\
    match r with
    | Some j => 0 <= j < lh_n lg /\ zget (lh_block lg) j = n
    | None => n ∉ log_blocks lg
    end.
Proof.
  intros G. unfold log_blocks. assert (Forall (fun j => 0 <= j < lh_n lg) (seqZ 0 (lh_n lg))) as Hr.
  { apply Forall_forall. intros j Hj. apply elem_of_seqZ in Hj. lia. }
  induction Hr as [|j js Hj Hjs IH]; cbn [findM]; [exists None; split; [reflexivity|apply not_elem_of_nil]|].
  destruct (lg_home _ G j Hj) as [Hb _]. rewrite (bind_ok _ _ _ _ _ eq_refl). rewrite u32_id by lia.
  destruct (Z.eqb_spec (zget (lh_block lg) j) n) as [E|E].
  - exists (Some j). split; [reflexivity|]. auto.
  - destruct IH as (r & Er & Hp). exists r. split; [exact Er|]. destruct r; [exact Hp|].
    rewrite fmap_cons. apply not_elem_of_cons. auto.
Qed.

(** The header with one more block. *)
Definition add_block (lg : log) (n : Z) : log :=
  with_lh_n (lh_n lg + 1) (with_lh_block (zset (lh_block lg) (lh_n lg) n) lg).

Lemma add_blocks lg n : log_geom lg -> length (lh_block lg) = Z.to_nat LOGSIZE -> lh_n lg < LOGSIZE ->
  log_blocks (add_block lg n) = log_blocks lg ++ [n].
Proof.
  intros G Hl Hn. pose proof (lg_n _ G). unfold log_blocks, add_block. cbn [lh_n lh_block with_lh_n with_lh_block].
  rewrite Z.add_1_r. replace (seqZ 0 (Z.succ (lh_n lg))) with (seqZ 0 (lh_n lg) ++ [lh_n lg]).
  2:{ rewrite <- Z.add_1_r, seqZ_app by lia. reflexivity. }
  rewrite fmap_app. f_equal; [|cbn; f_equal; apply zget_zset_eq; lia].
  apply list_fmap_ext. intros k j Hj. apply lookup_seqZ in Hj. apply zget_zset_ne; lia.
Qed.

Lemma add_geom lg n : log_geom lg -> length (lh_block lg) = Z.to_nat LOGSIZE -> lh_n lg < LOGSIZE -> lh_n lg + 1 < l_size lg ->
  0 <= n < 2 ^ 31 -> home lg n -> n ∉ log_blocks lg -> log_geom (add_block lg n).
Proof.
  intros G Hl Hn Hz Hr Hh Hni. pose proof (lg_n _ G) as Gn.
  assert (forall j, 0 <= j < lh_n lg + 1 ->
    zget (lh_block (add_block lg n)) j = if decide (j = lh_n lg) then n else zget (lh_block lg) j) as Hg.
  { intros j Hj. cbn. case_decide; [subst; apply zget_zset_eq; lia|apply zget_zset_ne; lia]. }
  assert (forall j, 0 <= j < lh_n lg -> zget (lh_block lg) j <> n) as Hd.
  { intros j Hj E. apply Hni, log_blocks_elem. by exists j. }
  split.
  - exact (lg_dev _ G).
  - exact (lg_start _ G).
  - cbn. lia.
  - intros j Hj. cbn [lh_n add_block with_lh_n] in Hj. rewrite Hg by exact Hj. case_decide; [auto|]. apply (lg_home _ G j). lia.
  - intros j k Hj Hk. cbn [lh_n add_block with_lh_n] in Hj, Hk. rewrite !Hg by auto. repeat case_decide; intros E; [lia| | |].
    + exfalso. apply (Hd k); [lia|auto].
    + exfalso. apply (Hd j); [lia|auto].
    + apply (lg_nodup _ G); [lia..|exact E].
Qed.

(** Inside an operation nothing reaches the disk. *)
Record in_op (s s' : kernel) : Prop := {
  io_disk : k_disk s' = k_disk s;
  io_writes : k_writes s' = k_writes s;
  io_start : l_start (k_log s') = l_start (k_log s);
  io_size : l_size (k_log s') = l_size (k_log s);
  io_out : l_outstanding (k_log s') = l_outstanding (k_log s);
}.

Lemma in_op_refl s : in_op s s.
Proof. by split. Qed.

Lemma in_op_trans s1 s2 s3 : in_op s1 s2 -> in_op s2 s3 -> in_op s1 s3.
Proof. intros [] []. split; congruence. Qed.

Lemma in_op_bio s s' : bio_frame s s' -> in_op s s'.
Proof. intros Hf. rewrite (bio_frame_eq _ _ Hf). by split. Qed.

Section ops.
Context `{DiskOk} `{Waits}.
Variables (i : nat) (pid : Z).

Lemma tx_bio pins lks lks' s s' : tx i pid pins lks s -> cache i pid pins lks' s' -> bio_frame s s' -> tx i pid pins lks' s'.
Proof.
  intros [A B C D E F G] Hc Hf. assert (k_log s' = k_log s) as L by (rewrite (bio_frame_eq _ _ Hf); reflexivity).
  split; rewrite ?L; auto. unfold disk_block in *. rewrite (bio_frame_eq _ _ Hf). exact F.
Qed.

Lemma log_write_spec pins lks s b n (Q : unit -> kernel -> Prop) :
  tx i pid pins lks s -> (b, n) ∈ lks -> 0 <= n < 2 ^ 31 -> home (k_log s) n ->
  lh_n (k_log s) < LOGSIZE -> lh_n (k_log s) < l_size (k_log s) - 1 -> 1 <= l_outstanding (k_log s) ->
  (forall s', tx i pid (if decide (n ∈ pins) then pins else n :: pins) lks s' -> (forall m, content s' m = content s m) ->
     log_frame s s' -> in_op s s' -> Q tt s') ->
  wp (log_write b) Q s.
Proof.
  intros Ht Hin Hr Hh H30 Hsz Hout HQ. pose proof Ht as [Tc Tg Tl Tp Tn Te To]. pose proof (lg_n _ Tg) as Gn.
  destruct (cache_data _ _ _ _ _ b n Tc Hin) as (bf & Hb & Hbl & _). pose proof Hbl as (_ & Hbn & _).
  unfold log_write, get_log. wp_step. apply wp_acquire; [by eapply cache_no_lock|].
  do 2 wp_step. ksimp. set (lg := k_log s) in *.
  rewrite (proj2 (Z.leb_gt _ _) H30), (proj2 (Z.leb_gt _ _) Hsz). cbn [orb].
  destruct (Z.ltb_spec (l_outstanding lg) 1) as [?|_]; [lia|]. unfold buf_at. do 2 wp_step. ksimp.
  rewrite (list_lookup_total_correct _ _ _ Hb), Hbn. wp_step.
  match goal with |- wp _ _ ?st => destruct (absorb_find lg n st Tg) as (r & Er & Hf) end.
  apply wp_ok. do 2 eexists. split; [exact Er|]. rewrite (i32_id n) by lia. destruct r as [j|]; cbn [from_option]; unfold id.
  - destruct Hf as [Hj Ej]. assert (n ∈ log_blocks lg) as Hnb by (apply log_blocks_elem; eauto).
    unfold upd_log. do 2 wp_step. ksimp. fold lg. destruct (Z.eqb_spec j (lh_n lg)) as [?|_]; [lia|]. cbn [when]. do 2 wp_step.
    eapply wp_release; [reflexivity|by eapply cache_no_lock|]. ksimp.
    assert (with_lh_block (zset (lh_block lg) j n) lg = lg) as El.
    { unfold zset, zget in *. rewrite list_insert_id; [reflexivity|]. rewrite <- Ej. apply list_lookup_lookup_total_lt. lia. }
    rewrite El. rewrite decide_True in HQ by (by apply Tp). apply HQ; [exact Ht|reflexivity|reflexivity|apply in_op_refl].
  - assert (n ∉ pins) as Hnp by (by rewrite Tp). rewrite decide_False in HQ by exact Hnp.
    destruct (repin_cache i pid pins (n :: pins) lks s b n bf Tc Hin Hb) as [Hc' Hcont].
    { intros m Hm. rewrite elem_of_cons. tauto. }
    rewrite decide_True in Hc', Hcont by (by left). change (1 + 1) with 2 in Hc', Hcont.
    unfold upd_log. do 2 wp_step. ksimp. fold lg. rewrite Z.eqb_refl. cbn [when]. do 2 wp_step.
    eapply (ref_update _ b bf 2 _ (fun r => r + 1)); [| exact Hb| |].
    { ksimp. rewrite (ru_held _ _ _ (ca_run _ _ _ _ _ Tc)). intros Hx. apply list_elem_of_singleton in Hx. discriminate. }
    { rewrite (ca_ref _ _ _ _ _ Tc _ _ Hb). destruct Hbl as (E1 & E2 & _). rewrite E1, E2.
      rewrite (decide_False (P := _ /\ _)), (decide_True (P := b ∈ _)); [reflexivity| |tauto].
      apply list_elem_of_fmap. by exists (b, n). }
    wp_step. eapply wp_release; [reflexivity|by eapply cache_no_lock|]. ksimp. unfold set_buf. ksimp. fold lg.
    apply (HQ (with_k_log (add_block lg n) (set_buf b (with_b_refcnt 2 bf) s))); [|exact Hcont|reflexivity|by split].
    split; [by apply cache_relog|apply add_geom; auto; lia| | | |exact Te|exact To].
    + cbn. by rewrite zset_length.
    + intros m. change (m ∈ n :: pins <-> m ∈ log_blocks (add_block lg n)). rewrite add_blocks by auto.
      rewrite elem_of_cons, elem_of_app, list_elem_of_singleton, Tp. tauto.
    + cbn. rewrite Tn. fold lg. lia.
Qed.

(** ** Whole operations *)

(** The typical use log_write()'s comment shows: read, modify, log, release. *)
Definition update_block (w : Z * list Z) : KM unit :=
  bp <- bread ROOTDEV (fst w) ;;
  upd_buf bp (with_b_data (snd w)) ;;;
  log_write bp ;;;
  brelse bp.

Lemma update_block_spec pins s n d (Q : unit -> kernel -> Prop) :
  tx i pid pins [] s -> 0 <= n < 2 ^ 31 -> home (k_log s) n -> length d = Z.to_nat BSIZE ->
  Z.of_nat (length pins) + 1 < LOGSIZE -> Z.of_nat (length pins) + 1 < l_size (k_log s) -> 1 <= l_outstanding (k_log s) ->
  (forall s' pins', tx i pid pins' [] s' -> n ∈ pins' -> (length pins' <= S (length pins))%nat ->
     (forall m, content s' m = put_block (content s) (n, d) m) -> in_op s s' -> Q tt s') ->
  wp (update_block (n, d)) Q s.
Proof.
  intros Ht Hr Hh Hd H30 Hsz Hout HQ. pose proof (tx_num _ _ _ _ _ Ht) as Hnum. pose proof (lg_n _ (tx_geom _ _ _ _ _ Ht)) as Gn.
  assert (LOGSIZE = Z.of_nat HEAD) as HL by reflexivity. unfold update_block. cbn [fst snd]. wp_step.
  apply (bread_spec i pid pins [] s n); [apply Ht|apply not_elem_of_nil|simpl; lia|].
  intros b s1 Hc1 _ Hcont1 Hf1. wp_step.
  apply (upd_data_spec i pid pins [(b, n)] s1 b n (fun _ => d)); [exact Hc1|by left|exact Hd|].
  intros s2 Hc2 Hn2 Hcont2 Hf2. pose proof (bio_frame_trans _ _ _ Hf1 Hf2) as Hf. assert (k_log s2 = k_log s) as L2 by (rewrite (bio_frame_eq _ _ Hf); reflexivity).
  assert (tx i pid pins [(b, n)] s2) as Ht2.
  { by eapply tx_bio. }
  wp_step. apply (log_write_spec pins [(b, n)] s2 b n); rewrite ?L2; [exact Ht2|by left|exact Hr|exact Hh|lia|lia|exact Hout|].
  intros s3 Ht3 Hcont3 Hf3 Ho3. set (pins' := if decide (n ∈ pins) then _ else _) in *.
  assert (n ∈ pins') as Hin by (unfold pins'; case_decide; [done|by left]).
  apply (brelse_spec i pid pins' [] [] s3 b n); [apply Ht3|by left|]. intros s4 Hc4 Hcont4 Hf4.
  apply (HQ s4 pins').
  - by eapply tx_bio.
  - exact Hin.
  - unfold pins'. case_decide; simpl; lia.
  - intros m. rewrite Hcont4, Hcont3. unfold put_block. simpl. case_decide as Em; [by subst|]. by rewrite Hcont2, Hcont1.
  - apply (in_op_trans _ s2); [by apply in_op_bio|]. apply (in_op_trans _ s3); [exact Ho3|by apply in_op_bio].
Qed.

Lemma begin_op_admits s : running i pid s -> l_committing (k_log s) = false ->
  lh_n (k_log s) + (l_outstanding (k_log s) + 1) * MAXOPBLOCKS <= LOGSIZE ->
  begin_op s = Ok tt (with_k_log (with_l_outstanding (l_outstanding (k_log s) + 1) (k_log s)) s).
Proof.
  intros Hr Hc Hroom. pose proof (ru_held _ _ _ Hr) as Hh. apply wp_eq. unfold begin_op, get_log. wp_step.
  apply wp_acquire; [rewrite Hh; apply not_elem_of_nil|]. cbn [loop]. do 3 wp_step. ksimp. rewrite Hc.
  rewrite (proj2 (Z.ltb_ge _ _) Hroom). unfold upd_log. do 3 wp_step.
  eapply wp_release; [reflexivity|rewrite Hh; apply not_elem_of_nil|]. wp_steps. split; reflexivity.
Qed.

Lemma begin_op_waits s : running i pid s -> l_committing (k_log s) = true \/
    LOGSIZE < lh_n (k_log s) + (l_outstanding (k_log s) + 1) * MAXOPBLOCKS ->
  exists k, begin_op s = Swtch (asleep i Clog (with_k_held [Llog] s)) k.
Proof.
  intros Hr Hwait. pose proof (ru_held _ _ _ Hr) as Hh.
  destruct (sleep_runs i Clog Llog (with_k_held [Llog] s)) as (k & Hs & _);
    [exact (ru_cur _ _ _ Hr)|exact (ru_len _ _ _ Hr)|reflexivity|discriminate|].
  unfold begin_op, get_log. eexists. unfold bind at 1. unfold acquire. rewrite Hh, decide_False by apply not_elem_of_nil.
  cbn [rbind loop].
  apply bind_swtch. unfold bind at 1, gets. cbn [rbind]. ksimp. destruct (l_committing (k_log s)).
  - by apply bind_swtch.
  - destruct Hwait as [?|Hw]; [discriminate|]. rewrite (proj2 (Z.ltb_lt _ _) Hw). by apply bind_swtch.
Qed.

(** The outcome of the end_op that commits. *)
Record op_done (s s' : kernel) : Prop := {
  od_tx : tx i pid [] [] s';
  od_crash : exists ws, k_writes s' = rev ws ++ k_writes s /\
    forall k, let D := apply_writes (take k ws) (disk_block s) in
      (forall m, home (k_log s) m -> logical (k_log s) D m = disk_block s m) \/
      (forall m, home (k_log s) m -> logical (k_log s) D m = content s m);
  od_disk : forall m, home (k_log s) m -> disk_block s' m = content s m;
  od_out : l_outstanding (k_log s') = 0;
  od_geom : l_start (k_log s') = l_start (k_log s) /\ l_size (k_log s') = l_size (k_log s);
}.

Lemma cache_wakes pins lks s s' : cache i pid pins lks s -> wakes s s' -> cache i pid pins lks s'.
Proof.
  intros Hc Hw. destruct (ca_inv _ _ _ _ _ Hc) as [l Hi]. pose proof (wk_rest _ _ Hw) as E.
  eapply (cache_frame _ _ _ _ s); [exact Hc| | |rewrite E; reflexivity].
  - apply (bcache_inv_frame s); [exact Hi|rewrite E; reflexivity..].
  - eapply wakes_running; [exact Hw|apply Hc].
Qed.

Lemma end_op_commits pins s (Q : unit -> kernel -> Prop) :
  tx i pid pins [] s -> l_outstanding (k_log s) = 1 -> (length pins + 1 < HEAD)%nat ->
  (forall s', op_done s s' -> Q tt s') -> wp end_op Q s.
Proof.
  intros [Tc Tg Tl Tp Tn Te To] Hout Hlen HQ. unfold end_op, get_log, upd_log. wp_step.
  apply wp_acquire; [by eapply cache_no_lock|]. do 4 wp_step. ksimp. cbn [l_committing with_l_outstanding]. rewrite To.
  cbn [l_outstanding with_l_outstanding]. rewrite Hout. change (1 - 1 =? 0) with true. cbv iota. do 5 wp_step. ksimp.
  eapply wp_release; [reflexivity|by eapply cache_no_lock|]. cbn [when]. ksimp. set (lg := k_log s) in *.
  change (1 - 1) with 0. set (lg1 := with_l_committing true (with_l_outstanding 0 lg)). wp_step.
  change (with_k_held (k_held s) (with_k_log lg1 s)) with (with_k_log lg1 s).
  apply (commit_outcome i pid pins (with_k_log lg1 s)); [by apply cache_relog|by destruct Tg|exact Hlen|exact Tp|exact Tl|exact Te|].
  intros s1 [[ws [Cw Cc]] Cd Cl Ch] Hc1. change (k_log (with_k_log lg1 s)) with lg1 in *.
  wp_step. apply wp_acquire; [by eapply cache_no_lock|]. do 2 wp_step. ksimp. rewrite Cl. wp_step.
  apply wakeup_wakes.
  { intros j. ksimp. rewrite (ru_held _ _ _ (ca_run _ _ _ _ _ Hc1)). intros Hx. apply list_elem_of_singleton in Hx. discriminate. }
  intros s2 Hw2. pose proof (wk_rest _ _ Hw2) as E2.
  eapply wp_release; [rewrite E2; reflexivity|by eapply cache_no_lock|].
  set (lg2 := with_l_committing false (with_lh_n 0 lg1)) in *.
  assert (wakes (with_k_log lg2 s1) (with_k_held (k_held s1) s2)) as Hw.
  { destruct Hw2 as [W1 W2 W3]. split; [rewrite W1; reflexivity|exact W2|exact W3]. }
  assert (k_log (with_k_held (k_held s1) s2) = lg2) as L2 by (rewrite E2; reflexivity).
  assert (forall m, disk_block (with_k_held (k_held s1) s2) m = disk_block s1 m) as Hd by (intros m; unfold disk_block; rewrite E2; reflexivity).
  apply HQ. pose proof (lg_n _ Tg) as Gn. split; rewrite ?L2.
  - assert (log_blocks lg2 = []) as Eb by reflexivity. split; rewrite ?L2, ?Eb, ?Hd; try reflexivity; [| |exact Tl|exact Ch].
    + eapply cache_wakes; [|exact Hw]. by apply cache_relog.
    + destruct Tg as [G1 G2 G3 G4 G5]. split; [exact G1|exact G2|cbn; lia|cbn; lia|cbn; lia].
  - exists ws. split; [rewrite E2; exact Cw|exact Cc].
  - intros m Hm. rewrite Hd. by apply Cd.
  - reflexivity.
  - split; reflexivity.
Qed.

Lemma updates_spec (pins : list Z) s (ups : list (Z * list Z)) (Q : unit -> kernel -> Prop) :
  tx i pid pins [] s -> 1 <= l_outstanding (k_log s) ->
  Z.of_nat (length pins) + Z.of_nat (length ups) < LOGSIZE ->
  Z.of_nat (length pins) + Z.of_nat (length ups) < l_size (k_log s) ->
  Forall (fun w => 0 <= fst w < 2 ^ 31 /\ home (k_log s) (fst w) /\ length (snd w) = Z.to_nat BSIZE) ups ->
  (forall s' pins', tx i pid pins' [] s' -> (length pins' <= length pins + length ups)%nat ->
     (forall m, content s' m = apply_writes ups (content s) m) -> in_op s s' -> Q tt s') ->
  wp (forM ups update_block) Q s.
Proof.
  revert pins s. induction ups as [|[n d] ups IH]; intros pins s Ht Ho H30 Hsz Hups HQ; cbn [forM].
  { wp_steps. eapply HQ; [exact Ht|lia|reflexivity|apply in_op_refl]. }
  apply Forall_cons in Hups as [(Hr & Hh & Hd) Hups]. cbn [length fst snd] in *. wp_step.
  apply (update_block_spec pins s n d); [exact Ht|exact Hr|exact Hh|exact Hd|lia|lia|exact Ho|].
  intros s1 pins1 Ht1 _ Hl1 Hcont1 Hio1. pose proof Hio1 as [_ _ I1 I2 I3].
  apply (IH pins1 s1); [exact Ht1|by rewrite I3|lia|rewrite I2; lia|unfold home in *; by rewrite I1, I2|].
  intros s2 pins2 Ht2 Hl2 Hcont2 Hio2. eapply HQ; [exact Ht2|lia| |by eapply in_op_trans].
  intros m. rewrite Hcont2. change (apply_writes ((n, d) :: ups) (content s) m) with (apply_writes ups (put_block (content s) (n, d)) m).
  by apply apply_ext.
Qed.

(** C1: an operation is a transaction.  Between operations, begin_op(),
    then for each of at most MAXOPBLOCKS blocks bread(), a change of the data,
    log_write() and brelse(), then end_op(): the whole returns, the disk then
    holds all the updates, and after every prefix of the block writes issued
    meanwhile - whenever the machine stops - the logical disk holds either
    none of the updates or all of them. *)
Theorem transaction_atomic (ups : list (Z * list Z)) s :
  tx i pid [] [] s -> l_outstanding (k_log s) = 0 ->
  Z.of_nat (length ups) <= MAXOPBLOCKS -> MAXOPBLOCKS < l_size (k_log s) ->
  Forall (fun w => 0 <= fst w < 2 ^ 31 /\ home (k_log s) (fst w) /\ length (snd w) = Z.to_nat BSIZE) ups ->
  wp (begin_op ;;; forM ups update_block ;;; end_op) (fun _ s' =>
    tx i pid [] [] s' /\ l_outstanding (k_log s') = 0 /\
    (forall m, home (k_log s) m -> disk_block s' m = apply_writes ups (disk_block s) m) /\
    exists ws, k_writes s' = rev ws ++ k_writes s /\ forall k,
      let D := apply_writes (take k ws) (disk_block s) in
      (forall m, home (k_log s) m -> logical (k_log s) D m = disk_block s m) \/
      (forall m, home (k_log s) m -> logical (k_log s) D m = apply_writes ups (disk_block s) m)) s.
Proof.
  intros Ht Ho Hl Hsz Hups. pose proof Ht as [Tc Tg Tl Tp Tn Te To]. set (lg := k_log s) in *.
  assert (MAXOPBLOCKS = 10 /\ LOGSIZE = 30 /\ HEAD = 30%nat) as (HM & HL & HH) by (split_and!; reflexivity).
  pose proof (lg_n _ Tg) as Gn. assert (lh_n lg = 0) as Hn0 by (simpl in Tn; lia).
  wp_step. apply wp_ok. do 2 eexists. split; [apply (begin_op_admits s); [apply Tc|exact To|fold lg; rewrite Ho, Hn0; lia]|].
  fold lg. rewrite Ho. set (s1 := with_k_log (with_l_outstanding (0 + 1) lg) s).
  assert (tx i pid [] [] s1) as Ht1.
  { split; [by apply cache_relog|by destruct Tg|exact Tl|exact Tp|exact Tn|exact Te|exact To]. }
  wp_step. apply (updates_spec [] s1 ups); [exact Ht1|cbn; lia|cbn; lia|simpl; fold lg; lia|exact Hups|].
  intros s2 pins2 Ht2 Hl2 Hcont2 [I1 I2 I3 I4 I5]. change (l_start (k_log s1)) with (l_start lg) in I3.
  change (l_size (k_log s1)) with (l_size lg) in I4.
  assert (forall m, home (k_log s2) m <-> home lg m) as Hhome by (intros m; unfold home; rewrite I3, I4; tauto).
  assert (forall m, disk_block s2 m = disk_block s m) as Hd2 by (intros m; unfold disk_block; rewrite I1; reflexivity).
  assert (forall m, content s2 m = apply_writes ups (disk_block s) m) as Hnew.
  { intros m. rewrite Hcont2. apply apply_ext. intros x. apply (cache_clean i pid [] s x Tc), not_elem_of_nil. }
  assert (forall D m, logical (k_log s2) D m = logical lg D m) as Hlg.
  { intros D m. apply logical_base; [exact I3|]. rewrite (tx_len _ _ _ _ _ Ht2). by rewrite Tl. }
  assert (length pins2 + 1 < HEAD)%nat as Hp2 by (simpl in Hl2; lia).
  apply (end_op_commits pins2); [exact Ht2|rewrite I5; reflexivity|exact Hp2|].
  intros s3 [Et [ws [Ew Ec]] Ed Eo Eg]. split_and!; [exact Et|exact Eo| |].
  - intros m Hm. rewrite <- Hnew. apply Ed. by apply Hhome.
  - exists ws. split; [rewrite Ew, I2; reflexivity|]. intros k D.
    assert (forall m, apply_writes (take k ws) (disk_block s2) m = D m) as HD by (intros m; by apply apply_ext).
    destruct (Ec k) as [Ho'|Hn']; [left|right]; intros m Hm; rewrite <- Hlg, <- (logical_ext _ _ D m HD).
    + rewrite Ho' by (by apply Hhome). apply Hd2.
    + rewrite Hn' by (by apply Hhome). apply Hnew.
Qed.

(** Begin_op() reserves log space.  When the log is not committing and
    has room for another MAXOPBLOCKS blocks on top of what it holds and what
    the operations under way have reserved, the operation is admitted, and only
    the count changes; otherwise the process goes to sleep on the log and
    gives up its lock. *)
Theorem begin_op_correct s : running i pid s ->
  let lg := k_log s in
  let full := LOGSIZE < lh_n lg + (l_outstanding lg + 1) * MAXOPBLOCKS in
  (l_committing lg = false /\ ~ full ->
     begin_op s = Ok tt (with_k_log (with_l_outstanding (l_outstanding lg + 1) lg) s)) /\
  (l_committing lg = true \/ full ->
     exists s' k, begin_op s = Swtch s' k /\ k_held s' = [Lproc i] /\ k_log s' = lg /\
       p_state (k_procs s' !!! i) = SLEEPING /\ p_chan (k_procs s' !!! i) = Some Clog).
Proof.
  intros Hr lg full. split.
  - intros [Hc Hf]. apply begin_op_admits; [exact Hr|exact Hc|unfold full in Hf; fold lg; lia].
  - intros Hw. destruct (begin_op_waits s Hr Hw) as [k Hk]. exists (asleep i Clog (with_k_held [Llog] s)), k.
    split; [exact Hk|]. unfold asleep. ksimp. rewrite alter_at by exact (ru_len _ _ _ Hr). split_and!; reflexivity.
Qed.

(** Log_write().  Inside a transaction with room in the log, logging a
    locked buffer adds its block to the transaction and pins it, or, when the
    block is already part of it, changes nothing (absorption); the blocks'
    contents, the disk and everything else stay as they are. *)
Theorem log_write_correct pins lks s b n :
  tx i pid pins lks s -> (b, n) ∈ lks -> 0 <= n < 2 ^ 31 -> home (k_log s) n ->
  lh_n (k_log s) < LOGSIZE -> lh_n (k_log s) < l_size (k_log s) - 1 -> 1 <= l_outstanding (k_log s) ->
  wp (log_write b) (fun _ s' => tx i pid (if decide (n ∈ pins) then pins else n :: pins) lks s' /\
    (forall m, content s' m = content s m) /\ log_frame s s' /\ in_op s s') s.
Proof. intros. eapply log_write_spec; eauto. Qed.

End ops.

(** ** Witnesses: an empty disk with its log in blocks 2 to 31 *)

Definition log0 : kernel := with_k_log (mkLog 2 30 0 false ROOTDEV 0 (replicate 30 0)) bio0.

Lemma log0_tx : tx 0 1 [] [] log0.
Proof.
  split.
  - apply cache_relog, bio0_cache.
  - split; cbn; [reflexivity|lia|unfold LOGSIZE, MAXOPBLOCKS; lia|lia|lia].
  - reflexivity.
  - reflexivity.
  - reflexivity.
  - unfold disk_block. change (k_disk log0) with (k_disk bio0). rewrite (proj1 (proj2 bio0_inv)).
    change (k_disk (with_k_bhead _ _)) with (∅ : gmap Z (list Z)). rewrite lookup_empty. vm_compute. reflexivity.
  - reflexivity.
Qed.

Definition blk (x : Z) : list Z := replicate (Z.to_nat BSIZE) x.

Lemma transaction_atomic_witness : let ups := [(40, blk 1); (41, blk 2); (40, blk 3)] in
  wp (@begin_op 1%nat ;;; forM ups (@update_block sync_disk 1%nat) ;;; @end_op sync_disk 1%nat) (fun _ s' =>
    disk_block s' 40 = blk 3 /\ disk_block s' 41 = blk 2) log0.
Proof.
  intros ups. eapply wp_mono; [apply (@transaction_atomic sync_disk sync_disk_ok 1%nat 0 1 ups log0)|].
  - exact log0_tx.
  - reflexivity.
  - unfold MAXOPBLOCKS. simpl. lia.
  - reflexivity.
  - repeat (apply Forall_cons; split; [cbn; unfold home; cbn; split_and!; [lia|lia|lia|reflexivity]|]). constructor.
  - cbn beta. intros u s' (_ & _ & Hd & _). split; (rewrite Hd; [reflexivity|unfold home; cbn; lia]).
Defined.

Lemma begin_op_correct_witness : @begin_op 1%nat log0 = Ok tt (with_k_log (with_l_outstanding 1 (k_log log0)) log0).
Proof.
  destruct (@begin_op_correct 1%nat 0 1 log0 (ca_run _ _ _ _ _ (tx_cache _ _ _ _ _ log0_tx))) as [Hw _].
  apply Hw. split; [reflexivity|cbn; unfold LOGSIZE, MAXOPBLOCKS; lia].
Defined.


(** The state inside an operation. *)
Definition log1 : kernel := with_k_log (with_l_outstanding 1 (k_log log0)) log0.

Lemma log1_tx : tx 0 1 [] [] log1.
Proof.
  destruct log0_tx as [A [B1 B2 B3 B4 B5] C D E F G].
  split; [exact (cache_relog 0 1 [] [] _ _ A)|split; [exact B1|exact B2|exact B3|exact B4|exact B5]|exact C|exact D|exact E|exact F|exact G].
Qed.

Lemma log1_bread (Q : nat -> kernel -> Prop) :
  (forall b s, tx 0 1 [] [(b, 40)] s -> k_log s = k_log log1 -> Q b s) -> wp (@bread sync_disk 1%nat ROOTDEV 40) Q log1.
Proof.
  intros HQ. apply (@bread_spec sync_disk sync_disk_ok 1%nat 0 1 [] [] log1 40);
    [apply log1_tx|apply not_elem_of_nil|simpl; unfold HEAD, NBUF, MAXOPBLOCKS; lia|].
  intros b s Hc _ _ Hf. apply HQ; [|rewrite (bio_frame_eq _ _ Hf); reflexivity]. eapply tx_bio; [exact log1_tx|exact Hc|exact Hf].
Qed.

Lemma log_write_correct_witness :
  wp (b <- @bread sync_disk 1%nat ROOTDEV 40 ;; log_write b ;;; ret b)
     (fun b s' => tx 0 1 [40] [(b, 40)] s' /\ log_blocks (k_log s') = [40]) log1.
Proof.
  wp_step. apply log1_bread. intros b s Ht El. wp_step.
  eapply wp_mono; [apply (log_write_correct 0 1 [] [(b, 40)] s b 40 Ht)|]; rewrite ?El; [by left|lia|unfold home; cbn; lia|reflexivity..|].
  intros u s' (Ht' & _). rewrite decide_False in Ht' by apply not_elem_of_nil. wp_steps. split; [exact Ht'|].
  pose proof (tx_num _ _ _ _ _ Ht') as Hn. pose proof (proj1 (tx_pins _ _ _ _ _ Ht' 40) ltac:(by left)) as Hin.
  pose proof (lg_n _ (tx_geom _ _ _ _ _ Ht')) as Gn. unfold log_blocks in *. simpl in Hn.
  replace (lh_n (k_log s')) with 1 in * by lia. change (seqZ 0 1) with [0] in *. cbn [fmap list_fmap] in *.
  apply list_elem_of_singleton in Hin. by rewrite <- Hin.
Defined.

Lemma commit_atomic_witness :
  exists s : kernel, 40 ∈ log_blocks (k_log s) /\ content s 40 = blk 7 /\
    wp (@commit sync_disk 1%nat) (fun _ s' => disk_block s' 40 = blk 7) s.
Proof.
  assert (wp (@update_block sync_disk 1%nat (40, blk 7)) (fun _ s => exists pins, tx 0 1 pins [] s /\ 40 ∈ pins /\
    (length pins <= 1)%nat /\ content s 40 = blk 7 /\ l_start (k_log s) = 2) log1) as Hu.
  { apply (@update_block_spec sync_disk sync_disk_ok 1%nat 0 1 [] log1 40 (blk 7) _ log1_tx);
      [lia|unfold home; cbn; lia|reflexivity|reflexivity|reflexivity|reflexivity|].
    intros s pins Ht Hin Hl Hc Hi. exists pins. split_and!; [exact Ht|exact Hin|exact Hl|by rewrite Hc|by rewrite (io_start _ _ Hi)]. }
  destruct (proj1 (wp_ok _ _ _) Hu) as (u & s & _ & pins & Ht & Hin & Hl & Hc & Hst). clear Hu. exists s.
  pose proof (proj1 (tx_pins _ _ _ _ _ Ht 40) Hin) as Hb. split; [exact Hb|]. split; [exact Hc|].
  eapply wp_mono; [apply (@commit_atomic sync_disk sync_disk_ok 1%nat 0 1 pins s)|].
  1-6: destruct Ht as [A B C D E F G]; auto. { unfold HEAD, NBUF, MAXOPBLOCKS. lia. }
  cbn beta. intros u' s' [Hcm _]. rewrite <- Hc. apply (cm_disk _ _ Hcm).
  apply (log_blocks_home _ _ (tx_geom _ _ _ _ _ Ht)). exact Hb.
Defined.

(** A disk that crashed after the header of a transaction was written. *)
Definition hdr_log : log := mkLog 2 30 0 false ROOTDEV 1 (40 :: replicate 29 0).
Definition crashed : kernel :=
  with_k_log (mkLog 2 30 0 false ROOTDEV 0 (replicate 30 0))
    (with_k_disk {[ 2 := write_hdr 1 (lh_block hdr_log) (blk 0); 3 := blk 7 ]} bio0).

Lemma hdr_log_geom : log_geom hdr_log.
Proof.
  split; [reflexivity|cbn; lia|cbn; unfold LOGSIZE, MAXOPBLOCKS; lia| |cbn; lia].
  intros j Hj. cbn in Hj. assert (j = 0) as -> by lia. change (zget (lh_block hdr_log) 0) with 40. unfold home. cbn. split; lia.
Qed.

(** An empty cache in front of another disk. *)
Lemma cache_new_disk i pid s d : cache i pid [] [] s -> (forall j bf, k_bufs s !! j = Some bf -> b_dev bf <> ROOTDEV) ->
  (forall n x, d !! n = Some x -> length x = Z.to_nat BSIZE) -> cache i pid [] [] (with_k_disk d s).
Proof.
  intros [[l [I1 I2 I3 I4 I5 I6]] [R1 R2 R3 R4] C3 C4 C5 C6 C7] Hdev Hd. split; [|by split|exact C3|exact C4|exact C5|exact C6|exact C7].
  exists l. split; [exact I1|exact I2|exact I3|exact I4| |exact Hd].
  intros j bf Hj. destruct (I5 j bf Hj) as [B1 B2 B3 _]. split; [exact B1|exact B2|exact B3|].
  intros _ _ E. destruct (Hdev j bf Hj E).
Qed.

Lemma crashed_cache : cache 0 1 [] [] crashed.
Proof.
  unfold crashed. apply cache_relog, cache_new_disk; [exact bio0_cache| |].
  - intros j bf Hj Hd. destruct (proj2 (proj2 bio0_inv) j bf Hj) as (_ & _ & Hd0). rewrite Hd0 in Hd. discriminate.
  - intros n x [[_ <-]|[_ [_ <-]%lookup_singleton_Some]]%lookup_insert_Some; reflexivity.
Qed.

Lemma recover_correct_witness :
  wp (@recover_from_log sync_disk 1%nat) (fun _ s' => disk_block s' 40 = blk 7) crashed.
Proof.
  assert (disk_block crashed 2 = write_hdr 1 (lh_block hdr_log) (blk 0)) as E2 by reflexivity.
  assert (same_hdr hdr_log (read_hdr (k_log crashed) (disk_block crashed 2))) as Hsame.
  { rewrite E2. vm_compute. split; reflexivity. }
  eapply wp_mono; [apply (@recover_correct sync_disk sync_disk_ok 1%nat 0 1 crashed crashed_cache)|].
  - apply (same_geom hdr_log); [exact Hsame|exact hdr_log_geom].
  - cbn beta. intros u s' (ws & _ & _ & Hd & _). destruct (Hd 40) as [-> _]; [unfold home; cbn; lia|].
    unfold logical. change (l_start (k_log crashed)) with 2. rewrite (same_to_home _ _ _ Hsame). reflexivity.
Defined.
