(* ===== verification/RingBuf.v ===== *)
(** * Circular buffers indexed by free-running counters.

    uart.c, pipe.c and console.c keep a read and a write counter that only
    grow, wrapping around at their C width, and store byte number [i] at index
    [i % size].  [rb_list N size buf r w] is the queue such a buffer holds, for
    counters of [N] values. *)

From S2P Require Import Prelude.

Definition rb_len (N r w : Z) : Z := (w - r) mod N.
Definition rb_list (N size : Z) (buf : list Z) (r w : Z) : list Z :=
  (fun k => zget buf (((r + k) mod N) mod size)) <$> seqZ 0 (rb_len N r w).

Section ring.
Variables (N size : Z).
Hypothesis size_pos : 0 < size.
Hypothesis size_lt : size < N.
Hypothesis size_div : (size | N).

Lemma rb_length buf r w : Z.of_nat (length (rb_list N size buf r w)) = rb_len N r w.
Proof. unfold rb_list. rewrite length_fmap, length_seqZ. unfold rb_len. pose proof (Z.mod_pos_bound (w - r) N). lia. Qed.

Lemma mod_mod_size x : (x mod N) mod size = x mod size.
Proof. destruct size_div as [q Hq]. rewrite (Z.mod_eq x N) by lia. rewrite Hq.
  replace (x - q * size * (x / (q * size))) with (x + (- (q * (x / (q * size)))) * size) by ring. apply Z.mod_add. lia.
Qed.

Lemma rb_empty r w : 0 <= r < N -> 0 <= w < N -> rb_len N r w = 0 <-> w = r.
Proof.
  intros Hr Hw. unfold rb_len. split; [|intros ->; rewrite Z.sub_diag; apply Z.mod_0_l; lia].
  intros E. destruct (Z.eq_dec w r) as [|Hne]; [auto|]. exfalso.
  destruct (Z.lt_ge_cases w r); [rewrite <- (Z.mod_add _ 1) in E by lia|]; rewrite Z.mod_small in E by lia; lia.
Qed.

(** The code's test for a full buffer. *)
Lemma rb_full r w : 0 <= w < N -> w = (r + size) mod N <-> rb_len N r w = size.
Proof.
  intros Hw. unfold rb_len. split.
  - intros ->. rewrite Zminus_mod_idemp_l. replace (r + size - r) with size by ring. apply Z.mod_small. lia.
  - intros E. rewrite <- E, Zplus_mod_idemp_r. replace (r + (w - r)) with w by ring. symmetry. apply Z.mod_small. lia.
Qed.

Lemma rb_len_push r w : rb_len N r w < size -> rb_len N r ((w + 1) mod N) = rb_len N r w + 1.
Proof.
  intros Hl. unfold rb_len in *. rewrite Zminus_mod_idemp_l. replace (w + 1 - r) with (w - r + 1) by ring.
  rewrite <- Zplus_mod_idemp_l. apply Z.mod_small. pose proof (Z.mod_pos_bound (w - r) N ltac:(lia)). lia.
Qed.

Lemma rb_push buf r w c : length buf = Z.to_nat size -> rb_len N r w < size ->
  rb_list N size (zset buf (w mod size) c) r ((w + 1) mod N) = rb_list N size buf r w ++ [c].
Proof.
  intros Hb Hl. unfold rb_list. rewrite rb_len_push by exact Hl. pose proof (Z.mod_pos_bound (w - r) N) as Hp.
  unfold rb_len in *. set (n := (w - r) mod N) in *. rewrite seqZ_app by lia. rewrite fmap_app.
  assert (forall k, (r + k) mod N mod size = (r + k) mod size) as Hi by (intros; apply mod_mod_size).
  assert ((r + n) mod size = w mod size) as Hw.
  { rewrite <- mod_mod_size. unfold n. rewrite Zplus_mod_idemp_r. rewrite mod_mod_size. f_equal. ring. }
  pose proof (Z.mod_pos_bound w size). f_equal.
  - apply list_fmap_ext. intros i k Hk. apply lookup_seqZ in Hk. rewrite Hi. apply zget_zset_ne; [lia| |].
    + apply Z.mod_pos_bound. lia.
    + rewrite <- Hw. intros E. assert (((r + n) - (r + k)) mod size = 0) as E0.
      { rewrite Zminus_mod, E, Z.sub_diag. apply Z.mod_0_l. lia. }
      replace (r + n - (r + k)) with (n - k) in E0 by ring. rewrite Z.mod_small in E0; lia.
  - change (seqZ (0 + n) 1) with [0 + n]. cbn [fmap list_fmap]. rewrite Hi, Z.add_0_l, Hw. f_equal.
    apply zget_zset_eq. lia.
Qed.

Lemma rb_len_pop r w : 0 <= r < N -> 0 <= w < N -> w <> r -> rb_len N r w = 1 + rb_len N ((r + 1) mod N) w.
Proof.
  intros Hr Hw Hne. unfold rb_len. rewrite Zminus_mod_idemp_r. replace (w - (r + 1)) with (w - r - 1) by ring.
  assert (0 < (w - r) mod N) as Hp.
  { pose proof (Z.mod_pos_bound (w - r) N). destruct (Z.eq_dec ((w - r) mod N) 0) as [E|]; [|lia].
    apply (proj1 (rb_empty r w Hr Hw)) in E. lia. }
  rewrite (Zminus_mod (w - r) 1), (Z.mod_small 1) by lia. pose proof (Z.mod_pos_bound (w - r) N).
  rewrite (Z.mod_small ((w - r) mod N - 1)) by lia. lia.
Qed.

Lemma rb_pop buf r w : 0 <= r < N -> 0 <= w < N -> w <> r ->
  rb_list N size buf r w = zget buf (r mod size) :: rb_list N size buf ((r + 1) mod N) w.
Proof.
  intros Hr Hw Hne. unfold rb_list. rewrite (rb_len_pop r w) by auto. pose proof (Z.mod_pos_bound (w - (r + 1) mod N) N) as Hp.
  unfold rb_len at 1 2. set (n := (w - (r + 1) mod N) mod N) in *. rewrite seqZ_app by lia. rewrite fmap_app.
  change (seqZ 0 1) with [0]. cbn [fmap list_fmap app]. f_equal; [rewrite mod_mod_size; f_equal; f_equal; ring|].
  change (0 + 1) with 1. rewrite <- (Z.add_0_r 1) at 1. replace (seqZ (1 + 0) n) with ((fun k => 1 + k) <$> seqZ 0 n) by (rewrite <- fmap_add_seqZ; reflexivity).
  fold (rb_len N ((r + 1) mod N) w). rewrite <- list_fmap_compose. apply list_fmap_ext. intros i k _. simpl.
  rewrite !mod_mod_size. rewrite <- (mod_mod_size ((r + 1) mod N + k)), Zplus_mod_idemp_l, mod_mod_size. f_equal. f_equal. ring.
Qed.

(** The contents between three counters in a row. *)
Lemma rb_len_split r w e : rb_len N r w + rb_len N w e < N -> rb_len N r e = rb_len N r w + rb_len N w e.
Proof.
  unfold rb_len. intros Hl. pose proof (Z.mod_pos_bound (w - r) N). pose proof (Z.mod_pos_bound (e - w) N).
  rewrite <- (Z.mod_small ((w - r) mod N + (e - w) mod N) N) by lia. rewrite <- Zplus_mod. f_equal. ring.
Qed.

Lemma rb_split buf r w e : rb_len N r w + rb_len N w e < N ->
  rb_list N size buf r e = rb_list N size buf r w ++ rb_list N size buf w e.
Proof.
  intros Hl. unfold rb_list. rewrite (rb_len_split r w e) by exact Hl.
  assert (0 <= rb_len N r w /\ 0 <= rb_len N w e) as [? ?] by (unfold rb_len; split; apply Z.mod_pos_bound; lia).
  rewrite seqZ_app, fmap_app by lia. f_equal. rewrite Z.add_0_l. set (a := rb_len N r w) in *.
  rewrite <- (Z.add_0_r a) at 1. rewrite <- fmap_add_seqZ, <- list_fmap_compose. apply list_fmap_ext. intros i k _. simpl.
  rewrite !mod_mod_size. rewrite <- (mod_mod_size (r + (a + k))), <- (mod_mod_size (w + k)). f_equal. f_equal.
  unfold a, rb_len. replace (r + ((w - r) mod N + k)) with ((w - r) mod N + (r + k)) by ring.
  rewrite Zplus_mod_idemp_l. f_equal. ring.
Qed.

(** Taking back the last byte. *)
Lemma rb_unpush buf w e : 0 <= w < N -> 0 <= e < N -> e <> w ->
  rb_len N w e = rb_len N w ((e - 1) mod N) + 1 /\
  rb_list N size buf w e = rb_list N size buf w ((e - 1) mod N) ++ [zget buf (((e - 1) mod N) mod size)].
Proof.
  intros Hw He Hne. set (e' := (e - 1) mod N).
  assert (0 <= e' < N) as He' by (apply Z.mod_pos_bound; lia).
  assert (((e' + 1) mod N) = e) as Hback.
  { unfold e'. rewrite Zplus_mod_idemp_l. replace (e - 1 + 1) with e by ring. apply Z.mod_small. lia. }
  assert (rb_len N e' e = 1) as H1.
  { unfold rb_len. rewrite <- Hback, Zminus_mod_idemp_l. replace (e' + 1 - e') with 1 by ring. apply Z.mod_small. lia. }
  assert (rb_len N w e' + 1 < N) as Hlt.
  { unfold rb_len. pose proof (Z.mod_pos_bound (e' - w) N). destruct (Z.eq_dec ((e' - w) mod N) (N - 1)) as [E|]; [|lia].
    exfalso. apply Hne. rewrite <- Hback. replace (e' + 1) with ((e' - w) + (w + 1)) by ring.
    rewrite <- Zplus_mod_idemp_l, E. replace (N - 1 + (w + 1)) with (w + 1 * N) by ring. rewrite Z.mod_add by lia. apply Z.mod_small. lia. }
  split; [rewrite <- H1; apply rb_len_split; lia|]. rewrite (rb_split buf w e' e) by lia. f_equal.
  unfold rb_list. rewrite H1. change (seqZ 0 1) with [0]. cbn [fmap list_fmap]. rewrite Z.add_0_r, mod_mod_size. reflexivity.
Qed.
End ring.
