(* ===== verification/Uart.v ===== *)
(** * uart.c and consputc of console.c: the serial line.

    The device is part of the state: the input bytes waiting in RHR, the answers
    the line status register will give about the transmitter (when the list is
    exhausted the transmitter stays idle), and the bytes written to THR.  The
    busy-wait of uartputc_sync therefore ends.  push_off/pop_off around it are
    balanced and change nothing here; after a panic nothing runs, so [panicked]
    is never set in a running kernel. *)

From S2P Require Import Prelude Exec Params State Mem Sched Sleeplock RingBuf.

Definition LSR_RX_READY : Z := 1.
Definition LSR_TX_IDLE : Z := 32.
Definition UART_TX_BUF_SIZE : Z := 32.

Definition upd_uart (f : uart_t -> uart_t) : KM unit := modify (fun s => with_k_uart (f (k_uart s)) s).
Definition get_uart : KM uart_t := gets (fun s => k_uart s).

Definition tx_idle (l : list bool) : bool := match l with false :: _ => false | _ => true end.

(** ReadReg(LSR), WriteReg(THR, c) and ReadReg(RHR). *)
Definition ReadLSR : KM Z :=
  u <- get_uart ;;
  upd_uart (with_u_idle (tail (u_idle u))) ;;;
  ret (Z.lor (match u_rx u with [] => 0 | _ => LSR_RX_READY end)
             (if tx_idle (u_idle u) then LSR_TX_IDLE else 0)).

Definition WriteTHR (c : Z) : KM unit := upd_uart (fun u => with_u_sent (u_sent u ++ [u8 c]) u).

Definition ReadRHR : KM Z :=
  u <- get_uart ;;
  upd_uart (with_u_rx (tail (u_rx u))) ;;;
  ret (hd 0 (u_rx u)).

Definition uartputc_sync (c : Z) : KM unit :=
  u <- get_uart ;;
  loop (S (length (u_idle u))) (fun _ : unit =>
    lsr <- ReadLSR ;;
    if Z.land lsr LSR_TX_IDLE =? 0 then ret (inl tt) else ret (inr tt)) tt ;;;
  WriteTHR c.

Definition uartstart : KM unit :=
  u <- get_uart ;;
  loop (S (Z.to_nat (u64 (u_tx_w u - u_tx_r u)))) (fun _ : unit =>
    u <- get_uart ;;
    if u_tx_w u =? u_tx_r u then ret (inr tt) else
    lsr <- ReadLSR ;;
    if Z.land lsr LSR_TX_IDLE =? 0 then ret (inr tt) else
    let c := zget (u_tx_buf u) (u_tx_r u mod UART_TX_BUF_SIZE) in
    upd_uart (fun u => with_u_tx_r (u64 (u_tx_r u + 1)) u) ;;;
    wakeup Cuart ;;;
    WriteTHR c ;;;
    ret (inl tt)) tt.

Definition uartputc `{Waits} (c : Z) : KM unit :=
  acquire Luart ;;;
  loop (S waits) (fun _ : unit =>
    u <- get_uart ;;
    if u_tx_w u =? u64 (u_tx_r u + UART_TX_BUF_SIZE) then sleep Cuart Luart ;;; ret (inl tt)
    else ret (inr tt)) tt ;;;
  upd_uart (fun u => with_u_tx_buf (zset (u_tx_buf u) (u_tx_w u mod UART_TX_BUF_SIZE) (u8 c)) u) ;;;
  upd_uart (fun u => with_u_tx_w (u64 (u_tx_w u + 1)) u) ;;;
  uartstart ;;;
  release Luart.

Definition uartgetc : KM Z :=
  lsr <- ReadLSR ;;
  if negb (Z.land lsr 1 =? 0) then ReadRHR else ret (-1).

Definition BACKSPACE : Z := 256.

Definition consputc (c : Z) : KM unit :=
  if c =? BACKSPACE then uartputc_sync 8 ;;; uartputc_sync 32 ;;; uartputc_sync 8
  else uartputc_sync c.

(** ** Polled output *)

(** [emits l s s']: the bytes [l] were sent and nothing else changed, but for
    the status answers used up. *)
Definition emits (l : list Z) (s s' : kernel) : Prop :=
  s' = with_k_uart (with_u_idle (u_idle (k_uart s')) (with_u_sent (u_sent (k_uart s) ++ l) (k_uart s))) s.

Lemma emits_nil s : emits [] s s.
Proof. red. rewrite app_nil_r. reflexivity. Qed.

Lemma emits_trans l1 l2 s1 s2 s3 : emits l1 s1 s2 -> emits l2 s2 s3 -> emits (l1 ++ l2) s1 s3.
Proof. unfold emits. intros E1 E2. rewrite E2, E1. rewrite app_assoc. reflexivity. Qed.

Lemma lsr_idle (rx : list Z) (b : bool) :
  (Z.land (Z.lor (match rx with [] => 0 | _ => LSR_RX_READY end) (if b then LSR_TX_IDLE else 0)) LSR_TX_IDLE =? 0) = negb b.
Proof. destruct rx, b; reflexivity. Qed.

Lemma uartputc_sync_spec c s (Q : unit -> kernel -> Prop) :
  (forall s', emits [u8 c] s s' -> Q tt s') -> wp (uartputc_sync c) Q s.
Proof.
  intros HQ. unfold uartputc_sync, get_uart. do 2 wp_step. wp_step.
  apply (wp_loop (fun n (_ : unit) s1 => n = length (u_idle (k_uart s1)) /\ emits [] s s1) _ _) with (n := length (u_idle (k_uart s))).
  - intros n [] s1 [-> He]. unfold ReadLSR, get_uart, upd_uart. do 6 wp_step. ksimp.
    rewrite lsr_idle. pose proof He as E1. red in E1. destruct (u_idle (k_uart s1)) as [|[] idle] eqn:Ei; cbn [tx_idle negb]; wp_steps.
    + unfold WriteTHR, upd_uart. wp_steps. apply HQ. red. rewrite E1, app_nil_r. reflexivity.
    + unfold WriteTHR, upd_uart. wp_steps. apply HQ. red. rewrite E1, app_nil_r. reflexivity.
    + exists (length idle). split; [simpl; lia|]. split; [reflexivity|]. red. rewrite E1. reflexivity.
  - split; [reflexivity|apply emits_nil].
  - lia.
Qed.

Definition cons_bytes (c : Z) : list Z := if c =? BACKSPACE then [8; 32; 8] else [u8 c].

Lemma consputc_spec c s (Q : unit -> kernel -> Prop) :
  (forall s', emits (cons_bytes c) s s' -> Q tt s') -> wp (consputc c) Q s.
Proof.
  intros HQ. unfold consputc, cons_bytes in *. destruct (c =? BACKSPACE).
  - wp_step. apply uartputc_sync_spec. intros s1 E1. wp_step. apply uartputc_sync_spec. intros s2 E2.
    apply uartputc_sync_spec. intros s3 E3. apply HQ. apply (emits_trans [8; 32] [8] s s2); [|exact E3].
    by apply (emits_trans [8] [32] s s1).
  - by apply uartputc_sync_spec.
Qed.

Lemma forM_consputc l s (Q : unit -> kernel -> Prop) :
  (forall s', emits (concat (map cons_bytes l)) s s' -> Q tt s') -> wp (forM l consputc) Q s.
Proof.
  revert s. induction l as [|c l IH]; intros s HQ; cbn [forM].
  - wp_steps. apply HQ, emits_nil.
  - wp_step. apply consputc_spec. intros s1 E1. apply IH. intros s2 E2. apply HQ. cbn. by eapply emits_trans.
Qed.

(** ** Interrupt-driven output *)

Record uart_inv (u : uart_t) : Prop := {
  ui_buf : length (u_tx_buf u) = Z.to_nat UART_TX_BUF_SIZE;
  ui_r : 0 <= u_tx_r u < 2 ^ 64;
  ui_w : 0 <= u_tx_w u < 2 ^ 64;
  ui_len : rb_len (2 ^ 64) (u_tx_r u) (u_tx_w u) <= UART_TX_BUF_SIZE;
  ui_bytes : Forall (fun c => 0 <= c < 256) (u_tx_buf u);
}.

(** Everything ever written: what the device got and what is still buffered. *)
Definition uart_out (u : uart_t) : list Z :=
  u_sent u ++ rb_list (2 ^ 64) UART_TX_BUF_SIZE (u_tx_buf u) (u_tx_r u) (u_tx_w u).

Definition uart_frame (s s' : kernel) : Prop := wakes (with_k_uart (k_uart s') s) s'.

Lemma wakes_uart u s s' : wakes s s' -> wakes (with_k_uart u s) (with_k_uart u s').
Proof. intros [A B C]. split; [rewrite A; reflexivity|exact B|exact C]. Qed.

Lemma wakes_uart_same s s' : wakes s s' -> k_uart s' = k_uart s.
Proof. intros [A _ _]. rewrite A. reflexivity. Qed.

Lemma uart_frame_trans s1 s2 s3 : uart_frame s1 s2 -> uart_frame s2 s3 -> uart_frame s1 s3.
Proof.
  unfold uart_frame. intros W1 W2. apply (wakes_trans _ (with_k_uart (k_uart s3) s2)); [|exact W2].
  apply (wakes_uart (k_uart s3)) in W1. exact W1.
Qed.

Lemma uart_size : 0 < UART_TX_BUF_SIZE /\ UART_TX_BUF_SIZE < 2 ^ 64 /\ (UART_TX_BUF_SIZE | 2 ^ 64).
Proof. unfold UART_TX_BUF_SIZE. split_and!; [lia|lia|exists (2 ^ 59); reflexivity]. Qed.

(** Sending the byte at the read counter. *)
Lemma uart_send u : uart_inv u -> u_tx_w u <> u_tx_r u ->
  let c := zget (u_tx_buf u) (u_tx_r u mod UART_TX_BUF_SIZE) in
  let u' := with_u_sent (u_sent u ++ [c]) (with_u_tx_r (u64 (u_tx_r u + 1)) u) in
  uart_inv u' /\ uart_out u' = uart_out u /\ rb_len (2 ^ 64) (u_tx_r u) (u_tx_w u) = 1 + rb_len (2 ^ 64) (u_tx_r u') (u_tx_w u').
Proof.
  intros [A B C D E] Hne c u'. destruct uart_size as (S1 & S2 & S3).
  assert (rb_len (2 ^ 64) (u_tx_r u) (u_tx_w u) = 1 + rb_len (2 ^ 64) (u_tx_r u') (u_tx_w u')) as El by (by eapply rb_len_pop).
  split; [split; [exact A|apply u64_range|exact C|lia|exact E]|]. split; [|exact El].
  unfold uart_out. rewrite (rb_pop (2 ^ 64) UART_TX_BUF_SIZE S1 S2 S3 (u_tx_buf u) (u_tx_r u)) by auto.
  cbn [u_sent u' with_u_sent]. rewrite <- app_assoc. reflexivity.
Qed.

Lemma uartstart_spec s (Q : unit -> kernel -> Prop) :
  uart_inv (k_uart s) -> no_proc_lock s ->
  (forall s', uart_inv (k_uart s') -> uart_out (k_uart s') = uart_out (k_uart s) ->
     uart_frame s s' -> Q tt s') ->
  wp uartstart Q s.
Proof.
  intros Hi Hnl HQ. unfold uartstart, get_uart. do 2 wp_step.
  set (I := fun n (_ : unit) s1 => uart_inv (k_uart s1) /\ uart_out (k_uart s1) = uart_out (k_uart s) /\
    uart_frame s s1 /\
    n = Z.to_nat (rb_len (2 ^ 64) (u_tx_r (k_uart s1)) (u_tx_w (k_uart s1)))).
  eapply (wp_loop I) with (n := Z.to_nat (rb_len (2 ^ 64) (u_tx_r (k_uart s)) (u_tx_w (k_uart s)))).
  - intros n [] s1 (Hi1 & Ho1 & Hf1 & ->). do 2 wp_step. destruct (Z.eqb_spec (u_tx_w (k_uart s1)) (u_tx_r (k_uart s1))) as [E|E].
    { wp_steps. by apply HQ. }
    assert (forall idle, Q tt (with_k_uart (with_u_idle idle (k_uart s1)) s1)) as Hstop.
    { intros idle. apply HQ; [destruct Hi1; by split|exact Ho1|]. eapply (uart_frame_trans _ s1); [exact Hf1|apply wakes_refl]. }
    unfold ReadLSR, get_uart, upd_uart. do 6 wp_step. ksimp. rewrite lsr_idle.
    destruct (tx_idle (u_idle (k_uart s1))); cbn [negb]; [|wp_steps; apply Hstop].
    destruct (uart_send _ Hi1 E) as (Hi2 & Ho2 & El). set (c := zget _ _) in *. do 3 wp_step. ksimp.
    apply wakeup_wakes.
    { intros j. ksimp. pose proof (wk_rest _ _ Hf1) as Er. rewrite Er. ksimp. apply Hnl. }
    intros s2 Hw. assert (0 <= c < 256) as Hc.
    { pose proof (ui_bytes _ Hi1) as Hb. rewrite Forall_forall in Hb. apply Hb, zget_elem_of.
      pose proof (ui_buf _ Hi1). pose proof (Z.mod_pos_bound (u_tx_r (k_uart s1)) UART_TX_BUF_SIZE). unfold UART_TX_BUF_SIZE in *. lia. }
    unfold WriteTHR, upd_uart. wp_steps. pose proof (wakes_uart_same _ _ Hw) as Eu. rewrite Eu. ksimp. rewrite u8_id by exact Hc.
    eexists. split; [|red; ksimp; split_and!; try reflexivity].
    + match goal with |- (Z.to_nat ?n < _)%nat => change (Z.to_nat n) with (Z.to_nat (rb_len (2 ^ 64) (u64 (u_tx_r (k_uart s1) + 1)) (u_tx_w (k_uart s1)))) end.
      cbn [u_tx_r u_tx_w with_u_sent with_u_tx_r] in El. pose proof (Z.mod_pos_bound (u_tx_w (k_uart s1) - u64 (u_tx_r (k_uart s1) + 1)) (2 ^ 64) ltac:(lia)) as Hp.
      fold (rb_len (2 ^ 64) (u64 (u_tx_r (k_uart s1) + 1)) (u_tx_w (k_uart s1))) in Hp. lia.
    + destruct Hi2; by split.
    + rewrite <- Ho1, <- Ho2. reflexivity.
    + eapply uart_frame_trans; [exact Hf1|]. eapply (uart_frame_trans _ s2); [|apply wakes_refl].
      red. rewrite Eu. exact Hw.
  - split_and!; auto. apply wakes_refl.
  - unfold rb_len, u64. lia.
Qed.

Lemma uart_push u c : uart_inv u -> rb_len (2 ^ 64) (u_tx_r u) (u_tx_w u) < UART_TX_BUF_SIZE ->
  let u' := with_u_tx_w (u64 (u_tx_w u + 1)) (with_u_tx_buf (zset (u_tx_buf u) (u_tx_w u mod UART_TX_BUF_SIZE) (u8 c)) u) in
  uart_inv u' /\ uart_out u' = uart_out u ++ [u8 c].
Proof.
  intros [A B C D E] Hl u'. destruct uart_size as (S1 & S2 & S3). split.
  - split; cbn [u' u_tx_buf u_tx_r u_tx_w with_u_tx_w with_u_tx_buf]; [by rewrite zset_length|exact B|apply u64_range| |].
    + unfold u64. rewrite (rb_len_push (2 ^ 64) UART_TX_BUF_SIZE S1 S2) by exact Hl. lia.
    + unfold zset. apply Forall_insert; [exact E|apply u8_range].
  - unfold uart_out. cbn [u' u_sent u_tx_buf u_tx_r u_tx_w with_u_tx_w with_u_tx_buf]. unfold u64.
    rewrite (rb_push (2 ^ 64) UART_TX_BUF_SIZE S1 S2 S3) by auto. by rewrite app_assoc.
Qed.

Lemma uart_full u : uart_inv u ->
  (u_tx_w u =? u64 (u_tx_r u + UART_TX_BUF_SIZE)) = (rb_len (2 ^ 64) (u_tx_r u) (u_tx_w u) =? UART_TX_BUF_SIZE).
Proof.
  intros [A B C D E]. destruct uart_size as (S1 & S2 & S3). pose proof (rb_full _ _ S1 S2 (u_tx_r u) (u_tx_w u) C) as [F1 F2].
  unfold u64. destruct (Z.eqb_spec (u_tx_w u) ((u_tx_r u + UART_TX_BUF_SIZE) mod 2 ^ 64)) as [E1|E1].
  - symmetry. apply Z.eqb_eq. auto.
  - symmetry. apply Z.eqb_neq. auto.
Qed.

(** The transmit buffer is a queue.  uartputc(c) on a buffer with room
    returns, and the bytes sent so far followed by the bytes still buffered are
    what they were, followed by [c]: no byte is lost, duplicated or reordered,
    however many of them the device accepts meanwhile.  On a full buffer the
    writer goes to sleep, to be woken when uartstart() makes room. *)
Theorem uartputc_fifo `{Waits} i pid c s :
  running i pid s -> uart_inv (k_uart s) ->
  let n := rb_len (2 ^ 64) (u_tx_r (k_uart s)) (u_tx_w (k_uart s)) in
  (n < UART_TX_BUF_SIZE ->
     wp (uartputc c) (fun _ s' => uart_inv (k_uart s') /\ uart_out (k_uart s') = uart_out (k_uart s) ++ [u8 c] /\
       uart_frame s s') s) /\
  (n = UART_TX_BUF_SIZE -> exists k, uartputc c s = Swtch (asleep i Cuart (with_k_held [Luart] s)) k).
Proof.
  intros Hr Hi n. pose proof (ru_held _ _ _ Hr) as Hh. pose proof (uart_full _ Hi) as Hfull. split.
  - intros Hn. unfold uartputc. wp_step. apply wp_acquire; [rewrite Hh; apply not_elem_of_nil|].
    cbn [loop]. unfold get_uart. do 4 wp_step. ksimp. rewrite Hfull. fold n. destruct (Z.eqb_spec n UART_TX_BUF_SIZE) as [?|_]; [lia|].
    do 2 wp_step. unfold upd_uart. do 4 wp_step. ksimp. destruct (uart_push _ c Hi Hn) as [Hi1 Ho1].
    wp_step. apply uartstart_spec; [exact Hi1| |].
    { intros j. ksimp. rewrite Hh. intros Hx. apply list_elem_of_singleton in Hx. discriminate. }
    intros s1 Hi2 Ho2 Hf. pose proof (wk_rest _ _ Hf) as E1. eapply wp_release; [rewrite E1; reflexivity|rewrite Hh; apply not_elem_of_nil|].
    ksimp. split_and!; [exact Hi2|rewrite Ho2; exact Ho1|]. red. ksimp. destruct Hf as [W1 W2 W3].
    split; [rewrite W1; reflexivity|exact W2|exact W3].
  - intros Hn. destruct (sleep_runs i Cuart Luart (with_k_held [Luart] s)) as (k & Hs & _);
      [exact (ru_cur _ _ _ Hr)|exact (ru_len _ _ _ Hr)|reflexivity|discriminate|].
    eexists. unfold uartputc, bind at 1. unfold acquire. rewrite Hh, decide_False by apply not_elem_of_nil. cbn [rbind loop].
    apply bind_swtch, bind_swtch. unfold bind at 1, get_uart, gets. cbn [rbind]. ksimp.
    rewrite Hfull. fold n. rewrite (proj2 (Z.eqb_eq _ _) Hn). by apply bind_swtch.
Qed.

Lemma uartputc_fifo_witness : wp (@uartputc 1%nat 65) (fun _ s' => uart_out (k_uart s') = [65]) (two_procs []).
Proof.
  set (s := two_procs []). assert (k_uart s = mkUart (replicate 32 0) 0 0 [] [] []) as Eu by reflexivity.
  assert (running 0 1 s) as Hr.
  { split; [reflexivity|reflexivity|apply (bool_decide_unpack _); vm_compute; reflexivity|reflexivity]. }
  assert (uart_inv (k_uart s)) as Hi.
  { rewrite Eu. split; [reflexivity|cbn; lia|cbn; lia|discriminate|]. apply Forall_replicate. lia. }
  clearbody s. eapply wp_mono; [apply (@uartputc_fifo 1%nat 0%nat 1 65 s Hr Hi)|].
  - rewrite Eu. reflexivity.
  - rewrite Eu. cbn beta. intros u s' (_ & H & _). exact H.
Defined.
