(* ===== verification/Printf.v ===== *)
(** * printf.c: formatted console output.

    The variadic arguments are a list of machine words and strings; reading an
    argument of the wrong kind, or one too many, is undefined in C and ends the
    execution here. *)

From S2P Require Import Prelude Exec Params State Mem Sched Sleeplock RingBuf Uart.

Definition digits : list Z := str "0123456789abcdef".

(** The do-while loop that fills [buf], least significant digit first; 32
    iterations are enough for an unsigned int. *)
Fixpoint int_digits (fuel : nat) (x base : Z) : list Z :=
  match fuel with
  | O => []
  | S n => zget digits (x mod base) :: (if x / base =? 0 then [] else int_digits n (x / base) base)
  end.

Definition int_buf (xx base : Z) (sign : bool) : list Z :=
  let neg := sign && (xx <? 0) in
  let x := if neg then u32 (- xx) else u32 xx in
  int_digits 32 x base ++ (if neg then str "-" else []).

Definition printint (xx base : Z) (sign : bool) : KM unit := forM (rev (int_buf xx base sign)) consputc.

(** for (i = 0; i < 16; i++, x <<= 4) *)
Fixpoint ptr_digits (n : nat) (x : Z) : list Z :=
  match n with
  | O => []
  | S n => zget digits (Z.shiftr x 60) :: ptr_digits n (u64 (Z.shiftl x 4))
  end.

Definition printptr (x : Z) : KM unit :=
  consputc 48 ;;; consputc 120 ;;; forM (ptr_digits 16 x) consputc.

Inductive arg := Aword (w : Z) | Astr (s : option (list Z)).

Definition va_word (args : list arg) : KM (Z * list arg) :=
  match args with
  | Aword w :: args => ret (w, args)
  | _ => panic "va_arg"
  end.
Definition va_str (args : list arg) : KM (option (list Z) * list arg) :=
  match args with
  | Astr o :: args => ret (o, args)
  | _ => panic "va_arg"
  end.

(** The loop over the format string ('%' is 37, 'd' 100, 'x' 120, 'p' 112, 's' 115). *)
Fixpoint printf_loop (fmt : list Z) (args : list arg) : KM unit :=
  match fmt with
  | [] => ret tt
  | c :: fmt =>
      if negb (c =? 37) then consputc c ;;; printf_loop fmt args else
      match fmt with
      | [] => ret tt
      | c :: fmt =>
          if c =? 100 then do (w, args) <- va_word args ;; printint (i32 w) 10 true ;;; printf_loop fmt args
          else if c =? 120 then do (w, args) <- va_word args ;; printint (i32 w) 16 true ;;; printf_loop fmt args
          else if c =? 112 then do (w, args) <- va_word args ;; printptr (u64 w) ;;; printf_loop fmt args
          else if c =? 115 then
            do (o, args) <- va_str args ;;
            forM (default (str "(null)") o) consputc ;;;
            printf_loop fmt args
          else if c =? 37 then consputc 37 ;;; printf_loop fmt args
          else consputc 37 ;;; consputc c ;;; printf_loop fmt args
      end
  end.

Definition printf (fmt : list Z) (args : list arg) : KM unit :=
  locking <- gets (fun s => k_locking s) ;;
  when locking (acquire Lpr) ;;;
  printf_loop fmt args ;;;
  when locking (release Lpr).

Definition printfinit : KM unit := modify (with_k_locking true).

(** A format without directives is printed as it is. *)
Lemma printf_plain fmt s (Q : unit -> kernel -> Prop) :
  Forall (fun c => c <> 37) fmt -> Lpr ∉ k_held s ->
  (forall s', emits (concat (map cons_bytes fmt)) s s' -> Q tt s') -> wp (printf fmt []) Q s.
Proof.
  intros Hf Hh HQ. assert (forall s (Q : unit -> kernel -> Prop),
    (forall s', emits (concat (map cons_bytes fmt)) s s' -> Q tt s') -> wp (printf_loop fmt []) Q s) as Hloop.
  { clear -Hf. induction Hf as [|c fmt Hc Hf IH]; intros s Q HQ; cbn [printf_loop].
    - wp_steps. apply HQ, emits_nil.
    - rewrite (proj2 (Z.eqb_neq _ _) Hc). cbn [negb]. wp_step. apply consputc_spec. intros s1 E1. apply IH.
      intros s2 E2. apply HQ. cbn. by eapply emits_trans. }
  unfold printf. do 3 wp_step. apply wp_when; intros Hl; rewrite Hl.
  - apply wp_acquire; [exact Hh|]. wp_step. apply Hloop. intros s1 E1. cbn [when]. red in E1.
    eapply wp_release; [rewrite E1; reflexivity|exact Hh|]. apply HQ. red. rewrite E1. reflexivity.
  - wp_step. apply Hloop. intros s1 E1. cbn [when]. wp_steps. auto.
Qed.

(** ** Numbers *)

(** Reading a numeral back. *)
Definition digit_val (c : Z) : Z := if c <? 58 then c - 48 else c - 87.
Definition parse_digits (base : Z) (l : list Z) : Z := fold_left (fun v c => v * base + digit_val c) l 0.
Definition parse_num (base : Z) (l : list Z) : Z :=
  if hd 0 l =? 45 then - parse_digits base (tail l) else parse_digits base l.

Lemma digit_ok d : 0 <= d < 16 -> digit_val (zget digits d) = d /\ 48 <= zget digits d < 128.
Proof.
  intros Hd. assert (d ∈ seqZ 0 16) as Hin by (apply elem_of_seqZ; lia). revert Hin.
  change (seqZ 0 16) with [0;1;2;3;4;5;6;7;8;9;10;11;12;13;14;15].
  repeat (intros [->|Hin]%elem_of_cons; [vm_compute; split; [reflexivity|split; [discriminate|reflexivity]]|revert Hin]).
  intros Hin. by apply not_elem_of_nil in Hin.
Qed.

(** A digit is neither the minus sign nor a backspace request. *)
Lemma digits_bytes l : Forall (fun c => 48 <= c < 128) l -> concat (map cons_bytes l) = l.
Proof.
  induction 1 as [|c l Hc _ IH]; [reflexivity|]. cbn [map concat]. rewrite IH. unfold cons_bytes, BACKSPACE.
  destruct (Z.eqb_spec c 256) as [?|_]; [lia|]. rewrite u8_id by lia. reflexivity.
Qed.

Lemma parse_rev base l : parse_digits base (rev l) = fold_right (fun c v => v * base + digit_val c) 0 l.
Proof. unfold parse_digits. apply fold_left_rev_right || (rewrite <- fold_left_rev_right, rev_involutive; reflexivity). Qed.

Lemma int_digits_ok base fuel x : 2 <= base <= 16 -> 0 <= x < base ^ Z.of_nat fuel ->
  fold_right (fun c v => v * base + digit_val c) 0 (int_digits fuel x base) = x /\
  Forall (fun c => 48 <= c < 128) (int_digits fuel x base) /\
  (x <> 0 -> exists l c, int_digits fuel x base = l ++ [c] /\ c <> 48).
Proof.
  intros Hb. revert x. induction fuel as [|fuel IH]; intros x Hx.
  { change (base ^ Z.of_nat 0) with 1 in Hx. assert (x = 0) as -> by lia. split_and!; [reflexivity|constructor|lia]. }
  cbn [int_digits]. pose proof (Z.mod_pos_bound x base ltac:(lia)) as Hm. pose proof (Z.div_mod x base ltac:(lia)) as Hdm.
  destruct (digit_ok (x mod base) ltac:(lia)) as [Hv Hr]. destruct (Z.eqb_spec (x / base) 0) as [E|E].
  - cbn [fold_right]. split_and!; [rewrite Hv; lia|by apply Forall_singleton|]. intros Hne. exists [], (zget digits (x mod base)).
    split; [reflexivity|]. intros E48. rewrite E48 in Hv. change (digit_val 48) with 0 in Hv. lia.
  - rewrite Nat2Z.inj_succ, Z.pow_succ_r in Hx by lia. assert (0 <= x / base < base ^ Z.of_nat fuel) as Hq.
    { split; [apply Z.div_pos; lia|apply Z.div_lt_upper_bound; lia]. }
    destruct (IH _ Hq) as (IH1 & IH2 & IH3). cbn [fold_right]. split_and!.
    + rewrite IH1, Hv. lia.
    + by constructor.
    + intros _. destruct (IH3 E) as (l & c & El & Hc). exists (zget digits (x mod base) :: l), c. rewrite El. split; [reflexivity|exact Hc].
Qed.

Lemma rev_head {A} (l : list A) c : rev (l ++ [c]) = c :: rev l.
Proof. by rewrite rev_app_distr. Qed.

(** Printint() prints the number.  For every int, in base 10 or 16 (any
    base up to 16), the bytes sent to the console are a numeral that reads back
    as that int - INT_MIN included - without superfluous leading zeros. *)
Theorem printint_correct xx base s : 2 <= base <= 16 -> - 2 ^ 31 <= xx < 2 ^ 31 ->
  wp (printint xx base true) (fun _ s' => exists l, emits l s s' /\ parse_num base l = xx /\
    (xx > 0 -> hd 0 l <> 48) /\ (xx = 0 -> l = [48]) /\ (xx < 0 -> exists l', l = 45 :: l' /\ hd 0 l' <> 48)) s.
Proof.
  intros Hb Hx. unfold printint, int_buf. apply forM_consputc. cbn [andb]. set (neg := xx <? 0).
  set (x := if neg then u32 (- xx) else u32 xx). assert (x = Z.abs xx) as Ex.
  { unfold x, neg. destruct (Z.ltb_spec xx 0); rewrite u32_id by lia; lia. }
  assert (0 <= x < base ^ Z.of_nat 32) as Hr.
  { assert (2 ^ 32 <= base ^ Z.of_nat 32) by (apply Z.pow_le_mono_l; lia). lia. }
  destruct (int_digits_ok base 32 x Hb Hr) as (Hv & Hd & Hz). set (ds := int_digits 32 x base) in *.
  rewrite rev_app_distr. intros s' He. rewrite map_app, concat_app, (digits_bytes (rev ds)) in He by (by apply Forall_rev).
  rewrite <- parse_rev in Hv. eexists. split; [exact He|].
  assert (x <> 0 -> hd 0 (rev ds) <> 48) as Hhd.
  { intros Hne. destruct (Hz Hne) as (l & c & -> & Hc). by rewrite rev_head. }
  unfold neg in *. destruct (Z.ltb_spec xx 0) as [Hn|Hn].
  - change (concat (map cons_bytes (rev (str "-"))) ++ rev ds) with (45 :: rev ds). unfold parse_num. cbn [hd tail]. change (45 =? 45) with true. cbv iota. rewrite Hv.
    split_and!; [lia|lia|lia|]. intros _. exists (rev ds). split; [reflexivity|]. apply Hhd. lia.
  - cbn [rev map concat app]. split_and!; [|intros; apply Hhd; lia| |lia].
    + destruct (rev ds) as [|c l] eqn:Er; [by rewrite <- Hv in Ex; cbn in *; lia|].
      assert (c <> 45) as Hc by (apply Forall_rev in Hd; rewrite Er in Hd; apply Forall_cons in Hd; lia).
      unfold parse_num. cbn [hd]. rewrite (proj2 (Z.eqb_neq _ _) Hc). lia.
    + intros ->. unfold ds. rewrite Ex. reflexivity.
Qed.

Lemma ptr_digits_value n x v : (n <= 16)%nat -> 0 <= x < 2 ^ 64 ->
  fold_left (fun v c => v * 16 + digit_val c) (ptr_digits n x) v = v * 2 ^ (4 * Z.of_nat n) + x / 2 ^ (64 - 4 * Z.of_nat n) /\
  Forall (fun c => 48 <= c < 128) (ptr_digits n x) /\ length (ptr_digits n x) = n.
Proof.
  revert x v. induction n as [|n IH]; intros x v Hn Hx.
  { cbn [ptr_digits fold_left]. split_and!; [|constructor|reflexivity]. change (4 * Z.of_nat 0) with 0. rewrite Z.div_small by lia. lia. }
  cbn [ptr_digits fold_left length]. rewrite Z.shiftr_div_pow2 by lia. rewrite Z.shiftl_mul_pow2 by lia.
  pose proof (Z.div_mod x (2 ^ 60) ltac:(lia)) as Hdm. pose proof (Z.mod_pos_bound x (2 ^ 60) ltac:(lia)) as Hm.
  set (d := x / 2 ^ 60) in *. set (r := x mod 2 ^ 60) in *. assert (0 <= d < 16) as Hd by lia.
  destruct (digit_ok d Hd) as [Hv Hr]. assert (u64 (x * 2 ^ 4) = 16 * r) as Eu.
  { unfold u64. rewrite Hdm. replace ((2 ^ 60 * d + r) * 2 ^ 4) with (16 * r + d * 2 ^ 64) by ring. rewrite Z.mod_add by lia. apply Z.mod_small. lia. }
  rewrite Eu, Hv. destruct (IH (16 * r) (v * 16 + d) ltac:(lia) ltac:(lia)) as (IH1 & IH2 & IH3). rewrite IH1.
  split_and!; [|by constructor|by rewrite IH3]. set (k := 64 - 4 * Z.of_nat (S n)).
  replace (64 - 4 * Z.of_nat n) with (4 + k) by lia. rewrite Z.pow_add_r by lia. change (2 ^ 4) with 16.
  rewrite Z.div_mul_cancel_l by lia. rewrite Hdm. replace (2 ^ 60 * d) with ((d * 2 ^ (60 - k)) * 2 ^ k).
  2:{ rewrite <- Z.mul_assoc, <- Z.pow_add_r by lia. replace (60 - k + k) with 60 by lia. ring. }
  rewrite (Z.add_comm _ r), Z.div_add by (apply Z.pow_nonzero; lia).
  replace (4 * Z.of_nat (S n)) with (4 + 4 * Z.of_nat n) by lia. rewrite Z.pow_add_r by lia.
  replace (60 - k) with (4 * Z.of_nat n) by lia. change (2 ^ 4) with 16. ring.
Qed.

(** Printptr() prints "0x" and the sixteen hexadecimal digits of the
    address, and nothing else. *)
Theorem printptr_correct x s : 0 <= x < 2 ^ 64 ->
  wp (printptr x) (fun _ s' => exists l, emits (str "0x" ++ l) s s' /\ length l = 16%nat /\ parse_digits 16 l = x) s.
Proof.
  intros Hx. destruct (ptr_digits_value 16 x 0 ltac:(lia) Hx) as (Hv & Hd & Hl). unfold printptr.
  wp_step. apply consputc_spec. intros s1 E1. wp_step. apply consputc_spec. intros s2 E2. apply forM_consputc. intros s3 E3.
  rewrite digits_bytes in E3 by exact Hd. exists (ptr_digits 16 x). split_and!; [|exact Hl|].
  - apply (emits_trans [48; 120] _ s s2); [|exact E3]. exact (emits_trans [48] [120] s s1 s2 E1 E2).
  - unfold parse_digits. rewrite Hv. change (64 - 4 * Z.of_nat 16) with 0. rewrite Z.div_1_r. lia.
Qed.

Lemma printint_correct_witness :
  wp (printint (- 2 ^ 31) 10 true) (fun _ s' => exists l, emits l (boot ∅) s' /\ parse_num 10 l = - 2 ^ 31) (boot ∅).
Proof.
  generalize (boot ∅). intros s. eapply wp_mono; [apply (printint_correct (- 2 ^ 31) 10 s); lia|].
  cbn beta. intros u s' (l & H1 & H2 & _). exists l. split; [exact H1|exact H2].
Defined.

Lemma printptr_correct_witness :
  wp (printptr KERNBASE) (fun _ s' => exists l, emits (str "0x" ++ l) (boot ∅) s' /\ parse_digits 16 l = KERNBASE) (boot ∅).
Proof.
  generalize (boot ∅). intros s. eapply wp_mono; [apply (printptr_correct KERNBASE s); unfold KERNBASE; lia|].
  cbn beta. intros u s' (l & H1 & _ & H2). exists l. split; [exact H1|exact H2].
Defined.
