(* ===== verification/Console.v ===== *)
(** * console.c, uartintr of uart.c and procdump of proc.c: the console. *)

From S2P Require Import Prelude Exec Params State Mem Vm Sched Sleeplock RingBuf Uart Printf.

(** ** procdump *)

Definition state_name (st : procstate) : list Z :=
  match st with
  | UNUSED => str "unused"
  | USED => str "used"
  | SLEEPING => str "sleep "
  | RUNNABLE => str "runble"
  | RUNNING => str "run   "
  | ZOMBIE => str "zombie"
  end.

(** A C string in a char array: the bytes before the NUL. *)
Definition cstr (l : list Z) : list Z := take (Z.to_nat (strlen l)) l.

Definition newline : list Z := [10].

Definition procdump : KM unit :=
  printf newline [] ;;;
  forM procs (fun i =>
    p <- proc_at i ;;
    if decide (p_state p = UNUSED) then ret tt else
    printf (str "%d %s %s") [Aword (p_pid p); Astr (Some (state_name (p_state p))); Astr (Some (cstr (p_name p)))] ;;;
    printf newline []).

(** ** console.c *)

Definition INPUT_BUF_SIZE : Z := 128.
Definition upd_cons (f : cons_t -> cons_t) : KM unit := modify (fun s => with_k_cons (f (k_cons s)) s).
Definition get_cons : KM cons_t := gets (fun s => k_cons s).

(** C('P'), C('U'), C('H') and C('D'). *)
Definition ctrl_P : Z := 16.
Definition ctrl_U : Z := 21.
Definition ctrl_H : Z := 8.
Definition ctrl_D : Z := 4.

Section console.
Context `{Waits}.

Definition consolewrite (user_src : bool) (src n : Z) : KM Z :=
  loop (S (Z.to_nat n)) (fun i =>
    if i <? n then
      do (r, c) <- either_copyin user_src (u64 (src + i)) 1 ;;
      if r =? -1 then ret (inr i) else
      uartputc (hd 0 c) ;;;
      ret (inl (i + 1))
    else ret (inr i)) 0.

Definition consoleread (user_dst : bool) (dst n : Z) : KM Z :=
  let target := u32 n in
  acquire Lcons ;;;
  r <- loop (S (Z.to_nat n)) (fun '(dst, n) =>
    if negb (0 <? n) then ret (inr (Some n)) else
    ready <- loop (S waits) (fun _ : unit =>
      cs <- get_cons ;;
      if c_r cs =? c_w cs then
        i <- curproc ;;
        k <- killed i ;;
        if k then release Lcons ;;; ret (inr false)
        else sleep Ccons Lcons ;;; ret (inl tt)
      else ret (inr true)) tt ;;
    if negb ready then ret (inr None) else
    cs <- get_cons ;;
    let c := zget (c_buf cs) (c_r cs mod INPUT_BUF_SIZE) in
    upd_cons (fun cs => with_c_r (u32 (c_r cs + 1)) cs) ;;;
    if c =? ctrl_D then
      when (u32 n <? target) (upd_cons (fun cs => with_c_r (u32 (c_r cs - 1)) cs)) ;;;
      ret (inr (Some n))
    else
      rc <- either_copyout user_dst dst [c] ;;
      if rc =? -1 then ret (inr (Some n)) else
      if c =? 10 then ret (inr (Some (n - 1)))
      else ret (inl (u64 (dst + 1), n - 1))) (dst, n) ;;
  match r with
  | None => ret (-1)
  | Some n => release Lcons ;;; ret (i32 (target - n))
  end.

Definition consoleintr (c : Z) : KM unit :=
  acquire Lcons ;;;
  (if c =? ctrl_P then procdump
   else if c =? ctrl_U then
     cs <- get_cons ;;
     loop (S (Z.to_nat (u32 (c_e cs - c_w cs)))) (fun _ : unit =>
       cs <- get_cons ;;
       if negb (c_e cs =? c_w cs) && negb (zget (c_buf cs) (u32 (c_e cs - 1) mod INPUT_BUF_SIZE) =? 10) then
         upd_cons (fun cs => with_c_e (u32 (c_e cs - 1)) cs) ;;;
         consputc BACKSPACE ;;;
         ret (inl tt)
       else ret (inr tt)) tt
   else if (c =? ctrl_H) || (c =? 127) then
     cs <- get_cons ;;
     when (negb (c_e cs =? c_w cs))
       (upd_cons (fun cs => with_c_e (u32 (c_e cs - 1)) cs) ;;;
        consputc BACKSPACE)
   else
     cs <- get_cons ;;
     when (negb (c =? 0) && (u32 (c_e cs - c_r cs) <? INPUT_BUF_SIZE))
       (let c := if c =? 13 then 10 else c in
        consputc c ;;;
        upd_cons (fun cs => with_c_e (u32 (c_e cs + 1)) (with_c_buf (zset (c_buf cs) (c_e cs mod INPUT_BUF_SIZE) (u8 c)) cs)) ;;;
        cs <- get_cons ;;
        when ((c =? 10) || (c =? ctrl_D) || (u32 (c_e cs - c_r cs) =? INPUT_BUF_SIZE))
          (upd_cons (fun cs => with_c_w (c_e cs) cs) ;;;
           wakeup Ccons))) ;;;
  release Lcons.

Definition uartintr : KM unit :=
  u <- get_uart ;;
  loop (S (length (u_rx u))) (fun _ : unit =>
    c <- uartgetc ;;
    if c =? -1 then ret (inr tt) else
    consoleintr c ;;;
    ret (inl tt)) tt ;;;
  acquire Luart ;;;
  uartstart ;;;
  release Luart.
End console.

(** uartinit writes the device's registers, which are memory at UART0: IER, LCR,
    the two bytes of the baud rate, LCR, FCR and IER again. *)
Definition uartinit : KM unit :=
  forM [(1, 0); (3, 128); (0, 3); (1, 0); (3, 3); (2, 7); (1, 3)] (fun '(reg, v) =>
    modify (fun s => with_k_mem (store_bytes (k_mem s) (UART0 + reg) [v]) s)).

(** consoleinit connects the console to devsw[CONSOLE], CONSOLE being 1. *)
Definition consoleinit : KM unit :=
  uartinit ;;;
  modify (fun s => with_k_devsw (<[1%nat := Some CONSOLE]> (k_devsw s)) s).
