(* ===== verification/Fs.v ===== *)
(** * fs.c: blocks, inodes, directories and path names.

    An inode pointer is a slot of the inode table.  The struct dinode number
    [inum % IPB] of a block starts at byte [64 * (inum % IPB)]; its fields are
    type, major, minor, nlink (2 bytes each), size (4) and addrs (13 * 4). *)

From S2P Require Import Prelude Exec Params State Mem Vm Sched Sleeplock Bio Log RingBuf Uart Printf Console.

(** The address, in the running process's kernel stack, of the local variable
    (a struct dirent, an ELF header) that the code reads into or writes from. *)
Class Frame := frame : Z.

Definition get_sb : KM superblock := gets (fun s => k_sb s).
Definition inode_at (ip : nat) : KM inode := gets (fun s => k_itable s !!! ip).
Definition upd_inode (ip : nat) (f : inode -> inode) : KM unit :=
  modify (fun s => with_k_itable (alter f ip (k_itable s)) s).

(** Changing the data of a buffer. *)
Definition upd_data (b : nat) (f : list Z -> list Z) : KM unit :=
  upd_buf b (fun bf => with_b_data (f (b_data bf)) bf).
Definition data_of (b : nat) : KM (list Z) := bf <- buf_at b ;; ret (b_data bf).

Definition IBLOCK (i : Z) (sb : superblock) : Z := u32 (i / IPB + sb_inodestart sb).
Definition BBLOCK (b : Z) (sb : superblock) : Z := u32 (b / BPB + sb_bmapstart sb).
Definition dinode_off (inum : Z) : Z := DINODE_SIZE * (inum mod IPB).

(** The copies between the disk and the in-memory inode, without [valid]. *)
Definition read_dinode (d : list Z) (o : Z) (ip : inode) : inode :=
  with_i_addrs ((fun k => get32 d (o + 12 + 4 * k)) <$> seqZ 0 (NDIRECT + 1))
    (with_i_size (get32 d (o + 8)) (with_i_nlink (i16 (get16 d (o + 6))) (with_i_minor (i16 (get16 d (o + 4)))
      (with_i_major (i16 (get16 d (o + 2))) (with_i_type (i16 (get16 d o)) ip))))).
Definition write_dinode (d : list Z) (o : Z) (ip : inode) : list Z :=
  fold_left (fun d k => put32 d (o + 12 + 4 * k) (zget (i_addrs ip) k)) (seqZ 0 (NDIRECT + 1))
    (put32 (put16 (put16 (put16 (put16 d o (i_type ip)) (o + 2) (i_major ip)) (o + 4) (i_minor ip)) (o + 6) (i_nlink ip))
       (o + 8) (i_size ip)).

Section fs.
Context `{LinkerOk} `{Disk} `{Waits} `{Frame}.

(** ** Blocks *)

Definition readsb (dev : Z) : KM unit :=
  bp <- bread dev 1 ;;
  d <- data_of bp ;;
  modify (with_k_sb (mkSuperblock (get32 d 0) (get32 d 4) (get32 d 8) (get32 d 12) (get32 d 16) (get32 d 20)
                       (get32 d 24) (get32 d 28))) ;;;
  brelse bp.

Definition fsinit (dev : Z) : KM unit :=
  readsb dev ;;;
  sb <- get_sb ;;
  if negb (sb_magic sb =? FSMAGIC) then panic "invalid file system" else
  initlog dev sb.

Definition bzero (dev bno : Z) : KM unit :=
  bp <- bread dev bno ;;
  upd_data bp (fun _ => replicate (Z.to_nat BSIZE) 0) ;;;
  log_write bp ;;;
  brelse bp.

Definition bit_mask (bi : Z) : Z := Z.shiftl 1 (bi mod 8).

Definition balloc (dev : Z) : KM Z :=
  sb <- get_sb ;;
  r <- findM ((fun k => k * BPB) <$> seqZ 0 ((sb_size sb + BPB - 1) / BPB)) (fun b =>
    bp <- bread dev (BBLOCK b sb) ;;
    d <- data_of bp ;;
    free <- findM (seqZ 0 (Z.min BPB (sb_size sb - b))) (fun bi =>
      ret (if Z.land (zget d (bi / 8)) (bit_mask bi) =? 0 then Some bi else None)) ;;
    match free with
    | Some bi =>
        upd_data bp (fun d => zset d (bi / 8) (Z.lor (zget d (bi / 8)) (bit_mask bi))) ;;;
        log_write bp ;;;
        brelse bp ;;;
        bzero dev (b + bi) ;;;
        ret (Some (b + bi))
    | None =>
        brelse bp ;;;
        ret None
    end) ;;
  match r with
  | Some b => ret b
  | None => printf (str "balloc: out of blocks" ++ newline) [] ;;; ret 0
  end.

Definition bfree (dev b : Z) : KM unit :=
  sb <- get_sb ;;
  bp <- bread dev (BBLOCK b sb) ;;
  let bi := b mod BPB in
  d <- data_of bp ;;
  if Z.land (zget d (bi / 8)) (bit_mask bi) =? 0 then panic "freeing free block" else
  upd_data bp (fun d => zset d (bi / 8) (Z.land (zget d (bi / 8)) (Z.lnot (bit_mask bi)))) ;;;
  log_write bp ;;;
  brelse bp.

(** ** Inodes *)

Definition inodes : list nat := seq 0 (Z.to_nat NINODE).

Definition iinit : KM unit := forM inodes (fun i => initsleeplock (SLinode i)).

Definition iget (dev inum : Z) : KM nat :=
  acquire Litable ;;;
  r <- loop (S (Z.to_nat NINODE)) (fun '(ip, empty) =>
    if decide (ip < Z.to_nat NINODE)%nat then
      i <- inode_at ip ;;
      if (0 <? i_ref i) && (i_dev i =? dev) && (i_inum i =? inum) then
        upd_inode ip (fun i => with_i_ref (i32 (i_ref i + 1)) i) ;;;
        release Litable ;;;
        ret (inr (inl ip))
      else
        ret (inl (S ip, match empty with None => if i_ref i =? 0 then Some ip else None | e => e end))
    else ret (inr (inr empty))) (0%nat, None) ;;
  match r with
  | inl ip => ret ip
  | inr None => panic "iget: no inodes"
  | inr (Some ip) =>
      upd_inode ip (fun i => with_i_valid false (with_i_ref 1 (with_i_inum inum (with_i_dev dev i)))) ;;;
      release Litable ;;;
      ret ip
  end.

Definition ialloc (dev type : Z) : KM (option nat) :=
  sb <- get_sb ;;
  r <- findM (seqZ 1 (sb_ninodes sb - 1)) (fun inum =>
    bp <- bread dev (IBLOCK inum sb) ;;
    d <- data_of bp ;;
    let o := dinode_off inum in
    if i16 (get16 d o) =? 0 then
      upd_data bp (fun d => put16 (splice d o (replicate (Z.to_nat DINODE_SIZE) 0)) o type) ;;;
      log_write bp ;;;
      brelse bp ;;;
      ip <- iget dev inum ;;
      ret (Some ip)
    else
      brelse bp ;;;
      ret None) ;;
  match r with
  | Some ip => ret (Some ip)
  | None => printf (str "ialloc: no inodes" ++ newline) [] ;;; ret None
  end.

Definition iupdate (ip : nat) : KM unit :=
  sb <- get_sb ;;
  i <- inode_at ip ;;
  bp <- bread (i_dev i) (IBLOCK (i_inum i) sb) ;;
  upd_data bp (fun d => write_dinode d (dinode_off (i_inum i)) i) ;;;
  log_write bp ;;;
  brelse bp.

Definition idup (ip : nat) : KM nat :=
  acquire Litable ;;;
  upd_inode ip (fun i => with_i_ref (i32 (i_ref i + 1)) i) ;;;
  release Litable ;;;
  ret ip.

Definition ilock (ip : nat) : KM unit :=
  i <- inode_at ip ;;
  if i_ref i <? 1 then panic "ilock" else
  acquiresleep (SLinode ip) ;;;
  i <- inode_at ip ;;
  when (negb (i_valid i))
    (sb <- get_sb ;;
     bp <- bread (i_dev i) (IBLOCK (i_inum i) sb) ;;
     d <- data_of bp ;;
     upd_inode ip (read_dinode d (dinode_off (i_inum i))) ;;;
     brelse bp ;;;
     upd_inode ip (with_i_valid true) ;;;
     i <- inode_at ip ;;
     when (i_type i =? 0) (panic "ilock: no type")).

Definition iunlock (ip : nat) : KM unit :=
  h <- holdingsleep (SLinode ip) ;;
  i <- inode_at ip ;;
  if negb h || (i_ref i <? 1) then panic "iunlock" else
  releasesleep (SLinode ip).

(** ** Inode content *)

Definition bmap (ip : nat) (bn : Z) : KM Z :=
  if bn <? NDIRECT then
    i <- inode_at ip ;;
    let addr := zget (i_addrs i) bn in
    if negb (addr =? 0) then ret addr else
    addr <- balloc (i_dev i) ;;
    if addr =? 0 then ret 0 else
    upd_inode ip (fun i => with_i_addrs (zset (i_addrs i) bn addr) i) ;;;
    ret addr
  else
  let bn := bn - NDIRECT in
  if bn <? NINDIRECT then
    i <- inode_at ip ;;
    addr <- (let addr := zget (i_addrs i) NDIRECT in
             if negb (addr =? 0) then ret addr else
             addr <- balloc (i_dev i) ;;
             if addr =? 0 then ret 0 else
             upd_inode ip (fun i => with_i_addrs (zset (i_addrs i) NDIRECT addr) i) ;;;
             ret addr) ;;
    if addr =? 0 then ret 0 else
    bp <- bread (i_dev i) addr ;;
    d <- data_of bp ;;
    addr <- (let addr := get32 d (4 * bn) in
             if negb (addr =? 0) then ret addr else
             addr <- balloc (i_dev i) ;;
             when (negb (addr =? 0))
               (upd_data bp (fun d => put32 d (4 * bn) addr) ;;;
                log_write bp) ;;;
             ret addr) ;;
    brelse bp ;;;
    ret addr
  else panic "bmap: out of range".

Definition itrunc (ip : nat) : KM unit :=
  forM (seqZ 0 NDIRECT) (fun k =>
    i <- inode_at ip ;;
    when (negb (zget (i_addrs i) k =? 0))
      (bfree (i_dev i) (zget (i_addrs i) k) ;;;
       upd_inode ip (fun i => with_i_addrs (zset (i_addrs i) k 0) i))) ;;;
  i <- inode_at ip ;;
  when (negb (zget (i_addrs i) NDIRECT =? 0))
    (bp <- bread (i_dev i) (zget (i_addrs i) NDIRECT) ;;
     forM (seqZ 0 NINDIRECT) (fun j =>
       d <- data_of bp ;;
       when (negb (get32 d (4 * j) =? 0)) (bfree (i_dev i) (get32 d (4 * j)))) ;;;
     brelse bp ;;;
     bfree (i_dev i) (zget (i_addrs i) NDIRECT) ;;;
     upd_inode ip (fun i => with_i_addrs (zset (i_addrs i) NDIRECT 0) i)) ;;;
  upd_inode ip (with_i_size 0) ;;;
  iupdate ip.

Definition iput (ip : nat) : KM unit :=
  acquire Litable ;;;
  i <- inode_at ip ;;
  when ((i_ref i =? 1) && i_valid i && (i_nlink i =? 0))
    (acquiresleep (SLinode ip) ;;;
     release Litable ;;;
     itrunc ip ;;;
     upd_inode ip (with_i_type 0) ;;;
     iupdate ip ;;;
     upd_inode ip (with_i_valid false) ;;;
     releasesleep (SLinode ip) ;;;
     acquire Litable) ;;;
  upd_inode ip (fun i => with_i_ref (i32 (i_ref i - 1)) i) ;;;
  release Litable.

Definition iunlockput (ip : nat) : KM unit := iunlock ip ;;; iput ip.

(** struct stat. *)
Record stat := mkStat { st_dev : Z; st_ino : Z; st_type : Z; st_nlink : Z; st_size : Z }.

Definition stati (ip : nat) : KM stat :=
  i <- inode_at ip ;;
  ret (mkStat (i32 (i_dev i)) (i_inum i) (i_type i) (i_nlink i) (i_size i)).

Definition readi (ip : nat) (user_dst : bool) (dst off n : Z) : KM Z :=
  i <- inode_at ip ;;
  if (i_size i <? off) || (u32 (off + n) <? off) then ret 0 else
  let n := if i_size i <? u32 (off + n) then i_size i - off else n in
  loop (S (Z.to_nat n)) (fun '(tot, off, dst) =>
    if tot <? n then
      addr <- bmap ip (off / BSIZE) ;;
      if addr =? 0 then ret (inr (i32 tot)) else
      bp <- bread (i_dev i) addr ;;
      let m := Z.min (n - tot) (BSIZE - off mod BSIZE) in
      d <- data_of bp ;;
      r <- either_copyout user_dst dst (slice d (off mod BSIZE) m) ;;
      brelse bp ;;;
      if r =? -1 then ret (inr (-1)) else
      ret (inl (tot + m, off + m, u64 (dst + m)))
    else ret (inr (i32 tot))) (0, off, dst).

Definition writei (ip : nat) (user_src : bool) (src off n : Z) : KM Z :=
  i <- inode_at ip ;;
  if (i_size i <? off) || (u32 (off + n) <? off) then ret (-1) else
  if MAXFILE * BSIZE <? u32 (off + n) then ret (-1) else
  r <- loop (S (Z.to_nat n)) (fun '(tot, off, src) =>
    if tot <? n then
      addr <- bmap ip (off / BSIZE) ;;
      if addr =? 0 then ret (inr (tot, off)) else
      bp <- bread (i_dev i) addr ;;
      let m := Z.min (n - tot) (BSIZE - off mod BSIZE) in
      do (r, bytes) <- either_copyin user_src src m ;;
      upd_data bp (fun d => splice d (off mod BSIZE) bytes) ;;;
      if r =? -1 then
        brelse bp ;;;
        ret (inr (tot, off))
      else
        log_write bp ;;;
        brelse bp ;;;
        ret (inl (tot + m, off + m, u64 (src + m)))
    else ret (inr (tot, off))) (0, off, src) ;;
  let '(tot, off) := r in
  upd_inode ip (fun i => if i_size i <? off then with_i_size off i else i) ;;;
  iupdate ip ;;;
  ret (i32 tot).

(** ** Directories *)

Definition namecmp (s t : list Z) : Z := strncmp s t (Z.to_nat DIRSIZ).

(** The struct dirent at [frame]. *)
Definition de_inum : KM Z := gets (fun s => le_val (load_bytes (k_mem s) frame 2)).
Definition de_name : KM (list Z) := gets (fun s => load_bytes (k_mem s) (frame + 2) (Z.to_nat DIRSIZ)).

(** The offsets [for(off = 0; off < size; off += sizeof(de))]. *)
Definition dir_offs (size : Z) : list Z := (fun k => DIRENT_SIZE * k) <$> seqZ 0 ((size + DIRENT_SIZE - 1) / DIRENT_SIZE).

Definition dirlookup (dp : nat) (name : list Z) : KM (option (nat * Z)) :=
  d <- inode_at dp ;;
  if negb (i_type d =? T_DIR) then panic "dirlookup not DIR" else
  findM (dir_offs (i_size d)) (fun off =>
    r <- readi dp false frame off DIRENT_SIZE ;;
    if negb (r =? DIRENT_SIZE) then panic "dirlookup read" else
    inum <- de_inum ;;
    if inum =? 0 then ret None else
    dn <- de_name ;;
    if namecmp name dn =? 0 then
      ip <- iget (i_dev d) inum ;;
      ret (Some (ip, off))
    else ret None).

Definition dirlink (dp : nat) (name : list Z) (inum : Z) : KM Z :=
  o <- dirlookup dp name ;;
  match o with
  | Some (ip, _) => iput ip ;;; ret (-1)
  | None =>
      d <- inode_at dp ;;
      free <- findM (dir_offs (i_size d)) (fun off =>
        r <- readi dp false frame off DIRENT_SIZE ;;
        if negb (r =? DIRENT_SIZE) then panic "dirlink read" else
        inum <- de_inum ;;
        ret (if inum =? 0 then Some off else None)) ;;
      let off := match free with
                 | Some off => off
                 | None => DIRENT_SIZE * ((i_size d + DIRENT_SIZE - 1) / DIRENT_SIZE)
                 end in
      modify (fun s => with_k_mem (store_bytes (k_mem s) frame (le_bytes 2 inum ++ strncpy name (Z.to_nat DIRSIZ))) s) ;;;
      r <- writei dp false frame off DIRENT_SIZE ;;
      ret (if negb (r =? DIRENT_SIZE) then -1 else 0)
  end.
End fs.

(** ** Paths ('/' is 47) *)

Fixpoint skip_slashes (path : list Z) : list Z :=
  match path with
  | c :: rest => if c =? 47 then skip_slashes rest else path
  | [] => []
  end.

(** The element at the start of [path] and what follows it. *)
Fixpoint path_elem (path : list Z) : list Z * list Z :=
  match path with
  | c :: rest => if negb (c =? 47) && negb (c =? 0) then let '(e, r) := path_elem rest in (c :: e, r) else ([], path)
  | [] => ([], [])
  end.

(** skipelem(path, name): the remaining path and the bytes put in [name]. *)
Definition skipelem (path : list Z) : option (list Z * list Z) :=
  let path := skip_slashes path in
  if chr path =? 0 then None else
  let '(s, path) := path_elem path in
  let name := if DIRSIZ <=? Z.of_nat (length s) then take (Z.to_nat DIRSIZ) s else s ++ [0] in
  Some (skip_slashes path, name).

Section path.
Context `{LinkerOk} `{Disk} `{Waits} `{Frame}.

(** Returns the inode and, when the parent was asked for, the last element. *)
Definition namex (path : list Z) (nameiparent : bool) : KM (option (nat * list Z)) :=
  ip <- (if chr path =? 47 then iget ROOTDEV ROOTINO
         else i <- curproc ;; p <- proc_at i ;; match p_cwd p with Some d => idup d | None => panic "kerneltrap" end) ;;
  loop (S (length path)) (fun '(ip, path, name) =>
    match skipelem path with
    | None =>
        if nameiparent then iput ip ;;; ret (inr None) else ret (inr (Some (ip, name)))
    | Some (path, name) =>
        ilock ip ;;;
        i <- inode_at ip ;;
        if negb (i_type i =? T_DIR) then iunlockput ip ;;; ret (inr None) else
        if nameiparent && (chr path =? 0) then iunlock ip ;;; ret (inr (Some (ip, name))) else
        o <- dirlookup ip name ;;
        match o with
        | None => iunlockput ip ;;; ret (inr None)
        | Some (next, _) => iunlockput ip ;;; ret (inl (next, path, name))
        end
    end) (ip, path, []).

Definition namei (path : list Z) : KM (option nat) :=
  o <- namex path false ;;
  ret (fst <$> o).

Definition nameiparent (path : list Z) : KM (option (nat * list Z)) := namex path true.
End path.
