(* ===== verification/FsBlock.v ===== *)
(** * fs.c, first part of the proofs: blocks and the free bitmap.

    [fop W lks s]: the running process is inside a file system operation that
    has logged blocks of [W] only, and holds the locked buffers [lks]. *)

From S2P Require Import Prelude Exec Params State Mem Vm Sched Sleeplock Bio BioSpec Log LogSpec LogCrash LogOp.
From S2P Require Import RingBuf Uart Printf Console Fs.

Lemma size_union_le (X Y : gset Z) : (size (X ∪ Y) <= size X + size Y)%nat.
Proof. rewrite size_union_alt. assert (size (Y ∖ X) <= size Y)%nat by (apply subseteq_size; set_solver). lia. Qed.

(** What the block layer may change. *)
Definition fs_frame (s s' : kernel) : Prop :=
  wakes (with_k_uart (k_uart s') (with_k_bhead (k_bhead s') (with_k_bufs (k_bufs s') (with_k_log (k_log s') s)))) s'.

Lemma fs_frame_eq s s' : fs_frame s s' -> s' = with_k_procs (k_procs s')
  (with_k_uart (k_uart s') (with_k_bhead (k_bhead s') (with_k_bufs (k_bufs s') (with_k_log (k_log s') s)))).
Proof. apply wk_rest. Qed.

Lemma fs_frame_refl s : fs_frame s s.
Proof. apply wakes_refl. Qed.

Lemma fs_frame_trans s1 s2 s3 : fs_frame s1 s2 -> fs_frame s2 s3 -> fs_frame s1 s3.
Proof.
  unfold fs_frame. intros [A1 B1 C1] W2. eapply wakes_trans; [|exact W2]. split; [|exact B1|exact C1].
  rewrite A1. reflexivity.
Qed.

Lemma bio_fs_frame s s' : bio_frame s s' -> fs_frame s s'.
Proof. intros [A B C]. split; [rewrite A; reflexivity|exact B|exact C]. Qed.

Lemma log_fs_frame s s' : log_frame s s' -> fs_frame s s'.
Proof.
  intros E. red in E. unfold fs_frame. rewrite E. apply wakes_refl.
Qed.

(** The current process is not touched. *)
Lemma fs_frame_proc s s' i : fs_frame s s' -> k_cur s = Some i -> (i < length (k_procs s))%nat ->
  k_procs s' !!! i = k_procs s !!! i.
Proof.
  intros [A B C] Hc Hi. destruct (lookup_lt_is_Some_2 _ _ Hi) as [p Hp]. destruct (B i p Hp) as (p' & Hp' & [->|(Hne & _)]).
  - rewrite (list_lookup_total_correct _ _ _ Hp'). symmetry. by apply list_lookup_total_correct.
  - exfalso. apply Hne. exact Hc.
Qed.

Section fop.
Context `{DiskOk} `{Waits}.
Variables (i : nat) (pid : Z).

Record fop (W : gset Z) (lks : list (nat * Z)) (s : kernel) : Prop := {
  fo_tx : exists pins, tx i pid pins lks s /\ NoDup pins /\ (forall m, m ∈ pins -> m ∈ W) /\
    forall b n, (b, n) ∈ lks -> n ∈ pins \/ content s n = disk_block s n;
  fo_out : 1 <= l_outstanding (k_log s);
}.

(** There is room to log the blocks of [W] and [j] more, and to hold [k] buffers. *)
Definition room (W : gset Z) (j k : nat) (s : kernel) : Prop :=
  Z.of_nat (size W + j) < LOGSIZE /\ Z.of_nat (size W + j) < l_size (k_log s) - 1 /\ (size W + j + k < HEAD)%nat.

Lemma room_add W j k s n : room W (S j) k s -> room ({[n]} ∪ W) j k s.
Proof.
  unfold room. pose proof (size_union_le {[n]} W) as Hle. rewrite size_singleton in Hle. lia.
Qed.

Lemma room_le W j k j' k' s : room W j k s -> (j' <= j)%nat -> (j' + k' <= j + k)%nat -> room W j' k' s.
Proof. unfold room. lia. Qed.

Lemma room_op W j k s s' : room W j k s -> in_op s s' -> room W j k s'.
Proof. intros Hr [_ _ _ E _]. unfold room in *. by rewrite E. Qed.

Lemma pins_size (pins : list Z) (W : gset Z) : NoDup pins -> (forall m, m ∈ pins -> m ∈ W) -> (length pins <= size W)%nat.
Proof.
  intros Hnd Hs. rewrite <- (size_list_to_set (C := gset Z) pins Hnd). apply subseteq_size.
  intros m Hm. apply elem_of_list_to_set in Hm. auto.
Qed.

(** A block that is not locked is pinned or clean. *)
Lemma cache_settled pins lks s n : cache i pid pins lks s -> n ∉ lks.*2 -> n ∈ pins \/ content s n = disk_block s n.
Proof.
  intros Hc Hn. destruct (decide (n ∈ pins)) as [|Hp]; [by left|]. right. destruct (ca_inv _ _ _ _ _ Hc) as [l Hi]. unfold content.
  destruct (list_find _ _) as [[b bf]|] eqn:E; [|reflexivity]. apply list_find_Some in E as (Hb & (Hd & Hbn & Hv) & _).
  rewrite <- Hbn. apply (bo_clean _ _ (bi_buf _ _ Hi b bf Hb)); [|exact Hv|exact Hd].
  rewrite (ca_ref _ _ _ _ _ Hc b bf Hb), Hbn. rewrite decide_False by tauto. rewrite decide_False; [lia|].
  intros Hin. apply Hn. apply list_elem_of_fmap in Hin as ([b' n'] & -> & Hin). simpl in Hb.
  destruct (ca_lks _ _ _ _ _ Hc _ _ Hin) as (bf' & Hb' & _ & Hbn' & _). simplify_eq. apply list_elem_of_fmap. by exists (b', b_blockno bf).
Qed.

Lemma fop_length W lks s n : fop W lks s -> length (content s n) = Z.to_nat BSIZE.
Proof. intros [(pins & Ht & _) _]. destruct (ca_inv _ _ _ _ _ (tx_cache _ _ _ _ _ Ht)) as [l Hi]. by eapply content_length. Qed.

Lemma fop_bread W lks s n (Q : nat -> kernel -> Prop) :
  fop W lks s -> room W 0 (length lks) s -> n ∉ lks.*2 ->
  (forall b s', fop W ((b, n) :: lks) s' -> (forall m, content s' m = content s m) -> fs_frame s s' -> in_op s s' -> Q b s') ->
  wp (bread ROOTDEV n) Q s.
Proof.
  intros [(pins & Ht & Hnd & Hs & Hcl) Ho] (R1 & R2 & R3) Hn HQ. pose proof (pins_size _ _ Hnd Hs).
  apply (bread_spec i pid pins lks s n); [apply Ht|exact Hn|lia|]. intros b s' Hc' _ Hcont Hf.
  pose proof (in_op_bio _ _ Hf) as Hop. apply HQ; [|exact Hcont|by apply bio_fs_frame|exact Hop].
  assert (forall m, disk_block s' m = disk_block s m) as Hd by (intros m; unfold disk_block; by rewrite (io_disk _ _ Hop)).
  split; [|by rewrite (io_out _ _ Hop)]. exists pins. split_and!; [by eapply tx_bio|exact Hnd|exact Hs|].
  intros b' n' Hin. rewrite Hcont, Hd. apply elem_of_cons in Hin as [[= -> ->]|Hin]; [|by eapply Hcl].
  eapply cache_settled; [apply Ht|exact Hn].
Qed.

Lemma fop_brelse W lks1 lks2 s b n (Q : unit -> kernel -> Prop) :
  fop W (lks1 ++ (b, n) :: lks2) s ->
  (forall s', fop W (lks1 ++ lks2) s' -> (forall m, content s' m = content s m) -> fs_frame s s' -> in_op s s' -> Q tt s') ->
  wp (brelse b) Q s.
Proof.
  intros [(pins & Ht & Hnd & Hs & Hcl) Ho] HQ. apply (brelse_spec i pid pins lks1 lks2 s b n); [apply Ht|apply (Hcl b n); set_solver|].
  intros s' Hc' Hcont Hf. pose proof (in_op_bio _ _ Hf) as Hop. apply HQ; [|exact Hcont|by apply bio_fs_frame|exact Hop].
  split; [|by rewrite (io_out _ _ Hop)]. exists pins. split_and!; [by eapply tx_bio|exact Hnd|exact Hs|].
  intros b' n' Hin. rewrite Hcont. unfold disk_block. rewrite (io_disk _ _ Hop). apply (Hcl b' n'). set_solver.
Qed.

(** Reading the data of a locked buffer. *)
Lemma fop_data W lks s b n (Q : list Z -> kernel -> Prop) :
  fop W lks s -> (b, n) ∈ lks -> Q (content s n) s -> wp (data_of b) Q s.
Proof.
  intros [(pins & Ht & _) _] Hin HQ. destruct (cache_data _ _ _ _ _ _ _ (tx_cache _ _ _ _ _ Ht) Hin) as (bf & Hb & _ & Hd & _).
  unfold data_of, buf_at. wp_steps. rewrite (list_lookup_total_correct _ _ _ Hb), Hd. exact HQ.
Qed.

(** Changing a locked buffer and logging it. *)
Lemma fop_update {A} W lks s b n (g : list Z -> list Z) (Q : A -> kernel -> Prop) k :
  fop W lks s -> room W 0 0 s -> n ∈ W -> (b, n) ∈ lks -> 0 <= n < 2 ^ 31 -> home (k_log s) n ->
  length (g (content s n)) = Z.to_nat BSIZE ->
  (forall s', fop W lks s' -> (forall m, content s' m = put_block (content s) (n, g (content s n)) m) ->
     fs_frame s s' -> in_op s s' -> wp k Q s') ->
  wp (upd_data b g ;;; log_write b ;;; k) Q s.
Proof.
  intros [(pins & Ht & Hnd & Hs & Hcl) Ho] (R1 & R2 & _) HW Hin Hr Hh Hlen HQ. pose proof (pins_size _ _ Hnd Hs) as Hps.
  wp_step. apply (upd_data_spec i pid pins lks s b n g); [apply Ht|exact Hin|exact Hlen|].
  intros s1 Hc1 Hn1 Hcont1 Hf1. pose proof (in_op_bio _ _ Hf1) as Hop1.
  assert (k_log s1 = k_log s) as L1 by (rewrite (bio_frame_eq _ _ Hf1); reflexivity).
  assert (tx i pid pins lks s1) as Ht1 by (by eapply tx_bio). pose proof (tx_num _ _ _ _ _ Ht) as Hnum.
  pose proof (lg_n _ (tx_geom _ _ _ _ _ Ht)) as Gn.
  wp_step. apply (log_write_spec i pid pins lks s1 b n); rewrite ?L1; [exact Ht1|exact Hin|exact Hr|exact Hh|lia|lia|exact Ho|].
  intros s2 Ht2 Hcont2 Hf2 Hop2. pose proof (in_op_trans _ _ _ Hop1 Hop2) as Hop.
  apply HQ; [| |eapply fs_frame_trans; [by apply bio_fs_frame|by apply log_fs_frame]|exact Hop].
  - split; [|by rewrite (io_out _ _ Hop)]. eexists. split; [exact Ht2|]. split_and!.
    + case_decide; [exact Hnd|by apply NoDup_cons].
    + intros m. case_decide; [apply Hs|]. rewrite elem_of_cons. intros [->|?]; auto.
    + intros b' n' Hin'. destruct (decide (n' = n)) as [->|Hne]; [left; case_decide; [done|apply elem_of_cons; by left]|].
      rewrite Hcont2, Hcont1 by exact Hne. unfold disk_block. rewrite (io_disk _ _ Hop).
      destruct (Hcl b' n' Hin'); [left; case_decide; [done|apply elem_of_cons; by right]|by right].
  - intros m. rewrite Hcont2. unfold put_block. cbn [fst snd]. destruct (decide (m = n)) as [->|E]; [exact Hn1|by apply Hcont1].
Qed.

Lemma fop_update_last W lks s b n (g : list Z -> list Z) (Q : unit -> kernel -> Prop) :
  fop W lks s -> room W 0 0 s -> n ∈ W -> (b, n) ∈ lks -> 0 <= n < 2 ^ 31 -> home (k_log s) n ->
  length (g (content s n)) = Z.to_nat BSIZE ->
  (forall s', fop W lks s' -> (forall m, content s' m = put_block (content s) (n, g (content s n)) m) ->
     fs_frame s s' -> in_op s s' -> Q tt s') ->
  wp (upd_data b g ;;; log_write b) Q s.
Proof.
  intros Hf Hr HW Hin Hn Hh Hl HQ.
  pose proof (fop_update W lks s b n g Q (ret tt) Hf Hr HW Hin Hn Hh Hl HQ) as Hu. apply wp_bind_inv in Hu. apply wp_bind.
  eapply wp_mono; [exact Hu|]. intros [] s1 H1'. apply wp_bind_inv in H1'. eapply wp_mono; [exact H1'|]. intros [] s2 H2. exact H2.
Qed.

(** Changes outside the block layer. *)
Lemma fop_same W lks s s' :
  fop W lks s -> k_bufs s' = k_bufs s -> k_bhead s' = k_bhead s -> k_disk s' = k_disk s -> k_log s' = k_log s ->
  k_cur s' = k_cur s -> k_held s' = k_held s -> k_procs s' = k_procs s -> fop W lks s'.
Proof.
  intros [(pins & [Tc Tg Tl Tp Tn Te To] & Hnd & Hs & Hcl) Ho] E1 E2 E3 E4 E5 E6 E7. split; [|by rewrite E4].
  assert (forall m, disk_block s' m = disk_block s m) as Hd by (intros m; unfold disk_block; by rewrite E3).
  exists pins. split_and!; [|exact Hnd|exact Hs|].
  - split; rewrite ?E4, ?Hd; auto. destruct (ca_inv _ _ _ _ _ Tc) as [l Hi]. eapply cache_frame; [exact Tc| | |exact E1].
    + eapply bcache_inv_frame; eauto.
    + eapply running_frame; [apply Tc|auto..].
  - intros b n Hin. rewrite (content_frame s), Hd by auto. eauto.
Qed.

Lemma fop_weaken W W' lks s : fop W lks s -> W ⊆ W' -> fop W' lks s.
Proof. intros [(pins & A & B & C & D) E] HW. split; [|exact E]. exists pins. split_and!; auto. Qed.
End fop.

(** ** The free bitmap *)

(** Block [b] is in use, by the bitmap in the blocks [c]. *)
Definition used (sb : superblock) (c : Z -> list Z) (b : Z) : bool :=
  Z.testbit (zget (c (BBLOCK b sb)) (b mod BPB / 8)) (b mod 8).

(** The bitmap is on the disk, outside the log. *)
Record fs_geom (sb : superblock) (lg : log) : Prop := {
  fg_size : 0 < sb_size sb < 2 ^ 31;
  fg_bmap : 0 <= sb_bmapstart sb /\ sb_bmapstart sb + sb_size sb / BPB < 2 ^ 31;
  fg_home : forall b, 0 <= b < sb_size sb -> home lg (BBLOCK b sb);
}.

(** The blocks of the boot sector, the log and the bitmap are marked in use. *)
Definition free_ok (sb : superblock) (lg : log) (c : Z -> list Z) : Prop :=
  forall b, 0 <= b < sb_size sb -> used sb c b = false ->
    0 < b /\ home lg b /\ forall b', 0 <= b' < sb_size sb -> b <> BBLOCK b' sb.

Definition mark (b : Z) (d : list Z) : list Z :=
  zset d (b mod BPB / 8) (Z.lor (zget d (b mod BPB / 8)) (bit_mask b)).
Definition unmark (b : Z) (d : list Z) : list Z :=
  zset d (b mod BPB / 8) (Z.land (zget d (b mod BPB / 8)) (Z.lnot (bit_mask b))).

Lemma bpb_eq : BPB = 8192. Proof. reflexivity. Qed.
Lemma bsize_eq : BSIZE = 1024. Proof. reflexivity. Qed.

Lemma BBLOCK_eq sb lg b : fs_geom sb lg -> 0 <= b < sb_size sb ->
  BBLOCK b sb = b / BPB + sb_bmapstart sb /\ 0 <= BBLOCK b sb < 2 ^ 31.
Proof.
  intros [G1 [G2 G3] _] Hb. unfold BBLOCK. rewrite bpb_eq in *.
  assert (0 <= b / 8192 <= sb_size sb / 8192) by (split; [apply Z.div_pos; lia|apply Z.div_le_mono; lia]).
  rewrite u32_id by lia. lia.
Qed.

Lemma bit_index b : 0 <= b mod BPB / 8 < BSIZE.
Proof. rewrite bpb_eq, bsize_eq. pose proof (Z.mod_pos_bound b 8192 ltac:(lia)). dlia. Qed.

Lemma bit_test x k : 0 <= k -> (Z.land x (Z.shiftl 1 k) =? 0) = negb (Z.testbit x k).
Proof.
  intros Hk. destruct (Z.testbit x k) eqn:E; cbn [negb].
  - apply Z.eqb_neq. intros E0. apply (f_equal (fun y => Z.testbit y k)) in E0.
    rewrite Z.land_spec, Z.shiftl_spec, Z.sub_diag, E in E0 by lia. by rewrite Z.bits_0 in E0.
  - apply Z.eqb_eq. apply Z.bits_inj'. intros n Hn. rewrite Z.land_spec, Z.bits_0, Z.shiftl_spec by lia.
    destruct (Z.eq_dec n k) as [->|Hne]; [by rewrite E|].
    replace (Z.testbit 1 (n - k)) with false; [apply andb_false_r|]. symmetry.
    destruct (Z.lt_ge_cases n k); [by apply Z.testbit_neg_r; lia|]. apply Z.bits_above_log2; simpl; lia.
Qed.

Lemma bit_mask_test b k : 0 <= k < 8 -> Z.testbit (bit_mask b) k = (k =? b mod 8).
Proof.
  intros Hk. unfold bit_mask. pose proof (Z.mod_pos_bound b 8 ltac:(lia)). rewrite Z.shiftl_1_l, Z.pow2_bits_eqb by lia.
  apply Z.eqb_sym.
Qed.

(** Setting or clearing one bit of the bitmap. *)
Lemma bit_change sb lg c b b' (v : bool) :
  fs_geom sb lg -> 0 <= b < sb_size sb -> 0 <= b' < sb_size sb -> length (c (BBLOCK b sb)) = Z.to_nat BSIZE ->
  used sb (put_block c (BBLOCK b sb, if v then mark b (c (BBLOCK b sb)) else unmark b (c (BBLOCK b sb)))) b' =
  if decide (b' = b) then v else used sb c b'.
Proof.
  intros G Hb Hb' Hl. unfold used, put_block. cbn [fst snd].
  destruct (BBLOCK_eq _ _ _ G Hb) as [E1 _]. destruct (BBLOCK_eq _ _ _ G Hb') as [E2 _].
  destruct (decide (BBLOCK b' sb = BBLOCK b sb)) as [E|E].
  2: { rewrite decide_False; [reflexivity|]. congruence. }
  pose proof (bit_index b) as I1. pose proof (bit_index b') as I2. pose proof (Z.mod_pos_bound b' 8 ltac:(lia)) as M2.
  assert (forall x, zget (if v then mark b (c (BBLOCK b sb)) else unmark b (c (BBLOCK b sb))) x =
    (if v then zget (mark b (c (BBLOCK b sb))) x else zget (unmark b (c (BBLOCK b sb))) x)) as Hz by (by destruct v).
  rewrite Hz, E. destruct (Z.eq_dec (b' mod BPB / 8) (b mod BPB / 8)) as [Ei|Ei].
  - unfold mark, unmark. rewrite Ei, !zget_zset_eq by lia.
    assert (b' = b <-> b' mod 8 = b mod 8) as Hbb.
    { split; [congruence|]. intros Em. rewrite bpb_eq in *. dlia. }
    destruct v; rewrite ?Z.lor_spec, ?Z.land_spec, ?Z.lnot_spec, bit_mask_test by lia; case_decide as D.
    + rewrite (proj2 (Z.eqb_eq _ _)) by (by apply Hbb). apply orb_true_r.
    + rewrite (proj2 (Z.eqb_neq _ _)) by (by rewrite <- Hbb). apply orb_false_r.
    + rewrite (proj2 (Z.eqb_eq _ _)) by (by apply Hbb). apply andb_false_r.
    + rewrite (proj2 (Z.eqb_neq _ _)) by (by rewrite <- Hbb). apply andb_true_r.
  - rewrite decide_False by congruence. unfold mark, unmark. destruct v; rewrite zget_zset_ne by lia; reflexivity.
Qed.

Lemma home_op s s' m : in_op s s' -> home (k_log s') m <-> home (k_log s) m.
Proof. intros Ho. unfold home. rewrite (io_start _ _ Ho), (io_size _ _ Ho). tauto. Qed.

Lemma used_ext sb c c' b : (forall m, c' m = c m) -> used sb c' b = used sb c b.
Proof. intros E. unfold used. by rewrite E. Qed.

Lemma fs_geom_op sb s s' : in_op s s' -> fs_geom sb (k_log s) -> fs_geom sb (k_log s').
Proof. intros Ho [A B C]. split; [exact A|exact B|]. intros b Hb. apply (home_op s); auto. Qed.

Lemma free_ok_op sb s s' c c' : in_op s s' -> (forall m, c' m = c m) -> free_ok sb (k_log s) c -> free_ok sb (k_log s') c'.
Proof.
  intros Ho E Hf b Hb Hu. rewrite (used_ext _ _ _ _ E) in Hu. destruct (Hf b Hb Hu) as (A & B & C). split; [exact A|].
  split; [by apply (home_op s)|exact C].
Qed.

Lemma fs_frame_sb s s' : fs_frame s s' -> k_sb s' = k_sb s.
Proof. intros Hf. rewrite (fs_frame_eq _ _ Hf). reflexivity. Qed.

(** A search that only computes. *)
Lemma findM_pure {A} (p : A -> bool) (l : list A) (s : kernel) :
  exists r, findM l (fun x => ret (if p x then Some x else None)) s = Ok r s /\
    match r with
    | Some x => exists l1 l2, l = l1 ++ x :: l2 /\ p x = true /\ Forall (fun y => p y = false) l1
    | None => Forall (fun y => p y = false) l
    end.
Proof.
  induction l as [|x l IH]; cbn [findM]; [exists None; auto|]. rewrite (bind_ok _ _ _ _ _ eq_refl). destruct (p x) eqn:E.
  - exists (Some x). split; [reflexivity|]. exists [], l. auto.
  - destruct IH as (r & Er & Hr). exists r. split; [exact Er|]. destruct r as [y|]; [|by constructor].
    destruct Hr as (l1 & l2 & -> & Hy & H1). exists (x :: l1), l2. split; [reflexivity|]. split; [exact Hy|by constructor].
Qed.

Section blocks.
Context `{DiskOk} `{Waits}.
Variables (i : nat) (pid : Z).

Definition zeros : list Z := replicate (Z.to_nat BSIZE) 0.

Lemma bzero_spec W lks s n (Q : unit -> kernel -> Prop) :
  fop i pid W lks s -> room W 0 (length lks) s -> n ∈ W -> n ∉ lks.*2 -> 0 <= n < 2 ^ 31 -> home (k_log s) n ->
  (forall s', fop i pid W lks s' -> (forall m, content s' m = put_block (content s) (n, zeros) m) ->
     fs_frame s s' -> in_op s s' -> Q tt s') ->
  wp (bzero ROOTDEV n) Q s.
Proof.
  intros Hf Hr HW Hn Hrg Hh HQ. unfold bzero. wp_step. apply (fop_bread i pid W lks s); [exact Hf|exact Hr|exact Hn|].
  intros b s1 Hf1 Hc1 Hfr1 Hop1.
  apply (fop_update i pid W ((b, n) :: lks) s1 b n (fun _ => zeros)); [exact Hf1| |exact HW|by left|exact Hrg| |apply length_replicate|].
  { eapply room_op; [|exact Hop1]. eapply room_le; [exact Hr|lia|lia]. }
  { unfold home in *. by rewrite (io_start _ _ Hop1), (io_size _ _ Hop1). }
  intros s2 Hf2 Hc2 Hfr2 Hop2. apply (fop_brelse i pid W [] lks s2 b n); [exact Hf2|]. intros s3 Hf3 Hc3 Hfr3 Hop3.
  apply HQ; [exact Hf3| |by eapply fs_frame_trans; [eapply fs_frame_trans|]|by eapply in_op_trans; [eapply in_op_trans|]].
  intros m. rewrite Hc3, Hc2. unfold put_block. cbn [fst snd]. by rewrite Hc1.
Qed.

Lemma bfree_spec W lks s b (Q : unit -> kernel -> Prop) :
  let n := BBLOCK b (k_sb s) in
  fop i pid W lks s -> room W 0 (length lks) s -> fs_geom (k_sb s) (k_log s) -> 0 <= b < sb_size (k_sb s) ->
  used (k_sb s) (content s) b = true -> n ∈ W -> n ∉ lks.*2 ->
  (forall s', fop i pid W lks s' -> (forall m, content s' m = put_block (content s) (n, unmark b (content s n)) m) ->
     fs_frame s s' -> in_op s s' -> Q tt s') ->
  wp (bfree ROOTDEV b) Q s.
Proof.
  intros n Hf Hr G Hb Hu HW Hn HQ. destruct (BBLOCK_eq _ _ _ G Hb) as [_ Hrg]. unfold bfree, get_sb. do 2 wp_step. wp_step.
  fold n. apply (fop_bread i pid W lks s); [exact Hf|exact Hr|exact Hn|]. intros bp s1 Hf1 Hc1 Hfr1 Hop1.
  wp_step. apply (fop_data i pid W ((bp, n) :: lks) s1 bp n); [exact Hf1|by left|].
  assert (bit_mask (b mod BPB) = bit_mask b) as Hm.
  { unfold bit_mask. f_equal. rewrite bpb_eq. dlia. }
  rewrite Hm, Hc1. unfold bit_mask at 1. pose proof (Z.mod_pos_bound b 8 ltac:(lia)). rewrite bit_test by lia.
  unfold used in Hu. fold n in Hu. rewrite Hu. cbn [negb].
  apply (fop_update i pid W ((bp, n) :: lks) s1 bp n (unmark b)); [exact Hf1| |exact HW|by left|exact Hrg| | |].
  { eapply room_op; [|exact Hop1]. eapply room_le; [exact Hr|lia|lia]. }
  { pose proof (fg_home _ _ G b Hb). unfold home in *. by rewrite (io_start _ _ Hop1), (io_size _ _ Hop1). }
  { unfold unmark. rewrite zset_length. by eapply fop_length. }
  intros s2 Hf2 Hc2 Hfr2 Hop2. apply (fop_brelse i pid W [] lks s2 bp n); [exact Hf2|]. intros s3 Hf3 Hc3 Hfr3 Hop3.
  apply HQ; [exact Hf3| |by eapply fs_frame_trans; [eapply fs_frame_trans|]|by eapply in_op_trans; [eapply in_op_trans|]].
  intros m. rewrite Hc3, Hc2. unfold put_block. cbn [fst snd]. by rewrite !Hc1.
Qed.

(** The blocks after block [b] was taken: marked in use, and zeroed. *)
Definition take_block (sb : superblock) (c : Z -> list Z) (b : Z) : Z -> list Z :=
  put_block (put_block c (BBLOCK b sb, mark b (c (BBLOCK b sb)))) (b, zeros).

(** Block [b] is the first free block. *)
Definition first_free (sb : superblock) (c : Z -> list Z) (b : Z) : Prop :=
  0 <= b < sb_size sb /\ used sb c b = false /\ forall b', 0 <= b' < b -> used sb c b' = true.

(** The bits of one bitmap block, as balloc() tests them. *)
Lemma bitmap_block sb lg c k bi : fs_geom sb lg -> 0 <= k -> 0 <= bi < BPB -> k * BPB + bi < sb_size sb ->
  BBLOCK (k * BPB) sb = BBLOCK (k * BPB + bi) sb /\
  (Z.land (zget (c (BBLOCK (k * BPB) sb)) (bi / 8)) (bit_mask bi) =? 0) = negb (used sb c (k * BPB + bi)) /\
  forall d, zset d (bi / 8) (Z.lor (zget d (bi / 8)) (bit_mask bi)) = mark (k * BPB + bi) d.
Proof.
  intros G Hk Hbi Hlt. assert (0 <= k * BPB) as Hnn by (rewrite bpb_eq; lia).
  assert ((k * BPB + bi) mod BPB = bi /\ (k * BPB + bi) / BPB = k /\ (k * BPB) / BPB = k) as (M1 & M2 & M3).
  { rewrite bpb_eq in *. dlia. }
  assert ((k * BPB + bi) mod 8 = bi mod 8) as M4 by (rewrite bpb_eq; dlia).
  assert (BBLOCK (k * BPB) sb = BBLOCK (k * BPB + bi) sb) as E by (unfold BBLOCK; by rewrite M2, M3).
  split; [exact E|]. split.
  - unfold used. rewrite E, M1, M4. unfold bit_mask. apply bit_test. apply Z.mod_pos_bound. lia.
  - intros d. unfold mark, bit_mask. by rewrite M1, M4.
Qed.

(** The search in one bitmap block. *)
Lemma search_block sb lg c k (s : kernel) :
  fs_geom sb lg -> 0 <= k -> (forall b, 0 <= b < k * BPB -> used sb c b = true) ->
  exists r, findM (seqZ 0 (Z.min BPB (sb_size sb - k * BPB))) (fun bi =>
      ret (if Z.land (zget (c (BBLOCK (k * BPB) sb)) (bi / 8)) (bit_mask bi) =? 0 then Some bi else None)) s = Ok r s /\
    match r with
    | Some bi => 0 <= bi < BPB /\ k * BPB + bi < sb_size sb /\ first_free sb c (k * BPB + bi)
    | None => forall b, 0 <= b < Z.min ((k + 1) * BPB) (sb_size sb) -> used sb c b = true
    end.
Proof.
  intros G Hk Hlow. assert (0 <= k * BPB) as Hnn by (rewrite bpb_eq; lia).
  set (m := Z.min BPB (sb_size sb - k * BPB)). set (p := fun bi => Z.land (zget (c (BBLOCK (k * BPB) sb)) (bi / 8)) (bit_mask bi) =? 0).
  destruct (findM_pure p (seqZ 0 m) s) as (r & Er & Hres). exists r. split; [exact Er|].
  assert (forall bi, 0 <= bi < m -> p bi = negb (used sb c (k * BPB + bi))) as Hbit.
  { intros bi Hbi. apply (bitmap_block sb lg); [exact G|exact Hk|lia|lia]. }
  assert (forall b l1, Forall (fun y => p y = false) l1 -> (forall j, 0 <= j < b -> l1 !! Z.to_nat j = Some j) -> b <= m ->
    forall b', 0 <= b' < k * BPB + b -> used sb c b' = true) as Hall.
  { intros b l1 Hl1 Hlk Hbm b' Hb'. destruct (decide (b' < k * BPB)); [apply Hlow; lia|].
    replace b' with (k * BPB + (b' - k * BPB)) by lia. apply negb_false_iff. rewrite <- Hbit by lia.
    rewrite Forall_lookup in Hl1. apply (Hl1 (Z.to_nat (b' - k * BPB))). apply Hlk. lia. }
  destruct r as [bi|].
  - destruct Hres as (l1 & l2 & El & Hp & Hl1).
    assert (seqZ 0 m !! length l1 = Some bi) as Hl by (rewrite El; by apply list_lookup_middle). apply lookup_seqZ in Hl.
    split; [lia|]. split; [lia|]. split; [lia|]. split; [apply negb_true_iff; rewrite <- Hbit by lia; exact Hp|].
    apply (Hall bi l1 Hl1); [|lia]. intros j Hj. rewrite <- (lookup_app_l l1 (bi :: l2)) by lia. rewrite <- El. apply lookup_seqZ. lia.
  - intros b Hb. apply (Hall m (seqZ 0 m) Hres); [|lia|unfold m; lia]. intros j Hj. apply lookup_seqZ. lia.
Qed.

(** One bitmap block of balloc()'s search. *)
Lemma balloc_block W lks s k (Q : option Z -> kernel -> Prop) :
  let sb := k_sb s in
  fop i pid W lks s -> room W 2 (length lks) s -> fs_geom sb (k_log s) -> free_ok sb (k_log s) (content s) ->
  (forall n, n ∈ lks.*2 -> 0 <= n < sb_size sb /\ used sb (content s) n = true /\ forall b, 0 <= b < sb_size sb -> n <> BBLOCK b sb) ->
  0 <= k -> k * BPB < sb_size sb -> (forall b, 0 <= b < k * BPB -> used sb (content s) b = true) ->
  (forall b s', first_free sb (content s) b -> fop i pid ({[b]} ∪ ({[BBLOCK b sb]} ∪ W)) lks s' ->
     (forall m, content s' m = take_block sb (content s) b m) -> fs_frame s s' -> in_op s s' -> Q (Some b) s') ->
  (forall s', fop i pid W lks s' -> (forall m, content s' m = content s m) -> fs_frame s s' -> in_op s s' ->
     (forall b, 0 <= b < Z.min ((k + 1) * BPB) (sb_size sb) -> used sb (content s) b = true) -> Q None s') ->
  wp (bp <- bread ROOTDEV (BBLOCK (k * BPB) sb) ;;
      d <- data_of bp ;;
      free <- findM (seqZ 0 (Z.min BPB (sb_size sb - k * BPB))) (fun bi =>
        ret (if Z.land (zget d (bi / 8)) (bit_mask bi) =? 0 then Some bi else None)) ;;
      match free with
      | Some bi =>
          upd_data bp (fun d => zset d (bi / 8) (Z.lor (zget d (bi / 8)) (bit_mask bi))) ;;;
          log_write bp ;;;
          brelse bp ;;;
          bzero ROOTDEV (k * BPB + bi) ;;;
          ret (Some (k * BPB + bi))
      | None =>
          brelse bp ;;;
          ret None
      end) Q s.
Proof.
  intros sb Hf Hr G Hfree Hlks Hk Hkb Hlow HQs HQn. assert (0 <= k * BPB) as Hnn by (rewrite bpb_eq; lia).
  set (n := BBLOCK (k * BPB) sb).
  destruct (BBLOCK_eq sb _ (k * BPB) G ltac:(lia)) as [_ Hrg]. fold n in Hrg.
  assert (n ∉ lks.*2) as Hn by (intros Hin; by apply (proj2 (proj2 (Hlks n Hin)) (k * BPB) ltac:(lia))).
  wp_step. apply (fop_bread i pid W lks s); [exact Hf|eapply room_le; [exact Hr|lia|lia]|exact Hn|].
  intros bp s1 Hf1 Hc1 Hfr1 Hop1. wp_step. apply (fop_data i pid W ((bp, n) :: lks) s1 bp n); [exact Hf1|by left|]. rewrite Hc1. wp_step.
  destruct (search_block sb (k_log s) (content s) k s1 G Hk Hlow) as (r & Er & Hres).
  apply wp_ok. exists r, s1. split; [exact Er|]. destruct r as [bi|].
  - destruct Hres as (Hbi & Hlt & Hff). set (b := k * BPB + bi) in *.
    destruct (bitmap_block sb (k_log s) (content s) k bi G Hk Hbi Hlt) as (Eb & _ & Em). fold b n in Eb, Em.
    destruct Hff as (Hb & Hub & Hbef). destruct (Hfree b Hb Hub) as (Hb0 & Hbh & Hbb).
    set (W1 := {[n]} ∪ W). set (W2 := {[b]} ∪ W1).
    assert (fop i pid W2 ((bp, n) :: lks) s1) as Hf1' by (eapply fop_weaken; [exact Hf1|unfold W2, W1; set_solver]).
    assert (room W2 0 (length lks) s1) as Hr2.
    { eapply room_op; [|exact Hop1]. unfold W2, W1. by do 2 apply room_add. }
    assert (forall s2 m, in_op s1 s2 -> home (k_log s) m -> home (k_log s2) m) as Hhome.
    { intros s2 m Ho. unfold home. rewrite (io_start _ _ Ho), (io_size _ _ Ho), (io_start _ _ Hop1), (io_size _ _ Hop1). auto. }
    apply (fop_update i pid W2 ((bp, n) :: lks) s1 bp n); [exact Hf1'|eapply room_le; [exact Hr2|lia|lia]|unfold W2, W1; set_solver|by left|exact Hrg| | |].
    { apply (Hhome s1); [apply in_op_refl|]. apply (fg_home _ _ G). lia. }
    { rewrite zset_length. by eapply fop_length. }
    intros s2 Hf2 Hc2 Hfr2 Hop2. wp_step. apply (fop_brelse i pid W2 [] lks s2 bp n); [exact Hf2|]. intros s3 Hf3 Hc3 Hfr3 Hop3.
    pose proof (in_op_trans _ _ _ Hop2 Hop3) as Hop23.
    wp_step. apply (bzero_spec W2 lks s3 b); [exact Hf3|by eapply room_op|unfold W2; set_solver| |pose proof (fg_size _ _ G); lia|by apply Hhome|].
    { intros Hin. destruct (Hlks b Hin) as (_ & Hu & _). congruence. }
    intros s4 Hf4 Hc4 Hfr4 Hop4. wp_steps. rewrite Eb in *. apply HQs; [by split|rewrite <- Eb; exact Hf4| |exact (fs_frame_trans _ _ _ Hfr1 (fs_frame_trans _ _ _ Hfr2 (fs_frame_trans _ _ _ Hfr3 Hfr4)))|].
    + intros m. rewrite Hc4. unfold take_block, put_block. cbn [fst snd]. rewrite Hc3, Hc2, Em. unfold put_block. cbn [fst snd].
      by rewrite !Hc1.
    + eapply in_op_trans; [exact Hop1|]. eapply in_op_trans; [exact Hop23|exact Hop4].
  - wp_step. apply (fop_brelse i pid W [] lks s1 bp n); [exact Hf1|]. intros s2 Hf2 Hc2 Hfr2 Hop2. wp_steps.
    apply HQn; [exact Hf2|intros m; by rewrite Hc2|by eapply fs_frame_trans|by eapply in_op_trans|exact Hres].
Qed.

(** The locked buffers [lks] hold blocks that are in use, and none of the bitmap. *)
Definition locks_ok (lks : list (nat * Z)) (sb : superblock) (c : Z -> list Z) : Prop :=
  forall n, n ∈ lks.*2 -> 0 <= n < sb_size sb /\ used sb c n = true /\ forall b, 0 <= b < sb_size sb -> n <> BBLOCK b sb.

Lemma balloc_spec W lks s (Q : Z -> kernel -> Prop) :
  let sb := k_sb s in
  fop i pid W lks s -> room W 2 (length lks) s -> fs_geom sb (k_log s) -> free_ok sb (k_log s) (content s) ->
  locks_ok lks sb (content s) ->
  (forall b s', first_free sb (content s) b -> fop i pid ({[b]} ∪ ({[BBLOCK b sb]} ∪ W)) lks s' ->
     (forall m, content s' m = take_block sb (content s) b m) -> fs_frame s s' -> in_op s s' -> Q b s') ->
  (forall s', (forall b, 0 <= b < sb_size sb -> used sb (content s) b = true) -> fop i pid W lks s' ->
     (forall m, content s' m = content s m) -> fs_frame s s' -> in_op s s' -> Q 0 s') ->
  wp (balloc ROOTDEV) Q s.
Proof.
  intros sb Hf Hr G Hfree Hlks HQs HQn. unfold balloc, get_sb. do 3 wp_step. fold sb.
  set (total := (sb_size sb + BPB - 1) / BPB). pose proof (fg_size _ _ G) as Hsz.
  assert (0 <= total /\ sb_size sb <= total * BPB /\ forall k, k < total -> k * BPB < sb_size sb) as (Ht0 & Ht1 & Ht2).
  { unfold total. rewrite bpb_eq. split; [dlia|]. split; [dlia|]. intros k Hk. dlia. }
  match goal with |- wp (findM _ ?f) ?Qr _ => set (body := f); set (Q' := Qr) end.
  assert (forall m a s1, 0 <= a -> Z.of_nat m + a = total -> (forall b, 0 <= b < Z.min (a * BPB) (sb_size sb) -> used sb (content s) b = true) ->
    fop i pid W lks s1 -> (forall m, content s1 m = content s m) -> fs_frame s s1 -> in_op s s1 ->
    wp (findM ((fun k => k * BPB) <$> seqZ a (Z.of_nat m)) body) Q' s1) as Hloop.
  2: { specialize (Hloop (Z.to_nat total) 0 s). rewrite Z2Nat.id in Hloop by exact Ht0.
    apply Hloop; [lia|lia|lia|exact Hf|auto|apply fs_frame_refl|apply in_op_refl]. }
  induction m as [|m IH]; intros a s1 Ha Hma Hlow Hf1 Hc1 Hfr1 Hop1.
  - change (seqZ a (Z.of_nat 0)) with (@nil Z). unfold Q'. cbn [fmap list_fmap findM]. do 2 wp_step.
    apply printf_plain; [apply (bool_decide_unpack _); vm_compute; reflexivity|
      destruct Hf1 as [(pins & Ht & _) _]; eapply cache_no_lock; apply Ht|].
    intros s2 He. red in He. wp_steps. apply HQn; [intros b Hb; apply Hlow; lia| | | |].
    + eapply fop_same; [exact Hf1|rewrite He; reflexivity..].
    + intros x. rewrite <- Hc1. apply content_frame; rewrite He; reflexivity.
    + eapply fs_frame_trans; [exact Hfr1|]. unfold fs_frame. rewrite He. apply wakes_refl.
    + eapply in_op_trans; [exact Hop1|]. rewrite He. by split.
  - rewrite Nat2Z.inj_succ, seqZ_cons by lia. cbn [fmap list_fmap findM]. wp_step. rewrite Z.pred_succ.
    assert (k_sb s1 = sb) as Esb by (by apply fs_frame_sb). unfold body at 1. rewrite <- Esb.
    apply (balloc_block W lks s1 a); rewrite ?Esb; auto.
    + by eapply room_op.
    + by eapply fs_geom_op.
    + by eapply free_ok_op.
    + intros n Hn. rewrite (used_ext _ _ _ _ Hc1). by apply Hlks.
    + apply Ht2. lia.
    + intros b Hb. rewrite (used_ext _ _ _ _ Hc1). apply Hlow. pose proof (Ht2 a ltac:(lia)). lia.
    + intros b s2 (Hb1 & Hb2 & Hb3) Hf2 Hc2 Hfr2 Hop2. unfold Q'. wp_steps. apply HQs; [| exact Hf2| |by eapply fs_frame_trans|by eapply in_op_trans].
      * rewrite (used_ext _ _ _ _ Hc1) in Hb2. split; [exact Hb1|]. split; [exact Hb2|]. intros b' Hb'. rewrite <- (used_ext _ _ _ _ Hc1). auto.
      * intros x. rewrite Hc2. unfold take_block, put_block. cbn [fst snd]. by rewrite !Hc1.
    + intros s2 Hf2 Hc2 Hfr2 Hop2 Hall. apply IH; [lia|lia| |exact Hf2|intros x; by rewrite Hc2|by eapply fs_frame_trans|by eapply in_op_trans].
      intros b Hb. rewrite <- (used_ext _ _ _ _ Hc1). apply Hall. lia.
Qed.
End blocks.
