(* ===== verification/FsFile.v ===== *)
(** * fs.c, second part of the proofs: the content of a file.

    [baddr c a bn] is the disk block that holds block [bn] of the file with
    block addresses [a], when the disk blocks hold [c]; 0 is a hole. *)

From S2P Require Import Prelude Exec Params State Mem Vm VmTable VmUser Sched Sleeplock Bio BioSpec Log LogSpec LogCrash LogOp.
From S2P Require Import RingBuf Uart Printf Console Fs FsBlock.

Definition baddr (c : Z -> list Z) (a : list Z) (bn : Z) : Z :=
  if bn <? NDIRECT then zget a bn
  else if zget a NDIRECT =? 0 then 0 else get32 (c (zget a NDIRECT)) (4 * (bn - NDIRECT)).

(** The blocks of the file: its data blocks and, as number MAXFILE, the indirect block. *)
Definition owned (c : Z -> list Z) (a : list Z) (k : Z) : Z :=
  if k =? MAXFILE then zget a NDIRECT else baddr c a k.

(** A block that may belong to a file. *)
Record data_block (sb : superblock) (lg : log) (c : Z -> list Z) (n : Z) : Prop := {
  db_range : 0 < n < sb_size sb;
  db_used : used sb c n = true;
  db_home : home lg n;
  db_bmap : forall b, 0 <= b < sb_size sb -> n <> BBLOCK b sb;
}.

Record file_ok (sb : superblock) (lg : log) (c : Z -> list Z) (a : list Z) : Prop := {
  fk_len : length a = Z.to_nat (NDIRECT + 1);
  fk_data : forall k, 0 <= k <= MAXFILE -> owned c a k <> 0 -> data_block sb lg c (owned c a k);
  fk_inj : forall j k, 0 <= j <= MAXFILE -> 0 <= k <= MAXFILE -> owned c a j <> 0 -> owned c a j = owned c a k -> j = k;
}.

Lemma ndirect_eq : NDIRECT = 12. Proof. reflexivity. Qed.
Lemma nindirect_eq : NINDIRECT = 256. Proof. reflexivity. Qed.
Lemma maxfile_eq : MAXFILE = 268. Proof. reflexivity. Qed.

Lemma baddr_ext c c' a bn : (zget a NDIRECT <> 0 -> c' (zget a NDIRECT) = c (zget a NDIRECT)) -> baddr c' a bn = baddr c a bn.
Proof.
  intros E. unfold baddr. destruct (bn <? NDIRECT); [reflexivity|]. destruct (Z.eqb_spec (zget a NDIRECT) 0) as [|Hne]; [reflexivity|].
  by rewrite E.
Qed.

Lemma get32_zeros j : 0 <= j < NINDIRECT -> get32 zeros (4 * j) = 0.
Proof.
  intros Hj. unfold get32, slice, zeros. rewrite drop_replicate, take_replicate.
  replace (Nat.min _ _) with 4%nat; [reflexivity|]. rewrite nindirect_eq in Hj. rewrite bsize_eq. lia.
Qed.

(** ** Taking a free block *)

Section take.
Variables (sb : superblock) (lg : log) (c : Z -> list Z) (b : Z).
Hypothesis geom : fs_geom sb lg.
Hypothesis free : free_ok sb lg c.
Hypothesis first : first_free sb c b.
Hypothesis lens : forall n, length (c n) = Z.to_nat BSIZE.

Lemma take_other m : m <> b -> m <> BBLOCK b sb -> take_block sb c b m = c m.
Proof. intros H1 H2. unfold take_block, put_block. cbn [fst snd]. by rewrite !decide_False. Qed.

Lemma take_new : take_block sb c b b = zeros.
Proof. unfold take_block, put_block. cbn [fst snd]. by rewrite decide_True. Qed.

Lemma take_used b' : 0 <= b' < sb_size sb -> used sb (take_block sb c b) b' = if decide (b' = b) then true else used sb c b'.
Proof.
  intros Hb'. destruct first as (Hb & Hu & _). rewrite <- (bit_change sb lg c b b' true geom Hb Hb' (lens _)).
  unfold take_block, used. destruct (free b Hb Hu) as (_ & _ & Hbb). unfold put_block at 1. cbn [fst snd].
  rewrite (decide_False (P := BBLOCK b' sb = b)); [reflexivity|]. intros E. by apply (Hbb b' Hb').
Qed.

Lemma take_data_block n : data_block sb lg c n -> data_block sb lg (take_block sb c b) n /\ n <> b /\ take_block sb c b n = c n.
Proof.
  intros [A B C D]. destruct first as (Hb & Hu & _). assert (n <> b) as Hn by congruence. split; [|split; [exact Hn|]].
  - split; [exact A| |exact C|exact D]. rewrite take_used by lia. by rewrite decide_False.
  - apply take_other; [exact Hn|by apply D].
Qed.

Lemma take_block_new : data_block sb lg (take_block sb c b) b.
Proof.
  destruct first as (Hb & Hu & _). destruct (free b Hb Hu) as (H0 & Hh & Hbb). split; [lia| |exact Hh|exact Hbb].
  rewrite take_used by lia. by rewrite decide_True.
Qed.

Lemma take_free : free_ok sb lg (take_block sb c b).
Proof. intros b' Hb'. rewrite take_used by exact Hb'. case_decide; [done|]. by apply free. Qed.

(** The file keeps its blocks. *)
Lemma take_baddr a k : file_ok sb lg c a -> baddr (take_block sb c b) a k = baddr c a k.
Proof.
  intros [A B C]. apply baddr_ext. intros Hne. apply (take_data_block (zget a NDIRECT)).
  apply (B MAXFILE); [rewrite maxfile_eq; lia|]. unfold owned. by rewrite Z.eqb_refl.
Qed.

Lemma take_owned a k : file_ok sb lg c a -> owned (take_block sb c b) a k = owned c a k.
Proof. intros Hf. unfold owned. by rewrite take_baddr. Qed.

Lemma take_file_ok a : file_ok sb lg c a -> file_ok sb lg (take_block sb c b) a.
Proof.
  intros Hf. pose proof Hf as [A B C]. split; [exact A| |].
  - intros k Hk. rewrite take_owned by exact Hf. intros Hne. by apply take_data_block, B.
  - intros j k Hj Hk. rewrite !take_owned by exact Hf. by apply C.
Qed.
End take.

(** Block [b], which is not the file's, becomes its block number [k0]. *)
Lemma file_ok_add sb lg c a c' a' k0 b :
  file_ok sb lg c a -> length a' = length a -> data_block sb lg c' b ->
  (forall n, data_block sb lg c n -> data_block sb lg c' n) ->
  0 <= k0 <= MAXFILE -> (forall k, 0 <= k <= MAXFILE -> owned c a k <> b) ->
  (forall k, 0 <= k <= MAXFILE -> owned c' a' k = if decide (k = k0) then b else owned c a k) -> file_ok sb lg c' a'.
Proof.
  intros [A B C] Hl Hb Hmono Hk0 Hnew Ho. split; [congruence| |].
  - intros k Hk. rewrite Ho by exact Hk. case_decide; [auto|]. intros Hne. apply Hmono. by apply B.
  - intros j k Hj Hk. rewrite !Ho by auto. repeat case_decide; [congruence| | |by apply C].
    + intros _ E. exfalso. by apply (Hnew k Hk).
    + intros _ E. exfalso. by apply (Hnew j Hj).
Qed.

(** ** What bmap() may do to a file *)

(** The file [a] on the blocks [c] became [a'] on [c'], with block [bn] possibly
    filled in: nothing else of the file changes, and of the other blocks in use
    only its indirect block and the bitmap do. *)
Record grow (sb : superblock) (lg : log) (c : Z -> list Z) (a : list Z) (c' : Z -> list Z) (a' : list Z) (bn : Z) : Prop := {
  gr_ok : file_ok sb lg c' a';
  gr_free : free_ok sb lg c';
  gr_used : forall b, 0 <= b < sb_size sb -> used sb c b = true -> used sb c' b = true;
  gr_same : forall n, data_block sb lg c n -> n <> zget a NDIRECT -> c' n = c n;
  gr_addr : forall k, 0 <= k < MAXFILE -> baddr c a k <> 0 -> baddr c' a' k = baddr c a k;
  gr_hole : forall k, 0 <= k < MAXFILE -> k <> bn -> baddr c a k = 0 -> baddr c' a' k = 0;
  gr_ind : zget a' NDIRECT = zget a NDIRECT \/ zget a NDIRECT = 0 /\ forall n, data_block sb lg c n -> n <> zget a' NDIRECT;
  gr_lens : forall n, length (c' n) = Z.to_nat BSIZE;
  gr_new : forall k, 0 <= k <= MAXFILE -> owned c' a' k = owned c a k \/ ~ data_block sb lg c (owned c' a' k);
}.

Lemma grow_data sb lg c a c' a' bn n : grow sb lg c a c' a' bn -> data_block sb lg c n -> data_block sb lg c' n.
Proof. intros G [A B C D]. split; [exact A| |exact C|exact D]. apply (gr_used _ _ _ _ _ _ _ G); [lia|exact B]. Qed.

Lemma grow_trans sb lg c1 a1 c2 a2 c3 a3 bn :
  grow sb lg c1 a1 c2 a2 bn -> grow sb lg c2 a2 c3 a3 bn -> grow sb lg c1 a1 c3 a3 bn.
Proof.
  intros G1 G2. split; [apply G2|apply G2| | | | | |apply G2|].
  - intros b Hb Hu. apply G2; [exact Hb|]. by apply G1.
  - intros n Hn Hne. rewrite (gr_same _ _ _ _ _ _ _ G2); [by apply G1|exact (grow_data _ _ _ _ _ _ _ _ G1 Hn)|].
    destruct (gr_ind _ _ _ _ _ _ _ G1) as [->|[_ Hu]]; [exact Hne|by apply Hu].
  - intros k Hk Hne. pose proof (gr_addr _ _ _ _ _ _ _ G1 k Hk Hne) as E. rewrite <- E. apply (gr_addr _ _ _ _ _ _ _ G2); [exact Hk|by rewrite E].
  - intros k Hk Hbn E. apply (gr_hole _ _ _ _ _ _ _ G2); [exact Hk|exact Hbn|]. by apply (gr_hole _ _ _ _ _ _ _ G1).
  - destruct (gr_ind _ _ _ _ _ _ _ G1) as [E1|[E1 U1]]; destruct (gr_ind _ _ _ _ _ _ _ G2) as [E2|[E2 U2]].
    + left. congruence.
    + right. split; [congruence|]. intros n Hn. apply U2. exact (grow_data _ _ _ _ _ _ _ _ G1 Hn).
    + right. split; [exact E1|]. by rewrite E2.
    + right. split; [exact E1|]. intros n Hn. apply U2. exact (grow_data _ _ _ _ _ _ _ _ G1 Hn).
  - intros k Hk. destruct (gr_new _ _ _ _ _ _ _ G2 k Hk) as [->|Hn2]; [by apply (gr_new _ _ _ _ _ _ _ G1)|].
    right. intros Hn. apply Hn2. exact (grow_data _ _ _ _ _ _ _ _ G1 Hn).
Qed.

Section add.
Variables (sb : superblock) (lg : log) (c : Z -> list Z) (a : list Z) (b : Z).
Hypothesis geom : fs_geom sb lg.
Hypothesis free : free_ok sb lg c.
Hypothesis first : first_free sb c b.
Hypothesis lens : forall n, length (c n) = Z.to_nat BSIZE.
Hypothesis file : file_ok sb lg c a.

Let c1 := take_block sb c b.

Lemma new_not_owned k : 0 <= k <= MAXFILE -> owned c a k <> b.
Proof.
  intros Hk E. pose proof (take_block_new sb lg c b geom free first lens) as [Hb _ _ _].
  pose proof (fk_data _ _ _ _ file k Hk ltac:(rewrite E; lia)) as [_ Hu _ _]. destruct first as (_ & Hf & _). congruence.
Qed.

(** The new block was no block of any file. *)
Lemma new_not_data : ~ data_block sb lg c b.
Proof. intros [_ Hu _ _]. destruct first as (_ & Hf & _). congruence. Qed.

Lemma add_owned c' a' k0 : (forall k, 0 <= k <= MAXFILE -> owned c' a' k = if decide (k = k0) then b else owned c a k) ->
  forall k, 0 <= k <= MAXFILE -> owned c' a' k = owned c a k \/ ~ data_block sb lg c (owned c' a' k).
Proof. intros Ho k Hk. rewrite Ho by exact Hk. case_decide; [right; exact new_not_data|by left]. Qed.

Lemma take_lens n : length (c1 n) = Z.to_nat BSIZE.
Proof.
  unfold c1, take_block, put_block. cbn [fst snd]. destruct (decide (n = b)); [apply length_replicate|].
  case_decide; [|apply lens]. unfold mark. rewrite zset_length. apply lens.
Qed.

Lemma take_used_mono b' : 0 <= b' < sb_size sb -> used sb c b' = true -> used sb c1 b' = true.
Proof. intros Hb' Hu. unfold c1. rewrite (take_used sb lg c b geom free first lens) by exact Hb'. by case_decide. Qed.

Lemma zset_addr k x j : 0 <= k <= NDIRECT -> 0 <= j <= NDIRECT -> zget (zset a k x) j = if decide (j = k) then x else zget a j.
Proof.
  intros Hk Hj. pose proof (fk_len _ _ _ _ file) as Hl. rewrite ndirect_eq in *. case_decide as D.
  - subst j. apply zget_zset_eq. lia.
  - apply zget_zset_ne; lia.
Qed.

(** A new direct block. *)
Lemma grow_direct bn : 0 <= bn < NDIRECT -> zget a bn = 0 ->
  grow sb lg c a c1 (zset a bn b) bn /\ baddr c1 (zset a bn b) bn = b.
Proof.
  intros Hbn Hz. pose proof (take_file_ok sb lg c b geom free first lens a file) as Hf1.
  assert (zget (zset a bn b) NDIRECT = zget a NDIRECT) as Hind by (rewrite zset_addr, decide_False by lia; reflexivity).
  assert (forall k, 0 <= k < MAXFILE -> baddr c1 (zset a bn b) k = if decide (k = bn) then b else baddr c a k) as Hba.
  { intros k Hk. rewrite <- (take_baddr sb lg c b geom free first lens a k file). fold c1. unfold baddr. rewrite Hind.
    destruct (Z.ltb_spec k NDIRECT); [apply zset_addr; lia|]. rewrite decide_False by lia. reflexivity. }
  split; [|rewrite Hba, decide_True by (rewrite ?maxfile_eq, ?ndirect_eq in *; lia); reflexivity].
  assert (forall k, 0 <= k <= MAXFILE -> owned c1 (zset a bn b) k = if decide (k = bn) then b else owned c a k) as Ho.
  { intros k Hk. unfold owned. destruct (Z.eqb_spec k MAXFILE) as [->|Hne]; [|apply Hba; lia].
    rewrite decide_False by (rewrite maxfile_eq, ndirect_eq in *; lia). exact Hind. }
  split; [|by apply (take_free sb lg c b geom free first lens)|exact take_used_mono| | | |left; exact Hind|exact take_lens|by eapply add_owned].
  - apply (file_ok_add sb lg c a _ _ bn b); [exact file|by rewrite zset_length|by apply take_block_new| |rewrite maxfile_eq, ndirect_eq in *; lia|exact new_not_owned|exact Ho].
    intros n Hn. by apply take_data_block.
  - intros n Hn _. by apply (take_data_block sb lg c b geom free first lens).
  - intros k Hk Hne. rewrite Hba by exact Hk. case_decide as D; [|reflexivity]. exfalso. apply Hne. subst k. unfold baddr.
    rewrite (proj2 (Z.ltb_lt _ _)) by lia. exact Hz.
  - intros k Hk Hne E. rewrite Hba by exact Hk. by rewrite decide_False.
Qed.

(** A new indirect block. *)
Lemma grow_indirect bn : NDIRECT <= bn < MAXFILE -> zget a NDIRECT = 0 ->
  grow sb lg c a c1 (zset a NDIRECT b) bn /\ zget (zset a NDIRECT b) NDIRECT = b /\
  baddr c1 (zset a NDIRECT b) bn = baddr c a bn.
Proof.
  intros Hbn Hz. assert (zget (zset a NDIRECT b) NDIRECT = b) as Hind by (rewrite zset_addr, decide_True by (rewrite ?ndirect_eq; lia); reflexivity).
  pose proof (take_block_new sb lg c b geom free first lens) as Hnew.
  assert (forall k, 0 <= k < MAXFILE -> baddr c1 (zset a NDIRECT b) k = baddr c a k) as Hba.
  { intros k Hk. unfold baddr. rewrite Hind, Hz. destruct (Z.ltb_spec k NDIRECT) as [?|?].
    - rewrite zset_addr, decide_False by lia. reflexivity.
    - rewrite (proj2 (Z.eqb_neq b 0)) by (destruct Hnew; lia). unfold c1. rewrite take_new.
      apply get32_zeros. rewrite maxfile_eq, ndirect_eq, nindirect_eq in *. lia. }
  split; [|split; [exact Hind|apply Hba; rewrite ndirect_eq in *; lia]].
  assert (forall k, 0 <= k <= MAXFILE -> owned c1 (zset a NDIRECT b) k = if decide (k = MAXFILE) then b else owned c a k) as Ho.
  { intros k Hk. unfold owned. destruct (Z.eqb_spec k MAXFILE) as [->|Hne]; [by rewrite decide_True|].
    rewrite decide_False by exact Hne. apply Hba. lia. }
  split; [|by apply (take_free sb lg c b geom free first lens)|exact take_used_mono| | | | |exact take_lens|by eapply add_owned].
  - apply (file_ok_add sb lg c a _ _ MAXFILE b); [exact file|by rewrite zset_length|exact Hnew| |rewrite maxfile_eq; lia|exact new_not_owned|exact Ho].
    intros n Hn. by apply take_data_block.
  - intros n Hn _. by apply (take_data_block sb lg c b geom free first lens).
  - intros k Hk _. by apply Hba.
  - intros k Hk _ E. by rewrite Hba.
  - right. split; [exact Hz|]. rewrite Hind. intros n Hn. by apply (take_data_block sb lg c b geom free first lens).
Qed.

(** A new block in the indirect block. *)
Lemma grow_entry bn : let ind := zget a NDIRECT in NDIRECT <= bn < MAXFILE -> ind <> 0 -> baddr c a bn = 0 ->
  let c2 := put_block c1 (ind, put32 (c1 ind) (4 * (bn - NDIRECT)) b) in
  grow sb lg c a c2 a bn /\ baddr c2 a bn = b /\ c2 b = zeros.
Proof.
  intros ind Hbn Hind Hz c2. pose proof (take_block_new sb lg c b geom free first lens) as Hnew.
  assert (data_block sb lg c ind) as Hdi.
  { pose proof (fk_data _ _ _ _ file MAXFILE) as Hd. unfold owned in Hd. rewrite Z.eqb_refl in Hd. apply Hd; [rewrite maxfile_eq; lia|exact Hind]. }
  destruct (take_data_block sb lg c b geom free first lens ind Hdi) as (Hdi1 & Hib & Hci). fold c1 in Hci.
  assert (forall n, n <> ind -> c2 n = c1 n) as Hc2 by (intros n Hn; unfold c2, put_block; cbn [fst snd]; by rewrite decide_False).
  assert (c2 ind = put32 (c ind) (4 * (bn - NDIRECT)) b) as Hc2i.
  { unfold c2, put_block. cbn [fst snd]. by rewrite decide_True, Hci. }
  assert (length (c ind) = 1024%nat) as Hli by (rewrite lens, bsize_eq; reflexivity). rewrite maxfile_eq, ndirect_eq in *.
  assert (forall k, 0 <= k < 268 -> baddr c2 a k = if decide (k = bn) then b else baddr c a k) as Hba.
  { intros k Hk. unfold baddr. rewrite ndirect_eq. destruct (Z.ltb_spec k 12) as [?|?]; [by rewrite decide_False by lia|].
    change (zget a 12) with ind. rewrite (proj2 (Z.eqb_neq _ _) Hind), Hc2i. case_decide as D.
    - subst k. rewrite get32_put32_eq by lia. apply u32_id. destruct Hnew. pose proof (fg_size _ _ geom). lia.
    - apply get32_put32_ne; lia. }
  assert (forall b', 0 <= b' < sb_size sb -> used sb c2 b' = used sb c1 b') as Hu2.
  { intros b' Hb'. unfold used. rewrite Hc2; [reflexivity|]. intros E. by apply (db_bmap _ _ _ _ Hdi b' Hb'). }
  assert (forall n, data_block sb lg c1 n -> data_block sb lg c2 n) as Hmono.
  { intros n [A B C D]. split; [exact A|rewrite Hu2 by lia; exact B|exact C|exact D]. }
  split; [|split; [rewrite Hba, decide_True by lia; reflexivity|rewrite Hc2 by congruence; apply take_new]].
  assert (forall k, 0 <= k <= MAXFILE -> owned c2 a k = if decide (k = bn) then b else owned c a k) as Ho.
  { rewrite maxfile_eq. intros k Hk. unfold owned. rewrite maxfile_eq. destruct (Z.eqb_spec k 268) as [->|Hne]; [by rewrite decide_False by lia|].
    apply Hba. lia. }
  split.
  - apply (file_ok_add sb lg c a _ _ bn b); [exact file|reflexivity|by apply Hmono| |rewrite maxfile_eq; lia|exact new_not_owned|exact Ho].
    intros n Hn. by apply Hmono, (take_data_block sb lg c b geom free first lens).
  - intros b' Hb' Hu. rewrite Hu2 in Hu by exact Hb'. by apply (take_free sb lg c b geom free first lens).
  - intros b' Hb' Hu. rewrite Hu2 by exact Hb'. by apply take_used_mono.
  - intros n Hn Hne. rewrite ndirect_eq in Hne. rewrite Hc2 by exact Hne. by apply (take_data_block sb lg c b geom free first lens).
  - rewrite maxfile_eq. intros k Hk Hne. rewrite Hba by exact Hk. case_decide; [congruence|reflexivity].
  - rewrite maxfile_eq. intros k Hk Hne E. rewrite Hba by exact Hk. by rewrite decide_False.
  - by left.
  - intros n. destruct (decide (n = ind)) as [->|Hn]; [|rewrite Hc2 by exact Hn; apply take_lens].
    rewrite Hc2i, put32_length by lia. apply lens.
  - by eapply add_owned.
Qed.
End add.

(** ** bmap *)

(** The log of [s] has the place and size of [lg]. *)
Definition same_log (lg : log) (s : kernel) : Prop := l_start (k_log s) = l_start lg /\ l_size (k_log s) = l_size lg.

Lemma same_log_op lg s s' : same_log lg s -> in_op s s' -> same_log lg s'.
Proof. intros [A B] [_ _ C D _]. split; congruence. Qed.

Lemma same_home lg s n : same_log lg s -> home (k_log s) n <-> home lg n.
Proof. intros [A B]. unfold home. rewrite A, B. tauto. Qed.

Lemma same_geom_fs sb lg s : same_log lg s -> fs_geom sb lg -> fs_geom sb (k_log s).
Proof. intros Hs [A B C]. split; [exact A|exact B|]. intros b Hb. apply (same_home lg); auto. Qed.

Lemma same_free sb lg s c : same_log lg s -> free_ok sb lg c -> free_ok sb (k_log s) c.
Proof.
  intros Hs Hf b Hb Hu. destruct (Hf b Hb Hu) as (A & B & C). split; [exact A|]. split; [by apply (same_home lg)|exact C].
Qed.

Lemma free_ext sb lg c c' : (forall m, c' m = c m) -> free_ok sb lg c -> free_ok sb lg c'.
Proof. intros E Hf b Hb Hu. apply Hf; [exact Hb|]. by rewrite <- (used_ext _ _ _ _ E). Qed.

Lemma data_ext sb lg c c' n : (forall m, c' m = c m) -> data_block sb lg c n -> data_block sb lg c' n.
Proof. intros E [A B C D]. split; [exact A|by rewrite (used_ext _ _ _ _ E)|exact C|exact D]. Qed.

Lemma baddr_eqf c c' a k : (forall m, c' m = c m) -> baddr c' a k = baddr c a k.
Proof. intros E. apply baddr_ext. auto. Qed.

Lemma file_ext sb lg c c' a : (forall m, c' m = c m) -> file_ok sb lg c a -> file_ok sb lg c' a.
Proof.
  intros E [A B C]. assert (forall k, owned c' a k = owned c a k) as Ho.
  { intros k. unfold owned. by rewrite (baddr_eqf _ _ _ _ E). }
  split; [exact A| |].
  - intros k Hk. rewrite Ho. intros Hne. eapply data_ext; [exact E|]. by apply B.
  - intros j k. rewrite !Ho. apply C.
Qed.

Lemma grow_ext sb lg c a c1 c2 a' bn : (forall m, c2 m = c1 m) -> grow sb lg c a c1 a' bn -> grow sb lg c a c2 a' bn.
Proof.
  intros E [A B C D F G I L N]. split.
  - by eapply file_ext.
  - by eapply free_ext.
  - intros b Hb Hu. rewrite (used_ext _ _ _ _ E). auto.
  - intros n Hn Hne. rewrite E. auto.
  - intros k Hk Hne. rewrite (baddr_eqf _ _ _ _ E). auto.
  - intros k Hk Hne Hz. rewrite (baddr_eqf _ _ _ _ E). auto.
  - exact I.
  - intros n. rewrite E. auto.
  - intros k Hk. assert (owned c2 a' k = owned c1 a' k) as -> by (unfold owned; by rewrite (baddr_eqf _ _ _ _ E)). auto.
Qed.

Lemma grow_refl sb lg c a bn : file_ok sb lg c a -> free_ok sb lg c -> (forall n, length (c n) = Z.to_nat BSIZE) -> grow sb lg c a c a bn.
Proof. intros Hf Hfr Hl. by split; auto. Qed.

(** The blocks bmap() may log. *)
Definition map_blocks (sb : superblock) (c : Z -> list Z) (a : list Z) (bn : Z) : gset Z :=
  {[baddr c a bn; BBLOCK (baddr c a bn) sb]} ∪
  (if bn <? NDIRECT then ∅ else {[zget a NDIRECT; BBLOCK (zget a NDIRECT) sb]}).

(** The inode's block addresses became [a']. *)
Definition file_frame (ip : nat) (a' : list Z) (s s' : kernel) : Prop :=
  fs_frame (with_k_itable (alter (with_i_addrs a') ip (k_itable s)) s) s'.

Lemma file_frame_addrs ip a' s s' : (ip < length (k_itable s))%nat -> file_frame ip a' s s' ->
  k_itable s' = alter (with_i_addrs a') ip (k_itable s) /\ k_itable s' !!! ip = with_i_addrs a' (k_itable s !!! ip).
Proof.
  intros Hip Hf. pose proof (fs_frame_eq _ _ Hf) as E. assert (k_itable s' = alter (with_i_addrs a') ip (k_itable s)) as Ei by (rewrite E; reflexivity).
  split; [exact Ei|]. rewrite Ei. destruct (lookup_lt_is_Some_2 _ _ Hip) as [I HI].
  rewrite (list_lookup_total_correct _ _ _ HI). apply list_lookup_total_correct. by rewrite list_lookup_alter_eq, HI.
Qed.

Lemma alter_addrs_id ip s : with_k_itable (alter (with_i_addrs (i_addrs (k_itable s !!! ip))) ip (k_itable s)) s = s.
Proof.
  replace (alter _ ip (k_itable s)) with (k_itable s); [reflexivity|]. apply list_eq. intros j.
  destruct (decide (j = ip)) as [->|Hne]; [|by rewrite list_lookup_alter_ne]. rewrite list_lookup_alter_eq.
  destruct (k_itable s !! ip) as [I|] eqn:E; [|reflexivity]. rewrite (list_lookup_total_correct _ _ _ E). reflexivity.
Qed.

Lemma frame_itable T s s' : fs_frame s s' -> fs_frame (with_k_itable T s) (with_k_itable T s').
Proof. intros [A B C]. split; [rewrite A; reflexivity|exact B|exact C]. Qed.

Lemma in_op_itable T s s' : in_op s s' -> in_op s (with_k_itable T s').
Proof. intros [A B C D E]. by split. Qed.

(** Setting the address [k] of the inode after block operations. *)
Lemma set_addr_frame ip k b s s1 : fs_frame s s1 ->
  file_frame ip (zset (i_addrs (k_itable s !!! ip)) k b) s
    (with_k_itable (alter (fun I => with_i_addrs (zset (i_addrs I) k b) I) ip (k_itable s1)) s1).
Proof.
  intros Hf. assert (k_itable s1 = k_itable s) as E by (rewrite (fs_frame_eq _ _ Hf); reflexivity). rewrite E.
  replace (alter (fun I => with_i_addrs (zset (i_addrs I) k b) I) ip (k_itable s))
    with (alter (with_i_addrs (zset (i_addrs (k_itable s !!! ip)) k b)) ip (k_itable s)).
  - by apply frame_itable.
  - apply list_eq. intros j. destruct (decide (j = ip)) as [->|Hne]; [|by rewrite !list_lookup_alter_ne]. rewrite !list_lookup_alter_eq.
    destruct (k_itable s !! ip) as [I|] eqn:EI; [|reflexivity]. by rewrite (list_lookup_total_correct _ _ _ EI).
Qed.

Lemma file_frame_trans ip a1 a2 s s1 s2 : file_frame ip a1 s s1 -> file_frame ip a2 s1 s2 -> file_frame ip a2 s s2.
Proof.
  unfold file_frame. intros F1 F2. eapply fs_frame_trans; [|exact F2].
  assert (k_itable s1 = alter (with_i_addrs a1) ip (k_itable s)) as E by (rewrite (fs_frame_eq _ _ F1); reflexivity).
  rewrite E. replace (alter (with_i_addrs a2) ip (alter (with_i_addrs a1) ip (k_itable s))) with (alter (with_i_addrs a2) ip (k_itable s)).
  - exact (frame_itable _ _ _ F1).
  - apply list_eq. intros j. destruct (decide (j = ip)) as [->|Hne]; [|by rewrite !list_lookup_alter_ne].
    rewrite !list_lookup_alter_eq. by destruct (k_itable s !! ip).
Qed.

Section bmap.
Context `{DiskOk} `{Waits}.
Variables (i : nat) (pid : Z) (ip : nat) (lg : log) (sb : superblock).

Definition addrs (s : kernel) : list Z := i_addrs (k_itable s !!! ip).

(** The process works on the inode [ip], whose file is sound. *)
Record file_st (W : gset Z) (s : kernel) : Prop := {
  ft_op : fop i pid W [] s;
  ft_ip : (ip < length (k_itable s))%nat;
  ft_dev : i_dev (k_itable s !!! ip) = ROOTDEV;
  ft_sb : k_sb s = sb;
  ft_lg : same_log lg s;
  ft_geom : fs_geom sb lg;
  ft_free : free_ok sb lg (content s);
  ft_file : file_ok sb lg (content s) (addrs s);
}.

Record bmapped (W : gset Z) (bn : Z) (s : kernel) (r : Z) (s' : kernel) (a' : list Z) : Prop := {
  bm_grow : grow sb lg (content s) (addrs s) (content s') a' bn;
  bm_r : r = baddr (content s') a' bn;
  bm_new : baddr (content s) (addrs s) bn = 0 -> r <> 0 -> content s' r = zeros;
  bm_full : r = 0 -> forall b, 0 <= b < sb_size sb -> used sb (content s') b = true;
  bm_fop : fop i pid (map_blocks sb (content s') a' bn ∪ W) [] s';
  bm_frame : file_frame ip a' s s';
  bm_op : in_op s s';
}.

Lemma ft_lens W s : file_st W s -> forall n, length (content s n) = Z.to_nat BSIZE.
Proof. intros [Hf _ _ _ _ _ _ _] n. by eapply fop_length. Qed.

(** Nothing changed but the state of the cache. *)
Lemma bmapped_same W bn s s' : file_st W s -> baddr (content s) (addrs s) bn <> 0 -> fop i pid W [] s' ->
  (forall m, content s' m = content s m) -> fs_frame s s' -> in_op s s' ->
  bmapped W bn s (baddr (content s) (addrs s) bn) s' (addrs s).
Proof.
  intros Hs Hne Hf Hc Hfr Ho. split; [|by rewrite (baddr_eqf _ _ _ _ Hc)|by intros|by intros|eapply fop_weaken; [exact Hf|set_solver]| |exact Ho].
  - eapply grow_ext; [exact Hc|]. apply grow_refl; [apply Hs|apply Hs|by apply (ft_lens W)].
  - unfold file_frame. unfold addrs. rewrite alter_addrs_id. exact Hfr.
Qed.

(** No block was free. *)
Lemma bmapped_full W bn s s' : file_st W s -> baddr (content s) (addrs s) bn = 0 ->
  (forall b, 0 <= b < sb_size sb -> used sb (content s) b = true) -> fop i pid W [] s' ->
  (forall m, content s' m = content s m) -> fs_frame s s' -> in_op s s' -> bmapped W bn s 0 s' (addrs s).
Proof.
  intros Hs Hz Hall Hf Hc Hfr Ho. split; [|by rewrite (baddr_eqf _ _ _ _ Hc)|by intros| |eapply fop_weaken; [exact Hf|set_solver]| |exact Ho].
  - eapply grow_ext; [exact Hc|]. apply grow_refl; [apply Hs|apply Hs|by apply (ft_lens W)].
  - intros _ b Hb. rewrite (used_ext _ _ _ _ Hc). auto.
  - unfold file_frame. unfold addrs. rewrite alter_addrs_id. exact Hfr.
Qed.

Lemma bmap_direct W bn s (Q : Z -> kernel -> Prop) :
  file_st W s -> room W 2 0 s -> 0 <= bn < NDIRECT ->
  (forall r s' a', bmapped W bn s r s' a' -> Q r s') -> wp (bmap ip bn) Q s.
Proof.
  intros Hs Hr Hbn HQ. pose proof Hs as [Hf Hip Hdev Hsb Hlg Hg Hfree Hfile]. unfold bmap, inode_at.
  rewrite (proj2 (Z.ltb_lt _ _)) by lia. do 2 wp_step. fold (addrs s).
  assert (baddr (content s) (addrs s) bn = zget (addrs s) bn) as Hb by (unfold baddr; by rewrite (proj2 (Z.ltb_lt _ _)) by lia).
  destruct (Z.eqb_spec (zget (addrs s) bn) 0) as [Hz|Hne]; cbn [negb].
  2: { wp_steps. rewrite <- Hb in *. apply (HQ _ _ (addrs s)). apply bmapped_same; auto using fs_frame_refl, in_op_refl. }
  wp_step. rewrite Hdev. apply (balloc_spec i pid W [] s); rewrite ?Hsb; [exact Hf|exact Hr|by eapply same_geom_fs|by eapply same_free|by intros n Hn%elem_of_nil| |].
  - intros b s1 Hff Hf1 Hc1 Hfr1 Ho1. pose proof (ft_lens W s Hs) as Hlens.
    pose proof (take_block_new sb lg (content s) b Hg Hfree Hff Hlens) as [Hb0 _ _ _].
    rewrite (proj2 (Z.eqb_neq b 0)) by lia. unfold upd_inode. do 3 wp_step.
    destruct (grow_direct sb lg (content s) (addrs s) b Hg Hfree Hff Hlens Hfile bn Hbn Hz) as [Hgr Hba].
    set (s2 := with_k_itable _ s1). assert (forall m, content s2 m = take_block sb (content s) b m) as Hc2 by exact Hc1.
    apply (HQ _ _ (zset (addrs s) bn b)). split.
    + eapply grow_ext; [exact Hc2|exact Hgr].
    + rewrite (baddr_eqf _ _ _ _ Hc2). by rewrite Hba.
    + intros _ _. rewrite Hc2. apply take_new.
    + intros ->. lia.
    + unfold map_blocks. rewrite (baddr_eqf _ _ _ _ Hc2), Hba. eapply fop_weaken; [eapply fop_same; [exact Hf1|reflexivity..]|set_solver].
    + by apply set_addr_frame.
    + by apply in_op_itable.
  - intros s1 Hall Hf1 Hc1 Hfr1 Ho1. cbn [Z.eqb]. wp_steps. apply (HQ _ _ (addrs s)). apply bmapped_full; auto. congruence.
Qed.

Lemma ind_data W s : file_st W s -> zget (addrs s) NDIRECT <> 0 -> data_block sb lg (content s) (zget (addrs s) NDIRECT).
Proof.
  intros Hs Hne. pose proof (fk_data _ _ _ _ (ft_file _ _ Hs) MAXFILE) as Hd. unfold owned in Hd. rewrite Z.eqb_refl in Hd.
  apply Hd; [rewrite maxfile_eq; lia|exact Hne].
Qed.

(** Looking up, or filling in, an entry of the indirect block. *)
Lemma bmap_entry W bn s (Q : Z -> kernel -> Prop) :
  let ind := zget (addrs s) NDIRECT in
  file_st W s -> room W 3 1 s -> NDIRECT <= bn < MAXFILE -> ind <> 0 -> ind ∈ W ->
  (forall r s', bmapped W bn s r s' (addrs s) -> Q r s') ->
  wp (bp <- bread ROOTDEV ind ;;
      d <- data_of bp ;;
      addr <- (let addr := get32 d (4 * (bn - NDIRECT)) in
               if negb (addr =? 0) then ret addr else
               addr <- balloc ROOTDEV ;;
               when (negb (addr =? 0))
                 (upd_data bp (fun d => put32 d (4 * (bn - NDIRECT)) addr) ;;;
                  log_write bp) ;;;
               ret addr) ;;
      brelse bp ;;;
      ret addr) Q s.
Proof.
  intros ind Hs Hr Hbn Hind HW HQ. pose proof Hs as [Hf Hip Hdev Hsb Hlg Hg Hfree Hfile]. pose proof (ft_lens W s Hs) as Hlens.
  pose proof (ind_data W s Hs Hind) as Hdi. fold ind in Hdi. pose proof Hdi as [Di1 Di2 Di3 Di4].
  assert (baddr (content s) (addrs s) bn = get32 (content s ind) (4 * (bn - NDIRECT))) as Hba.
  { unfold baddr. rewrite (proj2 (Z.ltb_ge _ _)) by lia. fold ind. by rewrite (proj2 (Z.eqb_neq _ _) Hind). }
  wp_step. apply (fop_bread i pid W [] s); [exact Hf|eapply room_le; [exact Hr|lia|simpl; lia]|apply not_elem_of_nil|].
  intros bp s1 Hf1 Hc1 Hfr1 Ho1. wp_step. apply (fop_data i pid W [(bp, ind)] s1 bp ind); [exact Hf1|by left|]. rewrite Hc1, <- Hba. wp_step. cbv zeta.
  destruct (Z.eqb_spec (baddr (content s) (addrs s) bn) 0) as [Hz|Hne]; cbn [negb].
  2: { wp_steps. apply (fop_brelse i pid W [] [] s1 bp ind); [exact Hf1|]. intros s2 Hf2 Hc2 Hfr2 Ho2. wp_steps.
    apply HQ. apply bmapped_same; auto; [intros m; by rewrite Hc2|by eapply fs_frame_trans|by eapply in_op_trans]. }
  assert (same_log lg s1) as Hlg1 by (by eapply same_log_op). assert (k_sb s1 = sb) as Hsb1 by (by rewrite (fs_frame_sb _ _ Hfr1)).
  wp_step. apply (balloc_spec i pid W [(bp, ind)] s1); rewrite ?Hsb1;
    [exact Hf1|eapply room_le; [by eapply room_op|lia|simpl; lia]|by eapply same_geom_fs|eapply same_free; [exact Hlg1|by eapply free_ext]| | |].
  - intros n Hn. cbn in Hn. apply list_elem_of_singleton in Hn as ->. rewrite (used_ext _ _ _ _ Hc1). split; [lia|auto].
  - intros b s2 Hff Hf2 Hc2 Hfr2 Ho2.
    assert (first_free sb (content s) b) as Hff0.
    { destruct Hff as (A & B & C). split; [exact A|]. split; [by rewrite <- (used_ext _ _ _ _ Hc1)|].
      intros b' Hb'. rewrite <- (used_ext _ _ _ _ Hc1). auto. }
    assert (forall m, content s2 m = take_block sb (content s) b m) as Hc2'.
    { intros m. rewrite Hc2. unfold take_block, put_block. cbn [fst snd]. by rewrite !Hc1. }
    pose proof (take_block_new sb lg (content s) b Hg Hfree Hff0 Hlens) as [Hb0 _ _ _].
    destruct (grow_entry sb lg (content s) (addrs s) b Hg Hfree Hff0 Hlens Hfile bn Hbn Hind Hz) as (Hgr & Hbb & Hbz). fold ind in Hgr, Hbb, Hbz.
    rewrite (proj2 (Z.eqb_neq b 0)) by lia. cbn [negb when]. wp_step.
    set (W2 := {[b]} ∪ ({[BBLOCK b sb]} ∪ W)) in *. pose proof (in_op_trans _ _ _ Ho1 Ho2) as Ho12.
    apply (fop_update_last i pid W2 [(bp, ind)] s2 bp ind); [exact Hf2| |unfold W2; set_solver|by left|pose proof (fg_size _ _ Hg); lia|apply (same_home lg); [by eapply same_log_op|exact Di3]| |].
    { unfold W2. do 2 apply room_add. eapply room_le; [eapply room_op; [exact Hr|exact Ho12]|lia|lia]. }
    { rewrite put32_length; [by eapply fop_length|rewrite ndirect_eq, maxfile_eq in *; lia|].
      rewrite (fop_length i pid _ _ _ ind Hf2), bsize_eq. rewrite ndirect_eq, maxfile_eq in *. lia. }
    intros s3 Hf3 Hc3 Hfr3 Ho3. wp_steps. apply (fop_brelse i pid W2 [] [] s3 bp ind); [exact Hf3|]. intros s4 Hf4 Hc4 Hfr4 Ho4. wp_steps.
    assert (forall m, content s4 m = put_block (take_block sb (content s) b) (ind, put32 (take_block sb (content s) b ind) (4 * (bn - NDIRECT)) b) m) as Hcf.
    { intros m. rewrite Hc4, Hc3. unfold put_block. cbn [fst snd]. by rewrite !Hc2'. }
    apply HQ. split.
    + eapply grow_ext; [exact Hcf|exact Hgr].
    + rewrite (baddr_eqf _ _ _ _ Hcf). by rewrite Hbb.
    + intros _ _. rewrite Hcf. exact Hbz.
    + intros ->. lia.
    + eapply fop_weaken; [exact Hf4|]. unfold W2, map_blocks. rewrite (baddr_eqf _ _ _ _ Hcf), Hbb. set_solver.
    + unfold file_frame, addrs. rewrite alter_addrs_id. exact (fs_frame_trans _ _ _ Hfr1 (fs_frame_trans _ _ _ Hfr2 (fs_frame_trans _ _ _ Hfr3 Hfr4))).
    + exact (in_op_trans _ _ _ Ho12 (in_op_trans _ _ _ Ho3 Ho4)).
  - intros s2 Hall Hf2 Hc2 Hfr2 Ho2. cbn [Z.eqb negb when]. wp_steps. apply (fop_brelse i pid W [] [] s2 bp ind); [exact Hf2|].
    intros s3 Hf3 Hc3 Hfr3 Ho3. wp_steps. apply HQ. apply bmapped_full; [exact Hs|exact Hz| |exact Hf3|intros m; by rewrite Hc3, Hc2, Hc1| |].
    + intros b Hb. rewrite <- (used_ext _ _ _ _ Hc1). auto.
    + exact (fs_frame_trans _ _ _ Hfr1 (fs_frame_trans _ _ _ Hfr2 Hfr3)).
    + exact (in_op_trans _ _ _ Ho1 (in_op_trans _ _ _ Ho2 Ho3)).
Qed.

(** bmap() of a block that the file has only reads. *)
Lemma bmap_read W bn s (Q : Z -> kernel -> Prop) :
  file_st W s -> room W 0 1 s -> 0 <= bn < MAXFILE -> baddr (content s) (addrs s) bn <> 0 ->
  (forall s', fop i pid W [] s' -> (forall m, content s' m = content s m) -> fs_frame s s' -> in_op s s' ->
     Q (baddr (content s) (addrs s) bn) s') -> wp (bmap ip bn) Q s.
Proof.
  intros Hs Hr Hbn Hne HQ. pose proof Hs as [Hf Hip Hdev Hsb Hlg Hg Hfree Hfile]. unfold bmap, inode_at, baddr in *.
  destruct (Z.ltb_spec bn NDIRECT) as [Hd|Hd].
  { do 2 wp_step. fold (addrs s). rewrite (proj2 (Z.eqb_neq _ _) Hne). cbn [negb]. wp_steps.
    apply HQ; auto using fs_frame_refl, in_op_refl. }
  rewrite (proj2 (Z.ltb_lt (bn - NDIRECT) NINDIRECT)) by (rewrite ?maxfile_eq, ?ndirect_eq, ?nindirect_eq in *; lia).
  do 3 wp_step. fold (addrs s). cbv zeta. rewrite Hdev. destruct (Z.eqb_spec (zget (addrs s) NDIRECT) 0) as [Hz|Hi]; [done|]. cbn [negb].
  wp_step. rewrite (proj2 (Z.eqb_neq _ _) Hi). wp_step.
  apply (fop_bread i pid W [] s); [exact Hf|eapply room_le; [exact Hr|lia|simpl; lia]|apply not_elem_of_nil|].
  intros bp s1 Hf1 Hc1 Hfr1 Ho1. wp_step. apply (fop_data i pid W [(bp, zget (addrs s) NDIRECT)] s1 bp (zget (addrs s) NDIRECT)); [exact Hf1|by left|].
  rewrite Hc1. rewrite (proj2 (Z.eqb_neq _ _) Hne). cbn [negb]. do 3 wp_step. apply (fop_brelse i pid W [] [] s1 bp (zget (addrs s) NDIRECT)); [exact Hf1|].
  intros s2 Hf2 Hc2 Hfr2 Ho2. wp_steps. apply HQ; [exact Hf2|intros m; by rewrite Hc2|by eapply fs_frame_trans|by eapply in_op_trans].
Qed.

Lemma file_st_mapped W bn s r s' a' : file_st W s -> bmapped W bn s r s' a' ->
  addrs s' = a' /\ file_st (map_blocks sb (content s') a' bn ∪ W) s' /\ k_itable s' !!! ip = with_i_addrs a' (k_itable s !!! ip).
Proof.
  intros [Hf Hip Hdev Hsb Hlg Hg Hfree Hfile] [A B C D E F G]. destruct (file_frame_addrs ip a' s s' Hip F) as [E1 E2].
  assert (addrs s' = a') as Ea by (unfold addrs; rewrite E2; reflexivity). split; [exact Ea|]. split; [|exact E2]. split.
  - exact E.
  - rewrite E1, length_alter. exact Hip.
  - rewrite E2. exact Hdev.
  - rewrite (fs_frame_sb _ _ F). exact Hsb.
  - by eapply same_log_op.
  - exact Hg.
  - apply A.
  - rewrite Ea. apply A.
Qed.

Lemma bmap_spec W bn s (Q : Z -> kernel -> Prop) :
  file_st W s -> room W 5 1 s -> 0 <= bn < MAXFILE ->
  (forall r s' a', bmapped W bn s r s' a' -> Q r s') -> wp (bmap ip bn) Q s.
Proof.
  intros Hs Hr Hbn HQ. destruct (Z.lt_ge_cases bn NDIRECT) as [Hd|Hd].
  { apply (bmap_direct W); [exact Hs|eapply room_le; [exact Hr|lia|lia]|lia|exact HQ]. }
  pose proof Hs as [Hf Hip Hdev Hsb Hlg Hg Hfree Hfile]. pose proof (ft_lens W s Hs) as Hlens. unfold bmap, inode_at.
  rewrite (proj2 (Z.ltb_ge bn NDIRECT)), (proj2 (Z.ltb_lt (bn - NDIRECT) NINDIRECT)) by (rewrite ?maxfile_eq, ?ndirect_eq, ?nindirect_eq in *; lia).
  do 3 wp_step. fold (addrs s). cbv zeta. rewrite Hdev. destruct (Z.eqb_spec (zget (addrs s) NDIRECT) 0) as [Hz|Hne]; cbn [negb].
  2: { wp_steps. rewrite (proj2 (Z.eqb_neq _ _) Hne). set (W1 := {[zget (addrs s) NDIRECT]} ∪ W).
    apply (bmap_entry W1); [|unfold W1; apply room_add; eapply room_le; [exact Hr|lia|lia]|lia|exact Hne|unfold W1; set_solver|].
    { split; auto. eapply fop_weaken; [exact Hf|unfold W1; set_solver]. }
    intros r s' [A B C D E F G]. apply (HQ _ _ (addrs s)). split; auto. eapply fop_weaken; [exact E|].
    unfold W1, map_blocks. rewrite (proj2 (Z.ltb_ge bn NDIRECT)) by lia. set_solver. }
  wp_step. apply (balloc_spec i pid W [] s); rewrite ?Hsb; [exact Hf|eapply room_le; [exact Hr|lia|simpl; lia]|by eapply same_geom_fs|by eapply same_free|by intros n Hn%elem_of_nil| |].
  - intros b s1 Hff Hf1 Hc1 Hfr1 Ho1. pose proof (take_block_new sb lg (content s) b Hg Hfree Hff Hlens) as [Hb0 _ _ _].
    rewrite (proj2 (Z.eqb_neq b 0)) by lia. unfold upd_inode. wp_steps. rewrite (proj2 (Z.eqb_neq b 0)) by lia.
    destruct (grow_indirect sb lg (content s) (addrs s) b Hg Hfree Hff Hlens Hfile bn ltac:(lia) Hz) as (Hgr & Hba & Hbb).
    set (s2 := with_k_itable _ s1). assert (forall m, content s2 m = take_block sb (content s) b m) as Hc2 by exact Hc1.
    set (a1 := zset (addrs s) NDIRECT b) in *. set (W1 := {[b]} ∪ ({[BBLOCK b sb]} ∪ W)) in *.
    pose proof (set_addr_frame ip NDIRECT b s s1 Hfr1) as Hfr2. fold (addrs s) in Hfr2. fold a1 in Hfr2. fold s2 in Hfr2.
    pose proof (in_op_itable _ _ _ Ho1 : in_op s s2) as Ho2. destruct (file_frame_addrs ip a1 s s2 Hip Hfr2) as [E1 E2].
    assert (addrs s2 = a1) as Ea by (unfold addrs; rewrite E2; reflexivity).
    assert (file_st W1 s2) as Hs2.
    { split; [eapply fop_same; [exact Hf1|reflexivity..]|rewrite E1, length_alter; exact Hip|rewrite E2; exact Hdev|
        rewrite (fs_frame_sb _ _ Hfr2); exact Hsb|by eapply same_log_op|exact Hg|eapply free_ext; [exact Hc2|apply Hgr]|
        rewrite Ea; eapply file_ext; [exact Hc2|apply Hgr]]. }
    rewrite <- Hba, <- Ea. apply (bmap_entry W1); rewrite ?Ea, ?Hba; [exact Hs2| |lia|lia|unfold W1; set_solver|].
    { unfold W1. do 2 apply room_add. eapply room_le; [by eapply room_op|lia|lia]. }
    intros r s' [A B C D E F G]. rewrite Ea in *. apply (HQ _ _ a1). split.
    + eapply grow_trans; [eapply grow_ext; [exact Hc2|exact Hgr]|exact A].
    + exact B.
    + intros Hz0. apply C. rewrite (baddr_eqf _ _ _ _ Hc2), Hbb. exact Hz0.
    + exact D.
    + eapply fop_weaken; [exact E|]. unfold W1, map_blocks. rewrite (proj2 (Z.ltb_ge bn NDIRECT)), Hba by lia. set_solver.
    + by eapply file_frame_trans.
    + by eapply in_op_trans.
  - intros s1 Hall Hf1 Hc1 Hfr1 Ho1. cbn [Z.eqb]. wp_steps. cbn [Z.eqb]. wp_steps. apply (HQ _ _ (addrs s)). apply bmapped_full; auto.
    unfold baddr. rewrite (proj2 (Z.ltb_ge bn NDIRECT)) by lia. by rewrite Hz.
Qed.
End bmap.
