(* ===== verification/FsInode.v ===== *)
(** * fs.c: inodes on the disk. *)

From S2P Require Import Prelude Exec Params State Mem Vm VmTable VmUser Sched Sleeplock Bio BioSpec Log LogSpec LogCrash LogOp.
From S2P Require Import RingBuf Uart Printf Console Fs FsBlock FsFile.

(** ** Fields of a block *)

Lemma put16_length l off v : 0 <= off -> off + 2 <= Z.of_nat (length l) -> length (put16 l off v) = length l.
Proof. intros. apply splice_length; rewrite ?le_bytes_length; lia. Qed.

Lemma get16_put16_eq l off v : 0 <= off -> off + 2 <= Z.of_nat (length l) -> get16 (put16 l off v) off = u16 v.
Proof.
  intros H1 H2. unfold get16, put16. pose proof (slice_splice_eq l off (le_bytes 2 v)) as Hs.
  rewrite le_bytes_length in Hs. change (Z.of_nat 2) with 2 in Hs. rewrite Hs by lia. by rewrite le_val_bytes.
Qed.

Lemma slice_put16 l off v o n : 0 <= off -> off + 2 <= Z.of_nat (length l) -> 0 <= o -> 0 <= n -> o + n <= off \/ off + 2 <= o ->
  slice (put16 l off v) o n = slice l o n.
Proof. intros. unfold put16. apply slice_splice_ne; rewrite ?le_bytes_length; lia. Qed.

Lemma slice_put32 l off v o n : 0 <= off -> off + 4 <= Z.of_nat (length l) -> 0 <= o -> 0 <= n -> o + n <= off \/ off + 4 <= o ->
  slice (put32 l off v) o n = slice l o n.
Proof. intros. unfold put32. apply slice_splice_ne; rewrite ?le_bytes_length; lia. Qed.

Lemma i16_u16 v : - 2 ^ 15 <= v < 2 ^ 15 -> i16 (u16 v) = v.
Proof. intros. unfold i16, u16. dlia. Qed.

(** ** struct dinode *)

(** Storing the block addresses one by one. *)
Lemma put_addrs (d : list Z) (o : Z) (a : list Z) (m : nat) : 0 <= o -> o + 12 + 4 * Z.of_nat m <= Z.of_nat (length d) ->
  let d' := fold_left (fun d k => put32 d (o + 12 + 4 * k) (zget a k)) (seqZ 0 (Z.of_nat m)) d in
  length d' = length d /\ (forall j, 0 <= j < Z.of_nat m -> get32 d' (o + 12 + 4 * j) = u32 (zget a j)) /\
  forall x n, 0 <= x -> 0 <= n -> x + n <= o + 12 \/ o + 12 + 4 * Z.of_nat m <= x -> slice d' x n = slice d x n.
Proof.
  intros Ho. induction m as [|m IH]; intros Hl; cbv zeta.
  { cbn. split; [reflexivity|]. split; [lia|]. reflexivity. }
  destruct IH as (I1 & I2 & I3); [lia|]. cbv zeta in *. rewrite Nat2Z.inj_succ, <- Z.add_1_r, seqZ_app, fold_left_app by lia.
  set (d1 := fold_left _ _ d) in *. rewrite Z.add_0_l. change (seqZ (Z.of_nat m) 1) with [Z.of_nat m]. cbn [fold_left].
  split; [rewrite put32_length by lia; exact I1|]. split.
  - intros j Hj. destruct (Z.eq_dec j (Z.of_nat m)) as [->|Hne]; [apply get32_put32_eq; lia|].
    rewrite get32_put32_ne by lia. apply I2. lia.
  - intros x n Hx Hn Hd. rewrite slice_put32 by lia. apply I3; lia.
Qed.

(** An inode whose fields fit those of a struct dinode. *)
Record inode_ok (I : inode) : Prop := {
  in_type : - 2 ^ 15 <= i_type I < 2 ^ 15;
  in_major : - 2 ^ 15 <= i_major I < 2 ^ 15;
  in_minor : - 2 ^ 15 <= i_minor I < 2 ^ 15;
  in_nlink : - 2 ^ 15 <= i_nlink I < 2 ^ 15;
  in_size : 0 <= i_size I < 2 ^ 32;
  in_addrs : length (i_addrs I) = Z.to_nat (NDIRECT + 1) /\ Forall (fun x => 0 <= x < 2 ^ 32) (i_addrs I);
}.

Lemma write_dinode_length d o I : 0 <= o -> o + DINODE_SIZE <= Z.of_nat (length d) -> length (write_dinode d o I) = length d.
Proof.
  intros Ho Hl. change DINODE_SIZE with 64 in Hl. unfold write_dinode. change (NDIRECT + 1) with (Z.of_nat 13).
  set (d5 := put32 _ _ (i_size I)). assert (length d5 = length d) as L5.
  { unfold d5. set (d1 := put16 d o _). assert (length d1 = length d) as L1 by (apply put16_length; lia).
    set (d2 := put16 d1 _ _). assert (length d2 = length d) as L2 by (unfold d2; rewrite put16_length; lia).
    set (d3 := put16 d2 _ _). assert (length d3 = length d) as L3 by (unfold d3; rewrite put16_length; lia).
    rewrite put32_length; rewrite ?put16_length; lia. }
  rewrite (proj1 (put_addrs d5 o (i_addrs I) 13 Ho ltac:(lia))). exact L5.
Qed.

(** An inode is written to its own bytes only. *)
Lemma write_dinode_slice d o I x n : 0 <= o -> o + DINODE_SIZE <= Z.of_nat (length d) -> 0 <= x -> 0 <= n ->
  x + n <= o \/ o + DINODE_SIZE <= x -> slice (write_dinode d o I) x n = slice d x n.
Proof.
  intros Ho Hl Hx Hn Hd. change DINODE_SIZE with 64 in *. unfold write_dinode. change (NDIRECT + 1) with (Z.of_nat 13).
  set (d1 := put16 d o _). assert (length d1 = length d) as L1 by (apply put16_length; lia).
  set (d2 := put16 d1 _ _). assert (length d2 = length d) as L2 by (unfold d2; rewrite put16_length; lia).
  set (d3 := put16 d2 _ _). assert (length d3 = length d) as L3 by (unfold d3; rewrite put16_length; lia).
  set (d4 := put16 d3 _ _). assert (length d4 = length d) as L4 by (unfold d4; rewrite put16_length; lia).
  set (d5 := put32 d4 _ _). assert (length d5 = length d) as L5 by (unfold d5; rewrite put32_length; lia).
  destruct (put_addrs d5 o (i_addrs I) 13 Ho ltac:(lia)) as (_ & _ & P). cbv zeta in P. rewrite P by lia.
  unfold d5. rewrite slice_put32 by lia. unfold d4, d3, d2, d1. rewrite !slice_put16 by (fold d1; fold d2; fold d3; lia). reflexivity.
Qed.

Lemma read_dinode_other d o o' I J : 0 <= o -> 0 <= o' -> o + DINODE_SIZE <= Z.of_nat (length d) ->
  o' + DINODE_SIZE <= o \/ o + DINODE_SIZE <= o' -> read_dinode (write_dinode d o I) o' J = read_dinode d o' J.
Proof.
  intros Ho Ho' Hl Hd.
  assert (forall x n, o' <= x -> 0 <= n -> x + n <= o' + 64 -> slice (write_dinode d o I) x n = slice d x n) as S.
  { intros x n Hx Hn Hxn. change DINODE_SIZE with 64 in *. apply write_dinode_slice; change DINODE_SIZE with 64; lia. }
  unfold read_dinode, get32, get16. rewrite !S by lia. f_equal. apply list_fmap_ext. intros j k Hk. apply lookup_seqZ in Hk as [-> Hk].
  change (NDIRECT + 1) with 13 in Hk. f_equal. apply S; lia.
Qed.

(** Reading back an inode that was written. *)
Lemma dinode_roundtrip d o I J : 0 <= o -> o + DINODE_SIZE <= Z.of_nat (length d) -> inode_ok I ->
  read_dinode (write_dinode d o I) o J =
  with_i_addrs (i_addrs I) (with_i_size (i_size I) (with_i_nlink (i_nlink I) (with_i_minor (i_minor I)
    (with_i_major (i_major I) (with_i_type (i_type I) J))))).
Proof.
  intros Ho Hl [K1 K2 K3 K4 K5 [K6 K7]]. change DINODE_SIZE with 64 in Hl. unfold write_dinode. change (NDIRECT + 1) with (Z.of_nat 13).
  set (d1 := put16 d o (i_type I)). set (d2 := put16 d1 (o + 2) (i_major I)). set (d3 := put16 d2 (o + 4) (i_minor I)).
  set (d4 := put16 d3 (o + 6) (i_nlink I)). set (d5 := put32 d4 (o + 8) (i_size I)).
  assert (length d1 = length d) as L1 by (apply put16_length; lia). assert (length d2 = length d) as L2 by (unfold d2; rewrite put16_length; lia).
  assert (length d3 = length d) as L3 by (unfold d3; rewrite put16_length; lia). assert (length d4 = length d) as L4 by (unfold d4; rewrite put16_length; lia).
  assert (length d5 = length d) as L5 by (unfold d5; rewrite put32_length; lia).
  destruct (put_addrs d5 o (i_addrs I) 13 Ho ltac:(lia)) as (P1 & P2 & P3). cbv zeta in P1, P2, P3. set (d6 := fold_left _ _ d5) in *.
  change (Z.of_nat 13) with 13 in *. unfold read_dinode.
  assert (forall x n, 0 <= x -> 0 <= n -> x + n <= o + 8 -> slice d6 x n = slice d4 x n) as S5.
  { intros x n Hx Hn Hxn. rewrite P3 by lia. apply slice_put32; lia. }
  assert (forall x n, 0 <= x -> 0 <= n -> x + n <= o + 6 -> slice d4 x n = slice d3 x n) as S4 by (intros; apply slice_put16; lia).
  assert (forall x n, 0 <= x -> 0 <= n -> x + n <= o + 4 -> slice d3 x n = slice d2 x n) as S3 by (intros; apply slice_put16; lia).
  assert (forall x n, 0 <= x -> 0 <= n -> x + n <= o + 2 -> slice d2 x n = slice d1 x n) as S2 by (intros; apply slice_put16; lia).
  assert (get16 d6 o = u16 (i_type I)) as E1.
  { unfold get16. rewrite S5, S4, S3, S2 by lia. apply get16_put16_eq; lia. }
  assert (get16 d6 (o + 2) = u16 (i_major I)) as E2.
  { unfold get16. rewrite S5, S4, S3 by lia. apply get16_put16_eq; lia. }
  assert (get16 d6 (o + 4) = u16 (i_minor I)) as E3.
  { unfold get16. rewrite S5, S4 by lia. apply get16_put16_eq; lia. }
  assert (get16 d6 (o + 6) = u16 (i_nlink I)) as E4.
  { unfold get16. rewrite S5 by lia. apply get16_put16_eq; lia. }
  assert (get32 d6 (o + 8) = u32 (i_size I)) as E5.
  { unfold get32. rewrite P3 by lia. apply get32_put32_eq; lia. }
  rewrite E1, E2, E3, E4, E5, !i16_u16, u32_id by assumption. f_equal.
  apply list_eq_same_length with 13%nat; [exact K6|reflexivity|]. intros j x y Hj Hx Hy.
  apply list_lookup_fmap_Some in Hx as (k & -> & Hk). apply lookup_seqZ in Hk as [-> Hk].
  rewrite P2 by lia. unfold zget. rewrite Z.add_0_l, Nat2Z.id. rewrite (list_lookup_total_correct _ _ _ Hy).
  apply u32_id. rewrite Forall_forall in K7. apply K7. by eapply list_elem_of_lookup_2.
Qed.

(** ** A block that is not the file's *)

Section other.
Variables (sb : superblock) (lg : log) (c : Z -> list Z) (a : list Z) (m : Z) (d : list Z).
Hypothesis file : file_ok sb lg c a.
Hypothesis block : data_block sb lg c m.
Hypothesis not_owned : forall k, 0 <= k <= MAXFILE -> owned c a k <> m.

Let c' := put_block c (m, d).

Lemma other_same x : x <> m -> c' x = c x.
Proof. intros Hx. unfold c', put_block. cbn [fst snd]. by rewrite decide_False. Qed.

Lemma other_used b : 0 <= b < sb_size sb -> used sb c' b = used sb c b.
Proof. intros Hb. unfold used. rewrite other_same; [reflexivity|]. intros E. by apply (db_bmap _ _ _ _ block b Hb). Qed.

Lemma other_data x : data_block sb lg c x -> data_block sb lg c' x.
Proof. intros [A B C D]. split; [exact A|rewrite other_used by lia; exact B|exact C|exact D]. Qed.

Lemma other_baddr k : baddr c' a k = baddr c a k.
Proof.
  apply baddr_ext. intros Hi. apply other_same. intros E. apply (not_owned MAXFILE); [rewrite maxfile_eq; lia|].
  unfold owned. rewrite Z.eqb_refl. exact E.
Qed.

Lemma other_owned k : owned c' a k = owned c a k.
Proof. unfold owned. by rewrite other_baddr. Qed.

Lemma other_file : file_ok sb lg c' a.
Proof.
  destruct file as [A B C]. split; [exact A| |].
  - intros k Hk. rewrite other_owned. intros Hne. apply other_data. by apply B.
  - intros j k. rewrite !other_owned. apply C.
Qed.

Lemma other_free : free_ok sb lg c -> free_ok sb lg c'.
Proof. intros Hf b Hb Hu. rewrite other_used in Hu by exact Hb. by apply Hf. Qed.
End other.

(** ** iupdate *)

Section inode.
Context `{DiskOk} `{Waits}.
Variables (i : nat) (pid : Z).

Lemma dinode_off_range inum : 0 <= dinode_off inum /\ dinode_off inum + DINODE_SIZE <= BSIZE.
Proof.
  unfold dinode_off. change IPB with 16. change DINODE_SIZE with 64. rewrite bsize_eq. pose proof (Z.mod_pos_bound inum 16 ltac:(lia)). lia.
Qed.

Lemma iupdate_spec W s ip (Q : unit -> kernel -> Prop) :
  let I := k_itable s !!! ip in let n := IBLOCK (i_inum I) (k_sb s) in
  fop i pid W [] s -> room W 0 1 s -> i_dev I = ROOTDEV -> n ∈ W -> 0 <= n < 2 ^ 31 -> home (k_log s) n ->
  (forall s', fop i pid W [] s' ->
     (forall m, content s' m = put_block (content s) (n, write_dinode (content s n) (dinode_off (i_inum I)) I) m) ->
     fs_frame s s' -> in_op s s' -> Q tt s') ->
  wp (iupdate ip) Q s.
Proof.
  intros I n Hf Hr Hdev HW Hn Hh HQ. unfold iupdate, get_sb, inode_at. do 4 wp_step. fold I. rewrite Hdev. fold n. wp_step.
  apply (fop_bread i pid W [] s); [exact Hf|eapply room_le; [exact Hr|lia|simpl; lia]|apply not_elem_of_nil|].
  intros bp s1 Hf1 Hc1 Hfr1 Ho1. destruct (dinode_off_range (i_inum I)) as [D1 D2].
  apply (fop_update i pid W [(bp, n)] s1 bp n); [exact Hf1|eapply room_op; [eapply room_le; [exact Hr|lia|lia]|exact Ho1]|exact HW|by left|exact Hn| | |].
  { by apply (home_op s). }
  { rewrite write_dinode_length; [by eapply fop_length|exact D1|]. rewrite (fop_length i pid _ _ _ n Hf1). rewrite bsize_eq in *. lia. }
  intros s2 Hf2 Hc2 Hfr2 Ho2. apply (fop_brelse i pid W [] [] s2 bp n); [exact Hf2|]. intros s3 Hf3 Hc3 Hfr3 Ho3.
  apply HQ; [exact Hf3| |exact (fs_frame_trans _ _ _ Hfr1 (fs_frame_trans _ _ _ Hfr2 Hfr3))|exact (in_op_trans _ _ _ Ho1 (in_op_trans _ _ _ Ho2 Ho3))].
  intros m. rewrite Hc3, Hc2. unfold put_block. cbn [fst snd]. by rewrite !Hc1.
Qed.
End inode.
