(* ===== verification/FsData.v ===== *)
(** * fs.c, third part of the proofs: readi(). *)

From S2P Require Import Prelude Exec Params State Mem Vm VmTable VmUser Sched Sleeplock Bio BioSpec Log LogSpec LogCrash LogOp.
From S2P Require Import RingBuf Uart Printf Console Fs FsBlock FsFile.

(** Byte [o] of the file with block addresses [a], and the bytes from [off] on. *)
Definition file_byte (c : Z -> list Z) (a : list Z) (o : Z) : Z := zget (c (baddr c a (o / BSIZE))) (o mod BSIZE).
Definition file_bytes (c : Z -> list Z) (a : list Z) (off n : Z) : list Z := (fun k => file_byte c a (off + k)) <$> seqZ 0 n.

Lemma file_bytes_length c a off n : 0 <= n -> Z.of_nat (length (file_bytes c a off n)) = n.
Proof. intros Hn. unfold file_bytes. rewrite length_fmap, length_seqZ. lia. Qed.

Lemma file_bytes_app c a off n m : 0 <= n -> 0 <= m -> file_bytes c a off (n + m) = file_bytes c a off n ++ file_bytes c a (off + n) m.
Proof.
  intros Hn Hm. unfold file_bytes. rewrite seqZ_app by lia. rewrite fmap_app. f_equal. rewrite Z.add_0_l.
  rewrite <- (Z.add_0_r n) at 1. rewrite <- fmap_add_seqZ, <- list_fmap_compose. apply list_fmap_ext. intros j k _. simpl. f_equal. lia.
Qed.

(** The part of the file in one block. *)
Lemma file_bytes_chunk c a off m : 0 <= off -> 0 <= m -> off mod BSIZE + m <= BSIZE -> length (c (baddr c a (off / BSIZE))) = Z.to_nat BSIZE ->
  slice (c (baddr c a (off / BSIZE))) (off mod BSIZE) m = file_bytes c a off m.
Proof.
  intros Ho Hm Hfit Hl. rewrite bsize_eq in *. pose proof (Z.mod_pos_bound off 1024 ltac:(lia)).
  apply list_eq_same_length with (Z.to_nat m).
  - pose proof (file_bytes_length c a off m Hm). lia.
  - rewrite slice_length by lia. reflexivity.
  - intros j x y Hj Hx Hy. unfold file_bytes in Hy. apply list_lookup_fmap_Some in Hy as (k & -> & Hk). apply lookup_seqZ in Hk as [-> Hk].
    unfold slice in Hx. rewrite lookup_take_lt, lookup_drop in Hx by lia. unfold file_byte. rewrite bsize_eq.
    replace ((off + (0 + Z.of_nat j)) / 1024) with (off / 1024) by dlia.
    replace ((off + (0 + Z.of_nat j)) mod 1024) with (off mod 1024 + Z.of_nat j) by dlia.
    unfold zget. apply list_lookup_total_correct in Hx. rewrite <- Hx. f_equal. lia.
Qed.

(** ** Copies out of the kernel *)

Section out.
Context `{LinkerOk}.
Variables (t : gmap (list Z) Z) (ud : bool).

(** The bytes [bs] were stored at [dst], a user or a kernel address. *)
Definition stored (s : kernel) (dst : Z) (bs : list Z) (m' : gmap Z Z) : Prop :=
  if ud then copied s t dst bs (with_k_mem m' s) else m' = store_bytes (k_mem s) dst bs.

(** The destination is a user address of process [i], or a kernel address. *)
Definition dst_ok (i : nat) (s : kernel) : Prop :=
  ud = true -> pt_inv (k_mem s) t (p_pagetable (k_procs s !!! i)) /\ user_ok (k_mem s) t.

Lemma stored_nil s dst : stored s dst [] (k_mem s).
Proof. unfold stored. destruct ud; [apply copied_nil|reflexivity]. Qed.

Lemma copyout_more s s1 i dst bs chunk :
  k_cur s1 = Some i -> p_pagetable (k_procs s1 !!! i) = p_pagetable (k_procs s !!! i) -> dst_ok i s ->
  stored s dst bs (k_mem s1) -> 0 <= dst -> dst + Z.of_nat (length bs + length chunk) < 2 ^ 64 ->
  wp (either_copyout ud (dst + Z.of_nat (length bs)) chunk) (fun r s' => exists m', s' = with_k_mem m' s1 /\
    (r = 0 /\ stored s dst (bs ++ chunk) m' \/
     r = -1 /\ ud = true /\ exists j, (length bs <= j < length bs + length chunk)%nat /\ uaddr (k_mem s) t (dst + Z.of_nat j) = None)) s1.
Proof.
  intros Hcur Hroot Hok Hst Hd Hl. unfold either_copyout, proc_at. wp_step. apply (wp_curproc i); [exact Hcur|]. do 2 wp_step. rewrite Hroot.
  unfold stored, dst_ok in *. destruct ud.
  - destruct (Hok eq_refl) as [Hpt Hu]. pose proof (cp_same _ _ _ _ _ Hst) as Hs. change (k_mem (with_k_mem ?m s)) with m in Hs.
    eapply wp_mono.
    { apply (copyout_spec s1 t); [eapply pt_inv_frame; [exact Hpt|exact Hs]|eapply user_ok_frame; [exact Hs|exact Hu]|lia]. }
    intros r s' (k & Hk & Hcp & Hres). exists (k_mem s'). split; [apply Hcp|].
    destruct Hres as [[-> ->]|(-> & Hlt & Hn)]; [left|right].
    + split; [reflexivity|]. apply (copied_app s t dst bs chunk (k_mem s1)); [exact Hu|exact Hst|].
      rewrite take_ge in Hcp by lia. destruct Hcp as [A B C D]. split; [exact A|exact B|exact C|reflexivity].
    + split; [reflexivity|]. split; [reflexivity|]. exists (length bs + k)%nat. split; [lia|].
      rewrite (uaddr_frame _ _ _ _ Hs) in Hn. rewrite <- Hn. f_equal. lia.
  - wp_steps. eexists. split; [reflexivity|]. left. split; [reflexivity|]. rewrite Hst. symmetry. apply store_bytes_app.
Qed.
End out.

(** ** readi *)

Section file.
Context `{LinkerOk} `{DiskOk} `{Waits}.
Variables (i : nat) (pid : Z) (ip : nat) (lg : log) (sb : superblock).

Notation file_st := (file_st i pid ip lg sb).
Notation addrs := (addrs ip).
Definition isize (s : kernel) : Z := i_size (k_itable s !!! ip).

(** The file has all the blocks up to its size. *)
Definition no_holes (s : kernel) : Prop :=
  0 <= isize s <= MAXFILE * BSIZE /\
  forall bn, 0 <= bn -> bn * BSIZE < isize s -> baddr (content s) (addrs s) bn <> 0.

Lemma file_st_frame W m s s1 : file_st W s -> fop i pid W [] s1 -> (forall m, content s1 m = content s m) ->
  fs_frame (with_k_mem m s) s1 -> in_op s s1 ->
  file_st W s1 /\ k_itable s1 = k_itable s /\ k_mem s1 = m /\ k_cur s1 = Some i /\
  p_pagetable (k_procs s1 !!! i) = p_pagetable (k_procs s !!! i).
Proof.
  intros [Hf Hip Hdev Hsb Hlg Hg Hfree Hfile] Hf1 Hc Hfr Ho. pose proof (fs_frame_eq _ _ Hfr) as E.
  assert (k_itable s1 = k_itable s) as Ei by (rewrite E; reflexivity).
  assert (k_cur s = Some i /\ (i < length (k_procs s))%nat) as [Hcur Hlen].
  { destruct Hf as [(pins & Ht & _) _]. destruct (ca_run _ _ _ _ _ (tx_cache _ _ _ _ _ Ht)) as [A _ B _]. auto. }
  split; [split; unfold FsFile.addrs in *; rewrite ?Ei; auto|].
  - rewrite E. exact Hsb.
  - by eapply same_log_op.
  - by eapply free_ext.
  - by eapply file_ext.
  - split; [exact Ei|]. split; [rewrite E; reflexivity|]. split; [rewrite E; exact Hcur|].
    f_equal. exact (fs_frame_proc _ _ i Hfr Hcur Hlen).
Qed.

(** One block of readi()'s loop. *)
Lemma read_block W s s1 m1 t ud dst off n tot :
  file_st W s -> room W 0 1 s -> no_holes s -> dst_ok t ud i s -> 0 <= off -> 0 <= tot < n -> off + n <= isize s ->
  0 <= dst -> dst + n < 2 ^ 64 ->
  fop i pid W [] s1 -> (forall m, content s1 m = content s m) -> fs_frame (with_k_mem m1 s) s1 -> in_op s s1 ->
  stored t ud s dst (file_bytes (content s) (addrs s) off tot) m1 ->
  let m := Z.min (n - tot) (BSIZE - (off + tot) mod BSIZE) in
  wp (addr <- bmap ip ((off + tot) / BSIZE) ;;
      if addr =? 0 then ret (inr (i32 tot)) else
      bp <- bread ROOTDEV addr ;;
      d <- data_of bp ;;
      r <- either_copyout ud (dst + tot) (slice d ((off + tot) mod BSIZE) m) ;;
      brelse bp ;;;
      if r =? -1 then ret (inr (-1)) else
      ret (inl (tot + m, off + tot + m, u64 (dst + tot + m))))
    (fun r s2 => exists m2, fop i pid W [] s2 /\ (forall m, content s2 m = content s m) /\ fs_frame (with_k_mem m2 s) s2 /\ in_op s s2 /\
      (r = inl (tot + m, off + (tot + m), dst + (tot + m)) /\ stored t ud s dst (file_bytes (content s) (addrs s) off (tot + m)) m2 \/
       r = inr (-1) /\ ud = true /\ exists j, (Z.of_nat j < n) /\ uaddr (k_mem s) t (dst + Z.of_nat j) = None)) s1.
Proof.
  intros Hs Hr [Hsz Hnh] Hdst Hoff Htot Hn Hd0 Hd Hf1 Hc1 Hfr1 Ho1 Hst m.
  destruct (file_st_frame W m1 s s1 Hs Hf1 Hc1 Hfr1 Ho1) as (Hs1 & Eit & Em & Ecur & Ept).
  assert (addrs s1 = addrs s) as Ea by (unfold FsFile.addrs; by rewrite Eit).
  set (bn := (off + tot) / BSIZE). assert (0 <= bn < MAXFILE /\ bn * BSIZE < isize s) as [Hbn Hbs].
  { unfold bn. rewrite bsize_eq, maxfile_eq in *. dlia. }
  assert (baddr (content s1) (addrs s1) bn = baddr (content s) (addrs s) bn) as Eb by (rewrite Ea; by apply baddr_eqf).
  assert (0 < m /\ (off + tot) mod BSIZE + m <= BSIZE /\ tot + m <= n) as (Hm & Hfit & Hmn).
  { unfold m. rewrite bsize_eq. pose proof (Z.mod_pos_bound (off + tot) 1024). lia. }
  wp_step. apply (bmap_read i pid ip lg sb W bn s1); [exact Hs1|by eapply room_op|exact Hbn|rewrite Eb; apply Hnh; lia|].
  rewrite Eb. intros s2 Hf2 Hc2 Hfr2 Ho2. rewrite (proj2 (Z.eqb_neq _ _)) by (apply Hnh; lia). wp_step.
  pose proof (in_op_trans _ _ _ Ho1 Ho2) as Ho02.
  apply (fop_bread i pid W [] s2); [exact Hf2|eapply room_op; [eapply room_le; [exact Hr|lia|simpl; lia]|exact Ho02]|apply not_elem_of_nil|].
  intros bp s3 Hf3 Hc3 Hfr3 Ho3. wp_step. apply (fop_data i pid W [(bp, baddr (content s) (addrs s) bn)] s3 bp (baddr (content s) (addrs s) bn)); [exact Hf3|by left|].
  assert (forall m, content s3 m = content s m) as Hc03 by (intros x; by rewrite Hc3, Hc2, Hc1).
  pose proof (fs_frame_trans _ _ _ Hfr1 (fs_frame_trans _ _ _ Hfr2 Hfr3)) as Hfr03. pose proof (in_op_trans _ _ _ Ho02 Ho3) as Ho03.
  rewrite Hc03. unfold bn. rewrite file_bytes_chunk; [|lia|lia|exact Hfit|by eapply (ft_lens i pid ip lg sb W)]. wp_step.
  assert (k_mem s3 = m1 /\ k_cur s3 = Some i /\ p_pagetable (k_procs s3 !!! i) = p_pagetable (k_procs s !!! i)) as (Em3 & Ecur3 & Ept3).
  { assert (k_cur s = Some i /\ (i < length (k_procs s))%nat) as [Hcur Hlen].
    { destruct (ft_op _ _ _ _ _ _ _ Hs) as [(pins & Ht & _) _]. destruct (ca_run _ _ _ _ _ (tx_cache _ _ _ _ _ Ht)) as [A _ B _]. auto. }
    pose proof (fs_frame_eq _ _ Hfr03) as E. split; [rewrite E; reflexivity|]. split; [rewrite E; exact Hcur|].
    f_equal. exact (fs_frame_proc _ _ i Hfr03 Hcur Hlen). }
  pose proof (file_bytes_length (content s) (addrs s) off tot ltac:(lia)) as Hlt.
  pose proof (file_bytes_length (content s) (addrs s) (off + tot) m ltac:(lia)) as Hlm.
  pose proof (copyout_more t ud s s3 i dst (file_bytes (content s) (addrs s) off tot) (file_bytes (content s) (addrs s) (off + tot) m)
    Ecur3 Ept3 Hdst ltac:(by rewrite Em3) Hd0 ltac:(lia)) as Hco. rewrite Hlt in Hco.
  eapply wp_mono; [exact Hco|]. clear Hco. intros r s4 (m4 & -> & Hres). wp_step.
  assert (fop i pid W [(bp, baddr (content s) (addrs s) ((off + tot) / BSIZE))] (with_k_mem m4 s3)) as Hf4 by (eapply fop_same; [exact Hf3|reflexivity..]).
  apply (fop_brelse i pid W [] [] (with_k_mem m4 s3) bp (baddr (content s) (addrs s) ((off + tot) / BSIZE))); [exact Hf4|].
  intros s5 Hf5 Hc5 Hfr5 Ho5.
  assert (fs_frame (with_k_mem m4 s) s5) as Hfr05.
  { eapply fs_frame_trans; [|exact Hfr5]. destruct Hfr03 as [A B C]. split; [rewrite A; reflexivity|exact B|exact C]. }
  assert (in_op s s5) as Ho05 by (eapply in_op_trans; [exact Ho03|destruct Ho5 as [A B C D E]; by split]).
  assert (forall x, content s5 x = content s x) as Hc05 by (intros x; rewrite Hc5; exact (Hc03 x)).
  destruct Hres as [[-> Hst']|(-> & Hud & j & Hj & Hnone)].
  - change (0 =? -1) with false. wp_steps. exists m4. split_and!; auto. left. rewrite u64_id by lia.
    split; [f_equal; f_equal; [f_equal|]; lia|]. rewrite file_bytes_app by lia. exact Hst'.
  - change (-1 =? -1) with true. wp_steps. exists m4. split_and!; auto. right. split; [reflexivity|]. split; [exact Hud|].
    exists j. split; [lia|exact Hnone].
Qed.

(** How much a read of [n] bytes at [off] gets. *)
Definition read_len (s : kernel) (off n : Z) : Z := if isize s <? off then 0 else Z.min n (isize s - off).

Lemma readi_spec W s t ud dst off n (Q : Z -> kernel -> Prop) :
  file_st W s -> room W 0 1 s -> no_holes s -> dst_ok t ud i s ->
  0 <= off -> 0 <= n < 2 ^ 31 -> off + n < 2 ^ 32 -> 0 <= dst -> dst + n < 2 ^ 64 ->
  (forall r s' m', fop i pid W [] s' -> (forall m, content s' m = content s m) -> fs_frame (with_k_mem m' s) s' -> in_op s s' ->
     r = read_len s off n /\ stored t ud s dst (file_bytes (content s) (addrs s) off (read_len s off n)) m' \/
     r = -1 /\ ud = true /\ (exists j, Z.of_nat j < read_len s off n /\ uaddr (k_mem s) t (dst + Z.of_nat j) = None) -> Q r s') ->
  wp (readi ip ud dst off n) Q s.
Proof.
  intros Hs Hr Hnh Hdst Hoff Hn Hon Hd0 Hd HQ. pose proof Hnh as [Hsz _]. pose proof (ft_op _ _ _ _ _ _ _ Hs) as Hf.
  unfold readi, inode_at. do 2 wp_step. fold (isize s). rewrite u32_id by lia. rewrite (proj2 (Z.ltb_ge (off + n) off)) by lia. rewrite orb_false_r.
  unfold read_len in HQ. destruct (Z.ltb_spec (isize s) off) as [Hlt|Hge].
  { wp_steps. apply (HQ 0 s (k_mem s)); auto using in_op_refl; [apply wakes_refl|]. left. split; [reflexivity|apply stored_nil]. }
  set (n' := Z.min n (isize s - off)) in *.
  replace (if isize s <? off + n then isize s - off else n) with n' by (unfold n'; destruct (Z.ltb_spec (isize s) (off + n)); lia).
  rewrite (ft_dev _ _ _ _ _ _ _ Hs).
  eapply wp_loop with (n := Z.to_nat n') (I := fun k '(tot, o, d) s1 => exists m1, k = Z.to_nat (n' - tot) /\ 0 <= tot <= n' /\
    o = off + tot /\ d = dst + tot /\ fop i pid W [] s1 /\ (forall m, content s1 m = content s m) /\ fs_frame (with_k_mem m1 s) s1 /\
    in_op s s1 /\ stored t ud s dst (file_bytes (content s) (addrs s) off tot) m1).
  - intros k [[tot o] d] s1 (m1 & -> & Htot & -> & -> & Hf1 & Hc1 & Hfr1 & Ho1 & Hst). destruct (Z.ltb_spec tot n') as [Hlt|Hgt].
    + eapply wp_mono; [apply (read_block W s s1 m1 t ud dst off n' tot); auto; lia|].
      cbn beta zeta. set (m := Z.min _ _). assert (0 < m) as Hm by (unfold m; rewrite bsize_eq; pose proof (Z.mod_pos_bound (off + tot) 1024); lia).
      intros r s2 (m2 & Hf2 & Hc2 & Hfr2 & Ho2 & [[-> Hst2]|(-> & Hud & j & Hj & Hnone)]).
      * exists (Z.to_nat (n' - (tot + m))). split; [lia|]. exists m2. split; [reflexivity|]. split; [unfold m; lia|]. auto 10.
      * apply (HQ _ _ m2); auto. right. eauto.
    + wp_steps. replace tot with n' in * by lia. rewrite i32_id by lia. apply (HQ _ _ m1); auto.
  - exists (k_mem s). rewrite Z.sub_0_r, !Z.add_0_r. split_and!; try reflexivity; try lia; auto using in_op_refl; [apply wakes_refl|apply stored_nil].
  - lia.
Qed.
End file.
