(* ===== verification/FsWrite.v ===== *)
(** * fs.c, fourth part of the proofs: writei(), and reading back. *)

From S2P Require Import Prelude Exec Params State Mem Vm VmTable VmUser Sched Sleeplock Bio BioSpec Log LogSpec LogCrash LogOp.
From S2P Require Import RingBuf Uart Printf Console Fs FsBlock FsFile FsInode FsData.

(** ** Changing the data of one block of the file *)

Section data.
Variables (sb : superblock) (lg : log) (c : Z -> list Z) (a : list Z) (bn : Z) (d : list Z).
Hypothesis file : file_ok sb lg c a.
Hypothesis range : 0 <= bn < MAXFILE.
Hypothesis mapped : baddr c a bn <> 0.

Let n := baddr c a bn.
Let c' := put_block c (n, d).

Lemma data_owned : owned c a bn = n.
Proof. unfold owned. rewrite (proj2 (Z.eqb_neq bn MAXFILE)) by lia. reflexivity. Qed.

Lemma data_n : data_block sb lg c n.
Proof. rewrite <- data_owned. apply (fk_data _ _ _ _ file); [lia|by rewrite data_owned]. Qed.

Lemma data_other m : m <> n -> c' m = c m.
Proof. intros Hm. unfold c', put_block. cbn [fst snd]. by rewrite decide_False. Qed.

Lemma data_same : c' n = d.
Proof. unfold c', put_block. cbn [fst snd]. by rewrite decide_True. Qed.

Lemma data_used b : 0 <= b < sb_size sb -> used sb c' b = used sb c b.
Proof. intros Hb. unfold used. rewrite data_other; [reflexivity|]. intros E. by apply (db_bmap _ _ _ _ data_n b Hb). Qed.

Lemma data_baddr k : baddr c' a k = baddr c a k.
Proof.
  apply baddr_ext. intros Hi. apply data_other. intros E.
  assert (bn = MAXFILE) as Hx; [|lia]. apply (fk_inj _ _ _ _ file); [lia|rewrite maxfile_eq; lia|by rewrite data_owned|].
  rewrite data_owned. unfold owned. rewrite Z.eqb_refl. symmetry. exact E.
Qed.

Lemma data_block_same m : data_block sb lg c m <-> data_block sb lg c' m.
Proof. split; intros [A B C D]; (split; [exact A|rewrite ?data_used in * by lia; exact B|exact C|exact D]). Qed.

Lemma data_file : file_ok sb lg c' a.
Proof.
  assert (forall k, owned c' a k = owned c a k) as Ho by (intros k; unfold owned; by rewrite data_baddr).
  destruct file as [A B C]. split; [exact A| |].
  - intros k Hk. rewrite Ho. intros Hne. apply data_block_same. by apply B.
  - intros j k. rewrite !Ho. apply C.
Qed.

Lemma data_free : free_ok sb lg c -> free_ok sb lg c'.
Proof. intros Hf b Hb Hu. rewrite data_used in Hu by exact Hb. by apply Hf. Qed.

(** The other bytes of the file keep their values. *)
Lemma data_byte o : 0 <= o -> o / BSIZE < MAXFILE -> baddr c a (o / BSIZE) <> 0 ->
  file_byte c' a o = if decide (o / BSIZE = bn) then zget d (o mod BSIZE) else file_byte c a o.
Proof.
  intros Ho Hm Hne. unfold file_byte. rewrite data_baddr. case_decide as E.
  - rewrite E. fold n. by rewrite data_same.
  - rewrite data_other; [reflexivity|]. intros E2. apply E. assert (0 <= o / BSIZE) by (apply Z.div_pos; [lia|rewrite bsize_eq; lia]).
    apply (fk_inj _ _ _ _ file); [lia|lia| |rewrite data_owned; unfold owned; rewrite (proj2 (Z.eqb_neq (o / BSIZE) MAXFILE)) by lia; exact E2].
    unfold owned. by rewrite (proj2 (Z.eqb_neq (o / BSIZE) MAXFILE)) by lia.
Qed.
End data.

(** ** Copies into the kernel *)

Section src.
Context `{LinkerOk}.

(** The bytes [bs] are at [src], a user address of process [i] or a kernel address. *)
Definition source (t : gmap (list Z) Z) (us : bool) (i : nat) (s : kernel) (src : Z) (bs : list Z) : Prop :=
  if us then pt_inv (k_mem s) t (p_pagetable (k_procs s !!! i)) /\ ureads s t src bs
  else bs = load_bytes (k_mem s) src (length bs).

Lemma load_bytes_part m p bs k n : bs = load_bytes m p (length bs) -> (k + n <= length bs)%nat ->
  load_bytes m (p + Z.of_nat k) n = take n (drop k bs).
Proof.
  intros E Hl. apply list_eq_same_length with n; [rewrite length_take, length_drop; lia|by rewrite load_bytes_length|].
  intros j x y Hj Hx Hy. rewrite lookup_take_lt, lookup_drop in Hy by lia.
  apply list_lookup_total_correct in Hx, Hy. rewrite load_bytes_total in Hx by lia. subst x.
  rewrite <- Hy. rewrite E, load_bytes_total by lia. f_equal. lia.
Qed.

Lemma copyin_part t us i s s1 src bs k n :
  k_cur s1 = Some i -> p_pagetable (k_procs s1 !!! i) = p_pagetable (k_procs s !!! i) -> k_mem s1 = k_mem s ->
  source t us i s src bs -> (k + n <= length bs)%nat -> (0 < n)%nat -> 0 <= src -> src + Z.of_nat (length bs) < 2 ^ 64 ->
  wp (either_copyin us (src + Z.of_nat k) (Z.of_nat n)) (fun r s' => s' = s1 /\ r = (0, take n (drop k bs))) s1.
Proof.
  intros Hcur Hroot Hmem Hsrc Hl Hn0 Hs0 Hs. unfold either_copyin, proc_at. wp_step. apply (wp_curproc i); [exact Hcur|]. do 2 wp_step. rewrite Hroot.
  unfold source in Hsrc. destruct us.
  - destruct Hsrc as [Hpt Hu]. eapply wp_mono; [apply (copyin_spec s1 t); [by rewrite Hmem|lia|lia]|].
    intros [r b] s' (-> & Hr & Hres). cbn [fst snd] in *. split; [reflexivity|]. rewrite Hmem in Hres.
    destruct Hres as [[-> Hlb]|(_ & Hlt & Hnone)].
    + f_equal. apply list_eq_same_length with n; [rewrite length_take, length_drop; lia|lia|].
      intros j x y Hj Hx Hy. rewrite lookup_take_lt, lookup_drop in Hy by lia. apply list_lookup_total_correct in Hx, Hy. subst x y.
      destruct (Hr j ltac:(lia)) as (pa & Hpa & ->). destruct (Hu (k + j)%nat ltac:(lia)) as (pa' & Hpa' & ->). rewrite Hmem in *.
      replace (src + Z.of_nat k + Z.of_nat j) with (src + Z.of_nat (k + j)) in Hpa by lia. congruence.
    + exfalso. destruct (Hu (k + length b)%nat ltac:(lia)) as (pa' & Hpa' & _).
      replace (src + Z.of_nat k + Z.of_nat (length b)) with (src + Z.of_nat (k + length b)) in Hnone by lia. congruence.
  - wp_steps. split; [reflexivity|]. f_equal. rewrite Nat2Z.id. change (k_mem s1) with (k_mem s1). rewrite Hmem. by apply load_bytes_part.
Qed.
End src.

Lemma zget_splice (l new : list Z) o j : 0 <= o -> o + Z.of_nat (length new) <= Z.of_nat (length l) -> 0 <= j ->
  zget (splice l o new) j = if decide (o <= j < o + Z.of_nat (length new)) then new !!! Z.to_nat (j - o) else zget l j.
Proof.
  intros Ho Hl Hj. unfold zget, splice. case_decide as D.
  - rewrite lookup_total_app_r by (rewrite length_take; lia). rewrite length_take.
    rewrite lookup_total_app_l by lia. f_equal. lia.
  - destruct (decide (j < o)).
    + rewrite lookup_total_app_l by (rewrite length_take; lia). apply lookup_total_take_lt. lia.
    + rewrite lookup_total_app_r by (rewrite length_take; lia). rewrite length_take.
      rewrite lookup_total_app_r by lia. rewrite lookup_total_drop. f_equal. lia.
Qed.

(** ** The loop of writei() *)

Section write.
Context `{LinkerOk} `{DiskOk} `{Waits}.
Variables (i : nat) (pid : Z) (ip : nat) (lg : log) (sb : superblock) (W : gset Z) (s : kernel).
Variables (off : Z) (bs : list Z).

Notation file_st := (file_st i pid ip lg sb).
Notation addrs := (addrs ip).
Notation isize := (isize ip).

Hypothesis one_bitmap : sb_size sb <= BPB.
Let bm : Z := BBLOCK 0 sb.

(** The indirect block, if there is one. *)
Definition ind_set (a : list Z) : gset Z := if zget a NDIRECT =? 0 then ∅ else {[zget a NDIRECT]}.

(** [tot] bytes have been written, with at most [nb] data blocks logged. *)
Record written (tot : Z) (nb : nat) (W1 : gset Z) (s1 : kernel) : Prop := {
  wr_st : file_st W1 s1;
  wr_frame : file_frame ip (addrs s1) s s1;
  wr_op : in_op s s1;
  wr_set : exists D : gset Z, W1 ⊆ {[bm]} ∪ (ind_set (addrs s1) ∪ (D ∪ W)) /\ (size D <= nb)%nat;
  wr_map : forall k, 0 <= k -> k * BSIZE < Z.max (isize s) (off + tot) -> baddr (content s1) (addrs s1) k <> 0;
  wr_bytes : forall o, 0 <= o < Z.max (isize s) (off + tot) -> file_byte (content s1) (addrs s1) o =
    if decide (off <= o < off + tot) then bs !!! Z.to_nat (o - off) else file_byte (content s) (addrs s) o;
  wr_data : forall m, data_block sb lg (content s) m -> data_block sb lg (content s1) m;
  wr_own : forall k, 0 <= k <= MAXFILE -> owned (content s1) (addrs s1) k = owned (content s) (addrs s) k \/
    ~ data_block sb lg (content s) (owned (content s1) (addrs s1) k);
  wr_others : forall m, data_block sb lg (content s) m -> (forall k, 0 <= k <= MAXFILE -> owned (content s) (addrs s) k <> m) ->
    content s1 m = content s m;
}.

Lemma written_size tot nb W1 s1 : written tot nb W1 s1 -> (size W1 <= size W + nb + 2)%nat.
Proof.
  intros [_ _ _ (D & HD & Hn) _ _ _ _ _]. apply subseteq_size in HD.
  pose proof (size_union_le {[bm]} (ind_set (addrs s1) ∪ (D ∪ W))) as L1. rewrite size_singleton in L1.
  pose proof (size_union_le (ind_set (addrs s1)) (D ∪ W)) as L2. pose proof (size_union_le D W) as L3.
  assert (size (ind_set (addrs s1)) <= 1)%nat as Hi.
  { unfold ind_set. destruct (_ =? 0); [rewrite size_empty; lia|rewrite size_singleton; lia]. }
  lia.
Qed.

Lemma one_bm b : fs_geom sb lg -> 0 <= b < sb_size sb -> BBLOCK b sb = bm.
Proof.
  intros G Hb. unfold bm, BBLOCK. pose proof (fg_size _ _ G). rewrite !Z.div_small by lia. reflexivity.
Qed.

Lemma map_blocks_sub c a bn : fs_geom sb lg -> file_ok sb lg c a -> 0 <= bn < MAXFILE ->
  map_blocks sb c a bn ⊆ {[bm]} ∪ (ind_set a ∪ {[baddr c a bn]}).
Proof.
  intros Gm Hf Hbn. assert (forall k, 0 <= k <= MAXFILE -> BBLOCK (owned c a k) sb = bm) as Hbb.
  { intros k Hk. apply one_bm; [exact Gm|]. destruct (Z.eq_dec (owned c a k) 0) as [->|Hne]; [pose proof (fg_size _ _ Gm); lia|].
    destruct (fk_data _ _ _ _ Hf k Hk Hne). lia. }
  pose proof (Hbb bn ltac:(lia)) as Hb1. pose proof (Hbb MAXFILE ltac:(rewrite maxfile_eq; lia)) as Hb2. unfold owned in Hb1, Hb2.
  rewrite (proj2 (Z.eqb_neq bn MAXFILE)) in Hb1 by lia. rewrite Z.eqb_refl in Hb2. clear Hbb.
  assert (zget a NDIRECT ∈ ind_set a \/ bn < NDIRECT \/ zget a NDIRECT = baddr c a bn) as Hin.
  { unfold ind_set, baddr. destruct (Z.eqb_spec (zget a NDIRECT) 0) as [->|]; [|left; by apply elem_of_singleton].
    destruct (Z.ltb_spec bn NDIRECT); auto. }
  unfold map_blocks. rewrite Hb1, Hb2. generalize dependent (ind_set a). intros I Hin.
  destruct (Z.ltb_spec bn NDIRECT) as [?|?]; [clear; set_solver|].
  destruct Hin as [Hin|[?|Hin]]; [clear -Hin; set_solver|lia|rewrite Hin; clear; set_solver].
Qed.

(** bmap() keeps what has been written. *)
Lemma written_map tot nb W1 s1 bn r s2 a2 : 0 <= bn < MAXFILE ->
  Z.max (isize s) (off + tot) <= MAXFILE * BSIZE ->
  written tot nb W1 s1 -> bmapped i pid ip lg sb W1 bn s1 r s2 a2 ->
  addrs s2 = a2 /\ written tot (S nb) (map_blocks sb (content s2) a2 bn ∪ W1) s2.
Proof.
  intros Hbn Hmax [A B C (D & HD & HDn) E F G I J] Hb. destruct (file_st_mapped i pid ip lg sb W1 bn s1 r s2 a2 A Hb) as (Ea & Hst & Eit).
  pose proof Hb as [Gr Er _ _ _ Fr Op]. split; [exact Ea|].
  assert (forall k, 0 <= k -> k * BSIZE < Z.max (isize s) (off + tot) -> 0 <= k < MAXFILE) as Hkm by (intros k; rewrite bsize_eq, maxfile_eq in *; lia).
  assert (forall m, data_block sb lg (content s) m -> (forall k, 0 <= k <= MAXFILE -> owned (content s) (addrs s) k <> m) -> m <> zget (addrs s1) NDIRECT) as Hni.
  { intros m Hm Hno E0. destruct (I MAXFILE ltac:(rewrite maxfile_eq; lia)) as [Eo|Nd]; unfold owned in *; rewrite Z.eqb_refl in *.
    - apply (Hno MAXFILE); [rewrite maxfile_eq; lia|]. rewrite Z.eqb_refl. congruence.
    - apply Nd. rewrite <- E0. exact Hm. }
  split; rewrite ?Ea.
  - exact Hst.
  - by eapply file_frame_trans.
  - by eapply in_op_trans.
  - exists ({[baddr (content s2) a2 bn]} ∪ D). split; [|pose proof (size_union_le {[baddr (content s2) a2 bn]} D) as Hle; rewrite size_singleton in Hle; lia].
    pose proof (map_blocks_sub (content s2) a2 bn (ft_geom _ _ _ _ _ _ _ A) (gr_ok _ _ _ _ _ _ _ Gr) Hbn) as Hms.
    assert (ind_set (addrs s1) ⊆ ind_set a2) as Hsub.
    { unfold ind_set. destruct (Z.eqb_spec (zget (addrs s1) NDIRECT) 0) as [|Hz]; [apply empty_subseteq|].
      destruct (gr_ind _ _ _ _ _ _ _ Gr) as [->|[? _]]; [|done]. by rewrite (proj2 (Z.eqb_neq _ _) Hz). }
    clear -HD Hms Hsub. set_solver.
  - intros k Hk0 Hk. rewrite (gr_addr _ _ _ _ _ _ _ Gr); auto.
  - intros o Ho. rewrite <- F by exact Ho. unfold file_byte. assert (0 <= o / BSIZE < MAXFILE /\ o / BSIZE * BSIZE < Z.max (isize s) (off + tot)) as [Hob Hob2].
    { rewrite bsize_eq, maxfile_eq in *. dlia. }
    assert (baddr (content s1) (addrs s1) (o / BSIZE) <> 0) as Hne by (apply E; lia).
    rewrite (gr_addr _ _ _ _ _ _ _ Gr) by auto. rewrite (gr_same _ _ _ _ _ _ _ Gr); [reflexivity| |].
    + apply (data_n sb lg (content s1) (addrs s1)); [apply A|exact Hob|exact Hne].
    + intros Ei. assert (o / BSIZE = MAXFILE) as Hx; [|lia]. apply (fk_inj _ _ _ _ (ft_file _ _ _ _ _ _ _ A)); [lia|rewrite maxfile_eq; lia| |];
        unfold owned; rewrite (proj2 (Z.eqb_neq (o / BSIZE) MAXFILE)) by lia; [exact Hne|]. rewrite Z.eqb_refl. exact Ei.
  - intros m Hm. eapply grow_data; [exact Gr|]. auto.
  - intros k Hk. destruct (gr_new _ _ _ _ _ _ _ Gr k Hk) as [->|Hn]; [auto|]. right. intros Hd. apply Hn. auto.
  - intros m Hm Hno. rewrite (gr_same _ _ _ _ _ _ _ Gr); auto.
Qed.

(** Writing the next part of the data into a block of the file. *)
Lemma written_data tot nb W1 s1 s2 m :
  let bn := (off + tot) / BSIZE in let r := baddr (content s1) (addrs s1) bn in
  0 <= off <= isize s -> 0 <= tot -> 0 < m -> (off + tot) mod BSIZE + m <= BSIZE -> tot + m <= Z.of_nat (length bs) ->
  Z.max (isize s) (off + (tot + m)) <= MAXFILE * BSIZE -> r <> 0 ->
  written tot nb W1 s1 -> fop i pid W1 [] s2 ->
  (forall x, content s2 x = put_block (content s1) (r, splice (content s1 r) ((off + tot) mod BSIZE)
     (take (Z.to_nat m) (drop (Z.to_nat tot) bs))) x) ->
  fs_frame s1 s2 -> in_op s1 s2 -> written (tot + m) nb W1 s2.
Proof.
  intros bn r Hoff Htot Hm Hfit Hlen Hmax Hr [A B C D E F G I J] Hf2 Hc2 Hfr2 Ho2.
  set (d := splice _ _ _) in Hc2. pose proof (ft_file _ _ _ _ _ _ _ A) as Hfile.
  assert (0 <= bn < MAXFILE) as Hbn by (unfold bn; rewrite bsize_eq, maxfile_eq in *; dlia).
  assert (k_itable s2 = k_itable s1) as Eit by (rewrite (fs_frame_eq _ _ Hfr2); reflexivity).
  assert (addrs s2 = addrs s1) as Ea by (unfold FsFile.addrs; by rewrite Eit).
  pose proof (ft_lens i pid ip lg sb W1 s1 A) as Hlens.
  assert (forall x, baddr (put_block (content s1) (r, d)) (addrs s1) x = baddr (content s1) (addrs s1) x) as Hdb by (intros x; by apply (data_baddr sb lg)).
  assert (forall x, baddr (content s2) (addrs s1) x = baddr (content s1) (addrs s1) x) as Hba by (intros x; by rewrite (baddr_eqf _ _ _ _ Hc2)).
  assert (forall k, 0 <= k -> k * BSIZE < Z.max (isize s) (off + (tot + m)) -> baddr (content s1) (addrs s1) k <> 0) as Hmap.
  { intros k Hk0 Hk. destruct (Z.eq_dec k bn) as [->|Hne]; [exact Hr|]. apply E; [exact Hk0|]. unfold bn in *. rewrite bsize_eq in *. dlia. }
  split; rewrite ?Ea.
  - destruct A as [Hf Hip Hdev Hsb Hlg Hg Hfree _]. split; rewrite ?Eit; auto; unfold FsFile.addrs; rewrite ?Eit.
    + rewrite (fs_frame_sb _ _ Hfr2). exact Hsb.
    + by eapply same_log_op.
    + eapply free_ext; [exact Hc2|]. by apply data_free.
    + eapply file_ext; [exact Hc2|]. by apply data_file.
  - eapply fs_frame_trans; [exact B|exact Hfr2].
  - by eapply in_op_trans.
  - exact D.
  - intros k Hk0 Hk. rewrite Hba. by apply Hmap.
  - intros o Ho. assert (0 <= o / BSIZE < MAXFILE /\ o / BSIZE * BSIZE <= o) as [Hob Hob2] by (rewrite bsize_eq, maxfile_eq in *; dlia).
    replace (file_byte (content s2) (addrs s1) o) with (file_byte (put_block (content s1) (r, d)) (addrs s1) o).
    2: { unfold file_byte. by rewrite Hba, Hc2, Hdb. }
    assert (baddr (content s1) (addrs s1) (o / BSIZE) <> 0) as Hob3 by (apply Hmap; lia).
    pose proof (data_byte sb lg (content s1) (addrs s1) bn d Hfile Hbn Hr o ltac:(lia) ltac:(lia) Hob3) as Hdo. fold r in Hdo. rewrite Hdo. clear Hdo. unfold d.
    assert (length (take (Z.to_nat m) (drop (Z.to_nat tot) bs)) = Z.to_nat m) as Hlc by (rewrite length_take, length_drop; lia).
    pose proof (Z.mod_pos_bound (off + tot) BSIZE ltac:(rewrite bsize_eq; lia)) as Hmp.
    destruct (decide (o / BSIZE = bn)) as [Eb|Eb].
    + rewrite zget_splice; rewrite ?Hlc, ?Hlens; [|lia|rewrite bsize_eq in *; lia|rewrite bsize_eq; dlia].
      destruct (decide (off + tot <= o < off + (tot + m))) as [Hin|Hout].
      * rewrite !decide_True; [|lia|unfold bn in Eb; rewrite bsize_eq in *; dlia].
        rewrite lookup_total_take_lt by (unfold bn in Eb; rewrite bsize_eq in *; dlia). rewrite lookup_total_drop. f_equal.
        unfold bn in Eb. rewrite bsize_eq in *. dlia.
      * rewrite decide_False by (unfold bn in Eb; rewrite bsize_eq in *; dlia).
        assert (0 <= o < Z.max (isize s) (off + tot)) as Ho' by lia. pose proof (F o Ho') as Fo. unfold file_byte in Fo at 1. rewrite Eb in Fo.
        change (baddr (content s1) (addrs s1) bn) with r in Fo. rewrite Fo. destruct (decide (off <= o < off + tot)); [rewrite decide_True by lia|rewrite decide_False by lia]; reflexivity.
    + assert (o < off + tot \/ off + (tot + m) <= o) as Hout by (unfold bn in Eb; rewrite bsize_eq in *; dlia).
      rewrite F by lia. destruct (decide (off <= o < off + tot)); [rewrite decide_True by lia|rewrite decide_False by lia]; reflexivity.
  - intros x Hx. eapply data_ext; [exact Hc2|]. apply (data_block_same sb lg); auto.
  - intros k Hk. assert (owned (content s2) (addrs s1) k = owned (content s1) (addrs s1) k) as -> by (unfold owned; by rewrite Hba). auto.
  - intros x Hx Hno. rewrite Hc2. unfold put_block. cbn [fst snd]. rewrite decide_False; [auto|]. intros ->.
    pose proof (data_owned (content s1) (addrs s1) bn Hbn) as Hob. fold r in Hob. destruct (I bn ltac:(lia)) as [Eo|Nd]; rewrite Hob in *.
    + by apply (Hno bn ltac:(lia)).
    + by apply Nd.
Qed.

Lemma room_written tot nb W1 s1 j k : room W (nb + 2 + j) k s -> written tot nb W1 s1 -> room W1 j k s1.
Proof.
  intros Hr Hw. pose proof (written_size _ _ _ _ Hw) as Hsz. apply (room_op _ _ _ s); [|apply Hw]. unfold room in *. lia.
Qed.

(** The process and the memory are those of the start. *)
Lemma written_env tot nb W1 s1 : file_st W s -> written tot nb W1 s1 ->
  k_mem s1 = k_mem s /\ k_cur s1 = Some i /\ k_procs s1 !!! i = k_procs s !!! i.
Proof.
  intros Hs Hw. pose proof (wr_frame _ _ _ _ Hw) as Hfr. pose proof (fs_frame_eq _ _ Hfr) as E.
  destruct (ft_op _ _ _ _ _ _ _ Hs) as [(pins & Ht & _) _]. destruct (ca_run _ _ _ _ _ (tx_cache _ _ _ _ _ Ht)) as [Hcur _ Hlen _].
  split; [rewrite E; reflexivity|]. split; [rewrite E; exact Hcur|]. exact (fs_frame_proc _ _ i Hfr Hcur Hlen).
Qed.

Lemma write_step t us src tot nb W1 s1 :
  let n := Z.of_nat (length bs) in let m := Z.min (n - tot) (BSIZE - (off + tot) mod BSIZE) in
  file_st W s -> room W (nb + 8) 1 s -> 0 <= off <= isize s -> 0 <= tot < n -> Z.max (isize s) (off + n) <= MAXFILE * BSIZE ->
  source t us i s src bs -> 0 <= src -> src + n < 2 ^ 64 ->
  written tot nb W1 s1 ->
  wp (addr <- bmap ip ((off + tot) / BSIZE) ;;
      if addr =? 0 then ret (inr (tot, off + tot)) else
      bp <- bread ROOTDEV addr ;;
      do (r, bytes) <- either_copyin us (src + tot) m ;;
      upd_data bp (fun d => splice d ((off + tot) mod BSIZE) bytes) ;;;
      if r =? -1 then
        brelse bp ;;;
        ret (inr (tot, off + tot))
      else
        log_write bp ;;;
        brelse bp ;;;
        ret (inl (tot + m, off + tot + m, u64 (src + tot + m))))
    (fun r s2 => exists W2,
      r = inl (tot + m, off + (tot + m), src + (tot + m)) /\ written (tot + m) (S nb) W2 s2 \/
      r = inr (tot, off + tot) /\ written tot (S nb) W2 s2 /\ forall b, 0 <= b < sb_size sb -> used sb (content s2) b = true) s1.
Proof.
  intros n m Hs Hr Hoff Htot Hmax Hsrc Hs0 Hs1 Hw. set (bn := (off + tot) / BSIZE).
  assert (0 <= bn < MAXFILE) as Hbn by (unfold bn; rewrite bsize_eq, maxfile_eq in *; dlia).
  assert (0 < m /\ (off + tot) mod BSIZE + m <= BSIZE /\ tot + m <= n) as (Hm & Hfit & Hmn).
  { unfold m. rewrite bsize_eq. pose proof (Z.mod_pos_bound (off + tot) 1024). lia. }
  wp_step. apply (bmap_spec i pid ip lg sb W1 bn s1); [apply Hw|apply (room_written tot nb W1 s1 5 1); [eapply room_le; [exact Hr|lia|lia]|exact Hw]|exact Hbn|].
  intros r s2 a2 Hb. destruct (written_map tot nb W1 s1 bn r s2 a2 Hbn ltac:(lia) Hw Hb) as [Ea Hw2]. set (W2 := _ ∪ W1) in Hw2.
  pose proof (bm_r _ _ _ _ _ _ _ _ _ _ _ Hb) as Er. destruct (Z.eqb_spec r 0) as [Hz|Hne].
  { wp_steps. exists W2. right. split; [reflexivity|]. split; [exact Hw2|]. exact (bm_full _ _ _ _ _ _ _ _ _ _ _ Hb Hz). }
  pose proof (wr_st _ _ _ _ Hw2) as Hst2. pose proof (ft_op _ _ _ _ _ _ _ Hst2) as Hf2. rewrite <- Ea in Er.
  assert (room W2 0 1 s2) as Hr2 by (apply (room_written tot (S nb) W2 s2 0 1); [eapply room_le; [exact Hr|lia|lia]|exact Hw2]).
  pose proof (data_n sb lg (content s2) (addrs s2) bn (ft_file _ _ _ _ _ _ _ Hst2) Hbn ltac:(congruence)) as Hdb. rewrite <- Er in Hdb.
  wp_step. apply (fop_bread i pid W2 [] s2); [exact Hf2|eapply room_le; [exact Hr2|lia|simpl; lia]|apply not_elem_of_nil|].
  intros bp s3 Hf3 Hc3 Hfr3 Ho3. wp_step. destruct (written_env _ _ _ _ Hs Hw2) as (Em2 & Ec2 & Ep2).
  assert (k_mem s3 = k_mem s /\ k_cur s3 = Some i /\ k_procs s3 !!! i = k_procs s !!! i) as (Em3 & Ec3 & Ep3).
  { pose proof (fs_frame_eq _ _ Hfr3) as E. split; [rewrite <- Em2, E; reflexivity|]. split; [rewrite <- Ec2, E; reflexivity|].
    rewrite <- Ep2. apply (fs_frame_proc _ _ i Hfr3 Ec2).
    destruct Hf2 as [(pins & Ht & _) _]. exact (ru_len _ _ _ (ca_run _ _ _ _ _ (tx_cache _ _ _ _ _ Ht))). }
  pose proof (copyin_part t us i s s3 src bs (Z.to_nat tot) (Z.to_nat m) Ec3 ltac:(by rewrite Ep3) Em3 Hsrc ltac:(unfold n in *; lia) ltac:(lia) Hs0 Hs1) as Hci.
  rewrite !Z2Nat.id in Hci by lia. eapply wp_mono; [exact Hci|]. clear Hci. intros [rc bytes] s4 [-> [= -> ->]].
  change (0 =? -1) with false. cbv iota.
  assert (r ∈ W2) as HrW by (unfold W2, map_blocks; rewrite <- Ea, <- Er; clear; set_solver).
  apply (fop_update i pid W2 [(bp, r)] s3 bp r); [exact Hf3| |exact HrW|by left| | | |].
  { eapply room_op; [eapply room_le; [exact Hr2|lia|lia]|exact Ho3]. }
  { pose proof (fg_size _ _ (ft_geom _ _ _ _ _ _ _ Hst2)). destruct Hdb. lia. }
  { apply (same_home lg); [eapply same_log_op; [apply Hst2|exact Ho3]|apply Hdb]. }
  { rewrite splice_length; [by eapply fop_length|apply Z.mod_pos_bound; rewrite bsize_eq; lia|].
    rewrite (fop_length i pid _ _ _ r Hf3), length_take, length_drop. rewrite bsize_eq in *. lia. }
  intros s5 Hf5 Hc5 Hfr5 Ho5. wp_step. apply (fop_brelse i pid W2 [] [] s5 bp r); [exact Hf5|]. intros s6 Hf6 Hc6 Hfr6 Ho6. wp_steps.
  exists W2. left. split; [rewrite u64_id by lia; f_equal; f_equal; [f_equal|]; lia|].
  pose proof (written_data tot (S nb) W2 s2 s6 m) as Hwd. cbv zeta in Hwd. fold bn in Hwd. rewrite <- Er in Hwd.
  apply Hwd; [exact Hoff|lia|exact Hm|exact Hfit|exact Hmn|lia|exact Hne|exact Hw2|exact Hf6| | |].
  - intros x. rewrite Hc6, Hc5. unfold put_block. cbn [fst snd]. by rewrite !Hc3.
  - exact (fs_frame_trans _ _ _ Hfr3 (fs_frame_trans _ _ _ Hfr5 Hfr6)).
  - exact (in_op_trans _ _ _ Ho3 (in_op_trans _ _ _ Ho5 Ho6)).
Qed.

(** The number of blocks that [n] bytes at [off] touch. *)
Definition nblocks (n : Z) : Z := (off + n + BSIZE - 1) / BSIZE - off / BSIZE.

Lemma write_loop t us src (Q : Z * Z -> kernel -> Prop) :
  let n := Z.of_nat (length bs) in
  file_st W s -> no_holes ip s -> room W (Z.to_nat (nblocks n) + 8) 1 s -> 0 <= off <= isize s -> off + n <= MAXFILE * BSIZE ->
  source t us i s src bs -> 0 <= src -> src + n < 2 ^ 64 ->
  (forall tot nb W1 s1, 0 <= tot <= n -> Z.of_nat nb <= nblocks n -> written tot nb W1 s1 -> (0 < tot < n -> (off + tot) mod BSIZE = 0) ->
     (tot = n \/ forall b, 0 <= b < sb_size sb -> used sb (content s1) b = true) -> Q (tot, off + tot) s1) ->
  wp (loop (S (Z.to_nat n)) (fun '(tot, off, src) =>
    if tot <? n then
      addr <- bmap ip (off / BSIZE) ;;
      if addr =? 0 then ret (inr (tot, off)) else
      bp <- bread ROOTDEV addr ;;
      let m := Z.min (n - tot) (BSIZE - off mod BSIZE) in
      do (r, bytes) <- either_copyin us src m ;;
      upd_data bp (fun d => splice d (off mod BSIZE) bytes) ;;;
      if r =? -1 then
        brelse bp ;;;
        ret (inr (tot, off))
      else
        log_write bp ;;;
        brelse bp ;;;
        ret (inl (tot + m, off + m, u64 (src + m)))
    else ret (inr (tot, off))) (0, off, src)) Q s.
Proof.
  intros n Hs [Hsz Hnh] Hr Hoff Hmax Hsrc Hs0 Hs1 HQ.
  eapply wp_loop with (n := Z.to_nat n) (I := fun k '(tot, o, p) s1 => exists nb W1, k = Z.to_nat (n - tot) /\ 0 <= tot <= n /\
    o = off + tot /\ p = src + tot /\ Z.of_nat nb <= nblocks tot /\ (tot = 0 -> nb = 0%nat) /\
    (0 < tot < n -> (off + tot) mod BSIZE = 0) /\ written tot nb W1 s1).
  - intros k [[tot o] p] s1 (nb & W1 & -> & Htot & -> & -> & Hnb & H0' & Hal & Hw). destruct (Z.ltb_spec tot n) as [Hlt|Hge].
    2: { wp_steps. replace tot with n in * by lia. apply (HQ n nb W1); auto; lia. }
    set (m := Z.min (n - tot) (BSIZE - (off + tot) mod BSIZE)).
    assert (0 < m <= n - tot /\ ((off + (tot + m)) mod BSIZE = 0 \/ tot + m = n)) as [Hm Hal'].
    { unfold m. rewrite bsize_eq. pose proof (Z.mod_pos_bound (off + tot) 1024). dlia. }
    assert (Z.of_nat nb + 1 <= nblocks (tot + m) /\ nblocks (tot + m) <= nblocks n) as [Hnb1 Hnb2].
    { unfold nblocks in *. rewrite bsize_eq in *. destruct (Z.eq_dec tot 0) as [->|Hne]; [rewrite H0' by reflexivity|specialize (Hal ltac:(lia))]; dlia. }
    eapply wp_mono; [apply (write_step t us src tot nb W1 s1); auto; [eapply room_le; [exact Hr|lia|lia]|lia|lia]|].
    cbn beta zeta. fold n m. intros r s2 (W2 & [[-> Hw2]|(-> & Hw2 & Hfull)]).
    + exists (Z.to_nat (n - (tot + m))). split; [lia|]. exists (S nb), W2. split_and!; auto; try lia.
    + apply (HQ tot (S nb) W2); auto; lia.
  - exists 0%nat, W. rewrite Z.sub_0_r, !Z.add_0_r. split_and!; try reflexivity; try lia.
    + unfold nblocks. rewrite bsize_eq. dlia.
    + split; rewrite ?Z.add_0_r.
      * exact Hs.
      * unfold file_frame, FsFile.addrs. rewrite alter_addrs_id. apply fs_frame_refl.
      * apply in_op_refl.
      * exists ∅. split; [clear; set_solver|]. rewrite size_empty. lia.
      * intros k Hk0 Hk. apply Hnh; lia.
      * intros o Ho. rewrite decide_False by lia. reflexivity.
      * auto.
      * auto.
      * auto.
  - lia.
Qed.

(** The block of the inode. *)
Let ib : Z := IBLOCK (i_inum (k_itable s !!! ip)) sb.

(** [tot] bytes were written, with the blocks of [W'] logged. *)
Record wrote_file (tot : Z) (W' : gset Z) (s' : kernel) : Prop := {
  wf_st : file_st W' s';
  wf_cost : Z.of_nat (size W') <= Z.of_nat (size W) + nblocks (Z.of_nat (length bs)) + 3;
  wf_holes : no_holes ip s';
  wf_size : isize s' = Z.max (isize s) (off + tot);
  wf_bytes : forall o, 0 <= o < isize s' -> file_byte (content s') (addrs s') o =
    if decide (off <= o < off + tot) then bs !!! Z.to_nat (o - off) else file_byte (content s) (addrs s) o;
  wf_others : forall m, data_block sb lg (content s) m -> (forall k, 0 <= k <= MAXFILE -> owned (content s) (addrs s) k <> m) ->
    m <> ib -> content s' m = content s m;
  wf_dinode : read_dinode (content s' ib) (dinode_off (i_inum (k_itable s !!! ip))) (k_itable s' !!! ip) = k_itable s' !!! ip;
  wf_itable : k_itable s' = alter (fun I => with_i_size (isize s') (with_i_addrs (addrs s') I)) ip (k_itable s);
  wf_frame : fs_frame (with_k_itable (k_itable s') s) s';
  wf_op : in_op s s';
}.

Lemma file_addrs_ok sb' lg' c a : fs_geom sb' lg' -> file_ok sb' lg' c a ->
  length a = Z.to_nat (NDIRECT + 1) /\ Forall (fun x => 0 <= x < 2 ^ 32) a.
Proof.
  intros G Hf. split; [apply Hf|]. apply Forall_lookup. intros k x Hk. pose proof (lookup_lt_Some _ _ _ Hk) as Hlt.
  rewrite (fk_len _ _ _ _ Hf), ndirect_eq in Hlt. assert (x = zget a (Z.of_nat k)) as ->.
  { unfold zget. rewrite Nat2Z.id. symmetry. by apply list_lookup_total_correct. }
  destruct (Z.eq_dec (zget a (Z.of_nat k)) 0) as [->|Hne]; [lia|]. pose proof (fg_size _ _ G).
  assert (exists j, 0 <= j <= MAXFILE /\ owned c a j = zget a (Z.of_nat k)) as (j & Hj & Ej).
  { rewrite maxfile_eq. destruct (decide (k = 12)%nat) as [->|].
    - exists 268. split; [lia|]. reflexivity.
    - exists (Z.of_nat k). split; [lia|]. unfold owned, baddr. rewrite maxfile_eq, ndirect_eq, (proj2 (Z.eqb_neq _ _)) by lia.
      by rewrite (proj2 (Z.ltb_lt _ _)) by lia. }
  rewrite <- Ej. destruct (fk_data _ _ _ _ Hf j Hj ltac:(by rewrite Ej)). lia.
Qed.

(** writing the inode back after the data. *)
Lemma write_inode tot nb W1 s1 s2 : let n := Z.of_nat (length bs) in
  0 <= off <= isize s -> 0 <= tot <= n -> Z.max (isize s) (off + n) <= MAXFILE * BSIZE -> Z.of_nat nb <= nblocks n ->
  written tot nb W1 s1 -> inode_ok (k_itable s !!! ip) ->
  data_block sb lg (content s) ib -> (forall k, 0 <= k <= MAXFILE -> owned (content s) (addrs s) k <> ib) ->
  let s1' := with_k_itable (alter (with_i_size (Z.max (isize s) (off + tot))) ip (k_itable s1)) s1 in
  fop i pid ({[ib]} ∪ W1) [] s2 ->
  (forall m, content s2 m = put_block (content s1) (ib, write_dinode (content s1 ib) (dinode_off (i_inum (k_itable s !!! ip))) (k_itable s1' !!! ip)) m) ->
  fs_frame s1' s2 -> in_op s1' s2 -> wrote_file tot ({[ib]} ∪ W1) s2.
Proof.
  intros n Hoff Htot Hmax Hnb Hw Hin Hib Hno s1' Hf2 Hc2 Hfr2 Ho2. pose proof Hw as [A B C D E F G I J].
  pose proof (ft_ip _ _ _ _ _ _ _ A) as Hip1. assert (k_itable s2 = k_itable s1') as Eit by (rewrite (fs_frame_eq _ _ Hfr2); reflexivity).
  assert (ip < length (k_itable s))%nat as Hip.
  { pose proof (fs_frame_eq _ _ B) as Eb. rewrite Eb in Hip1. cbn in Hip1. by rewrite length_alter in Hip1. }
  destruct (file_frame_addrs ip (addrs s1) s s1 Hip B) as [E1 E2]. set (mx := Z.max (isize s) (off + tot)) in *.
  set (I' := with_i_size mx (with_i_addrs (addrs s1) (k_itable s !!! ip))).
  assert (k_itable s2 = alter (fun X => with_i_size mx (with_i_addrs (addrs s1) X)) ip (k_itable s) /\ k_itable s2 !!! ip = I') as [Et Es].
  { rewrite Eit. unfold s1'. ksimp. destruct (lookup_lt_is_Some_2 _ _ Hip) as [X HX]. split.
    - rewrite E1. apply list_eq. intros j. destruct (decide (j = ip)) as [->|Hj]; [rewrite !list_lookup_alter_eq; by destruct (k_itable s !! ip)|by rewrite !list_lookup_alter_ne].
    - apply list_lookup_total_correct. rewrite E1, !list_lookup_alter_eq, HX. unfold I'. by rewrite (list_lookup_total_correct _ _ _ HX). }
  assert (k_itable s1' !!! ip = I') as Es1 by (by rewrite <- Eit).
  assert (addrs s2 = addrs s1 /\ isize s2 = mx) as [Ea Ez] by (unfold FsFile.addrs, FsData.isize; by rewrite Es).
  assert (data_block sb lg (content s1) ib) as Hib1 by auto.
  assert (forall k, 0 <= k <= MAXFILE -> owned (content s1) (addrs s1) k <> ib) as Hno1.
  { intros k Hk X. destruct (I k Hk) as [Eo|Nd]; [by apply (Hno k Hk); rewrite <- Eo|]. apply Nd. by rewrite X. }
  pose proof (ft_file _ _ _ _ _ _ _ A) as Hfile. set (d := write_dinode _ _ _) in Hc2.
  assert (forall k, baddr (content s2) (addrs s1) k = baddr (content s1) (addrs s1) k) as Hba.
  { intros k. rewrite (baddr_eqf _ _ _ _ Hc2). by apply (other_baddr (content s1) (addrs s1) ib d). }
  assert (file_ok sb lg (content s2) (addrs s1)) as Hfile2 by (eapply file_ext; [exact Hc2|by apply other_file]).
  destruct (dinode_off_range (i_inum (k_itable s !!! ip))) as [Do1 Do2].
  split; rewrite ?Ea, ?Ez.
  - destruct A as [Hf _ Hdev Hsb Hlg Hg Hfree _]. split.
    + exact Hf2.
    + by rewrite Et, length_alter.
    + rewrite Es. rewrite E2 in Hdev. exact Hdev.
    + rewrite (fs_frame_sb _ _ Hfr2). exact Hsb.
    + apply (same_log_op lg s1'); [exact Hlg|exact Ho2].
    + exact Hg.
    + eapply free_ext; [exact Hc2|]. by eapply other_free.
    + by rewrite Ea.
  - pose proof (written_size _ _ _ _ Hw). pose proof (size_union_le {[ib]} W1) as Hle. rewrite size_singleton in Hle. fold n. lia.
  - split; rewrite ?Ez, ?Ea; [lia|]. intros bn Hb0 Hbs. rewrite Hba. by apply E.
  - reflexivity.
  - intros o Ho. rewrite <- F by lia. unfold file_byte. rewrite Hba, Hc2.
    assert (0 <= o / BSIZE < MAXFILE /\ o / BSIZE * BSIZE <= o) as [Hob Hob2] by (rewrite bsize_eq, maxfile_eq in *; dlia).
    pose proof (Hno1 (o / BSIZE) ltac:(lia)) as Hn1. rewrite (data_owned (content s1) (addrs s1) (o / BSIZE) Hob) in Hn1.
    unfold put_block. cbn [fst snd]. by rewrite decide_False.
  - intros m Hm Hmo Hmi. rewrite Hc2. unfold put_block. cbn [fst snd]. rewrite decide_False by exact Hmi. auto.
  - rewrite Hc2, Es. unfold put_block. cbn [fst snd]. rewrite decide_True by reflexivity. unfold d. rewrite Es1.
    rewrite dinode_roundtrip; [reflexivity|exact Do1|rewrite (ft_lens i pid ip lg sb W1 s1 A), bsize_eq in *; lia|].
    destruct Hin as [K1 K2 K3 K4 K5 _]. split; [exact K1|exact K2|exact K3|exact K4| |].
    + change (i_size I') with mx. rewrite maxfile_eq, bsize_eq in *. lia.
    + eapply file_addrs_ok; [apply A|exact Hfile].
  - exact Et.
  - rewrite Et. assert (fs_frame (with_k_itable (k_itable s1') s) s1') as Hfr.
    { pose proof (frame_itable (k_itable s1') _ _ B) as Hx. exact Hx. }
    rewrite <- Et, Eit. eapply fs_frame_trans; [exact Hfr|exact Hfr2].
  - eapply in_op_trans; [|exact Ho2]. by apply in_op_itable.
Qed.

Lemma writei_spec t us src (Q : Z -> kernel -> Prop) : let n := Z.of_nat (length bs) in
  file_st W s -> no_holes ip s -> room W (Z.to_nat (nblocks n) + 9) 1 s -> inode_ok (k_itable s !!! ip) ->
  data_block sb lg (content s) ib -> (forall k, 0 <= k <= MAXFILE -> owned (content s) (addrs s) k <> ib) ->
  0 <= off <= isize s -> off + n <= MAXFILE * BSIZE -> source t us i s src bs -> 0 <= src -> src + n < 2 ^ 64 ->
  (forall tot W' s', 0 <= tot <= n -> wrote_file tot W' s' -> (0 < tot < n -> (off + tot) mod BSIZE = 0) ->
     (tot = n \/ forall b, 0 <= b < sb_size sb -> used sb (content s') b = true) -> Q tot s') ->
  wp (writei ip us src off n) Q s.
Proof.
  intros n Hs Hnh Hr Hin Hib Hno Hoff Hmax Hsrc Hs0 Hs1 HQ. pose proof (proj1 Hnh) as Hsz. unfold writei, inode_at. do 2 wp_step. fold (isize s).
  rewrite maxfile_eq, bsize_eq in Hmax. assert (0 <= n) as Hn0 by lia.
  rewrite (u32_id (off + n)) by lia. rewrite (proj2 (Z.ltb_ge (isize s) off)), (proj2 (Z.ltb_ge (off + n) off)) by lia. cbn [orb].
  rewrite (proj2 (Z.ltb_ge (MAXFILE * BSIZE) (off + n))) by (rewrite maxfile_eq, bsize_eq; lia). rewrite (ft_dev _ _ _ _ _ _ _ Hs).
  rewrite maxfile_eq, bsize_eq in Hsz. wp_step.
  apply (write_loop t us src); [exact Hs|exact Hnh|eapply room_le; [exact Hr|unfold n; lia|unfold n; lia]|exact Hoff|rewrite maxfile_eq, bsize_eq; exact Hmax|exact Hsrc|exact Hs0|exact Hs1|].
  fold n. intros tot nb W1 s1 Htot Hnb Hw Hal Hend. pose proof Hw as [A B C _ _ _ G I _].
  destruct (file_frame_addrs ip (addrs s1) s s1 (ft_ip _ _ _ _ _ _ _ Hs) B) as [E1 E2].
  assert (isize s1 = isize s) as Ez by (unfold FsData.isize; by rewrite E2).
  unfold upd_inode. do 2 wp_step. set (s1' := with_k_itable (alter (with_i_size (Z.max (isize s) (off + tot))) ip (k_itable s1)) s1).
  assert (with_k_itable (alter (fun X => if i_size X <? off + tot then with_i_size (off + tot) X else X) ip (k_itable s1)) s1 = s1') as ->.
  { unfold s1'. f_equal. apply list_eq. intros j. destruct (decide (j = ip)) as [->|Hj]; [|by rewrite !list_lookup_alter_ne].
    rewrite !list_lookup_alter_eq. destruct (k_itable s1 !! ip) as [X|] eqn:EX; [|reflexivity]. cbn. f_equal.
    unfold FsData.isize in Ez. rewrite (list_lookup_total_correct _ _ _ EX) in Ez. unfold FsData.isize. rewrite <- Ez.
    destruct (Z.ltb_spec (i_size X) (off + tot)); [by rewrite Z.max_r by lia|rewrite Z.max_l by lia; reflexivity]. }
  assert (i_inum (k_itable s1' !!! ip) = i_inum (k_itable s !!! ip) /\ i_dev (k_itable s1' !!! ip) = ROOTDEV) as [En Ed].
  { unfold s1'. ksimp. destruct (lookup_lt_is_Some_2 _ _ (ft_ip _ _ _ _ _ _ _ A)) as [X HX].
    assert (alter (with_i_size (Z.max (isize s) (off + tot))) ip (k_itable s1) !!! ip = with_i_size (Z.max (isize s) (off + tot)) X) as ->
      by (apply list_lookup_total_correct; by rewrite list_lookup_alter_eq, HX).
    rewrite (list_lookup_total_correct _ _ _ HX) in E2. pose proof (ft_dev _ _ _ _ _ _ _ A) as Hd. rewrite (list_lookup_total_correct _ _ _ HX) in Hd.
    split; [rewrite E2; reflexivity|exact Hd]. }
  assert (k_sb s1' = sb) as Esb by exact (ft_sb _ _ _ _ _ _ _ A). pose proof (G _ Hib) as [Di1 _ Di3 _].
  assert (fop i pid ({[ib]} ∪ W1) [] s1') as Hf1.
  { eapply fop_weaken; [eapply fop_same; [apply A|reflexivity..]|clear; set_solver]. }
  wp_step. apply (iupdate_spec i pid ({[ib]} ∪ W1) s1' ip); rewrite ?En, ?Esb; fold ib; [exact Hf1| |exact Ed|clear; set_solver| | |].
  { apply room_add. apply (room_op _ _ _ s); [|by apply in_op_itable]. pose proof (written_size _ _ _ _ Hw). unfold room in *. lia. }
  { pose proof (fg_size _ _ (ft_geom _ _ _ _ _ _ _ A)). lia. }
  { apply (same_home lg); [apply A|exact Di3]. }
  intros s2 Hf2 Hc2 Hfr2 Ho2. wp_steps. rewrite i32_id by lia. apply (HQ tot ({[ib]} ∪ W1)); [exact Htot| |exact Hal|].
  - eapply (write_inode tot nb W1 s1 s2); [exact Hoff|exact Htot|rewrite maxfile_eq, bsize_eq; fold n; lia|exact Hnb|exact Hw|exact Hin|exact Hib|exact Hno|exact Hf2| |exact Hfr2|exact Ho2].
    intros m. rewrite Hc2. reflexivity.
  - destruct Hend as [->|Hfull]; [by left|]. right. intros b Hb. rewrite (used_ext _ _ _ _ Hc2).
    change (content s1') with (content s1). rewrite (other_used sb lg (content s1) ib); auto.
Qed.
End write.
