(* ===== verification/Pipe.v ===== *)
(** * pipe.c: pipes.

    [k_pipes] holds the struct pipe in each page that is one, by the address of
    the page; its data is what kalloc() left there until it is written. *)

From S2P Require Import Prelude Exec Params State Mem Kalloc Vm Sched Sleeplock RingBuf.

Definition PIPESIZE : Z := 512.

Definition pipe_at (pi : Z) : KM pipe := gets (fun s => default inhabitant (k_pipes s !! pi)).
Definition upd_pipe (pi : Z) (f : pipe -> pipe) : KM unit :=
  modify (fun s => with_k_pipes (alter f pi (k_pipes s)) s).

Section pipe.
Context `{LinkerOk} `{Waits}.

Definition pipeclose (pi : Z) (writable : bool) : KM unit :=
  acquire (Lpipe pi) ;;;
  (if writable then
     upd_pipe pi (with_pi_writeopen false) ;;;
     wakeup (Cnread pi)
   else
     upd_pipe pi (with_pi_readopen false) ;;;
     wakeup (Cnwrite pi)) ;;;
  p <- pipe_at pi ;;
  if negb (pi_readopen p) && negb (pi_writeopen p) then
    release (Lpipe pi) ;;;
    modify (fun s => with_k_pipes (delete pi (k_pipes s)) s) ;;;
    kfree pi
  else release (Lpipe pi).

Definition pipewrite (pi addr n : Z) : KM Z :=
  pr <- curproc ;;
  acquire (Lpipe pi) ;;;
  r <- loop (S (Z.to_nat n + waits)) (fun i =>
    if i <? n then
      p <- pipe_at pi ;;
      k <- (if pi_readopen p then killed pr else ret true) ;;
      if k then
        release (Lpipe pi) ;;;
        ret (inr None)
      else
      if pi_nwrite p =? u32 (pi_nread p + PIPESIZE) then
        wakeup (Cnread pi) ;;;
        sleep (Cnwrite pi) (Lpipe pi) ;;;
        ret (inl i)
      else
        q <- proc_at pr ;;
        do (rc, ch) <- copyin (p_pagetable q) (u64 (addr + i)) 1 ;;
        if rc =? -1 then ret (inr (Some i)) else
        upd_pipe pi (fun p => with_pi_nwrite (u32 (pi_nwrite p + 1))
                                (with_pi_data (zset (pi_data p) (pi_nwrite p mod PIPESIZE) (hd 0 ch)) p)) ;;;
        ret (inl (i + 1))
    else ret (inr (Some i))) 0 ;;
  match r with
  | None => ret (-1)
  | Some i =>
      wakeup (Cnread pi) ;;;
      release (Lpipe pi) ;;;
      ret i
  end.

Definition piperead (pi addr n : Z) : KM Z :=
  pr <- curproc ;;
  acquire (Lpipe pi) ;;;
  ready <- loop (S waits) (fun _ : unit =>
    p <- pipe_at pi ;;
    if (pi_nread p =? pi_nwrite p) && pi_writeopen p then
      k <- killed pr ;;
      if k then release (Lpipe pi) ;;; ret (inr false)
      else sleep (Cnread pi) (Lpipe pi) ;;; ret (inl tt)
    else ret (inr true)) tt ;;
  if negb ready then ret (-1) else
  i <- loop (S (Z.to_nat n)) (fun i =>
    if i <? n then
      p <- pipe_at pi ;;
      if pi_nread p =? pi_nwrite p then ret (inr i) else
      let ch := zget (pi_data p) (pi_nread p mod PIPESIZE) in
      upd_pipe pi (fun p => with_pi_nread (u32 (pi_nread p + 1)) p) ;;;
      q <- proc_at pr ;;
      rc <- copyout (p_pagetable q) (u64 (addr + i)) [ch] ;;
      if rc =? -1 then ret (inr i) else
      ret (inl (i + 1))
    else ret (inr i)) 0 ;;
  wakeup (Cnwrite pi) ;;;
  release (Lpipe pi) ;;;
  ret i.
End pipe.
