(* ===== verification/PipeSpec.v ===== *)
(** * Pipes are bounded FIFO queues of bytes between processes. *)

From S2P Require Import Prelude Exec Params State Mem Kalloc Vm VmTable VmUser Sched Sleeplock RingBuf Pipe.

(** ** The queue a pipe holds *)

Record pipe_wf (p : pipe) : Prop := {
  pw_len : length (pi_data p) = Z.to_nat PIPESIZE;
  pw_r : 0 <= pi_nread p < 2 ^ 32;
  pw_w : 0 <= pi_nwrite p < 2 ^ 32;
  pw_room : rb_len (2 ^ 32) (pi_nread p) (pi_nwrite p) <= PIPESIZE;
}.

Definition pipe_queue (p : pipe) : list Z := rb_list (2 ^ 32) PIPESIZE (pi_data p) (pi_nread p) (pi_nwrite p).

Definition pipe_push (c : Z) (p : pipe) : pipe :=
  with_pi_nwrite (u32 (pi_nwrite p + 1)) (with_pi_data (zset (pi_data p) (pi_nwrite p mod PIPESIZE) c) p).
Definition pipe_pop (p : pipe) : pipe := with_pi_nread (u32 (pi_nread p + 1)) p.

Definition pipe_pushes (cs : list Z) (p : pipe) : pipe := foldl (fun p c => pipe_push c p) p cs.
Definition pipe_pops (n : nat) (p : pipe) : pipe := Nat.iter n pipe_pop p.

Lemma ps_pos : 0 < PIPESIZE. Proof. reflexivity. Qed.
Lemma ps_lt : PIPESIZE < 2 ^ 32. Proof. reflexivity. Qed.
Lemma ps_div : (PIPESIZE | 2 ^ 32). Proof. exists (2 ^ 23). reflexivity. Qed.

Lemma queue_length p : Z.of_nat (length (pipe_queue p)) = rb_len (2 ^ 32) (pi_nread p) (pi_nwrite p).
Proof. apply rb_length; [exact ps_pos|exact ps_lt]. Qed.

Lemma queue_bound p : pipe_wf p -> (length (pipe_queue p) <= Z.to_nat PIPESIZE)%nat.
Proof. intros Hp. pose proof (queue_length p). pose proof (pw_room p Hp). lia. Qed.

Lemma pipe_full p : pipe_wf p -> (pi_nwrite p =? u32 (pi_nread p + PIPESIZE)) = (length (pipe_queue p) =? Z.to_nat PIPESIZE)%nat.
Proof.
  intros Hp. pose proof (queue_length p) as Hl. apply eq_bool_prop_intro.
  rewrite !Is_true_true, Z.eqb_eq, Nat.eqb_eq. unfold u32.
  rewrite (rb_full _ PIPESIZE ps_pos ps_lt (pi_nread p) _ (pw_w p Hp)). rewrite <- Hl. unfold PIPESIZE. lia.
Qed.

Lemma pipe_empty p : pipe_wf p -> (pi_nread p =? pi_nwrite p) = bool_decide (pipe_queue p = []).
Proof.
  intros Hp. pose proof (queue_length p) as Hl. apply eq_bool_prop_intro.
  rewrite !Is_true_true, Z.eqb_eq, bool_decide_eq_true.
  rewrite <- length_zero_iff_nil. pose proof (rb_empty _ PIPESIZE ps_pos ps_lt _ _ (pw_r p Hp) (pw_w p Hp)). split; intros ?; [|symmetry]; lia.
Qed.

Lemma push_queue c p : pipe_wf p -> (length (pipe_queue p) < Z.to_nat PIPESIZE)%nat ->
  pipe_wf (pipe_push c p) /\ pipe_queue (pipe_push c p) = pipe_queue p ++ [c].
Proof.
  intros Hp Hl. pose proof (queue_length p) as Hq. pose proof Hp as [L R W Rm].
  assert (rb_len (2 ^ 32) (pi_nread p) (pi_nwrite p) < PIPESIZE) as Hr by lia. split.
  - split; unfold pipe_push, u32; cbn.
    + by rewrite zset_length.
    + exact R.
    + apply Z.mod_pos_bound. lia.
    + rewrite rb_len_push with (size := PIPESIZE); [lia|exact ps_pos|exact ps_lt|exact Hr].
  - apply rb_push; [exact ps_pos|exact ps_lt|exact ps_div|exact L|exact Hr].
Qed.

Lemma pop_queue p : pipe_wf p -> pipe_queue p <> [] ->
  pipe_wf (pipe_pop p) /\ pipe_queue p = zget (pi_data p) (pi_nread p mod PIPESIZE) :: pipe_queue (pipe_pop p).
Proof.
  intros Hp Hl. pose proof Hp as [L R W Rm].
  assert (pi_nwrite p <> pi_nread p) as Hne.
  { intros E. pose proof (pipe_empty p Hp) as He. rewrite E, Z.eqb_refl in He. symmetry in He.
    apply bool_decide_eq_true in He. auto. }
  split; [|apply rb_pop; auto using ps_pos, ps_lt, ps_div].
  split; unfold pipe_pop, u32; cbn; [exact L|apply Z.mod_pos_bound; lia|exact W|].
  pose proof (rb_len_pop _ PIPESIZE ps_pos ps_lt _ _ R W Hne). unfold u32 in *. lia.
Qed.

Lemma pushes_queue cs : forall p, pipe_wf p -> (length (pipe_queue p) + length cs <= Z.to_nat PIPESIZE)%nat ->
  pipe_wf (pipe_pushes cs p) /\ pipe_queue (pipe_pushes cs p) = pipe_queue p ++ cs.
Proof.
  induction cs as [|c cs IH]; intros p Hp Hl; cbn [pipe_pushes foldl length] in *; [by rewrite app_nil_r|].
  destruct (push_queue c p Hp ltac:(lia)) as [Hw Hq]. destruct (IH _ Hw) as [Hw' Hq'].
  - rewrite Hq, length_app. simpl. lia.
  - split; [exact Hw'|]. unfold pipe_pushes in Hq'. rewrite Hq', Hq, <- app_assoc. reflexivity.
Qed.

Lemma pops_queue n : forall p, pipe_wf p -> (n <= length (pipe_queue p))%nat ->
  pipe_wf (pipe_pops n p) /\ pipe_queue (pipe_pops n p) = drop n (pipe_queue p).
Proof.
  induction n as [|n IH]; intros p Hp Hl; [by rewrite drop_0|]. destruct (IH p Hp ltac:(lia)) as [Hw Hq].
  assert (pipe_queue (pipe_pops n p) <> []) as Hne.
  { rewrite Hq. intros E. apply (f_equal length) in E. rewrite length_drop in E. simpl in E. lia. }
  destruct (pop_queue _ Hw Hne) as [Hw' Hq']. split; [exact Hw'|].
  change (pipe_pops (S n) p) with (pipe_pop (pipe_pops n p)).
  replace (S n) with (n + 1)%nat by lia. rewrite <- drop_drop, <- Hq, Hq'. reflexivity.
Qed.

Section ops.
Context `{LinkerOk} `{Waits}.
Implicit Types (t : gmap (list Z) Z) (s : kernel) (p : pipe).

(** The state with the pipe locked and replaced by [p], and memory [m]. *)
Definition in_pipe (pi : Z) (p : pipe) (m : gmap Z Z) (s : kernel) : kernel :=
  with_k_held [Lpipe pi] (with_k_pipes (<[pi := p]> (k_pipes s)) (with_k_mem m s)).

Lemma in_pipe_start pi p s : k_pipes s !! pi = Some p -> with_k_held [Lpipe pi] s = in_pipe pi p (k_mem s) s.
Proof. intros Hp. unfold in_pipe. rewrite insert_id by exact Hp. reflexivity. Qed.

Lemma wp_pipe_at pi p m s (Q : pipe -> kernel -> Prop) :
  Q p (in_pipe pi p m s) -> wp (pipe_at pi) Q (in_pipe pi p m s).
Proof. intros HQ. unfold wp, pipe_at, gets. ksimp. unfold in_pipe. ksimp. rewrite lookup_insert_eq. exact HQ. Qed.

Lemma wp_upd_pipe pi f p m s (Q : unit -> kernel -> Prop) :
  Q tt (in_pipe pi (f p) m s) -> wp (upd_pipe pi f) Q (in_pipe pi p m s).
Proof.
  intros HQ. unfold wp, upd_pipe, modify. unfold in_pipe in *. ksimp. rewrite alter_insert_eq. exact HQ.
Qed.

(** One byte of the copy loop of piperead(). *)
Lemma read_byte s t pi p (i : nat) addr bs c m :
  pt_inv (k_mem s) t (p_pagetable (k_procs s !!! i)) -> user_ok (k_mem s) t ->
  copied s t addr bs (with_k_mem m s) -> 0 <= addr + Z.of_nat (length bs) < 2 ^ 64 ->
  wp (copyout (p_pagetable (k_procs s !!! i)) (addr + Z.of_nat (length bs)) [c]) (fun rc s' => exists m',
    s' = in_pipe pi p m' s /\ byte_stored s t addr bs c rc m') (in_pipe pi p m s).
Proof.
  intros Hpt Hu Hc Ha. eapply wp_mono; [apply (copyout_byte s (in_pipe pi p m s) t); eassumption|].
  intros rc s' (m' & -> & Hb). exists m'. split; [reflexivity|exact Hb].
Qed.

(** What is left after the process has woken the other side and unlocked. *)
Lemma finish pi p m s i pid c (r : Z) (Q : Z -> kernel -> Prop) :
  running i pid s ->
  (forall s', wakes (with_k_pipes (<[pi := p]> (k_pipes s)) (with_k_mem m s)) s' -> Q r s') ->
  wp (wakeup c ;;; release (Lpipe pi) ;;; ret r) Q (in_pipe pi p m s).
Proof.
  intros Hr HQ. wp_step. apply wakeup_wakes.
  { intros j. unfold in_pipe. ksimp. set_solver. }
  intros s' Hw. wp_step. pose proof (wk_rest _ _ Hw) as Hs. eapply wp_release; [rewrite Hs; reflexivity|apply not_elem_of_nil|].
  wp_steps. apply HQ. destruct Hw as [A B C]. split; [|exact B|exact C].
  rewrite A. unfold in_pipe. ksimp. rewrite <- (ru_held _ _ _ Hr). reflexivity.
Qed.

(** [m] bytes were read and [k] taken off the queue: as many as there were and
    were asked for, or up to the first address that is not mapped, when the byte
    that could not be stored is lost. *)
Record read_bytes s t p addr n (r : Z) (m : nat) (m' : gmap Z Z) (k : nat) : Prop := {
  rd_len : (m <= length (pipe_queue p))%nat;
  rd_n : Z.of_nat m <= n;
  rd_r : r = Z.of_nat m;
  rd_copied : copied s t addr (take m (pipe_queue p)) (with_k_mem m' s);
  rd_end : (m = length (pipe_queue p) \/ Z.of_nat m = n) /\ k = m \/
    ((m < length (pipe_queue p))%nat /\ Z.of_nat m < n) /\ uaddr (k_mem s) t (addr + Z.of_nat m) = None /\ k = S m;
}.

(** The copy loop of piperead(). *)
Lemma read_loop s t pi p (i : nat) addr n :
  pipe_wf p -> pt_inv (k_mem s) t (p_pagetable (k_procs s !!! i)) -> user_ok (k_mem s) t ->
  0 <= addr -> 0 <= n -> addr + n <= 2 ^ 64 ->
  wp (loop (S (Z.to_nat n)) (fun a =>
      if a <? n then
        p <- pipe_at pi ;;
        if pi_nread p =? pi_nwrite p then ret (inr a) else
        upd_pipe pi (fun p => with_pi_nread (u32 (pi_nread p + 1)) p) ;;;
        q <- proc_at i ;;
        rc <- copyout (p_pagetable q) (u64 (addr + a)) [zget (pi_data p) (pi_nread p mod PIPESIZE)] ;;
        if rc =? -1 then ret (inr a) else
        ret (inl (a + 1))
      else ret (inr a)) 0)
    (fun r s' => exists m m' k, read_bytes s t p addr n r m m' k /\ s' = in_pipe pi (pipe_pops k p) m' s)
    (in_pipe pi p (k_mem s) s).
Proof.
  intros Hw Hpt Hu Ha Hn Hm.
  eapply wp_loop with (n := Z.to_nat n) (I := fun nn a s1 => exists m m', (m <= length (pipe_queue p))%nat /\ Z.of_nat m <= n /\
    a = Z.of_nat m /\ nn = Z.to_nat (n - a) /\ copied s t addr (take m (pipe_queue p)) (with_k_mem m' s) /\
    s1 = in_pipe pi (pipe_pops m p) m' s).
  3: lia.
  2: { exists 0%nat, (k_mem s). split; [lia|]. split; [lia|]. split; [reflexivity|]. split; [f_equal; lia|]. split; [apply copied_nil|reflexivity]. }
  intros nn a s1 (m & m' & Hmq & Hmn & -> & -> & Hc & ->). destruct (pops_queue m p Hw Hmq) as [Hwm Hqm].
  destruct (Z.ltb_spec (Z.of_nat m) n) as [Hlt|Hge].
  2: { wp_steps. exists m, m', m. split; [|reflexivity]. split; auto. left. split; [right; lia|reflexivity]. }
  wp_step. apply wp_pipe_at. rewrite pipe_empty, Hqm by exact Hwm. case_bool_decide as He.
  { wp_steps. exists m, m', m. split; [|reflexivity]. split; auto. left. split; [left|reflexivity].
    apply (f_equal length) in He. rewrite length_drop in He. simpl in He. lia. }
  destruct (pop_queue _ Hwm ltac:(by rewrite Hqm)) as [Hw1 Hq1]. rewrite Hqm in Hq1. set (ch := zget _ _) in *.
  wp_step. apply wp_upd_pipe. fold (pipe_pop (pipe_pops m p)). unfold proc_at. do 3 wp_step.
  change (k_procs (in_pipe _ _ _ s)) with (k_procs s).
  assert (length (take m (pipe_queue p)) = m) as Hlm by (rewrite length_take; lia).
  assert (m < length (pipe_queue p))%nat as Hml.
  { apply (f_equal length) in Hq1. rewrite length_drop in Hq1. simpl in Hq1. lia. }
  pose proof (read_byte s t pi (pipe_pop (pipe_pops m p)) i addr _ ch m' Hpt Hu Hc ltac:(lia)) as Hrb.
  rewrite Hlm in Hrb. rewrite u64_id by lia. eapply wp_mono; [exact Hrb|].
  intros rc s2 (m2 & -> & [[-> Hc2]|(-> & Hc2 & Hnone)]); [change (0 =? -1) with false|change (-1 =? -1) with true]; wp_steps.
  - exists (Z.to_nat (n - Z.of_nat (S m))). split; [lia|]. exists (S m), m2. split; [lia|]. split; [lia|].
    split; [lia|]. split; [f_equal; lia|]. split; [|reflexivity].
    rewrite (take_S_r _ _ ch); [exact Hc2|]. rewrite <- (Nat.add_0_r m), <- lookup_drop, Hq1. reflexivity.
  - rewrite Hlm in Hnone. exists m, m2, (S m). split; [|reflexivity]. split; auto.
Qed.

Lemma piperead_spec s t pi p i pid addr n :
  running i pid s -> k_pipes s !! pi = Some p -> pipe_wf p ->
  pt_inv (k_mem s) t (p_pagetable (k_procs s !!! i)) -> user_ok (k_mem s) t ->
  0 <= addr -> 0 <= n -> addr + n <= 2 ^ 64 ->
  pipe_queue p <> [] \/ pi_writeopen p = false ->
  wp (piperead pi addr n) (fun r s' => exists m m' k, read_bytes s t p addr n r m m' k /\
    wakes (with_k_pipes (<[pi := pipe_pops k p]> (k_pipes s)) (with_k_mem m' s)) s') s.
Proof.
  intros Hr Hp Hw Hpt Hu Ha Hn Hm Hq. unfold piperead. wp_step. apply (wp_curproc i); [apply Hr|]. wp_step.
  apply wp_acquire; [rewrite (ru_held _ _ _ Hr); apply not_elem_of_nil|]. rewrite (ru_held _ _ _ Hr), (in_pipe_start _ _ _ Hp).
  wp_step. apply wp_loop_exit. wp_step. apply wp_pipe_at. rewrite pipe_empty by exact Hw.
  replace (bool_decide (pipe_queue p = []) && pi_writeopen p) with false.
  2: { symmetry. apply andb_false_iff. destruct Hq as [Hq|Hq]; [left; by apply bool_decide_eq_false|by right]. }
  wp_steps. cbn [negb]. wp_step. eapply wp_mono; [apply (read_loop s t); eassumption|].
  intros r s1 (m & m' & k & Hres & ->). apply (finish _ _ _ _ i pid); [exact Hr|]. eauto.
Qed.

(** ** pipewrite *)

(** The body of the loop of pipewrite(). *)
Definition write_body (pi addr n : Z) (pr : nat) (i : Z) : KM (Z + option Z) :=
  if i <? n then
    p <- pipe_at pi ;;
    k <- (if pi_readopen p then killed pr else ret true) ;;
    if k then
      release (Lpipe pi) ;;;
      ret (inr None)
    else
    if pi_nwrite p =? u32 (pi_nread p + PIPESIZE) then
      wakeup (Cnread pi) ;;;
      sleep (Cnwrite pi) (Lpipe pi) ;;;
      ret (inl i)
    else
      q <- proc_at pr ;;
      do (rc, ch) <- copyin (p_pagetable q) (u64 (addr + i)) 1 ;;
      if rc =? -1 then ret (inr (Some i)) else
      upd_pipe pi (fun p => with_pi_nwrite (u32 (pi_nwrite p + 1))
                              (with_pi_data (zset (pi_data p) (pi_nwrite p mod PIPESIZE) (hd 0 ch)) p)) ;;;
      ret (inl (i + 1))
  else ret (inr (Some i)).

Lemma pushes_app bs cs p : pipe_pushes (bs ++ cs) p = pipe_pushes cs (pipe_pushes bs p).
Proof. apply foldl_app. Qed.

Lemma pushes_open bs : forall p, pi_readopen (pipe_pushes bs p) = pi_readopen p.
Proof. induction bs as [|b bs IH]; intros p; [reflexivity|]. unfold pipe_pushes in *. cbn [foldl]. by rewrite IH. Qed.

(** A writer: process [i] writes the bytes [bs] of its memory at [addr] to the
    open pipe [p]; after them the buffer ends, or is not mapped. *)
Record writer s t pi p i pid addr n bs : Prop := {
  wr_run : running i pid s;
  wr_pipe : k_pipes s !! pi = Some p;
  wr_wf : pipe_wf p;
  wr_open : pi_readopen p = true;
  wr_alive : p_killed (k_procs s !!! i) = false;
  wr_pt : pt_inv (k_mem s) t (p_pagetable (k_procs s !!! i));
  wr_addr : 0 <= addr /\ 0 <= n /\ addr + n <= 2 ^ 64;
  wr_bytes : ureads s t addr bs;
  wr_end : Z.of_nat (length bs) = n \/
    Z.of_nat (length bs) < n /\ uaddr (k_mem s) t (addr + Z.of_nat (length bs)) = None;
}.

Lemma write_byte s t pi p i pid addr n bs m :
  writer s t pi p i pid addr n bs -> (m < length bs)%nat -> (length (pipe_queue p) + m < Z.to_nat PIPESIZE)%nat ->
  wp (write_body pi addr n i (Z.of_nat m)) (fun r s' => r = inl (Z.of_nat (S m)) /\
    s' = in_pipe pi (pipe_pushes (take (S m) bs) p) (k_mem s) s)
    (in_pipe pi (pipe_pushes (take m bs) p) (k_mem s) s).
Proof.
  intros [Hr Hp Hw Ho Hk Hpt (Ha & Hn & Hm) Hb He] Hlm Hroom. unfold write_body.
  assert (Z.of_nat (length bs) <= n) as Hbn by (destruct He as [|[]]; lia).
  assert (length (take m bs) = m) as Htm by (rewrite length_take; lia).
  destruct (pushes_queue (take m bs) p Hw ltac:(lia)) as [Hwm Hqm].
  replace (Z.of_nat m <? n) with true by lia. wp_step. apply wp_pipe_at. rewrite pushes_open, Ho. wp_step.
  apply wp_killed; [unfold in_pipe; ksimp; set_solver|]. change (k_procs (in_pipe _ _ _ s)) with (k_procs s). rewrite Hk.
  rewrite pipe_full by exact Hwm. rewrite Hqm, length_app, Htm.
  destruct (Nat.eqb_spec (length (pipe_queue p) + m) (Z.to_nat PIPESIZE)) as [|_]; [lia|].
  unfold proc_at. do 3 wp_step. change (k_procs (in_pipe _ _ _ s)) with (k_procs s). rewrite u64_id by lia.
  eapply wp_mono; [apply (copyin_spec _ t); [exact Hpt|lia|lia]|].
  intros [rc ch] s1 (-> & Hrd & Hrc). cbn [fst snd] in *. change (k_mem (in_pipe _ _ ?m s)) with m in *.
  destruct (Hb m Hlm) as (pa & Hpa & Hbm).
  destruct Hrc as [[-> Hl]|(_ & Hl & Hnone)].
  2: { exfalso. replace (length ch) with 0%nat in Hnone by lia. rewrite Z.add_0_r in Hnone. congruence. }
  cbn [Z.eqb]. wp_step. apply wp_upd_pipe. wp_steps. split; [f_equal; lia|]. f_equal.
  destruct ch as [|c [|]]; [simpl in Hl; lia| |simpl in Hl; lia].
  destruct (Hrd 0%nat ltac:(simpl; lia)) as (pa' & Hpa' & Hc). change (k_mem (in_pipe _ _ ?m s)) with m in *.
  rewrite Z.add_0_r in Hpa'. simplify_eq. cbn in Hc. subst c.
  rewrite (take_S_r bs m (bs !!! m)) by (apply list_lookup_lookup_total_lt; exact Hlm). rewrite pushes_app, Hbm. reflexivity.
Qed.

Lemma write_fill s t pi p i pid addr n bs m fuel :
  writer s t pi p i pid addr n bs -> (m <= length bs)%nat -> (length (pipe_queue p) + m <= Z.to_nat PIPESIZE)%nat ->
  loop (m + fuel) (write_body pi addr n i) 0 (in_pipe pi p (k_mem s) s) =
  loop fuel (write_body pi addr n i) (Z.of_nat m) (in_pipe pi (pipe_pushes (take m bs) p) (k_mem s) s).
Proof.
  intros Hwr. revert fuel. induction m as [|m IH]; intros fuel Hm Hroom; [reflexivity|].
  replace (S m + fuel)%nat with (m + S fuel)%nat by lia. rewrite IH by lia. cbn [loop].
  rewrite (bind_ok _ _ _ _ _ (wp_eq _ _ _ _ (write_byte s t pi p i pid addr n bs m Hwr Hm ltac:(lia)))). reflexivity.
Qed.

(** The end of the bytes, of the buffer or of its mapped part. *)
Lemma write_end s t pi p i pid addr n bs p' fuel :
  writer s t pi p i pid addr n bs -> pipe_wf p' -> pi_readopen p' = true ->
  Z.of_nat (length bs) = n \/ (length (pipe_queue p') < Z.to_nat PIPESIZE)%nat ->
  wp (loop (S fuel) (write_body pi addr n i) (Z.of_nat (length bs)))
    (fun r s' => r = Some (Z.of_nat (length bs)) /\ s' = in_pipe pi p' (k_mem s) s) (in_pipe pi p' (k_mem s) s).
Proof.
  intros [Hr Hp Hw _ Hk Hpt (Ha & Hn & Hm) Hb He] Hw' Ho Hroom. apply wp_loop_exit. unfold write_body.
  destruct (Z.ltb_spec (Z.of_nat (length bs)) n) as [Hlt|Hge]; [|wp_steps; auto].
  destruct He as [He|[_ He]]; [lia|]. destruct Hroom as [|Hroom]; [lia|].
  wp_step. apply wp_pipe_at. rewrite Ho. wp_step.
  apply wp_killed; [unfold in_pipe; ksimp; set_solver|]. change (k_procs (in_pipe _ _ _ s)) with (k_procs s). rewrite Hk.
  rewrite pipe_full by exact Hw'. destruct (Nat.eqb_spec (length (pipe_queue p')) (Z.to_nat PIPESIZE)) as [|_]; [lia|].
  unfold proc_at. do 3 wp_step. change (k_procs (in_pipe _ _ _ s)) with (k_procs s). rewrite u64_id by lia.
  eapply wp_mono; [apply (copyin_spec _ t); [exact Hpt|lia|lia]|].
  intros [rc ch] s1 (-> & Hrd & Hrc). cbn [fst snd] in *. change (k_mem (in_pipe _ _ ?m s)) with m in *.
  destruct Hrc as [[-> Hl]|(-> & _)]; [exfalso|change (-1 =? -1) with true; wp_steps; auto].
  destruct (Hrd 0%nat ltac:(lia)) as (pa & Hpa & _). change (k_mem (in_pipe _ _ ?m s)) with m in *.
  rewrite Z.add_0_r in Hpa. congruence.
Qed.

(** A full pipe: the writer wakes the readers and sleeps. *)
Lemma write_full s t pi p i pid addr n bs p' (a : Z) :
  writer s t pi p i pid addr n bs -> pipe_wf p' -> pi_readopen p' = true -> a < n ->
  length (pipe_queue p') = Z.to_nat PIPESIZE ->
  exists s1 k, wakes (in_pipe pi p' (k_mem s) s) s1 /\
    write_body pi addr n i a (in_pipe pi p' (k_mem s) s) = Swtch (asleep i (Cnwrite pi) s1) k.
Proof.
  intros Hwr Hw' Ho Ha Hfull. pose proof (wr_run _ _ _ _ _ _ _ _ _ Hwr) as Hr.
  set (st := in_pipe pi p' (k_mem s) s).
  assert (wp (wakeup (Cnread pi)) (fun r s1 => wakes st s1) st) as Hwk.
  { apply wakeup_wakes; [|auto]. intros j. unfold st, in_pipe. ksimp. set_solver. }
  destruct (proj1 (wp_ok _ _ _) Hwk) as ([] & s1 & Hwe & Hws).
  assert (k_cur s1 = Some i /\ k_held s1 = [Lpipe pi] /\ (i < length (k_procs s1))%nat) as (Hc1 & Hh1 & Hl1).
  { split; [rewrite (wk_rest _ _ Hws); apply Hr|]. split; [rewrite (wk_rest _ _ Hws); reflexivity|].
    rewrite (wk_len _ _ Hws). apply Hr. }
  destruct (sleep_runs i (Cnwrite pi) (Lpipe pi) s1 Hc1 Hl1 Hh1 ltac:(discriminate)) as (k & Hsl & _).
  exists s1, (fun s'' => rbind (k s'') (fun _ => ret (inl a))). split; [exact Hws|].
  unfold write_body. replace (a <? n) with true by lia.
  assert (pipe_at pi st = Ok p' st) as Hpa by (apply wp_eq; apply wp_pipe_at; auto).
  rewrite (bind_ok _ _ _ _ _ Hpa), Ho.
  assert (killed i st = Ok false st) as Hki.
  { apply wp_eq. apply wp_killed; [unfold st, in_pipe; ksimp; set_solver|]. split; [|reflexivity].
    apply (wr_alive _ _ _ _ _ _ _ _ _ Hwr). }
  rewrite (bind_ok _ _ _ _ _ Hki). rewrite pipe_full, Hfull, Nat.eqb_refl by exact Hw'.
  rewrite (bind_ok _ _ _ _ _ Hwe). apply bind_swtch. exact Hsl.
Qed.

(** pipewrite() up to its loop. *)
Lemma write_enter s t pi p i pid addr n bs :
  writer s t pi p i pid addr n bs ->
  pipewrite pi addr n s = (r <- loop (S (Z.to_nat n + waits)) (write_body pi addr n i) 0 ;;
    match r with
    | None => ret (-1)
    | Some i => wakeup (Cnread pi) ;;; release (Lpipe pi) ;;; ret i
    end) (in_pipe pi p (k_mem s) s).
Proof.
  intros [Hr Hp _ _ _ _ _ _ _]. unfold pipewrite.
  assert (curproc s = Ok i s) as Hcp by (apply wp_eq; apply (wp_curproc i); [apply Hr|auto]).
  assert (acquire (Lpipe pi) s = Ok tt (in_pipe pi p (k_mem s) s)) as Hacq.
  { apply wp_eq. apply wp_acquire; [rewrite (ru_held _ _ _ Hr); apply not_elem_of_nil|].
    rewrite (ru_held _ _ _ Hr), (in_pipe_start _ _ _ Hp). auto. }
  rewrite (bind_ok _ _ _ _ _ Hcp), (bind_ok _ _ _ _ _ Hacq). reflexivity.
Qed.

(** ** Theorems *)

(** C21: a write of the bytes [bs] to a pipe that has room for them appends them to
    the pipe's queue, in order, and answers their number; the buffer may end at
    an unmapped address, where the write stops.  When they do not fit, the
    bytes for which there is room are appended, and the writer wakes the
    readers and sleeps until the pipe has been read, with no byte overwritten. *)
Theorem pipewrite_correct s t pi p i pid addr n bs :
  writer s t pi p i pid addr n bs ->
  let room := (Z.to_nat PIPESIZE - length (pipe_queue p))%nat in
  ((length bs < room)%nat \/ Z.of_nat (length bs) = n /\ (length bs <= room)%nat ->
   wp (pipewrite pi addr n) (fun r s' => r = Z.of_nat (length bs) /\ exists p', pipe_wf p' /\
     pipe_queue p' = pipe_queue p ++ bs /\ wakes (with_k_pipes (<[pi := p']> (k_pipes s)) s) s') s) /\
  ((room <= length bs)%nat -> Z.of_nat room < n ->
   exists p' s1 k, pipewrite pi addr n s = Swtch (asleep i (Cnwrite pi) s1) k /\
     wakes (in_pipe pi p' (k_mem s) s) s1 /\ pipe_wf p' /\
     pipe_queue p' = pipe_queue p ++ take room bs).
Proof.
  intros Hwr room. pose proof Hwr as [Hr Hp Hw Ho Hk Hpt (Ha & Hn & Hm) Hb He].
  pose proof (queue_bound p Hw) as Hqb.
  assert (Z.of_nat (length bs) <= n) as Hbn by (destruct He as [|[]]; lia).
  assert (forall m, (m <= room)%nat -> (m <= length bs)%nat -> pipe_wf (pipe_pushes (take m bs) p) /\
    pipe_queue (pipe_pushes (take m bs) p) = pipe_queue p ++ take m bs) as Hpush.
  { intros m Hm1 Hm2. apply pushes_queue; [exact Hw|]. rewrite length_take. lia. }
  split; [intros Hfit|intros Hroom Hlt].
  - destruct (Hpush (length bs) ltac:(lia) ltac:(lia)) as [Hwb Hqb']. rewrite (take_ge bs) in Hwb, Hqb' by lia.
    unfold wp. rewrite (write_enter _ _ _ _ _ _ _ _ _ Hwr). apply wp_bind. unfold wp at 1.
    replace (S (Z.to_nat n + waits)) with (length bs + S (Z.to_nat n + waits - length bs))%nat by lia.
    rewrite (write_fill s t pi p i pid addr n bs) by (try exact Hwr; lia). rewrite take_ge by lia.
    eapply wp_mono; [eapply write_end; [exact Hwr|exact Hwb|by rewrite pushes_open|]|].
    { rewrite Hqb', length_app. lia. }
    cbn beta. intros r s1 [-> ->]. apply (finish _ _ _ _ i pid); [exact Hr|]. intros s' Hs'. split; [reflexivity|]. eauto.
  - destruct (Hpush room ltac:(lia) ltac:(lia)) as [Hwb Hqb'].
    destruct (write_full s t pi p i pid addr n bs (pipe_pushes (take room bs) p) (Z.of_nat room)) as (s1 & k & Hws & Hsw);
      [exact Hwr|exact Hwb|by rewrite pushes_open|exact Hlt| |].
    { rewrite Hqb', length_app, length_take. lia. }
    eexists (pipe_pushes (take room bs) p), s1, _. split; [|split; [exact Hws|split; [exact Hwb|exact Hqb']]].
    rewrite (write_enter _ _ _ _ _ _ _ _ _ Hwr). apply bind_swtch.
    replace (S (Z.to_nat n + waits)) with (room + S (Z.to_nat n + waits - room))%nat by lia.
    rewrite (write_fill s t pi p i pid addr n bs) by (try exact Hwr; lia). cbn [loop]. apply bind_swtch. exact Hsw.
Qed.

(** C22: a read from a pipe that holds bytes, or that has no writer left, answers
    with the first bytes of the queue, as many as there are and were asked for
    (none at the end of the stream), stored in user memory at [addr] and taken
    off the queue.  If it meets an unmapped address it stops there, and the byte
    that could not be stored is lost. *)
Theorem piperead_correct s t pi p i pid addr n :
  running i pid s -> k_pipes s !! pi = Some p -> pipe_wf p ->
  pt_inv (k_mem s) t (p_pagetable (k_procs s !!! i)) -> user_ok (k_mem s) t ->
  0 <= addr -> 0 <= n -> addr + n <= 2 ^ 64 ->
  pipe_queue p <> [] \/ pi_writeopen p = false ->
  wp (piperead pi addr n) (fun r s' => exists m m' p', r = Z.of_nat m /\
    copied s t addr (take m (pipe_queue p)) (with_k_mem m' s) /\ pipe_wf p' /\
    wakes (with_k_pipes (<[pi := p']> (k_pipes s)) (with_k_mem m' s)) s' /\
    (m = Nat.min (length (pipe_queue p)) (Z.to_nat n) /\ pipe_queue p' = drop m (pipe_queue p) \/
     (m < Nat.min (length (pipe_queue p)) (Z.to_nat n))%nat /\ uaddr (k_mem s) t (addr + Z.of_nat m) = None /\
       pipe_queue p' = drop (S m) (pipe_queue p))) s.
Proof.
  intros Hr Hp Hw Hpt Hu Ha Hn Hm Hq. eapply wp_mono; [apply (piperead_spec s t pi p i pid); eassumption|].
  intros r s' (m & m' & k & [L1 L2 -> Hc Hend] & Hwk). exists m, m', (pipe_pops k p).
  destruct (pops_queue k p Hw) as [Hwk' Hqk]; [destruct Hend as [[_ ->]|([? _] & _ & ->)]; lia|].
  split; [reflexivity|]. split; [exact Hc|]. split; [exact Hwk'|]. split; [exact Hwk|]. rewrite Hqk.
  destruct Hend as [[Hm' ->]|([? ?] & ? & ->)]; [left|right]; split; auto; destruct_or?; lia.
Qed.

End ops.

(** ** Witnesses: a pipe whose counters are about to wrap around *)

Definition pipe_abc : pipe :=
  mkPipe (<[510%nat := 97]> (<[511%nat := 98]> (<[0%nat := 99]> (replicate 512 0)))) (2 ^ 32 - 2) 1 true true.

Definition pipe_st (p : pipe) : kernel :=
  with_k_cur (Some 0%nat) (with_k_pipes {[ pg 7 := p ]} (with_k_procs
    [with_p_pid 1 (with_p_pagetable (pg 0) (with_p_state RUNNING proc0))] vm0)).

Lemma pipe_st_running p : running 0 1 (pipe_st p).
Proof. split; try reflexivity. cbn. lia. Qed.

Lemma pipe_abc_queue : pipe_queue pipe_abc = [97; 98; 99].
Proof. vm_compute. reflexivity. Qed.

Lemma pipe_abc_wf : pipe_wf pipe_abc.
Proof. split; cbn; [reflexivity|lia|lia|]. apply Z.leb_le. vm_compute. reflexivity. Qed.

Lemma piperead_correct_witness :
  wp (@piperead 0%nat (pg 7) 16 2) (fun r s' => r = 2) (pipe_st pipe_abc).
Proof.
  eapply wp_mono.
  { apply (@piperead_correct ld0 ld0_ok 0%nat (pipe_st pipe_abc) vm_tbl (pg 7) pipe_abc 0 1 16 2).
    - apply pipe_st_running.
    - apply lookup_singleton_eq.
    - apply pipe_abc_wf.
    - apply vm0_pt.
    - apply vm0_user.
    - lia.
    - lia.
    - lia.
    - left. rewrite pipe_abc_queue. discriminate. }
  cbn beta. intros r s' (m & m' & p' & -> & _ & _ & _ & [[-> _]|(Hm & Hn & _)]); rewrite pipe_abc_queue in *.
  - reflexivity.
  - exfalso. change (k_mem (pipe_st pipe_abc)) with vm_mem in Hn. rewrite vm0_uaddr in Hn.
    rewrite decide_True in Hn; [discriminate|]. cbn [length] in Hm. unfold PGSIZE. lia.
Defined.

Lemma pipewrite_correct_witness :
  wp (@pipewrite 0%nat (pg 7) 4093 10) (fun r s' => r = 3) (pipe_st pipe_abc).
Proof.
  destruct (@pipewrite_correct ld0 ld0_ok 0%nat (pipe_st pipe_abc) vm_tbl (pg 7) pipe_abc 0 1 4093 10
    (load_bytes vm_mem (pg 3 + 4093) 3)) as [Hfit _].
  - split.
    + apply pipe_st_running.
    + apply lookup_singleton_eq.
    + apply pipe_abc_wf.
    + reflexivity.
    + reflexivity.
    + apply vm0_pt.
    + lia.
    + intros j Hj. rewrite load_bytes_length in Hj. change (k_mem (pipe_st pipe_abc)) with vm_mem.
      exists (pg 3 + (4093 + Z.of_nat j)). rewrite vm0_uaddr, decide_True by (unfold PGSIZE; lia).
      split; [reflexivity|]. rewrite load_bytes_total by lia. f_equal. lia.
    + right. rewrite load_bytes_length. split; [lia|]. change (k_mem (pipe_st pipe_abc)) with vm_mem.
      rewrite vm0_uaddr, decide_False by (unfold PGSIZE; lia). reflexivity.
  - rewrite load_bytes_length in Hfit. eapply wp_mono; [apply Hfit; left; rewrite pipe_abc_queue; apply Nat.ltb_lt; reflexivity|].
    cbn beta. intros r s' [-> _]. reflexivity.
Defined.

