(* ===== verification/ConsoleSpec.v ===== *)
(** * The console's line discipline.

    The input buffer refines a line editor with two parts: the bytes a read may
    take, and the line being edited. *)

From S2P Require Import Prelude Exec Params State Mem Vm VmTable VmUser Sched Sleeplock RingBuf Uart Printf Console.

(** ** The abstract line editor *)

Definition erase_bytes : list Z := [8; 32; 8].
Definition typed (c : Z) : Z := if c =? 13 then 10 else c.
Definition ends_line (c : Z) (full : bool) : bool := (c =? 10) || (c =? ctrl_D) || full.

(** The effect of an input character on the ready bytes [q] and the line [l],
    and what is echoed. *)
Definition edit (c : Z) (q l : list Z) : list Z * list Z * list Z :=
  if c =? ctrl_U then (q, [], concat (replicate (length l) erase_bytes))
  else if (c =? ctrl_H) || (c =? 127) then (q, removelast l, match l with [] => [] | _ => erase_bytes end)
  else if (c =? 0) || (INPUT_BUF_SIZE <=? Z.of_nat (length q + length l)) then (q, l, [])
  else
    let l' := l ++ [typed c] in
    if ends_line (typed c) (Z.of_nat (length q + length l') =? INPUT_BUF_SIZE) then (q ++ l', [], [typed c])
    else (q, l', [typed c]).

(** ** The buffer as a line editor *)

Definition ready (cs : cons_t) : list Z := rb_list (2 ^ 32) INPUT_BUF_SIZE (c_buf cs) (c_r cs) (c_w cs).
Definition line (cs : cons_t) : list Z := rb_list (2 ^ 32) INPUT_BUF_SIZE (c_buf cs) (c_w cs) (c_e cs).

Record cons_inv (cs : cons_t) : Prop := {
  ci_buf : length (c_buf cs) = Z.to_nat INPUT_BUF_SIZE;
  ci_r : 0 <= c_r cs < 2 ^ 32;
  ci_w : 0 <= c_w cs < 2 ^ 32;
  ci_e : 0 <= c_e cs < 2 ^ 32;
  ci_len : rb_len (2 ^ 32) (c_r cs) (c_w cs) + rb_len (2 ^ 32) (c_w cs) (c_e cs) <= INPUT_BUF_SIZE;
  ci_line : 10 ∉ line cs;
}.

Lemma ib_pos : 0 < INPUT_BUF_SIZE. Proof. reflexivity. Qed.
Lemma ib_lt : INPUT_BUF_SIZE < 2 ^ 32. Proof. reflexivity. Qed.
Lemma ib_div : (INPUT_BUF_SIZE | 2 ^ 32). Proof. exists (2 ^ 25). reflexivity. Qed.

Lemma ready_length cs : Z.of_nat (length (ready cs)) = rb_len (2 ^ 32) (c_r cs) (c_w cs).
Proof. apply rb_length; [exact ib_pos|exact ib_lt]. Qed.

Lemma line_length cs : Z.of_nat (length (line cs)) = rb_len (2 ^ 32) (c_w cs) (c_e cs).
Proof. apply rb_length; [exact ib_pos|exact ib_lt]. Qed.

(** The whole of the buffer. *)
Lemma cons_whole cs : cons_inv cs ->
  rb_len (2 ^ 32) (c_r cs) (c_e cs) = Z.of_nat (length (ready cs) + length (line cs)) /\
  rb_list (2 ^ 32) INPUT_BUF_SIZE (c_buf cs) (c_r cs) (c_e cs) = ready cs ++ line cs.
Proof.
  intros [A B C D E F]. pose proof ib_lt. pose proof (ready_length cs). pose proof (line_length cs). split.
  - rewrite (rb_len_split _ INPUT_BUF_SIZE ib_pos ib_lt _ (c_w cs)) by lia. lia.
  - apply rb_split; [exact ib_pos|exact ib_lt|exact ib_div|lia].
Qed.

Lemma line_empty cs : cons_inv cs -> (c_e cs =? c_w cs) = bool_decide (line cs = []).
Proof.
  intros [A B C D E F]. pose proof (line_length cs) as Hl. apply eq_bool_prop_intro.
  rewrite !Is_true_true, Z.eqb_eq, bool_decide_eq_true, <- length_zero_iff_nil.
  pose proof (rb_empty _ INPUT_BUF_SIZE ib_pos ib_lt _ _ C D). lia.
Qed.

(** Typing a character. *)
Lemma cons_type cs c : cons_inv cs -> (length (ready cs) + length (line cs) < Z.to_nat INPUT_BUF_SIZE)%nat ->
  let cs' := with_c_e (u32 (c_e cs + 1)) (with_c_buf (zset (c_buf cs) (c_e cs mod INPUT_BUF_SIZE) c) cs) in
  ready cs' = ready cs /\ line cs' = line cs ++ [c] /\
  rb_len (2 ^ 32) (c_r cs') (c_e cs') = Z.of_nat (length (ready cs) + length (line cs ++ [c])) /\
  (10 ≠ c -> cons_inv cs') /\ cons_inv (with_c_w (c_e cs') cs') /\
  ready (with_c_w (c_e cs') cs') = ready cs ++ line cs ++ [c] /\ line (with_c_w (c_e cs') cs') = [].
Proof.
  intros Hi Hroom cs'. destruct (cons_whole cs Hi) as [Hwl Hw]. pose proof Hi as [A B C D E F].
  pose proof (ready_length cs) as Hrl. pose proof (line_length cs) as Hll.
  assert (rb_len (2 ^ 32) (c_w cs) (c_e cs) < INPUT_BUF_SIZE) as Hl1 by lia.
  assert (rb_len (2 ^ 32) (c_r cs) (c_e cs) < INPUT_BUF_SIZE) as Hl2 by lia.
  pose proof (rb_push _ _ ib_pos ib_lt ib_div (c_buf cs) (c_w cs) (c_e cs) c A Hl1) as P1.
  pose proof (rb_push _ _ ib_pos ib_lt ib_div (c_buf cs) (c_r cs) (c_e cs) c A Hl2) as P2.
  pose proof (rb_len_push _ _ ib_pos ib_lt (c_w cs) (c_e cs) Hl1) as L1.
  pose proof (rb_len_push _ _ ib_pos ib_lt (c_r cs) (c_e cs) Hl2) as L2.
  change (rb_list _ _ _ _ _) with (line cs') in P1 at 1. fold (line cs) in P1.
  change (rb_list _ _ (zset _ _ _) _ _) with (ready (with_c_w (c_e cs') cs')) in P2. rewrite Hw in P2.
  assert (ready cs' = ready cs) as Hr.
  { apply (app_inv_tail (line cs')). rewrite P1 at 2. rewrite app_assoc, <- P2. symmetry.
    apply rb_split; [exact ib_pos|exact ib_lt|exact ib_div|]. cbn. unfold u32. pose proof ib_lt. lia. }
  rewrite app_assoc. split_and!; [exact Hr|exact P1| | | |exact P2|].
  - rewrite length_app. cbn -[rb_len]. unfold u32. rewrite L2, Hwl. lia.
  - intros Hc. split; [cbn; by rewrite zset_length|exact B|exact C|apply u32_range| |].
    + cbn -[rb_len]. unfold u32. lia.
    + rewrite P1. rewrite elem_of_app, list_elem_of_singleton. tauto.
  - split; [cbn; by rewrite zset_length|exact B|apply u32_range|apply u32_range| |].
    + cbn -[rb_len]. unfold u32. rewrite L2. unfold rb_len at 2. rewrite Z.sub_diag, Z.mod_0_l by lia. lia.
    + unfold line, rb_list, rb_len. cbn. rewrite Z.sub_diag. apply not_elem_of_nil.
  - unfold line, rb_list, rb_len. cbn. rewrite Z.sub_diag. reflexivity.
Qed.

(** Erasing the last character of the line. *)
Lemma cons_erase cs : cons_inv cs -> line cs <> [] ->
  let cs' := with_c_e (u32 (c_e cs - 1)) cs in
  cons_inv cs' /\ ready cs' = ready cs /\
  line cs = line cs' ++ [zget (c_buf cs) (u32 (c_e cs - 1) mod INPUT_BUF_SIZE)].
Proof.
  intros Hi Hne cs'. pose proof Hi as [A B C D E F]. assert (c_e cs <> c_w cs) as Hew.
  { intros X. pose proof (line_empty cs Hi) as Y. rewrite X, Z.eqb_refl in Y. symmetry in Y. apply bool_decide_eq_true in Y. auto. }
  destruct (rb_unpush _ _ ib_pos ib_lt ib_div (c_buf cs) (c_w cs) (c_e cs) C D Hew) as [L1 P1].
  fold (line cs) in P1. change (rb_list _ _ _ _ _) with (line cs') in P1. split_and!; [|reflexivity|exact P1].
  split; [exact A|exact B|exact C|apply u32_range| |].
  - cbn -[rb_len]. unfold u32. lia.
  - intros Hin. apply F. rewrite P1. set_solver.
Qed.

(** ** consoleintr *)

(** The buffer became [cs'], the bytes [l] were sent, and sleepers were woken. *)
Definition cons_step (l : list Z) (cs' : cons_t) (s s' : kernel) : Prop :=
  u_sent (k_uart s') = u_sent (k_uart s) ++ l /\ wakes (with_k_cons cs' (with_k_uart (k_uart s') s)) s'.

(** The echo with the buffer locked. *)
Lemma cons_erase_step s :
  cons_inv (k_cons s) -> line (k_cons s) <> [] ->
  wp (upd_cons (fun cs => with_c_e (u32 (c_e cs - 1)) cs) ;;; consputc BACKSPACE)
    (fun _ s' => emits erase_bytes (with_k_cons (with_c_e (u32 (c_e (k_cons s) - 1)) (k_cons s)) s) s') s.
Proof. intros Hi Hl. unfold upd_cons. do 2 wp_step. apply consputc_spec. auto. Qed.

Lemma emits_cons l s s' : emits l s s' -> k_cons s' = k_cons s.
Proof. intros E. red in E. rewrite E. reflexivity. Qed.

(** Killing the line erases it character by character. *)
Lemma kill_line_spec s :
  cons_inv (k_cons s) ->
  wp (cs <- get_cons ;;
      loop (S (Z.to_nat (u32 (c_e cs - c_w cs)))) (fun _ : unit =>
        cs <- get_cons ;;
        if negb (c_e cs =? c_w cs) && negb (zget (c_buf cs) (u32 (c_e cs - 1) mod INPUT_BUF_SIZE) =? 10) then
          upd_cons (fun cs => with_c_e (u32 (c_e cs - 1)) cs) ;;;
          consputc BACKSPACE ;;;
          ret (inl tt)
        else ret (inr tt)) tt)
    (fun _ s' => exists cs', cons_inv cs' /\ ready cs' = ready (k_cons s) /\ line cs' = [] /\
      emits (concat (replicate (length (line (k_cons s))) erase_bytes)) (with_k_cons cs' s) s') s.
Proof.
  intros Hi. unfold get_cons. do 2 wp_step.
  apply wp_loop with (n := length (line (k_cons s))) (I := fun n (_ : unit) s1 => exists cs1 k, cons_inv cs1 /\
    ready cs1 = ready (k_cons s) /\ n = length (line cs1) /\ (length (line cs1) + k = length (line (k_cons s)))%nat /\
    emits (concat (replicate k erase_bytes)) (with_k_cons cs1 s) s1).
  - intros n [] s1 (cs1 & k & Hi1 & Hr1 & -> & Hk & He). do 2 wp_step. rewrite (emits_cons _ _ _ He).
    change (k_cons (with_k_cons cs1 s)) with cs1. rewrite line_empty by exact Hi1. case_bool_decide as Hl; cbn [negb andb].
    { wp_steps. exists cs1. rewrite Hl in Hk. cbn in Hk. subst k. auto. }
    destruct (cons_erase cs1 Hi1 Hl) as (Hi2 & Hr2 & Hl2). set (cs2 := with_c_e _ cs1) in *.
    rewrite (proj2 (Z.eqb_neq _ _)).
    2: { intros E. apply (ci_line _ Hi1). rewrite Hl2, E. set_solver. }
    cbn [negb]. unfold upd_cons. do 3 wp_step. apply consputc_spec. intros s2 He2. wp_steps.
    exists (length (line cs2)). rewrite Hl2, length_app in Hk |- *. cbn [length] in *. split; [lia|].
    exists cs2, (S k). split_and!; [exact Hi2|congruence|reflexivity|lia|].
    rewrite (emits_cons _ _ _ He) in He2. change (with_c_e _ (k_cons (with_k_cons cs1 s))) with cs2 in He2.
    replace (S k) with (k + 1)%nat by lia. rewrite replicate_add, concat_app.
    eapply emits_trans; [|cbn [replicate concat]; rewrite app_nil_r; exact He2].
    red in He |- *. rewrite He. reflexivity.
  - exists (k_cons s), 0%nat. split_and!; [exact Hi|reflexivity|reflexivity|lia|]. apply emits_nil.
  - pose proof (line_length (k_cons s)). unfold rb_len, u32 in *. lia.
Qed.

(** Finishing the handler: sleepers woken since [s], and the lock released. *)
Lemma cons_finish s s1 L (Q : unit -> kernel -> Prop) l cs' :
  k_held s = L -> Lcons ∉ L ->
  u_sent (k_uart s1) = u_sent (k_uart s) ++ l ->
  wakes (with_k_cons cs' (with_k_uart (k_uart s1) (with_k_held (Lcons :: L) s))) s1 ->
  (forall s', k_cons s' = cs' -> cons_step l cs' s s' -> Q tt s') -> wp (release Lcons) Q s1.
Proof.
  intros HL Hn Hs Hw HQ. pose proof (wk_rest _ _ Hw) as E. eapply wp_release; [rewrite E; reflexivity|exact Hn|].
  apply HQ; [rewrite E; reflexivity|]. split; [exact Hs|]. destruct Hw as [A B C]. split; [|exact B|exact C].
  rewrite A. rewrite <- HL. reflexivity.
Qed.

Lemma emits_wakes l s cs' s1 :
  emits l (with_k_cons cs' s) s1 ->
  u_sent (k_uart s1) = u_sent (k_uart s) ++ l /\ wakes (with_k_cons cs' (with_k_uart (k_uart s1) s)) s1.
Proof.
  intros E. red in E. split; [rewrite E; reflexivity|].
  replace (with_k_cons cs' (with_k_uart (k_uart s1) s)) with s1; [apply wakes_refl|]. rewrite E at 1. rewrite E. reflexivity.
Qed.

(** An ordinary character. *)
Lemma type_spec c s :
  let s0 := with_k_held (Lcons :: k_held s) s in
  cons_inv (k_cons s0) -> Lcons ∉ k_held s -> no_proc_lock s -> 0 <= c < 256 ->
  wp (cs <- get_cons ;;
     when (negb (c =? 0) && (u32 (c_e cs - c_r cs) <? INPUT_BUF_SIZE))
       (let c := if c =? 13 then 10 else c in
        consputc c ;;;
        upd_cons (fun cs => with_c_e (u32 (c_e cs + 1)) (with_c_buf (zset (c_buf cs) (c_e cs mod INPUT_BUF_SIZE) (u8 c)) cs)) ;;;
        cs <- get_cons ;;
        when ((c =? 10) || (c =? ctrl_D) || (u32 (c_e cs - c_r cs) =? INPUT_BUF_SIZE))
          (upd_cons (fun cs => with_c_w (c_e cs) cs) ;;;
           wakeup Ccons)))
    (fun _ => wp (release Lcons) (fun _ s' => cons_inv (k_cons s') /\ exists echo,
      (let q := ready (k_cons s0) in let l := line (k_cons s0) in
       if (c =? 0) || (INPUT_BUF_SIZE <=? Z.of_nat (length q + length l)) then (q, l, [])
       else
         let l' := l ++ [typed c] in
         if ends_line (typed c) (Z.of_nat (length q + length l') =? INPUT_BUF_SIZE) then (q ++ l', [], [typed c])
         else (q, l', [typed c])) = (ready (k_cons s'), line (k_cons s'), echo) /\
      cons_step echo (k_cons s') s s')) s0.
Proof.
  intros s0 Hi Hh Hnl Hc. unfold get_cons. do 2 wp_step. destruct (cons_whole _ Hi) as [Hwl _].
  change (u32 (c_e ?a - c_r ?a)) with (rb_len (2 ^ 32) (c_r a) (c_e a)). rewrite Hwl.
  set (q := ready (k_cons s0)) in *. set (l := line (k_cons s0)) in *. fold (typed c). cbv zeta.
  replace ((c =? 0) || (INPUT_BUF_SIZE <=? Z.of_nat (length q + length l)))
    with (negb (negb (c =? 0) && (Z.of_nat (length q + length l) <? INPUT_BUF_SIZE)))
    by (rewrite negb_andb, negb_involutive, Z.leb_antisym; reflexivity).
  apply wp_when; intros Hok; rewrite Hok; cbn [negb].
  2: { eapply (cons_finish s s0 _ _ [] (k_cons s)); [reflexivity|exact Hh|by rewrite app_nil_r|apply wakes_refl|].
    intros s' -> Hst. split; [exact Hi|]. eauto. }
  wp_step.
  assert (0 <= typed c < 256) as Htc by (unfold typed; destruct (c =? 13); lia).
  apply consputc_spec. intros s1 He. unfold cons_bytes, BACKSPACE in He.
  rewrite (proj2 (Z.eqb_neq _ _)), u8_id in He by lia. unfold upd_cons. do 4 wp_step.
  pose proof (emits_cons _ _ _ He) as Hk1. ksimp. rewrite Hk1, u8_id by lia.
  destruct (cons_type (k_cons s0) (typed c) Hi) as (T1 & T2 & T3 & T4 & T5 & T6 & T7).
  { fold q l. destruct (proj1 (andb_true_iff _ _) Hok) as [_ Hlt]. apply Z.ltb_lt in Hlt. lia. }
  set (cs' := with_c_e _ (with_c_buf _ _)) in *. fold q l in T1, T2, T3, T6.
  change (u32 (c_e ?a - c_r ?a)) with (rb_len (2 ^ 32) (c_r a) (c_e a)). rewrite T3.
  assert (u_sent (k_uart s1) = u_sent (k_uart s) ++ [typed c] /\ s1 = with_k_uart (k_uart s1) s0) as [Hs1 Hu1].
  { red in He. split; rewrite He; reflexivity. }
  apply wp_when; intros Hend; fold (ends_line (typed c) (Z.of_nat (length q + length (l ++ [typed c])) =? INPUT_BUF_SIZE)) in Hend.
  - unfold upd_cons. do 2 wp_step. apply wakeup_wakes.
    { intros j. ksimp. rewrite Hu1. ksimp. unfold s0. ksimp. set_unfold. intros [?|Hin]; [done|by apply (Hnl j)]. }
    intros s2 Hw2. change (with_c_w _ (k_cons (with_k_cons cs' s1))) with (with_c_w (c_e cs') cs') in Hw2.
    assert (k_uart s2 = k_uart s1) as Hu2 by (rewrite (wk_rest _ _ Hw2); reflexivity).
    eapply (cons_finish s s2 _ _ [typed c] (with_c_w (c_e cs') cs')); [reflexivity|exact Hh|by rewrite Hu2| |].
    { rewrite Hu2. rewrite Hu1 in Hw2. exact Hw2. }
    intros s' -> Hst. split; [exact T5|]. exists [typed c]. rewrite Hend, T6, T7. auto.
  - eapply (cons_finish s _ _ _ [typed c] cs'); [reflexivity|exact Hh|exact Hs1| |].
    { rewrite Hu1. apply wakes_refl. }
    intros s' -> Hst. split; [|exists [typed c]; rewrite Hend, T1, T2; auto].
    apply T4. unfold ends_line in Hend. apply orb_false_iff in Hend as [Hend _]. apply orb_false_iff in Hend as [Hend _]. lia.
Qed.

(** C20: console input refines a line editor.  After any character other than
    control-P, the bytes a read may take and the line being edited are those of
    the editor [edit]: backspace and delete take back the last character of the
    line and nothing that was already committed, control-U takes back the whole
    line, other characters are appended while the buffer has room (carriage
    return as newline), and newline, control-D or a full buffer commit the line
    to the readers.  The echo is the editor's, and only sleepers are woken. *)
Theorem consoleintr_correct c s :
  cons_inv (k_cons s) -> Lcons ∉ k_held s -> no_proc_lock s -> 0 <= c < 256 -> c <> ctrl_P ->
  wp (consoleintr c) (fun _ s' => cons_inv (k_cons s') /\ exists echo,
    edit c (ready (k_cons s)) (line (k_cons s)) = (ready (k_cons s'), line (k_cons s'), echo) /\
    cons_step echo (k_cons s') s s') s.
Proof.
  intros Hi Hh Hnl Hc HP. unfold edit, consoleintr. rewrite (proj2 (Z.eqb_neq _ _) HP).
  wp_step. apply wp_acquire; [exact Hh|]. set (s0 := with_k_held _ s). change (k_cons s) with (k_cons s0) in *. wp_step.
  destruct (c =? ctrl_U) eqn:EU; [|destruct ((c =? ctrl_H) || (c =? 127)) eqn:EH].
  - eapply wp_mono; [apply kill_line_spec; exact Hi|].
    intros [] s1 (cs' & Hi' & Hr' & Hl' & He). destruct (emits_wakes _ _ _ _ He) as [Hs1 Hw1].
    eapply cons_finish; [reflexivity|exact Hh|exact Hs1|exact Hw1|]. intros s' -> Hst. split; [exact Hi'|].
    eexists. split; [rewrite Hr', Hl'; reflexivity|exact Hst].
  - unfold get_cons. do 2 wp_step. rewrite line_empty by exact Hi. case_bool_decide as Hl; cbn [negb when].
    + wp_step. rewrite Hl. eapply (cons_finish s s0 _ _ [] (k_cons s)); [reflexivity|exact Hh|by rewrite app_nil_r|apply wakes_refl|].
      intros s' -> Hst. split; [exact Hi|]. eexists. split; [|exact Hst]. change (line (k_cons s)) with (line (k_cons s0)). rewrite Hl. reflexivity.
    + eapply wp_mono; [apply cons_erase_step; [exact Hi|exact Hl]|]. intros [] s1 He.
      destruct (cons_erase _ Hi Hl) as (Hi2 & Hr2 & Hl2). destruct (emits_wakes _ _ _ _ He) as [Hs1 Hw1].
      eapply cons_finish; [reflexivity|exact Hh|exact Hs1|exact Hw1|]. intros s' -> Hst. split; [exact Hi2|].
      exists erase_bytes. split; [|exact Hst]. rewrite Hr2. destruct (line (k_cons s0)) eqn:E0; [done|].
      rewrite Hl2, removelast_last. reflexivity.
  - apply type_spec; assumption.
Qed.

(** ** consoleread *)

(** What a read of up to [n] bytes takes from the ready bytes: bytes up to and
    including a newline, or up to a control-D, which ends the file if it comes
    first and is otherwise left for the next read.  [None]: it has to wait. *)
Fixpoint read_line (first : bool) (n : nat) (q : list Z) : option (list Z * list Z) :=
  match n with
  | O => Some ([], q)
  | S n' =>
    match q with
    | [] => None
    | c :: q' =>
      if c =? ctrl_D then Some ([], if first then q' else q)
      else if c =? 10 then Some ([10], q')
      else '(bs, rest) ← read_line false n' q'; Some (c :: bs, rest)
    end
  end.

Lemma read_line_length k : forall first q bs rest, read_line first k q = Some (bs, rest) -> (length bs <= k)%nat.
Proof.
  induction k as [|k IH]; intros first [|c q] bs rest; cbn [read_line]; try (intros [= <- _]; simpl; lia).
  destruct (c =? ctrl_D); [intros [= <- _]; simpl; lia|]. destruct (c =? 10); [intros [= <- _]; simpl; lia|].
  destruct (read_line false k q) as [[bs' r']|] eqn:E; [|done]. intros [= <- _]. apply IH in E. cbn [length]. lia.
Qed.

(** Taking a ready byte, and putting it back. *)
Lemma cons_take cs : cons_inv cs -> ready cs <> [] ->
  let cs' := with_c_r (u32 (c_r cs + 1)) cs in
  cons_inv cs' /\ ready cs = zget (c_buf cs) (c_r cs mod INPUT_BUF_SIZE) :: ready cs' /\ line cs' = line cs /\
  with_c_r (u32 (c_r cs' - 1)) cs' = cs.
Proof.
  intros Hi Hne cs'. pose proof Hi as [A B C D E F]. assert (c_w cs <> c_r cs) as Hwr.
  { intros X. apply Hne. unfold ready, rb_list, rb_len. rewrite X, Z.sub_diag. reflexivity. }
  pose proof (rb_len_pop _ INPUT_BUF_SIZE ib_pos ib_lt _ _ B C Hwr) as L1.
  split_and!; [split; [exact A|apply u32_range|exact C|exact D| |exact F]| |reflexivity|].
  - cbn -[rb_len]. unfold u32. lia.
  - apply rb_pop; auto using ib_pos, ib_lt, ib_div.
  - unfold cs', u32. destruct cs as [buf r w e]. unfold with_c_r. cbn in *. f_equal.
    rewrite Zminus_mod_idemp_l. replace (r + 1 - 1) with r by ring. apply Z.mod_small. lia.
Qed.

Lemma ready_empty cs : cons_inv cs -> (c_r cs =? c_w cs) = bool_decide (ready cs = []).
Proof.
  intros [A B C D E F]. pose proof (ready_length cs) as Hl. apply eq_bool_prop_intro.
  rewrite !Is_true_true, Z.eqb_eq, bool_decide_eq_true, <- length_zero_iff_nil.
  pose proof (rb_empty _ INPUT_BUF_SIZE ib_pos ib_lt _ _ B C). split; intros ?; [|symmetry]; lia.
Qed.

Section read.
Context `{LinkerOk} `{Waits}.

(** The state with the console locked, its buffer [cs] and memory [m]. *)
Definition in_cons (cs : cons_t) (m : gmap Z Z) (s : kernel) : kernel :=
  with_k_held [Lcons] (with_k_cons cs (with_k_mem m s)).

(** The body of the outer loop of consoleread(). *)
Definition read_body (target : Z) : Z * Z -> KM (Z * Z + option Z) := fun '(dst, n) =>
  if negb (0 <? n) then ret (inr (Some n)) else
  ready <- loop (S waits) (fun _ : unit =>
    cs <- get_cons ;;
    if c_r cs =? c_w cs then
      i <- curproc ;;
      k <- killed i ;;
      if k then release Lcons ;;; ret (inr false)
      else sleep Ccons Lcons ;;; ret (inl tt)
    else ret (inr true)) tt ;;
  if negb ready then ret (inr None) else
  cs <- get_cons ;;
  let c := zget (c_buf cs) (c_r cs mod INPUT_BUF_SIZE) in
  upd_cons (fun cs => with_c_r (u32 (c_r cs + 1)) cs) ;;;
  if c =? ctrl_D then
    when (u32 n <? target) (upd_cons (fun cs => with_c_r (u32 (c_r cs - 1)) cs)) ;;;
    ret (inr (Some n))
  else
    rc <- either_copyout true dst [c] ;;
    if rc =? -1 then ret (inr (Some n)) else
    if c =? 10 then ret (inr (Some (n - 1)))
    else ret (inl (u64 (dst + 1), n - 1)).

(** What one iteration leaves to do. *)
Record read_inv s t dst N bs rest (va n : Z) cs m : Prop := {
  ri_cons : cons_inv cs;
  ri_line : line cs = line (k_cons s);
  ri_n : 0 <= n <= N;
  ri_go : exists got more, bs = got ++ more /\ n = N - Z.of_nat (length got) /\ va = u64 (dst + Z.of_nat (length got)) /\
    read_line (n =? N) (Z.to_nat n) (ready cs) = Some (more, rest) /\ copied s t dst got (with_k_mem m s);
}.

Definition read_done s t dst N bs rest (n : Z) cs m : Prop :=
  cons_inv cs /\ line cs = line (k_cons s) /\ ready cs = rest /\ n = N - Z.of_nat (length bs) /\ copied s t dst bs (with_k_mem m s).

Lemma read_iter s t i pid dst N bs rest va n cs m :
  running i pid s -> pt_inv (k_mem s) t (p_pagetable (k_procs s !!! i)) -> user_ok (k_mem s) t ->
  0 <= dst -> dst + N < 2 ^ 64 -> N < 2 ^ 31 ->
  (forall j, (j < length bs)%nat -> is_Some (uaddr (k_mem s) t (dst + Z.of_nat j))) ->
  read_inv s t dst N bs rest va n cs m ->
  wp (read_body N (va, n)) (fun r s1 => exists cs' m', s1 = in_cons cs' m' s /\
    match r with
    | inl (va', n') => n' = n - 1 /\ 0 < n /\ read_inv s t dst N bs rest va' n' cs' m'
    | inr r => exists n', r = Some n' /\ read_done s t dst N bs rest n' cs' m'
    end) (in_cons cs m s).
Proof.
  intros Hr Hpt Hu Hd HdN HN Hmap [Hi Hl Hn (got & more & -> & -> & -> & Hgo & Hc)]. unfold read_body.
  set (n := N - Z.of_nat (length got)) in *. destruct (Z.ltb_spec 0 n) as [Hpos|Hz]; cbn [negb].
  2: { wp_steps. exists cs, m. split; [reflexivity|]. replace (Z.to_nat n) with 0%nat in Hgo by lia. cbn in Hgo. simplify_eq.
    rewrite app_nil_r. eexists. split; [reflexivity|]. split_and!; auto. }
  destruct (Z.to_nat n) as [|n'] eqn:En; [lia|]. cbn [read_line] in Hgo. destruct (ready cs) as [|c q'] eqn:Eq; [done|].
  wp_step. apply wp_loop_exit. unfold get_cons. do 2 wp_step. change (k_cons (in_cons cs m s)) with cs.
  rewrite ready_empty, Eq by exact Hi. rewrite bool_decide_false by done. wp_step. cbn [negb]. do 2 wp_step.
  change (k_cons (in_cons cs m s)) with cs. destruct (cons_take cs Hi ltac:(by rewrite Eq)) as (Hi1 & Hq1 & Hl1 & Hback).
  rewrite Eq in Hq1. injection Hq1 as <- Hq1. set (cs1 := with_c_r _ cs) in *. unfold upd_cons. do 2 wp_step.
  change (with_k_cons _ (in_cons cs m s)) with (in_cons cs1 m s).
  destruct (c =? ctrl_D) eqn:ED.
  { injection Hgo as <- <-. rewrite app_nil_r in *. rewrite u32_id by lia. wp_step. destruct (Z.eqb_spec n N) as [EN|EN].
    - replace (n <? N) with false by lia. wp_steps. exists cs1, m. split; [reflexivity|]. eexists. split; [reflexivity|].
      split_and!; (congruence || auto).
    - replace (n <? N) with true by lia. wp_steps. exists cs, m. split; [|eexists; split; [reflexivity|split_and!; auto]].
      unfold in_cons. ksimp. rewrite Hback. reflexivity. }
  unfold either_copyout, proc_at. do 2 wp_step. apply (wp_curproc i); [apply Hr|]. do 2 wp_step.
  change (k_procs (in_cons _ _ s)) with (k_procs s). rewrite u64_id by lia.
  assert (exists more', more = c :: more') as [more' ->].
  { destruct (c =? 10) eqn:E10; [apply Z.eqb_eq in E10; subst c; injection Hgo as <- _; eauto|].
    destruct (read_line false n' q') as [[]|]; [|done]. injection Hgo as <- _. eauto. }
  eapply wp_mono; [apply (copyout_byte s (in_cons cs1 m s) t); [exact Hpt|exact Hu|exact Hc|lia]|].
  intros rc s2 (m2 & -> & [[-> Hc2]|(_ & _ & Hnone)]).
  2: { destruct (Hmap (length got)) as [? Hx]; [rewrite length_app; cbn [length]; lia|congruence]. }
  change (0 =? -1) with false. cbv iota. change (with_k_mem m2 _) with (in_cons cs1 m2 s). destruct (c =? 10) eqn:E10.
  - wp_steps. apply Z.eqb_eq in E10. subst c. injection Hgo as <- <-. exists cs1, m2. split; [reflexivity|]. eexists.
    split; [reflexivity|]. split_and!; auto; try congruence. rewrite length_app. cbn [length]. lia.
  - wp_steps. exists cs1, m2. split; [reflexivity|]. split; [reflexivity|]. split; [exact Hpos|].
    destruct (read_line false n' q') as [[bs' rest']|] eqn:Egl; [|done]. injection Hgo as <- <-.
    split; [exact Hi1|congruence|lia|]. exists (got ++ [c]), bs'. rewrite length_app. cbn [length].
    split; [by rewrite <- app_assoc|]. split; [lia|]. split; [|split; [|exact Hc2]].
    + f_equal. lia.
    + replace (n - 1 =? N) with false by lia. replace (Z.to_nat (n - 1)) with n' by lia. rewrite <- Hq1. exact Egl.
Qed.

(** A read from the console takes what [read_line] says from the ready bytes:
    at most [n], ending after a newline or before a control-D, which ends the
    file when it comes first and is otherwise kept for the next read.  The
    bytes are stored at [dst], their number is the answer, and the line being
    edited is not touched. *)
Theorem consoleread_correct s t i pid dst n bs rest :
  running i pid s -> cons_inv (k_cons s) ->
  pt_inv (k_mem s) t (p_pagetable (k_procs s !!! i)) -> user_ok (k_mem s) t ->
  0 <= dst -> dst + n < 2 ^ 64 -> 0 <= n < 2 ^ 31 ->
  read_line true (Z.to_nat n) (ready (k_cons s)) = Some (bs, rest) ->
  (forall j, (j < length bs)%nat -> is_Some (uaddr (k_mem s) t (dst + Z.of_nat j))) ->
  wp (consoleread true dst n) (fun r s' => r = Z.of_nat (length bs) /\
    cons_inv (k_cons s') /\ ready (k_cons s') = rest /\ line (k_cons s') = line (k_cons s) /\
    copied s t dst bs (with_k_mem (k_mem s') s) /\ s' = with_k_cons (k_cons s') (with_k_mem (k_mem s') s)) s.
Proof.
  intros Hr Hi Hpt Hu Hd HdN HN Hgo Hmap. unfold consoleread. rewrite u32_id by lia. wp_step.
  apply wp_acquire; [rewrite (ru_held _ _ _ Hr); apply not_elem_of_nil|]. rewrite (ru_held _ _ _ Hr).
  change (with_k_held [Lcons] s) with (in_cons (k_cons s) (k_mem s) s). wp_step.
  eapply wp_mono with (P := fun r s1 => exists n' cs' m', r = Some n' /\ s1 = in_cons cs' m' s /\
    read_done s t dst n bs rest n' cs' m').
  - eapply wp_loop with (n := Z.to_nat n) (I := fun k '(va, n1) s1 => k = Z.to_nat n1 /\ exists cs m,
      s1 = in_cons cs m s /\ read_inv s t dst n bs rest va n1 cs m).
    + intros k [va n1] s1 (-> & cs & m & -> & Hinv). eapply wp_mono.
      { apply (read_iter s t i pid dst n bs rest va n1 cs m); assumption || lia. }
      intros [[va' n2]|r] s2 (cs' & m' & -> & Hres).
      * destruct Hres as (-> & Hp & Hinv'). exists (Z.to_nat (n1 - 1)). split; [lia|]. split; [reflexivity|]. eauto.
      * destruct Hres as (n' & -> & Hdone). eauto 10.
    + split; [reflexivity|]. exists (k_cons s), (k_mem s). split; [reflexivity|]. split; [exact Hi|reflexivity|lia|].
      exists [], bs. split; [reflexivity|]. cbn [length]. rewrite Z.add_0_r, u64_id, Z.eqb_refl by lia.
      split; [lia|]. split; [reflexivity|]. split; [exact Hgo|apply copied_nil].
    + lia.
  - cbn beta. intros r s1 (n' & cs' & m' & -> & -> & Hi' & Hl' & Hr' & -> & Hc). wp_step.
    eapply wp_release; [reflexivity|apply not_elem_of_nil|]. wp_steps.
    pose proof (read_line_length _ _ _ _ _ Hgo) as Hlen.
    replace (n - (n - Z.of_nat (length bs))) with (Z.of_nat (length bs)) by lia. rewrite i32_id by lia.
    split_and!; [reflexivity|exact Hi'|exact Hr'|exact Hl'|exact Hc|]. rewrite <- (ru_held _ _ _ Hr). reflexivity.
Qed.
End read.

(** ** Witnesses *)

(** The bytes [ab] and a newline are ready, from index 127 on, and [c] is typed. *)
Definition cons_ab : cons_t :=
  mkCons (<[127%nat := 97]> (<[0%nat := 98]> (<[1%nat := 10]> (<[2%nat := 99]> (replicate 128 0))))) 127 130 131.

Lemma cons_ab_inv : cons_inv cons_ab /\ ready cons_ab = [97; 98; 10] /\ line cons_ab = [99].
Proof.
  assert (ready cons_ab = [97; 98; 10] /\ line cons_ab = [99]) as [Hr Hl] by (split; vm_compute; reflexivity).
  split; [|auto]. split; cbn -[rb_len]; [reflexivity|lia|lia|lia| |rewrite Hl; set_solver].
  apply Z.leb_le. vm_compute. reflexivity.
Qed.

Definition cons_st : kernel :=
  with_k_cur (Some 0%nat) (with_k_cons cons_ab (with_k_procs
    [with_p_pid 1 (with_p_pagetable (pg 0) (with_p_state RUNNING proc0))] vm0)).

Lemma consoleintr_correct_witness :
  wp (consoleintr 127) (fun _ s' => ready (k_cons s') = [97; 98; 10] /\ line (k_cons s') = []) cons_st.
Proof.
  destruct cons_ab_inv as (Hi & Hr & Hl).
  eapply wp_mono; [apply (consoleintr_correct 127 cons_st)|].
  - exact Hi.
  - apply not_elem_of_nil.
  - intros j. apply not_elem_of_nil.
  - lia.
  - discriminate.
  - cbn beta. change (k_cons cons_st) with cons_ab. rewrite Hr, Hl. intros _ s' (_ & e & E & _).
    change (edit 127 [97; 98; 10] [99]) with ([97; 98; 10], @nil Z, erase_bytes) in E.
    injection E as E1 E2 _. split; [exact (eq_sym E1)|exact (eq_sym E2)].
Defined.

Lemma consoleread_correct_witness :
  wp (@consoleread 0%nat true 100 20) (fun r s' => r = 3 /\ ready (k_cons s') = []) cons_st.
Proof.
  destruct cons_ab_inv as (Hi & Hr & Hl).
  eapply wp_mono; [apply (@consoleread_correct ld0 ld0_ok 0%nat cons_st vm_tbl 0%nat 1 100 20 [97; 98; 10] [])|].
  - split; [reflexivity|reflexivity|cbn; lia|reflexivity].
  - exact Hi.
  - exact vm0_pt.
  - exact vm0_user.
  - lia.
  - lia.
  - lia.
  - change (k_cons cons_st) with cons_ab. rewrite Hr. reflexivity.
  - intros j Hj. cbn [length] in Hj. change (k_mem cons_st) with vm_mem. rewrite vm0_uaddr, decide_True by (unfold PGSIZE; lia). eauto.
  - cbn beta. intros r s' (-> & _ & E & _). split; [reflexivity|exact E].
Defined.
