(* ===== verification/File.v ===== *)
(** * file.c, and pipealloc of pipe.c: the file table. *)

From S2P Require Import Prelude Exec Params State Mem Kalloc Vm Sched Sleeplock Bio Log Uart Printf Console Fs Pipe.

Definition file_at (f : nat) : KM file := gets (fun s => k_ftable s !!! f).
Definition upd_file (f : nat) (g : file -> file) : KM unit :=
  modify (fun s => with_k_ftable (alter g f (k_ftable s)) s).

Definition filealloc : KM (option nat) :=
  acquire Lftable ;;;
  r <- findM (seq 0 (Z.to_nat NFILE)) (fun f =>
    x <- file_at f ;;
    if f_ref x =? 0 then
      upd_file f (with_f_ref 1) ;;;
      release Lftable ;;;
      ret (Some f)
    else ret None) ;;
  match r with
  | Some f => ret (Some f)
  | None => release Lftable ;;; ret None
  end.

Definition filedup (f : nat) : KM nat :=
  acquire Lftable ;;;
  x <- file_at f ;;
  if f_ref x <? 1 then panic "filedup" else
  upd_file f (fun x => with_f_ref (i32 (f_ref x + 1)) x) ;;;
  release Lftable ;;;
  ret f.

(** The bytes of a struct stat, padding (4 bytes before [size]) as zeros. *)
Definition stat_bytes (st : stat) : list Z :=
  le_bytes 4 (st_dev st) ++ le_bytes 4 (st_ino st) ++ le_bytes 2 (st_type st) ++ le_bytes 2 (st_nlink st) ++
  le_bytes 4 0 ++ le_bytes 8 (st_size st).

Section file.
Context `{LinkerOk} `{Disk} `{Waits} `{Frame}.

Definition fileclose (f : nat) : KM unit :=
  acquire Lftable ;;;
  x <- file_at f ;;
  if f_ref x <? 1 then panic "fileclose" else
  upd_file f (fun x => with_f_ref (f_ref x - 1) x) ;;;
  ff <- file_at f ;;
  if 0 <? f_ref ff then release Lftable else
  upd_file f (fun x => with_f_type FD_NONE (with_f_ref 0 x)) ;;;
  release Lftable ;;;
  match f_type ff with
  | FD_PIPE => pipeclose (f_pipe ff) (f_writable ff)
  | FD_INODE | FD_DEVICE => begin_op ;;; iput (f_ip ff) ;;; end_op
  | FD_NONE => ret tt
  end.

Definition filestat (f : nat) (addr : Z) : KM Z :=
  i <- curproc ;;
  x <- file_at f ;;
  match f_type x with
  | FD_INODE | FD_DEVICE =>
      ilock (f_ip x) ;;;
      st <- stati (f_ip x) ;;
      iunlock (f_ip x) ;;;
      p <- proc_at i ;;
      r <- copyout (p_pagetable p) addr (stat_bytes st) ;;
      ret (if r <? 0 then -1 else 0)
  | _ => ret (-1)
  end.

(** devsw[major].read and devsw[major].write, when present. *)
Definition devsw_at (major : Z) : KM (option dev) :=
  if (major <? 0) || (NDEV <=? major) then ret None else gets (fun s => zget (k_devsw s) major).

Definition fileread (f : nat) (addr n : Z) : KM Z :=
  x <- file_at f ;;
  if negb (f_readable x) then ret (-1) else
  match f_type x with
  | FD_PIPE => piperead (f_pipe x) addr n
  | FD_DEVICE =>
      d <- devsw_at (f_major x) ;;
      match d with
      | None => ret (-1)
      | Some CONSOLE => consoleread true addr n
      end
  | FD_INODE =>
      ilock (f_ip x) ;;;
      x' <- file_at f ;;
      r <- readi (f_ip x) true addr (f_off x') (u32 n) ;;
      when (0 <? r) (upd_file f (fun x => with_f_off (u32 (f_off x + r)) x)) ;;;
      iunlock (f_ip x) ;;;
      ret r
  | FD_NONE => panic "fileread"
  end.

(** The most a single transaction of filewrite() writes. *)
Definition write_max : Z := ((MAXOPBLOCKS - 1 - 1 - 2) / 2) * BSIZE.

Definition filewrite (f : nat) (addr n : Z) : KM Z :=
  x <- file_at f ;;
  if negb (f_writable x) then ret (-1) else
  match f_type x with
  | FD_PIPE => pipewrite (f_pipe x) addr n
  | FD_DEVICE =>
      d <- devsw_at (f_major x) ;;
      match d with
      | None => ret (-1)
      | Some CONSOLE => consolewrite true addr n
      end
  | FD_INODE =>
      i <- loop (S (Z.to_nat n)) (fun i =>
        if i <? n then
          let n1 := Z.min (n - i) write_max in
          begin_op ;;;
          ilock (f_ip x) ;;;
          x' <- file_at f ;;
          r <- writei (f_ip x) true (u64 (addr + i)) (f_off x') (u32 n1) ;;
          when (0 <? r) (upd_file f (fun x => with_f_off (u32 (f_off x + r)) x)) ;;;
          iunlock (f_ip x) ;;;
          end_op ;;;
          if negb (r =? n1) then ret (inr i) else ret (inl (i + r))
        else ret (inr i)) 0 ;;
      ret (if i =? n then n else -1)
  | FD_NONE => panic "filewrite"
  end.

(** ** pipealloc of pipe.c *)

Definition close_opt (o : option nat) : KM unit :=
  match o with Some f => fileclose f | None => ret tt end.

Definition pipealloc : KM (option (nat * nat)) :=
  f0 <- filealloc ;;
  f1 <- match f0 with None => ret None | Some _ => filealloc end ;;
  pi <- match f1 with None => ret 0 | Some _ => kalloc end ;;
  match f0, f1 with
  | Some r, Some w =>
      if pi =? 0 then fileclose r ;;; fileclose w ;;; ret None else
      modify (fun s => with_k_pipes (<[pi := mkPipe (replicate (Z.to_nat PIPESIZE) 5) 0 0 true true]> (k_pipes s)) s) ;;;
      upd_file r (fun x => with_f_pipe pi (with_f_writable false (with_f_readable true (with_f_type FD_PIPE x)))) ;;;
      upd_file w (fun x => with_f_pipe pi (with_f_writable true (with_f_readable false (with_f_type FD_PIPE x)))) ;;;
      ret (Some (r, w))
  | _, _ => close_opt f0 ;;; close_opt f1 ;;; ret None
  end.
End file.
