(* ===== verification/FsSpec.v ===== *)
(** * fs.c: what the file system promises.

    The theorems about blocks, inodes and file contents, for a process inside
    an operation, and the disk they are witnessed on. *)

From S2P Require Import Prelude Exec Params State Mem Vm VmTable VmUser Sched Sleeplock Bio BioSpec Log LogSpec LogCrash LogOp.
From S2P Require Import RingBuf Uart Printf Console Fs FsBlock FsFile FsInode FsData FsWrite File.

(** ** Blocks *)

Section blocks.
Context `{DiskOk} `{Waits}.
Variables (i : nat) (pid : Z).

(** Balloc() answers the first free block, marks it in use and zeroes it, and
    changes no other bit of the bitmap and no other block; when no block is
    free it answers 0, and no block changes. *)
Theorem balloc_correct W s :
  let sb := k_sb s in
  fop i pid W [] s -> room W 2 0 s -> fs_geom sb (k_log s) -> free_ok sb (k_log s) (content s) ->
  wp (balloc ROOTDEV) (fun b s' =>
    (0 < b < sb_size sb /\ used sb (content s) b = false /\ (forall b', 0 <= b' < b -> used sb (content s) b' = true) /\
     content s' b = replicate (Z.to_nat BSIZE) 0 /\
     (forall b', 0 <= b' < sb_size sb -> used sb (content s') b' = if decide (b' = b) then true else used sb (content s) b') /\
     (forall m, m <> b -> m <> BBLOCK b sb -> content s' m = content s m) \/
     b = 0 /\ (forall b', 0 <= b' < sb_size sb -> used sb (content s) b' = true) /\ forall m, content s' m = content s m)) s.
Proof.
  intros sb Hf Hr G Hfree. pose proof (fop_length i pid W [] s) as Hlen.
  apply (balloc_spec i pid W [] s); [exact Hf|exact Hr|exact G|exact Hfree|by intros n Hn%elem_of_nil| |].
  - intros b s' Hff Hf' Hc Hfr Ho. left. pose proof Hff as (Hb & Hu & Hbef). destruct (Hfree b Hb Hu) as (Hpos & _ & _).
    split_and!; [exact Hpos|exact (proj2 Hb)|exact Hu|exact Hbef|rewrite Hc; apply take_new| |].
    + intros b' Hb'. rewrite (used_ext _ _ _ _ Hc). apply (take_used sb (k_log s)); auto.
    + intros m H1' H2. rewrite Hc. by apply take_other.
  - intros s' Hall Hf' Hc Hfr Ho. right. auto.
Qed.

(** Bfree() of a block in use clears its bit and changes nothing else; of a
    free block it panics. *)
Theorem bfree_correct W s b :
  let sb := k_sb s in
  fop i pid W [] s -> room W 0 0 s -> fs_geom sb (k_log s) -> 0 <= b < sb_size sb -> BBLOCK b sb ∈ W ->
  (used sb (content s) b = true ->
   wp (bfree ROOTDEV b) (fun _ s' =>
     (forall b', 0 <= b' < sb_size sb -> used sb (content s') b' = if decide (b' = b) then false else used sb (content s) b') /\
     forall m, m <> BBLOCK b sb -> content s' m = content s m) s) /\
  (used sb (content s) b = false -> bfree ROOTDEV b s = Panic "freeing free block").
Proof.
  intros sb Hf Hr G Hb HW. pose proof (fop_length i pid W [] s) as Hlen. split; intros Hu.
  - apply (bfree_spec i pid W [] s b); [exact Hf|exact Hr|exact G|exact Hb|exact Hu|exact HW|apply not_elem_of_nil|].
    intros s' Hf' Hc Hfr Ho. split.
    + intros b' Hb'. rewrite (used_ext _ _ _ _ Hc). apply (bit_change sb (k_log s) (content s) b b' false G Hb Hb'). auto.
    + intros m Hm. rewrite Hc. unfold put_block. cbn [fst snd]. by rewrite decide_False.
  - unfold bfree. rewrite (bind_ok get_sb _ sb s s eq_refl).
    assert (wp (bread ROOTDEV (BBLOCK b sb)) (fun bp s1 => data_of bp s1 = Ok (content s (BBLOCK b sb)) s1) s) as Hrd.
    { apply (fop_bread i pid W [] s); [exact Hf|exact Hr|apply not_elem_of_nil|]. intros bp s1 Hf1 Hc1 _ _. apply wp_eq.
      apply (fop_data i pid W [(bp, BBLOCK b sb)] s1 bp (BBLOCK b sb)); [exact Hf1|by left|]. by rewrite Hc1. }
    destruct (proj1 (wp_ok _ _ _) Hrd) as (bp & s1 & Er & Ed). rewrite (bind_ok _ _ _ _ _ Er). cbv zeta. rewrite (bind_ok _ _ _ _ _ Ed).
    assert (bit_mask (b mod BPB) = bit_mask b) as -> by (unfold bit_mask; f_equal; rewrite bpb_eq; dlia).
    unfold bit_mask. pose proof (Z.mod_pos_bound b 8 ltac:(lia)). rewrite bit_test by lia. unfold used in Hu. by rewrite Hu.
Qed.
End blocks.

(** ** Files *)

Section files.
Context `{LinkerOk} `{DiskOk} `{Waits}.
Variables (i : nat) (pid : Z) (ip : nat) (lg : log) (sb : superblock).

(** Readi() of a file without holes answers the number of bytes there are
    between [off] and the end of the file, at most [n], and stores exactly those
    bytes of the file at [dst]; nothing on the disk changes.  It answers -1
    only if a user address of the destination is not mapped. *)
Theorem readi_correct W s t ud dst off n :
  file_st i pid ip lg sb W s -> room W 0 1 s -> no_holes ip s -> dst_ok t ud i s ->
  0 <= off -> 0 <= n < 2 ^ 31 -> off + n < 2 ^ 32 -> 0 <= dst -> dst + n < 2 ^ 64 ->
  let len := if isize ip s <? off then 0 else Z.min n (isize ip s - off) in
  wp (readi ip ud dst off n) (fun r s' => exists m',
    (r = len /\ stored t ud s dst (file_bytes (content s) (addrs ip s) off len) m' \/
     r = -1 /\ ud = true /\ exists j, Z.of_nat j < len /\ uaddr (k_mem s) t (dst + Z.of_nat j) = None) /\
    fs_frame (with_k_mem m' s) s' /\ forall m, content s' m = content s m) s.
Proof.
  intros Hs Hr Hnh Hd Ho Hn Hon Hd0 Hd1 len. apply (readi_spec i pid ip lg sb W s t); auto.
  intros r s' m' Hf Hc Hfr Hop Hres. exists m'. auto.
Qed.


(** C8: reading back what was written: after a writei() that wrote all of [bs], a
    readi() at the same offset into kernel memory answers their number, and
    they are what it stored. *)
Theorem write_read_roundtrip W s t us src off bs dst :
  let n := Z.of_nat (length bs) in let ib := IBLOCK (i_inum (k_itable s !!! ip)) sb in
  sb_size sb <= BPB ->
  file_st i pid ip lg sb W s -> no_holes ip s -> room W (Z.to_nat (nblocks off n) + 9) 1 s -> inode_ok (k_itable s !!! ip) ->
  data_block sb lg (content s) ib -> (forall k, 0 <= k <= MAXFILE -> owned (content s) (addrs ip s) k <> ib) ->
  0 <= off <= isize ip s -> off + n <= MAXFILE * BSIZE -> source t us i s src bs -> 0 <= src -> src + n < 2 ^ 64 ->
  0 <= dst -> dst + n < 2 ^ 64 ->
  wp (w <- writei ip us src off n ;; r <- (if w =? n then readi ip false dst off n else ret (-1)) ;; ret (w, r))
    (fun '(w, r) s' => w = n /\ r = n /\ load_bytes (k_mem s') dst (length bs) = bs \/
       w < n /\ forall b, 0 <= b < sb_size sb -> used sb (content s') b = true) s.
Proof.
  intros n ib H1b Hs Hnh Hr Hin Hib Hno Hoff Hmax Hsrc Hs0 Hs1 Hd0 Hd1.
  wp_step. apply (writei_spec i pid ip lg sb W s off bs H1b t us src); auto. fold n. intros tot W' s1 Htot Hw _ Hend. wp_step.
  destruct (Z.eqb_spec tot n) as [->|Hne]; [|wp_steps; right; split; [lia|destruct Hend; [done|assumption]]].
  pose proof Hw as [A B C D E _ _ _ _ G]. rewrite maxfile_eq, bsize_eq in Hmax.
  assert (read_len ip s1 off n = n) as Hlen.
  { unfold read_len. rewrite D. rewrite (proj2 (Z.ltb_ge _ _)) by lia. lia. }
  apply (readi_spec i pid ip lg sb W' s1 ∅ false dst off n); auto; try lia.
  - apply (room_op _ _ _ s); [|exact G]. fold n in B. unfold room in *. assert (0 <= nblocks off n) by (unfold nblocks; rewrite bsize_eq; unfold n; dlia). lia.
  - by intros ?.
  - rewrite Hlen. intros r s2 m' Hf2 Hc2 Hfr2 Ho2 [[-> Hst]|(_ & ? & _)]; [|done]. wp_steps. left. split; [reflexivity|]. split; [reflexivity|].
    assert (k_mem s2 = m') as -> by (rewrite (fs_frame_eq _ _ Hfr2); reflexivity). unfold stored in Hst. subst m'.
    assert (file_bytes (content s1) (addrs ip s1) off n = bs) as ->; [|by apply load_store_same].
    apply list_eq_same_length with (length bs); [reflexivity|pose proof (file_bytes_length (content s1) (addrs ip s1) off n ltac:(lia)); lia|].
    intros j x y Hj Hx Hy. unfold file_bytes in Hx. apply list_lookup_fmap_Some in Hx as (k & -> & Hk). apply lookup_seqZ in Hk as [-> Hk].
    rewrite E by lia. rewrite decide_True by lia. apply list_lookup_total_correct in Hy. rewrite <- Hy. f_equal. lia.
Qed.

End files.

(** ** A disk with one file

    2000 blocks of which the first 48 are in use; block 32 is the first one of the
    inodes and holds [ib], the blocks 46 and 47 belong to a file, and block 46 holds
    [d].  Process 0 is inside an operation. *)
Definition sb0 : superblock := mkSuperblock FSMAGIC 2000 1954 200 30 2 32 45.
Definition bitmap0 : list Z := replicate 6 255 ++ replicate 1018 0.

Lemma fs1_bblock b : 0 <= b < 2000 -> BBLOCK b sb0 = 45.
Proof. intros Hb. unfold BBLOCK. rewrite bpb_eq. rewrite Z.div_small by lia. reflexivity. Qed.

Section disk.
Variables (T : list inode) (d ib : list Z).
Hypothesis Hd : length d = Z.to_nat BSIZE.
Hypothesis Hib : length ib = Z.to_nat BSIZE.

Definition disk1 : gmap Z (list Z) := {[ 32 := ib; 45 := bitmap0; 46 := d; 47 := blk 8 ]}.
Definition fs1 : kernel :=
  with_k_itable T (with_k_sb sb0 (with_k_log (mkLog 2 30 1 false ROOTDEV 0 (replicate 30 0)) (with_k_disk disk1 bio0))).

Lemma disk1_length n x : disk1 !! n = Some x -> length x = Z.to_nat BSIZE.
Proof.
  unfold disk1. intros [[_ <-]|[_ [[_ <-]|[_ [[_ <-]|[_ [_ <-]%lookup_singleton_Some]]%lookup_insert_Some]]%lookup_insert_Some]]%lookup_insert_Some;
    [exact Hib|reflexivity|exact Hd|reflexivity].
Qed.

Lemma fs1_cache : cache 0 1 [] [] fs1.
Proof.
  assert (cache 0 1 [] [] (with_k_disk disk1 bio0)) as Hc.
  { apply cache_new_disk; [exact bio0_cache| |exact disk1_length].
    intros j bf Hj Hd'. destruct (proj2 (proj2 bio0_inv) j bf Hj) as (_ & _ & Hd0). rewrite Hd0 in Hd'. discriminate. }
  destruct (ca_inv _ _ _ _ _ Hc) as [l Hi]. eapply (cache_frame _ _ _ _ (with_k_disk disk1 bio0)); [exact Hc| | |reflexivity].
  - apply (bcache_inv_frame (with_k_disk disk1 bio0)); [exact Hi|reflexivity..].
  - apply (running_frame _ _ (with_k_disk disk1 bio0)); [exact (ca_run _ _ _ _ _ Hc)|reflexivity..].
Qed.

Lemma fs1_content n : content fs1 n = default (replicate (Z.to_nat BSIZE) 0) (disk1 !! n).
Proof. apply (cache_clean 0 1 [] fs1 n fs1_cache). apply not_elem_of_nil. Qed.

Lemma fs1_fop : fop 0 1 ∅ [] fs1.
Proof.
  split; [exists []; split_and!|change (1 <= 1); lia].
  - split; [exact fs1_cache|split; cbn; [reflexivity|lia|unfold LOGSIZE, MAXOPBLOCKS; lia|lia|lia]|reflexivity..| |reflexivity].
    change (lh_n (read_hdr (k_log fs1) (default (replicate (Z.to_nat BSIZE) 0) (disk1 !! 2))) = 0). vm_compute. reflexivity.
  - constructor.
  - by intros m Hm%elem_of_nil.
  - by intros b n Hm%elem_of_nil.
Qed.

Lemma fs1_used b : 0 <= b < 2000 -> used sb0 (content fs1) b = (b <? 48).
Proof.
  intros Hb. unfold used. rewrite fs1_bblock by exact Hb. rewrite fs1_content. change (default _ (disk1 !! 45)) with bitmap0.
  assert (forallb (fun b => Bool.eqb (Z.testbit (zget bitmap0 (b mod BPB / 8)) (b mod 8)) (b <? 48)) (seqZ 0 2000) = true) as E
    by (vm_compute; reflexivity).
  rewrite forallb_forall in E. apply Bool.eqb_prop, E, list_elem_of_In, elem_of_seqZ. lia.
Qed.

Lemma fs1_geom : fs_geom sb0 (k_log fs1).
Proof.
  split; [cbn; lia|cbn; rewrite bpb_eq; dlia|]. intros b Hb. rewrite fs1_bblock by exact Hb. unfold home. cbn. lia.
Qed.

Lemma fs1_free : free_ok sb0 (k_log fs1) (content fs1).
Proof.
  intros b Hb Hu. rewrite fs1_used in Hu by exact Hb. apply Z.ltb_ge in Hu. split_and!; [lia|unfold home; cbn; lia|].
  intros b' Hb'. rewrite fs1_bblock by exact Hb'. lia.
Qed.

Lemma fs1_data n : 32 <= n < 48 -> n <> 45 -> data_block sb0 (k_log fs1) (content fs1) n.
Proof.
  intros Hn Hne. split; [cbn; lia|rewrite fs1_used by lia; apply Z.ltb_lt; lia|unfold home; cbn; lia|].
  intros b Hb. rewrite fs1_bblock by exact Hb. exact Hne.
Qed.

Lemma fs1_room j k : (j < 20)%nat -> (j + k < 30)%nat -> room ∅ j k fs1.
Proof.
  intros Hj Hk. unfold room. rewrite size_empty. change LOGSIZE with 30. change HEAD with 30%nat. change (l_size (k_log fs1)) with 30. lia.
Qed.

(** The inode in slot 0 has the blocks 46 and 47. *)
Section inode.
Variable I0 : inode.
Hypothesis HI : head T = Some I0.
Hypothesis Ha : i_addrs I0 = [46; 47] ++ replicate 11 0.

Lemma fs1_inode : k_itable fs1 !!! 0%nat = I0.
Proof. cbn. destruct T; [discriminate|]. by injection HI as ->. Qed.

Lemma fs1_owned k : 0 <= k <= MAXFILE -> owned (content fs1) (addrs 0 fs1) k = if k =? 0 then 46 else if k =? 1 then 47 else 0.
Proof.
  intros Hk. unfold owned, baddr, addrs. rewrite fs1_inode, Ha. set (a := [46; 47] ++ replicate 11 0). change (zget a NDIRECT) with 0.
  rewrite maxfile_eq in *. rewrite ndirect_eq. change (0 =? 0) with true. destruct (Z.eqb_spec k 268) as [->|]; [reflexivity|].
  destruct (Z.ltb_spec k 12); [|by rewrite !(proj2 (Z.eqb_neq _ _)) by lia].
  assert (k ∈ seqZ 0 12) as Hin by (apply elem_of_seqZ; lia). revert Hin. change (seqZ 0 12) with [0;1;2;3;4;5;6;7;8;9;10;11].
  rewrite !elem_of_cons, elem_of_nil. intros Hin. destruct_or!; subst; reflexivity.
Qed.

Lemma fs1_file : i_dev I0 = ROOTDEV -> file_st 0 1 0 (k_log fs1) sb0 ∅ fs1.
Proof.
  intros Hdev. split; [exact fs1_fop| |by rewrite fs1_inode|reflexivity|split; reflexivity|exact fs1_geom|exact fs1_free|].
  - cbn. destruct T; [discriminate|cbn; lia].
  - split; [unfold addrs; by rewrite fs1_inode, Ha| |].
    + intros k Hk. rewrite fs1_owned by exact Hk. destruct (k =? 0); [intros _; apply fs1_data; lia|].
      destruct (k =? 1); [intros _; apply fs1_data; lia|done].
    + intros j k Hj Hk. rewrite !fs1_owned by assumption. destruct (Z.eqb_spec j 0), (Z.eqb_spec k 0), (Z.eqb_spec j 1), (Z.eqb_spec k 1); lia.
Qed.

Lemma fs1_no_holes : 0 <= i_size I0 <= 2048 -> no_holes 0 fs1.
Proof.
  intros Hz. unfold no_holes, isize, addrs. rewrite fs1_inode, Ha. rewrite maxfile_eq, bsize_eq. split; [lia|]. intros bn Hb Hs.
  assert (bn = 0 \/ bn = 1) as [-> | ->] by lia; discriminate.
Qed.

Lemma fs1_ib k : 0 <= k <= MAXFILE -> owned (content fs1) (addrs 0 fs1) k <> 32.
Proof. intros Hk. rewrite fs1_owned by exact Hk. destruct (k =? 0), (k =? 1); lia. Qed.
End inode.
End disk.

(** Inode 5 is a file of 1500 bytes. *)
Definition inode0 : inode := mkInode ROOTDEV 5 1 inhabitant true T_FILE 0 0 1 1500 ([46; 47] ++ replicate 11 0).
Definition disk0 : gmap Z (list Z) := disk1 (blk 7) zeros.
Definition fs0 : kernel := fs1 [inode0] (blk 7) zeros.

Lemma fs0_fop : fop 0 1 ∅ [] fs0. Proof. by apply fs1_fop. Qed.
Lemma fs0_content n : content fs0 n = default (replicate (Z.to_nat BSIZE) 0) (disk0 !! n). Proof. by apply fs1_content. Qed.
Lemma fs0_used b : 0 <= b < 2000 -> used sb0 (content fs0) b = (b <? 48). Proof. by apply fs1_used. Qed.
Lemma fs0_geom : fs_geom sb0 (k_log fs0). Proof. by apply (fs1_geom [inode0] (blk 7) zeros). Qed.
Lemma fs0_free : free_ok sb0 (k_log fs0) (content fs0). Proof. by apply fs1_free. Qed.
Lemma fs0_file : file_st 0 1 0 (k_log fs0) sb0 ∅ fs0. Proof. by apply (fs1_file [inode0] (blk 7) zeros eq_refl eq_refl inode0). Qed.
Lemma fs0_no_holes : no_holes 0 fs0. Proof. by apply (fs1_no_holes [inode0] (blk 7) zeros eq_refl eq_refl inode0). Qed.
Lemma fs0_room j k : (j < 20)%nat -> (j + k < 30)%nat -> room ∅ j k fs0. Proof. by apply (fs1_room [inode0] (blk 7) zeros). Qed.

Lemma fs0_inode : inode_ok (k_itable fs0 !!! 0%nat).
Proof. split; cbn; try (unfold T_FILE; lia). split; [reflexivity|]. repeat (apply Forall_cons; split; [lia|]). constructor. Qed.

Lemma fs0_ib k : 0 <= k <= MAXFILE -> owned (content fs0) (addrs 0 fs0) k <> IBLOCK 5 sb0. Proof. by apply (fs1_ib [inode0] (blk 7) zeros eq_refl eq_refl inode0). Qed.
Lemma fs0_inode_block : data_block sb0 (k_log fs0) (content fs0) (IBLOCK 5 sb0). Proof. by apply fs1_data. Qed.

Lemma fs0_bytes off n : file_bytes (content fs0) (addrs 0 fs0) off n =
  file_bytes (fun n => default (replicate (Z.to_nat BSIZE) 0) (disk0 !! n)) (i_addrs inode0) off n.
Proof.
  unfold file_bytes. apply list_fmap_ext. intros _ k _. unfold file_byte. rewrite fs0_content. do 2 f_equal.
Qed.

(** ** The theorems at work on it *)

Lemma balloc_correct_witness : wp (@balloc sync_disk 1%nat ROOTDEV) (fun b s' => b = 48 /\ used sb0 (content s') 48 = true) fs0.
Proof.
  eapply wp_mono; [apply (@balloc_correct sync_disk sync_disk_ok 1%nat 0 1 ∅ fs0 fs0_fop)|].
  - apply fs0_room; lia.
  - exact fs0_geom.
  - exact fs0_free.
  - cbn beta. change (k_sb fs0) with sb0. change (sb_size sb0) with 2000. intros b s' [(Hb & Hu & Hbef & _ & Hus & _)|(_ & Hall & _)].
    + rewrite fs0_used in Hu by lia. apply Z.ltb_ge in Hu.
      assert (b = 48) as ->; [|split; [reflexivity|rewrite Hus by lia; reflexivity]].
      destruct (Z.eq_dec b 48) as [|Hne]; [done|]. specialize (Hbef 48 ltac:(lia)). rewrite fs0_used in Hbef by lia. discriminate.
    + specialize (Hall 48 ltac:(lia)). rewrite fs0_used in Hall by lia. discriminate.
Defined.

Lemma bfree_correct_witness :
  wp (@bfree sync_disk 1%nat ROOTDEV 47) (fun _ s' => used sb0 (content s') 47 = false /\ used sb0 (content s') 46 = true) fs0 /\
  @bfree sync_disk 1%nat ROOTDEV 48 fs0 = Panic "freeing free block".
Proof.
  assert (fop 0 1 {[45]} [] fs0) as Hf by (eapply fop_weaken; [exact fs0_fop|clear; set_solver]).
  assert (room {[45]} 0 0 fs0) as Hr.
  { unfold room. rewrite size_singleton. change LOGSIZE with 30. change HEAD with 30%nat. change (l_size (k_log fs0)) with 30. lia. }
  assert (forall b, 0 <= b < 2000 -> 0 <= b < sb_size (k_sb fs0) /\ BBLOCK b (k_sb fs0) ∈ ({[45]} : gset Z)) as HW.
  { intros b Hb. split; [exact Hb|]. change (k_sb fs0) with sb0. rewrite fs1_bblock by exact Hb. by apply elem_of_singleton. }
  destruct (HW 47) as [H47 HW47]; [lia|]. destruct (HW 48) as [H48 HW48]; [lia|].
  destruct (@bfree_correct sync_disk sync_disk_ok 1%nat 0 1 {[45]} fs0 47 Hf Hr fs0_geom H47 HW47) as [Hin _].
  destruct (@bfree_correct sync_disk sync_disk_ok 1%nat 0 1 {[45]} fs0 48 Hf Hr fs0_geom H48 HW48) as [_ Hout].
  change (k_sb fs0) with sb0 in *. change (sb_size sb0) with 2000 in *. split.
  - eapply wp_mono; [exact (Hin (fs0_used 47 H47))|]. cbn beta. intros _ s' [Hu _]. rewrite !Hu by lia. rewrite fs0_used by lia. split; reflexivity.
  - exact (Hout (fs0_used 48 H48)).
Defined.

Lemma readi_correct_witness :
  wp (@readi sync_disk 1%nat 0 false 5000 1020 600)
     (fun r s' => r = 480 /\ load_bytes (k_mem s') 5000 480 = replicate 4 7 ++ replicate 476 8) fs0.
Proof.
  eapply wp_mono; [apply (@readi_correct ld0 ld0_ok sync_disk sync_disk_ok 1%nat 0 1 0 (k_log fs0) sb0 ∅ fs0 ∅ false 5000 1020 600 fs0_file)|].
  - apply fs0_room; lia.
  - exact fs0_no_holes.
  - intros ?. discriminate.
  - lia.
  - lia.
  - lia.
  - lia.
  - lia.
  - cbn beta. change (isize 0 fs0) with 1500. change (1500 <? 1020) with false. change (Z.min 600 (1500 - 1020)) with 480. cbv iota zeta.
    assert (file_bytes (content fs0) (addrs 0 fs0) 1020 480 = replicate 4 7 ++ replicate 476 8) as ->.
    { rewrite fs0_bytes. vm_compute. reflexivity. }
    intros r s' (m' & [[-> Hst]|(_ & ? & _)] & Hf & _); [|discriminate]. split; [reflexivity|]. 
    rewrite (fs_frame_eq _ _ Hf). unfold stored in Hst. rewrite Hst. by apply load_store_same.
Defined.

(** A thousand bytes of zeroes, which cross the end of the file. *)
Definition zeros0 : list Z := replicate 1000 0.

Lemma fs0_source : @source ld0 ∅ false 0 fs0 9000 zeros0.
Proof.
  unfold source. change (k_mem fs0) with (k_mem bio0). rewrite (proj1 (proj2 bio0_inv)). vm_compute. reflexivity.
Qed.


Lemma write_read_roundtrip_witness :
  wp (w <- @writei sync_disk 1%nat 0 false 9000 1200 1000 ;;
      r <- (if w =? 1000 then @readi sync_disk 1%nat 0 false 20000 1200 1000 else ret (-1)) ;; ret (w, r))
    (fun '(w, r) s' => w = 1000 /\ r = 1000 /\ load_bytes (k_mem s') 20000 1000 = zeros0 \/
       w < 1000 /\ used sb0 (content s') 1999 = true) fs0.
Proof.
  eapply wp_mono; [apply (@write_read_roundtrip ld0 ld0_ok sync_disk sync_disk_ok 1%nat 0 1 0 (k_log fs0) sb0 ∅ fs0 ∅ false 9000 1200 zeros0 20000)|].
  - cbn. rewrite bpb_eq. lia.
  - exact fs0_file.
  - exact fs0_no_holes.
  - apply fs0_room; vm_compute; lia.
  - exact fs0_inode.
  - exact fs0_inode_block.
  - exact fs0_ib.
  - cbn. lia.
  - rewrite maxfile_eq, bsize_eq. cbn. lia.
  - exact fs0_source.
  - lia.
  - cbn. lia.
  - lia.
  - cbn. lia.
  - intros [w r] s' [Hr|[Hw Hall]]; [left; exact Hr|right; split; [exact Hw|apply Hall; cbn; lia]].
Defined.

