(* ===== verification/FsDir.v ===== *)
(** * fs.c: directories.

    A directory is a file of 16-byte entries: an inode number, 0 for an unused
    entry, and a name of at most DIRSIZ bytes.  The entries stand for a finite
    map from names to inode numbers: dirlookup() is lookup in that map, and
    dirlink() adds to it. *)

From S2P Require Import Prelude Exec Params State Mem Vm VmTable VmUser Sched Sleeplock Bio BioSpec Log LogSpec LogCrash LogOp.
From S2P Require Import RingBuf Uart Printf Console Fs FsBlock FsFile FsInode FsData FsWrite File FsSpec.

(** ** The entries and the map *)

Lemma dirent_size_eq : DIRENT_SIZE = 16. Proof. reflexivity. Qed.
Lemma dirsiz_eq : DIRSIZ = 14. Proof. reflexivity. Qed.

(** The entry in 16 bytes: the inode number and the name. *)
Definition dent_of (bs : list Z) : Z * list Z := (le_val (take 2 bs), Mem.cstr (Z.to_nat DIRSIZ) (drop 2 bs)).

Definition dents (c : Z -> list Z) (a : list Z) (size : Z) : list (Z * list Z) :=
  (fun k => dent_of (file_bytes c a (DIRENT_SIZE * k) DIRENT_SIZE)) <$> seqZ 0 (size / DIRENT_SIZE).

(** The entry is in use, and has the name [nm]. *)
Definition named (nm : list Z) (e : Z * list Z) : Prop := e.1 <> 0 /\ e.2 = nm.
#[export] Instance named_dec nm e : Decision (named nm e) := _.

Definition dir_map (es : list (Z * list Z)) : gmap (list Z) Z := list_to_map ((fun e => (e.2, e.1)) <$> filter (fun e => e.1 <> 0) es).

Lemma dir_map_cons e es : dir_map (e :: es) = if decide (e.1 <> 0) then <[e.2 := e.1]> (dir_map es) else dir_map es.
Proof. unfold dir_map. rewrite filter_cons. by destruct (decide _). Qed.

(** The first entry with the name counts. *)
Lemma dir_map_lookup es nm : dir_map es !! nm = (fun x => x.2.1) <$> list_find (named nm) es.
Proof.
  induction es as [|e es IH]; [reflexivity|]. rewrite dir_map_cons. cbn [list_find]. unfold named at 1. destruct (decide (e.1 <> 0)) as [Hl|Hl].
  - destruct (decide (e.2 = nm)) as [<-|Hne].
    + rewrite lookup_insert_eq, decide_True by done. reflexivity.
    + rewrite lookup_insert_ne by exact Hne. rewrite decide_False by (intros [_ ?]; done). rewrite IH. by destruct (list_find _ es) as [[]|].
  - rewrite decide_False by (intros [? _]; done). rewrite IH. by destruct (list_find _ es) as [[]|].
Qed.

(** Entry [k], or a new one at the end, becomes [e]. *)
Definition put_dent (k : nat) (e : Z * list Z) (es : list (Z * list Z)) : list (Z * list Z) := take k es ++ e :: drop (S k) es.

Lemma dir_map_put k e es : e.1 <> 0 -> dir_map es !! e.2 = None -> (forall x, es !! k = Some x -> x.1 = 0) ->
  dir_map (put_dent k e es) = <[e.2 := e.1]> (dir_map es).
Proof.
  intros He. unfold put_dent. revert k. induction es as [|x es IH]; intros k Hn Hk.
  - rewrite take_nil, drop_nil. cbn [app]. rewrite dir_map_cons. by rewrite decide_True.
  - destruct k as [|k]; cbn [take drop app].
    + rewrite !dir_map_cons, (decide_True _ _ He). rewrite (decide_False (P := x.1 <> 0)) by (intros Hx; by apply Hx, Hk). reflexivity.
    + rewrite !dir_map_cons in *. destruct (decide (x.1 <> 0)) as [Hx|Hx].
      * apply lookup_insert_None in Hn as [Hn Hne]. rewrite IH by auto. by rewrite insert_insert_ne by auto.
      * by apply IH.
Qed.

Lemma put_dent_lookup k e es j : (k <= length es)%nat -> put_dent k e es !! j = if decide (j = k) then Some e else es !! j.
Proof.
  intros Hk. unfold put_dent. destruct (decide (j = k)) as [->|Hne].
  - rewrite lookup_app_r by (rewrite length_take; lia). rewrite length_take. by replace (k - k `min` length es)%nat with 0%nat by lia.
  - destruct (decide (j < k)%nat).
    + rewrite lookup_app_l by (rewrite length_take; lia). by apply lookup_take_lt.
    + rewrite lookup_app_r by (rewrite length_take; lia). rewrite length_take. replace (j - k `min` length es)%nat with (S (j - k - 1)) by lia.
      change (drop (S k) es !! (j - k - 1)%nat = es !! j). rewrite lookup_drop. f_equal. lia.
Qed.

(** The 16 bytes dirlink() writes, and the entry they are. *)
Definition de_bytes (inum : Z) (name : list Z) : list Z := le_bytes 2 inum ++ strncpy name (Z.to_nat DIRSIZ).

Lemma cstr_ok n l : bytes_ok l -> bytes_ok (Mem.cstr n l).
Proof.
  revert l. induction n as [|n IH]; intros l Hl; cbn [Mem.cstr]; [constructor|]. destruct (_ =? _); constructor; [by apply chr_ok|]. apply IH. by apply tail_ok.
Qed.

Lemma de_bytes_ok inum name : bytes_ok name -> bytes_ok (de_bytes inum name).
Proof.
  intros Hn. unfold de_bytes. apply Forall_app. split; [apply le_bytes_ok|]. rewrite strncpy_spec. apply Forall_app. split; [by apply cstr_ok|].
  apply Forall_replicate. lia.
Qed.

Lemma de_bytes_length inum name : length (de_bytes inum name) = Z.to_nat DIRENT_SIZE.
Proof. unfold de_bytes. by rewrite length_app, le_bytes_length, strncpy_length. Qed.

Lemma dent_of_bytes inum name : 0 <= inum < 2 ^ 16 -> dent_of (de_bytes inum name) = (inum, Mem.cstr (Z.to_nat DIRSIZ) name).
Proof.
  intros Hi. unfold dent_of, de_bytes. rewrite take_app_length', drop_app_length' by (by rewrite le_bytes_length). f_equal.
  - rewrite le_val_bytes. apply Z.mod_small. exact Hi.
  - rewrite strncpy_spec. rewrite <- (app_nil_r (replicate _ 0)). apply cstr_app_replicate; [apply cstr_nz|]. pose proof (cstr_length (Z.to_nat DIRSIZ) name). lia.
Qed.

(** ** Searches *)

Lemma wp_findM {A B} (p : A -> bool) (I : kernel -> Prop) (R : A -> B -> kernel -> Prop) (l : list A) (f : A -> KM (option B)) (Q : option B -> kernel -> Prop) s :
  (forall l1 x l2 s, l = l1 ++ x :: l2 -> Forall (fun y => p y = false) l1 -> I s ->
     wp (f x) (fun r s' => match r with Some b => p x = true /\ R x b s' | None => p x = false /\ I s' end) s) ->
  I s ->
  (forall l1 x l2 b s', l = l1 ++ x :: l2 -> Forall (fun y => p y = false) l1 -> p x = true -> R x b s' -> Q (Some b) s') ->
  (forall s', Forall (fun y => p y = false) l -> I s' -> Q None s') ->
  wp (findM l f) Q s.
Proof.
  revert s Q. induction l as [|x l IH]; intros s Q Hf HI HS HN; cbn [findM].
  - wp_steps. by apply HN.
  - wp_step. eapply wp_mono; [by apply (Hf [] x l)|]. intros [b|] s1; cbn beta.
    + intros [Hp HR]. wp_steps. by apply (HS [] x l b).
    + intros [Hp HI1]. apply IH; [|exact HI1| |].
      * intros l1 y l2 s2 -> Hl1. apply (Hf (x :: l1) y l2); auto.
      * intros l1 y l2 b s' -> Hl1 Hy HR. apply (HS (x :: l1) y l2 b); auto.
      * intros s' Hl HI'. apply HN; auto.
Qed.

(** ** iget() and iput() *)

Lemma alter_fix {A} (f : A -> A) k (l : list A) : (forall x, l !! k = Some x -> f x = x) -> alter f k l = l.
Proof.
  intros Hf. apply list_eq. intros j. destruct (decide (j = k)) as [->|Hne]; [|by rewrite list_lookup_alter_ne by auto].
  rewrite list_lookup_alter_eq. destruct (l !! k) as [x|]; [|reflexivity]. cbn. f_equal. by apply Hf.
Qed.

Definition is_inode (dev inum : Z) (I : inode) : Prop := 0 < i_ref I /\ i_dev I = dev /\ i_inum I = inum.

(** Slot [k] of the inode table [T] is found, or the first free one is taken. *)
Definition igot (dev inum : Z) (T : list inode) (k : nat) (T' : list inode) : Prop :=
  exists I, T !! k = Some I /\
   (is_inode dev inum I /\ T' = alter (fun i => with_i_ref (i32 (i_ref i + 1)) i) k T \/
    i_ref I = 0 /\ (forall J, J ∈ T -> ~ is_inode dev inum J) /\ T' = alter (fun i => with_i_valid false (with_i_ref 1 (with_i_inum inum (with_i_dev dev i)))) k T).

Definition can_iget (dev inum : Z) (T : list inode) : Prop :=
  length T = Z.to_nat NINODE /\ exists I, I ∈ T /\ (is_inode dev inum I \/ i_ref I = 0).

Lemma iget_spec s dev inum (Q : nat -> kernel -> Prop) : can_iget dev inum (k_itable s) -> k_held s = [] ->
  (forall k T', igot dev inum (k_itable s) k T' -> Q k (with_k_itable T' s)) -> wp (iget dev inum) Q s.
Proof.
  intros [Hlen (I0 & HI0 & Hok)] Hh HQ. unfold iget. wp_step. apply wp_acquire; [rewrite Hh; apply not_elem_of_nil|]. rewrite Hh. wp_step.
  set (s1 := with_k_held [Litable] s).
  apply (wp_loop (fun n '(ip, empty) s' => s' = s1 /\ (n + ip = Z.to_nat NINODE)%nat /\ (forall J, J ∈ take ip (k_itable s) -> ~ is_inode dev inum J) /\
    match empty with Some e => exists I, k_itable s !! e = Some I /\ i_ref I = 0 | None => forall J, J ∈ take ip (k_itable s) -> i_ref J <> 0 end))
    with (n := Z.to_nat NINODE).
  - intros n [ip empty] s' (-> & Hn & Hno & He). destruct (decide (ip < Z.to_nat NINODE)%nat) as [Hlt|Hge].
    + destruct (lookup_lt_is_Some_2 (k_itable s) ip) as [I HI]; [lia|]. unfold inode_at. do 2 wp_step. change (k_itable s1) with (k_itable s).
      rewrite (list_lookup_total_correct _ _ _ HI). destruct (decide (is_inode dev inum I)) as [Hi|Hi].
      * destruct Hi as (Hr & Hd & Hm). rewrite (proj2 (Z.ltb_lt _ _) Hr), Hd, Hm, !Z.eqb_refl. cbn [andb]. unfold upd_inode. do 3 wp_step.
        apply (wp_release _ []); [reflexivity|apply not_elem_of_nil|]. wp_steps. rewrite <- Hh. destruct s. apply HQ. exists I. split; [exact HI|]. by left.
      * assert ((0 <? i_ref I) && (i_dev I =? dev) && (i_inum I =? inum) = false) as ->.
        { apply not_true_is_false. rewrite !andb_true_iff, Z.ltb_lt, !Z.eqb_eq. unfold is_inode in Hi. tauto. }
        wp_steps. exists (n - 1)%nat. split; [lia|]. split; [reflexivity|]. split; [lia|]. rewrite (take_S_r _ _ _ HI).
        split; [intros J [HJ| ->%list_elem_of_singleton]%elem_of_app; auto|]. destruct empty as [e|]; [exact He|].
        destruct (Z.eqb_spec (i_ref I) 0) as [Hz|Hz]; [by exists I|]. intros J [HJ| ->%list_elem_of_singleton]%elem_of_app; auto.
    + rewrite take_ge in Hno, He by lia. wp_steps. destruct empty as [e|].
      * destruct He as (I & HI & Hz). unfold upd_inode. do 2 wp_step. wp_step. apply (wp_release _ []); [reflexivity|apply not_elem_of_nil|]. wp_steps.
        rewrite <- Hh. destruct s. apply HQ. exists I. split; [exact HI|]. right. done.
      * destruct Hok as [Hok|Hok]; [by destruct (Hno I0 HI0)|by destruct (He I0 HI0)].
  - split; [reflexivity|]. split; [lia|]. rewrite take_0. split; intros J HJ%elem_of_nil; done.
  - lia.
Qed.

Section dir.
Context `{LinkerOk} `{DiskOk} `{Waits} `{Frame}.

(** iput() of what iget() has just returned does not truncate anything. *)
Lemma iput_back s k T dev inum (Q : unit -> kernel -> Prop) : igot dev inum T k (k_itable s) -> (forall I, I ∈ T -> i_ref I < 2 ^ 31 - 1) -> k_held s = [] ->
  (forall T', (T' = T \/ exists I, T !! k = Some I /\ i_ref I = 0 /\ T' = <[k := with_i_valid false (with_i_ref 0 (with_i_inum inum (with_i_dev dev I)))]> T) ->
     Q tt (with_k_itable T' s)) -> wp (iput k) Q s.
Proof.
  intros (I & HI & HT) Hb Hh HQ. unfold iput. wp_step. apply wp_acquire; [rewrite Hh; apply not_elem_of_nil|]. rewrite Hh. unfold inode_at. do 2 wp_step.
  change (k_itable (with_k_held [Litable] s)) with (k_itable s). specialize (Hb I ltac:(by eapply list_elem_of_lookup_2)).
  assert (exists J, k_itable s !! k = Some J /\ (i_ref J =? 1) && i_valid J = false /\
    (alter (fun i => with_i_ref (i32 (i_ref i - 1)) i) k (k_itable s) = T \/ i_ref I = 0 /\
     alter (fun i => with_i_ref (i32 (i_ref i - 1)) i) k (k_itable s) = <[k := with_i_valid false (with_i_ref 0 (with_i_inum inum (with_i_dev dev I)))]> T)) as (J & HJ & Hc & Hres).
  { destruct HT as [[(Hr & _) ->]|(Hz & _ & ->)]; rewrite list_lookup_alter_eq, HI; eexists; (split; [reflexivity|]); cbn.
    - rewrite i32_id by lia. rewrite (proj2 (Z.eqb_neq _ _)) by lia. split; [reflexivity|]. left. apply list_eq. intros j. destruct (decide (j = k)) as [->|Hne].
      + rewrite !list_lookup_alter_eq, HI. cbn. rewrite (i32_id (i_ref I + 1)) by lia. replace (i_ref I + 1 - 1) with (i_ref I) by lia. rewrite i32_id by lia. by destruct I.
      + by rewrite !list_lookup_alter_ne by auto.
    - split; [reflexivity|]. right. split; [exact Hz|]. apply list_eq. intros j. destruct (decide (j = k)) as [->|Hne].
      + rewrite !list_lookup_alter_eq, HI, list_lookup_insert_eq by (by eapply lookup_lt_Some). reflexivity.
      + by rewrite !list_lookup_alter_ne, list_lookup_insert_ne by auto. }
  rewrite (list_lookup_total_correct _ _ _ HJ), Hc. cbn [andb when]. unfold upd_inode. do 4 wp_step.
  apply (wp_release _ []); [reflexivity|apply not_elem_of_nil|]. cbn. rewrite <- Hh. destruct s. apply HQ.
  destruct Hres as [E|[Hz E]]; [by left|]. right. by exists I.
Qed.

(** ** Reading the entries *)

Variables (i : nat) (pid : Z) (ip : nat) (lg : log) (sb : superblock).
Notation file_st := (file_st i pid ip lg sb).

Record dir_ok (s : kernel) : Prop := {
  do_type : i_type (k_itable s !!! ip) = T_DIR;
  do_ref : 0 < i_ref (k_itable s !!! ip);
  do_size : isize ip s mod DIRENT_SIZE = 0;
  do_bytes : forall o, 0 <= o < isize ip s -> 0 <= file_byte (content s) (addrs ip s) o < 256;
}.

Definition entries (s : kernel) : list (Z * list Z) := dents (content s) (addrs ip s) (isize ip s).

(** Only the local variable has changed, and what the block layer may change. *)
Definition scanned (W : gset Z) (s s1 : kernel) : Prop :=
  fop i pid W [] s1 /\ (forall m, content s1 m = content s m) /\ fs_frame (with_k_mem (k_mem s1) s) s1 /\ in_op s s1.

Lemma scanned_file W s s1 : file_st W s -> scanned W s s1 -> file_st W s1 /\ k_itable s1 = k_itable s.
Proof. intros Hs (Hf & Hc & Hfr & Ho). destruct (file_st_frame i pid ip lg sb W _ s s1 Hs Hf Hc Hfr Ho) as (H1' & H2' & _). done. Qed.

Lemma scanned_size W s s1 : file_st W s -> scanned W s s1 -> isize ip s1 = isize ip s /\ addrs ip s1 = addrs ip s.
Proof. intros Hs Hsc. destruct (scanned_file W s s1 Hs Hsc) as [_ E]. unfold isize, addrs. by rewrite E. Qed.

Lemma scanned_bytes W s s1 off n : file_st W s -> scanned W s s1 -> file_bytes (content s1) (addrs ip s1) off n = file_bytes (content s) (addrs ip s) off n.
Proof.
  intros Hs Hsc. destruct (scanned_size W s s1 Hs Hsc) as [_ ->]. destruct Hsc as (_ & Hc & _). unfold file_bytes. apply list_fmap_ext. intros _ k _.
  unfold file_byte. rewrite (baddr_eqf _ _ _ _ Hc). by rewrite Hc.
Qed.

Lemma scanned_holes W s s1 : file_st W s -> scanned W s s1 -> no_holes ip s -> no_holes ip s1.
Proof.
  intros Hs Hsc [Hz Hn]. destruct (scanned_size W s s1 Hs Hsc) as [E1 E2]. destruct Hsc as (_ & Hc & _). split; [by rewrite E1|].
  intros bn Hb. rewrite E1, E2, (baddr_eqf _ _ _ _ Hc). by apply Hn.
Qed.

Lemma scanned_refl W s : file_st W s -> scanned W s s.
Proof. intros Hs. split; [apply Hs|]. split; [done|]. split; [destruct s; apply fs_frame_refl|apply in_op_refl]. Qed.

Lemma scanned_mem W s s1 m : scanned W s s1 -> scanned W s (with_k_mem m s1).
Proof.
  intros (Hf & Hc & Hfr & Ho). split; [eapply fop_same; [exact Hf|reflexivity..]|]. split; [exact Hc|]. split.
  - destruct Hfr as [A B C]. split; [rewrite A; reflexivity|exact B|exact C].
  - destruct Ho as [A B C D E]. by split.
Qed.

Lemma scanned_trans W s s1 s2 : scanned W s s1 -> scanned W s1 s2 -> scanned W s s2.
Proof.
  intros (_ & Hc & Hfr & Ho) (Hf2 & Hc2 & Hfr2 & Ho2). split; [exact Hf2|]. split; [intros m; by rewrite Hc2|]. split; [|by eapply in_op_trans].
  eapply fs_frame_trans; [|exact Hfr2]. destruct Hfr as [A B C]. split; [rewrite A; reflexivity|exact B|exact C].
Qed.

Hypothesis frame_ok : 0 <= frame /\ frame + DIRENT_SIZE < 2 ^ 64.

Lemma read_entry W s s1 k (Q : Z -> kernel -> Prop) : file_st W s -> room W 0 1 s -> no_holes ip s -> scanned W s s1 -> 0 <= k < isize ip s / DIRENT_SIZE ->
  (forall s2, scanned W s s2 -> load_bytes (k_mem s2) frame (Z.to_nat DIRENT_SIZE) = file_bytes (content s) (addrs ip s) (DIRENT_SIZE * k) DIRENT_SIZE ->
     Q DIRENT_SIZE s2) ->
  wp (readi ip false frame (DIRENT_SIZE * k) DIRENT_SIZE) Q s1.
Proof.
  intros Hs Hr Hnh Hsc Hk HQ. rewrite dirent_size_eq in *. pose proof (proj1 Hnh) as Hz. rewrite maxfile_eq, bsize_eq in Hz.
  destruct (scanned_file W s s1 Hs Hsc) as [Hs1 _]. destruct (scanned_size W s s1 Hs Hsc) as [Ez _].
  assert (read_len ip s1 (16 * k) 16 = 16) as Hl by (unfold read_len; rewrite Ez, (proj2 (Z.ltb_ge _ _)) by dlia; dlia).
  apply (readi_spec i pid ip lg sb W s1 ∅ false); auto; try dlia.
  - eapply room_op; [exact Hr|apply Hsc].
  - by apply (scanned_holes W s).
  - by intros ?.
  - rewrite Hl. intros r s2 m' Hf Hc Hfr Ho [[-> Hst]|(_ & ? & _)]; [|done]. unfold stored in Hst.
    assert (k_mem s2 = m') as Em by (rewrite (fs_frame_eq _ _ Hfr); reflexivity). apply HQ.
    + apply (scanned_trans W s s1); [exact Hsc|]. split; [exact Hf|]. split; [exact Hc|]. rewrite Em. done.
    + rewrite Em, Hst, (scanned_bytes W s s1) by assumption.
      pose proof (file_bytes_length (content s) (addrs ip s) (16 * k) 16 ltac:(lia)) as Hlen.
      replace (Z.to_nat 16) with (length (file_bytes (content s) (addrs ip s) (16 * k) 16)) by lia. apply load_store_same.
Qed.

(** The fields of the entry that was read. *)
Lemma entry_fields m bs : load_bytes m frame (Z.to_nat DIRENT_SIZE) = bs ->
  load_bytes m frame 2 = take 2 bs /\ load_bytes m (frame + 2) (Z.to_nat DIRSIZ) = drop 2 bs.
Proof.
  intros <-. change (Z.to_nat DIRENT_SIZE) with (2 + Z.to_nat DIRSIZ)%nat. rewrite load_bytes_app.
  rewrite take_app_length', drop_app_length' by (by rewrite load_bytes_length). done.
Qed.

Lemma dir_offs_eq s : dir_ok s -> dir_offs (isize ip s) = (fun k => DIRENT_SIZE * k) <$> seqZ 0 (isize ip s / DIRENT_SIZE).
Proof. intros D. pose proof (do_size _ D) as Hz. unfold dir_offs. rewrite dirent_size_eq in *. do 2 f_equal. dlia. Qed.

Definition entry_at (s : kernel) (off : Z) : Z * list Z := dent_of (file_bytes (content s) (addrs ip s) off DIRENT_SIZE).

Lemma entries_offs s : dir_ok s -> entries s = entry_at s <$> dir_offs (isize ip s).
Proof. intros D. rewrite dir_offs_eq by exact D. by rewrite <- list_fmap_compose. Qed.

(** Where a search over the offsets stops. *)
Lemma offs_split s l1 x l2 : dir_ok s -> dir_offs (isize ip s) = l1 ++ x :: l2 -> x = DIRENT_SIZE * Z.of_nat (length l1) /\ Z.of_nat (length l1) < isize ip s / DIRENT_SIZE.
Proof.
  intros D E. assert (dir_offs (isize ip s) !! length l1 = Some x) as Hx by (rewrite E; by apply list_lookup_middle).
  rewrite dir_offs_eq in Hx by exact D. apply list_lookup_fmap_Some in Hx as (k & -> & [-> Hk]%lookup_seqZ). lia.
Qed.

Lemma find_entry s (P : Z * list Z -> Prop) `{forall e, Decision (P e)} l1 x l2 : dir_ok s -> dir_offs (isize ip s) = l1 ++ x :: l2 ->
  Forall (fun y => bool_decide (P (entry_at s y)) = false) l1 -> bool_decide (P (entry_at s x)) = true ->
  list_find P (entries s) = Some (length l1, entry_at s x) /\ x = DIRENT_SIZE * Z.of_nat (length l1).
Proof.
  intros D E Hl Hx. split; [|by eapply offs_split]. rewrite entries_offs, E, fmap_app by exact D. cbn [fmap list_fmap]. apply list_find_Some.
  apply bool_decide_eq_true_1 in Hx. split; [|split; [exact Hx|]].
  - rewrite lookup_app_r by (rewrite length_fmap; lia). by rewrite length_fmap, Nat.sub_diag.
  - intros j y Hy Hj. rewrite lookup_app_l in Hy by (rewrite length_fmap; lia). apply list_lookup_fmap_Some in Hy as (o & -> & Ho).
    rewrite Forall_forall in Hl. specialize (Hl o (list_elem_of_lookup_2 _ _ _ Ho)). by apply bool_decide_eq_false_1 in Hl.
Qed.

Lemma find_none s (P : Z * list Z -> Prop) `{forall e, Decision (P e)} : dir_ok s -> Forall (fun y => bool_decide (P (entry_at s y)) = false) (dir_offs (isize ip s)) ->
  list_find P (entries s) = None.
Proof.
  intros D Hl. apply list_find_None. rewrite entries_offs by exact D. rewrite Forall_fmap. eapply Forall_impl; [exact Hl|]. intros o Ho. by apply bool_decide_eq_false_1 in Ho.
Qed.

Lemma fop_quiet W s : fop i pid W [] s -> k_held s = [].
Proof. intros [(pins & Ht & _) _]. exact (ru_held _ _ _ (ca_run _ _ _ _ _ (tx_cache _ _ _ _ _ Ht))). Qed.

Lemma entry_bytes s off : dir_ok s -> 0 <= off -> off + DIRENT_SIZE <= isize ip s -> bytes_ok (file_bytes (content s) (addrs ip s) off DIRENT_SIZE).
Proof.
  intros D Ho Hs. apply Forall_forall. intros x Hx. unfold file_bytes in Hx. apply list_elem_of_fmap in Hx as (k & -> & Hk%elem_of_seqZ). apply (do_bytes _ D).
  rewrite dirent_size_eq in *. lia.
Qed.

Lemma dirlookup_spec W s name (Q : option (nat * Z) -> kernel -> Prop) : let found := list_find (named (Mem.cstr (Z.to_nat DIRSIZ) name)) (entries s) in
  file_st W s -> room W 0 1 s -> no_holes ip s -> dir_ok s -> bytes_ok name ->
  (forall k e, found = Some (k, e) -> can_iget ROOTDEV e.1 (k_itable s)) ->
  (forall k e slot T s1, found = Some (k, e) -> scanned W s s1 -> igot ROOTDEV e.1 (k_itable s) slot T -> Q (Some (slot, DIRENT_SIZE * Z.of_nat k)) (with_k_itable T s1)) ->
  (forall s1, found = None -> scanned W s s1 -> Q None s1) ->
  wp (dirlookup ip name) Q s.
Proof.
  intros found Hs Hr Hnh D Hnm Hget HS HN. unfold dirlookup, inode_at. do 2 wp_step. rewrite (do_type _ D). change (negb (T_DIR =? T_DIR)) with false. cbv iota.
  rewrite (ft_dev _ _ _ _ _ _ _ Hs). fold (isize ip s). set (nm := Mem.cstr (Z.to_nat DIRSIZ) name) in *.
  apply (wp_findM (fun off => bool_decide (named nm (entry_at s off))) (scanned W s) (fun off r s' => exists s1 T slot, scanned W s s1 /\
    igot ROOTDEV (entry_at s off).1 (k_itable s) slot T /\ s' = with_k_itable T s1 /\ r = (slot, off))).
  - intros l1 off0 l2 s1 Hsp Hl1 Hsc. destruct (offs_split s l1 off0 l2 D Hsp) as [-> Hlt].
    wp_step. apply (read_entry W s s1 (Z.of_nat (length l1))); auto; [lia|]. set (off := DIRENT_SIZE * Z.of_nat (length l1)) in *. intros s2 Hsc2 Hld.
    rewrite Z.eqb_refl. cbn [negb]. destruct (entry_fields _ _ Hld) as [E1 E2]. unfold de_inum, de_name. do 2 wp_step. rewrite E1.
    change (le_val (take 2 (file_bytes (content s) (addrs ip s) off DIRENT_SIZE))) with (entry_at s off).1.
    destruct (Z.eqb_spec (entry_at s off).1 0) as [Hz|Hnz]; [wp_steps; split; [apply bool_decide_eq_false_2; intros [? _]; done|exact Hsc2]|].
    do 2 wp_step. rewrite E2. unfold namecmp. set (dn := drop 2 _).
    assert (bytes_ok dn) as Hdn by (apply Forall_drop, entry_bytes; [exact D|unfold off; rewrite dirent_size_eq; lia|unfold off; rewrite dirent_size_eq in *; dlia]).
    destruct (strncmp_correct name dn (Z.to_nat DIRSIZ) Hnm Hdn) as [Hcmp _]. destruct (Z.eqb_spec (strncmp name dn (Z.to_nat DIRSIZ)) 0) as [Heq|Hne].
    + apply Hcmp in Heq. assert (named nm (entry_at s off)) as Hn by (split; [exact Hnz|by symmetry]). wp_step.
      destruct (scanned_file W s s2 Hs Hsc2) as [_ Eit]. apply iget_spec; [|by eapply fop_quiet; apply Hsc2|].
      * rewrite Eit. apply (Hget (length l1)). apply (find_entry s (named nm) l1 off l2 D Hsp Hl1). by apply bool_decide_eq_true_2.
      * intros slot T HT. wp_steps. split; [by apply bool_decide_eq_true_2|]. rewrite Eit in HT. by exists s2, T, slot.
    + wp_steps. split; [|exact Hsc2]. apply bool_decide_eq_false_2. intros [_ Hn]. apply Hne, Hcmp. by symmetry.
  - by apply scanned_refl.
  - intros l1 off l2 r s' Hsp Hl1 Hx (s1 & T & slot & Hsc & HT & -> & ->). destruct (find_entry s (named nm) l1 off l2 D Hsp Hl1 Hx) as [Hf Eo].
    rewrite Eo. by apply (HS _ (entry_at s off)).
  - intros s' Hl Hsc. apply HN; [|exact Hsc]. by apply find_none.
Qed.

(** *** The entries after a write *)

Lemma file_bytes_ext c a c' a' off n : (forall o, off <= o < off + n -> file_byte c a o = file_byte c' a' o) -> file_bytes c a off n = file_bytes c' a' off n.
Proof. intros Hb. unfold file_bytes. apply list_fmap_ext. intros j k [-> Hk]%lookup_seqZ. apply Hb. lia. Qed.

Lemma entries_lookup s j : entries s !! j = if decide (Z.of_nat j < isize ip s / DIRENT_SIZE) then Some (entry_at s (DIRENT_SIZE * Z.of_nat j)) else None.
Proof.
  unfold entries, dents. rewrite list_lookup_fmap. destruct (decide _) as [Hj|Hj].
  - rewrite (proj2 (lookup_seqZ _ _ _ (Z.of_nat j))) by lia. reflexivity.
  - rewrite lookup_seqZ_ge by lia. reflexivity.
Qed.

Lemma entries_length s : 0 <= isize ip s -> Z.of_nat (length (entries s)) = isize ip s / DIRENT_SIZE.
Proof. intros Hz. unfold entries, dents. rewrite length_fmap, length_seqZ. rewrite dirent_size_eq. dlia. Qed.

Lemma entries_scanned W s s1 : file_st W s -> scanned W s s1 -> entries s1 = entries s.
Proof.
  intros Hs Hsc. unfold entries, dents. destruct (scanned_size W s s1 Hs Hsc) as [-> _]. apply list_fmap_ext. intros _ k _. by rewrite (scanned_bytes W s s1).
Qed.

Lemma scanned_dir W s s1 : file_st W s -> scanned W s s1 -> dir_ok s -> dir_ok s1.
Proof.
  intros Hs Hsc [A B C E]. destruct (scanned_file W s s1 Hs Hsc) as [_ Ei]. destruct (scanned_size W s s1 Hs Hsc) as [E1 E2]. destruct Hsc as (_ & Hc & _).
  split; rewrite ?Ei, ?E1, ?E2; [exact A|exact B|exact C|]. intros o Ho. unfold file_byte. rewrite (baddr_eqf _ _ _ _ Hc), Hc. by apply E.
Qed.

Section put.
Variables (W : gset Z) (s s' : kernel) (W' : gset Z) (k : nat) (bs : list Z).
Hypothesis D : dir_ok s.
Hypothesis Hz : 0 <= isize ip s.
Hypothesis Hk : Z.of_nat k <= isize ip s / DIRENT_SIZE.
Hypothesis Hl : length bs = Z.to_nat DIRENT_SIZE.

Lemma written_bytes : wrote_file i pid ip lg sb W s (DIRENT_SIZE * Z.of_nat k) bs DIRENT_SIZE W' s' ->
  file_bytes (content s') (addrs ip s') (DIRENT_SIZE * Z.of_nat k) DIRENT_SIZE = bs.
Proof.
  intros [_ _ _ Esz Eb _ _ _ _ _]. rewrite dirent_size_eq in *. apply list_eq_same_length with 16%nat; [by rewrite Hl| |].
  { pose proof (file_bytes_length (content s') (addrs ip s') (16 * Z.of_nat k) 16 ltac:(lia)). lia. }
  intros j x y Hj Hx Hy. unfold file_bytes in Hx. apply list_lookup_fmap_Some in Hx as (n & -> & [-> Hn]%lookup_seqZ). rewrite Eb by lia.
  rewrite decide_True by lia. apply list_lookup_total_correct in Hy. rewrite <- Hy. f_equal. lia.
Qed.

Lemma entries_put : wrote_file i pid ip lg sb W s (DIRENT_SIZE * Z.of_nat k) bs DIRENT_SIZE W' s' -> entries s' = put_dent k (dent_of bs) (entries s).
Proof.
  intros Hw. pose proof (written_bytes Hw) as Ebs. destruct Hw as [_ _ _ Esz Eb _ _ _ _ _]. pose proof (do_size _ D) as Hm. pose proof (entries_length s Hz) as Hlen.
  apply list_eq. intros j. rewrite put_dent_lookup by lia. rewrite !entries_lookup, Esz. rewrite dirent_size_eq in *. destruct (decide (j = k)) as [->|Hne].
  - rewrite decide_True by dlia. unfold entry_at. rewrite dirent_size_eq. by rewrite Ebs.
  - destruct (decide (Z.of_nat j < isize ip s / 16)) as [Hj|Hj].
    + rewrite decide_True by dlia. f_equal. unfold entry_at. f_equal. rewrite dirent_size_eq. apply file_bytes_ext. intros o Ho. rewrite Eb by dlia.
      by rewrite decide_False by lia.
    + rewrite decide_False by dlia. reflexivity.
Qed.

Lemma entries_unwritten : wrote_file i pid ip lg sb W s (DIRENT_SIZE * Z.of_nat k) bs 0 W' s' -> entries s' = entries s.
Proof.
  intros [_ _ _ Esz Eb _ _ _ _ _]. pose proof (do_size _ D) as Hm. apply list_eq. intros j. rewrite !entries_lookup, Esz. rewrite dirent_size_eq in *.
  replace (isize ip s `max` (16 * Z.of_nat k + 0)) with (isize ip s) in * by dlia. destruct (decide _) as [Hj|Hj]; [|reflexivity].
  f_equal. unfold entry_at. f_equal. rewrite dirent_size_eq. apply file_bytes_ext. intros o Ho. rewrite Eb by dlia. by rewrite decide_False by lia.
Qed.

Lemma written_dir tot : wrote_file i pid ip lg sb W s (DIRENT_SIZE * Z.of_nat k) bs tot W' s' -> tot = 0 \/ tot = DIRENT_SIZE -> bytes_ok bs ->
  (ip < length (k_itable s))%nat -> dir_ok s'.
Proof.
  intros [_ _ _ Esz Eb _ _ Eit _ _] Ht Hbs Hip. destruct D as [A B C E]. destruct (lookup_lt_is_Some_2 _ _ Hip) as [I HI]. rewrite (list_lookup_total_correct _ _ _ HI) in A, B.
  split.
  - rewrite Eit, list_lookup_total_alt, list_lookup_alter_eq, HI. exact A.
  - rewrite Eit, list_lookup_total_alt, list_lookup_alter_eq, HI. exact B.
  - rewrite Esz. rewrite dirent_size_eq in *. destruct Ht as [-> | ->]; dlia.
  - intros o Ho. rewrite Eb by lia. rewrite Esz in Ho. rewrite dirent_size_eq in *. destruct (decide _) as [Hin|Hout].
    + assert (Z.to_nat (o - 16 * Z.of_nat k) < length bs)%nat as Hlt by (rewrite Hl; lia). destruct (lookup_lt_is_Some_2 _ _ Hlt) as [x Hx].
      rewrite (list_lookup_total_correct _ _ _ Hx). by apply (Forall_lookup_1 _ _ _ _ Hbs Hx).
    + apply E. destruct Ht as [-> | ->]; dlia.
Qed.
End put.

(** The search for an unused entry. *)
Lemma free_scan W s s1 (Q : option Z -> kernel -> Prop) : let found := list_find (fun e => e.1 = 0) (entries s) in
  file_st W s -> room W 0 1 s -> no_holes ip s -> dir_ok s -> scanned W s s1 ->
  (forall s2, scanned W s s2 -> Q ((fun x => DIRENT_SIZE * Z.of_nat x.1) <$> found) s2) ->
  wp (findM (dir_offs (isize ip s)) (fun off =>
        r <- readi ip false frame off DIRENT_SIZE ;;
        if negb (r =? DIRENT_SIZE) then panic "dirlink read" else
        inum <- de_inum ;;
        ret (if inum =? 0 then Some off else None))) Q s1.
Proof.
  intros found Hs Hr Hnh D Hsc HQ.
  apply (wp_findM (fun off => bool_decide ((entry_at s off).1 = 0)) (scanned W s) (fun off r s' => scanned W s s' /\ r = off)); [|exact Hsc| |].
  - intros l1 off0 l2 s2 Hsp Hl1 Hsc2. destruct (offs_split s l1 off0 l2 D Hsp) as [-> Hlt]. wp_step.
    apply (read_entry W s s2 (Z.of_nat (length l1))); auto; [lia|]. intros s3 Hsc3 Hld. rewrite Z.eqb_refl. cbn [negb]. destruct (entry_fields _ _ Hld) as [E1 _].
    unfold de_inum. do 2 wp_step. rewrite E1. change (le_val (take 2 ?x)) with (dent_of x).1. fold (entry_at s (DIRENT_SIZE * Z.of_nat (length l1))).
    wp_step. destruct (Z.eqb_spec (entry_at s (DIRENT_SIZE * Z.of_nat (length l1))).1 0) as [Hz|Hz].
    + split; [by apply bool_decide_eq_true_2|done].
    + split; [by apply bool_decide_eq_false_2|done].
  - intros l1 off l2 r s' Hsp Hl1 Hx [Hsc' ->]. destruct (find_entry s (fun e => e.1 = 0) l1 off l2 D Hsp Hl1 Hx) as [Hf Eo].
    specialize (HQ s' Hsc'). unfold found in HQ. rewrite Hf in HQ. cbn in HQ. by rewrite <- Eo in HQ.
  - intros s' Hall Hsc'. specialize (HQ s' Hsc'). unfold found in HQ. by rewrite (find_none s _ D Hall) in HQ.
Qed.

(** The index at which dirlink() writes. *)
Definition free_slot (es : list (Z * list Z)) : nat := default (length es) (fst <$> list_find (fun e => e.1 = 0) es).

Lemma free_slot_dead es x : es !! free_slot es = Some x -> x.1 = 0.
Proof.
  unfold free_slot. destruct (list_find _ es) as [[k e]|] eqn:E; cbn.
  - apply list_find_Some in E as (E1 & E2 & _). rewrite E1. by intros [= <-].
  - rewrite lookup_ge_None_2 by lia. discriminate.
Qed.

Lemma free_slot_le es : (free_slot es <= length es)%nat.
Proof. unfold free_slot. destruct (list_find _ es) as [[k e]|] eqn:E; cbn; [|lia]. apply list_find_Some in E as (E1 & _). apply lookup_lt_Some in E1. lia. Qed.

Lemma owned_eqf c c' a k : (forall m, c' m = c m) -> owned c' a k = owned c a k.
Proof. intros Hc. unfold owned. by rewrite (baddr_eqf _ _ _ _ Hc). Qed.

(** writei() of one entry. *)
Section link.
Variables (W : gset Z) (s : kernel).
Let ib : Z := IBLOCK (i_inum (k_itable s !!! ip)) sb.
Hypothesis one_bitmap : sb_size sb <= BPB.
Hypothesis Hs : file_st W s.
Hypothesis Hnh : no_holes ip s.
Hypothesis Hr : room W 10 1 s.
Hypothesis Hin : inode_ok (k_itable s !!! ip).
Hypothesis Hib : data_block sb lg (content s) ib.
Hypothesis Hno : forall k, 0 <= k <= MAXFILE -> owned (content s) (addrs ip s) k <> ib.
Hypothesis D : dir_ok s.

Definition linked (k : nat) (bs : list Z) (r : Z) (s' : kernel) : Prop :=
  exists W', file_st W' s' /\ no_holes ip s' /\ dir_ok s' /\
    (forall m, data_block sb lg (content s) m -> (forall j, 0 <= j <= MAXFILE -> owned (content s) (addrs ip s) j <> m) -> m <> ib -> content s' m = content s m) /\
    k_itable s' = alter (fun I => with_i_size (isize ip s') (with_i_addrs (addrs ip s') I)) ip (k_itable s) /\
    (r = DIRENT_SIZE /\ entries s' = put_dent k (dent_of bs) (entries s) \/
     r <> DIRENT_SIZE /\ entries s' = entries s /\
       ((forall b, 0 <= b < sb_size sb -> used sb (content s') b = true) \/ Z.of_nat k * DIRENT_SIZE = MAXFILE * BSIZE)).

Lemma write_entry k bs s1 : Z.of_nat k <= isize ip s / DIRENT_SIZE -> length bs = Z.to_nat DIRENT_SIZE -> bytes_ok bs -> scanned W s s1 ->
  load_bytes (k_mem s1) frame (length bs) = bs ->
  wp (writei ip false frame (DIRENT_SIZE * Z.of_nat k) DIRENT_SIZE) (fun r s' => linked k bs r s') s1.
Proof.
  intros Hk Hl Hbs Hsc Hld. pose proof (proj1 Hnh) as Hz. destruct (scanned_file W s s1 Hs Hsc) as [Hs1 Ei]. destruct (scanned_size W s s1 Hs Hsc) as [Ez Ea].
  pose proof (scanned_holes W s s1 Hs Hsc Hnh) as Hnh1. pose proof (scanned_dir W s s1 Hs Hsc D) as D1. pose proof Hsc as (_ & Hc & _ & Ho).
  pose proof (do_size _ D) as Hm. rewrite maxfile_eq, bsize_eq in Hz.
  destruct (Z_lt_le_dec (MAXFILE * BSIZE) (DIRENT_SIZE * Z.of_nat k + DIRENT_SIZE)) as [Hfull|Hfit].
  { unfold writei, inode_at. do 2 wp_step. fold (isize ip s1). rewrite Ez. rewrite maxfile_eq, bsize_eq, dirent_size_eq in *.
    rewrite u32_id by dlia. rewrite !(proj2 (Z.ltb_ge _ _)) by dlia. cbn [orb]. rewrite (proj2 (Z.ltb_lt _ _)) by lia. wp_steps.
    exists W. split; [exact Hs1|]. split; [exact Hnh1|]. split; [exact D1|]. split; [intros; apply Hc|]. split.
    - rewrite Ez, Ea, Ei. symmetry. apply alter_fix. intros I HI. unfold isize, addrs. rewrite (list_lookup_total_correct _ _ _ HI). by destruct I.
    - right. rewrite dirent_size_eq. split; [lia|]. split; [by apply (entries_scanned W)|]. right. rewrite maxfile_eq, bsize_eq. dlia. }
  replace DIRENT_SIZE with (Z.of_nat (length bs)) at 2 by (rewrite Hl; reflexivity).
  apply (writei_spec i pid ip lg sb W s1 (DIRENT_SIZE * Z.of_nat k) bs one_bitmap ∅ false frame); rewrite ?Ei; fold ib; auto.
  - eapply room_op; [|exact Ho]. rewrite Hl, dirent_size_eq. unfold nblocks. rewrite bsize_eq. eapply room_le; [exact Hr| |]; dlia.
  - by apply (data_ext sb lg (content s)).
  - intros j Hj. rewrite Ea, (owned_eqf _ _ _ _ Hc). by apply Hno.
  - rewrite Ez, dirent_size_eq in *. dlia.
  - rewrite Hl. exact Hfit.
  - unfold source. cbn. by symmetry.
  - apply frame_ok.
  - rewrite Hl. apply frame_ok.
  - rewrite Hl. change (Z.of_nat (Z.to_nat DIRENT_SIZE)) with DIRENT_SIZE. intros tot W' s' Htot Hw Hal Hend.
    assert (tot = 0 \/ tot = DIRENT_SIZE) as Ht.
    { rewrite dirent_size_eq, bsize_eq in *. destruct (Z.eq_dec tot 0); [by left|]. destruct (Z.eq_dec tot 16); [by right|]. specialize (Hal ltac:(lia)). dlia. }
    assert (0 <= isize ip s1 /\ Z.of_nat k <= isize ip s1 / DIRENT_SIZE) as [Hz1 Hk1] by (rewrite Ez; split; [lia|exact Hk]).
    pose proof (written_dir W s1 s' W' k bs D1 Hk1 Hl tot Hw Ht Hbs (ft_ip _ _ _ _ _ _ _ Hs1)) as D'.
    pose proof (entries_put W s1 s' W' k bs D1 Hz1 Hk1 Hl) as Hput. pose proof (entries_unwritten W s1 s' W' k bs D1 Hk1) as Hsame.
    rewrite (entries_scanned W s s1 Hs Hsc) in Hput, Hsame. pose proof Hw as [B1 _ B3 _ _ B6 _ B8 _ _]. rewrite Ei in B6, B8. fold ib in B6.
    exists W'. split; [exact B1|]. split; [exact B3|]. split; [exact D'|]. split; [|split; [exact B8|]].
    + intros m Hdm Hom Hne. rewrite <- Hc. apply B6; [by apply (data_ext sb lg (content s))| |exact Hne]. intros j Hj. rewrite Ea, (owned_eqf _ _ _ _ Hc). by apply Hom.
    + destruct Ht as [-> | ->]; [right|left; split; [reflexivity|by apply Hput]]. split; [by rewrite dirent_size_eq|]. split; [by apply Hsame|]. left.
      destruct Hend as [E|Hfu]; [by rewrite dirent_size_eq in E|exact Hfu].
Qed.

Definition igettable (name : list Z) : Prop :=
  (forall n, dir_map (entries s) !! Mem.cstr (Z.to_nat DIRSIZ) name = Some n -> can_iget ROOTDEV n (k_itable s)) /\ forall I, I ∈ k_itable s -> i_ref I < 2 ^ 31 - 1.

(** dirlink() of a name that the directory has. *)
Lemma link_present name inum k e : bytes_ok name -> igettable name ->
  list_find (named (Mem.cstr (Z.to_nat DIRSIZ) name)) (entries s) = Some (k, e) ->
  wp (dirlink ip name inum) (fun r s' => r = -1 /\ file_st W s' /\ no_holes ip s' /\ dir_ok s' /\ entries s' = entries s /\ forall m, content s' m = content s m) s.
Proof.
  intros Hnm [Hget Hrefs] Hf. unfold dirlink. wp_step. apply (dirlookup_spec W s name); auto.
  - eapply room_le; [exact Hr|lia|lia].
  - intros k' e' E. apply Hget. rewrite dir_map_lookup, E. reflexivity.
  - rewrite Hf. intros k' e' slot T s1 [= <- <-] Hsc HT. cbv iota. destruct (scanned_file W s s1 Hs Hsc) as [Hs1 Ei]. wp_step.
    apply (iput_back _ slot (k_itable s) ROOTDEV e.1); [exact HT|exact Hrefs|exact (fop_quiet W s1 (proj1 Hsc))|].
    intros T' HT'. wp_steps. split; [reflexivity|]. change (with_k_itable T' (with_k_itable T s1)) with (with_k_itable T' s1).
    assert (length T' = length (k_itable s) /\ T' !!! ip = k_itable s !!! ip) as [El Eip].
    { destruct HT' as [->|(I & HI & Hz & ->)]; [done|]. split; [apply length_insert|]. rewrite list_lookup_total_insert_ne; [done|]. intros ->.
      pose proof (do_ref _ D) as Hrf. rewrite (list_lookup_total_correct _ _ _ HI) in Hrf. lia. }
    destruct (scanned_size W s s1 Hs Hsc) as [Ez Ea]. pose proof (scanned_bytes W s s1) as Hby. pose proof Hsc as (_ & Hc & _).
    assert (isize ip (with_k_itable T' s1) = isize ip s1 /\ addrs ip (with_k_itable T' s1) = addrs ip s1) as [Ez' Ea'] by (unfold isize, addrs; cbn; by rewrite Eip, Ei).
    pose proof (scanned_holes W s s1 Hs Hsc Hnh) as [Hn1 Hn2]. pose proof (scanned_dir W s s1 Hs Hsc D) as [D1 D2 D3 D4].
    split; [|split; [|split; [|split; [|exact Hc]]]].
    + destruct Hs1 as [A1 A2 A3 A4 A5 A6 A7 A8]. split; [eapply fop_same; [exact A1|reflexivity..]| | |exact A4|exact A5|exact A6|exact A7|by rewrite Ea'].
      * cbn. by rewrite El, <- Ei.
      * cbn. by rewrite Eip, <- Ei.
    + split; [by rewrite Ez'|]. rewrite Ez', Ea'. exact Hn2.
    + split; rewrite ?Ez', ?Ea'; [cbn; by rewrite Eip, <- Ei|cbn; by rewrite Eip, <- Ei|exact D3|exact D4].
    + rewrite <- (entries_scanned W s s1 Hs Hsc). unfold entries. by rewrite Ez', Ea'.
  - rewrite Hf. discriminate.
Qed.

(** dirlink() of a new name. *)
Lemma link_absent name inum : bytes_ok name -> list_find (named (Mem.cstr (Z.to_nat DIRSIZ) name)) (entries s) = None ->
  wp (dirlink ip name inum) (fun r s' => exists q, linked (free_slot (entries s)) (de_bytes inum name) q s' /\ r = if q =? DIRENT_SIZE then 0 else -1) s.
Proof.
  intros Hnm Hf. unfold dirlink. wp_step. assert (room W 0 1 s) as Hr1 by (eapply room_le; [exact Hr|lia|lia]).
  apply (dirlookup_spec W s name); auto; rewrite Hf; [discriminate|discriminate|]. intros s1 _ Hsc. cbv iota. unfold inode_at. do 2 wp_step.
  fold (isize ip s1). destruct (scanned_size W s s1 Hs Hsc) as [-> _]. wp_step. apply (free_scan W s s1); auto. intros s2 Hsc2. cbv zeta.
  pose proof (entries_length s ltac:(apply Hnh)) as Hlen.
  assert (match (fun x : nat * (Z * list Z) => DIRENT_SIZE * Z.of_nat x.1) <$> list_find (fun e => e.1 = 0) (entries s) with
    | Some off => off | None => DIRENT_SIZE * ((isize ip s + DIRENT_SIZE - 1) / DIRENT_SIZE) end = DIRENT_SIZE * Z.of_nat (free_slot (entries s))) as ->.
  { clear Hf. unfold free_slot. destruct (list_find _ _) as [[k e]|]; cbn; [reflexivity|]. pose proof (do_size _ D). rewrite dirent_size_eq in *. f_equal. dlia. }
  do 2 wp_step. fold (de_bytes inum name). wp_step. eapply wp_mono.
  - apply (write_entry (free_slot (entries s)) (de_bytes inum name)); [|apply de_bytes_length|by apply de_bytes_ok|by apply scanned_mem|apply load_store_same].
    pose proof (free_slot_le (entries s)). lia.
  - intros q s' Hq. wp_steps. exists q. split; [exact Hq|]. by destruct (q =? DIRENT_SIZE).
Qed.
End link.

(** In a directory, dirlookup() answers the inode of the first entry in use
    with the name, names being compared up to their terminating zero and DIRSIZ
    bytes: the slot of the inode table that iget() found or took for it, with one
    reference more, and the offset of the entry.  It answers 0 if the directory, as a map, does not
    have the name; nothing on the disk changes. *)
Theorem dirlookup_correct W s name :
  let nm := Mem.cstr (Z.to_nat DIRSIZ) name in
  file_st W s -> room W 0 1 s -> no_holes ip s -> dir_ok s -> bytes_ok name ->
  (forall n, dir_map (entries s) !! nm = Some n -> can_iget ROOTDEV n (k_itable s)) ->
  wp (dirlookup ip name) (fun r s' =>
    (forall m, content s' m = content s m) /\
    match r with
    | None => dir_map (entries s) !! nm = None /\ k_itable s' = k_itable s
    | Some (slot, off) => exists n k, dir_map (entries s) !! nm = Some n /\ off = DIRENT_SIZE * Z.of_nat k /\ entries s !! k = Some (n, nm) /\
        igot ROOTDEV n (k_itable s) slot (k_itable s')
    end) s.
Proof.
  intros nm Hs Hr Hnh D Hnm Hget. pose proof (dir_map_lookup (entries s) nm) as Elk. apply (dirlookup_spec W s name); auto; fold nm.
  - intros k e E. apply Hget. by rewrite Elk, E.
  - intros k e slot T s1 E Hsc HT. rewrite E in Elk. split; [apply Hsc|]. exists e.1, k. split; [exact Elk|]. split; [reflexivity|]. split; [|exact HT].
    apply list_find_Some in E as (E1 & [_ <-] & _). rewrite E1. by destruct e.
  - intros s1 E Hsc. rewrite E in Elk. split; [apply Hsc|]. split; [exact Elk|]. apply (scanned_file W s s1 Hs Hsc).
Qed.

(** C9: a directory is a map from names to inode numbers, and dirlink() adds to it:
    it answers 0 after the map has got the name with its inode number, and -1,
    with the same entries as before, if the directory has the name, the disk is
    full, or the directory is as large as a file can be.  The directory stays well-formed,
    and the blocks of other files are as they were. *)
Theorem dirlink_correct W s name inum :
  let nm := Mem.cstr (Z.to_nat DIRSIZ) name in let ib := IBLOCK (i_inum (k_itable s !!! ip)) sb in
  sb_size sb <= BPB -> file_st W s -> no_holes ip s -> room W 10 1 s -> inode_ok (k_itable s !!! ip) ->
  data_block sb lg (content s) ib -> (forall k, 0 <= k <= MAXFILE -> owned (content s) (addrs ip s) k <> ib) ->
  dir_ok s -> bytes_ok name -> 0 < inum < 2 ^ 16 -> igettable s name ->
  wp (dirlink ip name inum) (fun r s' => exists W', file_st W' s' /\ no_holes ip s' /\ dir_ok s' /\
    (forall m, data_block sb lg (content s) m -> (forall j, 0 <= j <= MAXFILE -> owned (content s) (addrs ip s) j <> m) -> m <> ib -> content s' m = content s m) /\
    (r = 0 /\ dir_map (entries s) !! nm = None /\ dir_map (entries s') = <[nm := inum]> (dir_map (entries s)) \/
     r = -1 /\ entries s' = entries s /\
      (is_Some (dir_map (entries s) !! nm) \/ (forall b, 0 <= b < sb_size sb -> used sb (content s') b = true) \/
       Z.of_nat (free_slot (entries s)) * DIRENT_SIZE = MAXFILE * BSIZE))) s.
Proof.
  intros nm ib H1b Hs Hnh Hr Hin Hib Hno D Hnm Hnum Hget. destruct (list_find (named nm) (entries s)) as [[k e]|] eqn:E.
  - eapply wp_mono; [apply (link_present W s Hs Hnh Hr D name inum k e Hnm Hget E)|]. intros r s' (-> & A & B & C & Ee & Hc). exists W.
    split; [exact A|]. split; [exact B|]. split; [exact C|]. split; [intros; apply Hc|]. right. split; [reflexivity|]. split; [exact Ee|]. left.
    rewrite dir_map_lookup, E. by eexists.
  - eapply wp_mono; [apply (link_absent W s H1b Hs Hnh Hr Hin Hib Hno D name inum Hnm E)|]. intros r s' (q & (W' & A & B & C & Ho & _ & Hq) & ->). exists W'.
    split; [exact A|]. split; [exact B|]. split; [exact C|]. split; [exact Ho|]. destruct Hq as [[-> Ee]|(Hne & Ee & Hwhy)].
    + left. rewrite Z.eqb_refl. split; [reflexivity|]. assert (dir_map (entries s) !! nm = None) as Hn by (by rewrite dir_map_lookup, E). split; [exact Hn|].
      rewrite Ee, dent_of_bytes by lia. fold nm. apply dir_map_put; [cbn; lia|exact Hn|]. apply free_slot_dead.
    + right. rewrite (proj2 (Z.eqb_neq _ _) Hne). split; [reflexivity|]. split; [exact Ee|]. by right.
Qed.
End dir.

(** ** A directory with two entries *)

Definition dot : list Z := [46].
Definition dir_block : list Z := de_bytes 5 dot ++ de_bytes 1 [46; 46] ++ replicate 992 0.
Definition dir_inode : inode := mkInode ROOTDEV 5 1 inhabitant true T_DIR 0 0 1 32 ([46; 47] ++ replicate 11 0).
Definition dir_table : list inode := dir_inode :: replicate 49 (with_i_addrs (replicate 13 0) inhabitant).
Definition dir0 : kernel := fs1 dir_table dir_block zeros.

Lemma dir0_entries : entries 0 dir0 = [(5, dot); (1, [46; 46])].
Proof.
  unfold entries, dents. change (isize 0 dir0 / DIRENT_SIZE) with 2. change (seqZ 0 2) with [0; 1]. cbn [fmap list_fmap].
  assert (forall k, file_bytes (content dir0) (addrs 0 dir0) (DIRENT_SIZE * k) DIRENT_SIZE =
    file_bytes (fun n => default (replicate (Z.to_nat BSIZE) 0) (disk1 dir_block zeros !! n)) (i_addrs dir_inode) (DIRENT_SIZE * k) DIRENT_SIZE) as E.
  { intros k. apply file_bytes_ext. intros o _. unfold file_byte. rewrite (fs1_content dir_table dir_block zeros eq_refl eq_refl). do 2 f_equal. }
  rewrite !E. vm_compute. reflexivity.
Qed.

Lemma dir0_ok : dir_ok 0 dir0.
Proof.
  split; [reflexivity|reflexivity|reflexivity|]. change (isize 0 dir0) with 32. intros o Ho.
  assert (file_byte (content dir0) (addrs 0 dir0) o = zget dir_block o) as ->.
  { unfold file_byte. rewrite bsize_eq, Z.div_small, Z.mod_small by lia. rewrite (fs1_content dir_table dir_block zeros eq_refl eq_refl). reflexivity. }
  assert (Forall (fun b => 0 <= b < 256) dir_block) as Hb by (apply (bool_decide_unpack _); vm_compute; exact I).
  unfold zget. apply (Forall_lookup_1 _ _ (Z.to_nat o) _ Hb), list_lookup_lookup_total_lt. change (length dir_block) with 1024%nat. lia.
Qed.

Lemma dir0_free n : can_iget ROOTDEV n (k_itable dir0).
Proof.
  split; [reflexivity|]. exists (with_i_addrs (replicate 13 0) inhabitant). split; [|by right]. right. apply elem_of_replicate. done.
Qed.

Lemma dir0_file : file_st 0 1 0 (k_log dir0) sb0 ∅ dir0.
Proof. by apply (fs1_file dir_table dir_block zeros eq_refl eq_refl dir_inode). Qed.

Lemma dirlookup_correct_witness :
  wp (@dirlookup sync_disk 1%nat 5000 0 [46; 46; 0]) (fun r s' => exists slot, r = Some (slot, 16) /\ igot ROOTDEV 1 dir_table slot (k_itable s')) dir0.
Proof.
  eapply wp_mono; [apply (@dirlookup_correct ld0 ld0_ok sync_disk sync_disk_ok 1%nat 5000 0 1 0 (k_log dir0) sb0 ltac:(done) ∅ dir0 [46; 46; 0] dir0_file)|].
  - apply (fs1_room dir_table dir_block zeros); [reflexivity|reflexivity|lia..].
  - by apply (fs1_no_holes dir_table dir_block zeros eq_refl eq_refl dir_inode).
  - exact dir0_ok.
  - repeat constructor; lia.
  - intros n _. apply dir0_free.
  - rewrite dir0_entries. intros [[slot off]|] s' [_ Hr]; [|by destruct Hr]. destruct Hr as (n & k & E1 & -> & E2 & E3). vm_compute in E1. injection E1 as <-.
    exists slot. split; [|exact E3]. destruct k as [|[|k]]; [discriminate E2|reflexivity|discriminate E2].
Defined.

(** The name "a" for inode 7. *)
Lemma dirlink_correct_witness :
  wp (@dirlink sync_disk 1%nat 5000 0 [97; 0] 7) (fun r s' => r = 0 /\ dir_map (entries 0 s') = {[ dot := 5; [46; 46] := 1; [97] := 7 ]} \/
     r = -1 /\ used sb0 (content s') 1999 = true) dir0.
Proof.
  eapply wp_mono; [apply (@dirlink_correct ld0 ld0_ok sync_disk sync_disk_ok 1%nat 5000 0 1 0 (k_log dir0) sb0 ltac:(done) ∅ dir0 [97; 0] 7)|].
  - cbn. rewrite bpb_eq. lia.
  - exact dir0_file.
  - by apply (fs1_no_holes dir_table dir_block zeros eq_refl eq_refl dir_inode).
  - apply (fs1_room dir_table dir_block zeros); [reflexivity|reflexivity|lia..].
  - split; cbn; try (unfold T_DIR; lia). split; [reflexivity|]. repeat (apply Forall_cons; split; [lia|]). constructor.
  - change (IBLOCK _ sb0) with 32. by apply fs1_data.
  - change (IBLOCK _ sb0) with 32. by apply (fs1_ib dir_table dir_block zeros eq_refl eq_refl dir_inode).
  - exact dir0_ok.
  - repeat constructor; lia.
  - lia.
  - split; [intros n _; apply dir0_free|]. apply Forall_forall, (bool_decide_unpack _). vm_compute. exact I.
  - cbn beta. rewrite dir0_entries. intros r s' (W' & _ & _ & _ & _ & [(-> & _ & E)|(-> & _ & Hwhy)]); [left|right]; (split; [reflexivity|]).
    + rewrite E. vm_compute. reflexivity.
    + destruct Hwhy as [[x Hx]|[Hfu|Hm]]; [vm_compute in Hx; discriminate|apply Hfu; cbn; lia|vm_compute in Hm; discriminate].
Defined.
