(* ===== verification/FsPath.v ===== *)
(** * fs.c: path names.

    The directories on the disk are a graph: an inode that is a directory maps
    names to inodes.  namei() and nameiparent() follow the elements of a path in
    this graph, and leave the inode table with one reference more, to the inode
    they return. *)

From S2P Require Import Prelude Exec Params State Mem Vm VmTable VmUser Sched Sleeplock Bio BioSpec Log LogSpec LogCrash LogOp.
From S2P Require Import RingBuf Uart Printf Console Fs FsBlock FsFile FsInode FsData FsWrite File FsSpec FsDir.

(** ** The elements of a path *)

Fixpoint split_slash (path : list Z) : list (list Z) :=
  match path with
  | [] => [[]]
  | c :: rest =>
      if c =? 47 then [] :: split_slash rest
      else match split_slash rest with e :: es => (c :: e) :: es | [] => [[c]] end
  end.

(** What is between the slashes, without the empty pieces, each cut off at DIRSIZ bytes. *)
Definition elems (path : list Z) : list (list Z) := take (Z.to_nat DIRSIZ) <$> filter (fun e => e <> []) (split_slash path).

Lemma elems_slash rest : elems (47 :: rest) = elems rest.
Proof. reflexivity. Qed.

Lemma elems_skip path : elems (skip_slashes path) = elems path.
Proof.
  induction path as [|c rest IH]; [done|]. cbn [skip_slashes]. destruct (Z.eqb_spec c 47) as [->|]; [by rewrite elems_slash|done].
Qed.

Lemma skip_slashes_chr path : 0 ∉ path -> (chr (skip_slashes path) =? 0) = true -> skip_slashes path = [].
Proof.
  induction path as [|c rest IH]; [done|]. intros Hz. cbn [skip_slashes]. destruct (c =? 47); [set_solver|].
  cbn. intros ->%Z.eqb_eq. set_solver.
Qed.

Lemma skip_slashes_head path c rest : skip_slashes path = c :: rest -> c <> 47.
Proof. induction path as [|c' rest' IH]; [done|]. cbn [skip_slashes]. destruct (Z.eqb_spec c' 47); [auto|]. by intros [= -> ->]. Qed.

Lemma skip_slashes_suffix path : exists pre, path = pre ++ skip_slashes path.
Proof.
  induction path as [|c rest [pre E]]; [by exists []|]. cbn [skip_slashes]. destruct (c =? 47); [|by exists []]. exists (c :: pre). cbn. by f_equal.
Qed.

Lemma path_elem_spec path e r : 0 ∉ path -> path_elem path = (e, r) ->
  path = e ++ r /\ 47 ∉ e /\ (r = [] \/ exists r', r = 47 :: r') /\
  split_slash path = match r with [] => [e] | _ :: r' => e :: split_slash r' end.
Proof.
  revert e r. induction path as [|c rest IH]; intros e r Hz; cbn [path_elem split_slash].
  - intros [= <- <-]. split; [done|]. split; [apply not_elem_of_nil|]. split; [by left|done].
  - assert (c <> 0 /\ 0 ∉ rest) as [Hc Hz'] by set_solver. rewrite (proj2 (Z.eqb_neq c 0)) by done. rewrite andb_true_r. destruct (Z.eqb_spec c 47) as [->|Hne]; cbn [negb].
    + intros [= <- <-]. split; [done|]. split; [apply not_elem_of_nil|]. split; [right; by eexists|done].
    + destruct (path_elem rest) as [e' r'] eqn:E. intros [= <- <-]. destruct (IH e' r' Hz' eq_refl) as (-> & Hn & Hr & ->).
      split; [done|]. split; [set_solver|]. split; [exact Hr|]. by destruct r'.
Qed.

Lemma cstr_take n l : 0 ∉ l -> Mem.cstr n l = take n l.
Proof.
  revert l. induction n as [|n IH]; intros l Hz; [done|]. destruct l as [|c l]; cbn; [done|]. rewrite (proj2 (Z.eqb_neq c 0)) by set_solver. f_equal. apply IH. set_solver.
Qed.

Lemma cstr_term n l : 0 ∉ l -> (length l < n)%nat -> Mem.cstr n (l ++ [0]) = l.
Proof.
  revert n. induction l as [|c l IH]; intros [|n] Hz Hn; cbn in *; [lia|done|lia|]. rewrite (proj2 (Z.eqb_neq c 0)) by set_solver. f_equal. apply IH; [set_solver|lia].
Qed.

Lemma elems_cons c rest : c <> 47 -> elems (c :: rest) <> [].
Proof.
  intros Hc. unfold elems. cbn [split_slash]. rewrite (proj2 (Z.eqb_neq c 47)) by exact Hc. destruct (split_slash rest); rewrite filter_cons_True by done; discriminate.
Qed.

(** skipelem() takes the first element off the path. *)
Lemma skipelem_spec path : 0 ∉ path -> bytes_ok path ->
  match skipelem path with
  | None => elems path = []
  | Some (rest, name) => elems path = Mem.cstr (Z.to_nat DIRSIZ) name :: elems rest /\ 0 ∉ rest /\ bytes_ok rest /\ bytes_ok name /\
      (length rest < length path)%nat /\ ((chr rest =? 0) = true <-> elems rest = [])
  end.
Proof.
  intros Hz Hb. unfold skipelem. rewrite <- (elems_skip path). destruct (skip_slashes_suffix path) as [pre Epre].
  destruct (chr (skip_slashes path) =? 0) eqn:Hc; [by rewrite skip_slashes_chr|].
  remember (skip_slashes path) as p eqn:Ep. assert (0 ∉ p /\ bytes_ok p /\ (length p <= length path)%nat) as (Hzp & Hbp & Hlp).
  { rewrite Epre in Hz, Hb |- *. apply Forall_app in Hb as [_ Hb]. split; [set_solver|]. split; [exact Hb|]. rewrite length_app. lia. }
  clear Epre Hz Hb. destruct (path_elem p) as [e r] eqn:E. destruct (path_elem_spec p e r Hzp E) as (E1 & H47 & Hr & Esp).
  assert (e <> []) as He. { intros ->. destruct Hr as [-> | [r' ->]]; cbn in E1; rewrite E1 in Ep, Hc; [done|]. symmetry in Ep. by apply skip_slashes_head in Ep. }
  destruct (skip_slashes_suffix r) as [pre' Er]. rewrite E1 in Hbp, Hzp, Hlp. apply Forall_app in Hbp as [Hbe Hbr].
  assert (0 ∉ e /\ 0 ∉ skip_slashes r) as [Hze Hzr] by (rewrite Er in Hzp; set_solver).
  split; [|split; [exact Hzr|split; [rewrite Er in Hbr; by apply Forall_app in Hbr as [_ ?]|split; [|split]]]].
  - rewrite elems_skip. unfold elems at 1. rewrite Esp. assert (Mem.cstr (Z.to_nat DIRSIZ) (if DIRSIZ <=? Z.of_nat (length e) then take (Z.to_nat DIRSIZ) e else e ++ [0]) = take (Z.to_nat DIRSIZ) e) as ->.
    { destruct (Z.leb_spec DIRSIZ (Z.of_nat (length e))).
      - rewrite cstr_take by (intros (k & Hk & _)%elem_of_take; by apply Hze, (list_elem_of_lookup_2 _ k)). by rewrite take_take, Nat.min_id.
      - rewrite take_ge by lia. by apply cstr_term; [|lia]. }
    destruct Hr as [-> | [r' ->]]; rewrite filter_cons_True by done; reflexivity.
  - destruct (DIRSIZ <=? _); [by apply Forall_take|]. apply Forall_app. split; [done|]. repeat constructor; lia.
  - rewrite length_app in Hlp. apply (f_equal length) in Er. rewrite length_app in Er. destruct e; [done|]. cbn in Hlp. lia.
  - destruct (skip_slashes r) as [|c l] eqn:Es; [done|]. split; [cbn; intros ->%Z.eqb_eq; set_solver|]. intros En. by destruct (elems_cons c l (skip_slashes_head _ _ _ Es)).
Qed.

(** ** The inode table

    [refs T n] counts the references to inode [n]. *)

Definition refs_in (n : Z) (I : inode) : Z := if i_inum I =? n then i_ref I else 0.
Definition refs (T : list inode) (n : Z) : Z := foldr (fun I r => refs_in n I + r) 0 T.

(** The inodes in the table. *)
Definition live (T : list inode) : list Z := i_inum <$> filter (fun I => 0 < i_ref I) T.

Lemma refs_alter f k T I n : T !! k = Some I -> refs (alter f k T) n = refs T n - refs_in n I + refs_in n (f I).
Proof.
  revert k. induction T as [|J T IH]; intros [|k]; [done..| |]; cbn.
  - intros [= ->]. lia.
  - intros HI. change (foldr _ 0 ?l) with (refs l n). rewrite (IH k HI). lia.
Qed.

Lemma refs_zero T n : (forall J, J ∈ T -> i_inum J = n -> i_ref J = 0) -> refs T n = 0.
Proof.
  induction T as [|J T IH]; [done|]. intros HT. cbn. change (foldr _ 0 T) with (refs T n). rewrite IH by (intros; apply HT; [by right|done]).
  unfold refs_in. destruct (Z.eqb_spec (i_inum J) n) as [E|]; [|done]. rewrite HT; [done|by left|done].
Qed.

Lemma refs_live T n : (forall J, J ∈ T -> 0 <= i_ref J) -> 0 < refs T n <-> n ∈ live T.
Proof.
  unfold live. induction T as [|J T IH]; intros Hp; cbn [refs foldr]; [cbn; split; [lia|by intros ?%elem_of_nil]|].
  change (foldr _ 0 T) with (refs T n). specialize (IH ltac:(intros; apply Hp; by right)). pose proof (Hp J ltac:(by left)) as HJ.
  assert (0 <= refs T n) as Hn. { clear -Hp. induction T as [|K T IH]; [done|]. cbn. change (foldr _ 0 T) with (refs T n). unfold refs_in.
    specialize (IH ltac:(intros L HL; apply Hp; set_solver)). pose proof (Hp K ltac:(set_solver)). destruct (_ =? _); lia. }
  rewrite filter_cons. unfold refs_in. destruct (decide (0 < i_ref J)) as [Hl|Hl]; cbn [fmap list_fmap]; rewrite ?elem_of_cons, <- IH; destruct (Z.eqb_spec (i_inum J) n); naive_solver lia.
Qed.

Lemma alter_insert_eq {A} (f : A -> A) k (l : list A) x : l !! k = Some x -> alter f k l = <[k := f x]> l.
Proof.
  intros Hx. apply list_eq. intros j. destruct (decide (j = k)) as [->|Hne].
  - rewrite list_lookup_alter_eq, Hx, list_lookup_insert_eq by (by eapply lookup_lt_Some). done.
  - by rewrite list_lookup_alter_ne, list_lookup_insert_ne by auto.
Qed.

Lemma refs_insert k T I J n : T !! k = Some I -> refs (<[k := J]> T) n = refs T n - refs_in n I + refs_in n J.
Proof. intros HI. rewrite <- (alter_insert_eq (fun _ => J) k T I HI). by apply refs_alter. Qed.

(** ** The directories on the disk *)

Section tree.
Variables (lg : log) (sb : superblock).

(** The inode as it is on the disk, and an inode of the table after it has been read. *)
Definition loads (c : Z -> list Z) (I : inode) : inode := read_dinode (c (IBLOCK (i_inum I) sb)) (dinode_off (i_inum I)) I.
Definition dino (c : Z -> list Z) (n : Z) : inode := read_dinode (c (IBLOCK n sb)) (dinode_off n) inhabitant.

Definition allocated (c : Z -> list Z) (n : Z) : Prop := 0 < n < sb_ninodes sb /\ i_type (dino c n) <> 0.

Definition dirents (c : Z -> list Z) (n : Z) : list (Z * list Z) := dents c (i_addrs (dino c n)) (i_size (dino c n)).
Definition dir_of (c : Z -> list Z) (n : Z) : option (gmap (list Z) Z) :=
  if i_type (dino c n) =? T_DIR then Some (dir_map (dirents c n)) else None.

(** The inode at the end of a path. *)
Fixpoint follow (c : Z -> list Z) (n : Z) (es : list (list Z)) : option Z :=
  match es with
  | [] => Some n
  | e :: es => d ← dir_of c n; m ← d !! e; follow c m es
  end.

Record inode_sound (c : Z -> list Z) (n : Z) : Prop := {
  is_file : file_ok sb lg c (i_addrs (dino c n));
  is_size : 0 <= i_size (dino c n) <= MAXFILE * BSIZE;
  is_holes : forall bn, 0 <= bn -> bn * BSIZE < i_size (dino c n) -> baddr c (i_addrs (dino c n)) bn <> 0;
  is_dir : i_type (dino c n) = T_DIR -> i_size (dino c n) mod DIRENT_SIZE = 0 /\
    (forall o, 0 <= o < i_size (dino c n) -> 0 <= file_byte c (i_addrs (dino c n)) o < 256) /\
    (forall e, e ∈ dirents c n -> e.1 <> 0 -> allocated c e.1);
}.

Definition tree_ok (c : Z -> list Z) : Prop := forall n, allocated c n -> inode_sound c n.

Lemma loads_dino c I : i_type (loads c I) = i_type (dino c (i_inum I)) /\ i_nlink (loads c I) = i_nlink (dino c (i_inum I)) /\
  i_size (loads c I) = i_size (dino c (i_inum I)) /\ i_addrs (loads c I) = i_addrs (dino c (i_inum I)) /\
  i_inum (loads c I) = i_inum I /\ i_dev (loads c I) = i_dev I /\ i_ref (loads c I) = i_ref I /\ i_lock (loads c I) = i_lock I.
Proof. destruct I. split_and!; reflexivity. Qed.

Lemma loads_twice c I v l : loads c (with_i_lock l (with_i_valid v (loads c I))) = with_i_lock l (with_i_valid v (loads c I)).
Proof. destruct I. reflexivity. Qed.

Lemma loads_ref c I r : loads c (with_i_ref r I) = with_i_ref r (loads c I).
Proof. destruct I. reflexivity. Qed.

Lemma loads_lock c I l : loads c (with_i_lock l I) = with_i_lock l (loads c I).
Proof. destruct I. reflexivity. Qed.

(** The table caches the disk, each inode once. *)
Record table_ok (c : Z -> list Z) (T : list inode) : Prop := {
  tb_len : length T = Z.to_nat NINODE;
  tb_refs : forall I, I ∈ T -> 0 <= i_ref I;
  tb_live : forall k I, T !! k = Some I -> 0 < i_ref I -> i_dev I = ROOTDEV /\ allocated c (i_inum I) /\ (i_valid I = true -> loads c I = I);
  tb_once : forall j k I J, T !! j = Some I -> T !! k = Some J -> 0 < i_ref I -> 0 < i_ref J -> i_inum I = i_inum J -> j = k;
}.

Lemma table_set c T k I J : table_ok c T -> T !! k = Some I -> 0 <= i_ref J ->
  (0 < i_ref J -> i_dev J = ROOTDEV /\ allocated c (i_inum J) /\ (i_valid J = true -> loads c J = J) /\
     forall j L, T !! j = Some L -> 0 < i_ref L -> i_inum L = i_inum J -> j = k) ->
  table_ok c (<[k := J]> T).
Proof.
  intros [A B C D] HI Hn HJ. split.
  - by rewrite length_insert.
  - intros L [j Hj]%list_elem_of_lookup. apply list_lookup_insert_Some in Hj as [(_ & <- & _)|[_ Hj]]; [done|]. by eapply B, list_elem_of_lookup_2.
  - intros j L Hj Hl. apply list_lookup_insert_Some in Hj as [(_ & <- & _)|[_ Hj]]; [|by apply (C j)]. destruct (HJ Hl) as (X & Y & Z & _). auto.
  - intros j1 j2 L1 L2 H1 H2 Hl1 Hl2 E. apply list_lookup_insert_Some in H1 as [(<- & <- & _)|[Hn1 H1]], H2 as [(<- & <- & _)|[Hn2 H2]]; [done| | |by eapply D].
    + symmetry. destruct (HJ Hl1) as (_ & _ & _ & X). by apply (X j2 L2).
    + destruct (HJ Hl2) as (_ & _ & _ & X). by apply (X j1 L1).
Qed.

(** A slot keeps its inode. *)
Lemma table_keep c T k I J : table_ok c T -> T !! k = Some I -> 0 < i_ref I -> 0 <= i_ref J -> i_dev J = i_dev I -> i_inum J = i_inum I ->
  (i_valid J = true -> loads c J = J) -> table_ok c (<[k := J]> T).
Proof.
  intros HT HI Hl Hn Ed Ei Hv. destruct (tb_live _ _ HT k I HI Hl) as (A & B & _). apply (table_set c T k I); [done..|]. intros _. rewrite Ed, Ei.
  split; [done|]. split; [done|]. split; [done|]. intros j L Hj HL E. by apply (tb_once _ _ HT j k L I).
Qed.

Lemma table_refs c T k I : table_ok c T -> T !! k = Some I -> 0 < i_ref I -> refs T (i_inum I) = i_ref I.
Proof.
  intros HT HI Hl. pose proof (refs_insert k T I (with_i_ref 0 I) (i_inum I) HI) as E. unfold refs_in in E. cbn in E. rewrite Z.eqb_refl in E.
  rewrite refs_zero in E; [lia|]. intros J [j Hj]%list_elem_of_lookup EJ. apply list_lookup_insert_Some in Hj as [(_ & <- & _)|[Hne Hj]]; [done|].
  pose proof (tb_refs _ _ HT J ltac:(by eapply list_elem_of_lookup_2)). destruct (decide (i_ref J = 0)) as [|Hr]; [done|].
  destruct Hne. symmetry. apply (tb_once _ _ HT j k J I); auto. lia.
Qed.

Lemma table_nodup c T : table_ok c T -> NoDup (live T).
Proof.
  intros [_ _ _ D]. unfold live. induction T as [|I T IH]; [constructor|]. rewrite filter_cons. assert (NoDup (i_inum <$> filter (fun I => 0 < i_ref I) T)) as HT.
  { apply IH. intros j k J K H1 H2 Hj Hk E. by injection (D (S j) (S k) J K H1 H2 Hj Hk E). }
  destruct (decide (0 < i_ref I)) as [Hl|]; [|done]. cbn [fmap list_fmap]. constructor; [|done].
  intros (J & E & [HJ [j Hj]%list_elem_of_lookup]%list_elem_of_filter)%list_elem_of_fmap. by specialize (D 0%nat (S j) I J eq_refl Hj Hl HJ E).
Qed.

Lemma table_grows c T T' n : table_ok c T -> table_ok c T' -> (forall m, 0 < refs T' m -> 0 < refs T m \/ m = n) -> (length (live T') <= S (length (live T)))%nat.
Proof.
  intros HT HT' Hm. change (length (live T') <= length (n :: live T))%nat. apply submseteq_length, NoDup_submseteq; [by eapply table_nodup|].
  intros m Hin. apply refs_live in Hin; [|apply HT']. destruct (Hm m Hin) as [Hr| ->]; [right|left]. by apply refs_live in Hr; [|apply HT].
Qed.

Lemma table_can_iget c T n : table_ok c T -> (length (live T) < Z.to_nat NINODE)%nat -> can_iget ROOTDEV n T.
Proof.
  intros HT Hl. split; [apply HT|]. destruct (decide (Forall (fun I => 0 < i_ref I) T)) as [Ha|Hn].
  - exfalso. unfold live in Hl. assert (filter (fun I => 0 < i_ref I) T = T) as E by (clear -Ha; induction Ha; [done|]; rewrite filter_cons_True by done; by f_equal).
    rewrite length_fmap, E, (tb_len _ _ HT) in Hl. lia.
  - apply not_Forall_Exists in Hn; [|apply _]. apply Exists_exists in Hn as (I & HI & Hr). exists I. split; [done|]. right. pose proof (tb_refs _ _ HT I HI). cbn in Hr. lia.
Qed.
End tree.

(** ** The operations on inodes *)

Section walk.
Context `{LinkerOk} `{DiskOk} `{Waits} `{Frame}.
Variables (i : nat) (pid : Z).

(** Only the inode table, the local variables and the caches of blocks have changed. *)
Record walked (W : gset Z) (lks : list (nat * Z)) (s s' : kernel) : Prop := {
  wd_fop : fop i pid W lks s';
  wd_content : forall m, content s' m = content s m;
  wd_frame : fs_frame (with_k_itable (k_itable s') (with_k_mem (k_mem s') s)) s';
  wd_op : in_op s s';
}.

Lemma walked_refl W s : fop i pid W [] s -> walked W [] s s.
Proof. intros Hf. split; [done..| |apply in_op_refl]. destruct s. apply fs_frame_refl. Qed.

Lemma walked_trans W lks1 lks2 s s1 s2 : walked W lks1 s s1 -> walked W lks2 s1 s2 -> walked W lks2 s s2.
Proof.
  intros [_ A B C] [A1 A2 A3 A4]. split; [done|intros m; by rewrite A2| |by eapply in_op_trans].
  eapply fs_frame_trans; [|exact A3]. destruct B as [B1 B2 B3]. split; [rewrite B1; reflexivity|exact B2|exact B3].
Qed.

Lemma walked_itable W lks s s1 T : walked W lks s s1 -> walked W lks s (with_k_itable T s1).
Proof.
  intros [A B C D]. split; [eapply fop_same; [exact A|reflexivity..]|exact B| |].
  - destruct C as [C1 C2 C3]. split; [rewrite C1; reflexivity|exact C2|exact C3].
  - by destruct D.
Qed.

Lemma walked_scanned W s s1 : scanned i pid W s s1 -> walked W [] s s1.
Proof.
  intros (A & B & C & D). assert (k_itable s1 = k_itable s) as E by (by rewrite (fs_frame_eq _ _ C)). split; [done..| |done]. rewrite E. by destruct s.
Qed.

Lemma walked_frame W lks s s1 : fop i pid W lks s1 -> (forall m, content s1 m = content s m) -> fs_frame s s1 -> in_op s s1 -> walked W lks s s1 /\ k_itable s1 = k_itable s.
Proof.
  intros A B C D. assert (k_itable s1 = k_itable s /\ k_mem s1 = k_mem s) as [E1 E2] by (by rewrite (fs_frame_eq _ _ C)). split; [|done].
  split; [done..| |done]. rewrite E1, E2. by destruct s.
Qed.

Lemma fop_wakes W lks s s' : fop i pid W lks s -> wakes s s' -> fop i pid W lks s'.
Proof.
  intros [(pins & [Tc Tg Tl Tp Tn Te To] & Hnd & Hs & Hcl) Ho] Hw. pose proof (wk_rest _ _ Hw) as E.
  assert (forall m, disk_block s' m = disk_block s m) as Hd by (intros m; rewrite E; reflexivity).
  assert (k_log s' = k_log s) as E4 by (by rewrite E). split; [|by rewrite E4]. exists pins. split_and!; [|exact Hnd|exact Hs|].
  - split; rewrite ?E4, ?Hd; auto. destruct (ca_inv _ _ _ _ _ Tc) as [l Hi]. eapply cache_frame; [exact Tc| | |by rewrite E].
    + eapply bcache_inv_frame; [exact Hi|by rewrite E..].
    + by eapply wakes_running; [|apply Tc].
  - intros b n Hin. rewrite (content_frame s), Hd by (by rewrite E). eauto.
Qed.

Lemma fop_running W s : fop i pid W [] s -> running i pid s.
Proof. intros [(pins & Ht & _) _]. apply Ht. Qed.

Lemma ilock_spec W s k I (Q : unit -> kernel -> Prop) : fop i pid W [] s -> room W 0 1 s -> k_itable s !! k = Some I -> 0 < i_ref I -> i_dev I = ROOTDEV ->
  sl_locked (i_lock I) = false -> (i_valid I = true -> loads (k_sb s) (content s) I = I) -> i_type (dino (k_sb s) (content s) (i_inum I)) <> 0 ->
  (forall s', walked W [] s s' -> k_itable s' = <[k := with_i_lock (mkSleeplock true pid) (with_i_valid true (loads (k_sb s) (content s) I))]> (k_itable s) -> Q tt s') ->
  wp (ilock k) Q s.
Proof.
  intros Hf Hr HI Hl Hd Hu Hv Ht HQ. pose proof (lookup_lt_Some _ _ _ HI) as Hlt. unfold ilock, inode_at. do 2 wp_step. rewrite (list_lookup_total_correct _ _ _ HI).
  rewrite (proj2 (Z.ltb_ge _ _)) by lia. wp_step. apply (acquiresleep_spec i pid); [by eapply fop_running|by cbn; rewrite (list_lookup_total_correct _ _ _ HI)|].
  set (lk := mkSleeplock true pid) in *. cbn [sl_set]. rewrite (alter_insert_eq _ _ _ _ HI). do 2 wp_step. cbn [k_itable with_k_itable].
  rewrite list_lookup_total_insert_eq by done. cbn [i_valid with_i_lock]. destruct (i_valid I) eqn:Ev; cbn [negb when].
  - wp_steps. apply HQ; [by apply walked_itable, walked_refl|]. cbn. rewrite Hv by done. do 2 f_equal. by destruct I; cbn in Ev; subst.
  - unfold get_sb. do 2 wp_step. set (T1 := <[k := _]> _) at 1. set (s1 := with_k_itable T1 s). change (k_sb s1) with (k_sb s). cbn [i_dev i_inum with_i_lock]. rewrite Hd.
    set (n := IBLOCK (i_inum I) (k_sb s)). pose proof (walked_itable _ _ _ _ T1 (walked_refl W s Hf)) as W1. fold s1 in W1. wp_step.
    apply (fop_bread i pid W [] s1 n); [apply W1|eapply room_le; [exact Hr|lia|cbn; lia]|apply not_elem_of_nil|]. intros bp s2 Hf2 Hc2 Hfr2 Ho2.
    destruct (walked_frame _ _ _ _ Hf2 Hc2 Hfr2 Ho2) as [W2 E2]. wp_step. apply (fop_data i pid W [(bp, n)] s2 bp n); [exact Hf2|by left|].
    unfold upd_inode. do 3 wp_step. rewrite E2, Hc2, (wd_content _ _ _ _ W1). set (T3 := alter _ _ _). 
    pose proof (walked_itable _ _ _ _ T3 (walked_trans _ _ _ _ _ _ W1 W2)) as W3.
    apply (fop_brelse i pid W [] [] _ bp n); [apply W3|]. intros s4 Hf4 Hc4 Hfr4 Ho4. destruct (walked_frame _ _ _ _ Hf4 Hc4 Hfr4 Ho4) as [W4 E4].
    pose proof (walked_trans _ _ _ _ _ _ W3 W4) as W5. do 4 wp_step. rewrite E4. cbn [k_itable with_k_itable].
    set (J := with_i_lock lk (with_i_valid true (loads (k_sb s) (content s) I))).
    assert (alter (with_i_valid true) k T3 = <[k := J]> (k_itable s)) as ->.
    { unfold T3. change (k_itable s1) with T1. unfold T1. rewrite (alter_insert_eq (read_dinode _ _) k _ (with_i_lock lk I)) by (by apply list_lookup_insert_eq). rewrite list_insert_insert_eq.
      rewrite (alter_insert_eq _ k _ (read_dinode (content s n) (dinode_off (i_inum I)) (with_i_lock lk I))) by (by apply list_lookup_insert_eq).
      rewrite list_insert_insert_eq. reflexivity. }
    rewrite list_lookup_total_insert_eq by done. change (i_type J) with (i_type (loads (k_sb s) (content s) I)).
    rewrite (proj1 (loads_dino (k_sb s) (content s) I)). rewrite (proj2 (Z.eqb_neq _ _)) by done. wp_steps. apply HQ; [by apply walked_itable|done].
Qed.

Lemma iunlock_spec W s k I (Q : unit -> kernel -> Prop) : fop i pid W [] s -> k_itable s !! k = Some I -> 0 < i_ref I -> i_lock I = mkSleeplock true pid ->
  (forall s', walked W [] s s' -> k_itable s' = <[k := with_i_lock (mkSleeplock false 0) I]> (k_itable s) -> Q tt s') -> wp (iunlock k) Q s.
Proof.
  intros Hf HI Hl Hlk HQ. unfold iunlock, inode_at. wp_step. apply (holdingsleep_spec i pid); [by eapply fop_running|]. cbn [sl_get].
  do 2 wp_step. rewrite (list_lookup_total_correct _ _ _ HI), Hlk. cbn [sl_locked sl_pid andb]. rewrite Z.eqb_refl, (proj2 (Z.ltb_ge _ _)) by lia. cbn [negb orb].
  apply (releasesleep_spec i pid); [by eapply fop_running|]. cbn [sl_set]. rewrite (alter_insert_eq _ _ _ _ HI). set (T1 := <[k := _]> _). intros s' Hw.
  pose proof (walked_itable _ _ _ _ T1 (walked_refl W s Hf)) as W1. set (s1 := with_k_itable T1 s) in *. pose proof (fop_wakes W [] s1 s' (wd_fop _ _ _ _ W1) Hw) as Hf'.
  pose proof (wk_rest _ _ Hw) as E. destruct (walked_frame W [] s1 s') as [W2 E2]; [done| | | |].
  - intros m. by rewrite (content_frame s1) by (by rewrite E).
  - destruct Hw as [A B C]. split; [rewrite A; reflexivity|exact B|exact C].
  - rewrite E. by split.
  - apply HQ; [by eapply walked_trans|done].
Qed.

(** iput() of a reference that is not the last one to an unlinked inode. *)
Lemma iput_spec W s k I (Q : unit -> kernel -> Prop) : fop i pid W [] s -> k_itable s !! k = Some I -> 0 < i_ref I < 2 ^ 31 -> (i_valid I = true -> i_nlink I = 0 -> i_ref I <> 1) ->
  Q tt (with_k_itable (<[k := with_i_ref (i_ref I - 1) I]> (k_itable s)) s) -> wp (iput k) Q s.
Proof.
  intros Hf HI Hl Hn HQ. pose proof (fop_quiet i pid W s Hf) as Hh. unfold iput. wp_step. apply wp_acquire; [rewrite Hh; apply not_elem_of_nil|]. rewrite Hh. unfold inode_at. do 2 wp_step.
  change (k_itable (with_k_held [Litable] s)) with (k_itable s). rewrite (list_lookup_total_correct _ _ _ HI).
  assert ((i_ref I =? 1) && i_valid I && (i_nlink I =? 0) = false) as ->.
  { apply not_true_is_false. rewrite !andb_true_iff, !Z.eqb_eq. tauto. }
  cbn [when]. unfold upd_inode. do 4 wp_step. apply (wp_release _ []); [reflexivity|apply not_elem_of_nil|].
  cbn [k_itable with_k_held]. rewrite (alter_insert_eq _ _ _ _ HI), i32_id by lia. rewrite <- Hh. by destruct s.
Qed.

(** ** The walk *)

Definition one (n m : Z) : Z := if n =? m then 1 else 0.
Definition locks (T : list inode) : list sleeplock := i_lock <$> T.
Definition unlocked (L : list sleeplock) : Prop := Forall (fun l => sl_locked l = false) L.

Lemma igot_effect sb c n T k T' : table_ok sb c T -> allocated sb c n -> (forall m, refs T m < 2 ^ 31 - 1) -> igot ROOTDEV n T k T' ->
  table_ok sb c T' /\ locks T' = locks T /\ (forall m, refs T' m = refs T m + one n m) /\ (exists I, T' !! k = Some I /\ i_inum I = n /\ 0 < i_ref I) /\
  (forall j I, T !! j = Some I -> 0 < i_ref I -> exists r, T' !! j = Some (with_i_ref r I) /\ 0 < r).
Proof.
  intros HT Hn Hb (I & HI & Hcase). pose proof (lookup_lt_Some _ _ _ HI) as Hlt.
  assert (exists J, T' = <[k := J]> T /\ i_lock J = i_lock I /\ i_inum J = n /\ 0 < i_ref J /\ (forall m, refs_in m J = refs_in m I + one n m) /\ table_ok sb c (<[k := J]> T) /\
    (0 < i_ref I -> J = with_i_ref (i_ref J) I)) as (J & -> & El & En & Hr & Hrefs & HT' & Hsame).
  { destruct Hcase as [((Hl & Hd & Ei) & ->)|(Hz & Hno & ->)]; rewrite (alter_insert_eq _ _ _ _ HI); (eexists; split; [reflexivity|]); cbn.
    - pose proof (table_refs _ _ _ _ _ HT HI Hl) as E. specialize (Hb (i_inum I)). rewrite i32_id by lia. split_and!; [done|done|lia| | |done].
      + intros m. unfold refs_in, one. cbn. rewrite Ei. destruct (n =? m); lia.
      + apply (table_keep _ _ _ _ I); try done; [cbn; lia|]. intros Hv. destruct (tb_live _ _ _ HT k I HI Hl) as (_ & _ & Hld). rewrite loads_ref. by rewrite (Hld Hv).
    - split_and!; [done|done|lia| | |lia].
      + intros m. unfold refs_in, one. cbn. rewrite Hz. by destruct (i_inum I =? m), (n =? m).
      + apply (table_set _ _ _ _ I); [done|done|cbn; lia|]. intros _. cbn. split_and!; [done|done|done|]. intros j L Hj HL E.
        destruct (Hno L); [by eapply list_elem_of_lookup_2|]. split_and!; [done|by apply (tb_live _ _ _ HT j)|done]. }
  split; [done|]. split; [|split; [|split]].
  - unfold locks. rewrite (list_fmap_insert i_lock T k J). apply list_insert_id. rewrite list_lookup_fmap, HI. cbn. by f_equal.
  - intros m. rewrite (refs_insert _ _ _ _ _ HI), Hrefs. lia.
  - exists J. rewrite list_lookup_insert_eq by done. done.
  - intros j L Hj HL. destruct (decide (j = k)) as [->|Hne].
    + rewrite HI in Hj. injection Hj as <-. exists (i_ref J). rewrite list_lookup_insert_eq by done. split; [|done]. by rewrite <- Hsame.
    + exists (i_ref L). rewrite list_lookup_insert_ne by done. split; [|done]. rewrite Hj. by destruct L.
Qed.

(** The state namex() is called in. *)
Record path_st (lg : log) (W : gset Z) (s : kernel) : Prop := {
  ps_fop : fop i pid W [] s;
  ps_room : room W 0 1 s;
  ps_log : same_log lg s;
  ps_geom : fs_geom (k_sb s) lg;
  ps_free : free_ok (k_sb s) lg (content s);
  ps_tree : tree_ok lg (k_sb s) (content s);
  ps_table : table_ok (k_sb s) (content s) (k_itable s);
  ps_locks : unlocked (locks (k_itable s));
  ps_space : (length (live (k_itable s)) + 2 <= Z.to_nat NINODE)%nat;
  ps_refs : forall n, 0 <= refs (k_itable s) n < 2 ^ 31 - 3;
  ps_linked : forall n, allocated (k_sb s) (content s) n -> i_nlink (dino (k_sb s) (content s) n) = 0 -> 0 < refs (k_itable s) n;
}.

Section run.
Variables (lg : log) (W : gset Z) (s0 : kernel).
Hypothesis P0 : path_st lg W s0.
Hypothesis frame_ok : 0 <= frame /\ frame + DIRENT_SIZE < 2 ^ 64.
Notation sb := (k_sb s0).
Notation c := (content s0).

(** Slot [k] holds inode [n]. *)
Definition slot_of (T : list inode) (k : nat) (n : Z) : Prop := exists I, T !! k = Some I /\ i_inum I = n /\ 0 < i_ref I.

(** The references are those of the start and [d]; no inode is locked. *)
Record kept (d : Z -> Z) (s : kernel) : Prop := {
  kp_walked : walked W [] s0 s;
  kp_table : table_ok sb c (k_itable s);
  kp_locks : unlocked (locks (k_itable s));
  kp_refs : forall m, refs (k_itable s) m = refs (k_itable s0) m + d m;
}.

(** Inode [n] in slot [k] is locked, and there are references [d] more. *)
Record locked (n : Z) (k : nat) (d : Z -> Z) (s : kernel) : Prop := {
  lk_walked : walked W [] s0 s;
  lk_table : table_ok sb c (k_itable s);
  lk_locks : exists L, locks (k_itable s) = <[k := mkSleeplock true pid]> L /\ unlocked L /\ (k < length L)%nat;
  lk_refs : forall m, refs (k_itable s) m = refs (k_itable s0) m + one n m + d m;
  lk_slot : exists I, k_itable s !! k = Some I /\ i_inum I = n /\ 0 < i_ref I /\ i_valid I = true;
}.

Lemma walked_sb s : walked W [] s0 s -> k_sb s = sb.
Proof. intros Hw. by rewrite (fs_frame_eq _ _ (wd_frame _ _ _ _ Hw)). Qed.

Lemma walked_room s : walked W [] s0 s -> room W 0 1 s.
Proof. intros Hw. eapply room_op; [apply P0|apply Hw]. Qed.

Lemma loads_ext sb' c' I : (forall m, c' m = c m) -> loads sb' c' I = loads sb' c I.
Proof. intros Hc. unfold loads. by rewrite Hc. Qed.

Lemma dino_ext sb' c' n : (forall m, c' m = c m) -> dino sb' c' n = dino sb' c n.
Proof. intros Hc. unfold dino. by rewrite Hc. Qed.

Lemma insert_locks T k J : locks (<[k := J]> T) = <[k := i_lock J]> (locks T).
Proof. apply list_fmap_insert. Qed.

Lemma ilock_step n k s (Q : unit -> kernel -> Prop) : kept (one n) s -> slot_of (k_itable s) k n -> (forall s', locked n k (fun _ => 0) s' -> Q tt s') -> wp (ilock k) Q s.
Proof.
  intros [A B C D] (I & HI & En & Hl) HQ. destruct (tb_live _ _ _ B k I HI Hl) as (E1 & E2 & E3). pose proof (wd_content _ _ _ _ A) as Hc.
  pose proof (lookup_lt_Some _ _ _ HI) as Hlt.
  apply (ilock_spec W s k I); rewrite ?(walked_sb s A), ?(loads_ext _ _ _ Hc), ?(dino_ext _ _ _ Hc); [apply A|by apply walked_room|done..| |done|apply E2|].
  - unfold unlocked in C. rewrite Forall_forall in C. apply C. unfold locks. apply list_elem_of_fmap. exists I. split; [done|]. by eapply list_elem_of_lookup_2.
  - intros s' Hw ET. set (J := with_i_lock _ _) in ET. apply HQ. split.
    + by eapply walked_trans.
    + rewrite ET. apply (table_keep _ _ _ _ I); [done..|apply Z.lt_le_incl, Hl|reflexivity|reflexivity|]. intros _. apply loads_twice.
    + exists (locks (k_itable s)). rewrite ET, insert_locks. split; [done|]. split; [done|]. unfold locks. by rewrite length_fmap.
    + intros m. rewrite ET, (refs_insert _ _ _ _ _ HI), D. change (refs_in m J) with (refs_in m I). lia.
    + exists J. rewrite ET, list_lookup_insert_eq by done. split; [reflexivity|]. split; [exact En|]. split; [exact Hl|reflexivity].
Qed.

Lemma locked_file n k d s : locked n k d s -> file_st i pid k lg sb W s /\ no_holes k s /\ i_type (k_itable s !!! k) = i_type (dino sb c n) /\
  (i_type (dino sb c n) = T_DIR -> dir_ok k s /\ entries k s = dirents sb c n).
Proof.
  intros [A B _ _ (I & HI & En & Hl & Hv)]. destruct (tb_live _ _ _ B k I HI Hl) as (E1 & E2 & E3). pose proof (wd_content _ _ _ _ A) as Hc.
  destruct (loads_dino sb c I) as (L1 & L2 & L3 & L4 & _). rewrite (E3 Hv), En in L1, L2, L3, L4. rewrite En in E2.
  destruct (ps_tree _ _ _ P0 n E2) as [S1 S2 S3 S4]. pose proof (list_lookup_total_correct _ _ _ HI) as EI.
  assert (addrs k s = i_addrs (dino sb c n) /\ isize k s = i_size (dino sb c n)) as [Ea Ez] by (unfold addrs, isize; by rewrite EI).
  split; [|split; [|split; [by rewrite EI|]]].
  - split; [apply A|by eapply lookup_lt_Some|by rewrite EI|by apply walked_sb|eapply same_log_op; [apply P0|apply A]|apply P0| |].
    + eapply free_ext; [exact Hc|apply P0].
    + rewrite Ea. by eapply file_ext.
  - unfold no_holes. rewrite Ea, Ez. split; [done|]. intros bn Hb Hs. rewrite (baddr_eqf _ _ _ _ Hc). by apply S3.
  - intros Hd. destruct (S4 Hd) as (D1 & D2 & _). split.
    + split; [by rewrite EI, L1|by rewrite EI|by rewrite Ez|]. intros o. rewrite Ea, Ez. unfold file_byte. rewrite (baddr_eqf _ _ _ _ Hc), Hc. apply D2.
    + unfold entries, dirents, dents. rewrite Ea, Ez. apply list_fmap_ext. intros _ j _. f_equal. apply file_bytes_ext. intros o _. unfold file_byte.
      by rewrite (baddr_eqf _ _ _ _ Hc), Hc.
Qed.

Lemma dirlookup_step n k s name (Q : option (nat * Z) -> kernel -> Prop) : let nm := Mem.cstr (Z.to_nat DIRSIZ) name in
  locked n k (fun _ => 0) s -> i_type (dino sb c n) = T_DIR -> bytes_ok name ->
  (forall s', dir_map (dirents sb c n) !! nm = None -> locked n k (fun _ => 0) s' -> Q None s') ->
  (forall m slot off s', dir_map (dirents sb c n) !! nm = Some m -> locked n k (one m) s' -> slot_of (k_itable s') slot m -> Q (Some (slot, off)) s') ->
  wp (dirlookup k name) Q s.
Proof.
  intros nm Hlk Hd Hnm HN HS. destruct (locked_file _ _ _ _ Hlk) as (Hs & Hnh & Hty & Hdir). destruct (Hdir Hd) as [D Ee]. destruct Hlk as [A B C R (I & HI & En & Hl & Hv)].
  pose proof (dir_map_lookup (dirents sb c n) nm) as Elk.
  assert (allocated sb c n) as Hn by (rewrite <- En; by apply (tb_live _ _ _ B k I)).
  assert (forall m, 0 <= refs (k_itable s) m < 2 ^ 31 - 1) as Hrb. { intros m. rewrite R. pose proof (ps_refs _ _ _ P0 m). unfold one. destruct (_ =? _); lia. }
  assert (can_iget ROOTDEV (default 0 (dir_map (dirents sb c n) !! nm)) (k_itable s)) as Hcan.
  { eapply table_can_iget; [exact B|]. pose proof (ps_space _ _ _ P0). pose proof (table_grows _ _ _ _ n (ps_table _ _ _ P0) B) as Hg. apply Nat.lt_le_trans with (S (S (length (live (k_itable s0))))); [|lia].
    apply Nat.lt_succ_r, Hg. intros m. rewrite R. unfold one. destruct (Z.eqb_spec n m); [by right|]. left. lia. }
  apply (dirlookup_spec i pid k lg sb frame_ok W s name); try assumption; [by apply walked_room|..]; rewrite Ee; fold nm.
  - intros j e E. rewrite Elk, E in Hcan. exact Hcan.
  - intros j e slot T s1 E Hsc HT. rewrite E in Elk. cbn in Elk. apply list_find_Some in E as (E1 & [Hnz _] & _).
    destruct (ps_tree _ _ _ P0 n Hn) as [_ _ _ S4]. destruct (S4 Hd) as (_ & _ & Hch). specialize (Hch e (list_elem_of_lookup_2 _ _ _ E1) Hnz).
    destruct (igot_effect _ _ _ _ _ _ B Hch ltac:(intros m; apply Hrb) HT) as (G1 & G2 & G3 & G4 & G5). apply (HS e.1); [done| |exact G4].
    split; cbn [k_itable with_k_itable]; [|exact G1|by rewrite G2| |].
    + apply walked_itable. eapply walked_trans; [exact A|by apply walked_scanned].
    + intros m. rewrite G3, R. lia.
    + destruct (G5 k I HI Hl) as (r & Hr & Hpos). exists (with_i_ref r I). done.
  - intros s1 E Hsc. rewrite E in Elk. apply HN; [done|]. destruct (scanned_file i pid k lg sb W s s1 Hs Hsc) as [_ Ei].
    split; rewrite ?Ei; [eapply walked_trans; [exact A|by apply walked_scanned]|done..|by exists I].
Qed.

Lemma iunlock_step n k d s (Q : unit -> kernel -> Prop) : locked n k d s ->
  (forall s', kept (fun m => one n m + d m) s' -> (forall j m, slot_of (k_itable s) j m -> slot_of (k_itable s') j m) -> Q tt s') -> wp (iunlock k) Q s.
Proof.
  intros [A B (L & EL & HL & Hk) R (I & HI & En & Hl & Hv)] HQ. pose proof (lookup_lt_Some _ _ _ HI) as Hlt.
  assert (i_lock I = mkSleeplock true pid) as Elk.
  { assert (locks (k_itable s) !! k = Some (i_lock I)) as E by (unfold locks; by rewrite list_lookup_fmap, HI). rewrite EL, list_lookup_insert_eq in E by done. by injection E. }
  apply (iunlock_spec W s k I); [apply A|done..|]. intros s' Hw ET. set (J := with_i_lock _ _) in ET. apply HQ.
  - split; [by eapply walked_trans|..]; rewrite ET.
    + apply (table_keep _ _ _ _ I); [done..|apply Z.lt_le_incl, Hl|reflexivity|reflexivity|]. intros _. unfold J. rewrite loads_lock.
      by rewrite (proj2 (proj2 (tb_live _ _ _ B k I HI Hl)) Hv).
    + rewrite insert_locks, EL, list_insert_insert_eq. by apply Forall_insert.
    + intros m. rewrite (refs_insert _ _ _ _ _ HI), R. change (refs_in m J) with (refs_in m I). lia.
  - intros j m (K & HK & EK & HlK). rewrite ET. destruct (decide (j = k)) as [->|Hne].
    + exists J. rewrite list_lookup_insert_eq by done. rewrite HI in HK. injection HK as <-. done.
    + exists K. by rewrite list_lookup_insert_ne.
Qed.

Lemma iput_step n k d s (Q : unit -> kernel -> Prop) : kept (fun m => one n m + d m) s -> slot_of (k_itable s) k n -> (forall m, 0 <= d m <= 1) ->
  (forall s', kept d s' -> (forall j m, slot_of (k_itable s) j m -> 0 < refs (k_itable s') m -> slot_of (k_itable s') j m) -> Q tt s') -> wp (iput k) Q s.
Proof.
  intros [A B C R] (I & HI & En & Hl) Hd HQ. pose proof (lookup_lt_Some _ _ _ HI) as Hlt. destruct (tb_live _ _ _ B k I HI Hl) as (E1 & E2 & E3). rewrite En in E2.
  pose proof (table_refs _ _ _ _ _ B HI Hl) as Er. rewrite En, R in Er. unfold one in Er. rewrite Z.eqb_refl in Er. pose proof (ps_refs _ _ _ P0 n) as Hb. specialize (Hd n).
  set (T' := <[k := with_i_ref (i_ref I - 1) I]> (k_itable s)). assert (forall m, refs T' m = refs (k_itable s0) m + d m) as R'.
  { intros m. unfold T'. rewrite (refs_insert _ _ _ _ _ HI), R. unfold refs_in, one. cbn. rewrite En. destruct (n =? m); lia. }
  apply (iput_spec W s k I); [apply A|done|lia| |].
  - intros Hv Hz. destruct (loads_dino sb c I) as (_ & L2 & _). rewrite (E3 Hv), Hz, En in L2. pose proof (ps_linked _ _ _ P0 n E2 (eq_sym L2)). lia.
  - fold T'. apply HQ; cbn [k_itable with_k_itable].
    + split; cbn [k_itable with_k_itable]; [by apply walked_itable| | |exact R'].
      * apply (table_keep _ _ _ _ I); [done..|cbn; lia|done|done|]. intros Hv. rewrite loads_ref. by rewrite (E3 Hv).
      * unfold T'. rewrite insert_locks. cbn. rewrite list_insert_id; [done|]. unfold locks. by rewrite list_lookup_fmap, HI.
    + intros j m (K & HK & EK & HlK) Hm. unfold T'. destruct (decide (j = k)) as [->|Hne].
      * rewrite HI in HK. injection HK as <-. exists (with_i_ref (i_ref I - 1) I). rewrite list_lookup_insert_eq by done. split; [done|]. split; [done|].
        cbn. rewrite R', <- EK, En in Hm. lia.
      * exists K. by rewrite list_lookup_insert_ne.
Qed.

Lemma iunlockput_step n k d s (Q : unit -> kernel -> Prop) : locked n k d s -> (forall m, 0 <= d m <= 1) ->
  (forall s', kept d s' -> (forall j m, slot_of (k_itable s) j m -> 0 < refs (k_itable s') m -> slot_of (k_itable s') j m) -> Q tt s') -> wp (iunlockput k) Q s.
Proof.
  intros Hlk Hd HQ. unfold iunlockput. wp_step. apply (iunlock_step n k d s); [done|]. intros s1 K1 S1. apply (iput_step n k d s1); [done| |done|].
  - apply S1. destruct Hlk as [_ _ _ _ (I & HI & En & Hl & _)]. by exists I.
  - intros s2 K2 S2. apply HQ; [done|]. intros j m Hj Hm. apply S2; auto.
Qed.

(** What namex() looks for: the last inode, or the directory that holds it. *)
Definition target (parent : bool) (n : Z) (es : list (list Z)) : option Z :=
  if parent then
    match es with
    | [] => None
    | _ => m ← follow sb c n (removelast es); d ← dir_of sb c m; Some m
    end
  else follow sb c n es.

Lemma target_cons parent n e es : target parent n (e :: es) =
  d ← dir_of sb c n; if parent && bool_decide (es = []) then Some n else m ← d !! e; target parent m es.
Proof.
  destruct parent; [|done]. cbn [target andb]. destruct es as [|e' es]; cbn; [by destruct (dir_of _ _ _)|].
  destruct (dir_of sb c n) as [d|]; [|done]. cbn. by destruct (d !! e).
Qed.

Definition found (parent : bool) (n : Z) (es : list (list Z)) (r : option (nat * list Z)) (s : kernel) : Prop :=
  match target parent n es with
  | None => r = None /\ kept (fun _ => 0) s
  | Some m => exists k name, r = Some (k, name) /\ kept (one m) s /\ slot_of (k_itable s) k m /\
      (parent = true -> last es = Some (Mem.cstr (Z.to_nat DIRSIZ) name))
  end.

Lemma dir_of_type n : dir_of sb c n = if i_type (dino sb c n) =? T_DIR then Some (dir_map (dirents sb c n)) else None.
Proof. reflexivity. Qed.

(** The body of namex()'s loop. *)
Definition namex_body (parent : bool) (st : nat * list Z * list Z) : KM (nat * list Z * list Z + option (nat * list Z)) :=
  let '(ip, path, name) := st in
  match skipelem path with
  | None => if parent then iput ip ;;; ret (inr None) else ret (inr (Some (ip, name)))
  | Some (path, name) =>
      ilock ip ;;;
      i <- inode_at ip ;;
      if negb (i_type i =? T_DIR) then iunlockput ip ;;; ret (inr None) else
      if parent && (chr path =? 0) then iunlock ip ;;; ret (inr (Some (ip, name))) else
      o <- dirlookup ip name ;;
      match o with
      | None => iunlockput ip ;;; ret (inr None)
      | Some (next, _) => iunlockput ip ;;; ret (inl (next, path, name))
      end
  end.

Lemma kept_one n s : kept (fun m => one n m + 0) s -> kept (one n) s.
Proof. intros [A B C D]. split; [done..|]. intros m. rewrite D. lia. Qed.

Lemma one_range n m : 0 <= one n m <= 1.
Proof. unfold one. destruct (_ =? _); lia. Qed.

Lemma namex_step parent ip path name n s : 0 ∉ path -> bytes_ok path -> kept (one n) s -> slot_of (k_itable s) ip n ->
  wp (namex_body parent (ip, path, name)) (fun r s' =>
    match r with
    | inr r => found parent n (elems path) r s'
    | inl (ip', path', name') => exists m, (length path' < length path)%nat /\ 0 ∉ path' /\ bytes_ok path' /\ kept (one m) s' /\ slot_of (k_itable s') ip' m /\
        target parent n (elems path) = target parent m (elems path') /\ (parent = true -> last (elems path) = last (elems path'))
    end) s.
Proof.
  intros Hz Hb Hk Hslot. pose proof (skipelem_spec path Hz Hb) as Hsk. cbn [namex_body]. unfold found. destruct (skipelem path) as [[rest nm]|].
  - destruct Hsk as (Ee & Hz' & Hb' & Hnm & Hlen & Hend). rewrite Ee, target_cons. wp_step. apply (ilock_step n); [done..|]. intros s1 L1.
    destruct (locked_file _ _ _ _ L1) as (_ & _ & Hty & _). unfold inode_at. do 2 wp_step. rewrite Hty, dir_of_type.
    destruct (Z.eqb_spec (i_type (dino sb c n)) T_DIR) as [Hd|Hd]; cbn [negb mbind option_bind].
    2: { wp_step. apply (iunlockput_step n _ (fun _ => 0)); [done|lia|]. intros s2 K2 _. wp_steps. done. }
    assert ((chr rest =? 0) = bool_decide (elems rest = [])) as ->.
    { destruct (chr rest =? 0); symmetry; [by apply bool_decide_eq_true_2, Hend|]. apply bool_decide_eq_false_2. intros E. by apply Hend in E. }
    destruct (parent && bool_decide (elems rest = [])) eqn:Ep.
    + apply andb_true_iff in Ep as [-> Er%bool_decide_eq_true_1]. rewrite Er. wp_step. apply (iunlock_step n _ _ _ _ L1). intros s2 K2 S2. wp_steps.
      exists ip, nm. split; [done|]. split; [by apply kept_one|]. split; [|done]. apply S2. destruct (lk_slot _ _ _ _ L1) as (I & HI & En & Hl & _). by exists I.
    + wp_step. apply (dirlookup_step n _ _ _ _ L1 Hd Hnm).
      * intros s2 -> L2. wp_step. apply (iunlockput_step n _ _ _ _ L2); [lia|]. intros s3 K3 _. wp_steps. done.
      * intros m slot off s2 -> L2 Hsl. wp_step. apply (iunlockput_step n _ _ _ _ L2 (one_range m)). intros s3 K3 S3. wp_steps. exists m.
        split; [done|]. split; [done|]. split; [done|]. split; [done|]. split; [|split; [done|]].
        -- apply S3; [done|]. rewrite (kp_refs _ _ K3). pose proof (ps_refs _ _ _ P0 m). unfold one. rewrite Z.eqb_refl. lia.
        -- intros ->. cbn in Ep. apply bool_decide_eq_false_1 in Ep. by destruct (elems rest).
  - rewrite Hsk. destruct parent; cbn [target].
    + wp_step. apply (iput_step n _ (fun _ => 0)); [|done|lia|intros s' K' _; wp_steps; done].
      destruct Hk as [A B C D]. split; [done..|]. intros m. rewrite D. lia.
    + cbn. wp_steps. by exists ip, name.
Qed.

Lemma namex_loop parent ip path n s : 0 ∉ path -> bytes_ok path -> kept (one n) s -> slot_of (k_itable s) ip n ->
  wp (loop (S (length path)) (namex_body parent) (ip, path, [])) (found parent n (elems path)) s.
Proof.
  intros Hz Hb Hk Hslot.
  apply (wp_loop (fun fuel '(ip', path', _) s' => exists m, fuel = length path' /\ 0 ∉ path' /\ bytes_ok path' /\ kept (one m) s' /\ slot_of (k_itable s') ip' m /\
    target parent n (elems path) = target parent m (elems path') /\ (parent = true -> last (elems path) = last (elems path')))) with (n := length path); [| |lia].
  - intros f [[ip1 path1] name1] s1 (m & -> & Hz1 & Hb1 & K1 & S1 & T1 & L1). eapply wp_mono; [by apply (namex_step parent ip1 path1 name1 m)|].
    intros [[[ip2 path2] name2]|r] s2; cbn beta iota.
    + intros (m2 & Hlt & Hz2 & Hb2 & K2 & S2 & T2 & L2). exists (length path2). split; [done|]. exists m2. rewrite T1, T2. split_and!; try done. intros E. rewrite L1, L2; done.
    + unfold found. rewrite T1. destruct (target parent m (elems path1)) as [x|]; [|done]. intros (k & nm & A & B & C & D). exists k, nm. split_and!; try done.
      intros E. rewrite L1; auto.
  - exists n. split_and!; done.
Qed.

(** Where a path starts: at the root, or at the current directory. *)
Definition starts (path : list Z) (n : Z) : Prop :=
  if chr path =? 47 then n = ROOTINO /\ allocated sb c n else exists d, p_cwd (k_procs s0 !!! i) = Some d /\ slot_of (k_itable s0) d n.

Lemma igot_kept n k T : allocated sb c n -> igot ROOTDEV n (k_itable s0) k T -> kept (one n) (with_k_itable T s0) /\ slot_of T k n.
Proof.
  intros Hn HT. destruct (igot_effect _ _ _ _ _ _ (ps_table _ _ _ P0) Hn ltac:(intros m; pose proof (ps_refs _ _ _ P0 m); lia) HT) as (A & B & C & D & _). split; [|done].
  split; cbn [k_itable with_k_itable]; [apply walked_itable, walked_refl, P0|done|rewrite B; apply P0|done].
Qed.

Lemma idup_spec k n (Q : nat -> kernel -> Prop) : slot_of (k_itable s0) k n -> (forall s', kept (one n) s' -> slot_of (k_itable s') k n -> Q k s') -> wp (idup k) Q s0.
Proof.
  intros (I & HI & En & Hl) HQ. pose proof (ps_table _ _ _ P0) as HT. destruct (tb_live _ _ _ HT k I HI Hl) as (E1 & E2 & _). rewrite En in E2.
  pose proof (fop_quiet i pid W s0 (ps_fop _ _ _ P0)) as Hh. unfold idup. wp_step. apply wp_acquire; [rewrite Hh; apply not_elem_of_nil|]. rewrite Hh. unfold upd_inode.
  do 2 wp_step. wp_step. apply (wp_release _ []); [reflexivity|apply not_elem_of_nil|]. wp_steps. set (T := alter _ _ _).
  destruct (igot_kept n k T E2) as [K1 K2]; [|by rewrite <- Hh; destruct s0; apply HQ].
  exists I. split; [done|]. left. by repeat split.
Qed.

Lemma namex_spec parent path n : 0 ∉ path -> bytes_ok path -> starts path n -> wp (namex path parent) (found parent n (elems path)) s0.
Proof.
  intros Hz Hb Hst. unfold namex. wp_step. apply (wp_mono _ (fun ip s' => kept (one n) s' /\ slot_of (k_itable s') ip n)); [|intros ip s' [Hk Hs]; by apply namex_loop].
  unfold starts in Hst. destruct (chr path =? 47).
  - destruct Hst as [-> Hn]. apply iget_spec; [|by eapply fop_quiet, P0|intros k T HT; by apply igot_kept].
    eapply table_can_iget; [apply P0|]. pose proof (ps_space _ _ _ P0). lia.
  - destruct Hst as (d & Hd & Hs). destruct (fop_running W s0 (ps_fop _ _ _ P0)) as [R1 _ _ _]. wp_step. apply (wp_curproc i); [done|]. unfold proc_at. do 2 wp_step. rewrite Hd.
    by apply (idup_spec d n).
Qed.
End run.

(** C10: namei() and nameiparent() follow the elements of the path, each cut off at
    DIRSIZ bytes, through the directories on the disk, from the root or the
    current directory: they answer the inode at the end of the path, or the
    directory that holds its last element together with that element, and 0
    where a directory does not have the name or is none.  The inode table stays
    a sound cache of the disk, without locks, and has one reference more, to
    the inode of the answer. *)
Theorem path_lookup_correct lg W s path n : 0 <= frame /\ frame + DIRENT_SIZE < 2 ^ 64 ->
  path_st lg W s -> 0 ∉ path -> bytes_ok path -> starts s path n ->
  wp (namei path) (fun r s' =>
    match follow (k_sb s) (content s) n (elems path) with
    | Some m => exists k, r = Some k /\ slot_of (k_itable s') k m /\ kept W s (one m) s'
    | None => r = None /\ kept W s (fun _ => 0) s'
    end) s /\
  wp (nameiparent path) (fun r s' =>
    match target s true n (elems path) with
    | Some m => exists k name, r = Some (k, name) /\ slot_of (k_itable s') k m /\ kept W s (one m) s' /\
        last (elems path) = Some (Mem.cstr (Z.to_nat DIRSIZ) name)
    | None => r = None /\ kept W s (fun _ => 0) s'
    end) s.
Proof.
  intros Hfr Hs Hz Hb Hst. split.
  - unfold namei. wp_step. eapply wp_mono; [by apply (namex_spec lg W s Hs Hfr false path n)|]. intros r s'. unfold found, target. destruct (follow _ _ _ _) as [m|].
    + intros (k & nm & -> & K & S & _). wp_steps. by exists k.
    + intros [-> K]. by wp_steps.
  - eapply wp_mono; [by apply (namex_spec lg W s Hs Hfr true path n)|]. intros r s'. unfold found. destruct (target _ _ _ _) as [m|]; [|done].
    intros (k & nm & -> & K & S & L). exists k, nm. split_and!; auto.
Qed.
End walk.

(** ** A file in the root directory *)

Definition inode_a : inode := mkInode ROOTDEV 2 0 (mkSleeplock false 0) false T_FILE 0 0 1 0 (replicate 13 0).
Definition root_inode : inode := mkInode ROOTDEV 1 1 (mkSleeplock false 0) true T_DIR 0 0 1 48 ([46; 47] ++ replicate 11 0).
Definition root_block : list Z := de_bytes 1 dot ++ de_bytes 1 [46; 46] ++ de_bytes 2 [97] ++ replicate 976 0.
Definition inode_block : list Z := write_dinode (write_dinode (replicate 1024 0) 64 root_inode) 128 inode_a.
Definition root_table : list inode := root_inode :: replicate 49 (with_i_inum 0 inode_a).
Definition root0 : kernel := fs1 root_table root_block inode_block.

(** The blocks, as a function that computes. *)
Definition blocks0 (m : Z) : list Z := default (replicate (Z.to_nat BSIZE) 0) (disk1 root_block inode_block !! m).

Lemma root0_content m : content root0 m = blocks0 m.
Proof. by apply (fs1_content root_table root_block inode_block). Qed.

Lemma root0_dino n : dino sb0 (content root0) n = dino sb0 blocks0 n.
Proof. unfold dino. by rewrite root0_content. Qed.

Lemma root0_allocated n : allocated sb0 (content root0) n <-> n = 1 \/ n = 2.
Proof.
  unfold allocated. rewrite root0_dino. change (sb_ninodes sb0) with 200. split.
  - intros [Hn Ht]. assert (forallb (fun n => (i_type (dino sb0 blocks0 n) =? 0) || (n =? 1) || (n =? 2)) (seqZ 0 200) = true) as E by (vm_compute; reflexivity).
    rewrite forallb_forall in E. specialize (E n ltac:(apply list_elem_of_In, elem_of_seqZ; lia)). lia.
  - intros [-> | ->]; (split; [lia|]); vm_compute; discriminate.
Qed.

Lemma root0_dino1 : dino sb0 (content root0) 1 = mkInode 0 0 0 inhabitant false T_DIR 0 0 1 48 ([46; 47] ++ replicate 11 0).
Proof. rewrite root0_dino. vm_compute. reflexivity. Qed.

Lemma root0_dino2 : dino sb0 (content root0) 2 = mkInode 0 0 0 inhabitant false T_FILE 0 0 1 0 (replicate 13 0).
Proof. rewrite root0_dino. vm_compute. reflexivity. Qed.

Lemma root0_dirents : dirents sb0 (content root0) 1 = [(1, dot); (1, [46; 46]); (2, [97])].
Proof.
  unfold dirents. rewrite root0_dino1. cbn [i_addrs i_size]. transitivity (dents blocks0 ([46; 47] ++ replicate 11 0) 48); [|vm_compute; reflexivity].
  unfold dents. apply list_fmap_ext. intros _ k _. apply (f_equal dent_of), file_bytes_ext. intros o _. unfold file_byte. by rewrite (baddr_eqf _ _ _ _ root0_content), root0_content.
Qed.

Lemma root0_bytes o : 0 <= o < 48 -> file_byte (content root0) ([46; 47] ++ replicate 11 0) o = zget root_block o.
Proof. intros Ho. unfold file_byte. rewrite bsize_eq, Z.div_small, Z.mod_small by lia. rewrite root0_content. reflexivity. Qed.

Lemma root0_tree : tree_ok (k_log root0) sb0 (content root0).
Proof.
  intros n Hn. apply root0_allocated in Hn as [-> | ->].
  - pose proof (fs1_no_holes root_table root_block inode_block eq_refl eq_refl root_inode eq_refl eq_refl ltac:(cbn; lia)) as [_ Hh].
    split; rewrite ?root0_dino1; cbn [i_addrs i_size i_type].
    + exact (ft_file _ _ _ _ _ _ _ (fs1_file root_table root_block inode_block eq_refl eq_refl root_inode eq_refl eq_refl eq_refl)).
    + rewrite maxfile_eq, bsize_eq. lia.
    + exact Hh.
    + intros _. split; [reflexivity|]. split.
      * intros o Ho. rewrite root0_bytes by lia. assert (Forall (fun b => 0 <= b < 256) root_block) as Hb by (apply (bool_decide_unpack _); vm_compute; exact I).
        unfold zget. apply (Forall_lookup_1 _ _ (Z.to_nat o) _ Hb), list_lookup_lookup_total_lt. change (length root_block) with 1024%nat. lia.
      * rewrite root0_dirents. intros e He _. apply root0_allocated. rewrite !elem_of_cons, elem_of_nil in He. destruct He as [-> | [-> | [-> | []]]]; auto.
  - assert (forall k, 0 <= k <= MAXFILE -> owned (content root0) (replicate 13 0) k = 0) as Ho.
    { intros k Hk. unfold owned, baddr. rewrite maxfile_eq, ndirect_eq in *. change (zget (replicate 13 0) 12) with 0. destruct (k =? 268); [done|].
      destruct (Z.ltb_spec k 12); [|done]. unfold zget. apply lookup_total_replicate_2. lia. }
    split; rewrite ?root0_dino2; cbn [i_addrs i_size i_type].
    + split; [done| |]; intros; exfalso; eauto.
    + rewrite maxfile_eq, bsize_eq. lia.
    + intros bn Hb. rewrite bsize_eq. lia.
    + done.
Qed.

Lemma root0_refs n : refs root_table n = one 1 n.
Proof.
  unfold root_table. cbn [refs foldr]. change (foldr _ 0 ?l) with (refs l n). rewrite refs_zero; [unfold refs_in, one; cbn; by destruct n as [|[]|]|].
  intros J [-> _]%elem_of_replicate. done.
Qed.

Lemma root0_table : table_ok sb0 (content root0) root_table.
Proof.
  assert (forall k I, root_table !! k = Some I -> 0 < i_ref I -> k = 0%nat /\ I = root_inode) as Hlive.
  { intros [|k] I; cbn [root_table lookup list_lookup]; [by intros [= <-]|]. intros [-> _]%lookup_replicate. done. }
  split.
  - reflexivity.
  - intros I [->|[-> _]%elem_of_replicate]%elem_of_cons; cbn; lia.
  - intros k I HI Hl. destruct (Hlive k I HI Hl) as [_ ->]. split; [done|]. split; [apply root0_allocated; by left|]. intros _.
    unfold loads. rewrite root0_content. vm_compute. reflexivity.
  - intros j k I J HI HJ Hi Hj _. destruct (Hlive j I HI Hi), (Hlive k J HJ Hj). congruence.
Qed.

Lemma root0_path_st : path_st 0 1 (k_log root0) ∅ root0.
Proof.
  split.
  - by apply fs1_fop.
  - apply (fs1_room root_table root_block inode_block); [reflexivity|reflexivity|lia..].
  - split; reflexivity.
  - by apply (fs1_geom root_table root_block inode_block).
  - by apply fs1_free.
  - exact root0_tree.
  - exact root0_table.
  - apply (bool_decide_unpack _). vm_compute. exact I.
  - vm_compute. lia.
  - intros n. change (k_itable root0) with root_table. rewrite root0_refs. pose proof (one_range 1 n). lia.
  - intros n Hn. apply root0_allocated in Hn as [-> | ->]; change (k_sb root0) with sb0; rewrite ?root0_dino1, ?root0_dino2; discriminate.
Qed.

(** The path "/..//a". *)
Lemma path_lookup_correct_witness : let path := [47; 46; 46; 47; 47; 97] in
  wp (@namei sync_disk 1%nat 5000 path) (fun r s' => exists k, r = Some k /\ slot_of (k_itable s') k 2) root0 /\
  wp (@nameiparent sync_disk 1%nat 5000 path) (fun r s' => exists k name, r = Some (k, name) /\ slot_of (k_itable s') k 1 /\ Mem.cstr 14 name = [97]) root0.
Proof.
  intros path. assert (follow sb0 (content root0) 1 (elems path) = Some 2 /\ target root0 true 1 (elems path) = Some 1) as [E1 E2].
  { change (elems path) with [[46; 46]; [97]]. unfold target. cbn [follow removelast]. change (k_sb root0) with sb0. unfold dir_of. rewrite root0_dino1, root0_dirents. by vm_compute. }
  assert (0 ∉ path) as Hz by (apply (bool_decide_unpack _); vm_compute; exact I).
  assert (bytes_ok path) as Hb by (apply (bool_decide_unpack _); vm_compute; exact I).
  assert (starts 0 root0 path 1) as Hst by (split; [reflexivity|apply root0_allocated; by left]).
  assert (0 <= 5000 /\ 5000 + DIRENT_SIZE < 2 ^ 64) as Hfr by (clear; vm_compute; split; [discriminate|reflexivity]).
  pose proof (@path_lookup_correct ld0 ld0_ok sync_disk sync_disk_ok 1%nat 5000 0 1 (k_log root0) ∅ root0 path 1 Hfr root0_path_st Hz Hb Hst) as [HA HB].
  split.
  - eapply wp_mono; [exact HA|]. intros r s'. cbn beta. change (k_sb root0) with sb0. rewrite E1. intros (k & -> & Hs & _). exists k. split; [reflexivity|exact Hs].
  - eapply wp_mono; [exact HB|]. intros r s'. cbn beta. rewrite E2. intros (k & nm & -> & Hs & _ & El). exists k, nm. split; [reflexivity|]. split; [exact Hs|].
    change (last (elems path)) with (Some [97]) in El. injection El as El. symmetry. exact El.
Defined.
