(* ===== verification/FsTrunc.v ===== *)
(** * fs.c: freeing a file.

    itrunc() gives back the blocks of a file, and iput() of the last reference to
    an inode without links frees the inode as well. *)

From S2P Require Import Prelude Exec Params State Mem Vm VmTable VmUser Sched Sleeplock Bio BioSpec Log LogSpec LogCrash LogOp.
From S2P Require Import RingBuf Uart Printf Console Fs FsBlock FsFile FsInode FsData FsWrite File FsSpec FsDir FsPath.

Section trunc.
Context `{LinkerOk} `{DiskOk} `{Waits} `{Frame}.
Variables (i : nat) (pid : Z) (ip : nat) (lg : log) (sb : superblock).
Variables (W : gset Z) (s0 : kernel) (I : inode).
Notation c := (content s0).
Notation a := (i_addrs I).

Definition bitmap_block_of (m : Z) : Prop := exists b, 0 <= b < sb_size sb /\ m = BBLOCK b sb.

Hypothesis Hs0 : file_st i pid ip lg sb W s0.
Hypothesis HI : k_itable s0 !! ip = Some I.
Hypothesis Hroom : room W 0 1 s0.
Hypothesis HW : forall m, bitmap_block_of m -> m ∈ W.

(** Block [b] is one of the first [k] blocks of the file, the indirect block being the last one. *)
Definition gone (k b : Z) : Prop := b <> 0 /\ exists j, 0 <= j < k /\ owned c a j = b.

(** The first [k] blocks have been freed. *)
Record freeing (k : Z) (lks : list (nat * Z)) (s : kernel) : Prop := {
  fr_fop : fop i pid W lks s;
  fr_other : forall m, ~ bitmap_block_of m -> content s m = c m;
  fr_used : forall b, 0 <= b < sb_size sb -> used sb (content s) b = true <-> used sb c b = true /\ ~ gone k b;
  fr_frame : fs_frame (with_k_itable (k_itable s) s0) s;
  fr_op : in_op s0 s;
}.

Lemma file_a : file_ok sb lg c a.
Proof. pose proof (ft_file _ _ _ _ _ _ _ Hs0) as Hf. unfold addrs in Hf. by rewrite (list_lookup_total_correct _ _ _ HI) in Hf. Qed.

Lemma owned_not_bitmap k : 0 <= k <= MAXFILE -> owned c a k <> 0 -> ~ bitmap_block_of (owned c a k).
Proof. intros Hk Hz (b & Hb & E). by apply (db_bmap _ _ _ _ (fk_data _ _ _ _ file_a k Hk Hz) b Hb). Qed.

Lemma freeing_skip k k' lks s : k <= k' -> (forall j, k <= j < k' -> owned c a j = 0) -> freeing k lks s -> freeing k' lks s.
Proof.
  intros Hk Hz [A B C D E]. split; [done..| |done|done]. intros b Hb. rewrite C by done. split; intros [Hu Hg]; (split; [done|]); intros [Hn (j & Hj & Ej)].
  - destruct (Z_lt_le_dec j k); [apply Hg; split; [done|]; exists j; split; [lia|done]|]. rewrite Hz in Ej by lia. congruence.
  - apply Hg. split; [done|]. exists j. split; [lia|done].
Qed.

Lemma freeing_itable k lks s T : freeing k lks s -> freeing k lks (with_k_itable T s).
Proof.
  intros [A B C D E]. split; [eapply fop_same; [exact A|reflexivity..]|exact B|exact C| |by destruct E].
  destruct D as [D1 D2 D3]. split; [rewrite D1; reflexivity|exact D2|exact D3].
Qed.

(** A step of the block layer that changes no block. *)
Lemma freeing_frame k lks lks' s s' : freeing k lks s -> fop i pid W lks' s' -> (forall m, content s' m = content s m) -> fs_frame s s' -> in_op s s' ->
  freeing k lks' s' /\ k_itable s' = k_itable s.
Proof.
  intros [A B C D E] Hf Hc Hfr Ho. assert (k_itable s' = k_itable s) as Ei by (by rewrite (fs_frame_eq _ _ Hfr)). split; [|done].
  split; [done|intros m Hm; rewrite Hc; auto|intros b Hb; rewrite (used_ext _ _ _ _ Hc); auto| |by eapply in_op_trans].
  rewrite Ei. by eapply fs_frame_trans.
Qed.

Lemma freeing_sb k lks s : freeing k lks s -> k_sb s = sb.
Proof. intros F. rewrite (fs_frame_eq _ _ (fr_frame _ _ _ F)). apply (ft_sb _ _ _ _ _ _ _ Hs0). Qed.

Lemma freeing_room k lks s j : freeing k lks s -> (j <= 1)%nat -> room W 0 j s.
Proof. intros F Hj. eapply room_op; [|apply F]. eapply room_le; [exact Hroom|lia|lia]. Qed.

Lemma free_step k lks s (Q : unit -> kernel -> Prop) : freeing k lks s -> 0 <= k <= MAXFILE -> owned c a k <> 0 -> (length lks <= 1)%nat ->
  (forall n, n ∈ lks.*2 -> ~ bitmap_block_of n) -> (forall s', freeing (k + 1) lks s' -> k_itable s' = k_itable s -> Q tt s') ->
  wp (bfree ROOTDEV (owned c a k)) Q s.
Proof.
  intros F Hk Hz Hl Hlks HQ. pose proof (freeing_sb _ _ _ F) as Esb. destruct (fk_data _ _ _ _ file_a k Hk Hz) as [D1 D2 D3 D4]. set (b := owned c a k) in *.
  assert (0 <= b < sb_size sb) as Hb by lia. pose proof (ft_geom _ _ _ _ _ _ _ Hs0) as G.
  assert (bitmap_block_of (BBLOCK b sb)) as HB by (by exists b).
  apply (bfree_spec i pid W lks s b); rewrite ?Esb; [apply F|by eapply freeing_room| |done| |by apply HW| |].
  - eapply same_geom_fs; [|done]. eapply same_log_op; [apply Hs0|apply F].
  - apply (fr_used _ _ _ F b Hb). split; [done|]. intros [_ (j & Hj & Ej)]. pose proof (fk_inj _ _ _ _ file_a j k ltac:(lia) Hk ltac:(rewrite Ej; done) Ej). lia.
  - intros Hin. by apply (Hlks _ Hin).
  - intros s' Hf Hc Hfr Ho. destruct F as [A B C D E]. assert (k_itable s' = k_itable s) as Ei by (by rewrite (fs_frame_eq _ _ Hfr)). apply HQ; [|done]. split.
    + done.
    + intros m Hm. rewrite Hc. unfold put_block. cbn [fst snd]. rewrite decide_False by (intros ->; done). by apply B.
    + intros b' Hb'. rewrite (used_ext _ _ _ _ Hc), (bit_change sb lg (content s) b b' false G Hb Hb') by (by eapply fop_length).
      destruct (decide (b' = b)) as [->|Hne].
      * split; [done|]. intros [_ []]. split; [done|]. exists k. split; [lia|done].
      * rewrite C by done. split; intros [Hu Hg]; (split; [done|]); intros [Hn (j & Hj & Ej)]; apply Hg; (split; [done|]); exists j; (split; [|done]).
        -- destruct (Z.eq_dec j k) as [->|]; [by destruct Hne|lia].
        -- lia.
    + rewrite Ei. by eapply fs_frame_trans.
    + by eapply in_op_trans.
Qed.

(** ** itrunc() *)

Definition zeroed (k : Z) : list Z := replicate (Z.to_nat k) 0 ++ drop (Z.to_nat k) a.
Definition table_with (J : inode) : list inode := <[ip := J]> (k_itable s0).

Lemma length_a : length a = 13%nat.
Proof. rewrite (fk_len _ _ _ _ file_a). reflexivity. Qed.

Lemma zeroed_get k : 0 <= k < 13 -> zget (zeroed k) k = zget a k.
Proof.
  intros Hk. unfold zeroed, zget. rewrite lookup_total_app_r by (rewrite length_replicate; lia). rewrite length_replicate, Nat.sub_diag.
  rewrite !list_lookup_total_alt, lookup_drop. f_equal. f_equal. lia.
Qed.

Lemma zeroed_set k : 0 <= k < 13 -> zset (zeroed k) k 0 = zeroed (k + 1).
Proof.
  intros Hk. unfold zeroed, zset. rewrite insert_app_r_alt by (rewrite length_replicate; lia). rewrite length_replicate, Nat.sub_diag.
  replace (Z.to_nat (k + 1)) with (Z.to_nat k + 1)%nat by lia. rewrite replicate_add, <- app_assoc. f_equal. rewrite <- drop_drop.
  destruct (drop (Z.to_nat k) a) eqn:E; [|done]. apply (f_equal length) in E. rewrite length_drop, length_a in E. cbn in E. lia.
Qed.

Lemma zeroed_skip k : 0 <= k < 13 -> zget a k = 0 -> zeroed (k + 1) = zeroed k.
Proof.
  intros Hk Hz. rewrite <- zeroed_set by done. apply list_insert_id. rewrite <- Hz, <- zeroed_get by done. apply list_lookup_lookup_total_lt.
  unfold zeroed. rewrite length_app, length_replicate, length_drop, length_a. lia.
Qed.

Lemma table_with_get J : table_with J !!! ip = J.
Proof. apply list_lookup_total_insert_eq. by eapply lookup_lt_Some. Qed.

Lemma table_with_alter f J : alter f ip (table_with J) = table_with (f J).
Proof.
  unfold table_with. rewrite (alter_insert_eq _ _ _ J) by (apply list_lookup_insert_eq; by eapply lookup_lt_Some). apply list_insert_insert_eq.
Qed.

Lemma dev_I : i_dev I = ROOTDEV.
Proof. pose proof (ft_dev _ _ _ _ _ _ _ Hs0) as Hd. by rewrite (list_lookup_total_correct _ _ _ HI) in Hd. Qed.

Lemma direct_loop s (Q : unit -> kernel -> Prop) : freeing 0 [] s -> k_itable s = k_itable s0 ->
  (forall s', freeing NDIRECT [] s' -> k_itable s' = table_with (with_i_addrs (zeroed NDIRECT) I) -> Q tt s') ->
  wp (forM (seqZ 0 NDIRECT) (fun k =>
    i <- inode_at ip ;;
    when (negb (zget (i_addrs i) k =? 0))
      (bfree (i_dev i) (zget (i_addrs i) k) ;;;
       upd_inode ip (fun i => with_i_addrs (zset (i_addrs i) k 0) i)))) Q s.
Proof.
  intros F0 E0 HQ.
  eapply wp_mono; [apply (wp_forM (fun rest s => exists k, 0 <= k <= NDIRECT /\ rest = seqZ k (NDIRECT - k) /\ freeing k [] s /\ k_itable s = table_with (with_i_addrs (zeroed k) I)))|].
  - exists 0. rewrite ndirect_eq. split; [lia|]. split; [done|]. split; [done|]. rewrite E0. symmetry. apply list_insert_id. by rewrite HI.
  - intros x rest s1 (k & Hk & Er & F & ET). rewrite ndirect_eq in *. destruct (Z.eq_dec k 12) as [->|Hne]; [done|]. rewrite seqZ_cons in Er by lia. injection Er as -> ->.
    assert (zget a k = owned c a k) as Eo. { unfold owned, baddr. rewrite maxfile_eq, ndirect_eq. rewrite (proj2 (Z.eqb_neq _ _)), (proj2 (Z.ltb_lt _ _)) by lia. done. }
    unfold inode_at. do 2 wp_step. rewrite ET, table_with_get. cbn [i_addrs i_dev with_i_addrs]. rewrite zeroed_get, Eo, dev_I by lia.
    assert (forall s2, freeing (k + 1) [] s2 -> k_itable s2 = table_with (with_i_addrs (zeroed (k + 1)) I) -> exists k', 0 <= k' <= 12 /\ seqZ (Z.succ k) (Z.pred (12 - k)) = seqZ k' (12 - k') /\
      freeing k' [] s2 /\ k_itable s2 = table_with (with_i_addrs (zeroed k') I)) as Hnext.
    { intros s2 F2 E2. exists (k + 1). split; [lia|]. split; [f_equal; lia|done]. }
    destruct (Z.eqb_spec (owned c a k) 0) as [Hz|Hz]; cbn [negb when].
    + wp_steps. apply Hnext; [apply (freeing_skip k); [lia| |done]; intros j Hj; by replace j with k by lia|]. by rewrite zeroed_skip by (rewrite ?Eo; done || lia).
    + wp_step. apply (free_step k []); [done|rewrite maxfile_eq; lia|done|cbn; lia|by intros ? ?%elem_of_nil|]. intros s2 F2 E2. unfold upd_inode. wp_steps.
      apply Hnext; [by apply freeing_itable|]. cbn [k_itable with_k_itable]. rewrite E2, ET, table_with_alter. cbn [i_addrs with_i_addrs]. by rewrite zeroed_set by lia.
  - intros [] s' (k & Hk & Er & F & ET). rewrite ndirect_eq in *. destruct (Z.eq_dec k 12) as [->|Hne]; [by apply HQ|]. rewrite seqZ_cons in Er by lia. done.
Qed.

Lemma indirect_loop bp s (Q : unit -> kernel -> Prop) : let ind := zget a NDIRECT in ind <> 0 -> freeing NDIRECT [(bp, ind)] s ->
  (forall s', freeing MAXFILE [(bp, ind)] s' -> k_itable s' = k_itable s -> Q tt s') ->
  wp (forM (seqZ 0 NINDIRECT) (fun j =>
       d <- data_of bp ;;
       when (negb (get32 d (4 * j) =? 0)) (bfree ROOTDEV (get32 d (4 * j))))) Q s.
Proof.
  intros ind Hind F0 HQ. assert (owned c a MAXFILE = ind) as Ei by (unfold owned; by rewrite Z.eqb_refl).
  assert (~ bitmap_block_of ind) as Hnb by (rewrite <- Ei; apply owned_not_bitmap; rewrite ?Ei; [rewrite maxfile_eq; lia|done]).
  eapply wp_mono; [apply (wp_forM (fun rest s' => exists j, 0 <= j <= NINDIRECT /\ rest = seqZ j (NINDIRECT - j) /\ freeing (NDIRECT + j) [(bp, ind)] s' /\ k_itable s' = k_itable s))|].
  - exists 0. rewrite nindirect_eq. split; [lia|]. by rewrite Z.add_0_r.
  - intros x rest s1 (j & Hj & Er & F & ET). rewrite nindirect_eq in *. destruct (Z.eq_dec j 256) as [->|Hne]; [done|]. rewrite seqZ_cons in Er by lia. injection Er as -> ->.
    assert (get32 (c ind) (4 * j) = owned c a (NDIRECT + j)) as Eo.
    { unfold owned, baddr. fold ind. rewrite maxfile_eq, ndirect_eq. rewrite !(proj2 (Z.eqb_neq _ _)), (proj2 (Z.ltb_ge _ _)) by lia. do 2 f_equal. lia. }
    assert (forall s2, freeing (NDIRECT + (j + 1)) [(bp, ind)] s2 -> k_itable s2 = k_itable s -> exists j', 0 <= j' <= 256 /\ seqZ (Z.succ j) (Z.pred (256 - j)) = seqZ j' (256 - j') /\
      freeing (NDIRECT + j') [(bp, ind)] s2 /\ k_itable s2 = k_itable s) as Hnext.
    { intros s2 F2 E2. exists (j + 1). split; [lia|]. split; [f_equal; lia|done]. }
    wp_step. apply (fop_data i pid W [(bp, ind)] s1 bp ind); [apply F|by left|]. rewrite (fr_other _ _ _ F _ Hnb), Eo. rewrite ndirect_eq in *.
    destruct (Z.eqb_spec (owned c a (12 + j)) 0) as [Hz|Hz]; cbn [negb when].
    + wp_steps. apply Hnext; [|done]. apply (freeing_skip (12 + j)); [lia| |done]. intros j' Hj'. by replace j' with (12 + j) by lia.
    + apply (free_step (12 + j) [(bp, ind)]); [done|rewrite maxfile_eq; lia|done|cbn; lia| |].
      * intros n Hn. cbn in Hn. apply list_elem_of_singleton in Hn as ->. done.
      * intros s2 F2 E2. apply Hnext; [by rewrite Z.add_assoc|]. by rewrite E2.
  - intros [] s' (j & Hj & Er & F & ET). rewrite nindirect_eq in *. destruct (Z.eq_dec j 256) as [->|Hne]; [by apply HQ|]. rewrite seqZ_cons in Er by lia. done.
Qed.

(** After itrunc(): the inode [J] in the table and in block [ib], the blocks of the file free. *)
Definition ib : Z := IBLOCK (i_inum I) sb.
Definition J : inode := with_i_size 0 (with_i_addrs (replicate 13 0) I).

Record truncated (s : kernel) : Prop := {
  tr_fop : fop i pid W [] s;
  tr_other : forall m, ~ bitmap_block_of m -> m <> ib -> content s m = c m;
  tr_inode : content s ib = write_dinode (c ib) (dinode_off (i_inum I)) J;
  tr_used : forall b, 0 <= b < sb_size sb -> used sb (content s) b = true <-> used sb c b = true /\ ~ gone (MAXFILE + 1) b;
  tr_frame : fs_frame (with_k_itable (table_with J) s0) s;
  tr_op : in_op s0 s;
}.

Hypothesis Hib : ib ∈ W /\ 0 <= ib < 2 ^ 31 /\ home lg ib /\ ~ bitmap_block_of ib.

Lemma freeing_start : freeing 0 [] s0.
Proof.
  split; [apply Hs0|done| | |apply in_op_refl].
  - intros b Hb. split; [|by intros [? _]]. intros Hu. split; [done|]. intros [_ (j & Hj & _)]. lia.
  - destruct s0. apply fs_frame_refl.
Qed.

(** The rest of itrunc() after the loop over the direct blocks. *)
Lemma indirect_part s (k : KM unit) (Q : unit -> kernel -> Prop) : freeing NDIRECT [] s -> k_itable s = table_with (with_i_addrs (zeroed NDIRECT) I) ->
  (forall s', freeing (MAXFILE + 1) [] s' -> k_itable s' = table_with (with_i_addrs (replicate 13 0) I) -> wp k Q s') ->
  wp (i <- inode_at ip ;;
      when (negb (zget (i_addrs i) NDIRECT =? 0))
        (bp <- bread (i_dev i) (zget (i_addrs i) NDIRECT) ;;
         forM (seqZ 0 NINDIRECT) (fun j =>
           d <- data_of bp ;;
           when (negb (get32 d (4 * j) =? 0)) (bfree (i_dev i) (get32 d (4 * j)))) ;;;
         brelse bp ;;;
         bfree (i_dev i) (zget (i_addrs i) NDIRECT) ;;;
         upd_inode ip (fun i => with_i_addrs (zset (i_addrs i) NDIRECT 0) i)) ;;;
      k) Q s.
Proof.
  intros F ET HQ. unfold inode_at. do 2 wp_step. wp_step. rewrite ET, table_with_get. cbn [i_addrs i_dev with_i_addrs]. rewrite ndirect_eq, zeroed_get, dev_I by lia.
  assert (zeroed 13 = replicate 13 0) as E13 by (unfold zeroed; rewrite drop_ge by (rewrite length_a; lia); apply app_nil_r).
  assert (owned c a MAXFILE = zget a 12) as Ei by (unfold owned; by rewrite Z.eqb_refl). set (ind := zget a 12) in *.
  destruct (Z.eqb_spec ind 0) as [Hz|Hz]; cbn [negb when].
  - wp_steps. apply HQ.
    + apply (freeing_skip NDIRECT); [rewrite ndirect_eq, maxfile_eq; lia| |done]. intros j Hj. destruct (Z.eq_dec j MAXFILE) as [->|Hne]; [congruence|].
      unfold owned, baddr. rewrite ndirect_eq in Hj |- *. rewrite (proj2 (Z.eqb_neq j MAXFILE)) by done. rewrite (proj2 (Z.ltb_ge j 12)) by lia. fold ind. by rewrite Hz.
    + rewrite ET, ndirect_eq, <- E13. by rewrite <- (zeroed_skip 12) by (done || lia).
  - wp_step. apply (fop_bread i pid W [] s ind); [apply F|apply (freeing_room _ _ _ 0 F); lia|apply not_elem_of_nil|]. intros bp s1 Hf1 Hc1 Hfr1 Ho1.
    destruct (freeing_frame _ _ _ _ _ F Hf1 Hc1 Hfr1 Ho1) as [F1 E1]. wp_step. apply (indirect_loop bp s1); rewrite ?ndirect_eq; [done|exact F1|]. intros s2 F2 E2.
    wp_step. apply (fop_brelse i pid W [] [] s2 bp ind); [apply F2|]. intros s3 Hf3 Hc3 Hfr3 Ho3. destruct (freeing_frame _ _ _ _ _ F2 Hf3 Hc3 Hfr3 Ho3) as [F3 E3].
    wp_step. rewrite <- Ei. apply (free_step MAXFILE []); [exact F3|rewrite maxfile_eq; lia|congruence|cbn; lia|by intros ? ?%elem_of_nil|]. intros s4 F4 E4.
    unfold upd_inode. wp_steps. apply HQ; [by apply freeing_itable|]. cbn [k_itable with_k_itable]. rewrite E4, E3, E2, E1, ET, table_with_alter. cbn [i_addrs with_i_addrs].
    rewrite ndirect_eq, zeroed_set by lia. by rewrite <- E13.
Qed.

Lemma itrunc_spec (Q : unit -> kernel -> Prop) : (forall s', truncated s' -> Q tt s') -> wp (itrunc ip) Q s0.
Proof.
  intros HQ. destruct Hib as (B1 & B2 & B3 & B4). unfold itrunc. wp_step. apply direct_loop; [exact freeing_start|done|]. intros s1 F1 E1.
  apply indirect_part; [done..|]. intros s2 F2 E2. unfold upd_inode. do 2 wp_step. rewrite E2, table_with_alter. fold J.
  set (s3 := with_k_itable (table_with J) s2). pose proof (freeing_itable _ _ _ (table_with J) F2) as F3. fold s3 in F3. pose proof (freeing_sb _ _ _ F3) as Esb.
  assert (k_itable s3 !!! ip = J) as EJ by apply table_with_get.
  apply (iupdate_spec i pid W s3 ip); rewrite ?EJ, ?Esb; cbn [i_inum i_dev J with_i_size with_i_addrs]; fold ib; [apply F3|apply (freeing_room _ _ _ 1 F3); lia|exact dev_I|done|done| |].
  - eapply same_home; [|exact B3]. eapply same_log_op; [apply Hs0|apply F3].
  - change (i_inum J) with (i_inum I). fold ib. intros s' Hf Hc Hfr Ho. destruct F3 as [A B C D E]. apply HQ. split.
    + done.
    + intros m Hm Hne. rewrite Hc. unfold put_block. cbn [fst snd]. rewrite decide_False by done. by apply B.
    + rewrite Hc. unfold put_block. cbn [fst snd]. rewrite decide_True by done. by rewrite B.
    + intros b Hb. rewrite (used_ext _ _ _ _ Hc). rewrite <- C by done. unfold used, put_block. cbn [fst snd]. rewrite decide_False; [done|]. intros Eb. apply B4. by exists b.
    + by eapply fs_frame_trans.
    + by eapply in_op_trans.
Qed.
End trunc.

(** ** iput() of the last reference *)

(** acquiresleep() of a free lock under other spinlocks. *)
Lemma acquiresleep_under `{Waits} i pid L id s (Q : unit -> kernel -> Prop) : running i pid (with_k_held [] s) -> k_held s = L -> Lsleep id ∉ L ->
  sl_locked (sl_get id s) = false -> Q tt (sl_set id (mkSleeplock true pid) s) -> wp (acquiresleep id) Q s.
Proof.
  intros [R1 _ R3 R4] HL Hn Hl HQ. unfold acquiresleep. wp_step. apply wp_acquire; [by rewrite HL|].
  cbn [loop]. wp_steps. rewrite sl_get_with_held, Hl. wp_steps. apply (wp_curproc i); [exact R1|]. unfold proc_at. wp_steps. rewrite sl_set_with_held.
  eapply (wp_release _ L); [by ksimp; rewrite HL|done|]. change (p_pid (k_procs s !!! i) = pid) in R4. change (k_procs (with_k_held ?x s)) with (k_procs s). rewrite R4.
  assert (with_k_held L (with_k_held (Lsleep id :: k_held s) (sl_set id (mkSleeplock true pid) s)) = sl_set id (mkSleeplock true pid) s) as ->; [|exact HQ].
  rewrite <- HL. destruct id; by destruct s.
Qed.

(** The other inodes of the block of an inode. *)
Lemma dino_other sb c d n n' I : 0 <= n < 2 ^ 16 -> 0 <= n' < 2 ^ 16 -> n' <> n -> 0 <= sb_inodestart sb < 2 ^ 31 -> length (c (IBLOCK n sb)) = Z.to_nat BSIZE ->
  (forall m, m = IBLOCK n' sb -> m <> IBLOCK n sb -> d m = c m) -> d (IBLOCK n sb) = write_dinode (c (IBLOCK n sb)) (dinode_off n) I ->
  dino sb d n' = dino sb c n'.
Proof.
  intros Hn Hn' Hne Hsb Hl Ho Hw. unfold dino. destruct (Z.eq_dec (IBLOCK n' sb) (IBLOCK n sb)) as [E|E]; [|by rewrite Ho].
  destruct (dinode_off_range n) as [D1 D2]. destruct (dinode_off_range n') as [D3 _]. rewrite E, Hw. apply read_dinode_other; [done|done|rewrite Hl; rewrite bsize_eq in *; lia|].
  unfold IBLOCK in E. unfold dinode_off in *. change IPB with 16 in *. change DINODE_SIZE with 64 in *. rewrite !u32_id in E by dlia. dlia.
Qed.

Lemma held_back L T s : k_held s = [] -> with_k_held [] (with_k_itable T (with_k_held L s)) = with_k_itable T s.
Proof. intros E. rewrite <- E. by destruct s. Qed.

Section iput.
Context `{LinkerOk} `{DiskOk} `{Waits} `{Frame}.
Variables (i : nat) (pid : Z) (ip : nat) (lg : log) (W : gset Z) (s : kernel) (I : inode).
Notation sb := (k_sb s).
Notation c := (content s).
Notation n := (i_inum I).
Notation ib := (IBLOCK n sb).

Record last_ref : Prop := {
  lr_file : file_st i pid ip lg sb W s;
  lr_slot : k_itable s !! ip = Some I;
  lr_ref : i_ref I = 1;
  lr_valid : i_valid I = true;
  lr_nlink : i_nlink I = 0;
  lr_lock : sl_locked (i_lock I) = false;
  lr_ok : inode_ok I;
  lr_inum : 0 <= n < 2 ^ 16;
  lr_start : 0 <= sb_inodestart sb < 2 ^ 31;
  lr_room : room W 0 1 s;
  lr_bitmap : forall m, bitmap_block_of sb m -> m ∈ W;
  lr_block : ib ∈ W /\ 0 <= ib < 2 ^ 31 /\ home lg ib /\ ~ bitmap_block_of sb ib;
}.
Hypothesis P : last_ref.

Notation lk := (mkSleeplock true pid).
Notation I1 := (with_i_lock lk I).
Notation s1 := (with_k_itable (<[ip := I1]> (k_itable s)) s).

Lemma locked_file_st : file_st i pid ip lg sb W s1.
Proof.
  destruct (lr_file P) as [A B C D E F G K]. pose proof (lr_slot P) as HI. unfold addrs in *. rewrite (list_lookup_total_correct _ _ _ HI) in C, K.
  assert (k_itable s1 !!! ip = I1) as E1 by (apply list_lookup_total_insert_eq; by eapply lookup_lt_Some).
  split; unfold addrs; rewrite ?E1; [eapply fop_same; [exact A|reflexivity..]|by cbn; rewrite length_insert|done..].
Qed.

(** The inode on the disk, and in the table at the end. *)
Notation J2 := (with_i_type 0 (with_i_size 0 (with_i_addrs (replicate 13 0) I1))).
Notation K := (with_i_ref 0 (with_i_lock (mkSleeplock false 0) (with_i_valid false J2))).

(** What has become of the blocks. *)
Definition freed_blocks (s' : kernel) : Prop :=
  (forall m, ~ bitmap_block_of sb m -> m <> ib -> content s' m = c m) /\
  content s' ib = write_dinode (write_dinode (c ib) (dinode_off n) (J I1)) (dinode_off n) J2 /\
  (forall b, 0 <= b < sb_size sb -> used sb (content s') b = true <-> used sb c b = true /\ ~ gone s I (MAXFILE + 1) b).

Lemma free_inode (k : KM unit) (Q : unit -> kernel -> Prop) :
  (forall s', freed_blocks s' -> k_itable s' = <[ip := with_i_valid false J2]> (k_itable s) -> fop i pid W [] s' -> wp k Q s') ->
  wp (itrunc ip ;;; upd_inode ip (with_i_type 0) ;;; iupdate ip ;;; upd_inode ip (with_i_valid false) ;;; k) Q s1.
Proof.
  intros HQ. pose proof (lr_slot P) as HI. pose proof (lookup_lt_Some _ _ _ HI) as Hlt. pose proof (lr_file P) as Hf.
  destruct (lr_block P) as (B1 & B2 & B3 & B4). wp_step.
  apply (itrunc_spec i pid ip lg sb W s1 I1); [exact locked_file_st|by apply list_lookup_insert_eq|apply P|apply P|done|]. intros s2 [A1 A2 A3 A4 A5 A6].
  assert (k_itable s2 = <[ip := J I1]> (k_itable s)) as E2. { rewrite (fs_frame_eq _ _ A5). cbn. apply list_insert_insert_eq. }
  assert (k_sb s2 = sb) as Esb by (by rewrite (fs_frame_eq _ _ A5)).
  unfold upd_inode at 1. do 2 wp_step. rewrite E2, (alter_insert_eq _ _ _ (J I1)), list_insert_insert_eq by (by apply list_lookup_insert_eq). change (with_i_type 0 (J I1)) with J2.
  set (s3 := with_k_itable (<[ip := J2]> (k_itable s)) s2). assert (fop i pid W [] s3) as F3 by (eapply fop_same; [exact A1|reflexivity..]).
  assert (in_op s s3) as O3 by (destruct A6; by split).
  assert (k_itable s3 !!! ip = J2) as EJ by (by apply list_lookup_total_insert_eq). wp_step.
  apply (iupdate_spec i pid W s3 ip); rewrite ?EJ; change (k_sb s3) with (k_sb s2); rewrite ?Esb; change (i_inum J2) with n; fold ib; [exact F3| | |done|done| |].
  - eapply room_op; [apply (lr_room P)|exact O3].
  - pose proof (ft_dev _ _ _ _ _ _ _ Hf) as Hd. by rewrite (list_lookup_total_correct _ _ _ HI) in Hd.
  - eapply same_home; [|exact B3]. eapply same_log_op; [apply (ft_lg _ _ _ _ _ _ _ Hf)|exact O3].
  - intros s4 F4 C4 Hfr4 _. assert (k_itable s4 = <[ip := J2]> (k_itable s)) as E4 by (by rewrite (fs_frame_eq _ _ Hfr4)).
    unfold upd_inode. do 2 wp_step. rewrite E4, (alter_insert_eq _ _ _ J2), list_insert_insert_eq by (by apply list_lookup_insert_eq).
    apply HQ; [|done|eapply fop_same; [exact F4|reflexivity..]]. unfold freed_blocks. change (content (with_k_itable ?T s4)) with (content s4). split_and!.
    + intros m Hm Hne. rewrite C4. unfold put_block. cbn [fst snd]. rewrite decide_False by done. by apply A2.
    + rewrite C4. unfold put_block. cbn [fst snd]. rewrite decide_True by done. f_equal. exact A3.
    + intros b Hb. etransitivity; [|exact (A4 b Hb)]. rewrite (used_ext _ _ _ _ C4). unfold used, put_block. cbn [fst snd]. rewrite decide_False; [done|]. intros Eb. apply B4. by exists b.
Qed.

Lemma iput_last (Q : unit -> kernel -> Prop) :
  (forall s', freed_blocks s' -> k_itable s' = <[ip := K]> (k_itable s) -> fop i pid W [] s' -> Q tt s') -> wp (iput ip) Q s.
Proof.
  intros HQ. pose proof (lr_slot P) as HI. pose proof (lookup_lt_Some _ _ _ HI) as Hlt. pose proof (ft_op _ _ _ _ _ _ _ (lr_file P)) as Hop.
  pose proof (fop_quiet i pid W s Hop) as Hh. destruct (fop_running i pid W s Hop) as [R1 R2 R3 R4].
  unfold iput. wp_step. apply wp_acquire; [rewrite Hh; apply not_elem_of_nil|]. rewrite Hh. unfold inode_at. do 2 wp_step.
  change (k_itable (with_k_held [Litable] s)) with (k_itable s). rewrite (list_lookup_total_correct _ _ _ HI), (lr_ref P), (lr_valid P), (lr_nlink P). cbn [Z.eqb Pos.eqb andb when].
  wp_step. wp_step. apply (acquiresleep_under i pid [Litable]); [by split|done|by intros ?%list_elem_of_singleton|cbn; rewrite (list_lookup_total_correct _ _ _ HI); apply P|].
  cbn [sl_set]. change (k_itable (with_k_held [Litable] s)) with (k_itable s). rewrite (alter_insert_eq _ _ _ _ HI). wp_step.
  apply (wp_release _ []); [reflexivity|apply not_elem_of_nil|]. rewrite held_back by exact Hh.
  apply free_inode. intros s5 Hfr5 E5 F5. wp_step. apply (releasesleep_spec i pid); [by eapply fop_running|]. cbn [sl_set].
  rewrite E5, (alter_insert_eq _ _ _ (with_i_valid false J2)), list_insert_insert_eq by (by apply list_lookup_insert_eq). set (T6 := <[ip := _]> _). intros s6 Hw.
  pose proof (wk_rest _ _ Hw) as E6. assert (fop i pid W [] s6) as F6 by (eapply fop_wakes; [|exact Hw]; eapply fop_same; [exact F5|reflexivity..]).
  pose proof (fop_quiet i pid W s6 F6) as Hh6. apply wp_acquire; [rewrite Hh6; apply not_elem_of_nil|]. rewrite Hh6. unfold upd_inode. do 2 wp_step.
  apply (wp_release _ []); [reflexivity|apply not_elem_of_nil|]. rewrite held_back by exact Hh6. cbn [k_itable with_k_held].
  assert (k_itable s6 = T6) as ET6 by (by rewrite E6). assert (alter (fun i0 => with_i_ref (i32 (i_ref i0 - 1)) i0) ip T6 = <[ip := K]> (k_itable s)) as EK.
  { unfold T6. rewrite (alter_insert_eq _ _ _ (with_i_lock (mkSleeplock false 0) (with_i_valid false J2))), list_insert_insert_eq by (by apply list_lookup_insert_eq).
    cbn [i_ref with_i_lock with_i_valid]. change (i_ref J2) with (i_ref I). by rewrite (lr_ref P). }
  rewrite ET6, EK. apply HQ; [|done|eapply fop_same; [exact F6|reflexivity..]].
  assert (forall m, content (with_k_itable (<[ip := K]> (k_itable s)) s6) m = content s5 m) as C6 by (intros m; rewrite E6; reflexivity).
  destruct Hfr5 as (X1 & X2 & X3). split_and!; [intros m ? ?; rewrite C6; auto|by rewrite C6|]. intros b Hb. rewrite (used_ext _ _ _ _ C6). auto.
Qed.
Lemma freed_type s' : freed_blocks s' -> i_type (dino sb (content s') n) = 0.
Proof.
  intros (_ & E & _). destruct (dinode_off_range n) as [D1 D2]. pose proof (fop_length i pid W [] s ib (ft_op _ _ _ _ _ _ _ (lr_file P))) as Hl. rewrite bsize_eq in *.
  unfold dino. fold ib. rewrite E, dinode_roundtrip; [done|done|rewrite write_dinode_length by lia; lia|].
  destruct (lr_ok P) as [K1 K2 K3 K4 K5 [K6 K7]]. split; cbn; try lia; try done. split; [done|]. repeat (constructor; [lia|]). constructor.
Qed.

Lemma freed_dino s' n' : freed_blocks s' -> 0 <= n' < 2 ^ 16 -> n' <> n -> ~ bitmap_block_of sb (IBLOCK n' sb) -> dino sb (content s') n' = dino sb c n'.
Proof.
  intros (Ho & E & _) Hn' Hne Hb. pose proof (fop_length i pid W [] s ib (ft_op _ _ _ _ _ _ _ (lr_file P))) as Hl. pose proof (lr_inum P). pose proof (lr_start P).
  destruct (dinode_off_range n) as [D1 D2]. set (c1 := fun m => if decide (m = ib) then write_dinode (c ib) (dinode_off n) (J I1) else c m).
  assert (c1 ib = write_dinode (c ib) (dinode_off n) (J I1)) as E1 by (unfold c1; by rewrite decide_True).
  transitivity (dino sb c1 n').
  - apply (dino_other sb c1 (content s') n n' J2); fold ib; [lia|lia|done|lia| | |by rewrite E1].
    + rewrite E1, write_dinode_length; [exact Hl|exact D1|rewrite Hl; rewrite bsize_eq in *; lia].
    + intros m -> Hm. unfold c1. rewrite decide_False by done. by apply Ho.
  - apply (dino_other sb c c1 n n' (J I1)); fold ib; [lia|lia|done|lia|exact Hl| |exact E1]. intros m -> Hm. unfold c1. by rewrite decide_False.
Qed.

(** C11: iput() of the last reference to an inode that no directory names frees the
    file: exactly the blocks of the file, the indirect block included, become
    free in the bitmap; the inode becomes free on the disk, and its slot in the
    table; the other inodes and the other blocks are as they were. *)
Theorem iput_frees_file : wp (iput ip) (fun _ s' =>
  (forall b, 0 <= b < sb_size sb -> used sb (content s') b = true <->
     used sb c b = true /\ ~ exists j, 0 <= j <= MAXFILE /\ owned c (i_addrs I) j = b /\ b <> 0) /\
  i_type (dino sb (content s') n) = 0 /\
  (forall n', 0 <= n' < 2 ^ 16 -> n' <> n -> ~ bitmap_block_of sb (IBLOCK n' sb) -> dino sb (content s') n' = dino sb c n') /\
  (forall m, ~ bitmap_block_of sb m -> m <> ib -> content s' m = c m) /\
  exists K, k_itable s' = <[ip := K]> (k_itable s) /\ i_ref K = 0 /\ i_valid K = false /\ sl_locked (i_lock K) = false) s.
Proof.
  apply iput_last. intros s' Hfb ET _. split; [|split; [by apply freed_type|split; [intros; by apply freed_dino|split; [apply Hfb|by exists K]]]].
  intros b Hb. rewrite (proj2 (proj2 Hfb) b Hb). unfold gone. split; intros [Hu Hg]; (split; [done|]).
  - intros (j & Hj & Ej & Hn). apply Hg. split; [done|]. exists j. split; [lia|done].
  - intros [Hn (j & Hj & Ej)]. apply Hg. exists j. split; [lia|done].
Qed.
End iput.

(** ** The file of two blocks, without links *)

Definition unlinked : inode := with_i_nlink 0 (with_i_lock (mkSleeplock false 0) inode0).
Definition fs2 : kernel := fs1 [unlinked] (blk 7) zeros.

Lemma bitmap0_blocks m : bitmap_block_of sb0 m -> m = 45.
Proof. intros (b & Hb & ->). by apply fs1_bblock. Qed.

Lemma fs2_last : last_ref 0 1 0 (k_log fs2) {[45; 32]} fs2 unlinked.
Proof.
  split.
  - destruct (fs1_file [unlinked] (blk 7) zeros eq_refl eq_refl unlinked eq_refl eq_refl eq_refl) as [A B C D E F G K].
    split; [eapply fop_weaken; [exact A|apply empty_subseteq]|done..].
  - reflexivity.
  - reflexivity.
  - reflexivity.
  - reflexivity.
  - reflexivity.
  - destruct fs0_inode as [K1 K2 K3 K4 K5 K6]. by split.
  - cbn. lia.
  - cbn. lia.
  - unfold room. change (size ({[45; 32]} : gset Z)) with 2%nat. change LOGSIZE with 30. change HEAD with 30%nat. change (l_size (k_log fs2)) with 30. lia.
  - intros m ->%bitmap0_blocks. set_solver.
  - change (IBLOCK _ _) with 32. split; [set_solver|]. split; [lia|]. split; [unfold home; cbn; lia|]. by intros ?%bitmap0_blocks.
Qed.

Lemma iput_frees_file_witness : wp (@iput sync_disk 1%nat 0) (fun _ s' =>
  used sb0 (content s') 45 = true /\ used sb0 (content s') 46 = false /\ used sb0 (content s') 47 = false /\ i_type (dino sb0 (content s') 5) = 0) fs2.
Proof.
  pose proof (fs1_owned [unlinked] (blk 7) zeros eq_refl eq_refl unlinked eq_refl eq_refl) as Ho.
  change (addrs 0 (fs1 [unlinked] (blk 7) zeros)) with (i_addrs unlinked) in Ho. fold fs2 in Ho.
  eapply wp_mono; [exact (@iput_frees_file sync_disk sync_disk_ok 1%nat 0 1 0 (k_log fs2) {[45; 32]} fs2 unlinked fs2_last)|].
  cbn beta. change (k_sb fs2) with sb0. change (sb_size sb0) with 2000. change (i_inum unlinked) with 5. intros _ s' (Hu & Ht & _).
  pose proof (fs1_used [unlinked] (blk 7) zeros eq_refl eq_refl) as Hu0. split_and!; [| | |exact Ht].
  - apply Hu; [lia|]. split; [by rewrite Hu0 by lia|]. intros (j & Hj & Ej & _). rewrite Ho in Ej by done.
    destruct (j =? 0), (j =? 1); lia.
  - apply not_true_is_false. intros [_ []]%Hu; [|lia]. exists 0. split; [rewrite maxfile_eq; lia|]. rewrite Ho by (rewrite maxfile_eq; lia). split; [reflexivity|lia].
  - apply not_true_is_false. intros [_ []]%Hu; [|lia]. exists 1. split; [rewrite maxfile_eq; lia|]. rewrite Ho by (rewrite maxfile_eq; lia). split; [reflexivity|lia].
Defined.
