(* ===== verification/Proc.v ===== *)
(** * proc.c: processes.

    A trapframe is the record in [k_tf] at the address of its page.  A process's
    kernel thread and the scheduler are coroutines: swtch() suspends one with
    its continuation ([Swtch]).  wakeup(0) is not modelled: nothing sleeps on
    address 0. *)

From S2P Require Import Prelude Exec Params State Mem Kalloc Vm Sched Sleeplock Bio Log Uart Printf Console Fs Pipe File.

(** Index of a register in [tf_regs]. *)
Definition R_sp : Z := 1.
Definition R_a0 : Z := 9.
Definition R_a1 : Z := 10.
Definition R_a7 : Z := 16.

(** A page that kalloc() returns is filled with 5s. *)
Definition junk64 : Z := 361700864190383365.
Definition junk_tf : trapframe_t := mkTrapframe junk64 junk64 junk64 junk64 junk64 (replicate 31 junk64).

Definition tf_at (a : Z) : KM trapframe_t := gets (fun s => default junk_tf (k_tf s !! a)).
Definition upd_tf (a : Z) (f : trapframe_t -> trapframe_t) : KM unit :=
  modify (fun s => with_k_tf (alter f a (k_tf s)) s).
Definition set_reg (r v : Z) (tf : trapframe_t) : trapframe_t := with_tf_regs (zset (tf_regs tf) r v) tf.

Definition initcode : list Z :=
  [23; 5; 0; 0; 19; 5; 69; 2; 151; 5; 0; 0; 147; 133; 53; 2; 147; 8; 112; 0; 115; 0; 0; 0; 147; 8; 32; 0; 115; 0; 0; 0;
   239; 240; 159; 255; 47; 105; 110; 105; 116; 0; 0; 36; 0; 0; 0; 0; 0; 0; 0; 0].

Section proc.
Context `{LinkerOk} `{Disk} `{Waits} `{Frame}.

Definition proc_mapstacks (kpgtbl : Z) : KM unit :=
  forM procs (fun i =>
    pa <- kalloc ;;
    if pa =? 0 then panic "kalloc" else
    kvmmap kpgtbl (KSTACK (Z.of_nat i)) pa PGSIZE (Z.lor PTE_R PTE_W)).

Definition procinit : KM unit :=
  forM procs (fun i => upd_proc i (fun p => with_p_kstack (KSTACK (Z.of_nat i)) (with_p_state UNUSED p))).

(** proc_pagetable(p), for a process whose trapframe page is [tf]. *)
Definition proc_pagetable (tf : Z) : KM Z :=
  pagetable <- uvmcreate ;;
  if pagetable =? 0 then ret 0 else
  r <- mappages pagetable TRAMPOLINE PGSIZE trampoline (Z.lor PTE_R PTE_X) ;;
  if r <? 0 then uvmfree pagetable 0 ;;; ret 0 else
  r <- mappages pagetable TRAPFRAME PGSIZE tf (Z.lor PTE_R PTE_W) ;;
  if r <? 0 then uvmunmap pagetable TRAMPOLINE 1 false ;;; uvmfree pagetable 0 ;;; ret 0 else
  ret pagetable.

Definition proc_freepagetable (pagetable sz : Z) : KM unit :=
  uvmunmap pagetable TRAMPOLINE 1 false ;;;
  uvmunmap pagetable TRAPFRAME 1 false ;;;
  uvmfree pagetable sz.

Definition freeproc (i : nat) : KM unit :=
  p <- proc_at i ;;
  when (negb (p_trapframe p =? 0))
    (modify (fun s => with_k_tf (delete (p_trapframe p) (k_tf s)) s) ;;;
     kfree (p_trapframe p)) ;;;
  upd_proc i (with_p_trapframe 0) ;;;
  when (negb (p_pagetable p =? 0)) (proc_freepagetable (p_pagetable p) (p_sz p)) ;;;
  upd_proc i (with_p_pagetable 0) ;;;
  upd_proc i (fun p =>
    with_p_state UNUSED (with_p_xstate 0 (with_p_killed false (with_p_chan None
      (with_p_name (zset (p_name p) 0 0) (with_p_parent None (with_p_pid 0 (with_p_sz 0 p)))))))).

Definition allocproc : KM (option nat) :=
  r <- findM procs (fun i =>
    acquire (Lproc i) ;;;
    p <- proc_at i ;;
    if decide (p_state p = UNUSED) then ret (Some i)
    else release (Lproc i) ;;; ret None) ;;
  match r with
  | None => ret None
  | Some i =>
      pid <- allocpid ;;
      upd_proc i (with_p_pid pid) ;;;
      upd_proc i (with_p_state USED) ;;;
      tf <- kalloc ;;
      upd_proc i (with_p_trapframe tf) ;;;
      if tf =? 0 then freeproc i ;;; release (Lproc i) ;;; ret None else
      modify (fun s => with_k_tf (<[tf := junk_tf]> (k_tf s)) s) ;;;
      pt <- proc_pagetable tf ;;
      upd_proc i (with_p_pagetable pt) ;;;
      if pt =? 0 then freeproc i ;;; release (Lproc i) ;;; ret None else
      upd_proc i (fun p => with_p_context (mkContext forkret_addr (u64 (p_kstack p + PGSIZE)) (replicate 12 0)) p) ;;;
      ret (Some i)
  end.

Definition userinit : KM unit :=
  o <- allocproc ;;
  modify (with_k_initproc o) ;;;
  match o with
  | None => panic "kerneltrap"
  | Some i =>
      p <- proc_at i ;;
      uvmfirst (p_pagetable p) initcode ;;;
      upd_proc i (with_p_sz PGSIZE) ;;;
      upd_tf (p_trapframe p) (with_tf_epc 0) ;;;
      upd_tf (p_trapframe p) (set_reg R_sp PGSIZE) ;;;
      upd_proc i (fun p => with_p_name (splice (p_name p) 0 (safestrcpy (str "initcode") 16)) p) ;;;
      cwd <- namei (str "/") ;;
      upd_proc i (with_p_cwd cwd) ;;;
      upd_proc i (with_p_state RUNNABLE) ;;;
      release (Lproc i)
  end.

Definition growproc (n : Z) : KM Z :=
  i <- curproc ;;
  p <- proc_at i ;;
  let sz := p_sz p in
  if 0 <? n then
    sz <- uvmalloc (p_pagetable p) sz (u64 (sz + n)) PTE_W ;;
    if sz =? 0 then ret (-1) else
    upd_proc i (with_p_sz sz) ;;;
    ret 0
  else if n <? 0 then
    sz <- uvmdealloc (p_pagetable p) sz (u64 (sz + n)) ;;
    upd_proc i (with_p_sz sz) ;;;
    ret 0
  else upd_proc i (with_p_sz sz) ;;; ret 0.

Definition fork : KM Z :=
  i <- curproc ;;
  o <- allocproc ;;
  match o with
  | None => ret (-1)
  | Some np =>
      p <- proc_at i ;;
      q <- proc_at np ;;
      r <- uvmcopy (p_pagetable p) (p_pagetable q) (p_sz p) ;;
      if r <? 0 then freeproc np ;;; release (Lproc np) ;;; ret (-1) else
      upd_proc np (with_p_sz (p_sz p)) ;;;
      tf <- tf_at (p_trapframe p) ;;
      modify (fun s => with_k_tf (<[p_trapframe q := tf]> (k_tf s)) s) ;;;
      upd_tf (p_trapframe q) (set_reg R_a0 0) ;;;
      forM (seq 0 (Z.to_nat NOFILE)) (fun fd =>
        match p_ofile p !! fd with
        | Some (Some f) =>
            f' <- filedup f ;;
            upd_proc np (fun q => with_p_ofile (<[fd := Some f']> (p_ofile q)) q)
        | _ => ret tt
        end) ;;;
      match p_cwd p with
      | None => panic "kerneltrap"
      | Some d =>
          d' <- idup d ;;
          upd_proc np (with_p_cwd (Some d')) ;;;
          upd_proc np (fun q => with_p_name (splice (p_name q) 0 (safestrcpy (p_name p) 16)) q) ;;;
          release (Lproc np) ;;;
          acquire Lwait ;;;
          upd_proc np (with_p_parent (Some i)) ;;;
          release Lwait ;;;
          acquire (Lproc np) ;;;
          upd_proc np (with_p_state RUNNABLE) ;;;
          release (Lproc np) ;;;
          ret (p_pid q)
      end
  end.

Definition wakeup_opt (o : option nat) : KM unit :=
  match o with Some i => wakeup (Cproc i) | None => ret tt end.

Definition reparent (i : nat) : KM unit :=
  forM procs (fun pp =>
    q <- proc_at pp ;;
    if decide (p_parent q = Some i) then
      init <- gets (fun s => k_initproc s) ;;
      upd_proc pp (with_p_parent init) ;;;
      wakeup_opt init
    else ret tt).

Definition exit (status : Z) : KM unit :=
  i <- curproc ;;
  init <- gets (fun s => k_initproc s) ;;
  if decide (Some i = init) then panic "init exiting" else
  forM (seq 0 (Z.to_nat NOFILE)) (fun fd =>
    p <- proc_at i ;;
    match p_ofile p !! fd with
    | Some (Some f) =>
        fileclose f ;;;
        upd_proc i (fun p => with_p_ofile (<[fd := None]> (p_ofile p)) p)
    | _ => ret tt
    end) ;;;
  begin_op ;;;
  p <- proc_at i ;;
  match p_cwd p with
  | Some d => iput d
  | None => panic "kerneltrap"
  end ;;;
  end_op ;;;
  upd_proc i (with_p_cwd None) ;;;
  acquire Lwait ;;;
  reparent i ;;;
  p <- proc_at i ;;
  wakeup_opt (p_parent p) ;;;
  acquire (Lproc i) ;;;
  upd_proc i (with_p_xstate status) ;;;
  upd_proc i (with_p_state ZOMBIE) ;;;
  release Lwait ;;;
  sched ;;;
  panic "zombie exit".

(** One scan of the process table by wait(): the answer, or whether there are
    children. *)
Definition wait_scan (i : nat) (addr : Z) : KM (Z + bool) :=
  loop (S (Z.to_nat NPROC)) (fun '(pp, havekids) =>
    if decide (pp < Z.to_nat NPROC)%nat then
      q <- proc_at pp ;;
      if decide (p_parent q = Some i) then
        acquire (Lproc pp) ;;;
        q <- proc_at pp ;;
        if decide (p_state q = ZOMBIE) then
          let pid := p_pid q in
          p <- proc_at i ;;
          r <- (if negb (addr =? 0) then copyout (p_pagetable p) addr (le_bytes 4 (p_xstate q)) else ret 0) ;;
          if r <? 0 then
            release (Lproc pp) ;;;
            release Lwait ;;;
            ret (inr (inl (-1)))
          else
            freeproc pp ;;;
            release (Lproc pp) ;;;
            release Lwait ;;;
            ret (inr (inl pid))
        else
          release (Lproc pp) ;;;
          ret (inl (S pp, true))
      else ret (inl (S pp, havekids))
    else ret (inr (inr havekids))) (0%nat, false).

Definition wait (addr : Z) : KM Z :=
  i <- curproc ;;
  acquire Lwait ;;;
  loop (S waits) (fun _ : unit =>
    r <- wait_scan i addr ;;
    match r with
    | inl v => ret (inr v)
    | inr havekids =>
        k <- (if havekids then killed i else ret true) ;;
        if k then release Lwait ;;; ret (inr (-1))
        else sleep (Cproc i) Lwait ;;; ret (inl tt)
    end) tt.

(** The body of the scheduler's endless loop, after [c->proc = 0]. *)
Definition scheduler : KM unit :=
  modify (with_k_cur None) ;;;
  forM procs (fun i =>
    acquire (Lproc i) ;;;
    p <- proc_at i ;;
    when (bool_decide (p_state p = RUNNABLE))
      (upd_proc i (with_p_state RUNNING) ;;;
       modify (with_k_cur (Some i)) ;;;
       swtch ;;;
       modify (with_k_cur None)) ;;;
    release (Lproc i)).
End proc.
