(* ===== verification/KExec.v ===== *)
(** * exec.c: replacing a process's program.

    The two headers are read into the local variable at [frame] and kept as the
    bytes read.  The labels [bad] of the C code are the [None] answers of the
    two halves, which carry the page table and size to free. *)

From S2P Require Import Prelude Exec Params State Mem Kalloc Vm Sched Sleeplock Bio Log Uart Printf Console Fs Pipe File Proc.

(** ** elf.h *)
Definition ELF_MAGIC : Z := 1179403647.   (* 0x464C457F *)
Definition ELF_PROG_LOAD : Z := 1.
Definition ELFHDR_SIZE : Z := 64.
Definition PROGHDR_SIZE : Z := 56.
Definition get64 (l : list Z) (off : Z) : Z := le_val (slice l off 8).

Record elfhdr := mkElfhdr { elf_magic : Z; elf_entry : Z; elf_phoff : Z; elf_phnum : Z }.
Definition elfhdr_of (d : list Z) : elfhdr := mkElfhdr (get32 d 0) (get64 d 24) (get64 d 32) (get16 d 56).

Record proghdr := mkProghdr {
  ph_type : Z; ph_flags : Z; ph_off : Z; ph_vaddr : Z; ph_filesz : Z; ph_memsz : Z }.
Definition proghdr_of (d : list Z) : proghdr :=
  mkProghdr (get32 d 0) (get32 d 4) (get64 d 8) (get64 d 16) (get64 d 32) (get64 d 40).

Definition flags2perm (flags : Z) : Z :=
  let perm := if negb (Z.land flags 1 =? 0) then PTE_X else 0 in
  if negb (Z.land flags 2 =? 0) then Z.lor perm PTE_W else perm.

(** The last element of [path], for p->name. *)
Fixpoint last_elem (last path : list Z) : list Z :=
  match path with
  | [] => last
  | c :: path => if c =? 0 then last else last_elem (if c =? 47 then path else last) path
  end.

Section exec.
Context `{LinkerOk} `{Disk} `{Waits} `{Frame}.

Definition loadseg (pagetable va : Z) (ip : nat) (offset sz : Z) : KM Z :=
  loop (S (Z.to_nat (sz / PGSIZE + 1))) (fun i =>
    if negb (i <? sz) then ret (inr 0) else
    pa <- walkaddr pagetable (u64 (va + i)) ;;
    if pa =? 0 then panic "loadseg: address should exist" else
    let n := if sz - i <? PGSIZE then sz - i else PGSIZE in
    r <- readi ip false pa (u32 (offset + i)) n ;;
    if negb (r =? n) then ret (inr (-1)) else ret (inl (i + PGSIZE))) 0.

(** readi(ip, 0, &local, off, size): the bytes, or None when it is short. *)
Definition read_local (ip : nat) (off size : Z) : KM (option (list Z)) :=
  r <- readi ip false frame off size ;;
  if negb (r =? size) then ret None else
  d <- gets (fun s => load_bytes (k_mem s) frame (Z.to_nat size)) ;;
  ret (Some d).

(** The loop over the program headers; [sz] is the size reached when it fails. *)
Definition load_segments (ip : nat) (pagetable : Z) (elf : elfhdr) : KM (bool * Z) :=
  loop (S (Z.to_nat (elf_phnum elf))) (fun '(i, off, sz) =>
    if negb (i <? elf_phnum elf) then ret (inr (true, sz)) else
    o <- read_local ip (u32 off) PROGHDR_SIZE ;;
    match o with
    | None => ret (inr (false, sz))
    | Some d =>
        let ph := proghdr_of d in
        let next sz := ret (inl (i + 1, i32 (off + PROGHDR_SIZE), sz)) in
        if negb (ph_type ph =? ELF_PROG_LOAD) then next sz else
        if ph_memsz ph <? ph_filesz ph then ret (inr (false, sz)) else
        if u64 (ph_vaddr ph + ph_memsz ph) <? ph_vaddr ph then ret (inr (false, sz)) else
        if negb (ph_vaddr ph mod PGSIZE =? 0) then ret (inr (false, sz)) else
        sz1 <- uvmalloc pagetable sz (u64 (ph_vaddr ph + ph_memsz ph)) (flags2perm (ph_flags ph)) ;;
        if sz1 =? 0 then ret (inr (false, sz)) else
        r <- loadseg pagetable (ph_vaddr ph) ip (u32 (ph_off ph)) (u32 (ph_filesz ph)) ;;
        if r <? 0 then ret (inr (false, sz1)) else next sz1
    end) (0, i32 (elf_phoff elf), 0).

(** Push the argument strings and the array of their addresses: the stack
    pointer, or None for [bad]. *)
Definition push_args (pagetable sp stackbase : Z) (argv : list (list Z)) : KM (option Z) :=
  r <- loop (S (length argv)) (fun '(argc, sp, ustack, args) =>
    match args with
    | [] => ret (inr (Some (argc, sp, ustack)))
    | arg :: args =>
        if MAXARG <=? argc then ret (inr None) else
        let sp := u64 (sp - (strlen arg + 1)) in
        let sp := sp - sp mod 16 in
        if sp <? stackbase then ret (inr None) else
        r <- copyout pagetable sp (take (Z.to_nat (strlen arg)) arg ++ [0]) ;;
        if r <? 0 then ret (inr None) else
        ret (inl (argc + 1, sp, ustack ++ [sp], args))
    end) (0, sp, [], argv) ;;
  match r with
  | None => ret None
  | Some (argc, sp, ustack) =>
      let sp := u64 (sp - (argc + 1) * 8) in
      let sp := sp - sp mod 16 in
      if sp <? stackbase then ret None else
      r <- copyout pagetable sp (concat (le_bytes 8 <$> (ustack ++ [0]))) ;;
      if r <? 0 then ret None else ret (Some sp)
  end.

(** Build the stack and commit to the new image; [bad] frees the page table. *)
Definition exec_commit (i : nat) (path : list Z) (argv : list (list Z)) (pagetable sz entry : Z) : KM Z :=
  p <- proc_at i ;;
  let oldsz := p_sz p in
  let sz := PGROUNDUP sz in
  sz1 <- uvmalloc pagetable sz (u64 (sz + 2 * PGSIZE)) PTE_W ;;
  if sz1 =? 0 then proc_freepagetable pagetable sz ;;; ret (-1) else
  let sz := sz1 in
  uvmclear pagetable (u64 (sz - 2 * PGSIZE)) ;;;
  o <- push_args pagetable sz (u64 (sz - PGSIZE)) argv ;;
  match o with
  | None => proc_freepagetable pagetable sz ;;; ret (-1)
  | Some sp =>
      upd_tf (p_trapframe p) (set_reg R_a1 sp) ;;;
      upd_proc i (fun p => with_p_name (splice (p_name p) 0 (safestrcpy (last_elem path path) 16)) p) ;;;
      upd_proc i (with_p_pagetable pagetable) ;;;
      upd_proc i (with_p_sz sz) ;;;
      upd_tf (p_trapframe p) (with_tf_epc entry) ;;;
      upd_tf (p_trapframe p) (set_reg R_sp sp) ;;;
      proc_freepagetable (p_pagetable p) oldsz ;;;
      ret (Z.of_nat (length argv))
  end.

Definition exec (path : list Z) (argv : list (list Z)) : KM Z :=
  i <- curproc ;;
  begin_op ;;;
  o <- namei path ;;
  match o with
  | None => end_op ;;; ret (-1)
  | Some ip =>
      ilock ip ;;;
      let bad := iunlockput ip ;;; end_op ;;; ret (-1) in
      h <- read_local ip 0 ELFHDR_SIZE ;;
      match h with
      | None => bad
      | Some d =>
          let elf := elfhdr_of d in
          if negb (elf_magic elf =? ELF_MAGIC) then bad else
          p <- proc_at i ;;
          pagetable <- proc_pagetable (p_trapframe p) ;;
          if pagetable =? 0 then bad else
          do (ok, sz) <- load_segments ip pagetable elf ;;
          if negb ok then proc_freepagetable pagetable sz ;;; bad else
          iunlockput ip ;;;
          end_op ;;;
          exec_commit i path argv pagetable sz (elf_entry elf)
      end
  end.
End exec.
