(* ===== verification/Syscall.v ===== *)
(** * syscall.c, first part: fetching the arguments of a system call.

    A kernel buffer that is filled is the list of its bytes; [argint] and its
    siblings return what the C functions store through a pointer. *)

From S2P Require Import Prelude Exec Params State Mem Kalloc Vm Sched Sleeplock Bio Log Uart Printf Console Fs Pipe File Proc.

Section syscall.
Context `{LinkerOk}.

Definition fetchaddr (addr : Z) : KM (option Z) :=
  i <- curproc ;;
  p <- proc_at i ;;
  if (p_sz p <=? addr) || (p_sz p <? u64 (addr + 8)) then ret None else
  do (r, d) <- copyin (p_pagetable p) addr 8 ;;
  if negb (r =? 0) then ret None else ret (Some (le_val d)).

(** The length, and the buffer. *)
Definition fetchstr (addr max : Z) : KM (Z * list Z) :=
  i <- curproc ;;
  p <- proc_at i ;;
  do (r, buf) <- copyinstr (p_pagetable p) addr max ;;
  if r <? 0 then ret (-1, buf) else ret (strlen buf, buf).

Definition argraw (n : Z) : KM Z :=
  i <- curproc ;;
  p <- proc_at i ;;
  tf <- tf_at (p_trapframe p) ;;
  if (0 <=? n) && (n <=? 5) then ret (zget (tf_regs tf) (R_a0 + n)) else panic "argraw".

Definition argint (n : Z) : KM Z := v <- argraw n ;; ret (i32 v).
Definition argaddr (n : Z) : KM Z := argraw n.

Definition argstr (n max : Z) : KM (Z * list Z) :=
  addr <- argaddr n ;;
  fetchstr addr max.
End syscall.
