(* ===== verification/Sysproc.v ===== *)
(** * sysproc.c: the system calls on processes.  Results are the uint64 the C functions return. *)

From S2P Require Import Prelude Exec Params State Mem Kalloc Vm Sched Sleeplock Bio Log Uart Printf Console Fs Pipe File Proc Syscall.

Section sysproc.
Context `{LinkerOk} `{Disk} `{Waits} `{Frame}.

Definition sys_exit : KM Z :=
  n <- argint 0 ;;
  exit n ;;;
  ret 0.

Definition sys_getpid : KM Z :=
  i <- curproc ;;
  p <- proc_at i ;;
  ret (u64 (p_pid p)).

Definition sys_fork : KM Z := r <- fork ;; ret (u64 r).

Definition sys_wait : KM Z :=
  p <- argaddr 0 ;;
  r <- wait p ;;
  ret (u64 r).

Definition sys_sbrk : KM Z :=
  n <- argint 0 ;;
  i <- curproc ;;
  p <- proc_at i ;;
  let addr := p_sz p in
  r <- growproc n ;;
  if r <? 0 then ret (u64 (-1)) else ret addr.

(** [ticks - ticks0 < n] compares as unsigned. *)
Definition sys_sleep : KM Z :=
  n <- argint 0 ;;
  acquire Lticks ;;;
  ticks0 <- gets (fun s => k_ticks s) ;;
  loop (S waits) (fun _ : unit =>
    t <- gets (fun s => k_ticks s) ;;
    if u32 (t - ticks0) <? u32 n then
      i <- curproc ;;
      k <- killed i ;;
      if k then release Lticks ;;; ret (inr (u64 (-1)))
      else sleep Cticks Lticks ;;; ret (inl tt)
    else release Lticks ;;; ret (inr 0)) tt.

Definition sys_kill : KM Z :=
  pid <- argint 0 ;;
  r <- kill pid ;;
  ret (u64 r).

Definition sys_uptime : KM Z :=
  acquire Lticks ;;;
  xticks <- gets (fun s => k_ticks s) ;;
  release Lticks ;;;
  ret xticks.
End sysproc.
