(* ===== verification/Sysfile.v ===== *)
(** * sysfile.c: the system calls on files.  [fail] is (uint64)-1. *)

From S2P Require Import Prelude Exec Params State Mem Kalloc Vm Sched Sleeplock Bio Log Uart Printf Console Fs Pipe File Proc KExec Syscall.

Definition fail : Z := u64 (-1).

(** argfd(n, &fd, &f) *)
Definition argfd (n : Z) : KM (option (nat * nat)) :=
  fd <- argint n ;;
  if (fd <? 0) || (NOFILE <=? fd) then ret None else
  i <- curproc ;;
  p <- proc_at i ;;
  match zget (p_ofile p) fd with
  | Some f => ret (Some (Z.to_nat fd, f))
  | None => ret None
  end.

Definition set_ofile (i fd : nat) (o : option nat) : KM unit :=
  upd_proc i (fun p => with_p_ofile (<[fd := o]> (p_ofile p)) p).

Definition fdalloc (f : nat) : KM (option nat) :=
  i <- curproc ;;
  findM (seq 0 (Z.to_nat NOFILE)) (fun fd =>
    p <- proc_at i ;;
    match p_ofile p !!! fd with
    | None => set_ofile i fd (Some f) ;;; ret (Some fd)
    | Some _ => ret None
    end).

Section sysfile.
Context `{LinkerOk} `{Disk} `{Waits} `{Frame}.

Definition sys_dup : KM Z :=
  o <- argfd 0 ;;
  match o with
  | None => ret fail
  | Some (_, f) =>
      r <- fdalloc f ;;
      match r with
      | None => ret fail
      | Some fd => filedup f ;;; ret (Z.of_nat fd)
      end
  end.

Definition sys_read : KM Z :=
  p <- argaddr 1 ;;
  n <- argint 2 ;;
  o <- argfd 0 ;;
  match o with
  | None => ret fail
  | Some (_, f) => r <- fileread f p n ;; ret (u64 r)
  end.

Definition sys_write : KM Z :=
  p <- argaddr 1 ;;
  n <- argint 2 ;;
  o <- argfd 0 ;;
  match o with
  | None => ret fail
  | Some (_, f) => r <- filewrite f p n ;; ret (u64 r)
  end.

Definition sys_close : KM Z :=
  o <- argfd 0 ;;
  match o with
  | None => ret fail
  | Some (fd, f) =>
      i <- curproc ;;
      set_ofile i fd None ;;;
      fileclose f ;;;
      ret 0
  end.

Definition sys_fstat : KM Z :=
  st <- argaddr 1 ;;
  o <- argfd 0 ;;
  match o with
  | None => ret fail
  | Some (_, f) => r <- filestat f st ;; ret (u64 r)
  end.

(** [ip->nlink++] and [ip->nlink--] on a short. *)
Definition add_nlink (ip : nat) (k : Z) : KM unit := upd_inode ip (fun i => with_i_nlink (i16 (i_nlink i + k)) i).

Definition sys_link : KM Z :=
  do (r, old) <- argstr 0 MAXPATH ;;
  if r <? 0 then ret fail else
  do (r, new) <- argstr 1 MAXPATH ;;
  if r <? 0 then ret fail else
  begin_op ;;;
  o <- namei old ;;
  match o with
  | None => end_op ;;; ret fail
  | Some ip =>
      ilock ip ;;;
      i <- inode_at ip ;;
      if i_type i =? T_DIR then iunlockput ip ;;; end_op ;;; ret fail else
      add_nlink ip 1 ;;;
      iupdate ip ;;;
      iunlock ip ;;;
      let bad := ilock ip ;;; add_nlink ip (-1) ;;; iupdate ip ;;; iunlockput ip ;;; end_op ;;; ret fail in
      d <- nameiparent new ;;
      match d with
      | None => bad
      | Some (dp, name) =>
          ilock dp ;;;
          di <- inode_at dp ;;
          i <- inode_at ip ;;
          r <- (if negb (i_dev di =? i_dev i) then ret (-1) else dirlink dp name (i_inum i)) ;;
          if r <? 0 then iunlockput dp ;;; bad else
          iunlockput dp ;;;
          iput ip ;;;
          end_op ;;;
          ret 0
      end
  end.

Definition isdirempty (dp : nat) : KM bool :=
  d <- inode_at dp ;;
  r <- findM ((fun k => DIRENT_SIZE * (k + 2)) <$> seqZ 0 ((i_size d - 2 * DIRENT_SIZE + DIRENT_SIZE - 1) / DIRENT_SIZE)) (fun off =>
    r <- readi dp false frame off DIRENT_SIZE ;;
    if negb (r =? DIRENT_SIZE) then panic "isdirempty: readi" else
    inum <- de_inum ;;
    ret (if negb (inum =? 0) then Some tt else None)) ;;
  ret (match r with Some _ => false | None => true end).

Definition sys_unlink : KM Z :=
  do (r, path) <- argstr 0 MAXPATH ;;
  if r <? 0 then ret fail else
  begin_op ;;;
  d <- nameiparent path ;;
  match d with
  | None => end_op ;;; ret fail
  | Some (dp, name) =>
      ilock dp ;;;
      let bad := iunlockput dp ;;; end_op ;;; ret fail in
      if (namecmp name (str ".") =? 0) || (namecmp name (str "..") =? 0) then bad else
      o <- dirlookup dp name ;;
      match o with
      | None => bad
      | Some (ip, off) =>
          ilock ip ;;;
          i <- inode_at ip ;;
          if i_nlink i <? 1 then panic "unlink: nlink < 1" else
          empty <- (if i_type i =? T_DIR then isdirempty ip else ret true) ;;
          if negb empty then iunlockput ip ;;; bad else
          modify (fun s => with_k_mem (memset (k_mem s) frame 0 DIRENT_SIZE) s) ;;;
          r <- writei dp false frame off DIRENT_SIZE ;;
          if negb (r =? DIRENT_SIZE) then panic "unlink: writei" else
          when (i_type i =? T_DIR) (add_nlink dp (-1) ;;; iupdate dp) ;;;
          iunlockput dp ;;;
          add_nlink ip (-1) ;;;
          iupdate ip ;;;
          iunlockput ip ;;;
          end_op ;;;
          ret 0
      end
  end.

Definition create (path : list Z) (type major minor : Z) : KM (option nat) :=
  d <- nameiparent path ;;
  match d with
  | None => ret None
  | Some (dp, name) =>
      ilock dp ;;;
      o <- dirlookup dp name ;;
      match o with
      | Some (ip, _) =>
          iunlockput dp ;;;
          ilock ip ;;;
          i <- inode_at ip ;;
          if (type =? T_FILE) && ((i_type i =? T_FILE) || (i_type i =? T_DEVICE)) then ret (Some ip) else
          iunlockput ip ;;;
          ret None
      | None =>
          di <- inode_at dp ;;
          o <- ialloc (i_dev di) type ;;
          match o with
          | None => iunlockput dp ;;; ret None
          | Some ip =>
              ilock ip ;;;
              upd_inode ip (fun i => with_i_nlink 1 (with_i_minor minor (with_i_major major i))) ;;;
              iupdate ip ;;;
              i <- inode_at ip ;;
              ok <- (if type =? T_DIR then
                       r <- dirlink ip (str ".") (i_inum i) ;;
                       if r <? 0 then ret false else
                       r <- dirlink ip (str "..") (i_inum di) ;;
                       ret (negb (r <? 0))
                     else ret true) ;;
              r <- (if ok then dirlink dp name (i_inum i) else ret (-1)) ;;
              if r <? 0 then
                upd_inode ip (with_i_nlink 0) ;;;
                iupdate ip ;;;
                iunlockput ip ;;;
                iunlockput dp ;;;
                ret None
              else
                when (type =? T_DIR) (add_nlink dp 1 ;;; iupdate dp) ;;;
                iunlockput dp ;;;
                ret (Some ip)
          end
      end
  end.

Definition sys_open : KM Z :=
  omode <- argint 1 ;;
  do (n, path) <- argstr 0 MAXPATH ;;
  if n <? 0 then ret fail else
  begin_op ;;;
  o <- (if negb (Z.land omode O_CREATE =? 0) then create path T_FILE 0 0
        else
          o <- namei path ;;
          match o with
          | None => ret None
          | Some ip =>
              ilock ip ;;;
              i <- inode_at ip ;;
              if (i_type i =? T_DIR) && negb (omode =? O_RDONLY) then iunlockput ip ;;; ret None
              else ret (Some ip)
          end) ;;
  match o with
  | None => end_op ;;; ret fail
  | Some ip =>
      i <- inode_at ip ;;
      if (i_type i =? T_DEVICE) && ((i_major i <? 0) || (NDEV <=? i_major i)) then iunlockput ip ;;; end_op ;;; ret fail else
      f <- filealloc ;;
      fd <- match f with Some f => fdalloc f | None => ret None end ;;
      match f, fd with
      | Some f, Some fd =>
          (if i_type i =? T_DEVICE then upd_file f (fun x => with_f_major (i_major i) (with_f_type FD_DEVICE x))
           else upd_file f (fun x => with_f_off 0 (with_f_type FD_INODE x))) ;;;
          upd_file f (fun x =>
            with_f_writable (negb (Z.land omode O_WRONLY =? 0) || negb (Z.land omode O_RDWR =? 0))
              (with_f_readable (Z.land omode O_WRONLY =? 0) (with_f_ip ip x))) ;;;
          when (negb (Z.land omode O_TRUNC =? 0) && (i_type i =? T_FILE)) (itrunc ip) ;;;
          iunlock ip ;;;
          end_op ;;;
          ret (Z.of_nat fd)
      | f, _ =>
          close_opt f ;;;
          iunlockput ip ;;;
          end_op ;;;
          ret fail
      end
  end.

Definition sys_mkdir : KM Z :=
  begin_op ;;;
  do (r, path) <- argstr 0 MAXPATH ;;
  o <- (if r <? 0 then ret None else create path T_DIR 0 0) ;;
  match o with
  | None => end_op ;;; ret fail
  | Some ip => iunlockput ip ;;; end_op ;;; ret 0
  end.

(** major and minor are ints that create() takes as shorts. *)
Definition sys_mknod : KM Z :=
  begin_op ;;;
  major <- argint 1 ;;
  minor <- argint 2 ;;
  do (r, path) <- argstr 0 MAXPATH ;;
  o <- (if r <? 0 then ret None else create path T_DEVICE (i16 major) (i16 minor)) ;;
  match o with
  | None => end_op ;;; ret fail
  | Some ip => iunlockput ip ;;; end_op ;;; ret 0
  end.

Definition sys_chdir : KM Z :=
  i <- curproc ;;
  begin_op ;;;
  do (r, path) <- argstr 0 MAXPATH ;;
  o <- (if r <? 0 then ret None else namei path) ;;
  match o with
  | None => end_op ;;; ret fail
  | Some ip =>
      ilock ip ;;;
      x <- inode_at ip ;;
      if negb (i_type x =? T_DIR) then iunlockput ip ;;; end_op ;;; ret fail else
      iunlock ip ;;;
      p <- proc_at i ;;
      match p_cwd p with Some d => iput d | None => panic "kerneltrap" end ;;;
      end_op ;;;
      upd_proc i (with_p_cwd (Some ip)) ;;;
      ret 0
  end.

(** The loop of sys_exec(): the pages allocated and the strings in them, and
    whether it ended at a null pointer. *)
Definition fetch_argv (uargv : Z) : KM (bool * list Z * list (list Z)) :=
  loop (S (Z.to_nat MAXARG)) (fun '(i, pages, args) =>
    if MAXARG <=? i then ret (inr (false, pages, args)) else
    o <- fetchaddr (u64 (uargv + 8 * i)) ;;
    match o with
    | None => ret (inr (false, pages, args))
    | Some uarg =>
        if uarg =? 0 then ret (inr (true, pages, args)) else
        page <- kalloc ;;
        if page =? 0 then ret (inr (false, pages, args)) else
        do (r, buf) <- fetchstr uarg PGSIZE ;;
        upd_mem (fun m => store_bytes m page buf) ;;;
        if r <? 0 then ret (inr (false, pages ++ [page], args)) else
        ret (inl (i + 1, pages ++ [page], args ++ [buf]))
    end) (0, [], []).

Definition sys_exec : KM Z :=
  uargv <- argaddr 1 ;;
  do (r, path) <- argstr 0 MAXPATH ;;
  if r <? 0 then ret fail else
  do (st, args) <- fetch_argv uargv ;;
  let '(ok, pages) := st in
  r <- (if ok then exec path args else ret (-1)) ;;
  forM pages kfree ;;;
  ret (u64 r).

Definition sys_pipe : KM Z :=
  i <- curproc ;;
  fdarray <- argaddr 0 ;;
  o <- pipealloc ;;
  match o with
  | None => ret fail
  | Some (rf, wf) =>
      fd0 <- fdalloc rf ;;
      fd1 <- match fd0 with Some _ => fdalloc wf | None => ret None end ;;
      match fd0, fd1 with
      | Some a, Some b =>
          p <- proc_at i ;;
          r <- copyout (p_pagetable p) fdarray (le_bytes 4 (Z.of_nat a)) ;;
          r <- (if r <? 0 then ret r else copyout (p_pagetable p) (u64 (fdarray + 4)) (le_bytes 4 (Z.of_nat b))) ;;
          if r <? 0 then
            set_ofile i a None ;;;
            set_ofile i b None ;;;
            fileclose rf ;;;
            fileclose wf ;;;
            ret fail
          else ret 0
      | _, _ =>
          match fd0 with Some a => set_ofile i a None | None => ret tt end ;;;
          fileclose rf ;;;
          fileclose wf ;;;
          ret fail
      end
  end.
End sysfile.
