(* ===== verification/Virtio.v ===== *)
(** * virtio_disk.c: the driver of the virtio block device.

    The queue and the book-keeping are [k_vdisk]; an address in a descriptor
    says which command, buffer or status byte it is.  Memory barriers and the
    notify register have no counterpart: the device looks at the rings when the
    environment lets it run. *)

From S2P Require Import Prelude Exec Params State Mem Kalloc Sched Sleeplock Bio.

Definition NUM : Z := 8.
Definition VRING_DESC_F_NEXT : Z := 1.
Definition VRING_DESC_F_WRITE : Z := 2.
Definition VIRTIO_BLK_T_IN : Z := 0.
Definition VIRTIO_BLK_T_OUT : Z := 1.

Definition vdisk : KM vdisk_t := gets (fun s => k_vdisk s).
Definition upd_vdisk (f : vdisk_t -> vdisk_t) : KM unit := modify (fun s => with_k_vdisk (f (k_vdisk s)) s).
Definition set_desc (i : Z) (d : vdesc) : KM unit := upd_vdisk (fun v => with_v_desc (zset (v_desc v) i d) v).
Definition set_free (i : Z) (b : bool) : KM unit := upd_vdisk (fun v => with_v_free (zset (v_free v) i b) v).
Definition upd_info (i : Z) (f : vinfo -> vinfo) : KM unit :=
  upd_vdisk (fun v => with_v_info (zset (v_info v) i (f (zget (v_info v) i))) v).

Definition alloc_desc : KM Z :=
  r <- findM (seqZ 0 NUM) (fun i =>
    v <- vdisk ;;
    if zget (v_free v) i then set_free i false ;;; ret (Some i) else ret None) ;;
  ret (default (-1) r).

Definition free_desc (i : Z) : KM unit :=
  if NUM <=? i then panic "free_desc 1" else
  v <- vdisk ;;
  if zget (v_free v) i then panic "free_desc 2" else
  set_desc i (mkVdesc Dnull 0 0 0) ;;;
  set_free i true ;;;
  wakeup Cdiskfree.

(** A chain has at most NUM descriptors. *)
Definition free_chain (i : Z) : KM unit :=
  loop (Z.to_nat NUM) (fun i =>
    v <- vdisk ;;
    let d := zget (v_desc v) i in
    free_desc i ;;;
    if negb (Z.land (d_flags d) VRING_DESC_F_NEXT =? 0) then ret (inl (d_next d)) else ret (inr tt)) i.

Definition alloc3_desc : KM (option (list Z)) :=
  loop 4 (fun idx =>
    if (length idx <? 3)%nat then
      i <- alloc_desc ;;
      if i <? 0 then forM idx free_desc ;;; ret (inr None)
      else ret (inl (idx ++ [i]))
    else ret (inr (Some idx))) [].

Section virtio.
Context `{Waits}.

(** From the descriptors to the notification. *)
Definition submit (b : nat) (write : bool) (idx : list Z) : KM unit :=
  bf <- buf_at b ;;
  let sector := u32 (b_blockno bf * (BSIZE / 512)) in
  let i0 := zget idx 0 in let i1 := zget idx 1 in let i2 := zget idx 2 in
  upd_vdisk (fun v => with_v_ops (zset (v_ops v) i0 (mkVop (if write then VIRTIO_BLK_T_OUT else VIRTIO_BLK_T_IN) 0 sector)) v) ;;;
  set_desc i0 (mkVdesc (Dop (Z.to_nat i0)) 16 VRING_DESC_F_NEXT i1) ;;;
  set_desc i1 (mkVdesc (Ddata b) BSIZE (Z.lor (if write then 0 else VRING_DESC_F_WRITE) VRING_DESC_F_NEXT) i2) ;;;
  upd_info i0 (with_in_status 255) ;;;
  set_desc i2 (mkVdesc (Dstatus (Z.to_nat i0)) 1 VRING_DESC_F_WRITE 0) ;;;
  upd_buf b (with_b_disk true) ;;;
  upd_info i0 (with_in_b (Some b)) ;;;
  upd_vdisk (fun v => with_v_avail_ring (zset (v_avail_ring v) (v_avail_idx v mod NUM) i0) v) ;;;
  upd_vdisk (fun v => with_v_avail_idx (u16 (v_avail_idx v + 1)) v).

Definition virtio_disk_rw (b : nat) (write : bool) : KM unit :=
  acquire Lvdisk ;;;
  idx <- loop (S waits) (fun _ : unit =>
    o <- alloc3_desc ;;
    match o with
    | Some idx => ret (inr idx)
    | None => sleep Cdiskfree Lvdisk ;;; ret (inl tt)
    end) tt ;;
  submit b write idx ;;;
  loop (S waits) (fun _ : unit =>
    bf <- buf_at b ;;
    if b_disk bf then sleep (Cbuf b) Lvdisk ;;; ret (inl tt) else ret (inr tt)) tt ;;;
  upd_info (zget idx 0) (with_in_b None) ;;;
  free_chain (zget idx 0) ;;;
  release Lvdisk.
End virtio.

(** Each turn consumes one entry of the used ring, whose counter is 16 bits wide. *)
Definition virtio_disk_intr : KM unit :=
  acquire Lvdisk ;;;
  v <- vdisk ;;
  loop (S (Z.to_nat (u16 (v_used_ring_idx v - v_used_idx v)))) (fun _ : unit =>
    v <- vdisk ;;
    if v_used_idx v =? v_used_ring_idx v then ret (inr tt) else
    let id := zget (v_used_ring v) (v_used_idx v mod NUM) in
    let info := zget (v_info v) id in
    if negb (in_status info =? 0) then panic "virtio_disk_intr status" else
    match in_b info with
    | None => panic "kerneltrap"
    | Some b =>
        upd_buf b (with_b_disk false) ;;;
        wakeup (Cbuf b) ;;;
        upd_vdisk (fun v => with_v_used_idx (u16 (v_used_idx v + 1)) v) ;;;
        ret (inl tt)
    end) tt ;;;
  release Lvdisk.

(** ** Initialisation

    [R] gives the values read from the device's registers; the answer is the
    sequence of register writes. *)

Section init.
Context `{LinkerOk}.
Variable R : Z -> Z.

Definition virtio_disk_init : KM (list (Z * Z)) :=
  if negb (R 0 =? 1953655158) || negb (R 4 =? 2) || negb (R 8 =? 2) || negb (R 12 =? 1431127377)
  then panic "could not find virtio disk" else
  let status := 0 in
  let w1 := [(112, status); (112, Z.lor status 1); (112, Z.lor (Z.lor status 1) 2)] in
  let features := fold_left (fun f b => Z.land f (Z.lnot (Z.shiftl 1 b))) [5; 7; 11; 12; 27; 29; 28] (R 16) in
  let status := Z.lor (Z.lor 1 2) 8 in
  let w2 := [(32, features); (112, status)] in
  let status := R 112 in
  if Z.land status 8 =? 0 then panic "virtio disk FEATURES_OK unset" else
  if negb (R 68 =? 0) then panic "virtio disk should not be ready" else
  let max := R 52 in
  if max =? 0 then panic "virtio disk has no queue 0" else
  if max <? NUM then panic "virtio disk max queue too short" else
  desc <- kalloc ;;
  avail <- kalloc ;;
  used <- kalloc ;;
  if (desc =? 0) || (avail =? 0) || (used =? 0) then panic "virtio disk kalloc" else
  upd_mem (fun m => memset (memset (memset m desc 0 PGSIZE) avail 0 PGSIZE) used 0 PGSIZE) ;;;
  upd_vdisk (fun v => with_v_desc (replicate (Z.to_nat NUM) inhabitant) (with_v_avail_idx 0 (with_v_avail_ring (replicate (Z.to_nat NUM) 0)
    (with_v_used_ring_idx 0 (with_v_used_ring (replicate (Z.to_nat NUM) 0) (with_v_free (replicate (Z.to_nat NUM) true) v)))))) ;;;
  ret (w1 ++ w2 ++ [(48, 0); (56, NUM); (128, u32 desc); (132, Z.shiftr desc 32); (144, u32 avail); (148, Z.shiftr avail 32);
       (160, u32 used); (164, Z.shiftr used 32); (68, 1); (112, Z.lor status 4)]).
End init.
