(* ===== verification/VirtioSpec.v ===== *)
(** * virtio_disk.c, first part of the proofs: the queue.

    The invariant of the driver and the device.  A request is in one of four
    places: its head is in the avail ring ([P]), the device has taken it ([T]),
    it is in the used ring ([U]), or virtio_disk_intr() has seen it and the
    process that waits for it has still to free its descriptors. *)

From S2P Require Import Prelude Exec Params State Mem Kalloc Sched Sleeplock Bio Virtio.

(** ** A window of a ring

    The entries from counter [a] up to counter [b]; the counters have 16 bits
    and a ring has NUM entries. *)

Record window (ring : list Z) (a b : Z) (l : list Z) : Prop := {
  wn_from : 0 <= a < 2 ^ 16;
  wn_to : b = u16 (a + Z.of_nat (length l));
  wn_fit : Z.of_nat (length l) <= NUM;
  wn_get : forall k x, l !! k = Some x -> zget ring ((a + Z.of_nat k) mod NUM) = x;
}.

Lemma num_eq : NUM = 8. Proof. reflexivity. Qed.

Lemma u16_num x : u16 x mod NUM = x mod NUM.
Proof. rewrite num_eq. unfold u16. dlia. Qed.

Lemma window_push ring a b l x : window ring a b l -> length ring = Z.to_nat NUM -> Z.of_nat (length l) < NUM ->
  window (zset ring (b mod NUM) x) a (u16 (b + 1)) (l ++ [x]).
Proof.
  intros [A B F G] Hr Hl. rewrite num_eq in *. split; [exact A| | |].
  - rewrite length_app, B. cbn [length]. unfold u16. dlia.
  - rewrite length_app. cbn [length]. rewrite num_eq. lia.
  - intros k y Hk. assert (b mod 8 = (a + Z.of_nat (length l)) mod 8) as Eb by (rewrite B; apply u16_num). rewrite num_eq, Eb.
    apply lookup_app_Some in Hk as [Hk|[Hk Hy]].
    + apply lookup_lt_Some in Hk as Hlt. rewrite zget_zset_ne by dlia. rewrite <- num_eq. by apply G.
    + destruct (k - length l)%nat eqn:E; [|discriminate]. injection Hy as <-. replace k with (length l) by lia.
      apply zget_zset_eq. rewrite Hr. dlia.
Qed.

Lemma window_pop ring a b x l : window ring a b (x :: l) -> zget ring (a mod NUM) = x /\ window ring (u16 (a + 1)) b l.
Proof.
  intros [A B F G]. cbn [length] in *. rewrite num_eq in *. split; [specialize (G 0%nat x eq_refl); by rewrite Z.add_0_r in G|].
  split; [unfold u16; dlia|rewrite B; unfold u16; dlia|rewrite num_eq; lia|].
  intros k y Hk. specialize (G (S k) y Hk). rewrite <- G. rewrite num_eq. f_equal. unfold u16. dlia.
Qed.

Lemma window_end ring a b l : window ring a b l -> a = b <-> l = [].
Proof.
  intros [A B F G]. rewrite num_eq in F. split; [|intros ->; cbn [length] in B; unfold u16 in B; dlia].
  intros E. destruct l; [reflexivity|]. cbn [length] in *. unfold u16 in B. dlia.
Qed.

(** ** Requests *)

(** A request: its three descriptors, the buffer, the direction, the block and,
    for a write, the data. *)
Record req := mkReq { rq_head : Z; rq_i1 : Z; rq_i2 : Z; rq_b : nat; rq_write : bool; rq_n : Z; rq_data : list Z }.
Definition chain (r : req) : list Z := [rq_head r; rq_i1 r; rq_i2 r].

(** The descriptors, the command and the book-keeping of a request. *)
Record req_fmt (v : vdisk_t) (r : req) : Prop := {
  rf_nodup : NoDup (chain r);
  rf_range : Forall (fun x => 0 <= x < NUM) (chain r);
  rf_d0 : zget (v_desc v) (rq_head r) = mkVdesc (Dop (Z.to_nat (rq_head r))) 16 VRING_DESC_F_NEXT (rq_i1 r);
  rf_d1 : zget (v_desc v) (rq_i1 r) =
    mkVdesc (Ddata (rq_b r)) BSIZE (Z.lor (if rq_write r then 0 else VRING_DESC_F_WRITE) VRING_DESC_F_NEXT) (rq_i2 r);
  rf_d2 : zget (v_desc v) (rq_i2 r) = mkVdesc (Dstatus (Z.to_nat (rq_head r))) 1 VRING_DESC_F_WRITE 0;
  rf_op : zget (v_ops v) (rq_head r) = mkVop (if rq_write r then VIRTIO_BLK_T_OUT else VIRTIO_BLK_T_IN) 0 (rq_n r * 2);
  rf_b : in_b (zget (v_info v) (rq_head r)) = Some (rq_b r);
}.

(** The buffer and the disk agree. *)
Definition moved (s : kernel) (r : req) : Prop := b_data (k_bufs s !!! rq_b r) = disk_block s (rq_n r).

(** Where the request is, from the lists of the heads. *)
Record req_ok (P T U : list Z) (s : kernel) (r : req) : Prop := {
  ro_fmt : req_fmt (k_vdisk s) r;
  ro_buf : (rq_b r < length (k_bufs s))%nat;
  ro_n : b_blockno (k_bufs s !!! rq_b r) = rq_n r /\ 0 <= rq_n r < 2 ^ 31;
  ro_data : rq_write r = true -> b_data (k_bufs s !!! rq_b r) = rq_data r;
  ro_wait : rq_head r ∈ P ++ T -> b_disk (k_bufs s !!! rq_b r) = true;
  ro_done : rq_head r ∈ U -> b_disk (k_bufs s !!! rq_b r) = true /\ in_status (zget (v_info (k_vdisk s)) (rq_head r)) = 0 /\ moved s r;
  ro_seen : rq_head r ∉ P ++ T ++ U -> b_disk (k_bufs s !!! rq_b r) = false /\ moved s r;
}.

Record vlens (v : vdisk_t) : Prop := {
  vl_desc : length (v_desc v) = Z.to_nat NUM;
  vl_free : length (v_free v) = Z.to_nat NUM;
  vl_info : length (v_info v) = Z.to_nat NUM;
  vl_ops : length (v_ops v) = Z.to_nat NUM;
  vl_avail : length (v_avail_ring v) = Z.to_nat NUM;
  vl_used : length (v_used_ring v) = Z.to_nat NUM;
}.

(** The requests [C] of the processes, with the descriptors [X] allocated and not
    yet part of a request. *)
Record vinv (X : list Z) (C : gmap nat req) (P T U : list Z) (s : kernel) : Prop := {
  vi_lens : vlens (k_vdisk s);
  vi_avail : window (v_avail_ring (k_vdisk s)) (v_pos (k_vdisk s)) (v_avail_idx (k_vdisk s)) P;
  vi_used : window (v_used_ring (k_vdisk s)) (v_used_idx (k_vdisk s)) (v_used_ring_idx (k_vdisk s)) U;
  vi_heads : NoDup (P ++ T ++ U);
  vi_known : forall h, h ∈ P ++ T ++ U -> exists j r, C !! j = Some r /\ rq_head r = h;
  vi_req : forall j r, C !! j = Some r -> req_ok P T U s r;
  vi_apart : forall j k r r', j <> k -> C !! j = Some r -> C !! k = Some r' -> chain r ## chain r' /\ rq_b r <> rq_b r' /\ rq_n r <> rq_n r';
  vi_held : NoDup X /\ Forall (fun x => 0 <= x < NUM) X /\ forall j r, C !! j = Some r -> X ## chain r;
  vi_free : forall x, 0 <= x < NUM -> zget (v_free (k_vdisk s)) x = true <-> x ∉ X /\ forall j r, C !! j = Some r -> x ∉ chain r;
  vi_procs : length (k_procs s) = Z.to_nat NPROC;
  vi_awake : forall j r p, C !! j = Some r -> k_procs s !! j = Some p -> p_state p = SLEEPING -> p_chan p = Some (Cbuf (rq_b r)) ->
    b_disk (k_bufs s !!! rq_b r) = true;
}.

(** The heads are distinct descriptors, so that there is room in the rings. *)
Lemma heads_range X C P T U s h : vinv X C P T U s -> h ∈ P ++ T ++ U -> 0 <= h < NUM.
Proof.
  intros I Hh. destruct (vi_known _ _ _ _ _ _ I h Hh) as (j & r & Hj & <-).
  pose proof (rf_range _ _ (ro_fmt _ _ _ _ _ (vi_req _ _ _ _ _ _ I j r Hj))) as Hr. unfold chain in Hr. rewrite Forall_cons in Hr. apply Hr.
Qed.

Lemma distinct_bound (l : list Z) : NoDup l -> (forall x, x ∈ l -> 0 <= x < NUM) -> Z.of_nat (length l) <= NUM.
Proof.
  intros Hnd Hr. assert (l ⊆ seqZ 0 NUM) as Hs by (intros x Hx; apply elem_of_seqZ; specialize (Hr x Hx); lia).
  pose proof (submseteq_length _ _ (NoDup_submseteq _ _ Hnd Hs)) as Hl. rewrite length_seqZ, num_eq in Hl. rewrite num_eq. lia.
Qed.

Lemma heads_le X C P T U s : vinv X C P T U s -> Z.of_nat (length (P ++ T ++ U)) <= NUM.
Proof. intros I. apply distinct_bound; [apply I|]. intros x. by apply (heads_range X C P T U s). Qed.

Lemma heads_bound X C P T U s h : vinv X C P T U s -> 0 <= h < NUM -> (forall j r, C !! j = Some r -> h ∉ chain r) ->
  Z.of_nat (length (P ++ T ++ U)) < NUM.
Proof.
  intros I Hh Hn. enough (Z.of_nat (length (h :: P ++ T ++ U)) <= NUM) by (cbn [length] in *; lia). apply distinct_bound.
  - apply NoDup_cons. split; [|apply I]. intros Hin. destruct (vi_known _ _ _ _ _ _ I h Hin) as (j & r & Hj & <-). apply (Hn j r Hj). left.
  - intros x Hx. apply elem_of_cons in Hx as [->|Hx]; [exact Hh|by apply (heads_range X C P T U s)].
Qed.

(** ** What leaves the queue alone *)

(** Processes that sleep in [s'] slept on the same channel in [s]. *)
Definition calmer (s s' : kernel) : Prop := length (k_procs s') = length (k_procs s) /\
  forall j p' c, k_procs s' !! j = Some p' -> p_state p' = SLEEPING -> p_chan p' = Some c ->
    exists p, k_procs s !! j = Some p /\ p_state p = SLEEPING /\ p_chan p = Some c.

Lemma calmer_eq s s' : k_procs s' = k_procs s -> calmer s s'.
Proof. intros E. split; [by rewrite E|]. rewrite E. eauto. Qed.

Lemma vinv_frame X C P T U s s' : vinv X C P T U s -> k_vdisk s' = k_vdisk s -> k_bufs s' = k_bufs s -> k_disk s' = k_disk s -> calmer s s' ->
  vinv X C P T U s'.
Proof.
  intros [A B F G H I J K L M N] Ev Eb Ed [Hl Hs]. split; rewrite ?Ev; [exact A|exact B|exact F|exact G|exact H| |exact J|exact K|exact L|congruence|].
  - intros j r Hj. destruct (I j r Hj) as [R1 R2 R3 R4 R5 R6 R7]. unfold moved, disk_block in *. split; rewrite ?Ev, ?Eb; [assumption..| |];
      unfold moved, disk_block; rewrite Eb, Ed; assumption.
  - intros j r p' Hj Hp Hst Hch. destruct (Hs j p' _ Hp Hst Hch) as (p & Hp0 & Hst0 & Hch0). rewrite Eb. eauto.
Qed.

(** wakeup() only makes processes runnable. *)
Lemma wp_wakeup c s (Q : unit -> kernel -> Prop) : no_proc_lock s ->
  (forall s', calmer s s' -> s' = with_k_procs (k_procs s') s ->
     (forall j p', k_procs s' !! j = Some p' -> (j < Z.to_nat NPROC)%nat -> k_cur s <> Some j -> p_state p' = SLEEPING -> p_chan p' <> Some c) -> Q tt s') ->
  wp (wakeup c) Q s.
Proof.
  intros Hl HQ. eapply wp_mono; [by apply wakeup_spec|]. intros [] s' [E Hp]. apply HQ; [|exact E|].
  - split.
    + assert (forall j, is_Some (k_procs s' !! j) <-> is_Some (k_procs s !! j)) as Hi by (intros j; rewrite Hp; apply fmap_is_Some).
      apply Nat.le_antisymm; apply Nat.nlt_ge; intros Hlt; apply lookup_lt_is_Some in Hlt; apply Hi, lookup_lt_is_Some in Hlt; lia.
    + intros j p' ch Hj Hst Hch. rewrite Hp in Hj. destruct (k_procs s !! j) as [p|]; [|discriminate]. cbn in Hj. injection Hj as <-. exists p. split; [reflexivity|].
      case_bool_decide; [|done]. unfold woken in *. case_bool_decide; [discriminate|done].
  - intros j p' Hj Hlt Hc Hst Hch. rewrite Hp in Hj. destruct (k_procs s !! j) as [p|]; [|discriminate]. cbn in Hj. injection Hj as <-.
    rewrite bool_decide_true in Hst, Hch by (apply elem_of_seq; lia). unfold woken in *. case_bool_decide as D; [discriminate|]. tauto.
Qed.

(** The part of the state that the driver uses for itself, and the processes it wakes. *)
Record own_frame (s s' : kernel) : Prop := {
  of_rest : s' = with_k_vdisk (k_vdisk s') (with_k_procs (k_procs s') s);
  of_calm : calmer s s';
  of_info : v_info (k_vdisk s') = v_info (k_vdisk s);
}.

Lemma own_frame_trans s1 s2 s3 : own_frame s1 s2 -> own_frame s2 s3 -> own_frame s1 s3.
Proof.
  intros [A1 [B1 B1'] C1] [A2 [B2 B2'] C2]. split; [rewrite A2, A1; reflexivity| |congruence]. split; [congruence|].
  intros j p' c Hp Hs Hc. destruct (B2' j p' c Hp Hs Hc) as (p & Hp' & Hs' & Hc'). eauto.
Qed.

Lemma own_frame_refl s : own_frame s s.
Proof. split; [reflexivity|by apply calmer_eq|reflexivity]. Qed.

Lemma own_frame_locks s s' : own_frame s s' -> k_held s' = k_held s /\ k_cur s' = k_cur s /\ k_bufs s' = k_bufs s /\ k_disk s' = k_disk s.
Proof. intros [E _ _]. rewrite E. done. Qed.

(** ** Descriptors *)

Definition with_free (x : Z) (b : bool) (s : kernel) : kernel :=
  with_k_vdisk (with_v_free (zset (v_free (k_vdisk s)) x b) (k_vdisk s)) s.

Lemma find_free l s : wp (findM l (fun i => v <- vdisk ;; if zget (v_free v) i then set_free i false ;;; ret (Some i) else ret None))
  (fun r s' => match r with
               | Some x => x ∈ l /\ zget (v_free (k_vdisk s)) x = true /\ s' = with_free x false s
               | None => s' = s
               end) s.
Proof.
  induction l as [|x l IH]; cbn [findM]; [by wp_steps|]. unfold vdisk. do 3 wp_step. destruct (zget (v_free (k_vdisk s)) x) eqn:E.
  - unfold set_free, upd_vdisk. do 4 wp_step. wp_steps. split; [left|]. by split.
  - wp_steps. eapply wp_mono; [exact IH|]. intros [y|] s'; [|done]. intros (H1 & H2). split; [by right|exact H2].
Qed.

Section queue.
Variables (C : gmap nat req) (P T U : list Z).
Implicit Types (X : list Z) (s : kernel).
Notation vinv X := (vinv X C P T U).

Lemma vinv_alloc X s x : vinv X s -> 0 <= x < NUM -> zget (v_free (k_vdisk s)) x = true -> vinv (X ++ [x]) (with_free x false s).
Proof.
  intros I Hx Hf. pose proof I as [[L1 L2 L3 L4 L5 L6] B F G H IR J (K1 & K2 & K3) L M N]. apply L in Hf as [Hf1 Hf2]; [|exact Hx].
  split; [split; cbn; [exact L1|by rewrite zset_length|assumption..]|exact B|exact F|exact G|exact H| |exact J| | |exact M|exact N].
  - intros j r Hj. destruct (IR j r Hj) as [[R1 R1' R1''] R2 R3 R4 R5 R6 R7]. split; [by split|assumption..].
  - split; [apply NoDup_app; split; [exact K1|]; split; [set_solver|apply NoDup_singleton]|]. split; [apply Forall_app; split; [exact K2|by constructor]|].
    intros j r Hj. specialize (K3 j r Hj). specialize (Hf2 j r Hj). set_solver.
  - intros y Hy. cbn. destruct (decide (y = x)) as [->|Hne].
    + rewrite zget_zset_eq by (rewrite L2; rewrite num_eq in *; lia). split; [discriminate|]. set_solver.
    + rewrite zget_zset_ne by lia. rewrite L by exact Hy. set_solver.
Qed.

Lemma alloc_desc_spec X s (Q : Z -> kernel -> Prop) : vinv X s ->
  Q (-1) s -> (forall x s', 0 <= x < NUM -> vinv (X ++ [x]) s' -> own_frame s s' -> Q x s') -> wp alloc_desc Q s.
Proof.
  intros I H1 H2. unfold alloc_desc. wp_step. eapply wp_mono; [apply find_free|]. intros [x|] s'.
  - intros (Hx & Hf & ->). apply elem_of_seqZ in Hx. wp_steps. change (default (-1) (Some x)) with x. apply H2; [lia|apply vinv_alloc; [exact I|lia|exact Hf]|].
    split; [reflexivity|by apply calmer_eq|reflexivity].
  - intros ->. wp_steps. exact H1.
Qed.

(** The state of the driver after free_desc(x). *)
Definition freed (x : Z) (s : kernel) : kernel :=
  with_free x true (with_k_vdisk (with_v_desc (zset (v_desc (k_vdisk s)) x (mkVdesc Dnull 0 0 0)) (k_vdisk s)) s).

Lemma vinv_freed X s x : vinv (x :: X) s -> vinv X (freed x s).
Proof.
  intros I. pose proof I as [[L1 L2 L3 L4 L5 L6] B F G H IR J (K1 & K2 & K3) L M N]. apply NoDup_cons in K1 as [K0 K1]. apply Forall_cons in K2 as [Hx K2].
  assert (forall j r, C !! j = Some r -> x ∉ chain r) as Hc.
  { intros j r Hj Hin. specialize (K3 j r Hj). rewrite elem_of_disjoint in K3. by apply (K3 x); [left|]. }
  split; [split; cbn; rewrite ?zset_length; assumption|exact B|exact F|exact G|exact H| |exact J| | |exact M|exact N].
  - intros j r Hj. destruct (IR j r Hj) as [[R1 R2 D0 D1 D2 R6 R7] Q2 Q3 Q4 Q5 Q6 Q7]. split; [|assumption..].
    specialize (Hc j r Hj). pose proof R2 as R3. unfold chain in R3, Hc. rewrite !Forall_cons in R3. rewrite !not_elem_of_cons in Hc.
    split; cbn; [exact R1|exact R2| | | |exact R6|exact R7]; rewrite zget_zset_ne by (tauto || lia); assumption.
  - split; [exact K1|]. split; [exact K2|]. intros j r Hj. specialize (K3 j r Hj). rewrite elem_of_disjoint in *. intros y Hy. apply K3. by right.
  - intros y Hy. cbn. destruct (decide (y = x)) as [->|Hne].
    + rewrite zget_zset_eq by (rewrite L2; rewrite num_eq in *; lia). split; [|done]. intros _. by split.
    + rewrite zget_zset_ne by lia. rewrite L, not_elem_of_cons by exact Hy. tauto.
Qed.

Lemma free_desc_spec X x s (Q : unit -> kernel -> Prop) : vinv (x :: X) s -> no_proc_lock s ->
  (forall s', vinv X s' -> own_frame s s' ->
     (forall y, 0 <= y -> y <> x -> zget (v_desc (k_vdisk s')) y = zget (v_desc (k_vdisk s)) y) -> Q tt s') ->
  wp (free_desc x) Q s.
Proof.
  intros I Hl HQ. pose proof (vi_held _ _ _ _ _ _ I) as (_ & Hr & _). apply Forall_cons in Hr as [Hx _].
  assert (zget (v_free (k_vdisk s)) x = false) as Hf.
  { destruct (zget _ x) eqn:E; [|reflexivity]. apply (vi_free _ _ _ _ _ _ I x Hx) in E as [E _]. destruct E. left. }
  unfold free_desc, vdisk, set_desc, set_free, upd_vdisk. rewrite (proj2 (Z.leb_gt NUM x)) by lia. do 2 wp_step. rewrite Hf. do 4 wp_step.
  change (wp (wakeup Cdiskfree) Q (freed x s)). apply wp_wakeup; [exact Hl|]. intros s' Hc E _.
  assert (k_vdisk s' = k_vdisk (freed x s)) as Ev by (rewrite E; reflexivity).
  apply HQ.
  - apply (vinv_frame _ _ _ _ _ (freed x s)); [by apply vinv_freed|exact Ev|rewrite E; reflexivity..|exact Hc].
  - split; [rewrite E; reflexivity|exact Hc|rewrite Ev; reflexivity].
  - intros y Hy Hne. rewrite Ev. cbn. apply zget_zset_ne; [lia|exact Hy|auto].
Qed.

Lemma free_all X s : vinv X s -> no_proc_lock s -> wp (forM X free_desc) (fun _ s' => vinv [] s' /\ own_frame s s') s.
Proof.
  revert s. induction X as [|x X IH]; intros s I Hl; cbn [forM]; [wp_steps; split; [exact I|apply own_frame_refl]|].
  wp_step. apply (free_desc_spec X); [exact I|exact Hl|]. intros s1 I1 F1 _. destruct (own_frame_locks _ _ F1) as (Eh & _).
  eapply wp_mono; [apply IH; [exact I1|unfold no_proc_lock; by rewrite Eh]|]. intros _ s2 [I2 F2]. split; [exact I2|exact (own_frame_trans _ _ _ F1 F2)].
Qed.

Lemma alloc3_desc_spec s (Q : option (list Z) -> kernel -> Prop) : vinv [] s -> no_proc_lock s ->
  (forall s', vinv [] s' -> own_frame s s' -> Q None s') ->
  (forall i0 i1 i2 s', vinv [i0; i1; i2] s' -> own_frame s s' -> Q (Some [i0; i1; i2]) s') -> wp alloc3_desc Q s.
Proof.
  intros I Hl HN HS. unfold alloc3_desc.
  apply wp_loop with (n := 3%nat) (I := fun n idx s1 => (n + length idx = 3)%nat /\ vinv idx s1 /\ own_frame s s1);
    [|split; [reflexivity|]; split; [exact I|apply own_frame_refl]|lia].
  intros n idx s1 (Hn & I1 & F1). destruct (own_frame_locks _ _ F1) as (Eh & _). destruct (Nat.ltb_spec (length idx) 3) as [Hlt|Hge].
  - wp_step. apply (alloc_desc_spec idx); [exact I1| |].
    + change (-1 <? 0) with true. cbv iota. wp_step. eapply wp_mono; [apply (free_all idx s1 I1); unfold no_proc_lock; by rewrite Eh|].
      intros _ s2 [I2 F2]. wp_steps. apply HN; [exact I2|exact (own_frame_trans _ _ _ F1 F2)].
    + intros x s2 Hx I2 F2. rewrite (proj2 (Z.ltb_ge x 0)) by lia. wp_steps. exists (n - 1)%nat. rewrite length_app. cbn [length].
      split; [lia|]. split; [lia|]. split; [exact I2|exact (own_frame_trans _ _ _ F1 F2)].
  - wp_steps. destruct idx as [|i0 [|i1 [|i2 [|]]]]; cbn [length] in *; try lia. by apply HS.
Qed.
End queue.

(** ** submit *)

Section submit.
Variables (C : gmap nat req) (P T U : list Z) (i b : nat) (w : bool) (i0 i1 i2 : Z) (d : list Z) (s s' : kernel).
Let X := [i0; i1; i2].
Let bf := k_bufs s !!! b.
Let r := mkReq i0 i1 i2 b w (b_blockno bf) d.
Let v := k_vdisk s.
Let v' := k_vdisk s'.
Hypothesis I : vinv X C P T U s.
Hypothesis idle : C !! i = None.
Hypothesis buf_ok : (b < length (k_bufs s))%nat.
Hypothesis block_ok : 0 <= b_blockno bf < 2 ^ 31.
Hypothesis data_ok : w = true -> b_data bf = d.
Hypothesis alone : forall j r', C !! j = Some r' -> rq_b r' <> b /\ rq_n r' <> b_blockno bf.
Hypothesis E_bufs : k_bufs s' = alter (with_b_disk true) b (k_bufs s).
Hypothesis E_disk : k_disk s' = k_disk s.
Hypothesis E_procs : k_procs s' = k_procs s.
Hypothesis E_desc : v_desc v' = zset (zset (zset (v_desc v) i0 (mkVdesc (Dop (Z.to_nat i0)) 16 VRING_DESC_F_NEXT i1)) i1
  (mkVdesc (Ddata b) BSIZE (Z.lor (if w then 0 else VRING_DESC_F_WRITE) VRING_DESC_F_NEXT) i2)) i2 (mkVdesc (Dstatus (Z.to_nat i0)) 1 VRING_DESC_F_WRITE 0).
Hypothesis E_ops : v_ops v' = zset (v_ops v) i0 (mkVop (if w then VIRTIO_BLK_T_OUT else VIRTIO_BLK_T_IN) 0 (b_blockno bf * 2)).
Hypothesis E_info : v_info v' = zset (v_info v) i0 (mkVinfo (Some b) 255).
Hypothesis E_avail : v_avail_ring v' = zset (v_avail_ring v) (v_avail_idx v mod NUM) i0.
Hypothesis E_idx : v_avail_idx v' = u16 (v_avail_idx v + 1).
Hypothesis E_rest : v_pos v' = v_pos v /\ v_used_ring v' = v_used_ring v /\ v_used_idx v' = v_used_idx v /\
  v_used_ring_idx v' = v_used_ring_idx v /\ v_free v' = v_free v.

Lemma submit_idx : i0 <> i1 /\ i0 <> i2 /\ i1 <> i2 /\ 0 <= i0 < 8 /\ 0 <= i1 < 8 /\ 0 <= i2 < 8.
Proof.
  destruct (vi_held _ _ _ _ _ _ I) as (H1 & H2 & _). unfold X in *. rewrite !NoDup_cons, !not_elem_of_cons in H1. rewrite !Forall_cons, num_eq in H2. tauto.
Qed.

Lemma submit_other j r' : C !! j = Some r' -> chain r' ## X /\ i0 ∉ chain r' /\ i1 ∉ chain r' /\ i2 ∉ chain r'.
Proof. intros Hj. destruct (vi_held _ _ _ _ _ _ I) as (_ & _ & H3). specialize (H3 j r' Hj). rewrite elem_of_disjoint in H3.
  split; [apply elem_of_disjoint; eauto|]. split_and!; intros Hx; (eapply H3; [|exact Hx]); unfold X; rewrite !elem_of_cons; auto.
Qed.

Lemma submit_bufs k : k_bufs s' !!! k = if decide (k = b) then with_b_disk true bf else k_bufs s !!! k.
Proof.
  rewrite E_bufs. case_decide as D.
  - subst k. destruct (lookup_lt_is_Some_2 _ _ buf_ok) as [x Hx]. unfold bf. rewrite (list_lookup_total_correct _ _ _ Hx).
    apply list_lookup_total_correct. by rewrite list_lookup_alter_eq, Hx.
  - rewrite !list_lookup_total_alt, list_lookup_alter_ne by auto. reflexivity.
Qed.

Lemma submit_new_fmt : req_fmt v' r.
Proof.
  pose proof submit_idx as (N1 & N2 & N3 & R0 & R1 & R2). pose proof (vi_lens _ _ _ _ _ _ I) as [L1 L2 L3 L4 L5 L6]. fold v in L1, L3, L4. rewrite num_eq in *.
  split; cbn [rq_head rq_i1 rq_i2 rq_b rq_write rq_n r chain].
  - exact (proj1 (vi_held _ _ _ _ _ _ I)).
  - exact (proj1 (proj2 (vi_held _ _ _ _ _ _ I))).
  - rewrite E_desc, zget_zset_ne, zget_zset_ne, zget_zset_eq by (rewrite ?zset_length; lia). reflexivity.
  - rewrite E_desc, zget_zset_ne, zget_zset_eq by (rewrite ?zset_length; lia). reflexivity.
  - rewrite E_desc, zget_zset_eq by (rewrite ?zset_length; lia). reflexivity.
  - rewrite E_ops, zget_zset_eq by lia. reflexivity.
  - rewrite E_info, zget_zset_eq by lia. reflexivity.
Qed.

Lemma submit_other_fmt j r' : C !! j = Some r' -> req_fmt v' r'.
Proof.
  intros Hj. destruct (submit_other j r' Hj) as (_ & H0 & H1 & H2). unfold chain in H0, H1, H2. rewrite !not_elem_of_cons in H0, H1, H2.
  pose proof submit_idx as (_ & _ & _ & R0 & R1 & R2).
  destruct (ro_fmt _ _ _ _ _ (vi_req _ _ _ _ _ _ I j r' Hj)) as [A1 A2 A3 A4 A5 A6 A7]. pose proof A2 as A8. unfold chain in A8. rewrite !Forall_cons in A8.
  split; [exact A1|exact A2| | | | |].
  - rewrite E_desc, !zget_zset_ne by (lia || tauto). exact A3.
  - rewrite E_desc, !zget_zset_ne by (lia || tauto). exact A4.
  - rewrite E_desc, !zget_zset_ne by (lia || tauto). exact A5.
  - rewrite E_ops, !zget_zset_ne by (lia || tauto). exact A6.
  - rewrite E_info, !zget_zset_ne by (lia || tauto). exact A7.
Qed.

Lemma submit_other_head j r' : C !! j = Some r' -> rq_head r' <> i0.
Proof. intros Hj E. destruct (submit_other j r' Hj) as (_ & H0 & _). apply H0. rewrite <- E. left. Qed.

Lemma submit_new_ok : req_ok (P ++ [i0]) T U s' r.
Proof.
  assert (k_bufs s' !!! b = with_b_disk true bf) as Eb by (rewrite submit_bufs; by rewrite decide_True).
  split; cbn [rq_head rq_b rq_write rq_n rq_data r]; rewrite ?Eb.
  - exact submit_new_fmt.
  - rewrite E_bufs, length_alter. exact buf_ok.
  - split; [reflexivity|exact block_ok].
  - exact data_ok.
  - reflexivity.
  - intros Hin. exfalso. destruct (vi_known _ _ _ _ _ _ I i0) as (j & r' & Hj & E); [rewrite !elem_of_app; auto|]. by apply (submit_other_head j r' Hj).
  - rewrite !elem_of_app, list_elem_of_singleton. tauto.
Qed.

Lemma submit_other_ok j r' : C !! j = Some r' -> req_ok (P ++ [i0]) T U s' r'.
Proof.
  intros Hj. pose proof (submit_other_head j r' Hj) as Hne. destruct (alone j r' Hj) as [Hb _].
  destruct (vi_req _ _ _ _ _ _ I j r' Hj) as [A1 A2 A3 A4 A5 A6 A7].
  assert (k_bufs s' !!! rq_b r' = k_bufs s !!! rq_b r') as Eb by (rewrite submit_bufs; by rewrite decide_False).
  assert (zget (v_info v') (rq_head r') = zget (v_info v) (rq_head r')) as Ei.
  { rewrite E_info. apply zget_zset_ne; [|pose proof (rf_range _ _ A1) as Hr; unfold chain in Hr; rewrite Forall_cons in Hr; lia|auto]. apply submit_idx. }
  split; unfold moved, disk_block in *; rewrite ?Eb, ?E_disk; [by apply (submit_other_fmt j)| |exact A3|exact A4| | |].
  - rewrite E_bufs, length_alter. exact A2.
  - rewrite !elem_of_app, list_elem_of_singleton. rewrite elem_of_app in A5. tauto.
  - fold v'. rewrite Ei. exact A6.
  - rewrite !elem_of_app, list_elem_of_singleton. rewrite !elem_of_app in A7. tauto.
Qed.

Lemma submit_vinv : vinv [] (<[i := r]> C) (P ++ [i0]) T U s'.
Proof.
  pose proof submit_idx as (N1 & N2 & N3 & R0 & R1 & R2). pose proof I as [[L1 L2 L3 L4 L5 L6] B F G H IR J (K1 & K2 & K3) L M N]. destruct E_rest as (Q1 & Q2 & Q3 & Q4 & Q5).
  assert (i0 ∉ P ++ T ++ U) as Hnew by (intros Hin; destruct (H i0 Hin) as (j & r' & Hj & E); by apply (submit_other_head j r' Hj)).
  assert (forall j r', <[i := r]> C !! j = Some r' -> j = i /\ r' = r \/ j <> i /\ C !! j = Some r') as Hlk.
  { intros j r'. destruct (decide (j = i)) as [->|Hne]; [rewrite lookup_insert_eq; intros [= <-]; auto|rewrite lookup_insert_ne by auto; auto]. }
  split; fold v'.
  - split; rewrite ?E_desc, ?E_ops, ?E_info, ?E_avail, ?Q2, ?Q5, ?zset_length; assumption.
  - rewrite E_avail, Q1, E_idx. apply window_push; [exact B|exact L5|].
    pose proof (heads_bound X C P T U s i0 I ltac:(rewrite num_eq; lia) (fun j r' Hj => proj1 (proj2 (submit_other j r' Hj)))) as Hlen. rewrite length_app in Hlen. lia.
  - rewrite Q2, Q3, Q4. exact F.
  - rewrite <- app_assoc. apply NoDup_Permutation_proper with (i0 :: P ++ T ++ U); [symmetry; apply Permutation_middle|]. apply NoDup_cons. by split.
  - intros h Hh. destruct (decide (h = i0)) as [->|Hne]; [exists i, r; by rewrite lookup_insert_eq|].
    destruct (H h) as (j & r' & Hj & E); [rewrite !elem_of_app, list_elem_of_singleton in *; tauto|].
    exists j, r'. split; [|exact E]. rewrite lookup_insert_ne; [exact Hj|congruence].
  - intros j r' Hj. destruct (Hlk j r' Hj) as [[-> ->]|[_ Hj']]; [exact submit_new_ok|by apply (submit_other_ok j)].
  - intros j k r1 r2 Hjk Hj Hk. destruct (Hlk j r1 Hj) as [[-> ->]|[Hji Hj']], (Hlk k r2 Hk) as [[-> ->]|[Hki Hk']]; [done| | |by apply (J j k)].
    + destruct (submit_other k r2 Hk') as [D _], (alone k r2 Hk') as [D1 D2]. rewrite elem_of_disjoint in *. split; [|split; auto]. intros x Hx1 Hx2. by apply (D x).
    + destruct (submit_other j r1 Hj') as [D _], (alone j r1 Hj') as [D1 D2]. by split.
  - split; [constructor|]. split; [constructor|]. intros j r' _. rewrite elem_of_disjoint. intros x Hx. by apply elem_of_nil in Hx.
  - intros x Hx. rewrite Q5. unfold v. rewrite (L x Hx). split.
    + intros [Hx1 Hx2]. split; [apply not_elem_of_nil|]. intros j r' Hj. destruct (Hlk j r' Hj) as [[-> ->]|[_ Hj']]; [exact Hx1|by apply (Hx2 j)].
    + intros [_ Hx2]. split; [apply (Hx2 i r); by rewrite lookup_insert_eq|]. intros j r' Hj. apply (Hx2 j r'). rewrite lookup_insert_ne; [exact Hj|congruence].
  - by rewrite E_procs.
  - rewrite E_procs. intros j r' p Hj Hp Hst Hch. rewrite submit_bufs. case_decide; [reflexivity|].
    destruct (Hlk j r' Hj) as [[-> ->]|[_ Hj']]; [done|by apply (N j r' p)].
Qed.
End submit.

Lemma sector_eq n : 0 <= n < 2 ^ 31 -> u32 (n * (BSIZE / 512)) = n * 2.
Proof. intros Hn. change (BSIZE / 512) with 2. apply u32_id. lia. Qed.

Lemma submit_spec C P T U i b w i0 i1 i2 d s (Q : unit -> kernel -> Prop) : let bf := k_bufs s !!! b in
  vinv [i0; i1; i2] C P T U s -> C !! i = None -> (b < length (k_bufs s))%nat -> 0 <= b_blockno bf < 2 ^ 31 ->
  (w = true -> b_data bf = d) -> (forall j r', C !! j = Some r' -> rq_b r' <> b /\ rq_n r' <> b_blockno bf) ->
  (forall s', vinv [] (<[i := mkReq i0 i1 i2 b w (b_blockno bf) d]> C) (P ++ [i0]) T U s' ->
     s' = with_k_vdisk (k_vdisk s') (with_k_bufs (alter (with_b_disk true) b (k_bufs s)) s) -> Q tt s') ->
  wp (submit b w [i0; i1; i2]) Q s.
Proof.
  intros bf I Hi Hb Hn Hd Ha HQ. unfold submit, buf_at, set_desc, upd_info, upd_vdisk, upd_buf. do 2 wp_step. fold bf. rewrite sector_eq by exact Hn.
  cbv zeta. change (zget [i0; i1; i2] 0) with i0. change (zget [i0; i1; i2] 1) with i1. change (zget [i0; i1; i2] 2) with i2. wp_steps.
  match goal with |- Q tt ?x => set (s' := x) end. apply HQ; [|reflexivity].
  pose proof (vi_lens _ _ _ _ _ _ I) as [_ _ L3 _ _ _]. destruct (vi_held _ _ _ _ _ _ I) as (_ & R0 & _). rewrite Forall_cons in R0.
  apply (submit_vinv C P T U i b w i0 i1 i2 d s s' I Hi Hb Hn Hd Ha); try reflexivity.
  - rewrite num_eq in L3, R0. cbn. rewrite zget_zset_eq by (rewrite ?zset_length; lia). unfold zset. by rewrite list_insert_insert_eq.
  - done.
Qed.

(** ** The end of a request *)

Section retire.
Variables (C : gmap nat req) (P T U : list Z) (i : nat) (r : req) (s : kernel).
Let v := k_vdisk s.
Let s1 := with_k_vdisk (with_v_info (zset (v_info v) (rq_head r) (with_in_b None (zget (v_info v) (rq_head r)))) v) s.
Hypothesis I : vinv [] C P T U s.
Hypothesis mine : C !! i = Some r.
Hypothesis seen : rq_head r ∉ P ++ T ++ U.

Lemma retire_vinv : vinv (chain r) (delete i C) P T U s1.
Proof.
  pose proof I as [[L1 L2 L3 L4 L5 L6] B F G H IR J (K1 & K2 & K3) L M N]. pose proof (IR i r mine) as [Rf _ _ _ _ _ _].
  assert (forall j r', delete i C !! j = Some r' -> j <> i /\ C !! j = Some r') as Hlk by (intros j r' Hj; apply lookup_delete_Some in Hj as [Hne Hj]; auto).
  assert (forall j r', j <> i -> C !! j = Some r' -> chain r ## chain r') as Hap by (intros j r' Hne Hj; by apply (J i j)).
  split; [split; cbn; rewrite ?zset_length; assumption|exact B|exact F|exact G| | | | | |exact M|].
  - intros h Hh. destruct (H h Hh) as (j & r' & Hj & E). exists j, r'. split; [|exact E]. apply lookup_delete_Some. split; [|exact Hj].
    intros <-. rewrite mine in Hj. injection Hj as <-. by rewrite E in seen.
  - intros j r' Hj. destruct (Hlk j r' Hj) as [Hne Hj']. destruct (IR j r' Hj') as [[A1 A2 A3 A4 A5 A6 A7] B2 B3 B4 B5 B6 B7].
    assert (rq_head r <> rq_head r' /\ 0 <= rq_head r /\ 0 <= rq_head r') as (Hd & H1 & H2).
    { specialize (Hap j r' Hne Hj'). rewrite elem_of_disjoint in Hap. pose proof (rf_range _ _ Rf) as Hr. pose proof A2 as Hr'. unfold chain in Hr, Hr'.
      rewrite Forall_cons in Hr, Hr'. split; [|lia]. intros E. apply (Hap (rq_head r)); [left|rewrite E; left]. }
    split; [split; cbn; [assumption..|]|assumption..| |assumption]; cbn; rewrite zget_zset_ne by assumption; assumption.
  - intros j k r1 r2 Hjk Hj Hk. apply Hlk in Hj as [_ Hj], Hk as [_ Hk]. by apply (J j k).
  - split; [apply Rf|]. split; [apply Rf|]. intros j r' Hj. apply Hlk in Hj as [Hne Hj]. by apply (Hap j).
  - intros x Hx. change (v_free (k_vdisk s1)) with (v_free (k_vdisk s)). rewrite (L x Hx). split.
    + intros [_ Hx2]. split; [by apply (Hx2 i)|]. intros j r' Hj. apply Hlk in Hj as [_ Hj]. by apply (Hx2 j).
    + intros [Hx1 Hx2]. split; [apply not_elem_of_nil|]. intros j r' Hj. destruct (decide (j = i)) as [->|Hne]; [congruence|].
      apply (Hx2 j). apply lookup_delete_Some. by split.
  - intros j r' p Hj. apply Hlk in Hj as [_ Hj]. by apply (N j).
Qed.

Lemma free_chain_spec (Q : unit -> kernel -> Prop) : no_proc_lock s ->
  (forall s', vinv [] (delete i C) P T U s' -> own_frame s1 s' -> Q tt s') -> wp (free_chain (rq_head r)) Q s1.
Proof.
  intros Hl HQ. pose proof retire_vinv as I1. destruct (ro_fmt _ _ _ _ _ (vi_req _ _ _ _ _ _ I i r mine)) as [R1 R2 D0 D1 D2 _ _].
  unfold chain in R1, R2, I1. rewrite !NoDup_cons, !not_elem_of_cons in R1. rewrite !Forall_cons in R2.
  unfold free_chain, vdisk. change (Z.to_nat NUM) with 8%nat. cbn [loop]. do 3 wp_step. wp_step. change (v_desc (k_vdisk s1)) with (v_desc (k_vdisk s)). rewrite D0.
  apply (free_desc_spec _ _ _ _ [rq_i1 r; rq_i2 r] (rq_head r) s1 _ I1 Hl). intros s2 I2 F2 E2. cbn [d_flags d_next].
  change (negb (Z.land VRING_DESC_F_NEXT VRING_DESC_F_NEXT =? 0)) with true. cbv iota. do 5 wp_step.
  assert (no_proc_lock s2) as Hl2 by (unfold no_proc_lock; rewrite (proj1 (own_frame_locks _ _ F2)); exact Hl).
  rewrite E2 by (tauto || lia). change (v_desc (k_vdisk s1)) with (v_desc (k_vdisk s)). rewrite D1.
  apply (free_desc_spec _ _ _ _ [rq_i2 r] (rq_i1 r) s2 _ I2 Hl2). intros s3 I3 F3 E3. cbn [d_flags d_next].
  assert (negb (Z.land (Z.lor (if rq_write r then 0 else VRING_DESC_F_WRITE) VRING_DESC_F_NEXT) VRING_DESC_F_NEXT =? 0) = true) as -> by (by destruct (rq_write r)).
  assert (no_proc_lock s3) as Hl3 by (unfold no_proc_lock; rewrite (proj1 (own_frame_locks _ _ F3)); exact Hl2).
  do 5 wp_step. rewrite E3, E2 by (tauto || lia). change (v_desc (k_vdisk s1)) with (v_desc (k_vdisk s)). rewrite D2.
  apply (free_desc_spec _ _ _ _ [] (rq_i2 r) s3 _ I3 Hl3). intros s4 I4 F4 _. cbn [d_flags d_next].
  change (negb (Z.land VRING_DESC_F_WRITE VRING_DESC_F_NEXT =? 0)) with false. wp_steps.
  apply HQ; [exact I4|]. exact (own_frame_trans _ _ _ F2 (own_frame_trans _ _ _ F3 F4)).
Qed.
End retire.

(** ** virtio_disk_intr() *)

Lemma bufs_alter (f : buf -> buf) (b k : nat) (l : list buf) : (b < length l)%nat ->
  alter f b l !!! k = if decide (k = b) then f (l !!! b) else l !!! k.
Proof.
  intros Hb. case_decide as D.
  - subst k. destruct (lookup_lt_is_Some_2 _ _ Hb) as [x Hx]. rewrite (list_lookup_total_correct _ _ _ Hx).
    apply list_lookup_total_correct. by rewrite list_lookup_alter_eq, Hx.
  - rewrite !list_lookup_total_alt, list_lookup_alter_ne by auto. reflexivity.
Qed.

(** The first entry of the used ring is taken off. *)
Lemma intr_vinv C P T U h i r s s' : vinv [] C P T (h :: U) s -> C !! i = Some r -> rq_head r = h ->
  k_bufs s' = alter (with_b_disk false) (rq_b r) (k_bufs s) -> k_disk s' = k_disk s ->
  k_vdisk s' = with_v_used_idx (u16 (v_used_idx (k_vdisk s) + 1)) (k_vdisk s) -> calmer s s' ->
  (forall j p, k_procs s' !! j = Some p -> p_state p = SLEEPING -> p_chan p <> Some (Cbuf (rq_b r))) ->
  vinv [] C P T U s'.
Proof.
  intros I Hi Hh Eb Ed Ev [Hlen Hcalm] Hwake. pose proof I as [[L1 L2 L3 L4 L5 L6] B F G H IR J K L M N].
  destruct (window_pop _ _ _ _ _ F) as [_ F']. pose proof (IR i r Hi) as [_ Hbl _ _ _ Hdone _].
  assert (h ∉ P ++ T ++ U /\ NoDup (P ++ T ++ U)) as [Hnew Hnd].
  { rewrite app_assoc in G. apply NoDup_app in G as (G1 & G2 & G3). apply NoDup_cons in G3 as [G3 G4]. rewrite app_assoc. split.
    - intros Hin. apply elem_of_app in Hin as [Hin|Hin]; [|done]. apply (G2 h Hin). left.
    - apply NoDup_app. split; [exact G1|]. split; [|exact G4]. intros x Hx Hu. apply (G2 x Hx). by right. }
  assert (forall k, k_bufs s' !!! k = if decide (k = rq_b r) then with_b_disk false (k_bufs s !!! rq_b r) else k_bufs s !!! k) as Ebk.
  { intros k. rewrite Eb. by apply bufs_alter. }
  assert (forall j r', C !! j = Some r' -> j <> i -> rq_b r' <> rq_b r /\ rq_head r' <> h) as Hother.
  { intros j r' Hj Hne. destruct (J j i r' r Hne Hj Hi) as (D1 & D2 & _). split; [exact D2|]. intros E. rewrite elem_of_disjoint in D1.
    apply (D1 h); [rewrite <- E; left|rewrite <- Hh; left]. }
  split; rewrite ?Ev; cbn [v_avail_ring v_pos v_avail_idx v_used_ring v_used_idx v_used_ring_idx v_free with_v_used_idx];
    [by split|exact B|exact F'|exact Hnd| | |exact J|exact K|exact L|congruence|].
  - intros x Hx. apply H. rewrite !elem_of_app, elem_of_cons in *. tauto.
  - intros j r' Hj. destruct (IR j r' Hj) as [[A1 A2 A3 A4 A5 A6 A7] B2 B3 B4 B5 B6 B7]. destruct (decide (j = i)) as [->|Hne].
    + rewrite Hi in Hj. injection Hj as <-. destruct (Hdone ltac:(rewrite Hh; left)) as (D1 & D2 & D3). unfold moved, disk_block in *.
      split; unfold moved, disk_block; rewrite ?Ev, ?Ed, ?Ebk, ?decide_True by reflexivity; cbn [b_disk b_data b_blockno with_b_disk]; [by split| |exact B3|exact B4| | |].
      * by rewrite Eb, length_alter.
      * rewrite Hh. intros Hin. exfalso. apply Hnew. rewrite !elem_of_app in *. tauto.
      * rewrite Hh. intros Hin. exfalso. apply Hnew. rewrite !elem_of_app in *. tauto.
      * intros _. by split.
    + destruct (Hother j r' Hj Hne) as [O1 O2]. unfold moved, disk_block in *.
      split; unfold moved, disk_block; rewrite ?Ev, ?Ed, ?Ebk, ?decide_False by assumption; cbn [v_info with_v_used_idx]; [by split| |exact B3|exact B4|exact B5| |].
      * by rewrite Eb, length_alter.
      * intros Hin. apply B6. by right.
      * intros Hin. apply B7. rewrite !elem_of_app, elem_of_cons in *. tauto.
  - intros j r' p Hj Hp Hst Hch. destruct (decide (j = i)) as [->|Hne]; [rewrite Hi in Hj; injection Hj as <-; by destruct (Hwake i p Hp Hst)|].
    rewrite Ebk, decide_False by (by apply (Hother j)). destruct (Hcalm j p _ Hp Hst Hch) as (p0 & Hp0 & Hst0 & Hch0). by apply (N j r' p0).
Qed.

(** The process that is interrupted does not sleep. *)
Definition cur_awake (s : kernel) : Prop := forall j p, k_cur s = Some j -> k_procs s !! j = Some p -> p_state p <> SLEEPING.

(** What the handler leaves alone. *)
Record intr_frame (s s' : kernel) : Prop := {
  if_rest : s' = with_k_vdisk (k_vdisk s') (with_k_procs (k_procs s') (with_k_bufs (k_bufs s') s));
  if_bufs : with_b_disk false <$> k_bufs s' = with_b_disk false <$> k_bufs s;
  if_calm : calmer s s';
}.

Lemma intr_loop C P T U s (Q : unit -> kernel -> Prop) : vinv [] C P T U s -> no_proc_lock s -> cur_awake s ->
  (forall s', vinv [] C P T [] s' -> intr_frame s s' -> Q tt s') ->
  wp (loop (S (Z.to_nat (u16 (v_used_ring_idx (k_vdisk s) - v_used_idx (k_vdisk s))))) (fun _ : unit =>
    v <- vdisk ;;
    if v_used_idx v =? v_used_ring_idx v then ret (inr tt) else
    let id := zget (v_used_ring v) (v_used_idx v mod NUM) in
    let info := zget (v_info v) id in
    if negb (in_status info =? 0) then panic "virtio_disk_intr status" else
    match in_b info with
    | None => panic "kerneltrap"
    | Some b =>
        upd_buf b (with_b_disk false) ;;;
        wakeup (Cbuf b) ;;;
        upd_vdisk (fun v => with_v_used_idx (u16 (v_used_idx v + 1)) v) ;;;
        ret (inl tt)
    end) tt) Q s.
Proof.
  intros I Hl Hcur HQ.
  apply wp_loop with (n := length U) (I := fun n _ s1 => exists U1, n = length U1 /\ vinv [] C P T U1 s1 /\ intr_frame s s1).
  2: { exists U. split; [reflexivity|]. split; [exact I|]. split; [reflexivity|reflexivity|by apply calmer_eq]. }
  2: { destruct (vi_used _ _ _ _ _ _ I) as [W1 -> W3 _]. rewrite num_eq in W3. unfold u16. dlia. }
  intros n [] s1 (U1 & -> & I1 & [F1 F2 F3]). unfold vdisk, upd_buf, upd_vdisk. do 2 wp_step. destruct U1 as [|h U1].
  { rewrite (proj2 (Z.eqb_eq _ _) (proj2 (window_end _ _ _ _ (vi_used _ _ _ _ _ _ I1)) eq_refl)). wp_steps. apply HQ; [exact I1|by split]. }
  rewrite (proj2 (Z.eqb_neq _ _)) by (intros E; apply (proj1 (window_end _ _ _ _ (vi_used _ _ _ _ _ _ I1))) in E; discriminate).
  destruct (window_pop _ _ _ _ _ (vi_used _ _ _ _ _ _ I1)) as [-> _]. cbv zeta.
  destruct (vi_known _ _ _ _ _ _ I1 h) as (i & r & Hi & Hh); [rewrite !elem_of_app, elem_of_cons; auto|].
  pose proof (vi_req _ _ _ _ _ _ I1 i r Hi) as Ro. destruct (ro_done _ _ _ _ _ Ro ltac:(rewrite Hh; left)) as (D1 & D2 & D3).
  pose proof (rf_b _ _ (ro_fmt _ _ _ _ _ Ro)) as Db. rewrite Hh in D2, Db. rewrite D2, Db. cbn [Z.eqb negb]. do 3 wp_step.
  assert (k_held s1 = k_held s /\ k_cur s1 = k_cur s) as [Eh Ec] by (rewrite F1; done). set (s2 := with_k_bufs _ s1).
  apply wp_wakeup; [intros j; change (k_held s2) with (k_held s1); rewrite Eh; apply Hl|]. intros s3 Hc3 E3 Hw3. do 3 wp_step.
  exists (length U1). split; [cbn [length]; lia|]. exists U1. split; [reflexivity|]. split.
  - apply (intr_vinv C P T U1 h i r s1); [exact I1|exact Hi|exact Hh|rewrite E3; reflexivity..|exact Hc3|].
    intros j p Hp Hst Hch. apply (Hw3 j p Hp); [|change (k_cur s2) with (k_cur s1); rewrite Ec|exact Hst|exact Hch].
    + apply lookup_lt_Some in Hp. cbn in Hp. rewrite (proj1 Hc3) in Hp. change (k_procs s2) with (k_procs s1) in Hp. by rewrite (vi_procs _ _ _ _ _ _ I1) in Hp.
    + intros Hj. destruct Hc3 as [_ Hc3]. destruct (Hc3 j p _ Hp Hst Hch) as (p1 & Hp1 & Hst1 & Hch1). destruct F3 as [_ F3].
      destruct (F3 j p1 _ Hp1 Hst1 Hch1) as (p0 & Hp0 & Hst0 & _). by apply (Hcur j p0).
  - split; [rewrite E3; unfold s2; rewrite F1; reflexivity| |].
    + cbn. rewrite E3. cbn. rewrite <- F2. apply list_eq. intros k. rewrite !list_lookup_fmap. destruct (decide (k = rq_b r)) as [->|Hne];
        [rewrite list_lookup_alter_eq|by rewrite list_lookup_alter_ne by auto]. by destruct (k_bufs s1 !! rq_b r).
    + destruct F3 as [F3 F4], Hc3 as [H3 H4]. split; [cbn; rewrite H3; exact F3|]. intros j p ch Hp Hst Hch.
      destruct (H4 j p ch Hp Hst Hch) as (p1 & Hp1 & Hst1 & Hch1). by apply (F4 j p1).
Qed.

(** virtio_disk_intr() returns, and the used ring is empty. *)
Lemma virtio_disk_intr_spec C P T U s (Q : unit -> kernel -> Prop) : vinv [] C P T U s -> k_held s = [] -> cur_awake s ->
  (forall s', vinv [] C P T [] s' -> intr_frame s s' -> Q tt s') -> wp virtio_disk_intr Q s.
Proof.
  intros I Hh Hc HQ. unfold virtio_disk_intr. wp_step. apply wp_acquire; [rewrite Hh; apply not_elem_of_nil|]. rewrite Hh. unfold vdisk at 1. do 3 wp_step.
  set (s1 := with_k_held _ s). change (k_vdisk s) with (k_vdisk s1). apply (intr_loop C P T U s1).
  - apply (vinv_frame _ _ _ _ _ s); [exact I|reflexivity..|by apply calmer_eq].
  - intros j. cbn. set_solver.
  - exact Hc.
  - intros s2 I2 [F1 F2 F3]. apply (wp_release _ []); [rewrite F1; reflexivity|apply not_elem_of_nil|]. apply HQ.
    + apply (vinv_frame _ _ _ _ _ s2); [exact I2|reflexivity..|by apply calmer_eq].
    + split; [rewrite F1; cbn; rewrite <- Hh; by destruct s|exact F2|exact F3].
Qed.
