(* ===== verification/VirtioSystem.v ===== *)
(** * virtio_disk.c: the driver, the device and the interrupts together.

    Processes that call virtio_disk_rw(), each until the code gives up the CPU,
    the device, and virtio_disk_intr() take turns in any order.  The device is
    as the virtio standard describes it: it takes heads off the avail ring in
    order, and completes what it has taken in any order. *)

From S2P Require Import Prelude Exec Params State Mem Kalloc Sched Sleeplock Bio Virtio VirtioSpec.

(** ** The device *)

Definition dev_take (s : kernel) : option (Z * kernel) :=
  let v := k_vdisk s in
  if v_pos v =? v_avail_idx v then None
  else Some (zget (v_avail_ring v) (v_pos v mod NUM), with_k_vdisk (with_v_pos (u16 (v_pos v + 1)) v) s).

(** The chain of three descriptors at [h]: the command, the data with the flag
    that the device may write it, and the status byte.  [None] if it is not a
    chain the device can serve. *)
Definition dev_chain (v : vdisk_t) (h : Z) : option (nat * nat * bool * nat) :=
  let d0 := zget (v_desc v) h in
  let d1 := zget (v_desc v) (d_next d0) in
  let d2 := zget (v_desc v) (d_next d1) in
  match d_addr d0, d_addr d1, d_addr d2 with
  | Dop o, Ddata b, Dstatus k =>
      if (d_len d0 =? 16) && has (d_flags d0) VRING_DESC_F_NEXT && negb (has (d_flags d0) VRING_DESC_F_WRITE) &&
         (d_len d1 =? BSIZE) && has (d_flags d1) VRING_DESC_F_NEXT &&
         (d_len d2 =? 1) && has (d_flags d2) VRING_DESC_F_WRITE && negb (has (d_flags d2) VRING_DESC_F_NEXT)
      then Some (o, b, has (d_flags d1) VRING_DESC_F_WRITE, k) else None
  | _, _, _ => None
  end.

(** The transfer that the command asks for. *)
Definition dev_transfer (op : vop) (b : nat) (writable : bool) (s : kernel) : option kernel :=
  let n := o_sector op / 2 in
  if (o_type op =? VIRTIO_BLK_T_OUT) && negb writable then
    let d := b_data (k_bufs s !!! b) in Some (with_k_disk (<[n := d]> (k_disk s)) (with_k_writes ((n, d) :: k_writes s) s))
  else if (o_type op =? VIRTIO_BLK_T_IN) && writable then Some (with_k_bufs (alter (with_b_data (disk_block s n)) b (k_bufs s)) s)
  else None.

Definition dev_complete (h : Z) (s : kernel) : option kernel :=
  let v := k_vdisk s in
  match dev_chain v h with
  | Some (o, b, writable, k) =>
      match dev_transfer (zget (v_ops v) (Z.of_nat o)) b writable s with
      | Some s1 =>
          let info := zset (v_info v) (Z.of_nat k) (with_in_status 0 (zget (v_info v) (Z.of_nat k))) in
          Some (with_k_vdisk (with_v_info info (with_v_used_ring (zset (v_used_ring v) (v_used_ring_idx v mod NUM) h)
                  (with_v_used_ring_idx (u16 (v_used_ring_idx v + 1)) v))) s1)
      | None => None
      end
  | None => None
  end.

Lemma take_vinv C P T U s h s' : vinv [] C P T U s -> dev_take s = Some (h, s') -> exists P', P = h :: P' /\ vinv [] C P' (h :: T) U s'.
Proof.
  intros I. unfold dev_take. destruct (Z.eqb_spec (v_pos (k_vdisk s)) (v_avail_idx (k_vdisk s))) as [E|E]; [discriminate|]. intros [= Eh <-].
  pose proof I as [[L1 L2 L3 L4 L5 L6] B F G H IR J K L M N]. destruct P as [|x P]; [by destruct E; apply (window_end _ _ _ _ B)|].
  destruct (window_pop _ _ _ _ _ B) as [Ex B']. rewrite Ex in Eh. subst x. exists P. split; [reflexivity|].
  assert (forall y, y ∈ P ++ (h :: T) ++ U <-> y ∈ (h :: P) ++ T ++ U) as Hin by (intros y; cbn [app]; rewrite !elem_of_app, !elem_of_cons, !elem_of_app; tauto).
  split; [by split|exact B'|exact F| | | |exact J|exact K|exact L|exact M|exact N].
  - cbn [app] in *. apply NoDup_Permutation_proper with (h :: P ++ T ++ U); [symmetry; apply Permutation_middle|exact G].
  - intros y Hy. by apply H, Hin.
  - intros j r Hj. destruct (IR j r Hj) as [[A1 A2 A3 A4 A5 A6 A7] B2 B3 B4 B5 B6 B7]. split; [by split|exact B2|exact B3|exact B4| |exact B6|].
    + intros Hy. apply B5. cbn [app]. rewrite elem_of_app, !elem_of_cons in *. rewrite elem_of_app. tauto.
    + intros Hy. apply B7. by rewrite <- Hin.
Qed.

(** The device finds the driver's chains. *)
Lemma request_chain v r : req_fmt v r -> dev_chain v (rq_head r) = Some (Z.to_nat (rq_head r), rq_b r, negb (rq_write r), Z.to_nat (rq_head r)).
Proof.
  intros [_ _ D0 D1 D2 _ _]. unfold dev_chain. rewrite D0. cbn [d_addr d_next d_len d_flags]. rewrite D1. cbn [d_addr d_next d_len d_flags]. rewrite D2.
  by destruct (rq_write r).
Qed.

Section complete.
Variables (C : gmap nat req) (P T1 T2 U : list Z) (i : nat) (r : req) (s : kernel).
Let h := rq_head r.
Let bf := k_bufs s !!! rq_b r.
Hypothesis I : vinv [] C P (T1 ++ h :: T2) U s.
Hypothesis Hi : C !! i = Some r.

(** The buffers and the disk after the transfer. *)
Definition bufs_after : list buf := if rq_write r then k_bufs s else alter (with_b_data (disk_block s (rq_n r))) (rq_b r) (k_bufs s).
Definition disk_after : gmap Z (list Z) := if rq_write r then <[rq_n r := b_data bf]> (k_disk s) else k_disk s.

Lemma complete_runs : exists s', dev_complete h s = Some s' /\ k_bufs s' = bufs_after /\ k_disk s' = disk_after /\ k_procs s' = k_procs s /\
  k_vdisk s' = with_v_info (zset (v_info (k_vdisk s)) h (with_in_status 0 (zget (v_info (k_vdisk s)) h)))
    (with_v_used_ring (zset (v_used_ring (k_vdisk s)) (v_used_ring_idx (k_vdisk s) mod NUM) h)
      (with_v_used_ring_idx (u16 (v_used_ring_idx (k_vdisk s) + 1)) (k_vdisk s))).
Proof.
  destruct (vi_req _ _ _ _ _ _ I i r Hi) as [Hf _ _ _ _ _ _]. unfold dev_complete, h. rewrite (request_chain _ _ Hf). destruct Hf as [_ R2 _ _ _ Dop _].
  unfold chain in R2. rewrite !Forall_cons in R2. fold h. fold h in Dop.
  rewrite Z2Nat.id by (fold h in R2; lia). rewrite Dop. unfold dev_transfer, bufs_after, disk_after. cbn [o_sector o_type]. rewrite Z.div_mul by lia.
  destruct (rq_write r); eexists; (split; [reflexivity|done]).
Qed.

Lemma after_bufs k : k <> rq_b r -> bufs_after !!! k = k_bufs s !!! k.
Proof.
  intros Hk. unfold bufs_after. destruct (rq_write r); [reflexivity|]. rewrite bufs_alter by apply (vi_req _ _ _ _ _ _ I i r Hi). by rewrite decide_False.
Qed.

Lemma after_own : b_data (bufs_after !!! rq_b r) = default (replicate (Z.to_nat BSIZE) 0) (disk_after !! rq_n r) /\
  b_disk (bufs_after !!! rq_b r) = b_disk bf /\ b_blockno (bufs_after !!! rq_b r) = b_blockno bf /\
  (rq_write r = true -> b_data (bufs_after !!! rq_b r) = b_data bf).
Proof.
  unfold bufs_after, disk_after. destruct (rq_write r).
  - rewrite lookup_insert_eq. done.
  - rewrite bufs_alter by apply (vi_req _ _ _ _ _ _ I i r Hi). rewrite decide_True by reflexivity. done.
Qed.

Lemma after_disk n : n <> rq_n r -> disk_after !! n = k_disk s !! n.
Proof. intros Hn. unfold disk_after. destruct (rq_write r); [by rewrite lookup_insert_ne|reflexivity]. Qed.

Lemma complete_vinv s' : k_bufs s' = bufs_after -> k_disk s' = disk_after -> k_procs s' = k_procs s ->
  k_vdisk s' = with_v_info (zset (v_info (k_vdisk s)) h (with_in_status 0 (zget (v_info (k_vdisk s)) h)))
    (with_v_used_ring (zset (v_used_ring (k_vdisk s)) (v_used_ring_idx (k_vdisk s) mod NUM) h)
      (with_v_used_ring_idx (u16 (v_used_ring_idx (k_vdisk s) + 1)) (k_vdisk s))) ->
  vinv [] C P (T1 ++ T2) (U ++ [h]) s'.
Proof.
  intros Eb Ed Ep Ev. pose proof I as [[L1 L2 L3 L4 L5 L6] B F G H IR J K L M N]. pose proof (IR i r Hi) as [Rf Rb Rn Rd Rw _ _]. fold bf in Rn, Rd, Rw.
  destruct after_own as (O1 & O2 & O3 & O4).
  assert (P ++ (T1 ++ h :: T2) ++ U ≡ₚ P ++ (T1 ++ T2) ++ U ++ [h]) as Hperm by (rewrite <- !app_assoc; solve_Permutation).
  assert (forall y, y ∈ P ++ (T1 ++ h :: T2) ++ U <-> y ∈ P ++ (T1 ++ T2) ++ U ++ [h]) as Hin by (intros y; by rewrite Hperm).
  assert (NoDup (P ++ (T1 ++ T2) ++ U ++ [h])) as Hnd by (by rewrite <- Hperm).
  assert (h ∉ P ++ T1 ++ T2 ++ U) as Hnew.
  { intros Hy. rewrite Hperm, <- !app_assoc, !(app_assoc _ _ [h]) in G. rewrite <- !app_assoc in G.
    assert (NoDup ((P ++ T1 ++ T2 ++ U) ++ [h])) as G' by (rewrite <- !app_assoc; exact G). apply NoDup_app in G' as (_ & G' & _). apply (G' h Hy). left. }
  rewrite !elem_of_app in Hnew.
  assert (forall j r', C !! j = Some r' -> j <> i -> rq_b r' <> rq_b r /\ rq_n r' <> rq_n r /\ rq_head r' <> h /\ 0 <= rq_head r') as Hother.
  { intros j r' Hj Hne. destruct (J j i r' r Hne Hj Hi) as (D1 & D2 & D3). split; [exact D2|]. split; [exact D3|]. rewrite elem_of_disjoint in D1. split.
    - intros E. apply (D1 h); [rewrite <- E; left|left].
    - pose proof (rf_range _ _ (ro_fmt _ _ _ _ _ (IR j r' Hj))) as Hr. unfold chain in Hr. rewrite Forall_cons in Hr. lia. }
  assert (0 <= h < NUM) as Hh by (pose proof (rf_range _ _ Rf) as Hr; unfold chain in Hr; rewrite Forall_cons in Hr; apply Hr).
  split; rewrite ?Ev; cbn [v_avail_ring v_pos v_avail_idx v_used_ring v_used_idx v_used_ring_idx v_free with_v_info with_v_used_ring with_v_used_ring_idx].
  - split; cbn; rewrite ?zset_length; assumption.
  - exact B.
  - apply window_push; [exact F|exact L6|]. pose proof (heads_le _ _ _ _ _ _ I) as Hle. rewrite !length_app in Hle. cbn [length] in Hle. lia.
  - exact Hnd.
  - intros y Hy. by apply H, Hin.
  - intros j r' Hj. destruct (IR j r' Hj) as [[A1 A2 A3 A4 A5 A6 A7] B2 B3 B4 B5 B6 B7]. destruct (decide (j = i)) as [->|Hne].
    + rewrite Hi in Hj. injection Hj as <-. assert (b_disk bf = true) as Hdisk by (apply Rw; fold h; rewrite !elem_of_app; right; right; left).
      split; unfold moved, disk_block; rewrite ?Ev, ?Eb, ?Ed; fold h; cbn [v_info with_v_info with_v_used_ring with_v_used_ring_idx].
      * split; cbn; try assumption. rewrite zget_zset_eq by (rewrite L3; lia). exact A7.
      * unfold bufs_after. destruct (rq_write r); [exact B2|by rewrite length_alter].
      * rewrite O3. exact B3.
      * intros Hw. rewrite (O4 Hw). exact (B4 Hw).
      * rewrite !elem_of_app. tauto.
      * intros _. rewrite zget_zset_eq by (rewrite L3; lia). split; [by rewrite O2|]. by split.
      * rewrite !elem_of_app, list_elem_of_singleton. tauto.
    + destruct (Hother j r' Hj Hne) as (N1 & N2 & N3 & N4). unfold moved, disk_block in *.
      split; unfold moved, disk_block; rewrite ?Ev, ?Eb, ?Ed, ?after_bufs, ?after_disk by assumption; cbn [v_info with_v_info with_v_used_ring with_v_used_ring_idx];
        rewrite ?zget_zset_ne by (lia || auto).
      * split; cbn; rewrite ?zget_zset_ne by (lia || auto); assumption.
      * unfold bufs_after. destruct (rq_write r); [exact B2|by rewrite length_alter].
      * exact B3.
      * exact B4.
      * intros Hy. apply B5. rewrite !elem_of_app, elem_of_cons in *. tauto.
      * rewrite elem_of_app, list_elem_of_singleton. intros [Hy|Hy]; [by apply B6|done].
      * rewrite !elem_of_app, list_elem_of_singleton. intros Hy. apply B7. rewrite !elem_of_app, elem_of_cons. tauto.
  - exact J.
  - exact K.
  - exact L.
  - by rewrite Ep.
  - rewrite Ep, Eb. intros j r' p Hj Hp Hst Hch. specialize (N j r' p Hj Hp Hst Hch). destruct (decide (j = i)) as [->|Hne].
    + rewrite Hi in Hj. injection Hj as <-. by rewrite O2.
    + rewrite after_bufs by (by apply (Hother j)). exact N.
Qed.
End complete.

(** ** The callers

    A process that is inside virtio_disk_rw() has a claim on the buffer and its
    block; it becomes a request when the descriptors are allocated. *)

Record claim := mkClaim { cl_b : nat; cl_write : bool; cl_n : Z; cl_data : list Z }.
Definition claim_of (r : req) : claim := mkClaim (rq_b r) (rq_write r) (rq_n r) (rq_data r).

Record claims (K : gmap nat claim) (C : gmap nat req) (s : kernel) : Prop := {
  ck_req : forall j r, C !! j = Some r -> K !! j = Some (claim_of r);
  ck_buf : forall j c, K !! j = Some c -> (cl_b c < length (k_bufs s))%nat /\ b_blockno (k_bufs s !!! cl_b c) = cl_n c /\ 0 <= cl_n c < 2 ^ 31 /\
    (cl_write c = true -> b_data (k_bufs s !!! cl_b c) = cl_data c);
  ck_apart : forall j k c c', j <> k -> K !! j = Some c -> K !! k = Some c' -> cl_b c <> cl_b c' /\ cl_n c <> cl_n c';
  ck_sleep : forall j c p, K !! j = Some c -> C !! j = None -> k_procs s !! j = Some p -> p_state p = SLEEPING -> p_chan p <> Some (Cbuf (cl_b c));
}.

Definition disk_inv (K : gmap nat claim) (C : gmap nat req) (T : list Z) (s : kernel) : Prop :=
  exists P U, vinv [] C P T U s /\ claims K C s.

(** The same buffers but for the flags. *)
Definition same_data (s s' : kernel) : Prop := with_b_disk false <$> k_bufs s' = with_b_disk false <$> k_bufs s.

Lemma same_data_get s s' k : same_data s s' -> length (k_bufs s') = length (k_bufs s) /\ b_blockno (k_bufs s' !!! k) = b_blockno (k_bufs s !!! k) /\
  b_data (k_bufs s' !!! k) = b_data (k_bufs s !!! k).
Proof.
  intros E. split; [apply (f_equal length) in E; by rewrite !length_fmap in E|].
  assert (with_b_disk false <$> k_bufs s' !! k = with_b_disk false <$> k_bufs s !! k) as Ek by (by rewrite <- !list_lookup_fmap, E).
  rewrite !list_lookup_total_alt. destruct (k_bufs s' !! k) as [x|], (k_bufs s !! k) as [y|]; cbn in *; try done.
  injection Ek. intros. done.
Qed.

Lemma claims_data K C s s' : claims K C s -> same_data s s' -> calmer s s' -> claims K C s'.
Proof.
  intros [A B D F] E [_ Hc]. split; [exact A| |exact D|].
  2: { intros j c p HK HC Hp Hst Hch. destruct (Hc j p _ Hp Hst Hch) as (p0 & Hp0 & Hst0 & Hch0). by apply (F j c p0). }
  intros j c Hj. destruct (same_data_get s s' (cl_b c) E) as (E1 & E2 & E3). rewrite E1, E2, E3. by apply (B j).
Qed.

Lemma claims_eq K C s s' : claims K C s -> k_bufs s' = k_bufs s -> calmer s s' -> claims K C s'.
Proof. intros Hcl E. apply claims_data; [exact Hcl|]. unfold same_data. by rewrite E. Qed.

Lemma same_data_flag s s' b x : k_bufs s' = alter (with_b_disk x) b (k_bufs s) -> same_data s s'.
Proof.
  intros E. unfold same_data. rewrite E. apply list_eq. intros k. rewrite !list_lookup_fmap. destruct (decide (k = b)) as [->|Hne];
    [rewrite list_lookup_alter_eq|by rewrite list_lookup_alter_ne by auto]. by destruct (k_bufs s !! b).
Qed.

(** ** A thread of the driver *)

Section thread.
Variable i : nat.

(** The other processes keep their requests. *)
Definition same_others (C C' : gmap nat req) : Prop := forall j, j <> i -> C' !! j = C !! j.

(** [g] is the number of wakeups for which the loops that wait have fuel. *)
Fixpoint vsafe {A} (Q : nat -> A -> gmap nat claim -> gmap nat req -> list Z -> kernel -> Prop) (g : nat)
    (K : gmap nat claim) (C : gmap nat req) (T : list Z) (r : res kernel A) : Prop :=
  match r with
  | Ok a s => exists C', same_others C C' /\ Q g a K C' T s
  | Panic _ => False
  | Swtch s k => exists C', same_others C C' /\ disk_inv K C' T s /\ k_cur s = Some i /\ k_held s = [Lproc i] /\
      forall K2 C2 T2 s2, K2 !! i = K !! i -> C2 !! i = C' !! i -> disk_inv K2 C2 T2 s2 -> k_cur s2 = Some i -> k_held s2 = [Lproc i] ->
        vsafe Q (pred g) K2 C2 T2 (k s2)
  | NoFuel => g = 0%nat
  end.

Lemma vsafe_from {A} (Q : nat -> A -> _ -> _ -> _ -> kernel -> Prop) g K C C1 T r : same_others C C1 -> vsafe Q g K C1 T r -> vsafe Q g K C T r.
Proof.
  intros H1. destruct r as [a s|msg|s k|]; cbn [vsafe]; [|tauto| |tauto].
  - intros (C' & H2 & HQ). exists C'. split; [|exact HQ]. intros j Hj. by rewrite H2, H1.
  - intros (C' & H2 & HQ). exists C'. split; [|exact HQ]. intros j Hj. by rewrite H2, H1.
Qed.

(** A stretch without a switch. *)
Lemma vsafe_wp {A B} (m : KM A) (f : A -> KM B) Q g K C T s : wp m (fun a s' => vsafe Q g K C T (f a s')) s -> vsafe Q g K C T (bind m f s).
Proof. unfold wp, bind. by destruct (m s). Qed.

Lemma vsafe_bind {A B} (f : A -> KM B) Q g K C T (r : res kernel A) :
  vsafe (fun g' a K' C' T' s' => vsafe Q g' K' C' T' (f a s')) g K C T r -> vsafe Q g K C T (rbind r f).
Proof.
  revert g K C T r. fix IH 5. intros g K C T [a s|msg|s k|]; cbn [vsafe rbind]; [|done| |done].
  - intros (C' & H1 & H2). exact (vsafe_from _ _ _ _ _ _ _ H1 H2).
  - intros (C' & H1 & H2 & H3 & H4 & H5). exists C'. split; [exact H1|]. split; [exact H2|]. split; [exact H3|]. split; [exact H4|].
    intros K2 C2 T2 s2 E1 E2 E3 E4 E5. apply IH. by apply H5.
Qed.

Lemma vsafe_mono {A} (P Q : nat -> A -> gmap nat claim -> gmap nat req -> list Z -> kernel -> Prop) g K C T r :
  vsafe P g K C T r -> (forall g' a K' C' T' s', (g' <= g)%nat -> P g' a K' C' T' s' -> Q g' a K' C' T' s') -> vsafe Q g K C T r.
Proof.
  revert g K C T r. fix IH 5. intros g K C T [a s|msg|s k|] Hr HQ; cbn [vsafe] in *; [|done| |done].
  - destruct Hr as (C' & H1 & H2). exists C'. split; [exact H1|by apply HQ].
  - destruct Hr as (C' & H1 & H2 & H3 & H4 & H5). exists C'. split; [exact H1|]. split; [exact H2|]. split; [exact H3|]. split; [exact H4|].
    intros K2 C2 T2 s2 E1 E2 E3 E4 E5. apply IH; [by apply H5|]. intros g' a K' C'' T' s' Hg. apply HQ. lia.
Qed.

Lemma vsafe_done {A} (m : KM A) Q g K C T s : wp m (fun a s' => exists C', same_others C C' /\ Q g a K C' T s') s -> vsafe Q g K C T (m s).
Proof. unfold wp. by destruct (m s). Qed.

(** A running process is not on a channel. *)
Definition up (s : kernel) : Prop := forall p, k_procs s !! i = Some p -> p_state p = SLEEPING -> p_chan p = None.

Lemma up_calmer s s' : up s -> calmer s s' -> up s'.
Proof.
  intros Hu [_ Hc] p Hp Hst. destruct (p_chan p) as [ch|] eqn:E; [|reflexivity]. destruct (Hc i p ch Hp Hst E) as (p0 & Hp0 & Hst0 & Hch0).
  rewrite (Hu p0 Hp0 Hst0) in Hch0. discriminate.
Qed.

(** In the driver, with its lock. *)
Record inside (K : gmap nat claim) (C : gmap nat req) (T : list Z) (s : kernel) : Prop := {
  is_inv : disk_inv K C T s;
  is_cur : k_cur s = Some i;
  is_held : k_held s = [Lvdisk];
  is_up : up s;
}.
Hypothesis slot : (i < Z.to_nat NPROC)%nat.

Lemma asleep_inv K C T s c : disk_inv K C T s -> (forall r, C !! i = Some r -> c = Cbuf (rq_b r) -> b_disk (k_bufs s !!! rq_b r) = true) ->
  (forall cl, C !! i = None -> c <> Cbuf cl) -> disk_inv K C T (asleep i c s).
Proof.
  intros (P & U & I & Hk) Hc Hn. exists P, U. split.
  2: { destruct Hk as [A1 A2 A3 A4]. split; [exact A1|exact A2|exact A3|]. intros j cl p HK HC Hp Hst. cbn in Hp. destruct (decide (j = i)) as [->|Hne].
       - rewrite list_lookup_alter_eq in Hp. destruct (k_procs s !! i); [|discriminate]. cbn in Hp. injection Hp as <-. intros [= E]. by apply (Hn (cl_b cl)).
       - rewrite list_lookup_alter_ne in Hp by auto. by apply (A4 j cl p). }
  pose proof I as [A B F G H IR J K' L M N]. split; [exact A|exact B|exact F|exact G|exact H| |exact J|exact K'|exact L| |].
  - intros j r Hj. by destruct (IR j r Hj).
  - cbn. by rewrite length_alter.
  - intros j r p Hj Hp Hst Hch. cbn in Hp. destruct (decide (j = i)) as [->|Hne].
    + rewrite list_lookup_alter_eq in Hp. destruct (k_procs s !! i); [|discriminate]. cbn in Hp. injection Hp as <-. cbn in Hch. injection Hch as ->. by apply Hc.
    + rewrite list_lookup_alter_ne in Hp by auto. by apply (N j r p).
Qed.

Lemma vsafe_sleep {B} c (f : unit -> KM B) Q g K C T s : inside K C T s ->
  (forall r, C !! i = Some r -> c = Cbuf (rq_b r) -> b_disk (k_bufs s !!! rq_b r) = true) ->
  (forall cl, C !! i = None -> c <> Cbuf cl) ->
  (forall K2 C2 T2 s2, K2 !! i = K !! i -> C2 !! i = C !! i -> inside K2 C2 T2 s2 -> vsafe Q (pred g) K2 C2 T2 (f tt s2)) ->
  vsafe Q g K C T (bind (sleep c Lvdisk) f s).
Proof.
  intros [Hinv Hcur Hheld Hup] Hc Hn HQ. assert (i < length (k_procs s))%nat as Hi by (destruct Hinv as (P & U & I & _); by rewrite (vi_procs _ _ _ _ _ _ I)).
  destruct (sleep_runs i c Lvdisk s Hcur Hi Hheld ltac:(done)) as (k & E & Hk). unfold bind. rewrite E. cbn [rbind vsafe].
  exists C. split; [done|]. split; [by apply asleep_inv|]. split; [exact Hcur|]. split; [reflexivity|].
  intros K2 C2 T2 s2 E1 E2 (P & U & I & Hcl) Hc2 Hh2. rewrite (Hk s2 Hh2). cbn [rbind]. apply HQ; [exact E1|exact E2|]. set (s3 := with_k_held _ _).
  assert (forall p, k_procs s3 !! i = Some p -> p_chan p = None) as Hnone.
  { intros p Hp. cbn in Hp. rewrite list_lookup_alter_eq in Hp. destruct (k_procs s2 !! i); [|discriminate]. cbn in Hp. by injection Hp as <-. }
  assert (calmer s2 s3) as Hcalm.
  { split; cbn; [apply length_alter|]. intros j p' ch Hp Hst Hch. destruct (decide (j = i)) as [->|Hne]; [rewrite (Hnone p' Hp) in Hch; discriminate|].
    rewrite list_lookup_alter_ne in Hp by auto. eauto. }
  split; [|exact Hc2|reflexivity|intros p Hp _; by apply Hnone].
  exists P, U. split; [apply (vinv_frame _ _ _ _ _ s2); [exact I|reflexivity..|exact Hcalm]|by apply (claims_eq _ _ s2)].
Qed.

Lemma vsafe_ret {A} (a : A) (Q : nat -> A -> _ -> _ -> _ -> kernel -> Prop) g K C T s : Q g a K C T s -> vsafe Q g K C T (ret a s).
Proof. intros HQ. cbn. exists C. by split. Qed.

(** *** The request of one call *)

Context `{Waits}.
Variables (b : nat) (w : bool) (n : Z) (d : list Z).
Let c := mkClaim b w n d.

(** The descriptors have been allocated. *)
Definition allocated (idx : list Z) (K : gmap nat claim) (C : gmap nat req) (T : list Z) (s : kernel) : Prop :=
  K !! i = Some c /\ C !! i = None /\ k_cur s = Some i /\ k_held s = [Lvdisk] /\ up s /\
  exists i0 i1 i2 P U, idx = [i0; i1; i2] /\ vinv idx C P T U s /\ claims K C s.

Lemma alloc_loop fuel : forall g K C T s, (g <= fuel)%nat -> K !! i = Some c -> C !! i = None -> inside K C T s ->
  vsafe (fun _ => allocated) g K C T (loop fuel (fun _ : unit =>
    o <- alloc3_desc ;; match o with Some idx => ret (inr idx) | None => sleep Cdiskfree Lvdisk ;;; ret (inl tt) end) tt s).
Proof.
  induction fuel as [|fuel IH]; intros g K C T s Hg HK HC [(P & U & I & Hcl) Hcur Hheld Hup]; [cbn; lia|]. cbn [loop]. apply vsafe_bind, vsafe_wp.
  apply (alloc3_desc_spec C P T U s); [exact I|intros j; rewrite Hheld; by intros ?%list_elem_of_singleton| |].
  - intros s1 I1 F1. destruct (own_frame_locks _ _ F1) as (Eh & Ec & Eb & _).
    pose proof (of_calm _ _ F1) as Hcalm. apply vsafe_sleep; [|congruence|done|].
    { split; [exists P, U; split; [exact I1|by apply (claims_eq _ _ s)]|congruence|congruence|by apply (up_calmer s)]. }
    intros K2 C2 T2 s2 E1 E2 Hin. apply vsafe_ret. apply IH; lia || congruence || exact Hin.
  - intros i0 i1 i2 s1 I1 F1. destruct (own_frame_locks _ _ F1) as (Eh & Ec & Eb & _). apply vsafe_ret, vsafe_ret.
    split; [exact HK|]. split; [exact HC|]. split; [congruence|]. split; [congruence|].
    pose proof (of_calm _ _ F1) as Hcalm. split; [by apply (up_calmer s)|]. exists i0, i1, i2, P, U. split; [reflexivity|]. split; [exact I1|].
    by apply (claims_eq _ _ s).
Qed.

(** The request is under way. *)
Definition requested (h : Z) (K : gmap nat claim) (C : gmap nat req) (T : list Z) (s : kernel) : Prop :=
  exists r, C !! i = Some r /\ rq_head r = h /\ claim_of r = c /\ inside K C T s.

Lemma submit_safe idx K C T s : allocated idx K C T s ->
  wp (submit b w idx) (fun _ s' => exists C', same_others C C' /\ requested (zget idx 0) K C' T s') s.
Proof.
  intros (HK & HC & Hcur & Hheld & Hup & i0 & i1 & i2 & P & U & -> & I & Hcl). pose proof (ck_buf _ _ _ Hcl i c HK) as (B1 & B2 & B3 & B4). cbn in B1, B2, B3, B4.
  apply (submit_spec C P T U i b w i0 i1 i2 d); [exact I|exact HC|exact B1|by rewrite B2|exact B4| |].
  { intros j r Hj. assert (j <> i) as Hne by congruence. destruct (ck_apart _ _ _ Hcl j i _ c Hne (ck_req _ _ _ Hcl j r Hj) HK) as [D1 D2]. cbn in D1, D2. by rewrite B2. }
  intros s' I' E. set (r := mkReq _ _ _ _ _ _ _) in I'. exists (<[i := r]> C).
  split; [intros j Hj; by rewrite lookup_insert_ne by auto|]. exists r. split; [by rewrite lookup_insert_eq|]. split; [reflexivity|].
  assert (claim_of r = c) as Ec by (unfold claim_of, r; cbn; by rewrite B2). split; [exact Ec|].
  assert (calmer s s') as Hcalm by (apply calmer_eq; rewrite E; reflexivity).
  split; [|rewrite E; exact Hcur|rewrite E; exact Hheld|by apply (up_calmer s)]. exists (P ++ [i0]), U. split; [exact I'|].
  destruct (claims_data K C s s' Hcl ltac:(apply (same_data_flag s s' b true); rewrite E; reflexivity) Hcalm) as [A1 A2 A3 A4].
  split; [|exact A2|exact A3|].
  2: { intros j cl p HKj HCj. apply (A4 j cl p HKj). destruct (decide (j = i)) as [->|Hne]; [by rewrite lookup_insert_eq in HCj|]. by rewrite lookup_insert_ne in HCj by auto. }
  intros j r'. destruct (decide (j = i)) as [->|Hne]; [rewrite lookup_insert_eq; intros [= <-]; by rewrite Ec|].
  rewrite lookup_insert_ne by auto. apply A1.
Qed.

Lemma wait_loop fuel h : forall g K C T s, (g <= fuel)%nat -> requested h K C T s ->
  vsafe (fun _ _ K' C' T' s' => requested h K' C' T' s' /\ b_disk (k_bufs s' !!! b) = false) g K C T (loop fuel (fun _ : unit =>
    bf <- buf_at b ;; if b_disk bf then sleep (Cbuf b) Lvdisk ;;; ret (inl tt) else ret (inr tt)) tt s).
Proof.
  induction fuel as [|fuel IH]; intros g K C T s Hg (r & HC & Hh & Hc & Hin); [cbn; lia|]. cbn [loop]. apply vsafe_bind, vsafe_wp. unfold buf_at. wp_step.
  assert (rq_b r = b) as Hb by (by injection Hc). destruct (b_disk (k_bufs s !!! b)) eqn:E.
  - apply vsafe_sleep; [exact Hin| | |].
    { intros r' Hr' Hch. rewrite HC in Hr'. injection Hr' as <-. by rewrite Hb. }
    { congruence. }
    intros K2 C2 T2 s2 E1 E2 Hin2. apply vsafe_ret, IH; [lia|]. exists r. split; [congruence|]. by split.
  - apply vsafe_ret, vsafe_ret. split; [|exact E]. exists r. by split.
Qed.

(** What virtio_disk_rw() promises when it returns: the buffer and the disk
    agree, and the data of a write is what the caller put there. *)
Record served (K : gmap nat claim) (C : gmap nat req) (T : list Z) (s : kernel) : Prop := {
  sv_inv : disk_inv K C T s;
  sv_none : C !! i = None;
  sv_locks : k_held s = [];
  sv_moved : b_data (k_bufs s !!! b) = disk_block s n;
  sv_data : w = true -> b_data (k_bufs s !!! b) = d;
}.

Lemma finish_safe h K C T s : requested h K C T s -> b_disk (k_bufs s !!! b) = false ->
  wp (upd_info h (with_in_b None) ;;; free_chain h ;;; release Lvdisk) (fun _ s' => served K (delete i C) T s') s.
Proof.
  intros (r & HC & <- & Hc & [(P & U & I & Hcl) Hcur Hheld Hup]) Hd. injection Hc as Hb Hw Hn Hdd. destruct (vi_req _ _ _ _ _ _ I i r HC) as [R1 R2 R3 R4 R5 R6 R7].
  rewrite Hb in *. assert (rq_head r ∉ P ++ T ++ U) as Hseen.
  { rewrite app_assoc, elem_of_app. intros [Hin|Hin]; [apply R5 in Hin|apply R6 in Hin as [Hin _]]; congruence. }
  destruct (R7 Hseen) as [_ Hm]. unfold moved in Hm. rewrite Hb, Hn in Hm. unfold upd_info, upd_vdisk. do 3 wp_step.
  assert (no_proc_lock s) as Hl by (intros j; rewrite Hheld; by intros ?%list_elem_of_singleton).
  apply (free_chain_spec C P T U i r s I HC Hseen); [exact Hl|]. set (s1 := with_k_vdisk _ s). intros s2 I2 F2.
  destruct (own_frame_locks _ _ F2) as (Eh & Ec & Eb & Ed). apply (wp_release _ []); [rewrite Eh; exact Hheld|apply not_elem_of_nil|].
  assert (claims K (delete i C) s2) as Hcl2.
  { destruct (claims_eq K C s s2 Hcl Eb (of_calm _ _ F2)) as [A1 A2 A3 A4]. split; [|exact A2|exact A3|].
    - intros j r' Hj. apply lookup_delete_Some in Hj as [_ Hj]. by apply A1.
    - intros j cl p HK HCj Hp Hst. destruct (decide (j = i)) as [->|Hne]; [by rewrite (up_calmer _ _ Hup (of_calm _ _ F2) p Hp Hst)|].
      rewrite lookup_delete_ne in HCj by auto. by apply (A4 j cl p). }
  split; cbn; rewrite ?lookup_delete_eq; [|reflexivity|reflexivity| |].
  - exists P, U. split; [|apply (claims_eq _ _ s2); [exact Hcl2|reflexivity|by apply calmer_eq]]. apply (vinv_frame _ _ _ _ _ s2); [exact I2|reflexivity..|by apply calmer_eq].
  - rewrite Eb. unfold disk_block. cbn. rewrite Ed. exact Hm.
  - intros ->. rewrite Eb. rewrite <- Hdd. by apply R4.
Qed.

Lemma rw_safe g K C T s : (g <= S waits)%nat -> K !! i = Some c -> C !! i = None -> disk_inv K C T s -> k_cur s = Some i -> k_held s = [] -> up s ->
  vsafe (fun _ _ => served) g K C T (virtio_disk_rw b w s).
Proof.
  intros Hg HK HC Hinv Hcur Hheld Hup. unfold virtio_disk_rw. apply vsafe_wp, wp_acquire; [rewrite Hheld; apply not_elem_of_nil|]. rewrite Hheld.
  apply vsafe_bind. set (s1 := with_k_held _ s). assert (inside K C T s1) as Hin.
  { split; [|exact Hcur|reflexivity|exact Hup]. destruct Hinv as (P & U & I & Hcl). exists P, U.
    split; [apply (vinv_frame _ _ _ _ _ s); [exact I|reflexivity..|by apply calmer_eq]|apply (claims_eq _ _ s); [exact Hcl|reflexivity|by apply calmer_eq]]. }
  eapply vsafe_mono; [exact (alloc_loop (S waits) g K C T s1 Hg HK HC Hin)|]. intros g1 idx K1 C1 T1 s2 Hg1 Ha. apply vsafe_wp.
  eapply wp_mono; [exact (submit_safe idx K1 C1 T1 s2 Ha)|]. intros _ s3 (C2 & Ho & Hr). apply (vsafe_from _ _ _ _ _ _ _ Ho), vsafe_bind.
  eapply vsafe_mono; [exact (wait_loop (S waits) _ g1 K1 C2 T1 s3 ltac:(lia) Hr)|]. intros g3 _ K3 C3 T3 s4 _ [Hr3 Hd3]. apply vsafe_done.
  eapply wp_mono; [exact (finish_safe _ K3 C3 T3 s4 Hr3 Hd3)|]. intros [] s5 Hs. exists (delete i C3). split; [|exact Hs].
  intros j Hj. by rewrite lookup_delete_ne by auto.
Qed.
End thread.

(** ** The system *)

(** Where a process is: outside the driver, or switched out inside it after [g]
    wakeups. *)
Inductive place := Idle | Busy (c : claim) (g : nat) (k : kernel -> res kernel unit).

(** The kernel, the heads that the device has taken, and the processes. *)
Record dsys := mkDsys { ds_k : kernel; ds_taken : list Z; ds_at : nat -> place }.

Definition on_cpu (i : nat) (L : list lockid) (s : kernel) : kernel := with_k_held L (with_k_cur (Some i) s).
Definition interrupted (cur : option nat) (s : kernel) : kernel := with_k_held [] (with_k_cur cur s).

(** What a caller of virtio_disk_rw() has to make sure of, and bread() and bwrite()
    do with the lock of the buffer: nobody else transfers this buffer or this block. *)
Record may_start (sy : dsys) (i b : nat) : Prop := {
  ms_slot : (i < Z.to_nat NPROC)%nat;
  ms_idle : ds_at sy i = Idle;
  ms_awake : forall p, k_procs (ds_k sy) !! i = Some p -> p_state p <> SLEEPING;
  ms_buf : (b < length (k_bufs (ds_k sy)))%nat;
  ms_n : 0 <= b_blockno (k_bufs (ds_k sy) !!! b) < 2 ^ 31;
  ms_alone : forall j c g k, ds_at sy j = Busy c g k -> cl_b c <> b /\ cl_n c <> b_blockno (k_bufs (ds_k sy) !!! b);
}.

Definition claim_for (s : kernel) (b : nat) (w : bool) : claim := mkClaim b w (b_blockno (k_bufs s !!! b)) (b_data (k_bufs s !!! b)).

(** The rest of the kernel leaves the driver, the disk and the buffers in
    transfer alone, and puts no process of the driver to sleep. *)
Record elsewhere (th : nat -> place) (s s' : kernel) : Prop := {
  ew_vdisk : k_vdisk s' = k_vdisk s;
  ew_disk : k_disk s' = k_disk s;
  ew_len : length (k_bufs s') = length (k_bufs s) /\ length (k_procs s') = length (k_procs s);
  ew_bufs : forall i c g k, th i = Busy c g k -> k_bufs s' !!! cl_b c = k_bufs s !!! cl_b c;
  ew_procs : forall i c g k p' ch, th i = Busy c g k -> k_procs s' !! i = Some p' -> p_state p' = SLEEPING -> p_chan p' = Some ch ->
    exists p, k_procs s !! i = Some p /\ p_state p = SLEEPING /\ p_chan p = Some ch;
}.

Section system.
Context `{Waits}.

(** Running process [i] until it returns or gives up the CPU. *)
Definition run_rw (i b : nat) (w : bool) (s : kernel) : res kernel unit := virtio_disk_rw b w (on_cpu i [] s).
Definition resume (i : nat) (k : kernel -> res kernel unit) (s : kernel) : res kernel unit := k (on_cpu i [Lproc i] s).

Inductive dstep : dsys -> dsys -> Prop :=
| D_else s s' T th : elsewhere th s s' -> dstep (mkDsys s T th) (mkDsys s' T th)
| D_start_return i b w s s' T th : may_start (mkDsys s T th) i b -> run_rw i b w s = Ok tt s' -> dstep (mkDsys s T th) (mkDsys s' T th)
| D_start i b w s s' k T th : may_start (mkDsys s T th) i b -> run_rw i b w s = Swtch s' k ->
    dstep (mkDsys s T th) (mkDsys s' T (<[i := Busy (claim_for s b w) 0 k]> th))
| D_return i c g k s s' T th : th i = Busy c g k -> resume i k s = Ok tt s' -> dstep (mkDsys s T th) (mkDsys s' T (<[i := Idle]> th))
| D_sleep i c g k k' s s' T th : th i = Busy c g k -> resume i k s = Swtch s' k' -> dstep (mkDsys s T th) (mkDsys s' T (<[i := Busy c (S g) k']> th))
| D_take h s s' T th : dev_take s = Some (h, s') -> dstep (mkDsys s T th) (mkDsys s' (h :: T) th)
| D_complete h s s' T1 T2 th : dev_complete h s = Some s' -> dstep (mkDsys s (T1 ++ h :: T2) th) (mkDsys s' (T1 ++ T2) th)
| D_intr cur s s' T th : cur_awake (interrupted cur s) -> virtio_disk_intr (interrupted cur s) = Ok tt s' -> dstep (mkDsys s T th) (mkDsys s' T th).

(** What is known of a process where it is. *)
Definition known (K : gmap nat claim) (C : gmap nat req) (i : nat) (p : place) : Prop :=
  match p with
  | Idle => K !! i = None /\ C !! i = None
  | Busy c g k => (i < Z.to_nat NPROC)%nat /\ K !! i = Some c /\
      forall K2 C2 T2 s2, K2 !! i = K !! i -> C2 !! i = C !! i -> disk_inv K2 C2 T2 s2 -> k_cur s2 = Some i -> k_held s2 = [Lproc i] ->
        vsafe i (fun _ _ => served i (cl_b c) (cl_write c) (cl_n c) (cl_data c)) (waits - g) K2 C2 T2 (k s2)
  end.

Definition sys_inv (K : gmap nat claim) (C : gmap nat req) (sy : dsys) : Prop :=
  disk_inv K C (ds_taken sy) (ds_k sy) /\ forall i, known K C i (ds_at sy i).

(** The state of the CPU does not matter to the queue. *)
Lemma disk_inv_cpu K C T s L cur : disk_inv K C T s -> disk_inv K C T (with_k_held L (with_k_cur cur s)).
Proof.
  intros (P & U & I & Hcl). exists P, U. split; [apply (vinv_frame _ _ _ _ _ s); [exact I|reflexivity..|by apply calmer_eq]|].
  apply (claims_eq _ _ s); [exact Hcl|reflexivity|by apply calmer_eq].
Qed.

Lemma start_safe K C sy i b w : sys_inv K C sy -> may_start sy i b -> let c := claim_for (ds_k sy) b w in
  disk_inv (<[i := c]> K) C (ds_taken sy) (ds_k sy) /\ C !! i = None /\
  vsafe i (fun _ _ => served i (cl_b c) (cl_write c) (cl_n c) (cl_data c)) (S waits) (<[i := c]> K) C (ds_taken sy) (run_rw i b w (ds_k sy)).
Proof.
  intros [(P & U & I & Hcl) Hall] [M1 M2 M0 M3 M4 M5] c. pose proof (Hall i) as Hi. rewrite M2 in Hi. destruct Hi as [HK HC].
  assert (disk_inv (<[i := c]> K) C (ds_taken sy) (ds_k sy)) as Hinv.
  { exists P, U. split; [exact I|]. destruct Hcl as [A1 A2 A3 A4].
    assert (forall j cj, j <> i -> K !! j = Some cj -> cl_b cj <> b /\ cl_n cj <> b_blockno (k_bufs (ds_k sy) !!! b)) as Hal.
    { intros j cj Hj HKj. pose proof (Hall j) as Hkj. destruct (ds_at sy j) as [|c' g k] eqn:E; [destruct Hkj; congruence|].
      destruct Hkj as (_ & E' & _). rewrite HKj in E'. injection E' as ->. by apply (M5 j c' g k). }
    assert (forall j cj, <[i := c]> K !! j = Some cj -> j = i /\ cj = c \/ j <> i /\ K !! j = Some cj) as Hlk.
    { intros j cj. destruct (decide (j = i)) as [->|Hne]; [rewrite lookup_insert_eq; intros [= <-]; auto|rewrite lookup_insert_ne by auto; auto]. }
    split.
    - intros j r Hj. rewrite lookup_insert_ne by congruence. by apply A1.
    - intros j cj Hj. destruct (Hlk j cj Hj) as [[-> ->]|[_ Hj']]; [by split|by apply (A2 j)].
    - intros j k cj ck Hjk Hj Hk. destruct (Hlk j cj Hj) as [[-> ->]|[Hji Hj']], (Hlk k ck Hk) as [[-> ->]|[Hki Hk']]; [done| |by apply (Hal j)|by apply (A3 j k)].
      destruct (Hal k ck Hki Hk'). cbn. auto.
    - intros j cj p Hj HCj Hp Hst. destruct (Hlk j cj Hj) as [[-> ->]|[_ Hj']]; [by destruct (M0 p Hp)|by apply (A4 j cj p)]. }
  split; [exact Hinv|]. split; [exact HC|]. apply (rw_safe i M1); [lia|by rewrite lookup_insert_eq|exact HC|by apply disk_inv_cpu|reflexivity|reflexivity|].
  intros p Hp Hst. by destruct (M0 p Hp).
Qed.

(** *** Every step keeps the invariant *)

Lemma known_ext K C K' C' i p : K' !! i = K !! i -> C' !! i = C !! i -> known K C i p -> known K' C' i p.
Proof. intros EK EC. destruct p as [|c g k]; cbn; rewrite EK, EC; done. Qed.

(** Process [i] has moved and the others have not. *)
Lemma known_insert K C K' C' th i p : (forall j, known K C j (th j)) -> (forall j, j <> i -> K' !! j = K !! j /\ C' !! j = C !! j) -> known K' C' i p ->
  forall j, known K' C' j ((<[i := p]> th : nat -> place) j).
Proof.
  intros Hall Ho Hi j. destruct (decide (j = i)) as [->|Hne]; [by rewrite fn_lookup_insert|]. rewrite fn_lookup_insert_ne by auto.
  destruct (Ho j Hne). by apply (known_ext K C).
Qed.

(** A claim ends when the call returns. *)
Lemma disk_inv_drop K C T s i : disk_inv K C T s -> C !! i = None -> disk_inv (delete i K) C T s.
Proof.
  intros (P & U & I & [A1 A2 A3 A4]) HC. exists P, U. split; [exact I|]. split.
  - intros j r Hj. rewrite lookup_delete_ne by congruence. by apply A1.
  - intros j c [_ Hj]%lookup_delete_Some. by apply (A2 j).
  - intros j k c c' Hjk [_ Hj]%lookup_delete_Some [_ Hk]%lookup_delete_Some. by apply (A3 j k).
  - intros j c p [_ Hj]%lookup_delete_Some. by apply (A4 j).
Qed.

Lemma start_step K C s T th i b w : sys_inv K C (mkDsys s T th) -> may_start (mkDsys s T th) i b ->
  match run_rw i b w s with
  | Ok _ s' => exists C', sys_inv K C' (mkDsys s' T th)
  | Swtch s' k => exists K' C', sys_inv K' C' (mkDsys s' T (<[i := Busy (claim_for s b w) 0 k]> th))
  | _ => True
  end.
Proof.
  intros Hsy Hm. destruct (start_safe K C _ i b w Hsy Hm) as (_ & HC & Hv). cbn in Hv. destruct Hsy as [_ Hall]. cbn in Hall.
  pose proof (ms_slot _ _ _ Hm) as Hslot. assert (th i = Idle) as Hidle by apply Hm. pose proof (Hall i) as Hki. rewrite Hidle in Hki. destruct Hki as [HK _].
  destruct (run_rw i b w s) as [[] s'|msg|s' k|]; cbn [vsafe] in Hv; try exact I.
  - destruct Hv as (C' & Ho & [S1 S2 _ _ _]). exists C'. apply (disk_inv_drop _ _ _ _ i) in S1; [|exact S2]. rewrite delete_insert_id in S1 by exact HK.
    split; [exact S1|]. intros j. cbn. destruct (decide (j = i)) as [->|Hne]; [rewrite Hidle; by split|]. apply (known_ext K C); [reflexivity|by apply Ho|apply Hall].
  - destruct Hv as (C' & Ho & S1 & _ & _ & Hk). exists (<[i := claim_for s b w]> K), C'. split; [exact S1|]. cbn. apply (known_insert K C); [exact Hall| |].
    + intros j Hne. split; [by rewrite lookup_insert_ne by auto|by apply Ho].
    + cbn. split; [exact Hslot|]. split; [by rewrite lookup_insert_eq|]. by rewrite Nat.sub_0_r.
Qed.

Lemma resume_safe K C s T th i c g k : sys_inv K C (mkDsys s T th) -> th i = Busy c g k ->
  vsafe i (fun _ _ => served i (cl_b c) (cl_write c) (cl_n c) (cl_data c)) (waits - g) K C T (resume i k s).
Proof.
  intros [Hd Hall] Hi. pose proof (Hall i) as Hki. cbn in Hki. rewrite Hi in Hki. destruct Hki as (_ & _ & Hk).
  apply Hk; [reflexivity|reflexivity|by apply disk_inv_cpu|reflexivity|reflexivity].
Qed.

Lemma resume_step K C s T th i c g k : sys_inv K C (mkDsys s T th) -> th i = Busy c g k ->
  match resume i k s with
  | Ok _ s' => exists K' C', sys_inv K' C' (mkDsys s' T (<[i := Idle]> th))
  | Swtch s' k' => exists C', sys_inv K C' (mkDsys s' T (<[i := Busy c (S g) k']> th))
  | _ => True
  end.
Proof.
  intros Hsy Hi. pose proof (resume_safe K C s T th i c g k Hsy Hi) as Hv. destruct Hsy as [_ Hall]. cbn in Hall. pose proof (Hall i) as Hki. rewrite Hi in Hki.
  destruct Hki as (Hslot & HK & _). destruct (resume i k s) as [[] s'|msg|s' k'|]; cbn [vsafe] in Hv; try exact I.
  - destruct Hv as (C' & Ho & [S1 S2 _ _ _]). exists (delete i K), C'. split; [by apply disk_inv_drop|]. cbn. apply (known_insert K C); [exact Hall| |].
    + intros j Hne. split; [by rewrite lookup_delete_ne by auto|by apply Ho].
    + split; [by rewrite lookup_delete_eq|exact S2].
  - destruct Hv as (C' & Ho & S1 & _ & _ & Hk). exists C'. split; [exact S1|]. cbn. apply (known_insert K C); [exact Hall|by auto|]. cbn. replace (waits - S g)%nat with (pred (waits - g)) by lia. by split.
Qed.

(** The device and the interrupts move no process. *)
Lemma else_step K C s s' T th : sys_inv K C (mkDsys s T th) -> elsewhere th s s' -> sys_inv K C (mkDsys s' T th).
Proof.
  intros [(P & U & I & [A1 A2 A3 A4]) Hall] [W1 W2 [W3 W4] W5 W6]. cbn in Hall, I.
  assert (forall j c, K !! j = Some c -> exists g k, th j = Busy c g k) as Hb.
  { intros j c Hj. pose proof (Hall j) as Hk. destruct (th j) as [|c' g k]; [destruct Hk; congruence|]. destruct Hk as (_ & Hk & _). exists g, k. congruence. }
  assert (forall j c, K !! j = Some c -> k_bufs s' !!! cl_b c = k_bufs s !!! cl_b c) as Hbuf by (intros j c Hj; destruct (Hb j c Hj) as (g & k & E); by apply (W5 j c g k)).
  assert (forall j c p ch, K !! j = Some c -> k_procs s' !! j = Some p -> p_state p = SLEEPING -> p_chan p = Some ch ->
    exists p0, k_procs s !! j = Some p0 /\ p_state p0 = SLEEPING /\ p_chan p0 = Some ch) as Hp by (intros j c p ch Hj; destruct (Hb j c Hj) as (g & k & E); by apply (W6 j c g k)).
  split; [|exact Hall]. exists P, U. cbn. split.
  - destruct I as [B1 B2 B3 B4 B5 B6 B7 B8 B9 B10 B11]. split; rewrite ?W1; [assumption..| |assumption|assumption|assumption|congruence|].
    + intros j r Hj. pose proof (Hbuf j _ (A1 j r Hj)) as E. cbn in E. destruct (B6 j r Hj) as [R1 R2 R3 R4 R5 R6 R7]. unfold moved, disk_block in *.
      split; unfold moved, disk_block; rewrite ?W1, ?W2, ?W3, ?E; assumption.
    + intros j r p Hj Hpj Hst Hch. destruct (Hp j _ p _ (A1 j r Hj) Hpj Hst Hch) as (p0 & P1 & P2 & P3). pose proof (Hbuf j _ (A1 j r Hj)) as E. cbn in E. rewrite E. by apply (B11 j r p0).
  - split; [exact A1| |exact A3|].
    + intros j c Hj. rewrite W3, (Hbuf j c Hj). by apply (A2 j).
    + intros j c p HKj HCj Hpj Hst Hch. destruct (Hp j c p _ HKj Hpj Hst Hch) as (p0 & P1 & P2 & P3). by apply (A4 j c p0).
Qed.

Lemma taken_request K C T s h : disk_inv K C T s -> h ∈ T -> exists j r, C !! j = Some r /\ rq_head r = h.
Proof. intros (P & U & I & _) Hh. apply (vi_known _ _ _ _ _ _ I). rewrite !elem_of_app. tauto. Qed.

Lemma complete_step K C s T1 T2 th h : sys_inv K C (mkDsys s (T1 ++ h :: T2) th) ->
  exists s', dev_complete h s = Some s' /\ sys_inv K C (mkDsys s' (T1 ++ T2) th).
Proof.
  intros [Hd Hall]. cbn in Hd. destruct (taken_request _ _ _ _ h Hd) as (i & r & Hi & <-); [rewrite elem_of_app; right; left|].
  destruct Hd as (P & U & I & Hcl). destruct (complete_runs C P T1 T2 U i r s I Hi) as (s' & E & Eb & Ed & Ep & Ev).
  exists s'. split; [exact E|]. split; [|exact Hall]. exists P, (U ++ [rq_head r]). split; [by apply (complete_vinv C P T1 T2 U i r s)|].
  destruct (after_own C P T1 T2 U i r s I Hi) as (O1 & O2 & O3 & O4). pose proof (ck_req _ _ _ Hcl i r Hi) as HKi.
  destruct Hcl as [A1 A2 A3 A4]. cbn. split; [exact A1| |exact A3|rewrite Ep; exact A4].
  intros j c Hj. destruct (A2 j c Hj) as (B1 & B2 & B3 & B4). rewrite Eb.
  assert (length (bufs_after r s) = length (k_bufs s)) as -> by (unfold bufs_after; destruct (rq_write r); [reflexivity|apply length_alter]).
  split; [exact B1|]. destruct (decide (j = i)) as [->|Hne].
  - rewrite HKi in Hj. injection Hj as <-. cbn in *. rewrite O3. split; [exact B2|]. split; [exact B3|]. intros Hw. rewrite (O4 Hw). by apply B4.
  - destruct (A3 j i c _ Hne Hj HKi) as [D _]. rewrite (after_bufs C P T1 T2 U i r s I Hi (cl_b c)) by exact D. done.
Qed.

Lemma take_step K C s s' T th h : sys_inv K C (mkDsys s T th) -> dev_take s = Some (h, s') -> sys_inv K C (mkDsys s' (h :: T) th).
Proof.
  intros [(P & U & I & Hcl) Hall] E. split; [|exact Hall]. destruct (take_vinv C P T U s h s' I E) as (P' & _ & I'). exists P', U. split; [exact I'|].
  revert E. unfold dev_take. destruct (_ =? _); [discriminate|]. intros [= _ <-]. apply (claims_eq _ _ s); [exact Hcl|reflexivity|by apply calmer_eq].
Qed.

Lemma intr_step K C s T th cur : sys_inv K C (mkDsys s T th) -> cur_awake (interrupted cur s) ->
  exists s', virtio_disk_intr (interrupted cur s) = Ok tt s' /\ sys_inv K C (mkDsys s' T th).
Proof.
  intros [Hd Hall] Hc. apply (disk_inv_cpu _ _ _ _ [] cur) in Hd. destruct Hd as (P & U & I & Hcl). cbn in I, Hcl. fold (interrupted cur s) in I, Hcl.
  pose proof (virtio_disk_intr_spec C P T U _ (fun _ s' => sys_inv K C (mkDsys s' T th)) I eq_refl Hc) as Hwp.
  unfold wp in Hwp. destruct (virtio_disk_intr (interrupted cur s)) as [[] s'|msg|s' k|].
  1: { exists s'. split; [reflexivity|]. apply Hwp. intros s2 I2 [F1 F2 F3]. split; [|exact Hall]. exists P, []. split; [exact I2|].
    by apply (claims_data _ _ (interrupted cur s)). }
  all: exfalso; apply Hwp; intros s2 I2 [F1 F2 F3]; split; [|exact Hall]; exists P, []; (split; [exact I2|]); by apply (claims_data _ _ (interrupted cur s)).
Qed.

Lemma dstep_inv sy sy' : dstep sy sy' -> (exists K C, sys_inv K C sy) -> exists K C, sys_inv K C sy'.
Proof.
  intros Hstep (K & C & Hsy). destruct Hstep as [s s' T th He|i b w s s' T th Hm E|i b w s s' k T th Hm E|i c g k s s' T th Hi E|i c g k k' s s' T th Hi E|h s s' T th E|h s s' T1 T2 th E|cur s s' T th Hc E].
  - exists K, C. by apply (else_step K C s).
  - pose proof (start_step K C s T th i b w Hsy Hm) as Hr. rewrite E in Hr. by exists K.
  - pose proof (start_step K C s T th i b w Hsy Hm) as Hr. by rewrite E in Hr.
  - pose proof (resume_step K C s T th i c g k Hsy Hi) as Hr. by rewrite E in Hr.
  - pose proof (resume_step K C s T th i c g k Hsy Hi) as Hr. rewrite E in Hr. by exists K.
  - exists K, C. by apply (take_step K C s).
  - destruct (complete_step K C s T1 T2 th h Hsy) as (s2 & E2 & Hsy2). rewrite E in E2. injection E2 as <-. by exists K, C.
  - destruct (intr_step K C s T th cur Hsy Hc) as (s2 & E2 & Hsy2). rewrite E in E2. injection E2 as <-. by exists K, C.
Qed.

(** *** What the driver promises *)

(** The call does not panic, has fuel for the wakeups it is given, and when it
    returns the buffer and the block are the same, for a write what the caller
    had put in the buffer. *)
Definition answers (c : claim) (g : nat) (r : res kernel unit) : Prop :=
  match r with
  | Ok _ s => b_data (k_bufs s !!! cl_b c) = disk_block s (cl_n c) /\ (cl_write c = true -> b_data (k_bufs s !!! cl_b c) = cl_data c) /\ k_held s = []
  | Panic _ => False
  | Swtch s _ => True
  | NoFuel => (waits <= g)%nat
  end.

Lemma vsafe_answers i c g m K C T r : vsafe i (fun _ _ => served i (cl_b c) (cl_write c) (cl_n c) (cl_data c)) m K C T r -> (m = 0 -> waits <= g)%nat ->
  answers c g r.
Proof.
  intros Hv Hg. destruct r as [a s|msg|s k|]; cbn in *; [|done|done|by apply Hg]. destruct Hv as (C' & _ & [_ _ H1 H2 H3]). done.
Qed.

Record sound (sy : dsys) : Prop := {
  sd_start : forall i b w, may_start sy i b -> answers (claim_for (ds_k sy) b w) 0 (run_rw i b w (ds_k sy)) /\ run_rw i b w (ds_k sy) <> NoFuel;
  sd_resume : forall i c g k, ds_at sy i = Busy c g k -> answers c g (resume i k (ds_k sy));
  sd_device : forall h, h ∈ ds_taken sy -> exists s', dev_complete h (ds_k sy) = Some s';
  sd_intr : forall cur, cur_awake (interrupted cur (ds_k sy)) -> exists s', virtio_disk_intr (interrupted cur (ds_k sy)) = Ok tt s';
  sd_free : (forall i, ds_at sy i = Idle) -> forall x, 0 <= x < NUM -> zget (v_free (k_vdisk (ds_k sy))) x = true;
  sd_pending : forall i c g k p, ds_at sy i = Busy c g k -> k_procs (ds_k sy) !! i = Some p -> p_state p = SLEEPING -> p_chan p = Some (Cbuf (cl_b c)) ->
    b_disk (k_bufs (ds_k sy) !!! cl_b c) = true /\ let v := k_vdisk (ds_k sy) in
    exists P U h o st, window (v_avail_ring v) (v_pos v) (v_avail_idx v) P /\ window (v_used_ring v) (v_used_idx v) (v_used_ring_idx v) U /\
      h ∈ P ++ ds_taken sy ++ U /\ dev_chain v h = Some (o, cl_b c, negb (cl_write c), st);
}.

Lemma sys_inv_sound K C sy : sys_inv K C sy -> sound sy.
Proof.
  intros Hsy. pose proof Hsy as [(P & U & I & Hcl) Hall]. destruct sy as [s T th]. cbn in *. split; cbn.
  - intros i b w Hm. destruct (start_safe K C _ i b w Hsy Hm) as (_ & _ & Hv). cbn in Hv. split; [apply (vsafe_answers i (claim_for s b w) _ _ _ _ _ _ Hv); lia|].
    intros E. rewrite E in Hv. discriminate Hv.
  - intros i c g k Hi. apply (vsafe_answers _ _ _ _ _ _ _ _ (resume_safe K C s T th i c g k Hsy Hi)). lia.
  - intros h (T1 & T2 & ->)%list_elem_of_split. destruct (complete_step K C s T1 T2 th h Hsy) as (s' & E & _). by exists s'.
  - intros cur Hc. destruct (intr_step K C s T th cur Hsy Hc) as (s' & E & _). by exists s'.
  - intros Hidle x Hx. apply (vi_free _ _ _ _ _ _ I x Hx). split; [apply not_elem_of_nil|]. intros j r Hj. pose proof (Hall j) as Hk. rewrite Hidle in Hk. destruct Hk. congruence.
  - intros i c g k p Hi Hp Hst Hch. pose proof (Hall i) as Hk. rewrite Hi in Hk. destruct Hk as (_ & HK & _).
    destruct (C !! i) as [r|] eqn:HC; [|by destruct (ck_sleep _ _ _ Hcl i c p HK HC Hp Hst)].
    pose proof (ck_req _ _ _ Hcl i r HC) as E. rewrite HK in E. injection E as ->. cbn in *. pose proof (vi_awake _ _ _ _ _ _ I i r p HC Hp Hst Hch) as Hd.
    split; [exact Hd|]. destruct (vi_req _ _ _ _ _ _ I i r HC) as [R1 _ _ _ _ _ R7]. exists P, U, (rq_head r), (Z.to_nat (rq_head r)), (Z.to_nat (rq_head r)).
    split; [apply I|]. split; [apply I|]. split; [|by apply request_chain].
    destruct (decide (rq_head r ∈ P ++ T ++ U)) as [Hin|Hin]; [exact Hin|]. destruct (R7 Hin). congruence.
Qed.
End system.

(** ** The queue at the start *)

Lemma kalloc_keeps s r s' : kalloc s = Ok r s' -> k_vdisk s' = k_vdisk s /\ k_procs s' = k_procs s.
Proof.
  unfold kalloc, acquire, release, ld64, upd_mem, bind. destruct (decide _); [discriminate|]. cbn. destruct (negb _); cbn; destruct (decide _); cbn; try discriminate;
    intros [= _ <-]; done.
Qed.

Definition vdisk0 : vdisk_t := k_vdisk (boot ∅).

Lemma init_vinv R s regs s' : virtio_disk_init R s = Ok regs s' -> k_vdisk s = vdisk0 -> length (k_procs s) = Z.to_nat NPROC ->
  vinv [] ∅ [] [] [] s'.
Proof.
  intros E Ev Hl. assert (k_vdisk s' = with_v_free (replicate 8 true) vdisk0 /\ k_procs s' = k_procs s) as [Ev' Ep].
  { revert E. unfold virtio_disk_init. do 5 (destruct (_ : bool); [discriminate|]). unfold bind.
    destruct (kalloc s) as [a1 s1| | |] eqn:E1; cbn [rbind]; try discriminate. destruct (kalloc s1) as [a2 s2| | |] eqn:E2; cbn [rbind]; try discriminate.
    destruct (kalloc s2) as [a3 s3| | |] eqn:E3; cbn [rbind]; try discriminate. destruct (_ : bool); [discriminate|]. intros [= _ <-].
    apply kalloc_keeps in E1 as [V1 P1], E2 as [V2 P2], E3 as [V3 P3]. cbn. rewrite V3, V2, V1, Ev, P3, P2, P1. done. }
  assert (forall ring, length ring = 8%nat -> window ring 0 0 []) as Hw by (intros ring _; split; [lia|reflexivity|cbn; rewrite num_eq; lia|done]).
  split; rewrite ?Ev', ?Ep; cbn.
  - done.
  - by apply Hw.
  - by apply Hw.
  - constructor.
  - set_solver.
  - set_solver.
  - set_solver.
  - split; [constructor|]. split; [constructor|]. set_solver.
  - intros x Hx. rewrite num_eq in Hx. assert (x = 0 \/ x = 1 \/ x = 2 \/ x = 3 \/ x = 4 \/ x = 5 \/ x = 6 \/ x = 7) as Hx' by lia.
    split; [set_solver|intros _; by destruct_or! Hx'; subst x].
  - exact Hl.
  - set_solver.
Qed.

(** C6: From virtio_disk_init() on, whatever the processes, the device and the
    interrupts do in whatever order, the driver is [sound]: a call of
    virtio_disk_rw(), at its start and each time that it is woken up, does not
    panic and does not run out of the wakeups it has fuel for, and returns with the
    buffer and the block equal and with no lock, for a write with the caller's
    data; the device can serve every chain it has taken; virtio_disk_intr()
    returns; when all calls have returned, all the descriptors are free; and a
    process asleep on a buffer has its request in the avail ring, in the device
    or in the used ring, so that its wakeup is still to come. *)
Theorem disk_requests_sound `{Waits} R s0 regs s1 sy : k_vdisk s0 = vdisk0 -> length (k_procs s0) = Z.to_nat NPROC ->
  virtio_disk_init R s0 = Ok regs s1 -> rtc dstep (mkDsys s1 [] (fun _ => Idle)) sy -> sound sy.
Proof.
  intros Ev Hl Ei Hr. enough (exists K C, sys_inv K C sy) as (K & C & Hsy) by by apply (sys_inv_sound K C). revert sy Hr. apply rtc_ind_r.
  - exists ∅, ∅. split; [exists [], []; split; [by apply (init_vinv R s0 regs)|by split]|]. intros i. done.
  - intros sy1 sy2 _ Hs IH. by apply (dstep_inv sy1).
Qed.

(** Three free pages for the rings, and a device that is found. *)
Definition disk_boot : kernel :=
  with_k_freelist pg0 (with_k_mem (store64 (store64 (store64 ∅ pg0 (pg0 + PGSIZE)) (pg0 + PGSIZE) (pg0 + 2 * PGSIZE)) (pg0 + 2 * PGSIZE) 0) (boot ∅)).
Definition qemu_regs (a : Z) : Z :=
  if a =? 0 then 1953655158 else if a =? 4 then 2 else if a =? 8 then 2 else if a =? 12 then 1431127377 else if a =? 112 then 11 else
  if a =? 52 then 1024 else 0.

Definition booted : kernel := match virtio_disk_init qemu_regs disk_boot with Ok _ s => s | _ => disk_boot end.
Definition reading : kernel := match @run_rw 2%nat 0 0 false booted with Swtch s _ => s | _ => booted end.

Lemma booted_ok : exists regs, virtio_disk_init qemu_regs disk_boot = Ok regs booted.
Proof.
  assert (match virtio_disk_init qemu_regs disk_boot with Ok _ _ => true | _ => false end = true) as E by (vm_compute; reflexivity).
  unfold booted. destruct (virtio_disk_init qemu_regs disk_boot) as [regs s| | |]; try discriminate E. by exists regs.
Qed.

Lemma reading_ok : exists k, @run_rw 2%nat 0 0 false booted = Swtch reading k.
Proof.
  assert (match @run_rw 2%nat 0 0 false booted with Swtch _ _ => true | _ => false end = true) as E by (vm_compute; reflexivity).
  unfold reading. destruct (@run_rw 2%nat 0 0 false booted) as [u s| |s k|]; try discriminate E. by exists k.
Qed.

Lemma reading_take : exists s, dev_take reading = Some (0, s).
Proof.
  assert (option_map fst (dev_take reading) = Some 0) as E by (vm_compute; reflexivity). destruct (dev_take reading) as [[h s]|]; [|discriminate E].
  injection E as ->. by exists s.
Qed.

(** A read that has been handed to the device. *)
Lemma disk_requests_sound_witness : exists sy, rtc (@dstep 2%nat) (mkDsys booted [] (fun _ => Idle)) sy /\ ds_taken sy = [0] /\ @sound 2%nat sy.
Proof.
  destruct booted_ok as [regs E1], reading_ok as [k E2], reading_take as [s3 E3].
  assert (may_start (mkDsys booted [] (fun _ => Idle)) 0 0) as Hm.
  { split; [vm_compute; lia|reflexivity| |vm_compute; lia|vm_compute; split; congruence|discriminate].
    intros p Hp. assert (forallb (fun p => negb (bool_decide (p_state p = SLEEPING))) (k_procs booted) = true) as Hs by (vm_compute; reflexivity).
    rewrite forallb_forall in Hs. specialize (Hs p (proj1 (list_elem_of_In _ _) (list_elem_of_lookup_2 _ _ _ Hp))). by destruct (bool_decide_reflect (p_state p = SLEEPING)). }
  exists (mkDsys s3 [0] (<[0%nat := Busy (claim_for booted 0 false) 0 k]> (fun _ => Idle))).
  match goal with |- ?A /\ _ => assert A as Hr end.
  { eapply rtc_l; [exact (D_start 0 0 false booted reading k [] (fun _ => Idle) Hm E2)|]. eapply rtc_l; [by apply D_take|]. apply rtc_refl. }
  split; [exact Hr|]. split; [reflexivity|]. by apply (@disk_requests_sound 2%nat qemu_regs disk_boot regs booted).
Defined.
