(* ===== verification/Trap.v ===== *)
(** * trap.c, plic.c, forkret of proc.c and syscall() of syscall.c.

    The supervisor registers are [k_csr].  [intr_on] and [intr_off] change the
    SIE bit; the interrupt masking that goes with spinlocks is in Spinlock.v.
    usertrapret() leaves the kernel: its answer is the satp it passes to userret
    in trampoline.S. *)

From S2P Require Import Prelude Exec Params State Mem Kalloc Vm Sched Sleeplock Bio Log Uart Printf Console Fs Pipe File Proc KExec Syscall Sysproc Sysfile Virtio.

Definition SSTATUS_SPP : Z := 256.
Definition SSTATUS_SPIE : Z := 32.
Definition SSTATUS_SIE : Z := 2.
Definition MAKE_SATP (pagetable : Z) : Z := Z.lor (Z.shiftl 8 60) (Z.shiftr pagetable 12).

Definition csr : KM csr_t := gets (fun s => k_csr s).
Definition upd_csr (f : csr_t -> csr_t) : KM unit := modify (fun s => with_k_csr (f (k_csr s)) s).
Definition intr_on : KM unit := upd_csr (fun c => with_r_sstatus (Z.lor (r_sstatus c) SSTATUS_SIE) c).
Definition intr_off : KM unit := upd_csr (fun c => with_r_sstatus (Z.land (r_sstatus c) (Z.lnot SSTATUS_SIE)) c).

(** ** plic.c *)

Definition PLIC_SENABLE (hart : Z) : Z := PLIC + 8320 + hart * 256.
Definition PLIC_SPRIORITY (hart : Z) : Z := PLIC + 2101248 + hart * 8192.
Definition PLIC_SCLAIM (hart : Z) : Z := PLIC + 2101252 + hart * 8192.

Definition plicinit : KM unit :=
  upd_mem (fun m => store32 m (PLIC + UART0_IRQ * 4) 1) ;;;
  upd_mem (fun m => store32 m (PLIC + VIRTIO0_IRQ * 4) 1).

Definition plicinithart : KM unit :=
  c <- csr ;;
  upd_mem (fun m => store32 m (PLIC_SENABLE (r_tp c)) (Z.lor (Z.shiftl 1 UART0_IRQ) (Z.shiftl 1 VIRTIO0_IRQ))) ;;;
  upd_mem (fun m => store32 m (PLIC_SPRIORITY (r_tp c)) 0).

(** Reading the claim register takes the next waiting interrupt, 0 if none. *)
Definition plic_claim : KM Z :=
  c <- csr ;;
  upd_csr (with_r_irqs (tail (r_irqs c))) ;;;
  ret (hd 0 (r_irqs c)).

Definition plic_complete (irq : Z) : KM unit := upd_csr (fun c => with_r_served (r_served c ++ [irq]) c).

Section trap.
Context `{LinkerOk} `{Disk} `{Waits} `{Frame}.

(** ** syscall() *)

(** The table [syscalls], from SYS_fork = 1 to SYS_close = 21. *)
Definition syscalls : list (KM Z) :=
  [sys_fork; sys_exit; sys_wait; sys_pipe; sys_read; sys_kill; sys_exec; sys_fstat; sys_chdir; sys_dup; sys_getpid;
   sys_sbrk; sys_sleep; sys_uptime; sys_open; sys_write; sys_mknod; sys_unlink; sys_link; sys_mkdir; sys_close].

Definition syscall : KM unit :=
  i <- curproc ;;
  p <- proc_at i ;;
  tf <- tf_at (p_trapframe p) ;;
  let num := i32 (zget (tf_regs tf) R_a7) in
  match (if 0 <? num then syscalls !! Z.to_nat (num - 1) else None) with
  | Some call =>
      r <- call ;;
      p <- proc_at i ;;
      upd_tf (p_trapframe p) (set_reg R_a0 r)
  | None =>
      printf (str "%d %s: unknown sys call %d" ++ newline) [Aword (p_pid p); Astr (Some (cstr (p_name p))); Aword num] ;;;
      upd_tf (p_trapframe p) (set_reg R_a0 (u64 (-1)))
  end.

(** ** trap.c *)

Definition trapinithart : KM unit := upd_csr (with_r_stvec kernelvec).

Definition clockintr : KM unit :=
  acquire Lticks ;;;
  modify (fun s => with_k_ticks (u32 (k_ticks s + 1)) s) ;;;
  wakeup Cticks ;;;
  release Lticks.

Definition devintr : KM Z :=
  c <- csr ;;
  let scause := r_scause c in
  if negb (Z.land scause (2 ^ 63) =? 0) && (Z.land scause 255 =? 9) then
    irq <- plic_claim ;;
    (if irq =? UART0_IRQ then uartintr
     else if irq =? VIRTIO0_IRQ then virtio_disk_intr
     else if negb (irq =? 0) then printf (str "unexpected interrupt irq=%d" ++ newline) [Aword irq]
     else ret tt) ;;;
    when (negb (irq =? 0)) (plic_complete irq) ;;;
    ret 1
  else if scause =? 2 ^ 63 + 1 then
    when (r_tp c =? 0) clockintr ;;;
    upd_csr (fun c => with_r_sip (Z.land (r_sip c) (Z.lnot 2)) c) ;;;
    ret 2
  else ret 0.

Definition usertrapret : KM Z :=
  i <- curproc ;;
  intr_off ;;;
  upd_csr (with_r_stvec TRAMPOLINE) ;;;
  p <- proc_at i ;;
  c <- csr ;;
  upd_tf (p_trapframe p) (with_tf_kernel_satp (r_satp c)) ;;;
  upd_tf (p_trapframe p) (with_tf_kernel_sp (u64 (p_kstack p + PGSIZE))) ;;;
  upd_tf (p_trapframe p) (with_tf_kernel_trap usertrap_addr) ;;;
  upd_tf (p_trapframe p) (with_tf_kernel_hartid (r_tp c)) ;;;
  upd_csr (fun c => with_r_sstatus (Z.lor (Z.land (r_sstatus c) (Z.lnot SSTATUS_SPP)) SSTATUS_SPIE) c) ;;;
  tf <- tf_at (p_trapframe p) ;;
  upd_csr (with_r_sepc (tf_epc tf)) ;;;
  ret (MAKE_SATP (p_pagetable p)).

Definition usertrap : KM Z :=
  c <- csr ;;
  if negb (Z.land (r_sstatus c) SSTATUS_SPP =? 0) then panic "usertrap: not from user mode" else
  upd_csr (with_r_stvec kernelvec) ;;;
  i <- curproc ;;
  p <- proc_at i ;;
  upd_tf (p_trapframe p) (with_tf_epc (r_sepc c)) ;;;
  which_dev <-
    (if r_scause c =? 8 then
       k <- killed i ;;
       when k (exit (-1)) ;;;
       upd_tf (p_trapframe p) (fun tf => with_tf_epc (u64 (tf_epc tf + 4)) tf) ;;;
       intr_on ;;;
       syscall ;;;
       ret 0
     else
       d <- devintr ;;
       if negb (d =? 0) then ret d else
       printf (str "usertrap(): unexpected scause %p pid=%d" ++ newline) [Aword (r_scause c); Aword (p_pid p)] ;;;
       printf (str "            sepc=%p stval=%p" ++ newline) [Aword (r_sepc c); Aword (r_stval c)] ;;;
       setkilled i ;;;
       ret 0) ;;
  k <- killed i ;;
  when k (exit (-1)) ;;;
  when (which_dev =? 2) yield ;;;
  usertrapret.

Definition kerneltrap : KM unit :=
  c <- csr ;;
  if Z.land (r_sstatus c) SSTATUS_SPP =? 0 then panic "kerneltrap: not from supervisor mode" else
  if negb (Z.land (r_sstatus c) SSTATUS_SIE =? 0) then panic "kerneltrap: interrupts enabled" else
  which_dev <- devintr ;;
  if which_dev =? 0 then
    printf (str "scause %p" ++ newline) [Aword (r_scause c)] ;;;
    printf (str "sepc=%p stval=%p" ++ newline) [Aword (r_sepc c); Aword (r_stval c)] ;;;
    panic "kerneltrap"
  else
  cur <- myproc ;;
  running <- (match cur with
              | Some i => p <- proc_at i ;; ret (bool_decide (p_state p = RUNNING))
              | None => ret false
              end) ;;
  when ((which_dev =? 2) && running) yield ;;;
  upd_csr (with_r_sepc (r_sepc c)) ;;;
  upd_csr (with_r_sstatus (r_sstatus c)).

(** ** forkret of proc.c *)

Definition forkret : KM Z :=
  i <- curproc ;;
  release (Lproc i) ;;;
  first <- gets (fun s => k_first s) ;;
  when first
    (modify (with_k_first false) ;;;
     fsinit ROOTDEV) ;;;
  usertrapret.
End trap.
