(* ===== verification/Main.v ===== *)
(** * main.c and the kernel page table of vm.c: starting the kernel. *)

From S2P Require Import Prelude Exec Params State Mem Kalloc Vm Sched Sleeplock Bio Log Uart Printf Console Fs Pipe File Proc Virtio Trap.

Section main.
Context `{LinkerOk} `{Disk} `{Waits} `{Frame}.

Definition kvmmake : KM Z :=
  kpgtbl <- kalloc ;;
  upd_mem (fun m => memset m kpgtbl 0 PGSIZE) ;;;
  kvmmap kpgtbl UART0 UART0 PGSIZE (Z.lor PTE_R PTE_W) ;;;
  kvmmap kpgtbl VIRTIO0 VIRTIO0 PGSIZE (Z.lor PTE_R PTE_W) ;;;
  kvmmap kpgtbl PLIC PLIC 4194304 (Z.lor PTE_R PTE_W) ;;;
  kvmmap kpgtbl KERNBASE KERNBASE (etext - KERNBASE) (Z.lor PTE_R PTE_X) ;;;
  kvmmap kpgtbl etext etext (PHYSTOP - etext) (Z.lor PTE_R PTE_W) ;;;
  kvmmap kpgtbl TRAMPOLINE trampoline PGSIZE (Z.lor PTE_R PTE_X) ;;;
  proc_mapstacks kpgtbl ;;;
  ret kpgtbl.

Definition kvminit : KM unit := kpgtbl <- kvmmake ;; modify (with_k_kpgtbl kpgtbl).

Definition kvminithart : KM unit :=
  kpgtbl <- gets (fun s => k_kpgtbl s) ;;
  upd_csr (with_r_satp (MAKE_SATP kpgtbl)).

(** The first hart, up to the call of scheduler(); [R] are the disk's registers. *)
Definition main (R : Z -> Z) : KM unit :=
  consoleinit ;;;
  printfinit ;;;
  printf newline [] ;;;
  printf (str "xv6 kernel is booting" ++ newline) [] ;;;
  printf newline [] ;;;
  kinit ;;;
  kvminit ;;;
  kvminithart ;;;
  procinit ;;;
  trapinithart ;;;
  plicinit ;;;
  plicinithart ;;;
  binit ;;;
  iinit ;;;
  virtio_disk_init R ;;;
  userinit.
End main.
