(* ===== verification/Safe.v ===== *)
(** * What kernel code may do between two context switches.

    A judgement for code of one process: from a state in which this CPU holds the
    spinlocks [L] the code returns with the locks [R] of its answer, never takes
    a lock twice or gives up one it does not hold, and every stretch of it between
    two context switches changes the state by a relation [W].  The rules follow
    the syntax of the code, so that a proof for a C function is a walk over its
    body ([ok_auto]). *)

From S2P Require Import Prelude Exec Params State Mem Kalloc Sched.

(** ** What leaves the file descriptors alone *)

(** A process that has exited, or a free slot. *)
Definition dead (p : proc) : Prop := p_state p = UNUSED \/ p_state p = ZOMBIE.
#[export] Instance dead_dec p : Decision (dead p).
Proof. unfold dead. apply _. Defined.

Definition file_view (f : file) : Z * ftype := (f_ref f, f_type f).

(** The step keeps the file table's counts and types and the descriptors, and no
    process dies in it. *)
Record fd_frame (s s' : kernel) : Prop := {
  ff_files : file_view <$> k_ftable s' = file_view <$> k_ftable s;
  ff_rows : p_ofile <$> k_procs s' = p_ofile <$> k_procs s;
  ff_dead : forall j p', k_procs s' !! j = Some p' -> dead p' -> exists p, k_procs s !! j = Some p /\ dead p;
}.

#[export] Instance fd_frame_preorder : PreOrder fd_frame.
Proof.
  split; [intros s; split; eauto|]. intros s1 s2 s3 [F1 R1 D1] [F2 R2 D2]. split; [congruence..|].
  intros j p3 Hp3 Hd. destruct (D2 j p3 Hp3 Hd) as (p2 & Hp2 & Hd2). eauto.
Qed.

Lemma frame_upd_proc s j f : (forall p, p_ofile (f p) = p_ofile p) -> (forall p, dead (f p) -> dead p) ->
  fd_frame s (with_k_procs (alter f j (k_procs s)) s).
Proof.
  intros Hr Hd. split; cbn; [done| |].
  - apply list_eq. intros k. rewrite !list_lookup_fmap. destruct (decide (j = k)) as [->|Hk];
      [rewrite list_lookup_alter_eq|by rewrite list_lookup_alter_ne]. destruct (k_procs s !! k); cbn; [|done]. by rewrite Hr.
  - intros k p'. destruct (decide (j = k)) as [->|Hk]; [rewrite list_lookup_alter_eq|rewrite list_lookup_alter_ne by done; eauto].
    destruct (k_procs s !! k) as [p|]; cbn; [|done]. intros [= <-] Hp. eauto.
Qed.

(** The panics of a misused spinlock, and of a descriptor without an open file. *)
Definition lock_panic (msg : string) : bool := bool_decide (msg ∈ ["acquire"; "release"; "sched p->lock"]).
Definition file_panic (msg : string) : bool := bool_decide (msg ∈ ["filedup"; "fileclose"; "fileread"; "filewrite"]).

(** What code may do: a relation that allows at least that, whether it may give up
    the CPU, and the panics it must not reach. *)
Record cover := mkCover {
  cover_rel :> kernel -> kernel -> Prop;
  cover_pre : PreOrder cover_rel;
  cover_frame : forall s s', fd_frame s s' -> cover_rel s s';
  may_swtch : bool;
  no_panic : string -> bool;
  no_panic_bad : forall msg, lock_panic msg || file_panic msg = false -> no_panic msg = false;
}.
#[export] Existing Instance cover_pre.
Definition fd_cover (sw : bool) : cover := mkCover fd_frame _ (fun _ _ h => h) sw (fun msg => lock_panic msg || file_panic msg) (fun _ h => h).
#[export] Instance any_preorder : PreOrder (fun _ _ : kernel => True).
Proof. split; [by intros ?|by intros ? ? ?]. Qed.
Definition any_cover : cover := mkCover (fun _ _ => True) _ (fun _ _ _ => I) true lock_panic (fun _ h => proj1 (orb_false_elim _ _ h)).

(** ** The judgement *)

Section safe.
Context (W : cover) (i : nat).

(** [s0] is the state in which this stretch began.  A thread gives up the CPU
    with the lock of its process alone, and comes back with it. *)
Fixpoint safe {A} (R : A -> list lockid) (s0 : kernel) (r : res kernel A) : Prop :=
  match r with
  | Ok a s => W s0 s /\ k_cur s = Some i /\ k_held s = R a
  | Panic msg => no_panic W msg = false
  | Swtch s k => (may_swtch W = true /\ W s0 s /\ k_cur s = Some i /\ k_held s = [Lproc i]) /\
                 forall s', k_cur s' = Some i -> k_held s' = [Lproc i] -> safe R s' (k s')
  | NoFuel => True
  end.

Definition ok {A} (L : list lockid) (m : KM A) (R : A -> list lockid) : Prop :=
  forall s, k_cur s = Some i -> k_held s = L -> safe R s (m s).

Lemma safe_from {A} (R : A -> list lockid) s0 s r : W s0 s -> safe R s r -> safe R s0 r.
Proof.
  intros H01. destruct r as [a s'|msg|s' k|]; cbn [safe]; [| tauto| |tauto].
  - intros (H1 & H2). split; [by transitivity s|exact H2].
  - intros ((H0 & H1 & H2) & H3). split; [split; [exact H0|split; [by transitivity s|exact H2]]|exact H3].
Qed.

Lemma ok_bind {A B} L (m : KM A) (f : A -> KM B) R R' :
  ok L m R' -> (forall a, ok (R' a) (f a) R) -> ok L (bind m f) R.
Proof.
  intros Hm Hf s Hc Hl. unfold bind. specialize (Hm s Hc Hl). revert Hm. generalize s at 1 3 as s0. generalize (m s) as r. clear s Hc Hl.
  fix IH 1. intros [a s|msg|s k|] s0; cbn [safe rbind].
  - intros (H1 & H2 & H3). exact (safe_from R s0 s _ H1 (Hf a s H2 H3)).
  - exact (fun h => h).
  - intros (H1 & H3). split; [exact H1|]. intros s' Hc' Hl'. exact (IH (k s') s' (H3 s' Hc' Hl')).
  - exact (fun h => h).
Qed.

Lemma ok_mono {A} L (m : KM A) R R' : ok L m R' -> (forall a, R' a = R a) -> ok L m R.
Proof.
  intros Hm HR s Hc Hl. specialize (Hm s Hc Hl). revert Hm. generalize s at 1 3 as s0. generalize (m s) as r. clear s Hc Hl.
  fix IH 1. intros [a s|msg|s k|] s0; cbn [safe].
  - rewrite HR. exact (fun h => h).
  - exact (fun h => h).
  - intros (H1 & H3). split; [exact H1|]. intros s' Hc' Hl'. exact (IH (k s') s' (H3 s' Hc' Hl')).
  - exact (fun h => h).
Qed.

Lemma ok_ret {A} L (a : A) : ok L (ret a) (fun _ => L).
Proof. intros s Hc Hl. cbn. split; [reflexivity|by split]. Qed.
Lemma ok_ret' {A} L (a : A) R : R a = L -> ok L (ret a) R.
Proof. intros Ha s Hc Hl. cbn. split; [reflexivity|]. by rewrite Ha. Qed.
Lemma ok_panic {A} L msg (R : A -> list lockid) : no_panic W msg = false -> ok L (panic msg) R.
Proof. intros Hm s _ _. exact Hm. Qed.
Lemma ok_nofuel {A} L (R : A -> list lockid) : ok L (fun _ => NoFuel) R.
Proof. intros s _ _. exact I. Qed.
Lemma ok_gets {A} L (f : kernel -> A) : ok L (gets f) (fun _ => L).
Proof. intros s Hc Hl. cbn. split; [reflexivity|by split]. Qed.

Lemma ok_modify L f : (forall s, k_cur (f s) = k_cur s) -> (forall s, k_held (f s) = k_held s) -> (forall s, W s (f s)) ->
  ok L (modify f) (fun _ => L).
Proof. intros Hc Hl HW s Hs Hh. cbn. rewrite Hc, Hl. by split. Qed.

Lemma ok_curproc {B} L (f : nat -> KM B) R : ok L (f i) R -> ok L (bind curproc f) R.
Proof. intros Hf s Hc Hl. unfold bind, curproc. rewrite Hc. cbn. by apply Hf. Qed.
Lemma ok_myproc {B} L (f : option nat -> KM B) R : ok L (f (Some i)) R -> ok L (bind myproc f) R.
Proof. intros Hf s Hc Hl. unfold bind, myproc, gets. cbn. rewrite Hc. by apply Hf. Qed.

(** ** Locks *)

(** [L'] is [L] without the lock [l], which was in it once. *)
Definition drops (l : lockid) (L L' : list lockid) : Prop := l ∈ L /\ filter (fun l' => l' <> l) L = L'.

Lemma drops_here l L : l ∉ L -> drops l (l :: L) L.
Proof.
  intros Hl. split; [left|]. rewrite filter_cons_False by auto. induction L as [|l' L IH]; [done|].
  apply not_elem_of_cons in Hl as [H1 H2]. by rewrite filter_cons_True, IH.
Qed.
Lemma drops_later l l' L L' : l' <> l -> drops l L L' -> drops l (l' :: L) (l' :: L').
Proof. intros Hl [H1 <-]. split; [by right|]. by rewrite filter_cons_True. Qed.

Lemma ok_acquire L l : l ∉ L -> ok L (acquire l) (fun _ => l :: L).
Proof.
  intros Hl s Hc Hs. unfold acquire. rewrite Hs, decide_False by exact Hl. cbn. split; [|by split].
  apply cover_frame. by split; eauto.
Qed.
Lemma ok_release L l L' : drops l L L' -> ok L (release l) (fun _ => L').
Proof.
  intros [Hl HL] s Hc Hs. unfold release. rewrite Hs, decide_True by exact Hl. cbn. split; [|by split].
  apply cover_frame. by split; eauto.
Qed.

(** sched() panics itself if the thread has another lock. *)
Lemma ok_sched L : may_swtch W = true -> Lproc i ∈ L -> ok L sched (fun _ => L).
Proof.
  intros Hsw Hin. unfold sched. apply ok_curproc. intros s Hc Hs. unfold bind, holding, gets. cbn [rbind]. rewrite Hs, bool_decide_true by exact Hin.
  cbn [negb]. unfold bind, gets. cbn [rbind]. rewrite Hs. destruct (Nat.eqb_spec (length L) 1) as [E|E]; cbn [negb]; [|by apply no_panic_bad].
  assert (L = [Lproc i]) as ->.
  { destruct L as [|l [|l' L]]; [done| |done]. apply elem_of_cons in Hin as [->|[]%elem_of_nil]. done. }
  unfold proc_at, bind, gets. cbn [rbind]. destruct (decide _); [by apply no_panic_bad|]. cbn. split; [split; [exact Hsw|split; [reflexivity|by split]]|].
  intros s' Hc' Hs'. split; [reflexivity|by split].
Qed.

(** ** Loops *)

Lemma ok_loop {A B} L fuel (body : A -> KM (A + B)) (a : A) R :
  (forall a, ok L (body a) (fun r => match r with inl _ => L | inr b => R b end)) -> ok L (loop fuel body a) R.
Proof.
  intros Hb. revert a. induction fuel as [|fuel IH]; intros a; cbn [loop]; [apply ok_nofuel|].
  eapply ok_bind; [apply Hb|]. intros [a'|b]; cbn beta iota; [apply IH|]. by apply ok_ret'.
Qed.
Lemma ok_forM {A} L (l : list A) f : (forall x, ok L (f x) (fun _ => L)) -> ok L (forM l f) (fun _ => L).
Proof.
  intros Hf. induction l as [|x l IH]; cbn [forM]; [apply ok_ret|]. eapply ok_bind; [apply Hf|]. intros x0. exact IH.
Qed.
Lemma ok_findM {A B} L (l : list A) (f : A -> KM (option B)) R :
  (forall x, ok L (f x) (fun o => match o with None => L | Some b => R b end)) ->
  ok L (findM l f) (fun o => match o with None => L | Some b => R b end).
Proof.
  intros Hf. induction l as [|x l IH]; cbn [findM]; [by apply ok_ret'|]. eapply ok_bind; [apply Hf|].
  intros [b|]; cbn beta iota; [by apply ok_ret'|exact IH].
Qed.
(** The same, when every way out has the locks of the way in. *)
Lemma ok_loop_same {A B} L fuel (body : A -> KM (A + B)) (a : A) :
  (forall a, ok L (body a) (fun _ => L)) -> ok L (loop fuel body a) (fun _ => L).
Proof. intros Hb. apply ok_loop. intros a'. eapply ok_mono; [apply Hb|]. by intros [?|?]. Qed.
Lemma ok_findM_same {A B} L (l : list A) (f : A -> KM (option B)) :
  (forall x, ok L (f x) (fun _ => L)) -> ok L (findM l f) (fun _ => L).
Proof.
  intros Hf. eapply ok_mono; [apply (ok_findM L l f (fun _ => L))|]; [|by intros [?|]].
  intros x. eapply ok_mono; [apply Hf|]. by intros [?|].
Qed.
Lemma ok_when L (b : bool) m : (b = true -> ok L m (fun _ => L)) -> ok L (when b m) (fun _ => L).
Proof. intros Hm. destruct b; cbn [when]; [by apply Hm|apply ok_ret]. Qed.

(** ** Updates that keep the descriptors *)

Lemma ok_upd_proc L j f : (forall p, p_ofile (f p) = p_ofile p) -> (forall p, dead (f p) -> dead p) ->
  ok L (upd_proc j f) (fun _ => L).
Proof. intros Hr Hd. apply ok_modify; [done..|]. intros s. by apply cover_frame, frame_upd_proc. Qed.
End safe.

(** ** Automation *)

(** A lock that is not held. *)
Ltac unheld :=
  solve [assumption | auto | intros; assumption | intros; auto | apply not_elem_of_nil |
         intros; repeat (apply not_elem_of_cons; split; [first [congruence | solve [auto]]|]);
         first [apply not_elem_of_nil | solve [auto]]].
Ltac drop_lock := repeat (apply drops_later; [congruence|]); apply drops_here; unheld.

Create HintDb ok discriminated.
#[export] Hint Constants Opaque : ok.
#[export] Hint Resolve ok_sched : ok.
#[export] Hint Extern 1 (may_swtch _ = true) => first [assumption | reflexivity] : ok.
#[export] Hint Extern 1 (_ ∈ _ :: _) => left : ok.
#[export] Hint Extern 1 (_ ∉ _) => unheld : ok.
#[export] Hint Extern 1 (forall _, _ ∉ _) => unheld : ok.

Ltac ok_frame := intros; first [exact I | apply cover_frame; split; cbn; [done|done|eauto]].

Ltac ok_step :=
  lazymatch goal with
  | |- ok _ _ _ (bind curproc _) _ => apply ok_curproc; cbn beta
  | |- ok _ _ _ (bind myproc _) _ => apply ok_myproc; cbn beta
  | |- ok _ _ _ (bind _ _) _ => eapply ok_bind; [|intros ?; cbn beta iota]
  | |- ok _ _ _ (ret _) _ => first [apply ok_ret | apply ok_ret'; reflexivity]
  | |- ok _ _ _ (panic _) _ => apply ok_panic; first [reflexivity | apply no_panic_bad; reflexivity]
  | |- ok _ _ _ (fun _ => NoFuel) _ => apply ok_nofuel
  | |- ok _ _ _ (gets _) _ => apply ok_gets
  | |- ok _ _ _ (modify _) _ => first [apply ok_modify; [done|done|ok_frame] | solve [eauto with ok]]
  | |- ok _ _ _ (acquire _) _ => apply ok_acquire; unheld
  | |- ok _ _ _ (release _) _ => eapply ok_release; drop_lock
  | |- ok _ _ _ (forM _ _) _ => apply ok_forM; intros ?
  | |- ok _ _ _ (when _ _) _ => apply ok_when; intros ?
  | |- ok _ _ _ (upd_proc _ _) _ =>
      first [apply ok_upd_proc; [done|first [exact (fun _ h => h) | by intros ? [|]]] |
             apply ok_modify; [done|done|exact (fun _ => I)]]
  | |- ok _ _ _ (match ?x with _ => _ end) _ => destruct x eqn:?
  | |- ok _ _ _ (loop _ _ _) _ => first [apply ok_loop_same | apply ok_loop]; intros ?; cbn beta
  | |- ok _ _ _ (findM _ _) _ => first [apply ok_findM_same | apply ok_findM]; intros ?; cbn beta
  | |- _ => solve [eauto with ok]
  end.
Ltac ok_auto := repeat ok_step.

(** The walk over the body of a function. *)
Tactic Notation "ok_fun" reference(f) := intros; unfold f; cbv zeta; ok_auto.
