(* ===== verification/SafeKernel.v ===== *)
(** * The spinlocks of every kernel function.

    For each function that a trap handler can reach, the judgement of Safe.v: which
    locks it is entered and left with, for every relation that allows what keeps
    the descriptors.  The functions that change descriptors, reference counts or
    the life of a process come last, with a relation that allows everything. *)

From S2P Require Import Prelude Exec Params State Mem Kalloc Vm Sched Sleeplock Bio Log Uart Printf Console Fs Pipe File Proc KExec Syscall Sysproc Sysfile Virtio Trap Safe.

Section memory.
Context (W : cover) (i : nat) `{LinkerOk}.

Lemma proc_at_ok L j : ok W i L (proc_at j) (fun _ => L).
Proof. apply ok_gets. Qed.
Lemma ld64_ok L a : ok W i L (ld64 a) (fun _ => L).
Proof. apply ok_gets. Qed.
Lemma upd_mem_ok L f : ok W i L (upd_mem f) (fun _ => L).
Proof. ok_fun upd_mem. Qed.
Lemma st64_ok L a v : ok W i L (st64 a v) (fun _ => L).
Proof. apply upd_mem_ok. Qed.
#[local] Hint Resolve proc_at_ok ld64_ok upd_mem_ok st64_ok : ok.

Lemma kalloc_ok L : Lkmem ∉ L -> ok W i L kalloc (fun _ => L).
Proof. ok_fun kalloc. Qed.
Lemma kfree_ok L pa : Lkmem ∉ L -> ok W i L (kfree pa) (fun _ => L).
Proof. ok_fun kfree. Qed.
#[local] Hint Resolve kalloc_ok kfree_ok : ok.

Lemma walk_ok L pt va alloc : Lkmem ∉ L -> ok W i L (walk pt va alloc) (fun _ => L).
Proof. ok_fun walk. Qed.
#[local] Hint Resolve walk_ok : ok.
Lemma walkaddr_ok L pt va : Lkmem ∉ L -> ok W i L (walkaddr pt va) (fun _ => L).
Proof. ok_fun walkaddr. Qed.
Lemma mappages_ok L pt va size pa perm : Lkmem ∉ L -> ok W i L (mappages pt va size pa perm) (fun _ => L).
Proof. ok_fun mappages. Qed.
Lemma uvmunmap_ok L pt va n f : Lkmem ∉ L -> ok W i L (uvmunmap pt va n f) (fun _ => L).
Proof. ok_fun uvmunmap. Qed.
#[local] Hint Resolve walkaddr_ok mappages_ok uvmunmap_ok : ok.
Lemma uvmcreate_ok L : Lkmem ∉ L -> ok W i L uvmcreate (fun _ => L).
Proof. ok_fun uvmcreate. Qed.
Lemma uvmdealloc_ok L pt o n : Lkmem ∉ L -> ok W i L (uvmdealloc pt o n) (fun _ => L).
Proof. ok_fun uvmdealloc. Qed.
#[local] Hint Resolve uvmdealloc_ok : ok.
Lemma uvmalloc_ok L pt o n x : Lkmem ∉ L -> ok W i L (uvmalloc pt o n x) (fun _ => L).
Proof. ok_fun uvmalloc. Qed.
Lemma freewalk_ok L d pt : Lkmem ∉ L -> ok W i L (freewalk d pt) (fun _ => L).
Proof. intros HL. revert pt. induction d as [|d IH]; intros pt; cbn [freewalk]; ok_auto. Qed.
#[local] Hint Resolve freewalk_ok : ok.
Lemma uvmfree_ok L pt sz : Lkmem ∉ L -> ok W i L (uvmfree pt sz) (fun _ => L).
Proof. ok_fun uvmfree. Qed.
Lemma uvmcopy_ok L o n sz : Lkmem ∉ L -> ok W i L (uvmcopy o n sz) (fun _ => L).
Proof. ok_fun uvmcopy. Qed.
Lemma uvmclear_ok L pt va : Lkmem ∉ L -> ok W i L (uvmclear pt va) (fun _ => L).
Proof. ok_fun uvmclear. Qed.
Lemma copyout_ok L pt va src : Lkmem ∉ L -> ok W i L (copyout pt va src) (fun _ => L).
Proof. ok_fun copyout. Qed.
Lemma copyin_ok L pt va n : Lkmem ∉ L -> ok W i L (copyin pt va n) (fun _ => L).
Proof. ok_fun copyin. Qed.
Lemma copyinstr_ok L pt va n : Lkmem ∉ L -> ok W i L (copyinstr pt va n) (fun _ => L).
Proof. ok_fun copyinstr. Qed.
#[local] Hint Resolve copyout_ok copyin_ok : ok.
Lemma either_copyout_ok L u dst src : Lkmem ∉ L -> ok W i L (either_copyout u dst src) (fun _ => L).
Proof. ok_fun either_copyout. Qed.
Lemma either_copyin_ok L u src n : Lkmem ∉ L -> ok W i L (either_copyin u src n) (fun _ => L).
Proof. ok_fun either_copyin. Qed.
End memory.
#[export] Hint Resolve proc_at_ok ld64_ok upd_mem_ok st64_ok kalloc_ok kfree_ok walk_ok walkaddr_ok mappages_ok uvmunmap_ok uvmcreate_ok uvmdealloc_ok
  uvmalloc_ok uvmfree_ok uvmcopy_ok uvmclear_ok copyout_ok copyin_ok copyinstr_ok either_copyout_ok either_copyin_ok : ok.

(** ** Processes and sleeping *)

Section processes.
Context (W : cover) (i : nat) (Hsw : may_swtch W = true) `{Waits}.

Lemma allocpid_ok L : Lpid ∉ L -> ok W i L allocpid (fun _ => L).
Proof. ok_fun allocpid. Qed.
Lemma yield_ok : ok W i [] yield (fun _ => []).
Proof. ok_fun yield. Qed.
Lemma sleep_ok L c lk : (forall j, Lproc j ∉ lk :: L) -> lk ∉ L -> ok W i (lk :: L) (sleep c lk) (fun _ => lk :: L).
Proof.
  intros Hp Hl. assert (lk <> Lproc i) by (intros ->; eapply Hp; left). assert (Lproc i ∉ L) by (intros Hin; eapply Hp; right; exact Hin).
  ok_fun sleep.
Qed.
Lemma wakeup_ok L c : (forall j, Lproc j ∉ L) -> ok W i L (wakeup c) (fun _ => L).
Proof. ok_fun wakeup. Qed.
Lemma kill_ok pid : ok W i [] (kill pid) (fun _ => []).
Proof. ok_fun kill. Qed.
Lemma setkilled_ok j : ok W i [] (setkilled j) (fun _ => []).
Proof. ok_fun setkilled. Qed.
Lemma killed_ok L j : (forall j, Lproc j ∉ L) -> ok W i L (killed j) (fun _ => L).
Proof. ok_fun killed. Qed.
#[local] Hint Resolve sleep_ok wakeup_ok killed_ok : ok.

Lemma sl_set_ok L id v : ok W i L (modify (sl_set id v)) (fun _ => L).
Proof. destruct id; cbn [sl_set]; ok_auto. Qed.
#[local] Hint Resolve sl_set_ok : ok.
Lemma acquiresleep_ok L id : (forall j, Lproc j ∉ L) -> Lsleep id ∉ L -> ok W i L (acquiresleep id) (fun _ => L).
Proof. ok_fun acquiresleep. Qed.
Lemma releasesleep_ok L id : (forall j, Lproc j ∉ L) -> Lsleep id ∉ L -> ok W i L (releasesleep id) (fun _ => L).
Proof. ok_fun releasesleep. Qed.
Lemma holdingsleep_ok L id : Lsleep id ∉ L -> ok W i L (holdingsleep id) (fun _ => L).
Proof. ok_fun holdingsleep. Qed.
End processes.
#[export] Hint Resolve allocpid_ok yield_ok sleep_ok wakeup_ok kill_ok setkilled_ok killed_ok sl_set_ok acquiresleep_ok releasesleep_ok holdingsleep_ok : ok.

(** ** The disk driver and the buffer cache *)

Section driver.
Context (W : cover) (i : nat) (Hsw : may_swtch W = true) `{Waits}.

Lemma upd_vdisk_ok L f : ok W i L (upd_vdisk f) (fun _ => L).
Proof. ok_fun upd_vdisk. Qed.
Lemma upd_buf_ok L b f : ok W i L (upd_buf b f) (fun _ => L).
Proof. ok_fun upd_buf. Qed.
Lemma buf_at_ok L b : ok W i L (buf_at b) (fun _ => L).
Proof. apply ok_gets. Qed.
Lemma vdisk_ok L : ok W i L vdisk (fun _ => L).
Proof. apply ok_gets. Qed.
#[local] Hint Resolve upd_vdisk_ok upd_buf_ok buf_at_ok vdisk_ok : ok.
#[local] Hint Unfold set_desc set_free upd_info : ok.
Lemma alloc_desc_ok L : ok W i L alloc_desc (fun _ => L).
Proof. ok_fun alloc_desc. Qed.
Lemma free_desc_ok L d : (forall j, Lproc j ∉ L) -> ok W i L (free_desc d) (fun _ => L).
Proof. ok_fun free_desc. Qed.
#[local] Hint Resolve alloc_desc_ok free_desc_ok : ok.
Lemma free_chain_ok L d : (forall j, Lproc j ∉ L) -> ok W i L (free_chain d) (fun _ => L).
Proof. ok_fun free_chain. Qed.
Lemma alloc3_desc_ok L : (forall j, Lproc j ∉ L) -> ok W i L alloc3_desc (fun _ => L).
Proof. ok_fun alloc3_desc. Qed.
Lemma submit_ok L b w idx : ok W i L (submit b w idx) (fun _ => L).
Proof. ok_fun submit. Qed.
#[local] Hint Resolve free_chain_ok alloc3_desc_ok submit_ok : ok.
Lemma virtio_disk_rw_ok b w : ok W i [] (virtio_disk_rw b w) (fun _ => []).
Proof. ok_fun virtio_disk_rw. Qed.
Lemma virtio_disk_intr_ok : ok W i [] virtio_disk_intr (fun _ => []).
Proof. ok_fun virtio_disk_intr. Qed.
End driver.
#[export] Hint Resolve upd_buf_ok buf_at_ok virtio_disk_intr_ok : ok.

(** What the file system needs of the disk; the driver has it. *)
Class DiskSafe `{Disk} : Prop := disk_safe : forall W i b w, may_swtch W = true -> ok W i [] (Bio.virtio_disk_rw b w) (fun _ => []).
#[export] Hint Resolve disk_safe : ok.
#[export] Instance virtio_safe `{Waits} : @DiskSafe Virtio.virtio_disk_rw := fun W i b w Hsw => virtio_disk_rw_ok W i Hsw b w.

Section cache.
Context (W : cover) (i : nat) (Hsw : may_swtch W = true) `{DiskSafe} `{Waits}.

Lemma set_nxt_ok L b v : ok W i L (modify (set_nxt b v)) (fun _ => L).
Proof. apply ok_modify; intros s; unfold set_nxt; destruct (decide _); [done..| |]; apply cover_frame; by split; eauto. Qed.
Lemma set_prv_ok L b v : ok W i L (modify (set_prv b v)) (fun _ => L).
Proof. apply ok_modify; intros s; unfold set_prv; destruct (decide _); [done..| |]; apply cover_frame; by split; eauto. Qed.
#[local] Hint Resolve set_nxt_ok set_prv_ok : ok.
Lemma bget_ok d b : ok W i [] (bget d b) (fun _ => []).
Proof. ok_fun bget. Qed.
#[local] Hint Resolve bget_ok : ok.
Lemma bread_ok d b : ok W i [] (bread d b) (fun _ => []).
Proof. ok_fun bread. Qed.
Lemma bwrite_ok b : ok W i [] (bwrite b) (fun _ => []).
Proof. ok_fun bwrite. Qed.
Lemma brelse_ok b : ok W i [] (brelse b) (fun _ => []).
Proof. ok_fun brelse. Qed.
Lemma bpin_ok L b : Lbcache ∉ L -> ok W i L (bpin b) (fun _ => L).
Proof. ok_fun bpin. Qed.
Lemma bunpin_ok L b : Lbcache ∉ L -> ok W i L (bunpin b) (fun _ => L).
Proof. ok_fun bunpin. Qed.
#[local] Hint Resolve bread_ok bwrite_ok brelse_ok bpin_ok bunpin_ok : ok.

(** ** The log *)

Lemma upd_log_ok L f : ok W i L (upd_log f) (fun _ => L).
Proof. ok_fun upd_log. Qed.
Lemma get_log_ok L : ok W i L get_log (fun _ => L).
Proof. apply ok_gets. Qed.
#[local] Hint Resolve upd_log_ok get_log_ok : ok.
Lemma install_trans_ok r : ok W i [] (install_trans r) (fun _ => []).
Proof. ok_fun install_trans. Qed.
Lemma read_head_ok : ok W i [] read_head (fun _ => []).
Proof. ok_fun read_head. Qed.
Lemma write_head_ok : ok W i [] write_head (fun _ => []).
Proof. ok_fun write_head. Qed.
Lemma write_log_ok : ok W i [] write_log (fun _ => []).
Proof. ok_fun write_log. Qed.
#[local] Hint Resolve install_trans_ok read_head_ok write_head_ok write_log_ok : ok.
Lemma initlog_ok d sb : ok W i [] (initlog d sb) (fun _ => []).
Proof. unfold initlog. ok_fun recover_from_log. Qed.
Lemma commit_ok : ok W i [] commit (fun _ => []).
Proof. ok_fun commit. Qed.
#[local] Hint Resolve commit_ok : ok.
Lemma begin_op_ok : ok W i [] begin_op (fun _ => []).
Proof.
  unfold begin_op. ok_step; [ok_auto|]. apply (ok_loop W i [Llog] _ _ _ (fun _ => [])). intros a0. ok_auto.
Qed.
Lemma end_op_ok : ok W i [] end_op (fun _ => []).
Proof. ok_fun end_op. Qed.
Lemma log_write_ok b : ok W i [] (log_write b) (fun _ => []).
Proof. ok_fun log_write. Qed.
End cache.
#[export] Hint Resolve bread_ok brelse_ok initlog_ok begin_op_ok end_op_ok log_write_ok : ok.

(** ** The console *)

Section console.
Context (W : cover) (i : nat) (Hsw : may_swtch W = true) `{LinkerOk} `{Waits}.

Lemma upd_uart_ok L f : ok W i L (upd_uart f) (fun _ => L).
Proof. ok_fun upd_uart. Qed.
Lemma get_uart_ok L : ok W i L get_uart (fun _ => L).
Proof. apply ok_gets. Qed.
#[local] Hint Resolve upd_uart_ok get_uart_ok : ok.
#[local] Hint Unfold WriteTHR : ok.
Lemma ReadLSR_ok L : ok W i L ReadLSR (fun _ => L).
Proof. ok_fun ReadLSR. Qed.
#[local] Hint Resolve ReadLSR_ok : ok.
Lemma uartputc_sync_ok L c : ok W i L (uartputc_sync c) (fun _ => L).
Proof. ok_fun uartputc_sync. Qed.
Lemma uartstart_ok L : (forall j, Lproc j ∉ L) -> ok W i L uartstart (fun _ => L).
Proof. ok_fun uartstart. Qed.
Lemma uartgetc_ok L : ok W i L uartgetc (fun _ => L).
Proof. unfold uartgetc. ok_fun ReadRHR. Qed.
#[local] Hint Resolve uartputc_sync_ok uartstart_ok uartgetc_ok : ok.
Lemma uartputc_ok c : ok W i [] (uartputc c) (fun _ => []).
Proof. ok_fun uartputc. Qed.
Lemma consputc_ok L c : ok W i L (consputc c) (fun _ => L).
Proof. ok_fun consputc. Qed.
#[local] Hint Resolve uartputc_ok consputc_ok : ok.

Lemma printint_ok L x b sg : ok W i L (printint x b sg) (fun _ => L).
Proof. ok_fun printint. Qed.
Lemma printptr_ok L x : ok W i L (printptr x) (fun _ => L).
Proof. ok_fun printptr. Qed.
Lemma va_word_ok L args : ok W i L (va_word args) (fun _ => L).
Proof. ok_fun va_word. Qed.
Lemma va_str_ok L args : ok W i L (va_str args) (fun _ => L).
Proof. ok_fun va_str. Qed.
#[local] Hint Resolve printint_ok printptr_ok va_word_ok va_str_ok : ok.
Lemma printf_loop_ok L n fmt args : (length fmt <= n)%nat -> ok W i L (printf_loop fmt args) (fun _ => L).
Proof.
  revert fmt args. induction n as [|n IH]; intros [|c fmt] args Hn; cbn [length] in Hn; try lia; cbn [printf_loop]; [apply ok_ret..|].
  assert (forall args, ok W i L (printf_loop fmt args) (fun _ => L)) as Hrest by (intros; apply IH; lia).
  destruct (negb _); [ok_auto|]. destruct fmt as [|c' fmt]; [apply ok_ret|].
  assert (forall args, ok W i L (printf_loop fmt args) (fun _ => L)) as Hrest' by (intros; apply IH; cbn [length] in Hn; lia).
  clear IH Hrest. ok_auto.
Qed.
Lemma printf_ok L fmt args : Lpr ∉ L -> ok W i L (printf fmt args) (fun _ => L).
Proof.
  intros HL. unfold printf. pose proof (fun L => printf_loop_ok L _ fmt args (Nat.le_refl _)) as Hloop.
  ok_step; [apply ok_gets|]. destruct a; cbn [when]; ok_auto.
Qed.
#[local] Hint Resolve printf_ok : ok.
Lemma procdump_ok L : Lpr ∉ L -> ok W i L procdump (fun _ => L).
Proof. ok_fun procdump. Qed.
#[local] Hint Resolve procdump_ok : ok.

Lemma upd_cons_ok L f : ok W i L (upd_cons f) (fun _ => L).
Proof. ok_fun upd_cons. Qed.
Lemma get_cons_ok L : ok W i L get_cons (fun _ => L).
Proof. apply ok_gets. Qed.
#[local] Hint Resolve upd_cons_ok get_cons_ok : ok.
Lemma consoleintr_ok c : ok W i [] (consoleintr c) (fun _ => []).
Proof. ok_fun consoleintr. Qed.
#[local] Hint Resolve consoleintr_ok : ok.
Lemma uartintr_ok : ok W i [] uartintr (fun _ => []).
Proof. ok_fun uartintr. Qed.
Lemma consolewrite_ok u src n : ok W i [] (consolewrite u src n) (fun _ => []).
Proof. ok_fun consolewrite. Qed.
Lemma consoleread_ok u dst n : ok W i [] (consoleread u dst n) (fun _ => []).
Proof.
  unfold consoleread. cbv zeta. ok_step; [ok_auto|].
  apply (ok_bind W i _ _ _ _ (fun r => match r with None => [] | Some _ => [Lcons] end)); [|intros [n'|]; ok_auto].
  apply ok_loop. intros [dst' n']. destruct (negb _); [ok_auto|].
  apply (ok_bind W i _ _ _ _ (fun r : bool => if r then [Lcons] else [])); [apply ok_loop; intros u0|intros [|]; cbn [negb]]; ok_auto.
Qed.
End console.
#[export] Hint Resolve printf_ok uartintr_ok consolewrite_ok consoleread_ok : ok.

(** ** The file system *)

Section fs.
Context (W : cover) (i : nat) (Hsw : may_swtch W = true) `{LinkerOk} `{DiskSafe} `{Waits} `{Frame}.

Lemma inode_at_ok L ip : ok W i L (inode_at ip) (fun _ => L).
Proof. apply ok_gets. Qed.
Lemma get_sb_ok L : ok W i L get_sb (fun _ => L).
Proof. apply ok_gets. Qed.
Lemma upd_inode_ok L ip f : ok W i L (upd_inode ip f) (fun _ => L).
Proof. ok_fun upd_inode. Qed.
Lemma data_of_ok L b : ok W i L (data_of b) (fun _ => L).
Proof. ok_fun data_of. Qed.
#[local] Hint Resolve inode_at_ok get_sb_ok upd_inode_ok data_of_ok : ok.
#[local] Hint Unfold upd_data : ok.
Lemma bzero_ok d b : ok W i [] (bzero d b) (fun _ => []).
Proof. ok_fun bzero. Qed.
#[local] Hint Resolve bzero_ok : ok.
Lemma balloc_ok d : ok W i [] (balloc d) (fun _ => []).
Proof. ok_fun balloc. Qed.
Lemma bfree_ok d b : ok W i [] (bfree d b) (fun _ => []).
Proof. ok_fun bfree. Qed.
#[local] Hint Resolve balloc_ok bfree_ok : ok.
Lemma fsinit_ok d : ok W i [] (fsinit d) (fun _ => []).
Proof. unfold fsinit. ok_fun readsb. Qed.

Lemma iget_ok d n : ok W i [] (iget d n) (fun _ => []).
Proof.
  unfold iget. ok_step; [ok_auto|].
  apply (ok_bind W i _ _ _ _ (fun r => match r with inl _ => [] | inr _ => [Litable] end)); [apply ok_loop; intros [ip e]|intros [ip|[ip|]]]; ok_auto.
Qed.
#[local] Hint Resolve iget_ok : ok.
Lemma ialloc_ok d t : ok W i [] (ialloc d t) (fun _ => []).
Proof. ok_fun ialloc. Qed.
Lemma iupdate_ok ip : ok W i [] (iupdate ip) (fun _ => []).
Proof. ok_fun iupdate. Qed.
Lemma idup_ok L ip : Litable ∉ L -> ok W i L (idup ip) (fun _ => L).
Proof. ok_fun idup. Qed.
Lemma ilock_ok ip : ok W i [] (ilock ip) (fun _ => []).
Proof. ok_fun ilock. Qed.
Lemma iunlock_ok ip : ok W i [] (iunlock ip) (fun _ => []).
Proof. ok_fun iunlock. Qed.
#[local] Hint Resolve iupdate_ok idup_ok ilock_ok iunlock_ok : ok.
Lemma bmap_ok ip bn : ok W i [] (bmap ip bn) (fun _ => []).
Proof. ok_fun bmap. Qed.
Lemma itrunc_ok ip : ok W i [] (itrunc ip) (fun _ => []).
Proof. ok_fun itrunc. Qed.
#[local] Hint Resolve bmap_ok itrunc_ok : ok.
Lemma iput_ok ip : ok W i [] (iput ip) (fun _ => []).
Proof. ok_fun iput. Qed.
#[local] Hint Resolve iput_ok : ok.
Lemma iunlockput_ok ip : ok W i [] (iunlockput ip) (fun _ => []).
Proof. ok_fun iunlockput. Qed.
Lemma stati_ok L ip : ok W i L (stati ip) (fun _ => L).
Proof. ok_fun stati. Qed.
Lemma readi_ok ip u dst off n : ok W i [] (readi ip u dst off n) (fun _ => []).
Proof. ok_fun readi. Qed.
Lemma writei_ok ip u src off n : ok W i [] (writei ip u src off n) (fun _ => []).
Proof. ok_fun writei. Qed.
#[local] Hint Resolve iunlockput_ok readi_ok writei_ok : ok.
#[local] Hint Extern 1 (ok _ _ _ de_inum _) => apply ok_gets : ok.
#[local] Hint Extern 1 (ok _ _ _ de_name _) => apply ok_gets : ok.
Lemma dirlookup_ok dp name : ok W i [] (dirlookup dp name) (fun _ => []).
Proof. ok_fun dirlookup. Qed.
#[local] Hint Resolve dirlookup_ok : ok.
Lemma dirlink_ok dp name n : ok W i [] (dirlink dp name n) (fun _ => []).
Proof. ok_fun dirlink. Qed.
Lemma namex_ok path b : ok W i [] (namex path b) (fun _ => []).
Proof. ok_fun namex. Qed.
#[local] Hint Resolve namex_ok : ok.
Lemma namei_ok path : ok W i [] (namei path) (fun _ => []).
Proof. ok_fun namei. Qed.
Lemma nameiparent_ok path : ok W i [] (nameiparent path) (fun _ => []).
Proof. ok_fun nameiparent. Qed.
Lemma isdirempty_ok dp : ok W i [] (isdirempty dp) (fun _ => []).
Proof. ok_fun isdirempty. Qed.
End fs.
#[export] Hint Resolve inode_at_ok upd_inode_ok fsinit_ok ialloc_ok iupdate_ok idup_ok ilock_ok iunlock_ok itrunc_ok iput_ok iunlockput_ok stati_ok readi_ok writei_ok
  dirlookup_ok dirlink_ok namei_ok nameiparent_ok isdirempty_ok : ok.

(** ** Pipes, files and programs *)

Section files.
Context (W : cover) (i : nat) (Hsw : may_swtch W = true) `{LinkerOk} `{DiskSafe} `{Waits} `{Frame}.

Lemma pipe_at_ok L pi : ok W i L (pipe_at pi) (fun _ => L).
Proof. apply ok_gets. Qed.
Lemma upd_pipe_ok L pi f : ok W i L (upd_pipe pi f) (fun _ => L).
Proof. ok_fun upd_pipe. Qed.
#[local] Hint Resolve pipe_at_ok upd_pipe_ok : ok.
Lemma pipeclose_ok pi w : ok W i [] (pipeclose pi w) (fun _ => []).
Proof. ok_fun pipeclose. Qed.
Lemma pipewrite_ok pi a n : ok W i [] (pipewrite pi a n) (fun _ => []).
Proof.
  unfold pipewrite. ok_step. ok_step; [ok_auto|].
  apply (ok_bind W i _ _ _ _ (fun r => match r with None => [] | Some _ => [Lpipe pi] end)); [apply ok_loop; intros x|intros [x|]]; ok_auto.
Qed.
Lemma piperead_ok pi a n : ok W i [] (piperead pi a n) (fun _ => []).
Proof.
  unfold piperead. cbv zeta. ok_step. ok_step; [ok_auto|].
  apply (ok_bind W i _ _ _ _ (fun r : bool => if r then [Lpipe pi] else [])); [apply ok_loop; intros x|intros [|]; cbn [negb]]; ok_auto.
Qed.
#[local] Hint Resolve pipeclose_ok pipewrite_ok piperead_ok : ok.

Lemma file_at_ok L f : ok W i L (file_at f) (fun _ => L).
Proof. apply ok_gets. Qed.
Lemma upd_file_ok L f g : (forall x, file_view (g x) = file_view x) -> ok W i L (upd_file f g) (fun _ => L).
Proof.
  intros Hg. apply ok_modify; [done..|]. intros s. apply cover_frame. split; cbn; [|done|eauto].
  apply list_eq. intros k. rewrite !list_lookup_fmap. destruct (decide (f = k)) as [->|Hk];
    [rewrite list_lookup_alter_eq|by rewrite list_lookup_alter_ne]. destruct (k_ftable s !! k); cbn; [|done]. by rewrite Hg.
Qed.
Lemma devsw_at_ok L m : ok W i L (devsw_at m) (fun _ => L).
Proof. ok_fun devsw_at. Qed.
#[local] Hint Resolve file_at_ok devsw_at_ok : ok.
#[local] Hint Extern 1 (ok _ _ _ (upd_file _ _) _) => apply upd_file_ok; reflexivity : ok.
Lemma filestat_ok f a : ok W i [] (filestat f a) (fun _ => []).
Proof. ok_fun filestat. Qed.
Lemma upd_tf_ok L a f : ok W i L (upd_tf a f) (fun _ => L).
Proof. ok_fun upd_tf. Qed.
Lemma tf_at_ok L a : ok W i L (tf_at a) (fun _ => L).
Proof. apply ok_gets. Qed.
#[local] Hint Resolve upd_tf_ok tf_at_ok : ok.
Lemma proc_pagetable_ok L tf : Lkmem ∉ L -> ok W i L (proc_pagetable tf) (fun _ => L).
Proof. ok_fun proc_pagetable. Qed.
Lemma proc_freepagetable_ok L pt sz : Lkmem ∉ L -> ok W i L (proc_freepagetable pt sz) (fun _ => L).
Proof. ok_fun proc_freepagetable. Qed.
Lemma growproc_ok n : ok W i [] (growproc n) (fun _ => []).
Proof. ok_fun growproc. Qed.
#[local] Hint Resolve proc_pagetable_ok proc_freepagetable_ok : ok.

Lemma loadseg_ok pt va ip off sz : ok W i [] (loadseg pt va ip off sz) (fun _ => []).
Proof. ok_fun loadseg. Qed.
Lemma read_local_ok ip off sz : ok W i [] (read_local ip off sz) (fun _ => []).
Proof. ok_fun read_local. Qed.
#[local] Hint Resolve loadseg_ok read_local_ok : ok.
Lemma load_segments_ok ip pt e : ok W i [] (load_segments ip pt e) (fun _ => []).
Proof. ok_fun load_segments. Qed.
Lemma push_args_ok pt sp sb argv : ok W i [] (push_args pt sp sb argv) (fun _ => []).
Proof. ok_fun push_args. Qed.
#[local] Hint Resolve load_segments_ok push_args_ok : ok.
Lemma exec_commit_ok path argv pt sz e : ok W i [] (exec_commit i path argv pt sz e) (fun _ => []).
Proof. ok_fun exec_commit. Qed.
#[local] Hint Resolve exec_commit_ok : ok.
Lemma exec_ok path argv : ok W i [] (exec path argv) (fun _ => []).
Proof. ok_fun exec. Qed.
End files.
#[export] Hint Resolve pipeclose_ok file_at_ok filestat_ok devsw_at_ok pipewrite_ok piperead_ok upd_tf_ok tf_at_ok proc_pagetable_ok proc_freepagetable_ok growproc_ok exec_ok : ok.

(** ** System calls that keep the descriptors *)

Section calls.
Context (W : cover) (i : nat) (Hsw : may_swtch W = true) `{LinkerOk} `{DiskSafe} `{Waits} `{Frame}.

Lemma fetchaddr_ok a : ok W i [] (fetchaddr a) (fun _ => []).
Proof. ok_fun fetchaddr. Qed.
Lemma fetchstr_ok a n : ok W i [] (fetchstr a n) (fun _ => []).
Proof. ok_fun fetchstr. Qed.
Lemma argraw_ok L n : ok W i L (argraw n) (fun _ => L).
Proof. ok_fun argraw. Qed.
#[local] Hint Resolve fetchaddr_ok fetchstr_ok argraw_ok : ok.
Lemma argint_ok L n : ok W i L (argint n) (fun _ => L).
Proof. ok_fun argint. Qed.
Lemma argaddr_ok L n : ok W i L (argaddr n) (fun _ => L).
Proof. apply argraw_ok. Qed.
#[local] Hint Resolve argint_ok argaddr_ok : ok.
Lemma argstr_ok n m : ok W i [] (argstr n m) (fun _ => []).
Proof. ok_fun argstr. Qed.
Lemma argfd_ok L n : ok W i L (argfd n) (fun _ => L).
Proof. ok_fun argfd. Qed.
#[local] Hint Resolve argstr_ok argfd_ok : ok.

Lemma wakeup_opt_ok L o : (forall j, Lproc j ∉ L) -> ok W i L (wakeup_opt o) (fun _ => L).
Proof. ok_fun wakeup_opt. Qed.
#[local] Hint Resolve wakeup_opt_ok : ok.
Lemma reparent_ok L j : (forall j, Lproc j ∉ L) -> ok W i L (reparent j) (fun _ => L).
Proof. ok_fun reparent. Qed.

Lemma sys_getpid_ok : ok W i [] sys_getpid (fun _ => []).
Proof. ok_fun sys_getpid. Qed.
Lemma sys_sbrk_ok : ok W i [] sys_sbrk (fun _ => []).
Proof. ok_fun sys_sbrk. Qed.
Lemma sys_sleep_ok : ok W i [] sys_sleep (fun _ => []).
Proof.
  unfold sys_sleep. ok_step; [ok_auto|]. ok_step; [ok_auto|]. ok_step; [ok_auto|].
  apply (ok_loop W i [Lticks] _ _ _ (fun _ => [])). intros x. ok_auto.
Qed.
Lemma sys_kill_ok : ok W i [] sys_kill (fun _ => []).
Proof. ok_fun sys_kill. Qed.
Lemma sys_uptime_ok : ok W i [] sys_uptime (fun _ => []).
Proof. ok_fun sys_uptime. Qed.
Lemma sys_fstat_ok : ok W i [] sys_fstat (fun _ => []).
Proof. ok_fun sys_fstat. Qed.
#[local] Hint Unfold add_nlink : ok.
Lemma sys_link_ok : ok W i [] sys_link (fun _ => []).
Proof. ok_fun sys_link. Qed.
Lemma sys_unlink_ok : ok W i [] sys_unlink (fun _ => []).
Proof. ok_fun sys_unlink. Qed.
Lemma create_ok path t ma mi : ok W i [] (create path t ma mi) (fun _ => []).
Proof. ok_fun create. Qed.
#[local] Hint Resolve create_ok : ok.
Lemma sys_mkdir_ok : ok W i [] sys_mkdir (fun _ => []).
Proof. ok_fun sys_mkdir. Qed.
Lemma sys_mknod_ok : ok W i [] sys_mknod (fun _ => []).
Proof. ok_fun sys_mknod. Qed.
Lemma sys_chdir_ok : ok W i [] sys_chdir (fun _ => []).
Proof. ok_fun sys_chdir. Qed.
Lemma fetch_argv_ok a : ok W i [] (fetch_argv a) (fun _ => []).
Proof. ok_fun fetch_argv. Qed.
#[local] Hint Resolve fetch_argv_ok : ok.
Lemma sys_exec_ok : ok W i [] sys_exec (fun _ => []).
Proof. ok_fun sys_exec. Qed.

Lemma clockintr_ok : ok W i [] clockintr (fun _ => []).
Proof. ok_fun clockintr. Qed.
#[local] Hint Resolve clockintr_ok : ok.
#[local] Hint Extern 1 (ok _ _ _ csr _) => apply ok_gets : ok.
Lemma upd_csr_ok L f : ok W i L (upd_csr f) (fun _ => L).
Proof. ok_fun upd_csr. Qed.
#[local] Hint Resolve upd_csr_ok : ok.
#[local] Hint Unfold plic_complete intr_on intr_off : ok.
Lemma plic_claim_ok L : ok W i L plic_claim (fun _ => L).
Proof. ok_fun plic_claim. Qed.
#[local] Hint Resolve plic_claim_ok : ok.
Lemma devintr_ok : ok W i [] devintr (fun _ => []).
Proof. ok_fun devintr. Qed.
#[local] Hint Resolve devintr_ok : ok.
Lemma usertrapret_ok : ok W i [] usertrapret (fun _ => []).
Proof. ok_fun usertrapret. Qed.
Lemma kerneltrap_ok : ok W i [] kerneltrap (fun _ => []).
Proof. ok_fun kerneltrap. Qed.
End calls.
#[export] Hint Resolve fetchaddr_ok fetchstr_ok argraw_ok argint_ok argaddr_ok argstr_ok argfd_ok wakeup_opt_ok reparent_ok sys_getpid_ok sys_sbrk_ok sys_sleep_ok sys_kill_ok sys_uptime_ok
  sys_fstat_ok sys_link_ok sys_unlink_ok create_ok sys_mkdir_ok sys_mknod_ok sys_chdir_ok sys_exec_ok upd_csr_ok devintr_ok usertrapret_ok : ok.

#[export] Hint Unfold intr_on : ok.
#[export] Hint Extern 1 (ok _ _ _ csr _) => apply ok_gets : ok.

(** ** The locks of the other calls *)

Section others.
Context (i : nat) `{LinkerOk} `{DiskSafe} `{Waits} `{Frame}.
Abbreviation oks L m R := (ok any_cover i L m R).

Lemma upd_file_oks L f g : oks L (upd_file f g) (fun _ => L).
Proof. ok_fun upd_file. Qed.
Lemma set_ofile_oks L j fd o : oks L (set_ofile j fd o) (fun _ => L).
Proof. ok_fun set_ofile. Qed.
#[local] Hint Resolve upd_file_oks set_ofile_oks : ok.
Lemma fileread_oks f a n : oks [] (fileread f a n) (fun _ => []).
Proof. ok_fun fileread. Qed.
Lemma filewrite_oks f a n : oks [] (filewrite f a n) (fun _ => []).
Proof. ok_fun filewrite. Qed.
#[local] Hint Resolve fileread_oks filewrite_oks : ok.
Lemma filealloc_oks : oks [] filealloc (fun _ => []).
Proof.
  unfold filealloc. ok_step; [ok_auto|].
  eapply ok_bind; [apply (ok_findM any_cover i [Lftable] _ _ (fun _ => [])); intros f|intros [f|]]; ok_auto.
Qed.
Lemma filedup_oks L f : Lftable ∉ L -> oks L (filedup f) (fun _ => L).
Proof. ok_fun filedup. Qed.
Lemma fileclose_oks f : oks [] (fileclose f) (fun _ => []).
Proof. ok_fun fileclose. Qed.
#[local] Hint Resolve filealloc_oks filedup_oks fileclose_oks : ok.
Lemma close_opt_oks o : oks [] (close_opt o) (fun _ => []).
Proof. ok_fun close_opt. Qed.
#[local] Hint Resolve close_opt_oks : ok.
Lemma pipealloc_oks : oks [] pipealloc (fun _ => []).
Proof. ok_fun pipealloc. Qed.
Lemma fdalloc_oks L f : oks L (fdalloc f) (fun _ => L).
Proof. ok_fun fdalloc. Qed.
#[local] Hint Resolve pipealloc_oks fdalloc_oks : ok.

Lemma freeproc_oks L j : Lkmem ∉ L -> oks L (freeproc j) (fun _ => L).
Proof. ok_fun freeproc. Qed.
#[local] Hint Resolve freeproc_oks : ok.
Lemma allocproc_oks : oks [] allocproc (fun o => match o with Some np => [Lproc np] | None => [] end).
Proof.
  unfold allocproc. eapply ok_bind; [apply (ok_findM any_cover i [] _ _ (fun j => [Lproc j])); intros j|intros [np|]]; ok_auto.
Qed.
Lemma fork_oks : oks [] fork (fun _ => []).
Proof. unfold fork. ok_step. eapply ok_bind; [apply allocproc_oks|]. intros [np|]; ok_auto. Qed.
#[local] Hint Resolve fork_oks : ok.
Lemma exit_oks st : oks [] (exit st) (fun _ => []).
Proof. ok_fun exit. Qed.
Lemma wait_scan_oks a : oks [Lwait] (wait_scan i a) (fun r => match r with inl _ => [] | inr _ => [Lwait] end).
Proof. unfold wait_scan. cbv zeta. apply ok_loop. intros [pp hk]. ok_auto. Qed.
Lemma wait_oks a : oks [] (wait a) (fun _ => []).
Proof.
  unfold wait. ok_step. ok_step; [ok_auto|]. apply (ok_loop any_cover i [Lwait] _ _ _ (fun _ => [])). intros x.
  eapply ok_bind; [apply wait_scan_oks|]. intros [v|hk]; ok_auto.
Qed.
#[local] Hint Resolve exit_oks wait_oks : ok.

Lemma sys_open_oks : oks [] sys_open (fun _ => []).
Proof. ok_fun sys_open. Qed.
Lemma sys_pipe_oks : oks [] sys_pipe (fun _ => []).
Proof. ok_fun sys_pipe. Qed.
Lemma syscalls_oks : Forall (fun call => oks [] call (fun _ => [])) syscalls.
Proof.
  pose proof sys_open_oks. pose proof sys_pipe_oks. unfold syscalls. repeat apply Forall_cons_2; [..|apply Forall_nil_2]; eauto 2 with ok.
  - ok_fun sys_fork.
  - ok_fun sys_exit.
  - ok_fun sys_wait.
  - ok_fun sys_read.
  - ok_fun sys_dup.
  - ok_fun sys_write.
  - ok_fun sys_close.
Qed.
Lemma syscall_oks : oks [] syscall (fun _ => []).
Proof.
  unfold syscall. cbv zeta. do 3 (ok_step; [ok_auto..|]). match goal with |- ok _ _ _ (match ?x with _ => _ end) _ => destruct x as [call|] eqn:E end; [|ok_auto].
  destruct (0 <? _); [|done]. pose proof syscalls_oks as Hall. rewrite Forall_lookup in Hall. specialize (Hall _ _ E). ok_auto.
Qed.
Lemma usertrap_oks : oks [] usertrap (fun _ => []).
Proof. pose proof syscall_oks. ok_fun usertrap. Qed.
Lemma forkret_oks : oks [Lproc i] forkret (fun _ => []).
Proof. ok_fun forkret. Qed.
End others.

(** C5: the locks of the whole kernel.  A trap from user space - system call, device
    interrupt, timer or fault - and an interrupt of kernel code, entered without
    spinlocks, and the first steps of a new process, entered with its lock, never take a lock that is already held or give up one that is not,
    give up the CPU only with the lock of their own process, wherever they are
    resumed from, and end with no lock held. *)
Theorem lock_discipline `{LinkerOk} `{Waits} `{Frame} (i : nat) (s : kernel) :
  k_cur s = Some i -> k_held s = [] ->
  safe any_cover i (fun _ => []) s (@usertrap _ Virtio.virtio_disk_rw _ _ s) /\ safe any_cover i (fun _ => []) s (kerneltrap s) /\
  let s' := with_k_held [Lproc i] s in safe any_cover i (fun _ => []) s' (@forkret _ Virtio.virtio_disk_rw _ s').
Proof.
  intros Hc Hh. split; [exact (usertrap_oks i s Hc Hh)|]. split; [exact (kerneltrap_ok any_cover i eq_refl s Hc Hh)|].
  exact (forkret_oks i (with_k_held [Lproc i] s) Hc eq_refl).
Qed.

Lemma lock_discipline_witness :
  let s := with_k_cur (Some 3%nat) (boot ∅) in
  safe any_cover 3 (fun _ => []) s (@usertrap ld0 (@Virtio.virtio_disk_rw 2%nat) 2%nat 2147600000 s).
Proof. intros s. exact (proj1 (@lock_discipline ld0 ld0_ok 2%nat 2147600000 3%nat s eq_refl eq_refl)). Defined.
