(* ===== verification/FdTable.v ===== *)
(** * File descriptors and reference counts.

    The invariant that ties the file table to the descriptors of all processes,
    and that every system call keeps it, with other processes running at every
    context switch.  exit() closes a file before it clears the descriptor, so
    while it waits for the disk one descriptor of the exiting process is stale:
    [st j] names it.  A thread relies on the others to leave its descriptors
    alone, and guarantees the same to them. *)

From S2P Require Import Prelude Exec Params State Mem Kalloc Vm Sched Sleeplock Bio Log Uart Printf Console Fs Pipe File Proc KExec Syscall Sysproc Sysfile Virtio Trap Safe SafeKernel.

(** ** Counting *)

Definition total {A} (g : A -> Z) (l : list A) : Z := foldr (fun x n => g x + n) 0 l.

Lemma total_app {A} (g : A -> Z) l1 l2 : total g (l1 ++ l2) = total g l1 + total g l2.
Proof. induction l1 as [|x l1 IH]; cbn; [done|]. unfold total in *. lia. Qed.

Lemma total_insert {A} (g : A -> Z) l j x y : l !! j = Some x -> total g (<[j := y]> l) = total g l - g x + g y.
Proof.
  intros Hj. rewrite <- (take_drop_middle l j x Hj) at 2. rewrite (insert_take_drop l j y) by (by eapply lookup_lt_Some).
  rewrite !total_app. cbn. lia.
Qed.

Lemma total_bound {A} (g : A -> Z) c l : (forall x, x ∈ l -> 0 <= g x <= c) -> 0 <= total g l <= c * Z.of_nat (length l).
Proof.
  induction l as [|x l IH]; intros Hg; [cbn; lia|]. assert (0 <= g x <= c) by (apply Hg; left).
  assert (0 <= total g l <= c * Z.of_nat (length l)) by (apply IH; intros y Hy; apply Hg; by right). cbn. unfold total in *. lia.
Qed.

Lemma total_member {A} (g : A -> Z) l x : (forall y, y ∈ l -> 0 <= g y) -> x ∈ l -> g x <= total g l.
Proof.
  induction l as [|y l IH]; intros Hg Hx; [by apply elem_of_nil in Hx|]. assert (0 <= total g l).
  { clear IH Hx. induction l as [|z l IH]; [done|]. cbn. assert (0 <= g z) by (apply Hg; right; left).
    assert (0 <= total g l) by (apply IH; intros w Hw; apply Hg; apply elem_of_cons in Hw as [->|Hw]; [left|right; by right]). unfold total in *. lia. }
  assert (0 <= g y) by (apply Hg; left). apply elem_of_cons in Hx as [->|Hx]; cbn; unfold total in *; [lia|].
  assert (g x <= foldr (fun x n => g x + n) 0 l) by (apply IH; [intros w Hw; apply Hg; by right|done]). lia.
Qed.

(** How often the file [f] occurs in a row of descriptors. *)
Definition is_ref (f : nat) (o : option nat) : Z := if decide (o = Some f) then 1 else 0.
Definition row_refs (f : nat) (row : list (option nat)) : Z := total (is_ref f) row.

Lemma row_refs_bound f row : 0 <= row_refs f row <= Z.of_nat (length row).
Proof.
  pose proof (total_bound (is_ref f) 1 row) as Hb. unfold row_refs. rewrite Z.mul_1_l in Hb. apply Hb.
  intros o _. unfold is_ref. destruct (decide _); lia.
Qed.

(** ** The invariant *)

Abbreviation stale := (nat -> option nat).

(** The descriptors of a process that count. *)
Definition live (o : option nat) (row : list (option nat)) : list (option nat) :=
  match o with Some fd => <[fd := None]> row | None => row end.
Definition live_rows (st : stale) (s : kernel) : list (list (option nat)) := imap (fun j row => live (st j) row) (p_ofile <$> k_procs s).
Definition refs (st : stale) (s : kernel) (f : nat) : Z := total (row_refs f) (live_rows st s).

(** [e f] references to [f] are held by the running code, or if negative are still to
    be counted; the type of the files [T] is not set yet. *)
Record fd_state (st : stale) (e : nat -> Z) (T : list nat) (s : kernel) : Prop := {
  fi_files : length (k_ftable s) = Z.to_nat NFILE;
  fi_procs : length (k_procs s) = Z.to_nat NPROC;
  fi_rows : forall j p, k_procs s !! j = Some p -> length (p_ofile p) = Z.to_nat NOFILE;
  fi_ref : forall f x, k_ftable s !! f = Some x -> f_ref x = refs st s f + e f;
  fi_range : forall f, 0 < refs st s f -> (f < Z.to_nat NFILE)%nat;
  fi_type : forall f x, k_ftable s !! f = Some x -> f ∉ T -> (f_ref x = 0 <-> f_type x = FD_NONE);
  fi_dead : forall j p, k_procs s !! j = Some p -> dead p -> Forall (fun o => o = None) (p_ofile p) /\ st j = None;
}.

(** Every file has as many references as there are descriptors for it, and is open
    exactly if it has one; processes that are gone have no descriptors. *)
Abbreviation fd_inv st s := (fd_state st (fun _ => 0) [] s).

Lemma refs_bound st e T s f : fd_state st e T s -> 0 <= refs st s f <= NPROC * NOFILE.
Proof.
  intros Hs. pose proof (total_bound (row_refs f) NOFILE (live_rows st s)) as Hb. unfold refs.
  assert (length (live_rows st s) = Z.to_nat NPROC) as Hl by (unfold live_rows; rewrite length_imap, length_fmap; apply Hs).
  rewrite Hl in Hb. unfold NPROC, NOFILE in *. lapply Hb; [lia|]. intros row Hrow. apply elem_of_lookup_imap in Hrow as (j & row' & -> & (p & -> & Hp)%list_lookup_fmap_Some).
  pose proof (row_refs_bound f (live (st j) (p_ofile p))) as Hr. pose proof (fi_rows _ _ _ _ Hs j p Hp) as Hlen.
  destruct (st j); cbn [live] in *; rewrite ?length_insert in Hr; unfold NOFILE in Hlen; lia.
Qed.

(** ** How the parts of the state change it *)

Lemma fd_state_frame st e T s s' : fd_state st e T s -> fd_frame s s' -> fd_state st e T s'.
Proof.
  intros [F P R C G Ty D] [Ff Fr Fd].
  assert (forall f, refs st s' f = refs st s f) as Hrefs by (intros f; unfold refs, live_rows; by rewrite Fr).
  assert (forall f x', k_ftable s' !! f = Some x' -> exists x, k_ftable s !! f = Some x /\ file_view x = file_view x') as Hf.
  { intros f x' Hx. assert ((file_view <$> k_ftable s) !! f = Some (file_view x')) as Hv by (by rewrite <- Ff, list_lookup_fmap, Hx).
    rewrite list_lookup_fmap in Hv. destruct (k_ftable s !! f) as [x|]; [|done]. exists x. split; [done|]. cbn in Hv. congruence. }
  assert (forall j p', k_procs s' !! j = Some p' -> exists p, k_procs s !! j = Some p /\ p_ofile p = p_ofile p') as Hp.
  { intros j p' Hx. assert ((p_ofile <$> k_procs s) !! j = Some (p_ofile p')) as Hv by (by rewrite <- Fr, list_lookup_fmap, Hx).
    rewrite list_lookup_fmap in Hv. destruct (k_procs s !! j) as [p|]; [|done]. exists p. split; [done|]. cbn in Hv. congruence. }
  split.
  - rewrite <- F, <- (length_fmap file_view), Ff, length_fmap. done.
  - rewrite <- P, <- (length_fmap p_ofile), Fr, length_fmap. done.
  - intros j p' Hj. destruct (Hp j p' Hj) as (p & Hj' & <-). eauto.
  - intros f x' Hx. destruct (Hf f x' Hx) as (x & Hx0 & [= E _]). rewrite Hrefs, <- E. eauto.
  - intros f. rewrite Hrefs. apply G.
  - intros f x' Hx HT. destruct (Hf f x' Hx) as (x & Hx0 & [= E1 E2]). rewrite <- E1, <- E2. eauto.
  - intros j p' Hj Hd. destruct (Fd j p' Hj Hd) as (p & Hj0 & Hdp). destruct (Hp j p' Hj) as (p2 & Hj2 & <-).
    rewrite Hj0 in Hj2. injection Hj2 as ->. eauto.
Qed.

(** Entry [j] of the live rows changes. *)
Lemma refs_row st st' s s' j row row' f :
  live_rows st s !! j = Some row -> live_rows st' s' = <[j := row']> (live_rows st s) ->
  refs st' s' f = refs st s f - row_refs f row + row_refs f row'.
Proof. intros Hj E. unfold refs. rewrite E. by apply total_insert. Qed.

Lemma row_refs_insert f row fd o o' : row !! fd = Some o -> row_refs f (<[fd := o']> row) = row_refs f row - is_ref f o + is_ref f o'.
Proof. apply total_insert. Qed.

Lemma live_rows_lookup st s j p : k_procs s !! j = Some p -> live_rows st s !! j = Some (live (st j) (p_ofile p)).
Proof. intros Hj. unfold live_rows. by rewrite list_lookup_imap, list_lookup_fmap, Hj. Qed.

(** A descriptor [fd] of a process that is alive, not stale, goes from [o] to [o']. *)
Lemma fd_state_row st e e' T s s' j p fd o o' :
  fd_state st e T s -> k_procs s !! j = Some p -> ~ dead p -> st j = None -> p_ofile p !! fd = Some o ->
  k_ftable s' = k_ftable s -> k_procs s' = alter (fun p => with_p_ofile (<[fd := o']> (p_ofile p)) p) j (k_procs s) ->
  (forall f, o' = Some f -> (f < Z.to_nat NFILE)%nat) -> (forall f, e' f = e f + is_ref f o - is_ref f o') ->
  fd_state st e' T s'.
Proof.
  intros Hs Hj Hd Hst Hfd Ef Ep Ho' He'.
  assert (live_rows st s' = <[j := <[fd := o']> (p_ofile p)]> (live_rows st s)) as El.
  { unfold live_rows. rewrite Ep. apply list_eq. intros k. destruct (decide (k = j)) as [->|Hk].
    - rewrite list_lookup_insert_eq, list_lookup_imap, list_lookup_fmap, list_lookup_alter_eq, Hj; cbn; [by rewrite Hst|].
      rewrite length_imap, length_fmap. by eapply lookup_lt_Some.
    - by rewrite list_lookup_insert_ne, !list_lookup_imap, !list_lookup_fmap, list_lookup_alter_ne by done. }
  assert (forall f, refs st s' f = refs st s f - is_ref f o + is_ref f o') as Hrefs.
  { intros f. rewrite (refs_row st st s s' j _ _ f (live_rows_lookup st s j p Hj) El), Hst. cbn [live]. rewrite (row_refs_insert f _ fd o o' Hfd). lia. }
  destruct Hs as [F P R C G Ty D]. split.
  - by rewrite Ef.
  - by rewrite Ep, length_alter.
  - intros k p' Hk. rewrite Ep in Hk. destruct (decide (k = j)) as [->|Hkj]; [|rewrite list_lookup_alter_ne in Hk by done; eauto].
    rewrite list_lookup_alter_eq, Hj in Hk. injection Hk as <-. cbn. rewrite length_insert. eauto.
  - intros f x Hx. rewrite Ef in Hx. rewrite Hrefs, He', (C f x Hx). lia.
  - intros f Hf. rewrite Hrefs in Hf. unfold is_ref in Hf. destruct (decide (o' = Some f)) as [E|E]; [by apply Ho'|].
    apply G. destruct (decide (o = Some f)); lia.
  - rewrite Ef. exact Ty.
  - intros k p' Hk Hdk. rewrite Ep in Hk. destruct (decide (k = j)) as [->|Hkj]; [|rewrite list_lookup_alter_ne in Hk by done; eauto].
    rewrite list_lookup_alter_eq, Hj in Hk. injection Hk as <-. by destruct Hd.
Qed.

(** A descriptor becomes stale: its reference belongs to the code that closes it. *)
Lemma fd_state_stale st e e' T s j p fd o :
  fd_state st e T s -> k_procs s !! j = Some p -> ~ dead p -> st j = None -> p_ofile p !! fd = Some o ->
  (forall f, e' f = e f + is_ref f o) -> fd_state (<[j := Some fd]> st) e' T s.
Proof.
  intros Hs Hj Hd Hst Hfd He'.
  assert (live_rows (<[j := Some fd]> st) s = <[j := <[fd := None]> (p_ofile p)]> (live_rows st s)) as El.
  { unfold live_rows. apply list_eq. intros k. destruct (decide (k = j)) as [->|Hk].
    - rewrite list_lookup_insert_eq, list_lookup_imap, list_lookup_fmap, Hj; cbn; [by rewrite fn_lookup_insert|].
      rewrite length_imap, length_fmap. by eapply lookup_lt_Some.
    - rewrite list_lookup_insert_ne, !list_lookup_imap by done. destruct ((p_ofile <$> k_procs s) !! k); cbn; [|done]. by rewrite fn_lookup_insert_ne. }
  assert (forall f, refs (<[j := Some fd]> st) s f = refs st s f - is_ref f o) as Hrefs.
  { intros f. rewrite (refs_row st _ s s j _ _ f (live_rows_lookup st s j p Hj) El), Hst. cbn [live]. rewrite (row_refs_insert f _ fd o None Hfd).
    unfold is_ref at 2. rewrite decide_False by done. lia. }
  destruct Hs as [F P R C G Ty D]. split; [done..| | |done|].
  - intros f x Hx. rewrite Hrefs, He', (C f x Hx). lia.
  - intros f Hf. rewrite Hrefs in Hf. apply G. unfold is_ref in Hf. destruct (decide _); lia.
  - intros k q Hk Hdk. destruct (decide (k = j)) as [->|Hkj]; [congruence|]. rewrite fn_lookup_insert_ne by congruence. eauto.
Qed.

(** The stale descriptor is cleared. *)
Lemma fd_state_cleared st e T s s' j p fd :
  fd_state st e T s -> k_procs s !! j = Some p -> ~ dead p -> st j = Some fd ->
  k_ftable s' = k_ftable s -> k_procs s' = alter (fun p => with_p_ofile (<[fd := None]> (p_ofile p)) p) j (k_procs s) ->
  fd_state (<[j := None]> st) e T s'.
Proof.
  intros Hs Hj Hd Hst Ef Ep.
  assert (live_rows (<[j := None]> st) s' = live_rows st s) as El.
  { unfold live_rows. rewrite Ep. apply list_eq. intros k. rewrite !list_lookup_imap, !list_lookup_fmap. destruct (decide (k = j)) as [->|Hk].
    - rewrite list_lookup_alter_eq, Hj. cbn. by rewrite fn_lookup_insert, Hst.
    - rewrite list_lookup_alter_ne by done. destruct (k_procs s !! k); cbn; [|done]. by rewrite fn_lookup_insert_ne by congruence. }
  assert (forall f, refs (<[j := None]> st) s' f = refs st s f) as Hrefs by (intros f; unfold refs; by rewrite El).
  destruct Hs as [F P R C G Ty D]. split.
  - by rewrite Ef.
  - by rewrite Ep, length_alter.
  - intros k p' Hk. rewrite Ep in Hk. destruct (decide (k = j)) as [->|Hkj]; [|rewrite list_lookup_alter_ne in Hk by done; eauto].
    rewrite list_lookup_alter_eq, Hj in Hk. injection Hk as <-. cbn. rewrite length_insert. eauto.
  - intros f x. rewrite Ef, Hrefs. apply C.
  - intros f. rewrite Hrefs. apply G.
  - rewrite Ef. exact Ty.
  - intros k p' Hk Hdk. rewrite Ep in Hk. destruct (decide (k = j)) as [->|Hkj].
    + rewrite list_lookup_alter_eq, Hj in Hk. injection Hk as <-. by destruct Hd.
    + rewrite list_lookup_alter_ne in Hk by done. rewrite fn_lookup_insert_ne by congruence. eauto.
Qed.

(** An entry of the file table changes. *)
Lemma fd_state_file st e e' T T' s s' f g :
  fd_state st e T s -> k_procs s' = k_procs s -> k_ftable s' = alter g f (k_ftable s) ->
  (forall x, k_ftable s !! f = Some x -> e' f = e f + f_ref (g x) - f_ref x /\ (f ∉ T' -> f_ref (g x) = 0 <-> f_type (g x) = FD_NONE)) ->
  (forall k, k <> f -> e' k = e k /\ (k ∉ T' -> k ∉ T)) -> fd_state st e' T' s'.
Proof.
  intros [F P R C G Ty D] Ep Ef Hf Hk.
  assert (forall k, refs st s' k = refs st s k) as Hrefs by (intros k; unfold refs, live_rows; by rewrite Ep).
  split; [by rewrite Ef, length_alter|by rewrite Ep|by rewrite Ep| |intros k; rewrite Hrefs; apply G| |by rewrite Ep];
    intros k x Hx; rewrite Ef in Hx; (destruct (decide (k = f)) as [->|Hkf]; [rewrite list_lookup_alter_eq in Hx|rewrite list_lookup_alter_ne in Hx by done]).
  - destruct (k_ftable s !! f) as [x0|] eqn:Hx0; [|done]. injection Hx as <-. destruct (Hf x0 eq_refl) as [-> _]. rewrite Hrefs, (C f x0 Hx0). lia.
  - destruct (Hk k Hkf) as [-> _]. rewrite Hrefs. eauto.
  - destruct (k_ftable s !! f) as [x0|] eqn:Hx0; [|done]. injection Hx as <-. apply (Hf x0 eq_refl).
  - intros HT. apply (Ty k x Hx). by apply Hk.
Qed.

(** ** Threads that rely on each other *)

Definition alive (j : nat) (s : kernel) : Prop := exists p, k_procs s !! j = Some p /\ ~ dead p.
Definition row (s : kernel) (j : nat) : list (option nat) := p_ofile (k_procs s !!! j).

Section threads.
Context (i : nat).

(** The thread runs with the spinlocks [L]. *)
Record thread (L : list lockid) (s : kernel) : Prop := {
  th_cur : k_cur s = Some i;
  th_held : k_held s = L;
  th_alive : alive i s;
}.

(** What a thread leaves as it is: the descriptors of the other living processes. *)
Definition others (st : stale) (s : kernel) (st' : stale) (s' : kernel) : Prop :=
  (forall j, j <> i -> st' j = st j) /\ (forall j, j <> i -> alive j s -> row s' j = row s j /\ alive j s').

(** What it finds again after it was switched out. *)
Definition mine (st : stale) (s : kernel) (st' : stale) (s' : kernel) : Prop :=
  fd_inv st' s' /\ st' i = st i /\ row s' i = row s i.

(** At every switch the invariant holds; a process that is dead then is not resumed. *)
Fixpoint fd_safe {A} (Q : A -> stale -> kernel -> Prop) (st0 : stale) (s0 : kernel) (r : res kernel A) : Prop :=
  match r with
  | Ok a s => exists st, others st0 s0 st s /\ Q a st s
  | Panic msg => lock_panic msg || file_panic msg = false
  | Swtch s k => exists st, others st0 s0 st s /\ fd_inv st s /\ (k_cur s = Some i /\ k_held s = [Lproc i]) /\
                   (alive i s -> forall st' s', mine st s st' s' -> thread [Lproc i] s' -> fd_safe Q st' s' (k s'))
  | NoFuel => True
  end.

Definition fw {A} (m : KM A) (Q : A -> stale -> kernel -> Prop) (st : stale) (s : kernel) : Prop := fd_safe Q st s (m s).

Lemma others_refl st s : others st s st s.
Proof. split; auto. Qed.
Lemma others_trans st1 s1 st2 s2 st3 s3 : others st1 s1 st2 s2 -> others st2 s2 st3 s3 -> others st1 s1 st3 s3.
Proof.
  intros [H1 H12] [H2 H23]. split; [intros j Hj; rewrite H2, H1; done|]. intros j Hj Ha. destruct (H12 j Hj Ha) as (E1 & Ha2). destruct (H23 j Hj Ha2) as (E2 & Ha3).
  split; [congruence|done].
Qed.
Lemma mine_trans st1 s1 st2 s2 st3 s3 : mine st1 s1 st2 s2 -> mine st2 s2 st3 s3 -> mine st1 s1 st3 s3.
Proof. intros (I2 & A2 & B2) (I3 & A3 & B3). split; [exact I3|split; congruence]. Qed.

Lemma frame_row s s' j : fd_frame s s' -> row s' j = row s j.
Proof.
  intros F. unfold row. pose proof (f_equal (.!! j) (ff_rows _ _ F)) as E. rewrite !list_lookup_fmap in E. rewrite !list_lookup_total_alt.
  destruct (k_procs s' !! j), (k_procs s !! j); cbn in *; congruence.
Qed.
Lemma frame_alive s s' j : fd_frame s s' -> alive j s -> alive j s'.
Proof.
  intros F (p & Hp & Hd). pose proof (f_equal (.!! j) (ff_rows _ _ F)) as E. rewrite !list_lookup_fmap, Hp in E.
  destruct (k_procs s' !! j) as [p'|] eqn:Hp'; [|done]. exists p'. split; [done|]. intros Hd'.
  destruct (ff_dead _ _ F j p' Hp' Hd') as (q & Hq & Hdq). congruence.
Qed.
Lemma frame_others st s s' : fd_frame s s' -> others st s st s'.
Proof. intros F. split; [done|]. intros j Hj Ha. split; [by apply frame_row|by eapply frame_alive]. Qed.

Lemma fd_safe_from {A} (Q : A -> stale -> kernel -> Prop) st0 s0 st s r : others st0 s0 st s -> fd_safe Q st s r -> fd_safe Q st0 s0 r.
Proof.
  intros H01. destruct r as [a s'|msg|s' k|]; cbn [fd_safe]; [|tauto| |tauto].
  - intros (st' & H12 & HQ). exists st'. split; [by eapply others_trans|exact HQ].
  - intros (st' & H12 & HQ). exists st'. split; [by eapply others_trans|exact HQ].
Qed.

Lemma fd_safe_bind {A B} (f : A -> KM B) Q st s (r : res kernel A) :
  fd_safe (fun a st' s' => fw (f a) Q st' s') st s r -> fd_safe Q st s (rbind r f).
Proof.
  revert st s r. fix IH 3. intros st s [a s'|msg|s' k|]; cbn [fd_safe rbind].
  - intros (st' & H1 & H2). exact (fd_safe_from Q _ _ _ _ _ H1 H2).
  - exact (fun h => h).
  - intros (st' & H1 & H2 & H3 & H4). exists st'. split; [exact H1|]. split; [exact H2|]. split; [exact H3|].
    intros Hal st2 s2 Hm Ht. exact (IH st2 s2 (k s2) (H4 Hal st2 s2 Hm Ht)).
  - exact (fun h => h).
Qed.
Lemma fw_bind {A B} (m : KM A) (f : A -> KM B) Q st s : fw m (fun a st' s' => fw (f a) Q st' s') st s -> fw (bind m f) Q st s.
Proof. apply fd_safe_bind. Qed.

Lemma fw_mono {A} (m : KM A) (Q Q' : A -> stale -> kernel -> Prop) st s : fw m Q st s -> (forall a st' s', Q a st' s' -> Q' a st' s') -> fw m Q' st s.
Proof.
  intros Hm HQ. revert Hm. unfold fw. generalize (m s) as r. clear m. intros r. revert st s r. fix IH 3. intros st s [a s'|msg|s' k|]; cbn [fd_safe].
  - intros (st' & H1 & H2). eauto.
  - exact (fun h => h).
  - intros (st' & H1 & H2 & H3 & H4). exists st'. split; [exact H1|]. split; [exact H2|]. split; [exact H3|].
    intros Hal st2 s2 Hmn Ht. exact (IH st2 s2 (k s2) (H4 Hal st2 s2 Hmn Ht)).
  - exact (fun h => h).
Qed.

Lemma fw_ret {A} (a : A) (Q : A -> stale -> kernel -> Prop) st s : Q a st s -> fw (ret a) Q st s.
Proof. intros HQ. exists st. split; [apply others_refl|exact HQ]. Qed.
Lemma fw_gets {A} (f : kernel -> A) (Q : A -> stale -> kernel -> Prop) st s : Q (f s) st s -> fw (gets f) Q st s.
Proof. intros HQ. exists st. split; [apply others_refl|exact HQ]. Qed.
Lemma fw_modify f (Q : unit -> stale -> kernel -> Prop) st st' s : others st s st' (f s) -> Q tt st' (f s) -> fw (modify f) Q st s.
Proof. intros Ho HQ. exists st'. split; [exact Ho|exact HQ]. Qed.
(** Only the thread itself decides which of its descriptors are stale. *)
Lemma fw_ghost {A} (m : KM A) Q st o s : fw m Q (<[i := o]> st) s -> fw m Q st s.
Proof.
  apply fd_safe_from. split; [|done]. intros j Hj. by rewrite fn_lookup_insert_ne by congruence.
Qed.

Lemma thread_frame L L' s s' : thread L s -> fd_frame s s' -> k_cur s' = Some i -> k_held s' = L' -> thread L' s'.
Proof. intros [_ _ Ha] F Hc Hh. split; [done|done|by eapply frame_alive]. Qed.

(** Code that leaves the descriptors alone. *)
Lemma fd_safe_quiet {A} (R : A -> list lockid) (Q : A -> stale -> kernel -> Prop) st s :
  (forall a st' s', mine st s st' s' -> thread (R a) s' -> Q a st' s') ->
  forall r st0 s0, fd_inv st0 s0 -> alive i s0 -> mine st s st0 s0 -> safe (fd_cover true) i R s0 r -> fd_safe Q st0 s0 r.
Proof.
  intros HQ. fix IH 1. intros [a s'|msg|s' k|] st0 s0 Hinv Hal Hm; cbn [safe fd_safe].
  - intros (F & Hc & Hh). exists st0. split; [exact (frame_others st0 s0 s' F)|]. apply HQ; [|split; [exact Hc|exact Hh|exact (frame_alive s0 s' i F Hal)]].
    eapply mine_trans; [exact Hm|]. split; [exact (fd_state_frame _ _ _ _ _ Hinv F)|]. split; [reflexivity|exact (frame_row s0 s' i F)].
  - exact (fun h => h).
  - intros ((_ & F & Hc & Hh) & Hk). exists st0. split; [exact (frame_others st0 s0 s' F)|]. pose proof (fd_state_frame _ _ _ _ _ Hinv F) as Hinv'.
    split; [exact Hinv'|]. split; [exact (conj Hc Hh)|]. intros _ st2 s2 Hm2 [Hc2 Hh2 Ha2].
    refine (IH (k s2) st2 s2 (proj1 Hm2) Ha2 _ (Hk s2 Hc2 Hh2)). eapply mine_trans; [exact Hm|]. eapply mine_trans; [|exact Hm2].
    split; [exact Hinv'|]. split; [reflexivity|exact (frame_row s0 s' i F)].
  - exact (fun h => h).
Qed.
Lemma fw_quiet {A} L (m : KM A) R (Q : A -> stale -> kernel -> Prop) st s :
  ok (fd_cover true) i L m R -> fd_inv st s -> thread L s ->
  (forall a st' s', mine st s st' s' -> thread (R a) s' -> Q a st' s') -> fw m Q st s.
Proof.
  intros Hok Hinv [Hc Hh Ha] HQ. eapply fd_safe_quiet; [exact HQ|exact Hinv|exact Ha|by split|by apply Hok].
Qed.

(** The same without giving up the CPU. *)
Lemma fw_still {A} L (m : KM A) R (Q : A -> stale -> kernel -> Prop) st s :
  ok (fd_cover false) i L m R -> thread L s ->
  (forall a s', fd_frame s s' -> thread (R a) s' -> Q a st s') -> fw m Q st s.
Proof.
  intros Hok Ht HQ. specialize (Hok s (th_cur _ _ Ht) (th_held _ _ Ht)). unfold fw. destruct (m s) as [a s'|msg|s' k|]; cbn [safe fd_safe] in *.
  - destruct Hok as (F & Hc & Hh). exists st. split; [by apply frame_others|]. apply HQ; [exact F|]. by eapply thread_frame.
  - exact Hok.
  - by destruct Hok as ((? & _) & _).
  - exact I.
Qed.

Lemma fw_findM {A B} (l : list A) (f : A -> KM (option B)) (Q : option B -> stale -> kernel -> Prop) st s :
  (forall x, x ∈ l -> fw (f x) (fun o st' s' => match o with None => st' = st /\ s' = s | Some b => Q (Some b) st' s' end) st s) ->
  Q None st s -> fw (findM l f) Q st s.
Proof.
  intros Hf HN. induction l as [|x l IH]; cbn [findM]; [by apply fw_ret|]. apply fw_bind. eapply fw_mono; [apply Hf; left|].
  intros [b|] st' s' HQ; [by apply fw_ret|]. destruct HQ as [-> ->]. apply IH. intros y Hy. apply Hf. by right.
Qed.
End threads.

(** ** The operations on the file table *)

Lemma held_id L s : k_held s = L -> with_k_held L s = s.
Proof. by intros <-. Qed.

Section operations.
Context (i : nat) `{LinkerOk} `{DiskSafe} `{Waits} `{Frame}.

Lemma thread_view L L' s s' : thread i L s -> k_cur s' = k_cur s -> k_procs s' = k_procs s -> k_held s' = L' -> thread i L' s'.
Proof. intros [Hc Hh Ha] Ec Ep Eh. split; [congruence|done|]. unfold alive. by rewrite Ep. Qed.

Lemma others_view st s s' : k_procs s' = k_procs s -> others i st s st s'.
Proof. intros Ep. split; [done|]. intros j Hj Ha. unfold row, alive. by rewrite Ep. Qed.

Lemma fw_acquire L l Q st s : thread i L s -> l ∉ L -> Q tt st (with_k_held (l :: L) s) -> fw i (acquire l) Q st s.
Proof.
  intros [Hc Hh Ha] Hl HQ. unfold fw, acquire. rewrite Hh, decide_False by done. exists st. split; [by apply others_view|exact HQ].
Qed.
Lemma fw_release L l Q st s : k_held s = l :: L -> l ∉ L -> Q tt st (with_k_held L s) -> fw i (release l) Q st s.
Proof.
  intros Hh Hl HQ. unfold fw, release. destruct (drops_here l L Hl) as [Hd1 Hd2]. rewrite Hh, decide_True, Hd2 by done.
  exists st. split; [by apply others_view|exact HQ].
Qed.
Lemma fw_release_last L l Q st s : k_held s = l :: L -> l ∉ L -> fw i (ret tt) Q st (with_k_held L s) -> fw i (release l) Q st s.
Proof.
  intros Hh Hl HQ. unfold fw, release. destruct (drops_here l L Hl) as [Hd1 Hd2]. rewrite Hh, decide_True, Hd2 by done.
  eapply fd_safe_from; [by apply others_view|exact HQ].
Qed.
Lemma fw_curproc {B} L (f : nat -> KM B) Q st s : thread i L s -> fw i (f i) Q st s -> fw i (bind curproc f) Q st s.
Proof. intros [Hc _ _]. unfold fw, bind, curproc. by rewrite Hc. Qed.

Definition with_file (f : nat) (g : file -> file) (s : kernel) : kernel := with_k_ftable (alter g f (k_ftable s)) s.
Definition with_row (j fd : nat) (o : option nat) (s : kernel) : kernel :=
  with_k_procs (alter (fun p => with_p_ofile (<[fd := o]> (p_ofile p)) p) j (k_procs s)) s.

Lemma fw_filealloc (Q : option nat -> stale -> kernel -> Prop) st s :
  thread i [] s -> length (k_ftable s) = Z.to_nat NFILE -> Q None st s ->
  (forall f x, k_ftable s !! f = Some x -> f_ref x = 0 -> Q (Some f) st (with_file f (with_f_ref 1) s)) -> fw i filealloc Q st s.
Proof.
  intros Ht Hlen HN HS. unfold filealloc. apply fw_bind. eapply fw_acquire; [exact Ht|apply not_elem_of_nil|].
  apply fw_bind. apply fw_findM.
  - intros f Hf%elem_of_seq. apply fw_bind, fw_gets. cbn [k_ftable with_k_held]. destruct (lookup_lt_is_Some_2 (k_ftable s) f) as [x Hx]; [lia|].
    rewrite (list_lookup_total_correct _ _ _ Hx). destruct (Z.eqb_spec (f_ref x) 0) as [E|E]; [|by apply fw_ret].
    apply fw_bind. apply (fw_modify i _ _ _ st); [by apply others_view|]. apply fw_bind. apply (fw_release [] Lftable); [reflexivity|apply not_elem_of_nil|].
    apply fw_ret, fw_ret. specialize (HS f x Hx E). rewrite <- (held_id [] (with_file f (with_f_ref 1) s)) in HS; [exact HS|apply Ht].
  - apply fw_bind. apply (fw_release [] Lftable); [reflexivity|apply not_elem_of_nil|]. apply fw_ret. rewrite <- (held_id [] s (th_held _ _ _ Ht)) in HN. exact HN.
Qed.

Definition dup_ref (x : file) : file := with_f_ref (i32 (f_ref x + 1)) x.
Lemma filedup_run L f x s : k_held s = L -> Lftable ∉ L -> k_ftable s !! f = Some x -> 1 <= f_ref x -> filedup f s = Ok f (with_file f dup_ref s).
Proof.
  intros Hh HL Hx Hr. unfold filedup, bind, acquire. rewrite Hh, decide_False by done. cbn [rbind]. unfold bind, file_at, gets. cbn [rbind k_ftable with_k_held].
  rewrite (list_lookup_total_correct _ _ _ Hx). destruct (Z.ltb_spec (f_ref x) 1); [lia|]. unfold bind, upd_file, modify. cbn [rbind].
  unfold bind, release. destruct (drops_here Lftable L HL) as [Hd1 Hd2]. cbn [k_held with_k_held with_k_ftable]. rewrite decide_True, Hd2 by done. cbn [rbind].
  unfold ret. by rewrite <- (held_id L (with_file f dup_ref s)) by (exact Hh).
Qed.
Lemma fw_filedup L (Q : nat -> stale -> kernel -> Prop) f x st s :
  thread i L s -> Lftable ∉ L -> k_ftable s !! f = Some x -> 1 <= f_ref x -> Q f st (with_file f dup_ref s) -> fw i (filedup f) Q st s.
Proof.
  intros Ht HL Hx Hr HQ. unfold fw. rewrite (filedup_run L f x s (th_held _ _ _ Ht) HL Hx Hr). exists st. split; [by apply others_view|exact HQ].
Qed.

Lemma fw_fdalloc L (Q : option nat -> stale -> kernel -> Prop) f st s :
  thread i L s -> length (row s i) = Z.to_nat NOFILE -> Q None st s ->
  (forall fd, row s i !! fd = Some None -> Q (Some fd) st (with_row i fd (Some f) s)) -> fw i (fdalloc f) Q st s.
Proof.
  intros Ht Hlen HN HS. unfold fdalloc. eapply fw_curproc; [exact Ht|]. apply fw_findM; [|exact HN].
  intros fd Hfd%elem_of_seq. apply fw_bind, fw_gets. fold (row s i). destruct (lookup_lt_is_Some_2 (row s i) fd) as [o Ho]; [lia|].
  rewrite (list_lookup_total_correct _ _ _ Ho). destruct o as [f'|]; [by apply fw_ret|].
  apply fw_bind. apply (fw_modify i _ _ _ st).
  { split; [done|]. intros j Hj (p & Hp & Hd). unfold row, alive. cbn [k_procs with_k_procs]. rewrite !list_lookup_total_alt, list_lookup_alter_ne by done. eauto. }
  apply fw_ret. by apply HS.
Qed.

Lemma fw_argint L (Q : Z -> stale -> kernel -> Prop) n st s : thread i L s -> (forall v, Q v st s) -> fw i (argint n) Q st s.
Proof.
  intros Ht HQ. unfold argint, argraw. apply fw_bind. eapply fw_curproc; [exact Ht|]. apply fw_bind, fw_gets, fw_bind, fw_gets.
  destruct (_ && _); [|reflexivity]. apply fw_ret, fw_ret, HQ.
Qed.
Lemma fw_argfd L (Q : option (nat * nat) -> stale -> kernel -> Prop) n st s :
  thread i L s -> length (row s i) = Z.to_nat NOFILE -> Q None st s ->
  (forall fd f, row s i !! fd = Some (Some f) -> Q (Some (fd, f)) st s) -> fw i (argfd n) Q st s.
Proof.
  intros Ht Hlen HN HS. unfold argfd. apply fw_bind. eapply fw_argint; [exact Ht|]. intros fd.
  destruct ((fd <? 0) || _) eqn:Eb; [by apply fw_ret|]. eapply fw_curproc; [exact Ht|]. apply fw_bind, fw_gets. fold (row s i).
  apply orb_false_iff in Eb as [E1%Z.ltb_ge E2%Z.leb_gt]. destruct (lookup_lt_is_Some_2 (row s i) (Z.to_nat fd)) as [o Ho]; [unfold NOFILE in *; lia|].
  unfold zget. rewrite (list_lookup_total_correct _ _ _ Ho). destruct o as [f|]; apply fw_ret; [by apply HS|exact HN].
Qed.

(** fileclose() up to the point where the entry has been given up. *)
Definition closed (x : file) : file :=
  if f_ref x =? 1 then with_f_type FD_NONE (with_f_ref 0 x) else with_f_ref (f_ref x - 1) x.
Lemma fw_fileclose (Q : unit -> stale -> kernel -> Prop) f x st s :
  thread i [] s -> k_ftable s !! f = Some x -> 1 <= f_ref x ->
  fw i (if f_ref x =? 1 then match f_type x with
        | FD_PIPE => pipeclose (f_pipe x) (f_writable x)
        | FD_INODE | FD_DEVICE => begin_op ;;; iput (f_ip x) ;;; end_op
        | FD_NONE => ret tt
        end else ret tt) Q st (with_file f closed s) -> fw i (fileclose f) Q st s.
Proof.
  intros Ht Hx Hr HQ. unfold fileclose. apply fw_bind. eapply fw_acquire; [exact Ht|apply not_elem_of_nil|]. apply fw_bind, fw_gets. cbn [k_ftable with_k_held].
  rewrite (list_lookup_total_correct _ _ _ Hx). destruct (Z.ltb_spec (f_ref x) 1); [lia|].
  apply fw_bind. apply (fw_modify i _ _ _ st); [by apply others_view|]. apply fw_bind, fw_gets. cbn [k_ftable with_k_held with_k_ftable].
  rewrite list_lookup_total_alt, list_lookup_alter_eq, Hx. cbn [fmap option_fmap option_map default id f_ref f_type f_pipe f_writable f_ip with_f_ref].
  pose proof (held_id [] (with_file f closed s) (th_held _ _ _ Ht)) as Eh.
  destruct (Z.eqb_spec (f_ref x) 1) as [E|E].
  - destruct (Z.ltb_spec 0 (f_ref x - 1)); [lia|]. apply fw_bind. apply (fw_modify i _ _ _ st); [by apply others_view|].
    apply fw_bind. apply (fw_release [] Lftable); [reflexivity|apply not_elem_of_nil|]. rewrite <- Eh in HQ.
    unfold with_file in HQ. replace (alter closed f (k_ftable s)) with (alter (fun x => with_f_type FD_NONE (with_f_ref 0 x)) f
      (alter (fun x => with_f_ref (f_ref x - 1) x) f (k_ftable s))) in HQ; [exact HQ|].
    rewrite list_alter_alter_eq. apply list_alter_ext; [|done]. intros x' Hx'. rewrite Hx in Hx'. injection Hx' as <-. unfold closed, compose. by rewrite E.
  - destruct (Z.ltb_spec 0 (f_ref x - 1)); [|lia]. apply (fw_release_last [] Lftable); [reflexivity|apply not_elem_of_nil|]. rewrite <- Eh in HQ. unfold with_file in HQ.
    replace (alter closed f (k_ftable s)) with (alter (fun x => with_f_ref (f_ref x - 1) x) f (k_ftable s)) in HQ; [exact HQ|].
    apply list_alter_ext; [|done]. intros x' Hx'. rewrite Hx in Hx'. injection Hx' as <-. unfold closed. destruct (Z.eqb_spec (f_ref x) 1); [lia|done].
Qed.

(** ** Descriptors and their files *)

Lemma row_lookup j s : alive j s -> exists p, k_procs s !! j = Some p /\ ~ dead p /\ row s j = p_ofile p.
Proof. intros (p & Hp & Hd). exists p. split_and!; [done..|]. unfold row. by rewrite (list_lookup_total_correct _ _ _ Hp). Qed.

Lemma row_length st e T s j : fd_state st e T s -> alive j s -> length (row s j) = Z.to_nat NOFILE.
Proof. intros Hs Ha. destruct (row_lookup j s Ha) as (p & Hp & _ & ->). by eapply fi_rows. Qed.

Lemma is_ref_range f o : 0 <= is_ref f o <= 1.
Proof. unfold is_ref. destruct (decide _); lia. Qed.
Lemma is_ref_eq f : is_ref f (Some f) = 1.
Proof. unfold is_ref. by rewrite decide_True. Qed.

Lemma refs_pos st s j fd f : alive j s -> st j = None -> row s j !! fd = Some (Some f) -> 1 <= refs st s f.
Proof.
  intros Ha Hst Hfd. destruct (row_lookup j s Ha) as (p & Hp & _ & Er). rewrite Er in Hfd.
  assert (1 <= row_refs f (p_ofile p)).
  { rewrite <- (is_ref_eq f). apply (total_member (is_ref f)); [intros o _; apply is_ref_range|]. by eapply list_elem_of_lookup_2. }
  pose proof (live_rows_lookup st s j p Hp) as Hl. rewrite Hst in Hl. cbn [live] in Hl.
  assert (row_refs f (p_ofile p) <= refs st s f); [|lia].
  apply (total_member (row_refs f)); [intros r _; pose proof (row_refs_bound f r); lia|]. by eapply list_elem_of_lookup_2.
Qed.

(** The file of a descriptor is open. *)
Lemma row_file st e T s j fd f : fd_state st e T s -> alive j s -> st j = None -> row s j !! fd = Some (Some f) ->
  exists x, k_ftable s !! f = Some x /\ f_ref x = refs st s f + e f /\ 1 <= refs st s f <= NPROC * NOFILE.
Proof.
  intros Hs Ha Hst Hfd. pose proof (refs_pos st s j fd f Ha Hst Hfd) as Hp. destruct (lookup_lt_is_Some_2 (k_ftable s) f) as [x Hx].
  { rewrite (fi_files _ _ _ _ Hs). apply (fi_range _ _ _ _ Hs). lia. }
  exists x. split; [done|]. split; [by eapply fi_ref|]. pose proof (refs_bound st e T s f Hs). lia.
Qed.

Lemma closed_state st e e' T T' s f x :
  fd_state st e T s -> k_ftable s !! f = Some x -> 1 <= f_ref x -> f ∉ T \/ f_ref x = 1 ->
  (forall k, e' k = e k - is_ref k (Some f)) -> (forall k, k <> f -> k ∉ T' -> k ∉ T) -> fd_state st e' T' (with_file f closed s).
Proof.
  intros Hs Hx Hr HT He' HT'. eapply (fd_state_file st e e' T T' s _ f closed); [exact Hs|done|done| |].
  - intros x' Hx'. rewrite Hx in Hx'. injection Hx' as <-. rewrite He', is_ref_eq. unfold closed.
    destruct (Z.eqb_spec (f_ref x) 1) as [E|E]; cbn; [split; [lia|done]|]. split; [lia|]. intros _. destruct HT as [HT|HT]; [|done].
    pose proof (fi_type _ _ _ _ Hs f x Hx HT) as Hty. split; [lia|]. intros Hn. apply Hty in Hn. lia.
  - intros k Hk. rewrite He'. unfold is_ref. rewrite decide_False by congruence. split; [lia|by apply HT'].
Qed.

(** The end of a system call. *)
Definition settled (st : stale) (s : kernel) (st' : stale) (s' : kernel) : Prop := mine i st s st' s' /\ thread i [] s'.

Lemma fileclose_settles (Q : unit -> stale -> kernel -> Prop) st e s f x :
  fd_state st e [] s -> thread i [] s -> k_ftable s !! f = Some x -> 1 <= f_ref x -> (forall k, e k = is_ref k (Some f)) ->
  (forall st' s', settled st s st' s' -> Q tt st' s') -> fw i (fileclose f) Q st s.
Proof.
  intros Hs Ht Hx Hr He HQ. eapply fw_fileclose; [done..|].
  assert (fd_inv st (with_file f closed s)) as Hinv by (eapply closed_state; [done..|left; apply not_elem_of_nil|intros k; rewrite He; lia|done]).
  assert (thread i [] (with_file f closed s)) as Ht' by (eapply thread_view; [exact Ht|done|done|apply Ht]).
  eapply (fw_quiet i [] _ (fun _ => [])); [|exact Hinv|exact Ht'|].
  - destruct (f_ref x =? 1); [|ok_auto]. destruct (f_type x); ok_auto.
  - intros [] st' s' (I' & A' & B') Ht2. apply HQ. split; [split; [exact I'|by split]|exact Ht2].
Qed.

Lemma fileclose_stays (Q : unit -> stale -> kernel -> Prop) st s f x :
  thread i [] s -> k_ftable s !! f = Some x -> 1 <= f_ref x -> f_type x = FD_NONE \/ f_type x = FD_PIPE ->
  (forall s', fd_frame (with_file f closed s) s' -> thread i [] s' -> Q tt st s') -> fw i (fileclose f) Q st s.
Proof.
  intros Ht Hx Hr Hty HQ. eapply fw_fileclose; [done..|].
  assert (thread i [] (with_file f closed s)) as Ht' by (eapply thread_view; [exact Ht|done|done|apply Ht]).
  eapply (fw_still i [] _ (fun _ => [])); [|exact Ht'|intros []; exact (HQ)].
  destruct (f_ref x =? 1); [|ok_auto]. destruct Hty as [-> | ->]; ok_auto.
Qed.

(** ** System calls *)

(** The call keeps the invariant, at its end and at every switch. *)
Definition keeps_fds {A} (m : KM A) : Prop := forall st s, fd_inv st s -> st i = None -> thread i [] s ->
  fw i m (fun _ st' s' => fd_inv st' s' /\ st' i = None /\ thread i [] s') st s.

Lemma settled_ends st s st' s' : st i = None -> settled st s st' s' -> fd_inv st' s' /\ st' i = None /\ thread i [] s'.
Proof. intros Hst ((I' & E & _) & Ht). split_and!; [exact I'|congruence|exact Ht]. Qed.

Lemma keeps_quiet {A} (m : KM A) : ok (fd_cover true) i [] m (fun _ => []) -> keeps_fds m.
Proof.
  intros Hok st s Hi Hst Ht. eapply fw_quiet; [exact Hok|done..|]. intros a st' s' Hm Ht'. apply (settled_ends st s); [done|by split].
Qed.

Lemma fw_arg {A} (m : KM A) (Q : A -> stale -> kernel -> Prop) st s : fd_inv st s -> thread i [] s -> ok (fd_cover false) i [] m (fun _ => []) ->
  (forall a s', fd_inv st s' -> thread i [] s' -> row s' i = row s i -> Q a st s') -> fw i m Q st s.
Proof.
  intros Hi Ht Hok HQ. eapply fw_still; [exact Hok|done|]. intros a s' F Ht'. apply HQ; [by eapply fd_state_frame|done|by apply frame_row].
Qed.

(** A call on the file of a descriptor. *)
Lemma keeps_argfd {A} n (f : option (nat * nat) -> KM A) :
  (forall st s, fd_inv st s -> st i = None -> thread i [] s -> fw i (f None) (fun _ st' s' => fd_inv st' s' /\ st' i = None /\ thread i [] s') st s) ->
  (forall st s fd g x, fd_inv st s -> st i = None -> thread i [] s -> row s i !! fd = Some (Some g) ->
     k_ftable s !! g = Some x -> f_ref x = refs st s g -> 1 <= refs st s g <= NPROC * NOFILE -> f_type x <> FD_NONE ->
     fw i (f (Some (fd, g))) (fun _ st' s' => fd_inv st' s' /\ st' i = None /\ thread i [] s') st s) ->
  keeps_fds (o <- argfd n ;; f o).
Proof.
  intros HN HS st s Hi Hst Ht. apply fw_bind. eapply fw_argfd; [exact Ht|by eapply row_length; [exact Hi|apply Ht]|by apply HN|].
  intros fd g Hfd. destruct (row_file _ _ _ _ _ _ _ Hi (th_alive _ _ _ Ht) Hst Hfd) as (x & Hx & Hr & Hb). rewrite Z.add_0_r in Hr.
  eapply HS; [done..|]. intros Hn. apply (fi_type _ _ _ _ Hi g x Hx (not_elem_of_nil _)) in Hn. lia.
Qed.

Lemma keeps_ret {A} (a : A) : keeps_fds (ret a).
Proof. apply keeps_quiet, ok_ret. Qed.

Lemma keeps_bind {A B} (m : KM A) (f : A -> KM B) : keeps_fds m -> (forall a, keeps_fds (f a)) -> keeps_fds (bind m f).
Proof.
  intros Hm Hf st s Hi Hst Ht. apply fw_bind. eapply fw_mono; [by apply Hm|]. intros a st' s' (Hi' & Hst' & Ht'). by apply Hf.
Qed.

#[local] Hint Extern 1 (ok _ _ _ (upd_file _ _) _) => apply upd_file_ok; reflexivity : ok.
(** Code that keeps the descriptors, and then returns. *)
Lemma fw_then_ret {A B} (m : KM A) (g : A -> B) st s : fd_inv st s -> st i = None -> thread i [] s -> ok (fd_cover true) i [] m (fun _ => []) ->
  fw i m (fun a => fw i (ret (g a)) (fun _ st' s' => fd_inv st' s' /\ st' i = None /\ thread i [] s')) st s.
Proof. intros Hi Hst Ht Hok. eapply fw_mono; [by apply (keeps_quiet _ Hok)|]. intros a st' s' Hend. by apply fw_ret. Qed.

Lemma sys_read_keeps : keeps_fds sys_read.
Proof.
  unfold sys_read. apply keeps_bind; [apply keeps_quiet; ok_auto|intros p]. apply keeps_bind; [apply keeps_quiet; ok_auto|intros n].
  apply keeps_argfd; [intros; by apply keeps_ret|]. intros st s fd f x Hi Hst Ht Hfd Hx Hr Hb Hty.
  unfold fileread. apply fw_bind, fw_bind, fw_gets. rewrite (list_lookup_total_correct _ _ _ Hx).
  destruct (negb _); [apply fw_then_ret; [done..|ok_auto]|]. destruct (f_type x); [done|apply fw_then_ret; [done..|ok_auto]..].
Qed.
Lemma sys_write_keeps : keeps_fds sys_write.
Proof.
  unfold sys_write. apply keeps_bind; [apply keeps_quiet; ok_auto|intros p]. apply keeps_bind; [apply keeps_quiet; ok_auto|intros n].
  apply keeps_argfd; [intros; by apply keeps_ret|]. intros st s fd f x Hi Hst Ht Hfd Hx Hr Hb Hty.
  unfold filewrite. cbv zeta. apply fw_bind, fw_bind, fw_gets. rewrite (list_lookup_total_correct _ _ _ Hx).
  destruct (negb _); [apply fw_then_ret; [done..|ok_auto]|]. destruct (f_type x); [done|apply fw_then_ret; [done..|ok_auto]..].
Qed.

(** The thread's own row. *)
Lemma thread_row L s j fd o : thread i L s -> thread i L (with_row j fd o s).
Proof.
  intros [Hc Hh (p & Hp & Hd)]. split; [exact Hc|exact Hh|]. unfold alive. cbn [k_procs with_k_procs with_row].
  destruct (decide (j = i)) as [->|Hj]; [rewrite list_lookup_alter_eq, Hp|rewrite list_lookup_alter_ne, Hp by done]; eauto.
Qed.
Lemma others_row st s fd o : others i st s st (with_row i fd o s).
Proof.
  split; [done|]. intros j Hj Ha. unfold row, alive in *. cbn [k_procs with_k_procs with_row]. by rewrite !list_lookup_total_alt, list_lookup_alter_ne by done.
Qed.
Lemma set_row_state st e e' T s fd o o' : fd_state st e T s -> alive i s -> st i = None -> row s i !! fd = Some o ->
  (forall f, o' = Some f -> (f < Z.to_nat NFILE)%nat) -> (forall f, e' f = e f + is_ref f o - is_ref f o') -> fd_state st e' T (with_row i fd o' s).
Proof.
  intros Hs Ha Hst Hfd Ho He. destruct (row_lookup i s Ha) as (p & Hp & Hd & Er). rewrite Er in Hfd.
  by eapply (fd_state_row st e e' T s _ i p fd o o').
Qed.

Lemma sys_dup_keeps : keeps_fds sys_dup.
Proof.
  unfold sys_dup. apply keeps_argfd; [intros; by apply keeps_ret|]. intros st s fd f x Hi Hst Ht Hfd Hx Hr Hb Hty.
  apply fw_bind. eapply fw_fdalloc; [exact Ht|by eapply row_length; [exact Hi|apply Ht]|by apply fw_ret|]. intros fd' Hfd'. apply fw_bind.
  eapply fw_filedup; [apply thread_row, Ht|apply not_elem_of_nil|exact Hx|lia|]. apply fw_ret.
  assert (fd_state st (fun k => - is_ref k (Some f)) [] (with_row i fd' (Some f) s)) as Hs1.
  { eapply set_row_state; [exact Hi|apply Ht|done|exact Hfd'| |].
    - intros f' [= <-]. rewrite <- (fi_files _ _ _ _ Hi). by eapply lookup_lt_Some.
    - intros k. unfold is_ref at 2. rewrite decide_False by done. lia. }
  split_and!; [|done|eapply thread_view; [apply thread_row, Ht|done|done|apply Ht]].
  eapply fd_state_file; [exact Hs1|done|done| |].
  - intros x' Hx'. change (k_ftable s !! f = Some x') in Hx'. rewrite Hx in Hx'. injection Hx' as <-. rewrite is_ref_eq. unfold NPROC, NOFILE in *.
    cbn [dup_ref f_ref with_f_ref f_type]. rewrite i32_id by lia. split; [lia|]. intros _. split; [lia|done].
  - intros k Hk. unfold is_ref. rewrite decide_False by congruence. done.
Qed.
Lemma sys_close_keeps : keeps_fds sys_close.
Proof.
  unfold sys_close. apply keeps_argfd; [intros; by apply keeps_ret|]. intros st s fd f x Hi Hst Ht Hfd Hx Hr Hb Hty.
  eapply fw_curproc; [exact Ht|]. apply fw_bind. apply (fw_modify i _ _ _ st); [apply others_row|]. apply fw_bind.
  eapply (fileclose_settles _ st (fun k => is_ref k (Some f)) (with_row i fd None s) f x); [|apply thread_row, Ht|exact Hx|lia|done|].
  - eapply set_row_state; [exact Hi|apply Ht|done|exact Hfd|done|]. intros k. unfold is_ref at 3. rewrite decide_False by done. lia.
  - intros st' s' Hend. apply fw_ret. by eapply settled_ends.
Qed.

(** A file just allocated: one reference, no type yet. *)
Lemma fresh_state st e e' T s f x : fd_state st e T s -> k_ftable s !! f = Some x -> f_ref x = 0 ->
  (forall k, e' k = e k + is_ref k (Some f)) -> fd_state st e' (f :: T) (with_file f (with_f_ref 1) s).
Proof.
  intros Hs Hx Hr He. eapply fd_state_file; [exact Hs|done|done| |].
  - intros x' Hx'. rewrite Hx in Hx'. injection Hx' as <-. rewrite He, is_ref_eq, Hr. split; [cbn; lia|]. intros HT. destruct HT. left.
  - intros k Hk. rewrite He. unfold is_ref. rewrite decide_False by congruence. split; [lia|]. intros HT. apply not_elem_of_cons in HT. tauto.
Qed.

Lemma fw_settle {A} (m : KM A) st s : ok (fd_cover true) i [] m (fun _ => []) -> fd_inv st s -> st i = None -> thread i [] s ->
  fw i m (fun _ st' s' => fd_inv st' s' /\ st' i = None /\ thread i [] s') st s.
Proof. intros Hok Hi Hst Ht. by apply (keeps_quiet _ Hok). Qed.

(** The file gets its type. *)
Lemma typed_state st e T T' s f g x : fd_state st e T s -> k_ftable s !! f = Some x -> 1 <= f_ref x ->
  (forall y, f_ref (g y) = f_ref y /\ f_type (g y) <> FD_NONE) -> (forall k, k <> f -> k ∉ T' -> k ∉ T) -> fd_state st e T' (with_file f g s).
Proof.
  intros Hs Hx Hr Hg HT. eapply fd_state_file; [exact Hs|done|done| |].
  - intros x' Hx'. rewrite Hx in Hx'. injection Hx' as <-. destruct (Hg x) as [-> Hn]. split; [lia|]. intros _. split; [lia|done].
  - intros k Hk. split; [done|by apply HT].
Qed.

Lemma sys_open_keeps : keeps_fds sys_open.
Proof.
  unfold sys_open. apply keeps_bind; [apply keeps_quiet; ok_auto|intros omode]. apply keeps_bind; [apply keeps_quiet; ok_auto|intros [n path]].
  destruct (n <? 0); [apply keeps_ret|]. apply keeps_bind; [apply keeps_quiet; ok_auto|intros _]. apply keeps_bind; [apply keeps_quiet; ok_auto|intros [ip|]]; [|apply keeps_quiet; ok_auto].
  apply keeps_bind; [apply keeps_quiet; ok_auto|intros y]. destruct (_ && _); [apply keeps_quiet; ok_auto|].
  intros st s Hi Hst Ht. apply fw_bind. eapply fw_filealloc; [exact Ht|apply Hi| |].
  { apply fw_bind, fw_ret. apply fw_settle; [|done..]. ok_fun close_opt. }
  intros f x Hx Hr. pose proof (fresh_state st _ (fun k => is_ref k (Some f)) [] s f x Hi Hx Hr (fun _ => eq_refl)) as Hs1.
  set (s1 := with_file f (with_f_ref 1) s) in *. assert (thread i [] s1) as Ht1 by (eapply thread_view; [exact Ht|done|done|apply Ht]).
  assert (k_ftable s1 !! f = Some (with_f_ref 1 x)) as Hx1 by (unfold s1, with_file; cbn [k_ftable with_k_ftable]; by rewrite list_lookup_alter_eq, Hx).
  apply fw_bind. eapply fw_fdalloc; [exact Ht1|by eapply row_length; [exact Hs1|apply Ht1]| |].
  - cbn [close_opt]. apply fw_bind. eapply fileclose_stays; [exact Ht1|exact Hx1|cbn; lia| |].
    + left. cbn. by apply (fi_type _ _ _ _ Hi f x Hx (not_elem_of_nil _)).
    + intros s' F Ht'. apply fw_settle; [ok_auto| |done|exact Ht']. eapply fd_state_frame; [|exact F].
      eapply closed_state; [exact Hs1|exact Hx1|cbn; lia|by right|intros k; cbn beta; lia|]. intros k Hk _. apply not_elem_of_cons. split; [done|apply not_elem_of_nil].
  - intros fd Hfd. assert (fd_state st (fun _ => 0) [f] (with_row i fd (Some f) s1)) as Hs2.
    { eapply set_row_state; [exact Hs1|apply Ht1|done|exact Hfd| |].
      - intros f' [= <-]. rewrite <- (fi_files _ _ _ _ Hi). by eapply lookup_lt_Some.
      - intros k. unfold is_ref at 2. rewrite decide_False by done. lia. }
    assert (forall g, (forall y, f_ref (g y) = f_ref y /\ f_type (g y) <> FD_NONE) -> fd_inv st (with_file f g (with_row i fd (Some f) s1))) as Hs3.
    { intros g Hg. eapply typed_state; [exact Hs2|exact Hx1|cbn; lia|exact Hg|]. intros k Hk _. apply not_elem_of_cons. split; [done|apply not_elem_of_nil]. }
    apply fw_bind. destruct (_ =? _); (apply (fw_modify i _ _ _ st); [by apply others_view|]);
      (apply fw_settle; [ok_auto|by apply Hs3|done|eapply thread_view; [apply thread_row, Ht1|done|done|apply Ht1]]).
Qed.

(** ** Pipes *)

Lemma frame_file s s' f x : fd_frame s s' -> k_ftable s !! f = Some x -> exists x', k_ftable s' !! f = Some x' /\ file_view x' = file_view x.
Proof.
  intros F Hx. pose proof (f_equal (.!! f) (ff_files _ _ F)) as E. rewrite !list_lookup_fmap, Hx in E.
  destruct (k_ftable s' !! f) as [x'|]; [|done]. exists x'. split; [done|]. cbn in E. congruence.
Qed.

(** A file without descriptors, one reference being held by the code. *)
Definition held_file (s : kernel) (f : nat) : Prop := exists x, k_ftable s !! f = Some x /\ f_ref x = 1 /\ (f_type x = FD_NONE \/ f_type x = FD_PIPE).

Lemma held_frame s s' f : fd_frame s s' -> held_file s f -> held_file s' f.
Proof. intros F (x & Hx & Hr & Hty). destruct (frame_file s s' f x F Hx) as (x' & Hx' & [= E1 E2]). exists x'. rewrite E1, E2. auto. Qed.

Lemma fw_close_held {A} (k : KM A) Q st e e' T T' s f : fd_state st e T s -> thread i [] s -> held_file s f ->
  (forall j, e' j = e j - is_ref j (Some f)) -> (forall j, j <> f -> j ∉ T' -> j ∉ T) ->
  (forall s', fd_state st e' T' s' -> thread i [] s' -> row s' i = row s i -> (forall g, g <> f -> held_file s g -> held_file s' g) -> fw i k Q st s') ->
  fw i (fileclose f ;;; k) Q st s.
Proof.
  intros Hs Ht (x & Hx & Hr & Hty) He HT HQ. apply fw_bind. eapply fileclose_stays; [exact Ht|exact Hx|lia|exact Hty|]. intros s' F Ht'.
  apply HQ; [eapply fd_state_frame; [|exact F]; eapply closed_state; [exact Hs|exact Hx|lia|by right|exact He|exact HT]|exact Ht'| |].
  - by rewrite (frame_row _ s' i F).
  - intros g Hg Hh. eapply held_frame; [exact F|]. destruct Hh as (y & Hy & Hyr & Hyt). exists y. unfold with_file. cbn [k_ftable with_k_ftable].
    by rewrite list_lookup_alter_ne by done.
Qed.

(** Giving up both ends. *)
Lemma fw_close_pair {A} (k : KM A) Q st e T s r w : r <> w -> fd_state st e T s -> thread i [] s -> held_file s r -> held_file s w ->
  (forall j, e j = is_ref j (Some r) + is_ref j (Some w)) -> (forall j, j <> r -> j <> w -> j ∉ T) ->
  (forall s', fd_inv st s' -> thread i [] s' -> row s' i = row s i -> fw i k Q st s') ->
  fw i (fileclose r ;;; fileclose w ;;; k) Q st s.
Proof.
  intros Hrw Hs Ht Hr Hw He HT HQ. eapply (fw_close_held _ _ _ _ (fun j => is_ref j (Some w)) _ [w]); [exact Hs|done|done|intros j; cbn beta; rewrite He; lia| |].
  { intros j Hj Hn. apply HT; [done|]. by apply not_elem_of_cons in Hn as [Hn _]. }
  intros s' Hs' Ht' Er Hh. eapply (fw_close_held _ _ _ _ (fun _ => 0) _ []); [exact Hs'|done|by apply Hh|intros j; cbn beta; lia| |].
  { intros j Hj _. apply not_elem_of_cons. split; [done|apply not_elem_of_nil]. }
  intros s2 Hs2 Ht2 Er2 _. apply HQ; [done..|congruence].
Qed.

Lemma fresh_held s f x : k_ftable s !! f = Some x -> f_type x = FD_NONE -> held_file (with_file f (with_f_ref 1) s) f.
Proof. intros Hx Hty. exists (with_f_ref 1 x). unfold with_file. cbn. rewrite list_lookup_alter_eq, Hx. auto. Qed.

(** The two ends get their types. *)
Lemma pipe_ends st e s r w g h : r <> w -> fd_state st e [w; r] s -> held_file s r -> held_file s w ->
  (forall y, f_ref (g y) = f_ref y /\ f_type (g y) = FD_PIPE) -> (forall y, f_ref (h y) = f_ref y /\ f_type (h y) = FD_PIPE) ->
  let s' := with_file w h (with_file r g s) in fd_state st e [] s' /\ held_file s' r /\ held_file s' w.
Proof.
  intros Hrw Hs (x & Hx & Hxr & _) (y & Hy & Hyr & _) Hg Hh.
  assert (k_ftable (with_file r g s) !! w = Some y) as Hy1 by (unfold with_file; cbn [k_ftable with_k_ftable]; by rewrite list_lookup_alter_ne).
  assert (fd_state st e [w] (with_file r g s)) as Hs1.
  { eapply typed_state; [exact Hs|exact Hx|lia|intros z; destruct (Hg z) as [-> ->]; done|]. intros k Hk Hn. apply not_elem_of_cons in Hn as [Hn _].
    apply not_elem_of_cons. split; [done|]. apply not_elem_of_cons. split; [done|apply not_elem_of_nil]. }
  split_and!.
  - eapply typed_state; [exact Hs1|exact Hy1|lia|intros z; destruct (Hh z) as [-> ->]; done|]. intros k Hk _. apply not_elem_of_cons. split; [done|apply not_elem_of_nil].
  - exists (g x). unfold with_file. cbn [k_ftable with_k_ftable]. rewrite list_lookup_alter_ne, list_lookup_alter_eq, Hx by done. destruct (Hg x) as [-> ->]. auto.
  - exists (h y). unfold with_file at 1. cbn [k_ftable with_k_ftable]. rewrite list_lookup_alter_eq, Hy1. destruct (Hh y) as [-> ->]. auto.
Qed.

(** pipealloc() answers two files that no descriptor refers to yet. *)
Lemma fw_pipealloc (Q : option (nat * nat) -> stale -> kernel -> Prop) st s : fd_inv st s -> thread i [] s ->
  (forall s', fd_inv st s' -> thread i [] s' -> row s' i = row s i -> Q None st s') ->
  (forall r w s', r <> w -> fd_state st (fun j => is_ref j (Some r) + is_ref j (Some w)) [] s' -> thread i [] s' -> row s' i = row s i ->
     held_file s' r -> held_file s' w -> Q (Some (r, w)) st s') -> fw i pipealloc Q st s.
Proof.
  intros Hi Ht HN HS. unfold pipealloc. apply fw_bind. eapply fw_filealloc; [exact Ht|apply Hi| |].
  { apply fw_bind, fw_ret. apply fw_bind, fw_ret. cbn [close_opt]. apply fw_bind, fw_ret. apply fw_bind, fw_ret. apply fw_ret. by apply HN. }
  intros r x Hx Hr. pose proof (fresh_state st _ (fun k => is_ref k (Some r)) [] s r x Hi Hx Hr (fun _ => eq_refl)) as Hs1.
  pose proof (fresh_held s r x Hx (proj1 (fi_type _ _ _ _ Hi r x Hx (not_elem_of_nil _)) Hr)) as Hh1.
  set (s1 := with_file r (with_f_ref 1) s) in *. assert (thread i [] s1) as Ht1 by (eapply thread_view; [exact Ht|done|done|apply Ht]).
  apply fw_bind. eapply fw_filealloc; [exact Ht1|apply Hs1| |].
  { apply fw_bind, fw_ret. cbn [close_opt]. eapply (fw_close_held _ _ _ _ (fun _ => 0) _ []); [exact Hs1|done|done|intros j; cbn beta; lia| |].
    - intros j Hj _. apply not_elem_of_cons. split; [done|apply not_elem_of_nil].
    - intros s' Hs' Ht' Er _. apply fw_bind, fw_ret, fw_ret. by apply HN. }
  intros w y Hy Hyr. assert (r <> w) as Hrw by (destruct Hh1 as (z & Hz & Hz1 & _); intros ->; rewrite Hy in Hz; injection Hz as ->; lia).
  pose proof (fresh_state st _ (fun k => is_ref k (Some r) + is_ref k (Some w)) [r] s1 w y Hs1 Hy Hyr (fun _ => eq_refl)) as Hs2.
  assert (f_type y = FD_NONE) as Hyn.
  { apply (fi_type _ _ _ _ Hs1 w y Hy); [|exact Hyr]. apply not_elem_of_cons. split; [done|apply not_elem_of_nil]. }
  pose proof (fresh_held s1 w y Hy Hyn) as Hh2. set (s2 := with_file w (with_f_ref 1) s1) in *.
  assert (held_file s2 r) as Hh1' by (destruct Hh1 as (z & Hz & Hz'); exists z; unfold s2, with_file; cbn [k_ftable with_k_ftable]; by rewrite list_lookup_alter_ne by done).
  apply fw_bind. eapply (fw_still i [] _ (fun _ => [])); [ok_auto|eapply thread_view; [exact Ht1|done|done|apply Ht1]|].
  intros pi s3 F3 Ht3. pose proof (fd_state_frame _ _ _ _ _ Hs2 F3) as Hs3. pose proof (held_frame _ _ _ F3 Hh1') as Hr3. pose proof (held_frame _ _ _ F3 Hh2) as Hw3.
  assert (row s3 i = row s i) as Er3 by (by rewrite (frame_row _ _ i F3)). destruct (pi =? 0).
  - eapply fw_close_pair; [exact Hrw|exact Hs3|done..| |].
    + intros j Hjr Hjw. apply not_elem_of_cons. split; [done|]. apply not_elem_of_cons. split; [done|apply not_elem_of_nil].
    + intros s' Hi' Ht' Er. apply fw_ret. apply HN; [done..|congruence].
  - apply fw_bind. apply (fw_modify i _ _ _ st); [by apply others_view|]. apply fw_bind. apply (fw_modify i _ _ _ st); [by apply others_view|].
    apply fw_bind. apply (fw_modify i _ _ _ st); [by apply others_view|]. apply fw_ret.
    assert (fd_frame s3 (with_k_pipes (<[pi := mkPipe (replicate (Z.to_nat PIPESIZE) 5) 0 0 true true]> (k_pipes s3)) s3)) as F4 by (by split; eauto).
    pose proof (fd_state_frame _ _ _ _ _ Hs3 F4) as Hs4. pose proof (held_frame _ _ _ F4 Hr3) as Hr4. pose proof (held_frame _ _ _ F4 Hw3) as Hw4.
    destruct (pipe_ends st _ _ r w (fun x => with_f_pipe pi (with_f_writable false (with_f_readable true (with_f_type FD_PIPE x))))
      (fun x => with_f_pipe pi (with_f_writable true (with_f_readable false (with_f_type FD_PIPE x)))) Hrw Hs4 Hr4 Hw4) as (Hs5 & Hr5 & Hw5); [done..|].
    apply HS; [exact Hrw|exact Hs5|eapply thread_view; [exact Ht3|done|done|apply Ht3]|exact Er3|exact Hr5|exact Hw5].
Qed.

Lemma held_row s j fd o f : held_file s f -> held_file (with_row j fd o s) f.
Proof. exact (fun h => h). Qed.
Lemma held_range st e T s f : fd_state st e T s -> held_file s f -> (f < Z.to_nat NFILE)%nat.
Proof. intros Hs (x & Hx & _). rewrite <- (fi_files _ _ _ _ Hs). by eapply lookup_lt_Some. Qed.
Lemma row_set s fd o fd' : alive i s -> row (with_row i fd o s) i !! fd' = (<[fd := o]> (row s i)) !! fd'.
Proof.
  intros (p & Hp & _). unfold row, with_row. cbn [k_procs with_k_procs]. by rewrite !list_lookup_total_alt, list_lookup_alter_eq, Hp.
Qed.

(** Failing after both files were allocated. *)
Lemma pipe_fails st s r w : r <> w -> st i = None -> fd_state st (fun j => is_ref j (Some r) + is_ref j (Some w)) [] s -> thread i [] s -> held_file s r -> held_file s w ->
  fw i (fileclose r ;;; fileclose w ;;; ret fail) (fun _ st' s' => fd_inv st' s' /\ st' i = None /\ thread i [] s') st s.
Proof.
  intros Hrw Hst Hs Ht Hr Hw. eapply fw_close_pair; [exact Hrw|exact Hs|done..|intros; apply not_elem_of_nil|]. intros s' Hi' Ht' _. by apply fw_ret.
Qed.

(** Both descriptors are in place: tell the process, or take them back. *)
Lemma pipe_delivers st s fdarray r w a b : r <> w -> a <> b -> st i = None -> fd_inv st s -> thread i [] s -> held_file s r -> held_file s w ->
  row s i !! a = Some (Some r) -> row s i !! b = Some (Some w) ->
  fw i (p <- proc_at i ;;
        v <- copyout (p_pagetable p) fdarray (le_bytes 4 (Z.of_nat a)) ;;
        v <- (if v <? 0 then ret v else copyout (p_pagetable p) (u64 (fdarray + 4)) (le_bytes 4 (Z.of_nat b))) ;;
        if v <? 0 then set_ofile i a None ;;; set_ofile i b None ;;; fileclose r ;;; fileclose w ;;; ret fail else ret 0)
    (fun _ st' s' => fd_inv st' s' /\ st' i = None /\ thread i [] s') st s.
Proof.
  intros Hrw Hab Hst Hs Ht Hr Hw Ha Hb. apply fw_bind, fw_gets. apply fw_bind. eapply (fw_still i [] _ (fun _ => [])); [ok_auto|exact Ht|]. intros v1 s1 F1 Ht1.
  apply fw_bind. eapply (fw_still i [] _ (fun _ => [])); [ok_auto|exact Ht1|]. intros v2 s2 F2 Ht2.
  assert (fd_frame s s2) as F by (by transitivity s1). destruct (v2 <? 0); [|apply fw_ret; split_and!; [by eapply fd_state_frame|done|done]].
  pose proof (fd_state_frame _ _ _ _ _ Hs F) as Hs2. pose proof (held_frame _ _ _ F Hr) as Hr2. pose proof (held_frame _ _ _ F Hw) as Hw2.
  rewrite <- (frame_row _ _ i F) in Ha, Hb. apply fw_bind. apply (fw_modify i _ _ _ st); [apply others_row|].
  apply fw_bind. apply (fw_modify i _ _ _ st); [apply others_row|]. pose proof (thread_row [] s2 i a None Ht2) as Ht3.
  assert (fd_state st (fun j => is_ref j (Some r)) [] (with_row i a None s2)) as Hs3.
  { eapply set_row_state; [exact Hs2|apply Ht2|done|exact Ha|done|]. intros k. unfold is_ref at 3. rewrite decide_False by done. lia. }
  assert (fd_state st (fun j => is_ref j (Some r) + is_ref j (Some w)) [] (with_row i b None (with_row i a None s2))) as Hs4.
  { eapply set_row_state; [exact Hs3|apply Ht3|done|rewrite row_set by apply Ht2; rewrite list_lookup_insert_ne by done; exact Hb|done|].
    intros k. unfold is_ref at 5. rewrite decide_False by done. lia. }
  apply pipe_fails; [exact Hrw|exact Hst|exact Hs4|by apply thread_row|exact Hr2|exact Hw2].
Qed.

Lemma sys_pipe_keeps : keeps_fds sys_pipe.
Proof.
  intros st s Hi Hst Ht. unfold sys_pipe. eapply fw_curproc; [exact Ht|]. apply fw_bind. eapply fw_arg; [exact Hi|exact Ht|ok_auto|].
  intros fdarray s0 Hi0 Ht0 _. clear s Hi Ht. apply fw_bind. eapply fw_pipealloc; [exact Hi0|exact Ht0| |].
  { intros s' Hi' Ht' _. by apply fw_ret. }
  intros r w s Hrw Hs Ht _ Hr Hw. clear s0 Hi0 Ht0. apply fw_bind. eapply fw_fdalloc; [exact Ht|by eapply row_length; [exact Hs|apply Ht]| |].
  { apply fw_bind, fw_ret. apply fw_bind, fw_ret. by apply pipe_fails. }
  intros a Ha. set (s1 := with_row i a (Some r) s). pose proof (thread_row [] s i a (Some r) Ht) as Ht1. fold s1 in Ht1.
  assert (fd_state st (fun j => is_ref j (Some w)) [] s1) as Hs1.
  { eapply set_row_state; [exact Hs|apply Ht|done|exact Ha|intros f [= <-]; by eapply held_range|]. intros k. unfold is_ref at 4. rewrite decide_False by done. lia. }
  assert (row s1 i !! a = Some (Some r)) as Ha1.
  { unfold s1. rewrite row_set by apply Ht. apply list_lookup_insert_eq. by eapply lookup_lt_Some. }
  apply fw_bind. eapply fw_fdalloc; [exact Ht1|by eapply row_length; [exact Hs1|apply Ht1]| |].
  { apply fw_bind. apply (fw_modify i _ _ _ st); [apply others_row|]. apply pipe_fails; [done|done| |by apply thread_row|exact Hr|exact Hw].
    eapply set_row_state; [exact Hs1|apply Ht1|done|exact Ha1|done|]. intros k. unfold is_ref at 5. rewrite decide_False by done. lia. }
  intros b Hb. set (s2 := with_row i b (Some w) s1). pose proof (thread_row [] s1 i b (Some w) Ht1) as Ht2. fold s2 in Ht2.
  assert (b <> a) as Hab by (intros ->; congruence).
  assert (fd_inv st s2) as Hs2.
  { eapply set_row_state; [exact Hs1|apply Ht1|done|exact Hb|intros f [= <-]; by eapply held_range; [exact Hs1|]|]. intros k. unfold is_ref at 2. rewrite decide_False by done. lia. }
  assert (row s2 i !! a = Some (Some r) /\ row s2 i !! b = Some (Some w)) as [Ha2 Hb2].
  { unfold s2. rewrite !row_set by apply Ht1. rewrite list_lookup_insert_ne by done. split; [exact Ha1|]. apply list_lookup_insert_eq. by eapply lookup_lt_Some. }
  apply pipe_delivers; done.
Qed.

(** ** Code that does not give up the CPU

    What it does to other processes is compared at its end with its beginning:
    in between it owns the slots that were free. *)

Definition fs {A} (m : KM A) (Q : A -> kernel -> Prop) (s : kernel) : Prop :=
  match m s with
  | Ok a s' => Q a s'
  | Panic msg => lock_panic msg || file_panic msg = false
  | Swtch _ _ => False
  | NoFuel => True
  end.

Lemma fw_fs {A} (m : KM A) Q st s : fs m (fun a s' => exists st', others i st s st' s' /\ Q a st' s') s -> fw i m Q st s.
Proof. unfold fs, fw. by destruct (m s). Qed.
Lemma fs_ret {A} (a : A) (Q : A -> kernel -> Prop) s : Q a s -> fs (ret a) Q s.
Proof. exact (fun h => h). Qed.
Lemma fs_gets {A} (f : kernel -> A) (Q : A -> kernel -> Prop) s : Q (f s) s -> fs (gets f) Q s.
Proof. exact (fun h => h). Qed.
Lemma fs_modify f (Q : unit -> kernel -> Prop) s : Q tt (f s) -> fs (modify f) Q s.
Proof. exact (fun h => h). Qed.
Lemma fs_bind {A B} (m : KM A) (f : A -> KM B) Q s : fs m (fun a s' => fs (f a) Q s') s -> fs (bind m f) Q s.
Proof. unfold fs, bind. by destruct (m s). Qed.
Lemma fs_mono {A} (m : KM A) (Q Q' : A -> kernel -> Prop) s : fs m Q s -> (forall a s', Q a s' -> Q' a s') -> fs m Q' s.
Proof. unfold fs. destruct (m s); auto. Qed.
Lemma fs_still {A} L (m : KM A) R (Q : A -> kernel -> Prop) s : ok (fd_cover false) i L m R -> thread i L s ->
  (forall a s', fd_frame s s' -> thread i (R a) s' -> Q a s') -> fs m Q s.
Proof.
  intros Hok Ht HQ. specialize (Hok s (th_cur _ _ _ Ht) (th_held _ _ _ Ht)). unfold fs. destruct (m s) as [a s'|msg|s' k|]; cbn [safe] in *.
  - destruct Hok as (F & Hc & Hh). apply HQ; [exact F|]. by eapply thread_frame.
  - exact Hok.
  - by destruct Hok as ((? & _) & _).
  - exact I.
Qed.
Lemma fs_forM {A} (I : list A -> kernel -> Prop) (l : list A) (f : A -> KM unit) s :
  I l s -> (forall x rest s, I (x :: rest) s -> fs (f x) (fun _ s' => I rest s') s) -> fs (forM l f) (fun _ s' => I [] s') s.
Proof.
  intros H0' Hstep. revert s H0'. induction l as [|x l IH]; intros s HI; cbn [forM]; [exact HI|]. apply fs_bind. eapply fs_mono; [by apply Hstep|]. eauto.
Qed.
Lemma fs_loop {A B} (I : A -> kernel -> Prop) fuel (body : A -> KM (A + B)) a (Q : B -> kernel -> Prop) s :
  I a s -> (forall a s, I a s -> fs (body a) (fun r s' => match r with inl a' => I a' s' | inr b => Q b s' end) s) -> fs (loop fuel body a) Q s.
Proof.
  intros HI Hb. revert a s HI. induction fuel as [|fuel IH]; intros a s HI; cbn [loop]; [done|]. apply fs_bind. eapply fs_mono; [by apply Hb|].
  intros [a'|b] s' HQ; [by apply IH|exact HQ].
Qed.
Lemma fs_findM {A B} (I : kernel -> Prop) (l : list A) (f : A -> KM (option B)) (Q : option B -> kernel -> Prop) s :
  I s -> (forall x s, x ∈ l -> I s -> fs (f x) (fun o s' => match o with None => I s' | Some b => Q (Some b) s' end) s) -> (forall s, I s -> Q None s) -> fs (findM l f) Q s.
Proof.
  intros HI Hf HN. revert s HI. induction l as [|x l IH]; intros s HI; cbn [findM]; [by apply HN|]. apply fs_bind. eapply fs_mono; [apply Hf; [left|exact HI]|].
  intros [b|] s' HQ; [exact HQ|]. apply IH; [|exact HQ]. intros y s2 Hy. apply Hf. by right.
Qed.

(** A slot without descriptors is given back. *)
Definition empty_row (s : kernel) (j : nat) : Prop := forall p, k_procs s !! j = Some p -> Forall (fun o => o = None) (p_ofile p).
Lemma frame_empty s s' j : fd_frame s s' -> empty_row s j -> empty_row s' j.
Proof.
  intros F He p' Hp'. pose proof (f_equal (.!! j) (ff_rows _ _ F)) as E. rewrite !list_lookup_fmap, Hp' in E.
  destruct (k_procs s !! j) as [p|] eqn:Hp; [|done].
  assert (p_ofile p' = p_ofile p) as -> by (injection E; exact (fun h => h)). by apply He.
Qed.

Lemma buried_state st s j g : fd_inv st s -> st j = None -> empty_row s j -> (forall p, p_ofile (g p) = p_ofile p) ->
  fd_inv st (with_k_procs (alter g j (k_procs s)) s).
Proof.
  intros [F P R C G Ty D] Hst He Hg.
  assert (p_ofile <$> alter g j (k_procs s) = p_ofile <$> k_procs s) as Er.
  { apply list_eq. intros k. rewrite !list_lookup_fmap. destruct (decide (j = k)) as [->|Hk]; [rewrite list_lookup_alter_eq|by rewrite list_lookup_alter_ne].
    destruct (k_procs s !! k); cbn; [|done]. by rewrite Hg. }
  assert (forall f, refs st (with_k_procs (alter g j (k_procs s)) s) f = refs st s f) as Hrefs by (intros f; unfold refs, live_rows; cbn; by rewrite Er).
  split; cbn [k_ftable k_procs with_k_procs]; [done|by rewrite length_alter| | | |done|].
  - intros k p Hk. destruct (decide (k = j)) as [->|Hkj]; [|rewrite list_lookup_alter_ne in Hk by done; eauto].
    rewrite list_lookup_alter_eq in Hk. destruct (k_procs s !! j) as [p0|] eqn:Hp; [|done]. injection Hk as <-. rewrite Hg. eauto.
  - intros f x Hx. rewrite Hrefs. eauto.
  - intros f. rewrite Hrefs. apply G.
  - intros k p Hk Hd. destruct (decide (k = j)) as [->|Hkj]; [|rewrite list_lookup_alter_ne in Hk by done; eauto].
    rewrite list_lookup_alter_eq in Hk. destruct (k_procs s !! j) as [p0|] eqn:Hp; [|done]. injection Hk as <-. rewrite Hg. split; [by apply He|done].
Qed.

(** In the middle of such code, which began in the state [s0]. *)
Record working (st : stale) (s0 : kernel) (L : list lockid) (s : kernel) : Prop := {
  wk_inv : fd_inv st s;
  wk_thread : thread i L s;
  wk_others : others i st s0 st s;
  wk_row : row s i = row s0 i;
}.

Lemma working_refl st s L : fd_inv st s -> thread i L s -> working st s L s.
Proof. intros Hi Ht. split; [done|done|apply others_refl|done]. Qed.
Lemma working_frame st s0 L L' s s' : working st s0 L s -> fd_frame s s' -> thread i L' s' -> working st s0 L' s'.
Proof.
  intros [Hi Ht Ho Hr] F Ht'. split; [by eapply fd_state_frame|exact Ht'|eapply others_trans; [exact Ho|by apply frame_others]|].
  by rewrite (frame_row _ _ i F).
Qed.

(** A slot that was free at the beginning may change. *)
Lemma working_slot st s0 L s s' j g : working st s0 L s -> j <> i -> ~ alive j s0 -> fd_inv st s' ->
  k_procs s' = alter g j (k_procs s) -> k_cur s' = k_cur s -> k_held s' = L -> working st s0 L s'.
Proof.
  intros [Hi Ht Ho Hr] Hj Hd Hi' Ep Ec Eh. split; [exact Hi'| | |].
  - destruct Ht as [Hc _ (p & Hp & Hdp)]. split; [congruence|exact Eh|]. exists p. by rewrite Ep, list_lookup_alter_ne.
  - destruct Ho as [E1 Ho]. split; [exact E1|]. intros k Hk Ha. destruct (Ho k Hk Ha) as (E2 & (p & Hp & Hdp)). assert (j <> k) by (by intros ->).
    unfold row, alive in *. rewrite Ep, list_lookup_total_alt, list_lookup_alter_ne, <- list_lookup_total_alt by done. eauto.
  - unfold row in *. by rewrite Ep, list_lookup_total_alt, list_lookup_alter_ne, <- list_lookup_total_alt.
Qed.

Lemma fs_quiet {A} st s0 L (m : KM A) (Q : A -> kernel -> Prop) s : working st s0 L s -> ok (fd_cover false) i L m (fun _ => L) ->
  (forall a s', fd_frame s s' -> working st s0 L s' -> Q a s') -> fs m Q s.
Proof. intros Hw Hok HQ. eapply fs_still; [exact Hok|apply Hw|]. intros a s' F Ht'. apply HQ; [done|by eapply working_frame]. Qed.

Lemma fs_freeproc st s0 L j (Q : unit -> kernel -> Prop) s : working st s0 L s -> Lkmem ∉ L -> st j = None -> empty_row s j -> j <> i -> ~ alive j s0 ->
  (forall s', working st s0 L s' -> Q tt s') -> fs (freeproc j) Q s.
Proof.
  intros Hw HL Hst He Hj Hd HQ. unfold freeproc. apply fs_bind. apply (fs_quiet st s0 L); [exact Hw|ok_auto|]. intros p s1 F1 Hw1.
  apply fs_bind. apply (fs_quiet st s0 L); [exact Hw1|ok_auto|]. intros [] s2 F2 Hw2. apply fs_bind. apply (fs_quiet st s0 L); [exact Hw2|ok_auto|]. intros [] s3 F3 Hw3.
  apply fs_bind. apply (fs_quiet st s0 L); [exact Hw3|ok_auto|]. intros [] s4 F4 Hw4. apply fs_bind. apply (fs_quiet st s0 L); [exact Hw4|ok_auto|]. intros [] s5 F5 Hw5.
  assert (empty_row s5 j) as He5 by (repeat (eapply frame_empty; [eassumption|]); exact He).
  apply HQ. eapply working_slot; [exact Hw5|exact Hj|exact Hd| |reflexivity|reflexivity|apply Hw5]. by apply buried_state; [apply Hw5|..].
Qed.

(** The slot [np] as fork() gets it. *)
Definition embryo (st : stale) (s0 : kernel) (np : nat) (s : kernel) : Prop :=
  np <> i /\ ~ alive np s0 /\ st np = None /\ empty_row s np /\ working st s0 [Lproc np] s.

Lemma embryo_frame st s0 np s s' : embryo st s0 np s -> fd_frame s s' -> thread i [Lproc np] s' -> embryo st s0 np s'.
Proof. intros (E1 & E2 & E3 & E4 & E5) F Ht. split_and!; [done..|by eapply frame_empty|by eapply working_frame]. Qed.
Lemma fs_embryo {A} st s0 np (m : KM A) (Q : A -> kernel -> Prop) s : embryo st s0 np s -> ok (fd_cover false) i [Lproc np] m (fun _ => [Lproc np]) ->
  (forall a s', fd_frame s s' -> embryo st s0 np s' -> Q a s') -> fs m Q s.
Proof. intros He Hok HQ. eapply fs_still; [exact Hok|apply He|]. intros a s' F Ht'. apply HQ; [done|by eapply embryo_frame]. Qed.

(** Giving it up again. *)
Lemma fs_abandon {A} st s0 np (k : KM A) (Q : A -> kernel -> Prop) s : embryo st s0 np s ->
  (forall s', working st s0 [] s' -> fs k Q s') -> fs (freeproc np ;;; release (Lproc np) ;;; k) Q s.
Proof.
  intros (Hj & Hd & Hst & He & Hw) HQ. apply fs_bind. eapply fs_freeproc; [exact Hw|by apply not_elem_of_cons; split; [|apply not_elem_of_nil]|done..|].
  intros s1 Hw1. apply fs_bind. eapply (fs_still [Lproc np] _ (fun _ => [])); [ok_auto|apply Hw1|]. intros [] s2 F2 Ht2. apply HQ. by eapply working_frame.
Qed.

(** A free slot was found. *)
Lemma found_embryo st s s1 np : fd_inv st s -> thread i [] s -> fd_frame s s1 -> thread i [Lproc np] s1 -> (np < Z.to_nat NPROC)%nat ->
  p_state (k_procs s1 !!! np) = UNUSED -> embryo st s np s1.
Proof.
  intros Hi Ht F Ht1 Hn Hu. pose proof (fd_state_frame _ _ _ _ _ Hi F) as Hi1. destruct (lookup_lt_is_Some_2 (k_procs s1) np) as [p Hp]; [by rewrite (fi_procs _ _ _ _ Hi1)|].
  rewrite (list_lookup_total_correct _ _ _ Hp) in Hu. assert (dead p) as Hdp by (by left). destruct (fi_dead _ _ _ _ Hi1 np p Hp Hdp) as [He Hst].
  assert (~ alive np s1) as Hna by (intros (q & Hq & Hnd); rewrite Hp in Hq; injection Hq as <-; done).
  split_and!; [|by intros Ha%(frame_alive _ _ _ F)|done| |eapply working_frame; [by apply working_refl|exact F|exact Ht1]].
  - intros ->. by destruct Hna, Ht1.
  - intros q Hq. rewrite Hp in Hq. by injection Hq as <-.
Qed.

Lemma fs_allocproc st s (Q : option nat -> kernel -> Prop) : fd_inv st s -> thread i [] s ->
  (forall s', working st s [] s' -> Q None s') -> (forall np s', embryo st s np s' -> alive np s' -> Q (Some np) s') -> fs allocproc Q s.
Proof.
  intros Hi Ht HN HS. unfold allocproc. apply fs_bind. eapply (fs_findM (fun s' => fd_frame s s' /\ thread i [] s')); [done| |].
  2: { intros s' [F Ht']. apply HN. eapply working_frame; [by apply working_refl|exact F|exact Ht']. }
  intros np s1 Hnp%elem_of_seq [F1 Ht1]. apply fs_bind. eapply (fs_still [] _ (fun _ => [Lproc np])); [ok_auto|exact Ht1|]. intros [] s2 F2 Ht2.
  assert (fd_frame s s2) as F by (by transitivity s1). apply fs_bind. apply fs_gets. case_decide as Hu.
  2: { apply fs_bind. eapply (fs_still [Lproc np] _ (fun _ => [])); [ok_auto|exact Ht2|]. intros [] s3 F3 Ht3. split; [by transitivity s2|exact Ht3]. }
  assert (np < length (k_procs s2))%nat as Hlt by (rewrite (fi_procs _ _ _ _ (fd_state_frame _ _ _ _ _ Hi F)); lia).
  pose proof (found_embryo st s s2 np Hi Ht F Ht2 ltac:(lia) Hu) as He2. apply fs_ret.
  apply fs_bind. apply (fs_embryo st s np); [exact He2|ok_auto|]. intros pid s3 F3 He3. apply fs_bind. apply (fs_embryo st s np); [exact He3|ok_auto|]. intros [] s4 F4 He4.
  apply fs_bind, fs_modify. cbn beta. set (s5 := with_k_procs _ s4). assert (fd_frame s4 s5) as F5 by (apply frame_upd_proc; [done|by intros p [|]]).
  assert (embryo st s np s5) as He5 by (eapply embryo_frame; [exact He4|exact F5|eapply thread_frame; [apply He4|exact F5|apply He4|apply He4]]).
  assert (alive np s5) as Ha5.
  { destruct He4 as (_ & _ & _ & _ & Hw4). destruct (lookup_lt_is_Some_2 (k_procs s4) np) as [p Hp]; [rewrite (fi_procs _ _ _ _ (wk_inv _ _ _ _ Hw4)); lia|].
    exists (with_p_state USED p). unfold s5. cbn [k_procs with_k_procs]. rewrite list_lookup_alter_eq, Hp. split; [done|by intros [|]]. }
  clearbody s5. apply fs_bind. apply (fs_embryo st s np); [exact He5|ok_auto|]. intros tf s6 F6 He6.
  apply fs_bind. apply (fs_embryo st s np); [exact He6|ok_auto|]. intros [] s7 F7 He7. destruct (tf =? 0); [apply (fs_abandon st s np); [exact He7|by intros; apply fs_ret, HN]|].
  apply fs_bind. apply (fs_embryo st s np); [exact He7|ok_auto|]. intros [] s8 F8 He8. apply fs_bind. apply (fs_embryo st s np); [exact He8|ok_auto|]. intros pt s9 F9 He9.
  apply fs_bind. apply (fs_embryo st s np); [exact He9|ok_auto|]. intros [] s10 F10 He10. destruct (pt =? 0); [apply (fs_abandon st s np); [exact He10|by intros; apply fs_ret, HN]|].
  apply fs_bind. apply (fs_embryo st s np); [exact He10|ok_auto|]. intros [] s11 F11 He11. apply fs_ret, HS; [exact He11|].
  do 6 (eapply frame_alive; [eassumption|]). exact Ha5.
Qed.

(** The loop of fork() that duplicates the descriptors. *)
Record cloning (st : stale) (s0 : kernel) (np : nat) (rw : list (option nat)) (rest : list nat) (s : kernel) : Prop := {
  cl_new : np <> i /\ ~ alive np s0 /\ st np = None /\ alive np s;
  cl_work : working st s0 [Lproc np] s;
  cl_row : row s i = rw;
  cl_rest : forall fd, fd ∈ rest -> row s np !! fd = Some None;
}.

Lemma fs_dup_one st s0 np rw fd rest s : cloning st s0 np rw (fd :: rest) s -> fd ∉ rest -> st i = None ->
  fs (match rw !! fd with
      | Some (Some f) => f' <- filedup f ;; upd_proc np (fun q => with_p_ofile (<[fd := Some f']> (p_ofile q)) q)
      | _ => ret tt
      end) (fun _ s' => cloning st s0 np rw rest s') s.
Proof.
  intros [(Hj & Hd & Hst & Ha) Hw Hrw Hrest] Hnin Hsti.
  assert (forall s', cloning st s0 np rw (fd :: rest) s' -> cloning st s0 np rw rest s') as Htl.
  { intros s' [N' W' R' S']. split; [done..|]. intros fd' Hfd'. apply S'. by right. }
  destruct (rw !! fd) as [[f|]|] eqn:Ef; [|by apply fs_ret, Htl..]. rewrite <- Hrw in Ef.
  destruct (row_file _ _ _ _ _ _ _ (wk_inv _ _ _ _ Hw) (th_alive _ _ _ (wk_thread _ _ _ _ Hw)) Hsti Ef) as (x & Hx & Hr & Hb). rewrite Z.add_0_r in Hr.
  apply fs_bind. unfold fs at 1. rewrite (filedup_run [Lproc np] f x s) by (first [apply Hw|done|lia|by apply not_elem_of_cons; split; [|apply not_elem_of_nil]]).
  apply fs_modify. fold (with_row np fd (Some f) (with_file f dup_ref s)). set (s' := with_row _ _ _ _).
  assert (row s np !! fd = Some None) as Hfd by (apply Hrest; left). destruct (row_lookup np s Ha) as (q & Hq & Hqd & Eq). rewrite Eq in Hfd.
  assert (fd_inv st s') as Hi'.
  { eapply (fd_state_row st (fun k => is_ref k (Some f)) _ [] (with_file f dup_ref s) _ np q fd None (Some f)); [|done..| |].
    - eapply (fd_state_file st (fun _ => 0) _ [] []); [apply Hw|done|done| |]; [|intros k Hk; unfold is_ref; by rewrite decide_False by congruence].
      intros x' Hx'. rewrite Hx in Hx'. injection Hx' as <-. rewrite is_ref_eq. unfold NPROC, NOFILE in *. cbn. rewrite i32_id by lia. split; [lia|]. intros _.
      pose proof (fi_type _ _ _ _ (wk_inv _ _ _ _ Hw) f x Hx (not_elem_of_nil _)) as Hty. split; [lia|]. intros Hn. apply Hty in Hn. lia.
    - intros f' [= <-]. rewrite <- (fi_files _ _ _ _ (wk_inv _ _ _ _ Hw)). by eapply lookup_lt_Some.
    - intros k. unfold is_ref at 2. rewrite decide_False by done. lia. }
  split.
  - split_and!; [done..|]. exists (with_p_ofile (<[fd := Some f]> (p_ofile q)) q). unfold s'. cbn. by rewrite list_lookup_alter_eq, Hq.
  - eapply (working_slot st s0 _ s s' np); [exact Hw|done|done|exact Hi'|reflexivity|reflexivity|apply Hw].
  - unfold row, s', with_row in *. cbn [k_procs with_k_procs with_file with_k_ftable]. by rewrite list_lookup_total_alt, list_lookup_alter_ne, <- list_lookup_total_alt.
  - intros fd' Hfd'. unfold row, s', with_row. cbn [k_procs with_k_procs with_file with_k_ftable]. rewrite list_lookup_total_alt, list_lookup_alter_eq, Hq.
    cbn. rewrite list_lookup_insert_ne by (by intros ->). rewrite <- Eq. apply Hrest. by right.
Qed.

Lemma fs_curproc {B} L (f : nat -> KM B) Q s : thread i L s -> fs (f i) Q s -> fs (bind curproc f) Q s.
Proof. intros [Hc _ _]. unfold fs, bind, curproc. by rewrite Hc. Qed.

(** The loop of fork(): afterwards the child has the descriptors of the parent. *)
Lemma fs_dup_all st s0 np s : embryo st s0 np s -> alive np s -> st i = None ->
  fs (forM (seq 0 (Z.to_nat NOFILE)) (fun fd =>
        match row s i !! fd with
        | Some (Some f) => f' <- filedup f ;; upd_proc np (fun q => with_p_ofile (<[fd := Some f']> (p_ofile q)) q)
        | _ => ret tt
        end)) (fun _ s' => working st s0 [Lproc np] s') s.
Proof.
  intros (Hj & Hd & Hst & He & Hw) Ha Hsti.
  eapply fs_mono; [eapply (fs_forM (fun rest s' => NoDup rest /\ cloning st s0 np (row s i) rest s'))|intros [] s' [_ [_ Hw' _ _]]; exact Hw'].
  - split; [apply NoDup_seq|]. split; [done|exact Hw|done|]. intros fd Hfd%elem_of_seq. destruct (row_lookup np s Ha) as (q & Hq & _ & ->).
    specialize (He q Hq). destruct (lookup_lt_is_Some_2 (p_ofile q) fd) as [o Ho].
    + rewrite (fi_rows _ _ _ _ (wk_inv _ _ _ _ Hw) np q Hq). lia.
    + rewrite Ho. f_equal. rewrite Forall_lookup in He. by eapply He.
  - intros fd rest s' [Hnd Hcl]. apply NoDup_cons in Hnd as [Hnin Hnd]. eapply fs_mono; [by apply fs_dup_one|]. by intros [] s2 Hcl2.
Qed.

Lemma fork_keeps : keeps_fds fork.
Proof.
  intros st s Hi Hst Ht. apply fw_fs. eapply (fs_mono _ (fun _ s' => working st s [] s')).
  2: { intros a s' Hw. exists st. split; [apply Hw|]. split_and!; [apply Hw|done|apply Hw]. }
  unfold fork. eapply fs_curproc; [exact Ht|]. apply fs_bind. eapply fs_allocproc; [exact Hi|exact Ht|by intros; apply fs_ret|].
  intros np s1 He1 Ha1. apply fs_bind, fs_gets. apply fs_bind, fs_gets.
  apply fs_bind. apply (fs_embryo st s np); [exact He1|ok_auto|]. intros r s2 F2 He2. destruct (r <? 0); [apply (fs_abandon st s np); [exact He2|by intros; apply fs_ret]|].
  apply fs_bind. apply (fs_embryo st s np); [exact He2|ok_auto|]. intros [] s3 F3 He3. apply fs_bind. apply (fs_embryo st s np); [exact He3|ok_auto|]. intros tf s4 F4 He4.
  apply fs_bind. apply (fs_embryo st s np); [exact He4|ok_auto|]. intros [] s5 F5 He5. apply fs_bind. apply (fs_embryo st s np); [exact He5|ok_auto|]. intros [] s6 F6 He6.
  assert (row s6 i = p_ofile (k_procs s1 !!! i)) as Er by (change (row s6 i = row s1 i); by rewrite (frame_row _ _ i F6), (frame_row _ _ i F5), (frame_row _ _ i F4), (frame_row _ _ i F3), (frame_row _ _ i F2)).
  rewrite <- Er. assert (alive np s6) as Ha6 by (do 5 (eapply frame_alive; [eassumption|]); exact Ha1).
  apply fs_bind. eapply fs_mono; [by apply (fs_dup_all st s np s6)|]. intros [] s7 Hw7. destruct (p_cwd _) as [d|]; [|reflexivity].
  eapply (fs_still [Lproc np] _ (fun _ => [])); [ok_auto|apply Hw7|]. intros v s8 F8 Ht8. by eapply working_frame.
Qed.

(** ** wait() and exit() *)

(** A process found dead had been dead before. *)
Lemma dead_slot st s0 L s j p : working st s0 L s -> k_procs s !! j = Some p -> dead p -> j <> i /\ ~ alive j s0 /\ st j = None /\ empty_row s j.
Proof.
  intros Hw Hp Hd. assert (~ alive j s) as Hna by (intros (q & Hq & Hnd); rewrite Hp in Hq; injection Hq as <-; done).
  assert (j <> i) as Hj by (intros ->; apply Hna, Hw). destruct (fi_dead _ _ _ _ (wk_inv _ _ _ _ Hw) j p Hp Hd) as [He Hst].
  split_and!; [done| |done|]; [intros Ha; by destruct (proj2 (wk_others _ _ _ _ Hw) j Hj Ha) as (_ & ?)|]. intros q Hq. rewrite Hp in Hq. by injection Hq as <-.
Qed.

Lemma fs_let_go {A} st s0 pp (k : KM A) (Q : A -> kernel -> Prop) s : working st s0 [Lproc pp; Lwait] s ->
  (forall s', working st s0 [] s' -> fs k Q s') -> fs (release (Lproc pp) ;;; release Lwait ;;; k) Q s.
Proof.
  intros Hw HQ. apply fs_bind. eapply (fs_still [Lproc pp; Lwait] _ (fun _ => [Lwait])); [ok_auto|apply Hw|]. intros [] s1 F1 Ht1.
  apply fs_bind. eapply (fs_still [Lwait] _ (fun _ => [])); [ok_auto|exact Ht1|]. intros [] s2 F2 Ht2.
  apply HQ. eapply working_frame; [by eapply working_frame|exact F2|exact Ht2].
Qed.

Lemma fs_wait_scan st s0 addr s : working st s0 [Lwait] s ->
  fs (wait_scan i addr) (fun r s' => working st s0 (match r with inl _ => [] | inr _ => [Lwait] end) s') s.
Proof.
  intros Hw. unfold wait_scan. cbv zeta. eapply (fs_loop (fun _ s' => working st s0 [Lwait] s')); [exact Hw|]. clear s Hw. intros [pp hk] s Hw.
  case_decide as Hpp; [|by apply fs_ret]. apply fs_bind, fs_gets. case_decide as Hpar; [|by apply fs_ret].
  apply fs_bind. eapply (fs_still [Lwait] _ (fun _ => [Lproc pp; Lwait])); [ok_auto|apply Hw|]. intros [] s1 F1 Ht1. pose proof (working_frame _ _ _ _ _ _ Hw F1 Ht1) as Hw1.
  apply fs_bind, fs_gets. case_decide as Hz.
  2: { apply fs_bind. eapply (fs_still [Lproc pp; Lwait] _ (fun _ => [Lwait])); [ok_auto|exact Ht1|]. intros [] s2 F2 Ht2. apply fs_ret. by eapply working_frame. }
  destruct (lookup_lt_is_Some_2 (k_procs s1) pp) as [q Hq]; [rewrite (fi_procs _ _ _ _ (wk_inv _ _ _ _ Hw1)); lia|].
  rewrite (list_lookup_total_correct _ _ _ Hq) in *. destruct (dead_slot _ _ _ _ _ _ Hw1 Hq (or_intror Hz)) as (Hj & Hna & Hst & He).
  apply fs_bind, fs_gets. apply fs_bind. apply (fs_quiet st s0 [Lproc pp; Lwait]); [exact Hw1|destruct (negb _); ok_auto|]. intros r s2 F2 Hw2. destruct (r <? 0).
  - apply (fs_let_go st s0 pp); [exact Hw2|]. intros s3 Hw3. by apply fs_ret.
  - apply fs_bind. eapply fs_freeproc; [exact Hw2| |done|by eapply frame_empty|done..|].
    + apply not_elem_of_cons. split; [done|]. apply not_elem_of_cons. split; [done|apply not_elem_of_nil].
    + intros s3 Hw3. apply (fs_let_go st s0 pp); [exact Hw3|]. intros s4 Hw4. by apply fs_ret.
Qed.

Lemma fw_loop {A B} (I : A -> stale -> kernel -> Prop) fuel (body : A -> KM (A + B)) a (Q : B -> stale -> kernel -> Prop) st s :
  I a st s -> (forall a st s, I a st s -> fw i (body a) (fun r st' s' => match r with inl a' => I a' st' s' | inr b => Q b st' s' end) st s) -> fw i (loop fuel body a) Q st s.
Proof.
  intros HI Hb. revert a st s HI. induction fuel as [|fuel IH]; intros a st s HI; cbn [loop]; [exact Logic.I|]. apply fw_bind. eapply fw_mono; [by apply Hb|].
  intros [a'|b] st' s' HQ; [by apply IH|by apply fw_ret].
Qed.
Lemma fw_forM {A} (I : list A -> stale -> kernel -> Prop) (l : list A) (f : A -> KM unit) st s :
  I l st s -> (forall x rest st s, I (x :: rest) st s -> fw i (f x) (fun _ st' s' => I rest st' s') st s) -> fw i (forM l f) (fun _ st' s' => I [] st' s') st s.
Proof.
  intros HI Hf. revert st s HI. induction l as [|x l IH]; intros st s HI; cbn [forM]; [by apply fw_ret|]. apply fw_bind. eapply fw_mono; [by apply Hf|].
  intros [] st' s' HI'. by apply IH.
Qed.

Lemma wait_keeps addr : keeps_fds (wait addr).
Proof.
  intros st s Hi Hst Ht. unfold wait. eapply fw_curproc; [exact Ht|]. apply fw_bind. eapply (fw_quiet i [] _ (fun _ => [Lwait])); [ok_auto|done..|].
  intros [] st1 s1 (Hi1 & Hst1 & _) Ht1. eapply (fw_loop (fun _ st s => fd_inv st s /\ st i = None /\ thread i [Lwait] s)); [split_and!; [done|congruence|done]|].
  clear dependent st s st1 s1. intros _ st s (Hi & Hst & Ht). apply fw_bind, fw_fs. eapply fs_mono; [apply (fs_wait_scan st s); by apply working_refl|].
  intros r s1 [Hi1 Ht1 Ho1 _]. exists st. split; [exact Ho1|]. destruct r as [v|hk]; [by apply fw_ret|].
  apply fw_bind. eapply (fw_quiet i [Lwait] _ (fun _ => [Lwait])); [ok_auto|done..|]. intros k st2 s2 (Hi2 & Hst2 & _) Ht2. destruct k.
  - apply fw_bind. eapply (fw_quiet i [Lwait] _ (fun _ => [])); [ok_auto|done..|]. intros [] st3 s3 (Hi3 & Hst3 & _) Ht3. apply fw_ret. split_and!; [done|congruence|done].
  - apply fw_bind. eapply (fw_quiet i [Lwait] _ (fun _ => [Lwait])); [ok_auto|done..|]. intros [] st3 s3 (Hi3 & Hst3 & _) Ht3. apply fw_ret. split_and!; [done|congruence|done].
Qed.

(** exit() has still to close the descriptors [rest]. *)
Definition closing (rest : list nat) (st : stale) (s : kernel) : Prop :=
  fd_inv st s /\ st i = None /\ thread i [] s /\ forall fd o, row s i !! fd = Some o -> fd ∉ rest -> o = None.

Lemma closing_next fd rest st s : closing (fd :: rest) st s -> (forall f, row s i !! fd <> Some (Some f)) -> closing rest st s.
Proof.
  intros (Hi & Hst & Ht & Hcl) Hn. split_and!; [done..|]. intros fd' o Ho Hr. destruct (decide (fd' = fd)) as [->|Hne].
  - destruct o as [f|]; [|done]. by destruct (Hn f).
  - apply (Hcl fd' o Ho). apply not_elem_of_cons. by split.
Qed.

(** While fileclose() runs, and perhaps sleeps, the descriptor is stale. *)
Lemma fw_close_one fd rest st s : closing (fd :: rest) st s ->
  fw i (p <- proc_at i ;;
        match p_ofile p !! fd with
        | Some (Some f) => fileclose f ;;; upd_proc i (fun p => with_p_ofile (<[fd := None]> (p_ofile p)) p)
        | _ => ret tt
        end) (fun _ st' s' => closing rest st' s') st s.
Proof.
  intros Hcl. apply fw_bind, fw_gets. fold (row s i). destruct (row s i !! fd) as [[f|]|] eqn:Efd; [|apply fw_ret; eapply closing_next; [exact Hcl|congruence]..].
  destruct Hcl as (Hi & Hst & Ht & Hcl). destruct (row_lookup i s (th_alive _ _ _ Ht)) as (p & Hp & Hd & Er).
  destruct (row_file _ _ _ _ _ _ _ Hi (th_alive _ _ _ Ht) Hst Efd) as (x & Hx & Hr & Hb). rewrite Z.add_0_r in Hr. rewrite Er in Efd.
  apply fw_bind. apply (fw_ghost i _ _ _ (Some fd)). eapply (fileclose_settles _ _ (fun k => is_ref k (Some f)) s f x); [|done|done|lia|done|].
  { eapply (fd_state_stale st); [exact Hi|exact Hp|exact Hd|exact Hst|exact Efd|]. intros k. cbn beta. lia. }
  intros st' s' ((Hi' & Hst' & Er') & Ht'). rewrite fn_lookup_insert in Hst'. apply (fw_modify i _ _ _ (<[i := None]> st')).
  { split; [|apply (others_row st' s' fd None)]. intros j Hj. by rewrite fn_lookup_insert_ne by congruence. }
  destruct (row_lookup i s' (th_alive _ _ _ Ht')) as (p' & Hp' & Hd' & _).
  split_and!; [by eapply fd_state_cleared|by rewrite fn_lookup_insert|by apply (thread_row [] s' i fd None)|].
  intros fd' o Ho Hn. change (row (with_row i fd None s') i !! fd' = Some o) in Ho. rewrite row_set, Er' in Ho by apply Ht'.
  destruct (decide (fd' = fd)) as [->|Hne].
  - rewrite list_lookup_insert_eq in Ho by (rewrite Er; by eapply lookup_lt_Some). congruence.
  - rewrite list_lookup_insert_ne in Ho by done. apply (Hcl fd' o Ho). apply not_elem_of_cons. by split.
Qed.

Lemma fw_close_all st s : fd_inv st s -> st i = None -> thread i [] s ->
  fw i (forM (seq 0 (Z.to_nat NOFILE)) (fun fd =>
          p <- proc_at i ;;
          match p_ofile p !! fd with
          | Some (Some f) => fileclose f ;;; upd_proc i (fun p => with_p_ofile (<[fd := None]> (p_ofile p)) p)
          | _ => ret tt
          end))
    (fun _ st' s' => closing [] st' s') st s.
Proof.
  intros Hi Hst Ht. apply (fw_forM closing); [|intros; by apply fw_close_one]. split_and!; [done..|]. intros fd o Ho Hn. destruct Hn. apply elem_of_seq.
  pose proof (lookup_lt_Some _ _ _ Ho) as Hlt. rewrite (row_length _ _ _ _ _ Hi (th_alive _ _ _ Ht)) in Hlt. lia.
Qed.

(** The end of exit(): the process is a zombie, and its slot is not resumed. *)
Lemma fw_bury {A} (Q : A -> stale -> kernel -> Prop) st s : fd_inv st s -> st i = None -> thread i [Lproc i; Lwait] s -> empty_row s i ->
  fw i (upd_proc i (with_p_state ZOMBIE) ;;; release Lwait ;;; sched ;;; panic "zombie exit") Q st s.
Proof.
  intros Hi Hst [Hc Hh (p & Hp & Hd)] He. apply fw_bind. apply (fw_modify i _ _ _ st).
  { split; [done|]. intros j Hj Ha. unfold row, alive in *. cbn [k_procs with_k_procs]. by rewrite !list_lookup_total_alt, list_lookup_alter_ne by done. }
  set (s1 := with_k_procs _ s). assert (fd_inv st s1) as Hi1 by (by apply buried_state).
  assert (p_state (k_procs s1 !!! i) = ZOMBIE) as Hz by (unfold s1; cbn [k_procs with_k_procs]; by rewrite list_lookup_total_alt, list_lookup_alter_eq, Hp).
  assert (~ alive i s1) as Hna by (intros (q & Hq & Hnd); rewrite (list_lookup_total_correct _ _ _ Hq) in Hz; apply Hnd; by right).
  change (k_held s1 = [Lproc i; Lwait]) in Hh. change (k_cur s1 = Some i) in Hc. clearbody s1. clear s p Hi Hp Hd He.
  apply fw_bind. unfold fw at 1, release. rewrite Hh, decide_True by (right; left). exists st. split; [by apply others_view|].
  change (filter (fun l' => l' <> Lwait) [Lproc i; Lwait]) with [Lproc i]. set (s2 := with_k_held [Lproc i] s1).
  apply fw_bind. unfold sched, fw at 1, bind at 1, curproc. change (k_cur s2) with (k_cur s1). rewrite Hc. cbn [rbind]. unfold bind at 1, holding, gets. cbn [rbind].
  change (k_held s2) with [Lproc i]. rewrite bool_decide_true by left. cbn [negb]. unfold bind at 1, gets. cbn [rbind]. change (length (k_held s2)) with 1%nat. cbn [Nat.eqb negb].
  unfold bind, proc_at, gets. cbn [rbind]. change (k_procs s2) with (k_procs s1). rewrite Hz, decide_False by done.
  exists st. split; [apply others_refl|]. split; [eapply fd_state_frame; [exact Hi1|by split; eauto]|]. split; [done|]. by intros Ha.
Qed.

(** The process has closed everything. *)
Definition rested (L : list lockid) (st : stale) (s : kernel) : Prop :=
  fd_inv st s /\ st i = None /\ thread i L s /\ Forall (fun o => o = None) (row s i).

Lemma fw_next {A B} L L' (m : KM A) (f : A -> KM B) Q st s : rested L st s -> ok (fd_cover true) i L m (fun _ => L') ->
  (forall a st' s', rested L' st' s' -> fw i (f a) Q st' s') -> fw i (bind m f) Q st s.
Proof.
  intros (Hi & Hst & Ht & Hr) Hok HQ. apply fw_bind. eapply fw_quiet; [exact Hok|done..|]. intros a st' s' (Hi' & Hst' & Hr') Ht'. apply HQ.
  split_and!; [done|congruence|done|by rewrite Hr'].
Qed.

Lemma exit_safe status (Q : unit -> stale -> kernel -> Prop) st s : fd_inv st s -> st i = None -> thread i [] s -> fw i (exit status) Q st s.
Proof.
  intros Hi Hst Ht. unfold exit. eapply fw_curproc; [exact Ht|]. apply fw_bind, fw_gets. case_decide; [reflexivity|].
  apply fw_bind. eapply fw_mono; [by apply fw_close_all|]. clear dependent st s. intros [] st s (Hi & Hst & Ht & Hcl).
  assert (rested [] st s) as Hr by (split_and!; [done..|]; apply Forall_lookup; intros fd o Ho; eapply Hcl; [exact Ho|apply not_elem_of_nil]). clear Hi Hst Ht Hcl.
  do 5 (eapply (fw_next [] []); [exact Hr|ok_auto|]; clear dependent st s; intros ? st s Hr).
  eapply (fw_next [] [Lwait]); [exact Hr|ok_auto|]; clear dependent st s; intros ? st s Hr.
  do 3 (eapply (fw_next [Lwait] [Lwait]); [exact Hr|ok_auto|]; clear dependent st s; intros ? st s Hr).
  eapply (fw_next [Lwait] [Lproc i; Lwait]); [exact Hr|ok_auto|]; clear dependent st s; intros ? st s Hr.
  eapply (fw_next [Lproc i; Lwait] [Lproc i; Lwait]); [exact Hr|ok_auto|]; clear dependent st s; intros ? st s (Hi & Hst & Ht & Hrow).
  apply fw_bury; [done..|]. intros p Hp. unfold row in Hrow. by rewrite (list_lookup_total_correct _ _ _ Hp) in Hrow.
Qed.

(** ** Every trap *)

Lemma syscalls_keep : Forall keeps_fds syscalls.
Proof.
  unfold syscalls. repeat apply Forall_cons_2; [..|apply Forall_nil_2]; try (apply keeps_quiet; solve [eauto 2 with ok]).
  - apply keeps_bind; [apply fork_keeps|intros; apply keeps_ret].
  - intros st s Hi Hst Ht. apply fw_bind. eapply fw_argint; [exact Ht|]. intros n. apply fw_bind. by apply exit_safe.
  - apply keeps_bind; [apply keeps_quiet; ok_auto|intros p]. apply keeps_bind; [apply wait_keeps|intros; apply keeps_ret].
  - apply sys_pipe_keeps.
  - apply sys_read_keeps.
  - apply sys_dup_keeps.
  - apply sys_open_keeps.
  - apply sys_write_keeps.
  - apply sys_close_keeps.
Qed.

Lemma keeps_curproc {B} (f : nat -> KM B) : keeps_fds (f i) -> keeps_fds (bind curproc f).
Proof. intros Hf st s Hi Hst Ht. eapply fw_curproc; [exact Ht|]. by apply Hf. Qed.

Lemma syscall_keeps : keeps_fds syscall.
Proof.
  unfold syscall. cbv zeta. apply keeps_curproc. apply keeps_bind; [apply keeps_quiet; ok_auto|intros p]. apply keeps_bind; [apply keeps_quiet; ok_auto|intros tf].
  match goal with |- keeps_fds (match ?x with _ => _ end) => destruct x as [call|] eqn:E end; [|apply keeps_quiet; ok_auto].
  apply keeps_bind; [|intros r; apply keeps_quiet; ok_auto]. destruct (0 <? _); [|done]. pose proof syscalls_keep as Hall. rewrite Forall_lookup in Hall. by eapply Hall.
Qed.

Lemma exit_when_keeps (b : bool) status : keeps_fds (when b (exit status)).
Proof. destruct b; [|apply keeps_ret]. intros st s Hi Hst Ht. by apply exit_safe. Qed.

Lemma usertrap_keeps : keeps_fds usertrap.
Proof.
  unfold usertrap. apply keeps_bind; [apply keeps_quiet; ok_auto|intros c]. destruct (negb _); [apply keeps_quiet; ok_auto|].
  apply keeps_bind; [apply keeps_quiet; ok_auto|intros _]. apply keeps_curproc. apply keeps_bind; [apply keeps_quiet; ok_auto|intros p].
  apply keeps_bind; [apply keeps_quiet; ok_auto|intros _]. apply keeps_bind.
  - destruct (_ =? 8); [|apply keeps_quiet; ok_auto]. apply keeps_bind; [apply keeps_quiet; ok_auto|intros k]. apply keeps_bind; [apply exit_when_keeps|intros _].
    do 2 (apply keeps_bind; [apply keeps_quiet; ok_auto|intros _]). apply keeps_bind; [apply syscall_keeps|intros _; apply keeps_ret].
  - intros dev. apply keeps_bind; [apply keeps_quiet; ok_auto|intros k]. apply keeps_bind; [apply exit_when_keeps|intros _]. apply keeps_quiet; ok_auto.
Qed.
End operations.
