(* ===== verification/FdSystem.v ===== *)
(** * The descriptors of the running system.

    Processes that run one after the other, each until the kernel code gives up
    the CPU or returns to user space.  From FdTable.v: whatever the order, the file
    table and the descriptors agree.  The switches are those the code makes
    itself (sleep(), yield() at the end of a trap from user space, exit());
    a timer interrupt that preempts a process inside the kernel is not a step
    here. *)

From S2P Require Import Prelude Exec Params State Mem Kalloc Vm Sched Sleeplock Bio Log Uart Printf Console Fs Pipe File Proc KExec Syscall Sysproc Sysfile Virtio Trap.
From S2P Require Import Safe SafeKernel FdTable.

(** Where a process is: in user space, switched out, or yet to be started. *)
Inductive place := User | Out (k : kernel -> res kernel Z) | Fresh.

Record system := mkSystem { sys : kernel; at_ : nat -> place }.

(** The scheduler has switched to process [i], with its lock or back in user space. *)
Definition enter (i : nat) (L : list lockid) (s : kernel) : kernel := with_k_held L (with_k_cur (Some i) s).

Section system.
Context `{LinkerOk} `{DiskSafe} `{Waits} `{Frame}.

Definition run_from (i : nat) (w : place) (s : kernel) : res kernel Z :=
  match w with
  | User => usertrap (enter i [] s)
  | Out k => k (enter i [Lproc i] s)
  | Fresh => forkret (enter i [Lproc i] s)
  end.

Inductive sys_step : system -> system -> Prop :=
| Step_outside s s' th : fd_frame s s' -> sys_step (mkSystem s th) (mkSystem s' th)   (* devices and user programs *)
| Step_user i s s' th v : alive i s -> run_from i (th i) s = Ok v s' -> sys_step (mkSystem s th) (mkSystem s' (<[i := User]> th))
| Step_out i s s' th k : alive i s -> run_from i (th i) s = Swtch s' k -> alive i s' -> sys_step (mkSystem s th) (mkSystem s' (<[i := Out k]> th))
| Step_exit i s s' th k : alive i s -> run_from i (th i) s = Swtch s' k -> ~ alive i s' -> sys_step (mkSystem s th) (mkSystem s' (<[i := Fresh]> th)).

Definition trap_end (i : nat) (st : stale) (s : kernel) : Prop := fd_inv st s /\ st i = None /\ thread i [] s.

(** What is known of a process where it is. *)
Definition resumes (i : nat) (w : place) (st : stale) (s : kernel) : Prop :=
  match w with
  | Out k => alive i s /\ forall st' s', mine i st s st' s' -> thread i [Lproc i] s' -> fd_safe i (fun _ => trap_end i) st' s' (k s')
  | _ => st i = None
  end.
Definition sys_inv (st : stale) (sy : system) : Prop := fd_inv st (sys sy) /\ forall i, resumes i (at_ sy i) st (sys sy).

Lemma enter_frame i L s : fd_frame s (enter i L s).
Proof. by split; eauto. Qed.
Lemma enter_thread i L s : alive i s -> thread i L (enter i L s).
Proof. intros Ha. by split. Qed.

Lemma forkret_quiet i : ok (fd_cover true) i [Lproc i] forkret (fun _ => []).
Proof. ok_fun forkret. Qed.

Lemma run_from_safe i st s w : fd_inv st s -> resumes i w st s -> alive i s -> fd_safe i (fun _ => trap_end i) st s (run_from i w s).
Proof.
  intros Hi Hw Ha. pose proof (fun L => fd_state_frame _ _ _ _ _ Hi (enter_frame i L s)) as He.
  destruct w as [|k|]; cbn [run_from resumes] in *; (eapply fd_safe_from; [apply frame_others, enter_frame|]).
  - by apply (usertrap_keeps i); [|..|apply enter_thread].
  - apply Hw; [|by apply enter_thread]. split; [apply He|]. by split.
  - eapply fd_safe_quiet; [|apply He|exact Ha|split; [apply He|by split]|by apply forkret_quiet].
    intros v st' s' (Hi' & Hst' & _) Ht'. split_and!; [done|congruence|done].
Qed.

(** The other processes do not notice. *)
Lemma resumes_others i j w st s st' s' : others i st s st' s' -> j <> i -> resumes j w st s -> resumes j w st' s'.
Proof.
  intros [E Ho] Hj Hw. destruct w as [|k|]; cbn [resumes] in *; [by rewrite E| |by rewrite E]. destruct Hw as [Ha Hk]. destruct (Ho j Hj Ha) as [Er Ha'].
  split; [exact Ha'|]. intros st2 s2 (Hi2 & E2 & Er2). apply Hk. split; [exact Hi2|]. split; [by rewrite E2, E|by rewrite Er2, Er].
Qed.

Lemma sys_inv_run i st st' s s' th w : sys_inv st (mkSystem s th) -> others i st s st' s' -> fd_inv st' s' -> resumes i w st' s' ->
  sys_inv st' (mkSystem s' (<[i := w]> th)).
Proof.
  intros [_ Hall] Ho Hi' Hw. split; [exact Hi'|]. intros j. cbn [at_ sys]. destruct (decide (j = i)) as [->|Hj]; [by rewrite fn_lookup_insert|].
  rewrite fn_lookup_insert_ne by congruence. eapply resumes_others; [exact Ho|exact Hj|apply Hall].
Qed.

Lemma sys_inv_step st sy sy' : sys_inv st sy -> sys_step sy sy' -> exists st', sys_inv st' sy'.
Proof.
  intros Hinv Hstep. destruct Hstep as [s s' th F|i s s' th v Ha E|i s s' th k Ha E Ha'|i s s' th k Ha E Ha'].
  1: { exists st. destruct Hinv as [Hi Hall]. split; [by eapply fd_state_frame|]. intros i. specialize (Hall i). cbn [at_ sys] in *.
       destruct (th i) as [|k|]; cbn [resumes] in *; [done| |done]. destruct Hall as [Ha Hk]. split; [by eapply frame_alive|].
       intros st2 s2 (Hi2 & E2 & Er2). apply Hk. split; [exact Hi2|]. split; [done|]. by rewrite Er2, (frame_row _ _ i F). }
  all: pose proof (run_from_safe i st s (th i) (proj1 Hinv) (proj2 Hinv i) Ha) as Hs; rewrite E in Hs; cbn [fd_safe] in Hs; destruct Hs as (st' & Ho & Hs); exists st'.
  - destruct Hs as (Hi' & Hst' & _). by eapply sys_inv_run.
  - destruct Hs as (Hi' & _ & Hk). eapply sys_inv_run; [exact Hinv|exact Ho|exact Hi'|]. split; [exact Ha'|by apply Hk].
  - destruct Hs as (Hi' & _ & _). eapply sys_inv_run; [exact Hinv|exact Ho|exact Hi'|]. cbn [resumes].
    destruct (lookup_lt_is_Some_2 (k_procs s') i) as [p Hp]; [rewrite (fi_procs _ _ _ _ Hi'), <- (fi_procs _ _ _ _ (proj1 Hinv)); destruct Ha as (p & Hp & _); by eapply lookup_lt_Some|].
    destruct (decide (dead p)) as [Hd|Hd]; [by apply (fi_dead _ _ _ _ Hi' i p Hp)|]. destruct Ha'. by exists p.
Qed.

End system.

(** The tables of a kernel that has just booted. *)
Lemma fd_inv_empty s : length (k_ftable s) = Z.to_nat NFILE -> length (k_procs s) = Z.to_nat NPROC ->
  Forall (fun p => p_ofile p = replicate (Z.to_nat NOFILE) None) (k_procs s) -> Forall (fun x => f_ref x = 0 /\ f_type x = FD_NONE) (k_ftable s) ->
  fd_inv (fun _ => None) s.
Proof.
  intros HF HP Hrows Hfiles. rewrite Forall_lookup in Hrows. rewrite Forall_lookup in Hfiles.
  assert (forall f, refs (fun _ => None) s f = 0) as Hrefs.
  { intros f. pose proof (total_bound (row_refs f) 0 (live_rows (fun _ => None) s)) as Hb. unfold refs. lapply Hb; [lia|].
    intros r Hr. apply elem_of_lookup_imap in Hr as (j & r' & -> & (p & Er & Hp)%list_lookup_fmap_Some). cbn [live].
    assert (r' = replicate (Z.to_nat NOFILE) None) as -> by (rewrite Er; exact (Hrows j p Hp)). clear.
    generalize (Z.to_nat NOFILE) as n. assert (is_ref f None = 0) as E0 by done. unfold row_refs, total. induction n as [|n IH]; [done|].
    cbn [replicate foldr]. lia. }
  split; [done|done| | | | |].
  - intros j p Hp. rewrite (Hrows j p Hp). apply length_replicate.
  - intros f x Hx. rewrite Hrefs. by apply (Hfiles f).
  - intros f. rewrite Hrefs. lia.
  - intros f x Hx _. destruct (Hfiles f x Hx) as [-> ->]. done.
  - intros j p Hp _. split; [|done]. rewrite (Hrows j p Hp). apply Forall_replicate. done.
Qed.

(** One process, ready to run, on hart 0. *)
Definition one_process : kernel :=
  let s := boot ∅ in with_k_first false (with_k_procs (<[0%nat := with_p_state RUNNABLE proc0]> (k_procs s)) s).

