(* ===== verification/Machine.v ===== *)
(** * The RISC-V machine: registers, control and status registers, memory.

    What the assembly files and kernel/start.c see of a hart, the accessors of
    kernel/riscv.h, and the instructions the assembly files use.  Addresses are
    physical in machine mode and when satp is zero; otherwise they go through
    the address translation [translate], a parameter. *)

From S2P Require Import Prelude Params Mem Exec.

(** ** State *)

Inductive mode : Type := User | Supervisor | Machine.

Inductive csr : Type :=
| mhartid | mstatus | mepc | medeleg | mideleg | mie | mip | mtvec | mscratch | mcounteren | pmpcfg0 | pmpaddr0
| sstatus | sie | sip | sepc | scause | stval | stvec | satp | sscratch | time.

#[export] Instance csr_eq_dec : EqDecision csr.
Proof. solve_decision. Defined.

Record mach := mkMach { m_reg : Z -> Z; m_csr : csr -> Z; m_mem : gmap Z Z; m_mode : mode }.

Definition with_reg (r v : Z) (s : mach) : mach := mkMach (<[r := v]> (m_reg s)) (m_csr s) (m_mem s) (m_mode s).
Definition with_csr (c : csr) (v : Z) (s : mach) : mach := mkMach (m_reg s) (<[c := v]> (m_csr s)) (m_mem s) (m_mode s).
Definition with_mem (m : gmap Z Z) (s : mach) : mach := mkMach (m_reg s) (m_csr s) m (m_mode s).
Definition with_mode (p : mode) (s : mach) : mach := mkMach (m_reg s) (m_csr s) (m_mem s) p.

(** The integer registers by their calling-convention names; register 0 is zero. *)
Definition zero : Z := 0.
Definition ra : Z := 1.
Definition sp : Z := 2.
Definition gp : Z := 3.
Definition tp : Z := 4.
Definition t0 : Z := 5.
Definition t1 : Z := 6.
Definition t2 : Z := 7.
Definition s0 : Z := 8.
Definition s1 : Z := 9.
Definition a0 : Z := 10.
Definition a1 : Z := 11.
Definition a2 : Z := 12.
Definition a3 : Z := 13.
Definition a4 : Z := 14.
Definition a5 : Z := 15.
Definition a6 : Z := 16.
Definition a7 : Z := 17.
Definition s2 : Z := 18.
Definition s3 : Z := 19.
Definition s4 : Z := 20.
Definition s5 : Z := 21.
Definition s6 : Z := 22.
Definition s7 : Z := 23.
Definition s8 : Z := 24.
Definition s9 : Z := 25.
Definition s10 : Z := 26.
Definition s11 : Z := 27.
Definition t3 : Z := 28.
Definition t4 : Z := 29.
Definition t5 : Z := 30.
Definition t6 : Z := 31.

(** ** Bits of the control registers *)

Definition MSTATUS_MPP_MASK : Z := Z.shiftl 3 11.
Definition MSTATUS_MPP_M : Z := Z.shiftl 3 11.
Definition MSTATUS_MPP_S : Z := Z.shiftl 1 11.
Definition MSTATUS_MPP_U : Z := Z.shiftl 0 11.
Definition MSTATUS_MIE : Z := Z.shiftl 1 3.
Definition SSTATUS_SPP : Z := Z.shiftl 1 8.
Definition SSTATUS_SPIE : Z := Z.shiftl 1 5.
Definition SSTATUS_UPIE : Z := Z.shiftl 1 4.
Definition SSTATUS_SIE : Z := Z.shiftl 1 1.
Definition SSTATUS_UIE : Z := Z.shiftl 1 0.
Definition SIE_SEIE : Z := Z.shiftl 1 9.
Definition SIE_STIE : Z := Z.shiftl 1 5.
Definition SIE_SSIE : Z := Z.shiftl 1 1.
Definition MIE_MEIE : Z := Z.shiftl 1 11.
Definition MIE_MTIE : Z := Z.shiftl 1 7.
Definition MIE_MSIE : Z := Z.shiftl 1 3.
Definition SATP_SV39 : Z := Z.shiftl 8 60.

(** ** Reading and writing control registers

    sstatus is a view of mstatus, sie and sip of mie and mip.  Of sip only the
    software interrupt can be written, and only supervisor interrupts can be
    delegated. *)
Definition SSTATUS_VIEW : Z := 9223372049740588898.   (* 0x80000003000de762 *)
Definition DELEGABLE : Z := 546.                       (* 0x222 *)

Definition read_csr (c : csr) (s : mach) : Z :=
  match c with
  | sstatus => Z.land (m_csr s mstatus) SSTATUS_VIEW
  | sie => Z.land (m_csr s mie) (m_csr s mideleg)
  | sip => Z.land (m_csr s mip) (m_csr s mideleg)
  | _ => m_csr s c
  end.

(** The bits of [v] under the mask, the others from [old]. *)
Definition merge (mask old v : Z) : Z := Z.lor (Z.land old (Z.lnot mask)) (Z.land v mask).

Definition write_csr (c : csr) (v : Z) (s : mach) : mach :=
  match c with
  | sstatus => with_csr mstatus (merge SSTATUS_VIEW (m_csr s mstatus) v) s
  | sie => with_csr mie (merge (m_csr s mideleg) (m_csr s mie) v) s
  | sip => with_csr mip (merge (Z.land (m_csr s mideleg) SIE_SSIE) (m_csr s mip) v) s
  | mideleg => with_csr mideleg (Z.land v DELEGABLE) s
  | mhartid | time => s
  | _ => with_csr c v s
  end.

(** ** The accessors of riscv.h *)

Notation MM := (M mach).
Definition csrr (c : csr) : MM Z := gets (read_csr c).
Definition csrw (c : csr) (v : Z) : MM unit := modify (write_csr c v).

Definition r_mhartid : MM Z := csrr mhartid.
Definition r_mstatus : MM Z := csrr mstatus.
Definition w_mstatus (x : Z) : MM unit := csrw mstatus x.
Definition w_mepc (x : Z) : MM unit := csrw mepc x.
Definition r_sstatus : MM Z := csrr sstatus.
Definition w_sstatus (x : Z) : MM unit := csrw sstatus x.
Definition r_sip : MM Z := csrr sip.
Definition w_sip (x : Z) : MM unit := csrw sip x.
Definition r_sie : MM Z := csrr sie.
Definition w_sie (x : Z) : MM unit := csrw sie x.
Definition r_mie : MM Z := csrr mie.
Definition w_mie (x : Z) : MM unit := csrw mie x.
Definition w_sepc (x : Z) : MM unit := csrw sepc x.
Definition r_sepc : MM Z := csrr sepc.
Definition r_medeleg : MM Z := csrr medeleg.
Definition w_medeleg (x : Z) : MM unit := csrw medeleg x.
Definition r_mideleg : MM Z := csrr mideleg.
Definition w_mideleg (x : Z) : MM unit := csrw mideleg x.
Definition w_stvec (x : Z) : MM unit := csrw stvec x.
Definition r_stvec : MM Z := csrr stvec.
Definition w_mtvec (x : Z) : MM unit := csrw mtvec x.
Definition w_pmpcfg0 (x : Z) : MM unit := csrw pmpcfg0 x.
Definition w_pmpaddr0 (x : Z) : MM unit := csrw pmpaddr0 x.
Definition w_satp (x : Z) : MM unit := csrw satp x.
Definition r_satp : MM Z := csrr satp.
Definition w_mscratch (x : Z) : MM unit := csrw mscratch x.
Definition r_scause : MM Z := csrr scause.
Definition r_stval : MM Z := csrr stval.
Definition w_mcounteren (x : Z) : MM unit := csrw mcounteren x.
Definition r_mcounteren : MM Z := csrr mcounteren.
Definition r_time : MM Z := csrr time.
Definition r_sp : MM Z := gets (fun s => m_reg s sp).
Definition r_tp : MM Z := gets (fun s => m_reg s tp).
Definition w_tp (x : Z) : MM unit := modify (with_reg tp x).
Definition r_ra : MM Z := gets (fun s => m_reg s ra).

(** ** Returning from a trap, and taking one *)

Definition mode_of (b : Z) : mode := if b =? 0 then User else if b =? 1 then Supervisor else Machine.

(** mret: to the mode in MPP; MIE becomes MPIE, MPIE one and MPP user. *)
Definition mret_state (s : mach) : mach :=
  let x := m_csr s mstatus in
  let mpie := Z.land (Z.shiftr x 7) 1 in
  with_mode (mode_of (Z.land (Z.shiftr x 11) 3))
    (with_csr mstatus (Z.lor (Z.lor (Z.land x (Z.lnot 6280)) (Z.shiftl mpie 3)) 128) s).

(** sret: to the mode in SPP; SIE becomes SPIE, SPIE one and SPP zero. *)
Definition sret_state (s : mach) : mach :=
  let x := m_csr s mstatus in
  let spie := Z.land (Z.shiftr x 5) 1 in
  with_mode (mode_of (Z.land (Z.shiftr x 8) 1))
    (with_csr mstatus (Z.lor (Z.lor (Z.land x (Z.lnot 290)) (Z.shiftl spie 1)) 32) s).

(** A trap from user mode at [pc]: SPIE becomes SIE, SIE and SPP zero. *)
Definition user_trap (pc cause : Z) (s : mach) : mach :=
  let x := m_csr s mstatus in
  let sie := Z.land (Z.shiftr x 1) 1 in
  with_mode Supervisor
    (with_csr scause cause (with_csr sepc pc
      (with_csr mstatus (Z.lor (Z.land x (Z.lnot 290)) (Z.shiftl sie 5)) s))).

(** ** Instructions *)

Inductive instr : Type :=
| SD (rs off base : Z) | LD (rd off base : Z)
| LI (rd imm : Z) | LA (rd sym : Z)
| ADDI (rd rs imm : Z) | ADD (rd rs1 rs2 : Z) | MUL (rd rs1 rs2 : Z)
| CSRR (rd : Z) (c : csr) | CSRW (c : csr) (rs : Z) | CSRRW (rd : Z) (c : csr) (rs : Z)
| SFENCE_VMA | CALL (f : Z) | JR (rs : Z) | RET | SRET | MRET.

(** The address translation: the physical address for satp and a virtual address. *)
Class Mmu := { translate : Z -> Z -> Z }.

(** Where control is after some code: behind it, or at an address. *)
Inductive outcome : Type := Falls (s : mach) | Jumps (target : Z) (s : mach).

Section exec.
Context `{Mmu}.

Definition phys (s : mach) (a : Z) : Z :=
  match m_mode s with
  | Machine => a
  | _ => if m_csr s satp =? 0 then a else translate (m_csr s satp) a
  end.

Definition get (r : Z) (s : mach) : Z := if r =? 0 then 0 else m_reg s r.
Definition put (r v : Z) (s : mach) : mach := if r =? 0 then s else with_reg r (u64 v) s.

(** [callee f] is what the function at [f] does between its call and its return. *)
Variable callee : Z -> mach -> mach.

Definition step (i : instr) (s : mach) : outcome :=
  match i with
  | SD rs off base => Falls (with_mem (store64 (m_mem s) (phys s (u64 (get base s + off))) (get rs s)) s)
  | LD rd off base => Falls (put rd (load64 (m_mem s) (phys s (u64 (get base s + off)))) s)
  | LI rd imm | LA rd imm => Falls (put rd imm s)
  | ADDI rd rs imm => Falls (put rd (get rs s + imm) s)
  | ADD rd rs1 rs2 => Falls (put rd (get rs1 s + get rs2 s) s)
  | MUL rd rs1 rs2 => Falls (put rd (get rs1 s * get rs2 s) s)
  | CSRR rd c => Falls (put rd (read_csr c s) s)
  | CSRW c rs => Falls (write_csr c (get rs s) s)
  | CSRRW rd c rs => Falls (put rd (read_csr c s) (write_csr c (get rs s) s))
  | SFENCE_VMA => Falls s
  | CALL f => Falls (callee f s)
  | JR rs => Jumps (get rs s) s
  | RET => Jumps (get ra s) s
  | SRET => Jumps (m_csr s sepc) (sret_state s)
  | MRET => Jumps (m_csr s mepc) (mret_state s)
  end.

Fixpoint exec (code : list instr) (s : mach) : outcome :=
  match code with
  | [] => Falls s
  | i :: code => match step i s with Falls s' => exec code s' | o => o end
  end.

Lemma exec_app c1 c2 s : exec (c1 ++ c2) s = match exec c1 s with Falls s' => exec c2 s' | o => o end.
Proof. revert s. induction c1 as [|i c1 IH]; intros s; [done|]. cbn. destruct (step i s); [apply IH|done]. Qed.
End exec.
