(* ===== verification/Trampoline.v ===== *)
(** * kernel/swtch.S, trampoline.S, kernelvec.S and entry.S.

    The assembly code, instruction by instruction, and the theorems that
    registers survive: a context switch and back, a trap from user mode and
    back, an interrupt in the kernel, and a timer interrupt. *)

From S2P Require Import Prelude Params Mem Machine.

(** ** Saving and restoring lists of registers

    A list pairs registers with the offsets of their slots. *)

Definition saves (base : Z) (l : list (Z * Z)) : list instr := (fun p => SD p.1 p.2 base) <$> l.
Definition restores (base : Z) (l : list (Z * Z)) : list instr := (fun p => LD p.1 p.2 base) <$> l.

(** The slots do not overlap. *)
Fixpoint spaced (l : list (Z * Z)) : Prop :=
  match l with
  | [] => True
  | p :: l => Forall (fun q => p.2 + 8 <= q.2 \/ q.2 + 8 <= p.2) l /\ spaced l
  end.
#[export] Instance spaced_dec l : Decision (spaced l).
Proof. induction l; cbn; apply _. Defined.

Definition store_regs (rf : Z -> Z) (p : Z) (l : list (Z * Z)) (m : gmap Z Z) : gmap Z Z :=
  foldl (fun m q => store64 m (p + q.2) (rf q.1)) m l.

Lemma store_regs_cons rf p q l m : store_regs rf p (q :: l) m = store_regs rf p l (store64 m (p + q.2) (rf q.1)).
Proof. done. Qed.

(** The slots are from offset [k] on and below [n]. *)
Definition within (k n : Z) (l : list (Z * Z)) : Prop := Forall (fun q => k <= q.2 /\ q.2 + 8 <= n) l.

Lemma store_regs_other rf p l k n m a : within k n l -> a < p + k \/ p + n <= a -> mem_get (store_regs rf p l m) a = mem_get m a.
Proof.
  intros Hl Ha. revert m. induction Hl as [|q l [Hq1 Hq2] Hl IH]; intros m; [done|]. rewrite store_regs_cons, IH.
  unfold store64. rewrite mem_get_store, le_bytes_length, decide_False by lia. done.
Qed.

Lemma store_regs_slot rf p l m o : Forall (fun q => o + 8 <= q.2 \/ q.2 + 8 <= o) l ->
  load64 (store_regs rf p l m) (p + o) = load64 m (p + o).
Proof.
  intros Hl. revert m. induction Hl as [|q l Hq Hl IH]; intros m; [done|]. rewrite store_regs_cons, IH. apply load64_store64_ne. lia.
Qed.

Lemma store_regs_load rf p l m r o : spaced l -> (r, o) ∈ l -> load64 (store_regs rf p l m) (p + o) = u64 (rf r).
Proof.
  revert m. induction l as [|q l IH]; intros m; [by intros _ ?%elem_of_nil|]. intros [Hq Hl] [<-|Hin]%elem_of_cons; [|by apply IH].
  rewrite store_regs_cons, store_regs_slot by exact Hq. apply load64_store64_eq.
Qed.

Section code.
Context `{Mmu}.
Variable callee : Z -> mach -> mach.
Notation exec := (exec callee).

(** The [n] bytes from the address in a register on are at [p]. *)
Definition area (s : mach) (base p n : Z) : Prop := forall o, 0 <= o < n -> phys s (u64 (get base s + o)) = p + o.

Lemma exec_saves base l s p n : area s base p n -> within 0 n l ->
  exec (saves base l) s = Falls (with_mem (store_regs (fun r => get r s) p l (m_mem s)) s).
Proof.
  intros Ha Hl. assert (forall m, exec (saves base l) (with_mem m s) = Falls (with_mem (store_regs (fun r => get r s) p l m) s)) as Hm.
  { induction Hl as [|q l [Hq1 Hq2] Hl IH]; intros m; [done|].
    change (exec (saves base (q :: l)) (with_mem m s)) with (exec (saves base l)
      (with_mem (store64 m (phys s (u64 (get base s + q.2))) (get q.1 s)) s)). rewrite IH, (Ha q.2) by lia. done. }
  rewrite <- (Hm (m_mem s)). by destruct s.
Qed.

(** The registers after a restore. *)
Record loaded (s s' : mach) (p : Z) (l : list (Z * Z)) : Prop := {
  ld_in : forall r o, (r, o) ∈ l -> get r s' = u64 (load64 (m_mem s) (p + o));
  ld_out : forall r, r ∉ l.*1 -> get r s' = get r s;
  ld_csr : m_csr s' = m_csr s;
  ld_mem : m_mem s' = m_mem s;
  ld_mode : m_mode s' = m_mode s;
}.

Lemma get_put r r' v s : r <> 0 -> get r' (put r v s) = if decide (r' = r) then u64 v else get r' s.
Proof.
  intros Hr. unfold get, put. rewrite (proj2 (Z.eqb_neq r 0) Hr). cbn. destruct (Z.eqb_spec r' 0); [by rewrite decide_False by congruence|].
  destruct (decide (r' = r)) as [->|Hne]; [by rewrite fn_lookup_insert|]. by rewrite fn_lookup_insert_ne by congruence.
Qed.

Lemma put_frame r v s : m_csr (put r v s) = m_csr s /\ m_mem (put r v s) = m_mem s /\ m_mode (put r v s) = m_mode s.
Proof. unfold put. by destruct (r =? 0). Qed.

(** The base register may be among the registers if its slot holds its value. *)
Lemma exec_restores base l s p n : area s base p n -> within 0 n l -> Forall (fun q => q.1 <> 0) l -> NoDup l.*1 ->
  (forall o, (base, o) ∈ l -> u64 (load64 (m_mem s) (p + o)) = get base s) ->
  exists s', exec (restores base l) s = Falls s' /\ loaded s s' p l.
Proof.
  intros Ha Hl. revert s Ha. induction Hl as [|[r o] l [Ho1 Ho2] Hl IH]; intros s Ha Hnz Hnd Hb.
  { exists s. split; [done|]. split; try done. by intros r o ?%elem_of_nil. }
  apply Forall_cons in Hnz as [Hr Hnz]. cbn in Hr, Hnd. apply NoDup_cons in Hnd as [Hr2 Hnd]. cbn [snd] in Ho1, Ho2.
  set (v := load64 (m_mem s) (p + o)). set (s1 := put r v s). destruct (put_frame r v s) as (Hc & Hm & Hp). fold s1 in Hc, Hm, Hp.
  assert (get base s1 = get base s) as Hbase.
  { unfold s1. rewrite get_put by done. case_decide as Hd; [|done]. subst r. apply Hb. by left. }
  assert (area s1 base p n) as Ha1 by (intros k Hk; rewrite Hbase, <- (Ha k Hk); unfold phys; by rewrite Hp, Hc).
  destruct (IH s1 Ha1 Hnz Hnd) as (s' & E & [L1 L2 L3 L4 L5]).
  { intros k Hk. rewrite Hm, Hbase. apply Hb. by right. }
  exists s'. split.
  - change (exec (restores base ((r, o) :: l)) s) with (exec (restores base l) (put r (load64 (m_mem s) (phys s (u64 (get base s + o)))) s)).
    by rewrite (Ha o) by lia.
  - split; [| |congruence..].
    + intros r' o' [[= -> ->]|Hin]%elem_of_cons; [|rewrite <- Hm; by apply L1]. rewrite L2 by done. unfold s1. by rewrite get_put, decide_True by done.
    + intros r' Hr'. apply not_elem_of_cons in Hr' as [Hne Hr']. cbn in Hne. rewrite L2 by done. unfold s1. by rewrite get_put, decide_False by done.
Qed.
End code.

(** ** The code *)

Definition swtch : list instr :=
  [ SD ra 0 a0; SD sp 8 a0; SD s0 16 a0; SD s1 24 a0; SD s2 32 a0; SD s3 40 a0; SD s4 48 a0; SD s5 56 a0;
    SD s6 64 a0; SD s7 72 a0; SD s8 80 a0; SD s9 88 a0; SD s10 96 a0; SD s11 104 a0; LD ra 0 a1; LD sp 8 a1;
    LD s0 16 a1; LD s1 24 a1; LD s2 32 a1; LD s3 40 a1; LD s4 48 a1; LD s5 56 a1; LD s6 64 a1; LD s7 72 a1;
    LD s8 80 a1; LD s9 88 a1; LD s10 96 a1; LD s11 104 a1; RET ].

Definition uservec : list instr :=
  [ CSRW sscratch a0; LI a0 TRAPFRAME; SD ra 40 a0; SD sp 48 a0; SD gp 56 a0; SD tp 64 a0; SD t0 72 a0;
    SD t1 80 a0; SD t2 88 a0; SD s0 96 a0; SD s1 104 a0; SD a1 120 a0; SD a2 128 a0; SD a3 136 a0; SD a4 144 a0;
    SD a5 152 a0; SD a6 160 a0; SD a7 168 a0; SD s2 176 a0; SD s3 184 a0; SD s4 192 a0; SD s5 200 a0;
    SD s6 208 a0; SD s7 216 a0; SD s8 224 a0; SD s9 232 a0; SD s10 240 a0; SD s11 248 a0; SD t3 256 a0;
    SD t4 264 a0; SD t5 272 a0; SD t6 280 a0; CSRR t0 sscratch; SD t0 112 a0; LD sp 8 a0; LD tp 32 a0;
    LD t0 16 a0; LD t1 0 a0; SFENCE_VMA; CSRW satp t1; SFENCE_VMA; JR t0 ].

Definition userret : list instr :=
  [ SFENCE_VMA; CSRW satp a0; SFENCE_VMA; LI a0 TRAPFRAME; LD ra 40 a0; LD sp 48 a0; LD gp 56 a0; LD tp 64 a0;
    LD t0 72 a0; LD t1 80 a0; LD t2 88 a0; LD s0 96 a0; LD s1 104 a0; LD a1 120 a0; LD a2 128 a0; LD a3 136 a0;
    LD a4 144 a0; LD a5 152 a0; LD a6 160 a0; LD a7 168 a0; LD s2 176 a0; LD s3 184 a0; LD s4 192 a0;
    LD s5 200 a0; LD s6 208 a0; LD s7 216 a0; LD s8 224 a0; LD s9 232 a0; LD s10 240 a0; LD s11 248 a0;
    LD t3 256 a0; LD t4 264 a0; LD t5 272 a0; LD t6 280 a0; LD a0 112 a0; SRET ].

Definition kernelvec (kerneltrap : Z) : list instr :=
  [ ADDI sp sp (-256); SD ra 0 sp; SD sp 8 sp; SD gp 16 sp; SD tp 24 sp; SD t0 32 sp; SD t1 40 sp; SD t2 48 sp;
    SD s0 56 sp; SD s1 64 sp; SD a0 72 sp; SD a1 80 sp; SD a2 88 sp; SD a3 96 sp; SD a4 104 sp; SD a5 112 sp;
    SD a6 120 sp; SD a7 128 sp; SD s2 136 sp; SD s3 144 sp; SD s4 152 sp; SD s5 160 sp; SD s6 168 sp;
    SD s7 176 sp; SD s8 184 sp; SD s9 192 sp; SD s10 200 sp; SD s11 208 sp; SD t3 216 sp; SD t4 224 sp;
    SD t5 232 sp; SD t6 240 sp; CALL kerneltrap; LD ra 0 sp; LD sp 8 sp; LD gp 16 sp; LD t0 32 sp; LD t1 40 sp;
    LD t2 48 sp; LD s0 56 sp; LD s1 64 sp; LD a0 72 sp; LD a1 80 sp; LD a2 88 sp; LD a3 96 sp; LD a4 104 sp;
    LD a5 112 sp; LD a6 120 sp; LD a7 128 sp; LD s2 136 sp; LD s3 144 sp; LD s4 152 sp; LD s5 160 sp;
    LD s6 168 sp; LD s7 176 sp; LD s8 184 sp; LD s9 192 sp; LD s10 200 sp; LD s11 208 sp; LD t3 216 sp;
    LD t4 224 sp; LD t5 232 sp; LD t6 240 sp; ADDI sp sp 256; SRET ].

Definition timervec : list instr :=
  [ CSRRW a0 mscratch a0; SD a1 0 a0; SD a2 8 a0; SD a3 16 a0; LD a1 24 a0; LD a2 32 a0; LD a3 0 a1;
    ADD a3 a3 a2; SD a3 0 a1; LI a1 2; CSRW sip a1; LD a3 16 a0; LD a2 8 a0; LD a1 0 a0; CSRRW a0 mscratch a0;
    MRET ].

(** The loop behind the call of start(), which does not return, is left out. *)
Definition entry (stack0 start : Z) : list instr :=
  [ LA sp stack0; LI a0 (1024 * 4); CSRR a1 mhartid; ADDI a1 a1 1; MUL a0 a0 a1; ADD sp sp a0; CALL start ].

(** ** Where the registers are saved *)

(** struct context. *)
Definition context_regs : list (Z * Z) :=
  [ (ra, 0); (sp, 8); (s0, 16); (s1, 24); (s2, 32); (s3, 40); (s4, 48); (s5, 56); (s6, 64); (s7, 72); (s8, 80);
    (s9, 88); (s10, 96); (s11, 104) ].

(** The fields of struct trapframe, a0 apart. *)
Definition trapframe_regs : list (Z * Z) :=
  [ (ra, 40); (sp, 48); (gp, 56); (tp, 64); (t0, 72); (t1, 80); (t2, 88); (s0, 96); (s1, 104); (a1, 120);
    (a2, 128); (a3, 136); (a4, 144); (a5, 152); (a6, 160); (a7, 168); (s2, 176); (s3, 184); (s4, 192); (s5, 200);
    (s6, 208); (s7, 216); (s8, 224); (s9, 232); (s10, 240); (s11, 248); (t3, 256); (t4, 264); (t5, 272);
    (t6, 280) ].

(** The frame of kernelvec, and what is restored from it. *)
Definition frame_regs : list (Z * Z) :=
  [ (ra, 0); (sp, 8); (gp, 16); (tp, 24); (t0, 32); (t1, 40); (t2, 48); (s0, 56); (s1, 64); (a0, 72); (a1, 80);
    (a2, 88); (a3, 96); (a4, 104); (a5, 112); (a6, 120); (a7, 128); (s2, 136); (s3, 144); (s4, 152); (s5, 160);
    (s6, 168); (s7, 176); (s8, 184); (s9, 192); (s10, 200); (s11, 208); (t3, 216); (t4, 224); (t5, 232);
    (t6, 240) ].
Definition frame_back : list (Z * Z) := filter (fun q => q.1 <> tp) frame_regs.

(** ** What the code does *)

Definition regs_ok (s : mach) : Prop := forall r, 0 <= get r s < 2 ^ 64.

(** The bytes [p .. p+n) are the same. *)
Definition same_bytes (p n : Z) (m m' : gmap Z Z) : Prop := forall a, p <= a < p + n -> mem_get m' a = mem_get m a.

Lemma load64_same p n m m' o : same_bytes p n m m' -> 0 <= o -> o + 8 <= n -> load64 m' (p + o) = load64 m (p + o).
Proof. intros Hs Ho Hn. unfold load64. f_equal. apply load_bytes_ext. intros i Hi. apply Hs. lia. Qed.

Ltac lists := lazymatch goal with
  | |- within _ _ _ => apply (bool_decide_unpack _); vm_compute; exact I
  | |- Forall _ _ => apply (bool_decide_unpack _); vm_compute; exact I
  | |- NoDup _ => apply (bool_decide_unpack _); vm_compute; exact I
  | |- spaced _ => apply (bool_decide_unpack _); vm_compute; exact I
  | |- _ ∉ _ => apply (bool_decide_unpack _); vm_compute; exact I
  | |- _ ∈ _ => apply (bool_decide_unpack _); vm_compute; exact I
  end.

Lemma slot_reg (l : list (Z * Z)) r o : (r, o) ∈ l -> ~ (r ∉ l.*1).
Proof. intros Hin Hr. apply Hr. apply list_elem_of_fmap. by exists (r, o). Qed.

Lemma slot_in l (q : Z * Z) n : q ∈ l -> within 0 n l -> 0 <= q.2 /\ q.2 + 8 <= n.
Proof. intros Hin Hl. unfold within in Hl. rewrite Forall_forall in Hl. by apply Hl. Qed.

(** The slot of a0 is between the others. *)
Lemma trapframe_gap q : q ∈ trapframe_regs -> q.2 + 8 <= 112 \/ 120 <= q.2.
Proof.
  assert (Forall (fun q => q.2 + 8 <= 112 \/ 120 <= q.2) trapframe_regs) as Hall by lists. rewrite Forall_forall in Hall. apply Hall.
Qed.

Section switch.
Context `{Mmu}.
Variable callee : Z -> mach -> mach.
Notation exec := (exec callee).

Lemma area_same s s' base p n : m_mode s' = m_mode s -> m_csr s' satp = m_csr s satp -> get base s' = get base s ->
  area s base p n -> area s' base p n.
Proof. intros Hm Hc Hb Ha o Ho. rewrite Hb, <- (Ha o Ho). unfold phys. by rewrite Hm, Hc. Qed.

Lemma area_put s r v base p n : r <> base -> area s base p n -> area (put r v s) base p n.
Proof.
  intros Hr. destruct (put_frame r v s) as (Hc & _ & Hm). apply area_same; [done|by rewrite Hc|].
  destruct (decide (r = 0)) as [->|H0]; [done|]. by rewrite get_put, decide_False by done.
Qed.

Ltac areas := repeat (apply area_put; [discriminate|]); assumption.

Lemma exec_ld rd o base code s p n : area s base p n -> 0 <= o < n ->
  exec (LD rd o base :: code) s = exec code (put rd (load64 (m_mem s) (p + o)) s).
Proof. intros Ha Ho. cbn. by rewrite (Ha o Ho). Qed.

Lemma exec_sd rs o base code s p n : area s base p n -> 0 <= o < n ->
  exec (SD rs o base :: code) s = exec code (with_mem (store64 (m_mem s) (p + o) (get rs s)) s).
Proof. intros Ha Ho. cbn. by rewrite (Ha o Ho). Qed.

Lemma exec_csrrw rd c rs code s : exec (CSRRW rd c rs :: code) s = exec code (put rd (read_csr c s) (write_csr c (get rs s) s)).
Proof. done. Qed.
Lemma exec_add rd r1 r2 code s : exec (ADD rd r1 r2 :: code) s = exec code (put rd (get r1 s + get r2 s) s).
Proof. done. Qed.
Lemma exec_csrr rd c code s : exec (CSRR rd c :: code) s = exec code (put rd (read_csr c s) s).
Proof. done. Qed.

(** swtch() stores the callee-saved registers at [old] and takes those at [new]. *)
Lemma swtch_spec s old new : area s a0 old 112 -> area s a1 new 112 -> old + 112 <= new \/ new + 112 <= old ->
  exists s', exec swtch s = Jumps (u64 (load64 (m_mem s) new)) s' /\
    (forall r o, (r, o) ∈ context_regs -> load64 (m_mem s') (old + o) = u64 (get r s) /\ get r s' = u64 (load64 (m_mem s) (new + o))) /\
    (forall r, r ∉ context_regs.*1 -> get r s' = get r s) /\ m_csr s' = m_csr s /\ m_mode s' = m_mode s /\
    (forall a, a < old \/ old + 112 <= a -> mem_get (m_mem s') a = mem_get (m_mem s) a).
Proof.
  intros Ha Hb Hd. change swtch with (saves a0 context_regs ++ restores a1 context_regs ++ [RET]). rewrite exec_app.
  rewrite (exec_saves callee a0 context_regs s old 112 Ha) by lists. set (m1 := store_regs _ _ _ _). set (s1 := with_mem m1 s).
  assert (same_bytes new 112 (m_mem s) m1) as Hsame by (intros a Hr; apply store_regs_other with (k := 0) (n := 112); [lists|lia]).
  destruct (exec_restores callee a1 context_regs s1 new 112) as (s' & E & [L1 L2 L3 L4 L5]); [exact Hb|lists..| |].
  { intros o Ho. exfalso. apply (slot_reg _ _ _ Ho). lists. }
  rewrite exec_app, E. cbn [Machine.exec step]. exists s'. split_and!; [| |exact L2|exact L3|exact L5|].
  - f_equal. rewrite (L1 ra 0) by lists. change (m_mem s1) with m1. rewrite (load64_same new 112 (m_mem s) m1 0) by (done || lia). by rewrite Z.add_0_r.
  - intros r o Hin. pose proof (slot_in _ _ 112 Hin ltac:(lists)) as [Ho1 Ho2]. rewrite L4, (L1 r o Hin). change (m_mem s1) with m1. split.
    + apply (store_regs_load (fun r => get r s)); [lists|done].
    + by rewrite (load64_same new 112 (m_mem s) m1 o) by (done || lia).
  - intros a Hr. rewrite L4. apply store_regs_other with (k := 0) (n := 112); [lists|lia].
Qed.

(** ** Traps from user mode *)

(** The state after the first two instructions of uservec: user a0 in sscratch. *)
Lemma uservec_spec s tf : m_mode s = Supervisor -> regs_ok s -> m_csr s satp <> 0 ->
  (forall o, 0 <= o < 288 -> translate (m_csr s satp) (TRAPFRAME + o) = tf + o) ->
  exists s', exec uservec s = Jumps (u64 (load64 (m_mem s) (tf + 16))) s' /\
    (forall r o, (r, o) ∈ (a0, 112) :: trapframe_regs -> load64 (m_mem s') (tf + o) = get r s) /\
    get sp s' = u64 (load64 (m_mem s) (tf + 8)) /\ get tp s' = u64 (load64 (m_mem s) (tf + 32)) /\
    m_csr s' satp = u64 (load64 (m_mem s) tf) /\ m_csr s' sepc = m_csr s sepc /\ m_mode s' = Supervisor /\
    (forall a, a < tf + 40 \/ tf + 288 <= a -> mem_get (m_mem s') a = mem_get (m_mem s) a).
Proof.
  intros Hmode Hreg Hsatp Htr.
  change uservec with ([CSRW sscratch a0; LI a0 TRAPFRAME] ++ saves a0 trapframe_regs ++
    [CSRR t0 sscratch; SD t0 112 a0; LD sp 8 a0; LD tp 32 a0; LD t0 16 a0; LD t1 0 a0; SFENCE_VMA; CSRW satp t1; SFENCE_VMA; JR t0]).
  rewrite exec_app. cbn [Machine.exec step write_csr]. set (s1 := put a0 TRAPFRAME _).
  assert (get a0 s1 = TRAPFRAME) as Ha0 by reflexivity.
  assert (area s1 a0 tf 288) as Ha.
  { intros o Ho. rewrite Ha0, u64_id by (unfold TRAPFRAME, TRAMPOLINE, MAXVA, PGSIZE; lia). rewrite <- Htr by lia. unfold phys.
    change (m_mode s1) with (m_mode s). change (m_csr s1 satp) with (m_csr s satp). rewrite Hmode, (proj2 (Z.eqb_neq _ 0) Hsatp). done. }
  rewrite exec_app, (exec_saves callee a0 trapframe_regs s1 tf 288 Ha) by lists. set (m1 := store_regs _ _ _ _).
  set (s2 := with_mem m1 s1). assert (area s2 a0 tf 288) as Ha2 by exact Ha.
  rewrite exec_csrr. change (read_csr sscratch s2) with (get a0 s).
  assert (area (put t0 (get a0 s) s2) a0 tf 288) as Ha3 by (by apply area_put).
  rewrite (exec_sd _ _ _ _ _ tf 288 Ha3) by lia. set (m2 := store64 _ _ _). set (s3 := with_mem m2 _).
  assert (area s3 a0 tf 288) as Ha4 by exact Ha3.
  assert (forall o, 0 <= o -> o + 8 <= 40 -> load64 m2 (tf + o) = load64 (m_mem s) (tf + o)) as Hlow.
  { intros o H1 H2. unfold m2. rewrite load64_store64_ne by lia. apply (load64_same tf 40); [|lia..]. intros a Hr.
    apply store_regs_other with (k := 40) (n := 288); [lists|lia]. }
  rewrite (exec_ld sp 8 a0 _ _ tf 288 Ha4) by lia. rewrite (exec_ld tp 32 a0 _ _ tf 288) by (areas || lia).
  rewrite (exec_ld t0 16 a0 _ _ tf 288) by (areas || lia).
  rewrite (exec_ld t1 0 a0 _ _ tf 288) by (areas || lia).
  assert (forall r v s, m_mem (put r v s) = m_mem s) as Hpm by (intros r v t; apply put_frame). rewrite !Hpm. change (m_mem s3) with m2.
  rewrite !Hlow by lia. rewrite Z.add_0_r. cbn [Machine.exec step write_csr]. eexists. split; [reflexivity|].
  split_and!; try reflexivity.
  - intros r o Hin. change (load64 m2 (tf + o) = get r s).
    apply elem_of_cons in Hin as [[= -> ->]|Hin].
    + unfold m2. rewrite load64_store64_eq. change (get t0 (put t0 (get a0 s) s2)) with (u64 (get a0 s)). by rewrite !u64_id by (rewrite ?u64_id; apply Hreg).
    + assert (o + 8 <= 112 \/ 120 <= o) as Ho by (exact (trapframe_gap _ Hin)).
      unfold m2. rewrite load64_store64_ne by lia. change (m_mem (put t0 (get a0 s) s2)) with m1. unfold m1.
      rewrite (store_regs_load _ _ _ _ r o) by (exact Hin || lists). unfold s1. rewrite get_put, decide_False; [apply u64_id, Hreg| |done].
      intros ->. apply (slot_reg _ _ _ Hin). lists.
  - exact Hmode.
  - intros a Hr. change (mem_get m2 a = mem_get (m_mem s) a). unfold m2, store64. rewrite mem_get_store, le_bytes_length, decide_False by lia.
    apply store_regs_other with (k := 40) (n := 288); [lists|lia].
Qed.

(** userret() loads every register from the trapframe and returns to user mode. *)
Lemma userret_spec s usatp tf : m_mode s = Supervisor -> get a0 s = usatp -> usatp <> 0 ->
  (forall o, 0 <= o < 288 -> translate usatp (TRAPFRAME + o) = tf + o) -> Z.land (Z.shiftr (m_csr s mstatus) 8) 1 = 0 ->
  exists s', exec userret s = Jumps (m_csr s sepc) s' /\
    (forall r o, (r, o) ∈ (a0, 112) :: trapframe_regs -> get r s' = u64 (load64 (m_mem s) (tf + o))) /\
    m_csr s' satp = usatp /\ m_mode s' = User /\ m_mem s' = m_mem s.
Proof.
  intros Hmode Ha0 Hsatp Htr Hspp.
  change userret with ([SFENCE_VMA; CSRW satp a0; SFENCE_VMA; LI a0 TRAPFRAME] ++ restores a0 trapframe_regs ++ [LD a0 112 a0; SRET]).
  rewrite exec_app. cbn [Machine.exec step write_csr]. rewrite Ha0. set (s1 := put a0 TRAPFRAME _).
  assert (area s1 a0 tf 288) as Ha.
  { intros o Ho. change (get a0 s1) with TRAPFRAME. rewrite u64_id by (unfold TRAPFRAME, TRAMPOLINE, MAXVA, PGSIZE; lia). rewrite <- Htr by lia. unfold phys.
    change (m_mode s1) with (m_mode s). change (m_csr s1 satp) with usatp. rewrite Hmode, (proj2 (Z.eqb_neq _ 0) Hsatp). done. }
  destruct (exec_restores callee a0 trapframe_regs s1 tf 288) as (s2 & E & [L1 L2 L3 L4 L5]); [exact Ha|lists..| |].
  { intros o Ho. exfalso. apply (slot_reg _ _ _ Ho). lists. }
  rewrite exec_app, E. assert (area s2 a0 tf 288) as Ha2 by (apply (area_same s1); [done|by rewrite L3|apply L2; lists|done]).
  rewrite (exec_ld a0 112 a0 _ _ tf 288) by (exact Ha2 || lia). cbn [Machine.exec step]. destruct (put_frame a0 (load64 (m_mem s2) (tf + 112)) s2) as (Hc & Hm & _).
  eexists. split; [rewrite Hc, L3; reflexivity|]. unfold sret_state. split_and!.
  - intros r o Hin. cbn [get m_reg with_mode with_csr].
    change (get r (put a0 (load64 (m_mem s2) (tf + 112)) s2) = u64 (load64 (m_mem s) (tf + o))).
    rewrite get_put by done. rewrite L4. apply elem_of_cons in Hin as [[= -> ->]|Hin]; [done|]. rewrite decide_False; [by apply L1|].
    intros ->. apply (slot_reg _ _ _ Hin). lists.
  - cbn [m_csr with_mode with_csr]. rewrite fn_lookup_insert_ne by done. by rewrite Hc, L3.
  - cbn [m_mode with_mode]. rewrite Hc, L3. change (m_csr s1 mstatus) with (m_csr s mstatus). by rewrite Hspp.
  - cbn [m_mem with_mode with_csr]. by rewrite Hm, L4.
Qed.
End switch.

(** Every register but zero has a slot in the trapframe. *)
Lemma trapframe_all r : 0 < r < 32 -> exists o, (r, o) ∈ (a0, 112) :: trapframe_regs.
Proof.
  intros Hr. assert (Forall (fun r => Exists (fun q => q.1 = r) ((a0, 112) :: trapframe_regs)) (seqZ 1 31)) as Hall by lists.
  rewrite Forall_forall in Hall. specialize (Hall r). rewrite elem_of_seqZ, Exists_exists in Hall. destruct Hall as ([r' o] & Hin & <-); [lia|eauto].
Qed.

(** C16: a user program does not notice a trap.  After a trap from user mode uservec has
    put all its registers into the trapframe and runs usertrap() on the kernel stack
    with the kernel page table; and whatever the kernel then does, if it leaves the
    saved registers alone and calls userret() with the page table of the process,
    the program goes on in user mode at sepc with every register as it was. *)
Theorem trap_roundtrip `{Mmu} (callee : Z -> mach -> mach) (s : mach) (pc cause usatp tf : Z) :
  regs_ok s -> m_csr s satp = usatp -> usatp <> 0 ->
  (forall o, 0 <= o < 288 -> translate usatp (TRAPFRAME + o) = tf + o) ->
  exists s1, exec callee uservec (user_trap pc cause s) = Jumps (u64 (load64 (m_mem s) (tf + 16))) s1 /\
    m_mode s1 = Supervisor /\ m_csr s1 sepc = pc /\ m_csr s1 satp = u64 (load64 (m_mem s) tf) /\
    get sp s1 = u64 (load64 (m_mem s) (tf + 8)) /\ get tp s1 = u64 (load64 (m_mem s) (tf + 32)) /\
    (forall a, a < tf + 40 \/ tf + 288 <= a -> mem_get (m_mem s1) a = mem_get (m_mem s) a) /\
    forall s2, m_mode s2 = Supervisor -> get a0 s2 = usatp -> Z.land (Z.shiftr (m_csr s2 mstatus) 8) 1 = 0 ->
      same_bytes (tf + 40) 248 (m_mem s1) (m_mem s2) ->
      exists s3, exec callee userret s2 = Jumps (m_csr s2 sepc) s3 /\ m_mode s3 = User /\ m_csr s3 satp = usatp /\
        m_mem s3 = m_mem s2 /\ forall r, 0 < r < 32 -> get r s3 = get r s.
Proof.
  intros Hreg Hsatp Hnz Htr. set (s0 := user_trap pc cause s).
  destruct (uservec_spec callee s0 tf) as (s1 & E & Hsave & Hsp & Htp & Hks & Hepc & Hmode & Hmem); [done|exact Hreg|by rewrite <- Hsatp in Hnz| |].
  { intros o Ho. rewrite <- Htr by done. by rewrite <- Hsatp. }
  exists s1. split_and!; [exact E|exact Hmode|exact Hepc|exact Hks|exact Hsp|exact Htp|exact Hmem|].
  intros s2 Hm2 Ha2 Hspp Hsame. destruct (userret_spec callee s2 usatp tf) as (s3 & E3 & Hload & Hs3 & Hm3 & Hmem3); [done..|].
  exists s3. split_and!; [done..|]. intros r Hr. destruct (trapframe_all r Hr) as [o Hin]. rewrite (Hload r o Hin).
  assert (40 <= o /\ o + 8 <= 288) as [Ho1 Ho2].
  { assert (within 40 288 ((a0, 112) :: trapframe_regs)) as Hw by lists. unfold within in Hw. rewrite Forall_forall in Hw. apply (Hw _ Hin). }
  replace (tf + o) with (tf + 40 + (o - 40)) by lia. rewrite (load64_same (tf + 40) 248 (m_mem s1) (m_mem s2)) by (exact Hsame || lia).
  replace (tf + 40 + (o - 40)) with (tf + o) by lia. rewrite (Hsave r o Hin). apply u64_id, Hreg.
Qed.

(** A machine whose registers hold their numbers times 3, with the trapframe at
    0x87654000 behind the page table 5. *)
Definition mach0 : mach :=
  mkMach (fun r => 3 * (r mod 32)) (fun c => match c with satp => 5 | _ => 0 end) (store64 ∅ (2271559680 + 16) 2147492864) User.
Definition mmu0 : Mmu := {| translate _ va := va - TRAPFRAME + 2271559680 |}.

Lemma mach0_range r : 0 <= m_reg mach0 r < 2 ^ 64.
Proof. cbn. pose proof (Z.mod_pos_bound r 32). lia. Qed.
Lemma mach0_regs : regs_ok mach0.
Proof. intros r. unfold get. destruct (r =? 0); [lia|]. apply mach0_range. Qed.

Lemma trap_roundtrip_witness :
  exists s1, @exec mmu0 (fun _ s => s) uservec (user_trap 4096 8 mach0) = Jumps 2147492864 s1 /\ m_csr s1 sepc = 4096 /\
  exists s3, @exec mmu0 (fun _ s => s) userret (with_csr mstatus 0 (with_reg a0 5 s1)) = Jumps 4096 s3 /\ get t6 s3 = 93.
Proof.
  destruct (@trap_roundtrip mmu0 (fun _ s => s) mach0 4096 8 5 2271559680 mach0_regs eq_refl) as (s1 & E & Hmode & Hpc & _ & _ & _ & _ & Hret); [done| |].
  { intros o Ho. cbn [translate mmu0]. lia. }
  exists s1. split; [exact E|]. split; [exact Hpc|].
  destruct (Hret (with_csr mstatus 0 (with_reg a0 5 s1))) as (s3 & E3 & _ & _ & _ & Hr); [exact Hmode|reflexivity|reflexivity|by intros a Ha|].
  exists s3. split; [|apply (Hr t6); unfold t6; lia]. rewrite E3. f_equal. exact Hpc.
Defined.

(** C17: a context switch saves the thread and a later one resumes it: swtch(old, new)
    continues at the ra of [new] with its stack and callee-saved registers; and when
    some thread later calls swtch(_, old) with the context unchanged, control is back
    behind the first call with the stack and the callee-saved registers it had. *)
Theorem swtch_resumes `{Mmu} (callee : Z -> mach -> mach) (s : mach) (old new : Z) :
  regs_ok s -> area s a0 old 112 -> area s a1 new 112 -> old + 112 <= new \/ new + 112 <= old ->
  exists s1, exec callee swtch s = Jumps (u64 (load64 (m_mem s) new)) s1 /\ m_mode s1 = m_mode s /\ m_csr s1 = m_csr s /\
    (forall r o, (r, o) ∈ context_regs -> get r s1 = u64 (load64 (m_mem s) (new + o))) /\
    (forall a, a < old \/ old + 112 <= a -> mem_get (m_mem s1) a = mem_get (m_mem s) a) /\
    forall s2 cur, area s2 a0 cur 112 -> area s2 a1 old 112 -> cur + 112 <= old \/ old + 112 <= cur ->
      same_bytes old 112 (m_mem s1) (m_mem s2) ->
      exists s3, exec callee swtch s2 = Jumps (get ra s) s3 /\ forall r, r ∈ context_regs.*1 -> get r s3 = get r s.
Proof.
  intros Hreg Ha Hb Hd. destruct (swtch_spec callee s old new Ha Hb Hd) as (s1 & E & Hctx & _ & Hcsr & Hmode & Hmem).
  exists s1. split_and!; [exact E|exact Hmode|exact Hcsr|intros r o Hin; by apply Hctx|exact Hmem|]. intros s2 cur Ha2 Hb2 Hd2 Hsame.
  assert (forall r o, (r, o) ∈ context_regs -> u64 (load64 (m_mem s2) (old + o)) = get r s) as Hback.
  { intros r o Hin. destruct (slot_in _ _ 112 Hin ltac:(lists)) as [Ho1 Ho2]. cbn [snd] in Ho1, Ho2.
    rewrite (load64_same old 112 (m_mem s1) (m_mem s2) o) by (exact Hsame || lia). rewrite (proj1 (Hctx r o Hin)). pose proof (Hreg r) as Hrr. by rewrite !(u64_id (get r s)) by lia. }
  destruct (swtch_spec callee s2 cur old Ha2 Hb2 Hd2) as (s3 & E3 & Hctx3 & _). exists s3. split.
  - rewrite E3. f_equal. rewrite <- (Hback ra 0) by lists. by rewrite Z.add_0_r.
  - intros r Hr. apply list_elem_of_fmap in Hr as ([r' o] & -> & Hin). cbn [fst]. rewrite (proj2 (Hctx3 r' o Hin)). by apply Hback.
Qed.

Lemma swtch_resumes_witness :
  exists s1, @exec mmu0 (fun _ s => s) swtch (with_mode Machine (with_reg a0 4096 (with_reg a1 8192 mach0))) = Jumps 0 s1 /\
  exists s3, @exec mmu0 (fun _ s => s) swtch (with_reg a0 8192 (with_reg a1 4096 s1)) = Jumps 3 s3 /\ get s11 s3 = 81.
Proof.
  set (s := with_mode Machine (with_reg a0 4096 (with_reg a1 8192 mach0))).
  assert (regs_ok s) as Hreg.
  { intros r. unfold get, s. cbn [m_reg with_mode with_reg]. destruct (r =? 0); [lia|].
    destruct (decide (r = a0)) as [->|H1]; [by vm_compute|]. rewrite fn_lookup_insert_ne by congruence.
    destruct (decide (r = a1)) as [->|H2]; [by vm_compute|]. rewrite fn_lookup_insert_ne by congruence. apply mach0_range. }
  assert (forall (t : mach) b p, m_mode t = Machine -> get b t = p -> 0 <= p < 2 ^ 32 -> @area mmu0 t b p 112) as Harea.
  { intros t b p Hm Hb Hp o Ho. unfold phys. rewrite Hm, Hb. apply u64_id. lia. }
  destruct (@swtch_resumes mmu0 (fun _ s => s) s 4096 8192 Hreg) as (s1 & E & Hm & _ & Hnew & Hmem & Hback); [by apply Harea|by apply Harea|lia|].
  exists s1. split; [exact E|].
  destruct (Hback (with_reg a0 8192 (with_reg a1 4096 s1)) 8192) as (s3 & E3 & Hr);
    [apply Harea; [exact Hm|reflexivity|lia]|apply Harea; [exact Hm|reflexivity|lia]|lia|intros a Ha; reflexivity|].
  exists s3. split; [exact E3|]. rewrite (Hr s11) by lists. reflexivity.
Defined.

(** ** Interrupts in the kernel *)

Lemma frame_all r : 0 < r < 32 -> r <> tp -> exists o, (r, o) ∈ frame_back.
Proof.
  intros Hr Htp. assert (Forall (fun r => r = tp \/ Exists (fun q => q.1 = r) frame_back) (seqZ 1 31)) as Hall by lists.
  rewrite Forall_forall in Hall. specialize (Hall r). rewrite elem_of_seqZ, Exists_exists in Hall.
  destruct Hall as [?|([r' o] & Hin & <-)]; [lia|done|eauto].
Qed.

(** C18: an interrupt in the kernel leaves the registers alone: kernelvec pushes them,
    calls kerneltrap() and pops them again, and returns to sepc.  kerneltrap() may
    change anything but the stack pointer, the translation and the frame on the
    stack; tp is left as kerneltrap() leaves it, since it may have moved to another
    CPU. *)
Theorem kernelvec_transparent `{Mmu} (callee : Z -> mach -> mach) (kerneltrap : Z) (s : mach) (p : Z) :
  regs_ok s -> 256 <= get sp s ->
  (forall o, 0 <= o < 256 -> phys s (get sp s - 256 + o) = p + o) ->
  (forall t, get sp (callee kerneltrap t) = get sp t /\ m_mode (callee kerneltrap t) = m_mode t /\
     m_csr (callee kerneltrap t) satp = m_csr t satp /\ same_bytes p 256 (m_mem t) (m_mem (callee kerneltrap t))) ->
  exists s1 s2, exec callee (kernelvec kerneltrap) s = Jumps (m_csr (callee kerneltrap s1) sepc) s2 /\
    (forall r, 0 < r < 32 -> r <> tp -> get r s2 = get r s) /\ get tp s2 = get tp (callee kerneltrap s1) /\
    (forall a, a < p \/ p + 256 <= a -> mem_get (m_mem s1) a = mem_get (m_mem s) a).
Proof.
  intros Hreg Hsp Hstack Hcall.
  change (kernelvec kerneltrap) with ([ADDI sp sp (-256)] ++ saves sp frame_regs ++ [CALL kerneltrap] ++ restores sp frame_back ++ [ADDI sp sp 256; SRET]).
  rewrite exec_app. cbn [Machine.exec step]. set (s0 := put sp (get sp s + -256) s).
  assert (get sp s0 = get sp s - 256) as Hs0.
  { unfold s0. rewrite get_put, decide_True by done. pose proof (Hreg sp). rewrite u64_id by lia. lia. }
  assert (area s0 sp p 256) as Ha.
  { intros o Ho. pose proof (Hreg sp). rewrite Hs0, u64_id by lia. rewrite <- (Hstack o Ho). done. }
  rewrite exec_app, (exec_saves callee sp frame_regs s0 p 256 Ha) by lists. set (s1 := with_mem _ s0).
  rewrite exec_app. cbn [Machine.exec step]. destruct (Hcall s1) as (Hcsp & Hcm & Hcs & Hcf). set (t := callee kerneltrap s1) in *.
  assert (forall r o, (r, o) ∈ frame_regs -> load64 (m_mem t) (p + o) = get r s0) as Hslot.
  { intros r o Hin. destruct (slot_in _ _ 256 Hin ltac:(lists)) as [Ho1 Ho2]. cbn [snd] in Ho1, Ho2.
    rewrite (load64_same p 256 (m_mem s1) (m_mem t) o) by (exact Hcf || lia). unfold s1. cbn [m_mem with_mem].
    rewrite (store_regs_load _ _ _ _ r o) by (exact Hin || lists). apply u64_id. unfold s0. rewrite get_put by done. case_decide; [|apply Hreg].
    apply Z.mod_pos_bound. lia. }
  assert (forall r o, (r, o) ∈ frame_back -> (r, o) ∈ frame_regs) as Hsub by (intros r o Hin; by apply list_elem_of_filter in Hin as [_ ?]).
  destruct (exec_restores callee sp frame_back t p 256) as (t2 & E & [L1 L2 L3 L4 L5]); [|lists..| |].
  { apply (area_same s0); [exact Hcm|exact Hcs|exact Hcsp|exact Ha]. }
  { intros o Hin. rewrite (Hslot _ _ (Hsub _ _ Hin)), u64_id; [done|]. rewrite Hs0. pose proof (Hreg sp). lia. }
  rewrite exec_app, E. cbn [Machine.exec step]. destruct (put_frame sp (get sp t2 + 256) t2) as (Hpc & _ & _).
  assert (forall r o, (r, o) ∈ frame_back -> get r t2 = get r s0) as Hback.
  { intros r o Hin. rewrite (L1 r o Hin), (Hslot _ _ (Hsub _ _ Hin)). apply u64_id. unfold s0. rewrite get_put by done. case_decide; [|apply Hreg].
    apply Z.mod_pos_bound. lia. }
  exists s1. eexists. split; [rewrite Hpc, L3; reflexivity|]. split_and!.
  - intros r Hr Htp. change (get r (put sp (get sp t2 + 256) t2) = get r s). destruct (frame_all r Hr Htp) as [o Hin].
    rewrite get_put by done. destruct (decide (r = sp)) as [->|Hne].
    + rewrite (Hback _ _ Hin), Hs0. pose proof (Hreg sp). rewrite u64_id by lia. lia.
    + rewrite (Hback _ _ Hin). unfold s0. by rewrite get_put, decide_False by done.
  - change (get tp (put sp (get sp t2 + 256) t2) = get tp t). rewrite get_put, decide_False by done. apply L2. lists.
  - intros a Hr. unfold s1. cbn [m_mem with_mem]. rewrite store_regs_other with (k := 0) (n := 256) by (lists || lia). done.
Qed.

Lemma kernelvec_transparent_witness :
  let trap (f : Z) (t : mach) := with_reg tp 7 (with_reg a0 0 (with_csr sepc 64 t)) in
  let s := with_mode Machine (with_reg sp 8192 mach0) in
  exists s2, @exec mmu0 trap (kernelvec 1) s = Jumps 64 s2 /\ get a0 s2 = 30 /\ get tp s2 = 7.
Proof.
  intros trap s. destruct (@kernelvec_transparent mmu0 trap 1 s 7936) as (s1 & s2 & E & Hr & Htp & _).
  - intros r. unfold get, s. cbn [m_reg with_mode with_reg]. destruct (r =? 0); [lia|].
    destruct (decide (r = sp)) as [->|H1]; [by vm_compute|]. rewrite fn_lookup_insert_ne by congruence. apply mach0_range.
  - by vm_compute.
  - intros o Ho. change (8192 - 256 + o = 7936 + o). lia.
  - intros t. split_and!; [reflexivity..|by intros a Ha].
  - exists s2. split; [exact E|]. split; [rewrite (Hr a0); [reflexivity|unfold a0; lia|discriminate]|]. rewrite Htp. reflexivity.
Defined.

(** ** Timer interrupts *)

Section timer.
Context `{Mmu}.
Variable callee : Z -> mach -> mach.
Notation exec := (exec callee).

Lemma area_machine s b p n : m_mode s = Machine -> get b s = p -> 0 <= p -> p + n <= 2 ^ 64 -> area s b p n.
Proof. intros Hm Hb Hp Hn o Ho. unfold phys. rewrite Hm, Hb. apply u64_id. lia. Qed.

(** What a timer interrupt finds: mscratch points to the scratch area of the hart. *)
Record timer_ready (s : mach) (sc cmp interval : Z) : Prop := {
  tr_mode : m_mode s = Machine;
  tr_scratch : m_csr s mscratch = sc;
  tr_area : 0 < sc /\ sc + 40 <= 2 ^ 64;
  tr_cmp : load64 (m_mem s) (sc + 24) = cmp;
  tr_interval : load64 (m_mem s) (sc + 32) = interval;
  tr_apart : 0 < cmp /\ cmp + 8 <= 2 ^ 64 /\ (cmp + 8 <= sc \/ sc + 40 <= cmp);
  tr_range : 0 <= interval < 2 ^ 64;
}.

Definition scratch_regs : list (Z * Z) := [(a1, 0); (a2, 8); (a3, 16)].
Definition scratch_back : list (Z * Z) := [(a3, 16); (a2, 8); (a1, 0)].

(** The part between saving and restoring: mtimecmp and the software interrupt. *)
Lemma rearm_spec s sc cmp interval code : area s a0 sc 40 -> m_mode s = Machine ->
  load64 (m_mem s) (sc + 24) = cmp -> load64 (m_mem s) (sc + 32) = interval -> 0 <= cmp -> cmp + 8 <= 2 ^ 64 -> 0 <= interval < 2 ^ 64 ->
  exists s', exec ([LD a1 24 a0; LD a2 32 a0; LD a3 0 a1; ADD a3 a3 a2; SD a3 0 a1; LI a1 2; CSRW sip a1] ++ code) s = exec code s' /\
    m_mem s' = store64 (m_mem s) cmp (u64 (u64 (load64 (m_mem s) cmp) + interval)) /\
    m_csr s' = <[mip := merge (Z.land (m_csr s mideleg) SIE_SSIE) (m_csr s mip) 2]> (m_csr s) /\ m_mode s' = Machine /\
    forall r, r <> a1 -> r <> a2 -> r <> a3 -> get r s' = get r s.
Proof.
  intros Ha Hm Hc Hi Hc1 Hc2 Hir. cbn [app]. rewrite (exec_ld callee a1 24 a0 _ _ sc 40 Ha) by lia. rewrite Hc.
  set (t1 := put a1 cmp s). assert (area t1 a0 sc 40) as Ha1 by (by apply area_put).
  rewrite (exec_ld callee a2 32 a0 _ _ sc 40 Ha1) by lia. change (m_mem t1) with (m_mem s). rewrite Hi. set (t2 := put a2 interval t1).
  assert (area t2 a1 cmp 8) as Hb.
  { apply area_machine; [exact Hm| |lia..]. unfold t2, t1. rewrite get_put, decide_False by done. rewrite get_put, decide_True by done. apply u64_id. lia. }
  rewrite (exec_ld callee a3 0 a1 _ _ cmp 8 Hb) by lia. change (m_mem t2) with (m_mem s). rewrite Z.add_0_r. set (t3 := put a3 _ t2).
  rewrite exec_add. change (get a3 t3) with (u64 (load64 (m_mem s) cmp)). change (get a2 t3) with (u64 interval). rewrite (u64_id interval) by lia.
  set (t4 := put a3 _ t3). assert (area t4 a1 cmp 8) as Hb4 by (by do 2 (apply area_put; [discriminate|])).
  rewrite (exec_sd callee a3 0 a1 _ _ cmp 8 Hb4) by lia. rewrite Z.add_0_r. eexists. split; [reflexivity|]. split_and!; try reflexivity.
  - exact Hm.
  - intros r H1 H2 H3. cbn [write_csr]. unfold get. cbn [m_reg with_csr]. change (get r (put a1 2 (with_mem (store64 (m_mem t4) cmp (get a3 t4)) t4)) = get r s).
    rewrite get_put, decide_False by done. change (get r t4 = get r s). unfold t4, t3, t2, t1. by rewrite !get_put, !decide_False by done.
Qed.

Lemma scratch_same r o : (r, o) ∈ scratch_back -> (r, o) ∈ scratch_regs /\ 0 <= o <= 16.
Proof.
  assert (Forall (fun q => q ∈ scratch_regs /\ 0 <= q.2 <= 16) scratch_back) as Hall by lists. rewrite Forall_forall in Hall. apply (Hall (r, o)).
Qed.

Lemma timervec_spec s sc cmp interval : timer_ready s sc cmp interval -> regs_ok s ->
  exists s', exec timervec s = Jumps (m_csr s mepc) s' /\ (forall r, get r s' = get r s) /\
    m_csr s' mscratch = sc /\ m_csr s' mip = merge (Z.land (m_csr s mideleg) SIE_SSIE) (m_csr s mip) 2 /\
    load64 (m_mem s') cmp = u64 (u64 (load64 (m_mem s) cmp) + interval) /\
    (forall a, (a < sc \/ sc + 24 <= a) -> (a < cmp \/ cmp + 8 <= a) -> mem_get (m_mem s') a = mem_get (m_mem s) a) /\
    m_mode s' = m_mode (mret_state s).
Proof.
  intros [Hm Hsc [Hsc1 Hsc2] Hcmp Hint [Hc1 [Hc2 Hc3]] Hi] Hreg.
  change timervec with ([CSRRW a0 mscratch a0] ++ saves a0 scratch_regs ++ [LD a1 24 a0; LD a2 32 a0; LD a3 0 a1; ADD a3 a3 a2; SD a3 0 a1; LI a1 2; CSRW sip a1] ++
    restores a0 scratch_back ++ [CSRRW a0 mscratch a0; MRET]). rewrite exec_app. cbn [Machine.exec step read_csr write_csr]. rewrite Hsc.
  set (s1 := put a0 sc _). assert (get a0 s1 = sc) as Ha0 by (unfold s1; rewrite get_put, decide_True by done; apply u64_id; lia).
  assert (area s1 a0 sc 40) as A1 by (apply area_machine; [exact Hm|exact Ha0|lia..]).
  rewrite exec_app, (exec_saves callee a0 scratch_regs s1 sc 40 A1) by lists. set (m1 := store_regs _ _ _ _). set (s2 := with_mem m1 s1).
  assert (same_bytes (sc + 24) 16 (m_mem s) m1) as Hkeep by (intros a Hr; apply store_regs_other with (k := 0) (n := 24); [lists|lia]).
  destruct (rearm_spec s2 sc cmp interval (restores a0 scratch_back ++ [CSRRW a0 mscratch a0; MRET])) as (s3 & E3 & Hm3 & Hc3' & Hmode3 & Hr3); [exact A1|exact Hm| | |lia..|].
  { rewrite <- Hcmp, <- (Z.add_0_r (sc + 24)). apply (load64_same _ _ _ _ 0 Hkeep); lia. }
  { rewrite <- Hint. replace (sc + 32) with (sc + 24 + 8) by lia. apply (load64_same _ _ _ _ 8 Hkeep); lia. }
  rewrite E3, exec_app. clear E3. change (m_mem s2) with m1 in Hm3. assert (get a0 s3 = sc) as Ha3 by (rewrite Hr3 by discriminate; exact Ha0).
  assert (load64 m1 cmp = load64 (m_mem s) cmp) as Hcm.
  { unfold load64. f_equal. apply load_bytes_ext. intros k Hk. apply store_regs_other with (k := 0) (n := 24); [lists|lia]. }
  destruct (exec_restores callee a0 scratch_back s3 sc 40) as (s4 & E4 & [L1 L2 L3 L4 L5]); [apply area_machine; [exact Hmode3|exact Ha3|lia..]|lists..| |].
  { intros o Ho. exfalso. apply (slot_reg _ _ _ Ho). lists. }
  rewrite E4. rewrite exec_csrrw. cbn [read_csr write_csr Machine.exec step].
  assert (forall r, get r (put a0 (m_csr s4 mscratch) (with_csr mscratch (get a0 s4) s4)) = get r s) as Hregs.
  { intros r. rewrite get_put by discriminate. case_decide as Hd0.
    - subst r. rewrite L3, Hc3'. change (m_csr s2 mscratch) with (get a0 s). apply u64_id, Hreg.
    - change (get r s4 = get r s). assert (get r s1 = get r s) as Hs1 by (unfold s1; by rewrite get_put, decide_False by done).
      destruct (decide (r ∈ scratch_back.*1)) as [Hin|Hout].
      + apply list_elem_of_fmap in Hin as ([r' o] & -> & Hin). cbn [fst] in *. rewrite (L1 r' o Hin), Hm3.
        assert ((r', o) ∈ scratch_regs /\ 0 <= o <= 16) as [Hin2 Ho] by (by apply scratch_same).
        rewrite load64_store64_ne by lia. unfold m1. rewrite (store_regs_load _ _ _ _ r' o) by (exact Hin2 || lists). rewrite Hs1. pose proof (Hreg r') as Hrr.
        by rewrite !(u64_id (get r' s)) by lia.
      + rewrite L2 by exact Hout. rewrite Hr3, <- Hs1; [done|..]; intros ->; apply Hout; lists. }
  exists (mret_state (put a0 (m_csr s4 mscratch) (with_csr mscratch (get a0 s4) s4))). split_and!.
  - f_equal. change (m_csr s4 mepc = m_csr s mepc). by rewrite L3, Hc3'.
  - exact Hregs.
  - change (get a0 s4 = sc). rewrite (L2 a0) by lists. exact Ha3.
  - change (m_csr s4 mip = merge (Z.land (m_csr s mideleg) SIE_SSIE) (m_csr s mip) 2). by rewrite L3, Hc3'.
  - change (load64 (m_mem s4) cmp = u64 (u64 (load64 (m_mem s) cmp) + interval)). rewrite L4, Hm3, load64_store64_eq, Hcm. apply u64_id, u64_range.
  - intros a Hr1 Hr2. change (mem_get (m_mem s4) a = mem_get (m_mem s) a). rewrite L4, Hm3. unfold store64. rewrite mem_get_store, le_bytes_length, decide_False by lia.
    apply store_regs_other with (k := 0) (n := 24); [lists|lia].
  - change (mode_of (Z.land (Z.shiftr (m_csr s4 mstatus) 11) 3) = mode_of (Z.land (Z.shiftr (m_csr s mstatus) 11) 3)). by rewrite L3, Hc3'.
Qed.
End timer.
