(* ===== verification/Start.v ===== *)
(** * kernel/start.c and entry.S: from reset to main() in supervisor mode. *)

From S2P Require Import Prelude Params Mem Exec Machine Trampoline.

Definition CLINT : Z := 33554432.                                  (* 0x2000000 *)
Definition CLINT_MTIMECMP (hartid : Z) : Z := CLINT + 16384 + 8 * hartid.
Definition CLINT_MTIME : Z := CLINT + 49144.                       (* 0xBFF8 *)

(** The addresses the linker gives to main(), timervec and timer_scratch. *)
Class Symbols := { main_addr : Z; timervec_addr : Z; timer_scratch : Z }.

Section start.
Context `{Symbols}.

Definition load (a : Z) : MM Z := gets (fun s => load64 (m_mem s) a).
Definition store (a v : Z) : MM unit := modify (fun s => with_mem (store64 (m_mem s) a v) s).

Definition timerinit : MM unit :=
  id <- r_mhartid ;;
  let id := i32 id in
  let interval := 1000000 in
  mtime <- load CLINT_MTIME ;;
  store (CLINT_MTIMECMP id) (mtime + interval) ;;;
  let scratch := timer_scratch + 40 * id in
  store (scratch + 24) (CLINT_MTIMECMP id) ;;;
  store (scratch + 32) interval ;;;
  w_mscratch scratch ;;;
  w_mtvec timervec_addr ;;;
  x <- r_mstatus ;;
  w_mstatus (Z.lor x MSTATUS_MIE) ;;;
  x <- r_mie ;;
  w_mie (Z.lor x MIE_MTIE).

(** The address that mret goes to. *)
Definition start : MM Z :=
  x <- r_mstatus ;;
  let x := Z.land x (Z.lnot MSTATUS_MPP_MASK) in
  let x := Z.lor x MSTATUS_MPP_S in
  w_mstatus x ;;;
  w_mepc main_addr ;;;
  w_satp 0 ;;;
  w_medeleg 65535 ;;;
  w_mideleg 65535 ;;;
  x <- r_sie ;;
  w_sie (Z.lor (Z.lor (Z.lor x SIE_SEIE) SIE_STIE) SIE_SSIE) ;;;
  w_pmpaddr0 18014398509481983 ;;;      (* 0x3fffffffffffff *)
  w_pmpcfg0 15 ;;;
  timerinit ;;;
  id <- r_mhartid ;;
  let id := i32 id in
  w_tp id ;;;
  pc <- csrr mepc ;;
  modify mret_state ;;;
  ret pc.
End start.

(** ** Reaching the kernel *)

Lemma mpp_supervisor x : Z.land (Z.shiftr (Z.lor (Z.lor (Z.land x (Z.lnot MSTATUS_MPP_MASK)) MSTATUS_MPP_S) MSTATUS_MIE) 11) 3 = 1.
Proof.
  rewrite !Z.shiftr_lor, Z.shiftr_land, !Z.land_lor_distr_l, <- Z.land_assoc.
  change (Z.land (Z.shiftr (Z.lnot MSTATUS_MPP_MASK) 11) 3) with 0. by rewrite Z.land_0_r.
Qed.

Section run.
Context `{Symbols}.

(** The states after the assignments of timerinit() and start(). *)
Definition timer_mem (id : Z) (m : gmap Z Z) : gmap Z Z :=
  let sc := timer_scratch + 40 * id in
  store64 (store64 (store64 m (CLINT_MTIMECMP id) (load64 m CLINT_MTIME + 1000000)) (sc + 24) (CLINT_MTIMECMP id)) (sc + 32) 1000000.
Definition timer_state (id : Z) (s : mach) : mach :=
  with_csr mie (Z.lor (m_csr s mie) MIE_MTIE) (with_csr mstatus (Z.lor (m_csr s mstatus) MSTATUS_MIE)
    (with_csr mtvec timervec_addr (with_csr mscratch (timer_scratch + 40 * id) (with_mem (timer_mem id (m_mem s)) s)))).
Definition boot_state (s : mach) : mach :=
  with_csr pmpcfg0 15 (with_csr pmpaddr0 18014398509481983
    (with_csr mie (merge DELEGABLE (m_csr s mie) (Z.lor (Z.lor (Z.lor (Z.land (m_csr s mie) DELEGABLE) SIE_SEIE) SIE_STIE) SIE_SSIE))
      (with_csr mideleg DELEGABLE (with_csr medeleg 65535 (with_csr satp 0 (with_csr mepc main_addr
        (with_csr mstatus (Z.lor (Z.land (m_csr s mstatus) (Z.lnot MSTATUS_MPP_MASK)) MSTATUS_MPP_S) s))))))).

Lemma timerinit_run s : timerinit s = Ok tt (timer_state (i32 (m_csr s mhartid)) s).
Proof. reflexivity. Qed.

Lemma start_run s : let id := i32 (m_csr s mhartid) in
  start s = Ok main_addr (mret_state (with_reg tp id (timer_state id (boot_state s)))).
Proof. reflexivity. Qed.
End run.

(** The linker puts the scratch areas into the RAM. *)
Class SymbolsOk `{Symbols} := { scratch_ram : KERNBASE <= timer_scratch /\ timer_scratch + 40 * NCPU <= PHYSTOP }.

(** What main() finds on a hart: supervisor mode, paging off, the hart's number in tp,
    the supervisor interrupts delegated and enabled and all of memory open to
    supervisor mode, and the timer armed for one interval from [mtime]. *)
Record booted `{Symbols} (id mtime : Z) (s : mach) : Prop := {
  bt_mode : m_mode s = Supervisor;
  bt_satp : m_csr s satp = 0;
  bt_tp : m_reg s tp = id;
  bt_medeleg : m_csr s medeleg = 65535;
  bt_mideleg : m_csr s mideleg = DELEGABLE;
  bt_mie : forall n, n ∈ [1; 5; 9; 7] -> Z.testbit (m_csr s mie) n = true;
  bt_pmp : m_csr s pmpaddr0 = 18014398509481983 /\ m_csr s pmpcfg0 = 15;
  bt_mtvec : m_csr s mtvec = timervec_addr;
  bt_armed : load64 (m_mem s) (CLINT_MTIMECMP id) = u64 (mtime + 1000000);
  bt_timer : timer_ready (with_mode Machine s) (timer_scratch + 40 * id) (CLINT_MTIMECMP id) 1000000;
}.

Lemma start_spec `{SymbolsOk} (s : mach) (id : Z) :
  m_mode s = Machine -> m_csr s mhartid = id -> 0 <= id < NCPU ->
  exists s', start s = Ok main_addr s' /\ booted id (load64 (m_mem s) CLINT_MTIME) s' /\ m_reg s' sp = m_reg s sp.
Proof.
  intros Hm Hid Hr. destruct scratch_ram as [Hs1 Hs2]. unfold PHYSTOP, KERNBASE, NCPU in *.
  pose proof (start_run s) as E. cbv zeta in E. rewrite Hid, i32_id in E by lia.
  eexists. split; [exact E|]. clear E. split; [|reflexivity]. split; try (split; reflexivity).
  - change (mode_of (Z.land (Z.shiftr (Z.lor (Z.lor (Z.land (m_csr s mstatus) (Z.lnot MSTATUS_MPP_MASK)) MSTATUS_MPP_S) MSTATUS_MIE) 11) 3) = Supervisor).
    by rewrite mpp_supervisor.
  - intros n Hn. change (Z.testbit (Z.lor (merge DELEGABLE (m_csr s mie) (Z.lor (Z.lor (Z.lor (Z.land (m_csr s mie) DELEGABLE) SIE_SEIE) SIE_STIE) SIE_SSIE)) MIE_MTIE) n = true).
    unfold merge. rewrite !Z.lor_spec, !Z.land_spec, !Z.lor_spec. rewrite !elem_of_cons, elem_of_nil in Hn. destruct_or?; subst; cbn; by rewrite ?orb_true_r.
  - change (load64 (timer_mem id (m_mem s)) (CLINT_MTIMECMP id) = u64 (load64 (m_mem s) CLINT_MTIME + 1000000)).
    unfold timer_mem, CLINT_MTIMECMP, CLINT. rewrite !load64_store64_ne by lia. apply load64_store64_eq.
  - assert (load64 (timer_mem id (m_mem s)) (timer_scratch + 40 * id + 24) = CLINT_MTIMECMP id) as E1.
    { unfold timer_mem, CLINT_MTIMECMP, CLINT. rewrite load64_store64_ne by lia. rewrite load64_store64_eq. apply u64_id. lia. }
    assert (load64 (timer_mem id (m_mem s)) (timer_scratch + 40 * id + 32) = 1000000) as E2 by (unfold timer_mem; by rewrite load64_store64_eq).
    split; [reflexivity|reflexivity|lia|exact E1|exact E2|unfold CLINT_MTIMECMP, CLINT; lia|lia].
Qed.

(** The scratch areas behind the kernel's text, on hart 3. *)
Definition symbols0 : Symbols := {| main_addr := 2147487744; timervec_addr := 2147495936; timer_scratch := 2147520512 |}.
Lemma symbols0_ok : @SymbolsOk symbols0.
Proof. split. by vm_compute. Qed.

Section boot.
Context `{Mmu}.

Lemma entry_spec (callee : Z -> mach -> mach) (stack0 start_addr id : Z) (s : mach) :
  m_csr s mhartid = id -> 0 <= id < NCPU -> 0 <= stack0 -> stack0 + 4096 * NCPU < 2 ^ 64 ->
  exists s', exec callee (entry stack0 start_addr) s = Falls (callee start_addr s') /\ m_reg s' sp = stack0 + 4096 * id + 4096 /\
    m_csr s' = m_csr s /\ m_mem s' = m_mem s /\ m_mode s' = m_mode s.
Proof.
  intros Hid Hr H0 H1. unfold NCPU in *. eexists. split; [reflexivity|]. split; [|split_and!; reflexivity].
  change (u64 (u64 stack0 + u64 (u64 (1024 * 4) * u64 (u64 (m_csr s mhartid) + 1))) = stack0 + 4096 * id + 4096). rewrite Hid.
  rewrite (u64_id id), (u64_id (id + 1)) by lia. change (u64 (1024 * 4)) with 4096.
  rewrite (u64_id (4096 * _)), (u64_id stack0), u64_id by lia. lia.
Qed.

(** C19: from reset to main(): every hart calls start() on a stack of 4096 bytes of its
    own, the piece of stack0 of its number, and start() enters main() in supervisor
    mode on that stack with everything the kernel counts on ([booted]). *)
Theorem boot_correct `{SymbolsOk} (callee : Z -> mach -> mach) (stack0 start_addr id : Z) (s : mach) :
  m_mode s = Machine -> m_csr s mhartid = id -> 0 <= id < NCPU -> 0 <= stack0 -> stack0 + 4096 * NCPU < 2 ^ 64 ->
  exists s1 s2, exec callee (entry stack0 start_addr) s = Falls (callee start_addr s1) /\ start s1 = Ok main_addr s2 /\
    booted id (load64 (m_mem s) CLINT_MTIME) s2 /\ m_reg s1 sp = stack0 + 4096 * id + 4096 /\ m_reg s2 sp = m_reg s1 sp.
Proof.
  intros Hm Hid Hr Hs0 Hs1. destruct (entry_spec callee stack0 start_addr id s Hid Hr Hs0 Hs1) as (s1 & E1 & Hsp & Hc & Hmem & Hmode).
  destruct (start_spec s1 id) as (s2 & E2 & B & Hsp2); [congruence|by rewrite Hc|done|]. rewrite Hmem in B.
  exists s1, s2. split_and!; [exact E1|exact E2|exact B|exact Hsp|exact Hsp2].
Qed.
End boot.

Lemma boot_correct_witness :
  let s := with_mode Machine (with_csr mhartid 3 mach0) in
  exists s1 s2, @exec mmu0 (fun _ t => t) (entry 2147528704 2147483674) s = Falls s1 /\ @start symbols0 s1 = Ok 2147487744 s2 /\
    m_mode s2 = Supervisor /\ m_reg s1 sp = 2147545088.
Proof.
  intros s. destruct (@boot_correct mmu0 symbols0 symbols0_ok (fun _ t => t) 2147528704 2147483674 3 s) as (s1 & s2 & E1 & E2 & B & Hsp & _);
    [reflexivity|reflexivity|unfold NCPU; lia|lia|unfold NCPU; lia|]. exists s1, s2. split_and!; [exact E1|exact E2|apply B|exact Hsp].
Defined.

(** ** The timer *)

(** A timer interrupt costs a program nothing and moves the clock on: timervec
    returns with every register as it was, adds the interval to mtimecmp, raises the
    supervisor software interrupt that trap.c takes as a clock tick, and leaves
    everything ready for the next one. *)
Theorem timervec_correct `{Mmu} (callee : Z -> mach -> mach) (s : mach) (sc cmp interval : Z) :
  timer_ready s sc cmp interval -> regs_ok s -> Z.testbit (m_csr s mideleg) 1 = true ->
  exists s', exec callee timervec s = Jumps (m_csr s mepc) s' /\ (forall r, get r s' = get r s) /\
    Z.testbit (m_csr s' mip) 1 = true /\ (forall n, n <> 1 -> Z.testbit (m_csr s' mip) n = Z.testbit (m_csr s mip) n) /\
    load64 (m_mem s') cmp = u64 (u64 (load64 (m_mem s) cmp) + interval) /\
    (forall a, (a < sc \/ sc + 24 <= a) -> (a < cmp \/ cmp + 8 <= a) -> mem_get (m_mem s') a = mem_get (m_mem s) a) /\
    timer_ready (with_mode Machine s') sc cmp interval.
Proof.
  intros Hr Hreg Hdel. destruct (timervec_spec callee s sc cmp interval Hr Hreg) as (s' & E & Hregs & Hsc & Hip & Hcmp & Hmem & Hmode).
  exists s'. destruct Hr as [R1 R2 R3 R4 R5 R6 R7].
  assert (forall n, Z.testbit (m_csr s' mip) n = if decide (n = 1) then true else Z.testbit (m_csr s mip) n) as Hbit.
  { intros n. rewrite Hip. unfold merge. rewrite Z.lor_spec, !Z.land_spec. destruct (decide (n = 1)) as [->|Hn]; [by rewrite Hdel, orb_true_r|].
    destruct (Z.ltb_spec n 0); [by rewrite !Z.testbit_neg_r by lia|]. rewrite Z.lnot_spec, Z.land_spec by lia.
    change 2 with (2 ^ 1). unfold SIE_SSIE. rewrite Z.shiftl_1_l, Z.pow2_bits_false by lia. by rewrite andb_false_r, andb_true_r, orb_false_r. }
  split_and!; [exact E|exact Hregs|by rewrite Hbit, decide_True|intros n Hn; by rewrite Hbit, decide_False|exact Hcmp|exact Hmem|].
  split; [done|exact Hsc|exact R3| | |exact R6|exact R7]; cbn [m_mem with_mode]; [rewrite <- R4|rewrite <- R5]; unfold load64; f_equal;
    apply load_bytes_ext; intros k Hk; apply Hmem; lia.
Qed.

Lemma timervec_correct_witness :
  let s := with_mode Machine (with_csr mideleg 546 (with_csr mscratch 8192 (with_mem (store64 (store64 ∅ 8216 33570816) 8224 1000000) mach0))) in
  exists s', @exec mmu0 (fun _ t => t) timervec s = Jumps 0 s' /\ Z.testbit (m_csr s' mip) 1 = true /\ (forall r, get r s' = get r s).
Proof.
  intros s. destruct (@timervec_correct mmu0 (fun _ t => t) s 8192 33570816 1000000) as (s' & E & Hr & Hip & _);
    [split; [reflexivity|reflexivity|lia|vm_compute; reflexivity|vm_compute; reflexivity|lia|lia]|exact mach0_regs|reflexivity|].
  exists s'. split_and!; [exact E|exact Hip|exact Hr].
Defined.
