(* ===== verification/Init.v ===== *)
(** * user/init.c and user/zombie.c: the first program, and one that leaves an orphan.

    init never returns: it starts the shell, waits for it and for the orphans that
    the kernel hands to it, and starts the shell again.  A program is an
    interaction tree over the system calls; the kernel that answers them, and the
    other processes, are a transition relation. *)

From ITree Require Import ITree ITreeFacts.
From S2P Require Import Prelude Mem Params.

Declare Scope prog_scope.
Notation "x <- m ;; k" := (ITree.bind m (fun x => k))
  (at level 100, m at next level, right associativity) : prog_scope.
Notation "m ;;; k" := (ITree.bind m (fun _ => k)) (at level 100, right associativity) : prog_scope.
#[local] Open Scope prog_scope.

(** ** The system calls *)

Inductive sysE : Type -> Type :=
| Open (path : list Z) (mode : Z) : sysE Z
| Mknod (path : list Z) (major minor : Z) : sysE Z
| Dup (fd : Z) : sysE Z
| Print (s : list Z) : sysE unit
| Fork : sysE Z
| Exec (path : list Z) (argv : list (list Z)) : sysE Z
| Wait : sysE Z
| Sleep (n : Z) : sysE Z
| Exit (status : Z) : sysE Empty_set.

Definition call {R} (e : sysE R) : itree sysE R := ITree.trigger e.
Definition exit {A} (status : Z) : itree sysE A := x <- call (Exit status) ;; match x : Empty_set with end.

(** ** init.c *)

Definition CONSOLE : Z := 1.
Definition sh_argv : list (list Z) := [str "sh"].

(** The wait for the shell with pid [pid]. *)
Definition wait_shell (pid : Z) : itree sysE unit :=
  ITree.iter (fun _ : unit =>
    wpid <- call Wait ;;
    if wpid =? pid then Ret (inr tt)
    else if wpid <? 0 then call (Print (str "init: wait returned an error" ++ [10])) ;;; exit 1
    else Ret (inl tt)) tt.

Definition init_round : itree sysE unit :=
  call (Print (str "init: starting sh" ++ [10])) ;;;
  pid <- call Fork ;;
  if pid <? 0 then call (Print (str "init: fork failed" ++ [10])) ;;; exit 1
  else if pid =? 0 then
    call (Exec (str "sh") sh_argv) ;;;
    call (Print (str "init: exec sh failed" ++ [10])) ;;;
    exit 1
  else wait_shell pid.

Definition init_forever : itree sysE Empty_set := ITree.iter (fun _ : unit => init_round ;;; Ret (inl tt)) tt.

Definition init_main : itree sysE Empty_set :=
  fd <- call (Open (str "console") O_RDWR) ;;
  (if fd <? 0 then
     call (Mknod (str "console") CONSOLE 0) ;;;
     call (Open (str "console") O_RDWR) ;;;
     Ret tt
   else Ret tt) ;;;
  call (Dup 0) ;;;
  call (Dup 0) ;;;
  init_forever.

(** ** zombie.c *)

Definition zombie_main : itree sysE Empty_set :=
  pid <- call Fork ;;
  (if 0 <? pid then call (Sleep 5) ;;; Ret tt else Ret tt) ;;;
  exit 0.

(** ** The kernel and the other processes

    [node] says whether the file console exists; [fds] descriptors are open, all of
    them on the console; [kids] are the children of init, with those that have
    exited marked; [shell] is the last forked child until it has been waited for;
    [failed] is set when a call has found no free resource or init has been killed. *)
Record kst := mkKst { node : bool; fds : Z; kids : gmap Z bool; shell : option Z; failed : bool }.

Definition with_node (k : kst) : kst := mkKst true (fds k) (kids k) (shell k) (failed k).
Definition with_fd (k : kst) : kst := mkKst (node k) (fds k + 1) (kids k) (shell k) (failed k).
Definition with_kid (p : Z) (z : bool) (k : kst) : kst := mkKst (node k) (fds k) (<[p := z]> (kids k)) (shell k) (failed k).
Definition with_shell (p : option Z) (k : kst) : kst := mkKst (node k) (fds k) (kids k) p (failed k).
Definition without_kid (p : Z) (k : kst) : kst := mkKst (node k) (fds k) (delete p (kids k)) (shell k) (failed k).
Definition with_failure (k : kst) : kst := mkKst (node k) (fds k) (kids k) (shell k) true.

Definition answers {R} (k : kst) (e : sysE R) : R -> kst -> Prop :=
  match e in sysE R return R -> kst -> Prop with
  | Open path _ => fun a k' =>
      if node k && bool_decide (path = str "console") then a = fds k /\ k' = with_fd k \/ a = -1 /\ k' = with_failure k
      else a = -1 /\ k' = k
  | Mknod path major _ => fun a k' =>
      if bool_decide (path = str "console") && (major =? CONSOLE) && negb (node k) then a = 0 /\ k' = with_node k \/ a = -1 /\ k' = with_failure k
      else k' = k
  | Dup fd => fun a k' =>
      if (0 <=? fd) && (fd <? fds k) && (fds k <? NOFILE) then a = fds k /\ k' = with_fd k else a = -1 /\ k' = k
  | Print _ => fun _ k' => k' = k
  | Fork => fun a k' =>
      a = -1 /\ k' = with_failure k \/
      0 < a /\ kids k !! a = None /\ k' = with_shell (Some a) (with_kid a false k)
  | Exec _ _ => fun a k' => a = -1 /\ k' = k
  | Wait => fun a k' =>
      (kids k = ∅ \/ failed k = true) /\ a = -1 /\ k' = k \/
      kids k !! a = Some true /\ k' = with_shell (if decide (shell k = Some a) then None else shell k) (without_kid a k)
  | Sleep _ => fun a k' => a = 0 /\ k' = k
  | Exit _ => fun _ _ => False
  end.

(** A child exits, a process whose parent has exited becomes a child, or init is killed. *)
Definition others (k k' : kst) : Prop :=
  (exists p, kids k !! p = Some false /\ k' = with_kid p true k) \/
  (exists p z, 0 < p /\ kids k !! p = None /\ k' = with_kid p z k) \/
  k' = with_failure k.

(** What a program at [t] does next. *)
Definition acts {A} (t : itree sysE A) (k : kst) (t' : itree sysE A) (k' : kst) : Prop :=
  match observe t with
  | RetF _ => False
  | TauF u => t' = u /\ k' = k
  | VisF e f => exists a, answers k e a k' /\ t' = f a
  end.

Definition istep (x x' : itree sysE Empty_set * kst) : Prop :=
  acts x.1 x.2 x'.1 x'.2 \/ x'.1 = x.1 /\ others x.2 x'.2.

(** ** Where init can be *)

Lemma acts_call {A R} (e : sysE R) (f : R -> itree sysE A) t k t' k' : t ≅ (x <- call e ;; f x) -> acts t k t' k' ->
  exists a, answers k e a k' /\ t' ≅ f a.
Proof.
  unfold call. rewrite bind_trigger. intros (g & E & Hg)%eqitree_inv_Vis_r. unfold acts. rewrite E. intros (a & Ha & ->). by exists a.
Qed.

Lemma acts_tau {A} (u t t' : itree sysE A) k k' : t ≅ Tau u -> acts t k t' k' -> k' = k /\ t' ≅ u.
Proof. intros (v & E & Hv)%eqitree_inv_Tau_r. unfold acts. rewrite E. by intros [-> ->]. Qed.

(** The ends of main(). *)
Definition dup1 : itree sysE Empty_set := call (Dup 0) ;;; init_forever.
Definition dup2 : itree sysE Empty_set := call (Dup 0) ;;; dup1.
Definition after_fork (pid : Z) : itree sysE unit :=
  if pid <? 0 then call (Print (str "init: fork failed" ++ [10])) ;;; exit 1
  else if pid =? 0 then call (Exec (str "sh") sh_argv) ;;; call (Print (str "init: exec sh failed" ++ [10])) ;;; exit 1
  else wait_shell pid.
Definition at_fork : itree sysE Empty_set := pid <- call Fork ;; after_fork pid ;;; Tau init_forever.

Lemma init_main_eq : init_main ≅ (fd <- call (Open (str "console") O_RDWR) ;;
  if fd <? 0 then call (Mknod (str "console") CONSOLE 0) ;;; call (Open (str "console") O_RDWR) ;;; dup2 else dup2).
Proof.
  unfold init_main. apply eqit_bind; [reflexivity|]. intros fd. destruct (fd <? 0); [|by rewrite bind_ret_l].
  rewrite bind_bind. apply eqit_bind; [reflexivity|]. intros _. rewrite bind_bind. apply eqit_bind; [reflexivity|]. intros _. by rewrite bind_ret_l.
Qed.

Lemma init_forever_eq : init_forever ≅ (call (Print (str "init: starting sh" ++ [10])) ;;; at_fork).
Proof.
  unfold init_forever. rewrite unfold_iter. unfold init_round. rewrite !bind_bind. apply eqit_bind; [reflexivity|]. intros _. rewrite !bind_bind.
  apply eqit_bind; [reflexivity|]. intros pid. apply eqit_bind; [reflexivity|]. intros _. by rewrite bind_ret_l.
Qed.

Lemma wait_shell_eq pid : (wait_shell pid ;;; Tau init_forever) ≅ (wpid <- call Wait ;;
  if wpid =? pid then Tau init_forever
  else if wpid <? 0 then call (Print (str "init: wait returned an error" ++ [10])) ;;; exit 1
  else Tau (wait_shell pid ;;; Tau init_forever)).
Proof.
  unfold wait_shell at 1. rewrite unfold_iter, !bind_bind. apply eqit_bind; [reflexivity|]. intros w. destruct (w =? pid); [by rewrite !bind_ret_l|].
  destruct (w <? 0); [|by rewrite !bind_ret_l, bind_tau].
  rewrite !bind_bind. apply eqit_bind; [reflexivity|]. intros _. unfold exit. rewrite !bind_bind. apply eqit_bind; [reflexivity|]. intros [].
Qed.

(** The points of init, with what the kernel holds at each. *)
Definition has_shell (k : kst) (pid : Z) : Prop := shell k = Some pid /\ 0 < pid /\ is_Some (kids k !! pid).

Inductive at_point (t : itree sysE Empty_set) (k : kst) : Prop :=
| AtStart : t ≅ init_main -> fds k = 0 -> shell k = None -> at_point t k
| AtMknod : t ≅ (call (Mknod (str "console") CONSOLE 0) ;;; call (Open (str "console") O_RDWR) ;;; dup2) ->
    fds k = 0 -> shell k = None -> node k = false -> at_point t k
| AtOpen : t ≅ (call (Open (str "console") O_RDWR) ;;; dup2) -> fds k = 0 -> shell k = None -> node k = true -> at_point t k
| AtDup2 : t ≅ dup2 -> fds k = 1 -> shell k = None -> at_point t k
| AtDup1 : t ≅ dup1 -> fds k = 2 -> shell k = None -> at_point t k
| AtTop : t ≅ init_forever \/ t ≅ Tau init_forever -> fds k = 3 -> shell k = None -> at_point t k
| AtFork : t ≅ at_fork -> fds k = 3 -> shell k = None -> at_point t k
| AtWait pid : t ≅ (wait_shell pid ;;; Tau init_forever) \/ t ≅ Tau (wait_shell pid ;;; Tau init_forever) ->
    fds k = 3 -> has_shell k pid -> at_point t k.

Definition init_inv (x : itree sysE Empty_set * kst) : Prop :=
  failed x.2 = true \/ (forall p, is_Some (kids x.2 !! p) -> 0 < p) /\ at_point x.1 x.2.

Lemma others_inv t k k' : others k k' -> init_inv (t, k) -> init_inv (t, k').
Proof.
  intros [(p & Hp & ->)|[(p & z & Hpos & Hp & ->)| ->]]; (intros [Hf|[Hk Hat]]; [by left|]); [right|right|by left]; simpl in *.
  all: split; [intros q [<-|[_ ?]]%lookup_insert_is_Some; eauto|].
  all: destruct Hat as [| | | | | | |pid Ht Hf (Hs & Hp0 & Hin)]; try (econstructor; eassumption).
  all: apply (AtWait _ _ pid Ht); [done|]; repeat split; [done..|]; simpl; apply lookup_insert_is_Some; destruct (decide (p = pid)); auto.
Qed.

Lemma acts_failed {A} (t t' : itree sysE A) k k' : acts t k t' k' -> failed k = true -> failed k' = true.
Proof.
  unfold acts. destruct (observe t) as [| |R e f]; [done|by intros [_ ->]|]. intros (a & Ha & _). destruct e; simpl in Ha; repeat case_match; naive_solver.
Qed.

(** What the state of a call in [at_point] says of its answer. *)
Lemma open_answer k a k' : fds k = 0 -> answers k (Open (str "console") O_RDWR) a k' ->
  node k = true /\ a = 0 /\ k' = with_fd k \/ node k = false /\ a = -1 /\ k' = k \/ failed k' = true.
Proof. intros E. cbn [answers]. rewrite bool_decide_eq_true_2, andb_true_r by done. destruct (node k); rewrite ?E; naive_solver. Qed.

Lemma mknod_answer k a k' : node k = false -> answers k (Mknod (str "console") CONSOLE 0) a k' -> k' = with_node k \/ failed k' = true.
Proof. intros E. cbn [answers]. rewrite bool_decide_eq_true_2, E by done. naive_solver. Qed.

Lemma dup_answer k a k' : 0 < fds k < NOFILE -> answers k (Dup 0) a k' -> k' = with_fd k.
Proof. intros E. cbn [answers]. rewrite (proj2 (Z.ltb_lt 0 _)), (proj2 (Z.ltb_lt _ _)) by lia. by intros [_ ?]. Qed.

Lemma wait_answer k pid a k' : (forall p, is_Some (kids k !! p) -> 0 < p) -> has_shell k pid -> failed k = false -> answers k Wait a k' ->
  fds k' = fds k /\ (forall p, is_Some (kids k' !! p) -> 0 < p) /\ 0 < a /\ (a = pid /\ shell k' = None \/ a <> pid /\ has_shell k' pid).
Proof.
  intros Hk (Hs & Hp & Hin) Hf. simpl. intros [([E|?] & _)|[Ha ->]]; [rewrite E in Hin; by destruct Hin|congruence|]. simpl.
  split; [done|]. split; [intros p; rewrite lookup_delete_is_Some; naive_solver|]. split; [eauto|].
  rewrite Hs. case_decide as E; [left; naive_solver|right]. split; [congruence|]. split; [done|]. split; [done|].
  simpl. rewrite lookup_delete_ne by congruence. done.
Qed.

Ltac to_point := simpl; rewrite ?Z.eqb_refl; right; split; [assumption|]; econstructor; first [eassumption|by left|by right|by simpl; lia|done].

Lemma acts_inv t k t' k' : acts t k t' k' -> init_inv (t, k) -> init_inv (t', k').
Proof.
  intros Ha [Hf|[Hk Hat]]; [left; exact (acts_failed _ _ _ _ Ha Hf)|]. simpl in *.
  destruct (failed k') eqn:Hf'; [by left|]. assert (failed k = false) as Hfk by (destruct (failed k) eqn:E; [|done]; by rewrite (acts_failed _ _ _ _ Ha E) in Hf').
  destruct Hat as [Ht Hd Hs|Ht Hd Hs Hn|Ht Hd Hs Hn|Ht Hd Hs|Ht Hd Hs|[Ht|Ht] Hd Hs|Ht Hd Hs|pid [Ht|Ht] Hd Hs].
  - rewrite init_main_eq in Ht. destruct (acts_call _ _ _ _ _ _ Ht Ha) as (a & Hans & Ht').
    destruct (open_answer _ _ _ Hd Hans) as [(? & -> & ->)|[(? & -> & ->)|?]]; [to_point|to_point|congruence].
  - destruct (acts_call _ _ _ _ _ _ Ht Ha) as (a & Hans & Ht'). destruct (mknod_answer _ _ _ Hn Hans) as [->|?]; [to_point|congruence].
  - destruct (acts_call _ _ _ _ _ _ Ht Ha) as (a & Hans & Ht').
    destruct (open_answer _ _ _ Hd Hans) as [(? & -> & ->)|[(? & _)|?]]; [to_point|congruence|congruence].
  - destruct (acts_call _ _ _ _ _ _ Ht Ha) as (a & Hans & Ht'). rewrite (dup_answer k a k') by (done || unfold NOFILE; lia). to_point.
  - destruct (acts_call _ _ _ _ _ _ Ht Ha) as (a & Hans & Ht'). rewrite (dup_answer k a k') by (done || unfold NOFILE; lia). to_point.
  - rewrite init_forever_eq in Ht. destruct (acts_call _ _ _ _ _ _ Ht Ha) as (a & -> & Ht'). to_point.
  - destruct (acts_tau _ _ _ _ _ Ht Ha) as [-> Ht']. to_point.
  - destruct (acts_call _ _ _ _ _ _ Ht Ha) as (pid & [[_ ->]|(Hp & Hnew & ->)] & Ht'); [done|].
    unfold after_fork in Ht'. rewrite (proj2 (Z.ltb_ge _ _)), (proj2 (Z.eqb_neq _ _)) in Ht' by lia. right. simpl. split.
    + intros q [<-|[_ ?]]%lookup_insert_is_Some; eauto.
    + apply (AtWait _ _ pid); [by left|done|]. repeat split; [done..|]. simpl. rewrite lookup_insert_eq. eauto.
  - rewrite wait_shell_eq in Ht. destruct (acts_call _ _ _ _ _ _ Ht Ha) as (w & Hans & Ht').
    destruct (wait_answer _ _ _ _ Hk Hs Hfk Hans) as (Hd' & Hk' & Hw & Hcase). rewrite <- Hd' in Hd. destruct Hcase as [[-> Hs']|[Hne Hs']].
    + rewrite Z.eqb_refl in Ht'. to_point.
    + rewrite (proj2 (Z.eqb_neq _ _)), (proj2 (Z.ltb_ge _ _)) in Ht' by lia. to_point.
  - destruct (acts_tau _ _ _ _ _ Ht Ha) as [-> Ht']. to_point.
Qed.

(** ** What init does next *)

Definition runs_sh {A} (t : itree sysE A) : Prop :=
  match observe t with VisF (Exec path argv) _ => path = str "sh" /\ argv = sh_argv | _ => False end.

Definition does_next (t : itree sysE Empty_set) (k : kst) : Prop :=
  match observe t with
  | RetF _ => False
  | TauF _ => True
  | VisF e f =>
      match e in sysE R return (R -> itree sysE Empty_set) -> Prop with
      | Open _ _ | Mknod _ _ _ => fun _ => fds k = 0 /\ shell k = None
      | Dup fd => fun _ => 0 <= fd < fds k /\ shell k = None
      | Print _ => fun _ => fds k = 3 /\ shell k = None
      | Fork => fun f => fds k = 3 /\ shell k = None /\ runs_sh (f 0)
      | Wait => fun _ => exists pid, has_shell k pid
      | Exec _ _ | Sleep _ | Exit _ => fun _ => False
      end f
  end.

Lemma next_call {R} (e : sysE R) (g : R -> itree sysE Empty_set) t : t ≅ (x <- call e ;; g x) ->
  exists f, observe t = VisF e f /\ forall a, f a ≅ g a.
Proof. unfold call. rewrite bind_trigger. intros (f & E & Hf)%eqitree_inv_Vis_r. eauto. Qed.

Lemma child_runs_sh t : t ≅ (after_fork 0 ;;; Tau init_forever) -> runs_sh t.
Proof.
  unfold after_fork. simpl. rewrite bind_bind. intros (f & E & _)%next_call. unfold runs_sh. by rewrite E.
Qed.

Lemma at_point_next t k : at_point t k -> does_next t k.
Proof.
  unfold does_next.
  intros [Ht Hd Hs|Ht Hd Hs Hn|Ht Hd Hs Hn|Ht Hd Hs|Ht Hd Hs|[Ht|Ht] Hd Hs|Ht Hd Hs|pid [Ht|Ht] Hd Hs].
  all: rewrite ?init_main_eq, ?init_forever_eq, ?wait_shell_eq in Ht.
  all: first [destruct (next_call _ _ _ Ht) as (f & -> & Hf)|apply eqitree_inv_Tau_r in Ht as (u & -> & _)]; simpl.
  all: repeat split; [try done; try lia; eauto..].
  apply child_runs_sh. rewrite Hf. reflexivity.
Qed.

(** C28: init keeps a shell running.  From a start with no descriptor and no child,
    whatever the other processes do, as long as no call has run out of resources
    and init has not been killed: init forks only with the three descriptors open
    and no shell running, and the child it forks runs sh; while a shell runs, init
    does nothing but wait, and has a child to wait for; it never exits. *)
Theorem init_keeps_shell k0 t k : fds k0 = 0 -> shell k0 = None -> kids k0 = ∅ ->
  rtc istep (init_main, k0) (t, k) -> failed k = true \/ does_next t k.
Proof.
  intros Hd Hs Hk Hr. assert (init_inv (init_main, k0)) as H0.
  { right. split; [intros p; simpl; rewrite Hk; by intros []|by apply AtStart]. }
  assert (init_inv (t, k)) as [?|[_ ?]]; [|by left|by right; apply at_point_next].
  revert H0. generalize (init_main, k0) (t, k) Hr. clear. induction 1 as [|x y z Hstep _ IH]; [done|]. intros Hx. apply IH.
  destruct x as [t0 k0], y as [t1 k1], Hstep as [Ha|[E Ho]]; simpl in *; [by eapply acts_inv|]. subst. by eapply others_inv.
Qed.

Lemma istep_call {R} (e : sysE R) f a t k k' : observe t = VisF e f -> answers k e a k' -> istep (t, k) (f a, k').
Proof. intros E H. left. unfold acts. simpl. rewrite E. eauto. Qed.

Lemma istep_tau u t k : observe t = TauF u -> istep (t, k) (u, k).
Proof. intros E. left. unfold acts. simpl. by rewrite E. Qed.

Lemma istep_orphan p z t k : 0 < p -> kids k !! p = None -> istep (t, k) (t, with_kid p z k).
Proof. right. split; [done|]. right. left. by exists p, z. Qed.

Ltac observed := match goal with |- ?l = _ => let v := eval hnf in l in exact (eq_refl v) end.

(** The first boot: no console file; the shell gets pid 2, and an orphan, pid 5, exits before it. *)
Lemma init_keeps_shell_witness : exists t, let k := mkKst true 3 {[2 := false]} (Some 2) false in
  rtc istep (init_main, mkKst false 0 ∅ None false) (t, k) /\ (failed k = true \/ does_next t k).
Proof.
  assert (exists t, rtc istep (init_main, mkKst false 0 ∅ None false) (t, mkKst true 3 {[2 := false]} (Some 2) false)) as [t Hr].
  { eexists. eapply rtc_l; [eapply (istep_call _ _ (-1)); [observed|by vm_compute]|].
    eapply rtc_l; [eapply (istep_call _ _ 0); [observed|by left]|]. eapply rtc_l; [eapply (istep_call _ _ 0); [observed|by left]|].
    do 2 (eapply rtc_l; [eapply istep_call; [observed|by split]|]). eapply rtc_l; [eapply (istep_call _ _ tt); [observed|done]|].
    eapply rtc_l; [eapply (istep_call _ _ 2); [observed|right; split; [done|]; split; reflexivity]|].
    eapply rtc_l; [by apply (istep_orphan 5 true)|].
    eapply rtc_l; [eapply (istep_call _ _ 5); [observed|right; split; [reflexivity|]; reflexivity]|].
    eapply rtc_l; [eapply istep_tau; observed|]. apply rtc_refl. }
  exists t. split; [exact Hr|]. apply (init_keeps_shell (mkKst false 0 ∅ None false) t); [done..|exact Hr].
Defined.
