(* ===== verification/UProg.v ===== *)
(** * User programs: the monad of their code and the system they run on.

    A user program is a function from the state of the system as the program
    sees it to a [ures]: it returns, leaves through exit(status), or the loop
    bound of the model is reached.  The system calls a program uses are the
    operations of the interface [Os]; [Streams] states what read() and write()
    promise about the bytes of a file descriptor, in particular that a read may
    return fewer bytes than asked for.  The theorems about programs are proved
    against these interfaces. *)

From S2P Require Import Prelude.

(** ** The system calls *)

Class Os := {
  world : Type;
  (* the value returned and the bytes stored in the buffer *)
  sys_read : Z -> Z -> world -> Z * list Z * world;
  sys_write : Z -> list Z -> world -> Z * world;
  sys_open : list Z -> Z -> world -> Z * world;
  sys_close : Z -> world -> Z * world;
  (* the struct stat: type, inode number and size *)
  sys_fstat : Z -> world -> Z * (Z * Z * Z) * world;
  sys_link : list Z -> list Z -> world -> Z * world;
  sys_unlink : list Z -> world -> Z * world;
  sys_mkdir : list Z -> world -> Z * world;
  sys_kill : Z -> world -> Z * world;
  sys_sleep : Z -> world -> Z * world;
}.

(** ** The monad *)

Section monad.
Context `{Os}.

Inductive ures (A : Type) : Type :=
| Returns (a : A) (w : world)
| Exits (status : Z) (w : world)
| NoFuel.
Arguments Returns {A}.
Arguments Exits {A}.
Arguments NoFuel {A}.

Definition U (A : Type) : Type := world -> ures A.

Definition ret {A} (a : A) : U A := fun w => Returns a w.
Definition bind {A B} (m : U A) (f : A -> U B) : U B := fun w =>
  match m w with
  | Returns a w' => f a w'
  | Exits st w' => Exits st w'
  | NoFuel => NoFuel
  end.
Definition exit {A} (status : Z) : U A := fun w => Exits status w.
Definition call {A} (f : world -> A * world) : U A := fun w => let '(a, w') := f w in Returns a w'.
Definition when (b : bool) (m : U unit) : U unit := if b then m else ret tt.

Fixpoint loop {A B} (fuel : nat) (body : A -> U (A + B)) (a : A) : U B :=
  match fuel with
  | O => fun _ => NoFuel
  | S n => bind (body a) (fun r => match r with
                                   | inl a' => loop n body a'
                                   | inr b => ret b
                                   end)
  end.

Fixpoint forM {A} (l : list A) (f : A -> U unit) : U unit :=
  match l with
  | [] => ret tt
  | x :: l => bind (f x) (fun _ => forM l f)
  end.

Definition read (fd n : Z) : U (Z * list Z) := call (sys_read fd n).
Definition write (fd : Z) (bs : list Z) : U Z := call (sys_write fd bs).
Definition open (path : list Z) (mode : Z) : U Z := call (sys_open path mode).
Definition close (fd : Z) : U Z := call (sys_close fd).
Definition fstat (fd : Z) : U (Z * (Z * Z * Z)) := call (sys_fstat fd).
Definition link (old new : list Z) : U Z := call (sys_link old new).
Definition unlink (path : list Z) : U Z := call (sys_unlink path).
Definition mkdir (path : list Z) : U Z := call (sys_mkdir path).
Definition kill (pid : Z) : U Z := call (sys_kill pid).
Definition sleep (n : Z) : U Z := call (sys_sleep n).
End monad.
Arguments Returns {_ A}.
Arguments Exits {_ A}.
Arguments NoFuel {_ A}.

Declare Scope user_scope.
Delimit Scope user_scope with user.
Notation "x <- m ;; k" := (bind m (fun x => k))
  (at level 100, m at next level, right associativity) : user_scope.
Notation "'do' p <- m ;; k" := (bind m (fun x => match x with p => k end))
  (at level 100, p pattern, m at next level, right associativity) : user_scope.
Notation "m ;;; k" := (bind m (fun _ => k)) (at level 100, right associativity) : user_scope.
#[global] Open Scope user_scope.

(** ** Total correctness: [Q] where the program returns, [X] where it exits *)

Section uwp.
Context `{Os}.

Definition uwp {A} (m : U A) (Q : A -> world -> Prop) (X : Z -> world -> Prop) (w : world) : Prop :=
  match m w with
  | Returns a w' => Q a w'
  | Exits st w' => X st w'
  | NoFuel => False
  end.

Lemma uwp_mono {A} (m : U A) (P Q : A -> world -> Prop) X w :
  uwp m P X w -> (forall a w', P a w' -> Q a w') -> uwp m Q X w.
Proof. unfold uwp. destruct (m w); auto. Qed.

Lemma uwp_ret {A} (a : A) (Q : A -> world -> Prop) X w : Q a w -> uwp (ret a) Q X w.
Proof. auto. Qed.

Lemma uwp_exit {A} st (Q : A -> world -> Prop) (X : Z -> world -> Prop) w : X st w -> uwp (exit st) Q X w.
Proof. auto. Qed.

Lemma uwp_bind {A B} (m : U A) (f : A -> U B) Q X w :
  uwp m (fun a => uwp (f a) Q X) X w -> uwp (bind m f) Q X w.
Proof. unfold uwp, bind. destruct (m w); auto. Qed.

(** A loop with an invariant whose measure is below the fuel ends. *)
Lemma uwp_loop {A B} (I : nat -> A -> world -> Prop) (body : A -> U (A + B)) (Q : B -> world -> Prop) X :
  (forall n a w, I n a w ->
     uwp (body a) (fun r w' => match r with
                               | inl a' => exists m, (m < n)%nat /\ I m a' w'
                               | inr b => Q b w'
                               end) X w) ->
  forall fuel n a w, I n a w -> (n < fuel)%nat -> uwp (loop fuel body a) Q X w.
Proof.
  intros Hbody fuel. induction fuel as [|fuel IH]; intros n a w HI Hn; [lia|].
  cbn [loop]. apply uwp_bind. eapply uwp_mono; [apply (Hbody n a w HI)|].
  intros [a'|b] w' Hr; cbn beta in *; [|exact Hr].
  destruct Hr as (m & Hm & HI'). apply (IH m); auto. lia.
Qed.

Lemma uwp_forM {A} (I : list A -> world -> Prop) (l : list A) (f : A -> U unit) X w :
  I l w -> (forall x rest w, I (x :: rest) w -> uwp (f x) (fun _ w' => I rest w') X w) ->
  uwp (forM l f) (fun _ w' => I [] w') X w.
Proof.
  intros H0 Hstep. revert w H0. induction l as [|x l IH]; intros w H0; [exact H0|].
  cbn [forM]. apply uwp_bind. eapply uwp_mono; [apply Hstep, H0|]. auto.
Qed.
End uwp.

Ltac uwp_step :=
  lazymatch goal with
  | |- uwp (bind _ _) _ _ _ => apply uwp_bind; cbn beta
  | |- uwp (ret _) _ _ _ => apply uwp_ret; cbn beta iota
  | |- uwp (exit _) _ _ _ => apply uwp_exit; cbn beta iota
  | |- uwp (when true ?m) _ _ _ => change (when true m) with m
  | |- uwp (when false _) _ _ _ => apply uwp_ret; cbn beta iota
  | |- uwp (if true then ?m else _) _ _ _ => cbn beta iota
  | |- uwp (if false then _ else ?m) _ _ _ => cbn beta iota
  end.
Ltac uwp_steps := repeat uwp_step.

(** ** Byte streams

    The state of the system as a program sees it has an input side, with the
    bytes [pend] that reads of a descriptor will deliver, and the bytes [printed]
    to each descriptor.  Reads and writes of open descriptors succeed; a read may
    be short, but delivers something when there is something to deliver. *)
Class Streams `{Os} := {
  side : Type;
  input : world -> side;
  pend : side -> Z -> list Z;
  readable : side -> Z -> Prop;
  writable : side -> Z -> Prop;
  printed : world -> Z -> list Z;
  read_ok fd n w : 0 <= n -> readable (input w) fd -> exists bs w',
    sys_read fd n w = (Z.of_nat (length bs), bs, w') /\ Z.of_nat (length bs) <= n /\
    pend (input w) fd = bs ++ pend (input w') fd /\ (0 < n -> pend (input w) fd <> [] -> bs <> []) /\
    (forall fd', readable (input w) fd' -> readable (input w') fd') /\
    (forall fd', writable (input w) fd' -> writable (input w') fd') /\ printed w' = printed w;
  write_ok fd bs w : writable (input w) fd -> exists w',
    sys_write fd bs w = (Z.of_nat (length bs), w') /\ printed w' fd = printed w fd ++ bs /\
    (forall fd', fd' <> fd -> printed w' fd' = printed w fd') /\ input w' = input w;
}.

Section streams.
Context `{Streams}.

Definition pending (w : world) (fd : Z) : list Z := pend (input w) fd.

(** The descriptors that were open for reading or writing still are. *)
Definition still_open (w w' : world) : Prop :=
  (forall fd, readable (input w) fd -> readable (input w') fd) /\ (forall fd, writable (input w) fd -> writable (input w') fd).

Lemma uwp_read fd n (Q : Z * list Z -> world -> Prop) X w :
  0 <= n -> readable (input w) fd ->
  (forall bs w', Z.of_nat (length bs) <= n -> pending w fd = bs ++ pending w' fd ->
     (0 < n -> pending w fd <> [] -> bs <> []) -> printed w' = printed w -> still_open w w' ->
     Q (Z.of_nat (length bs), bs) w') ->
  uwp (read fd n) Q X w.
Proof.
  intros Hn Hr HQ. destruct (read_ok fd n w Hn Hr) as (bs & w' & E & Hl & Hp & Hne & Hrd & Hwr & Hpr).
  unfold uwp, read, call. rewrite E. apply HQ; auto. by split.
Qed.

Lemma uwp_write fd bs (Q : Z -> world -> Prop) X w : writable (input w) fd ->
  (forall w', printed w' fd = printed w fd ++ bs -> (forall fd', fd' <> fd -> printed w' fd' = printed w fd') ->
     input w' = input w -> Q (Z.of_nat (length bs)) w') ->
  uwp (write fd bs) Q X w.
Proof.
  intros Hw HQ. destruct (write_ok fd bs w Hw) as (w' & E & Hp & Ho & Hi). unfold uwp, write, call. rewrite E. auto.
Qed.
End streams.

(** ** A system of byte streams

    Reads deliver at most [chunk] bytes at a time; no other call succeeds. *)
Definition failing {A} (w : A) : Z * A := (-1, w).

#[local] Instance stream_os (chunk : nat) : Os := {|
  world := gmap Z (list Z) * gmap Z (list Z);
  sys_read fd n w :=
    let p := default [] (w.1 !! fd) in let k := Nat.min (S chunk) (Z.to_nat n) in
    (Z.of_nat (length (take k p)), take k p, (<[fd := drop k p]> w.1, w.2));
  sys_write fd bs w := (Z.of_nat (length bs), (w.1, <[fd := default [] (w.2 !! fd) ++ bs]> w.2));
  sys_open _ _ := failing;
  sys_close _ := failing;
  sys_fstat _ w := (-1, (0, 0, 0), w);
  sys_link _ _ := failing;
  sys_unlink _ := failing;
  sys_mkdir _ := failing;
  sys_kill _ := failing;
  sys_sleep _ := failing;
|}.

#[local] Instance stream_os_ok (chunk : nat) : @Streams (stream_os chunk).
Proof.
  refine {| input (w : @world (stream_os chunk)) := w.1; pend i fd := default [] (i !! fd);
            readable _ _ := True; writable _ _ := True; printed w fd := default [] (w.2 !! fd) |}.
  - intros fd n [i o] Hn _. cbn [sys_read fst snd stream_os]. set (p := default [] (i !! fd)). set (k := Nat.min (S chunk) (Z.to_nat n)).
    exists (take k p), (<[fd := drop k p]> i, o). cbn [fst snd]. split_and!; [reflexivity| | | |done..].
    + rewrite length_take. unfold k. lia.
    + rewrite lookup_insert_eq. cbn. by rewrite take_drop.
    + intros Hn0 Hp E. apply (f_equal length) in E. rewrite length_take in E. destruct p; [done|]. cbn [length] in E. unfold k in E. lia.
  - intros fd bs [i o] _. cbn. eexists. split_and!; [reflexivity|cbn; by rewrite lookup_insert_eq| |reflexivity].
    intros fd' Hne. cbn. by rewrite lookup_insert_ne.
Defined.
