(* ===== verification/Ulib.v ===== *)
(** * user/ulib.c: the C library of the user programs.

    Strings are the bytes a [char*] points to, without the terminating NUL; the
    memory routines work on the memory of the process. *)

From S2P Require Import Prelude Mem UProg.

(** ** Strings *)

(** The string at the start of an array. *)
Definition cstring (l : list Z) : list Z := cstr (length l) l.

(** The array after strcpy(): the string and its NUL at the front. *)
Definition strcpy (s t : list Z) : list Z := splice s 0 (t ++ [0]).

Fixpoint strcmp (p q : list Z) : Z :=
  match p with
  | [] => - u8 (chr q)
  | c :: p' => if c =? chr q then strcmp p' (tail q) else u8 c - u8 (chr q)
  end.

Definition strlen (s : list Z) : Z := u32 (Z.of_nat (length s)).

(** The index of the first [c], or [None]. *)
Fixpoint strchr (s : list Z) (c : Z) : option nat :=
  match s with
  | [] => None
  | x :: s => if x =? c then Some O else S <$> strchr s c
  end.

Fixpoint atoi_loop (s : list Z) (n : Z) : Z :=
  match s with
  | [] => n
  | c :: s => if (48 <=? c) && (c <=? 57) then atoi_loop s (i32 (i32 (n * 10) + c - 48)) else n
  end.
Definition atoi (s : list Z) : Z := atoi_loop s 0.

(** ** Memory *)

Definition memset (m : gmap Z Z) (dst c n : Z) : gmap Z Z := Mem.memset_loop m dst c 0 (Z.to_nat n).

Definition memmove (m : gmap Z Z) (dst src n : Z) : gmap Z Z :=
  if dst <? src then Mem.move_up m dst src (Z.to_nat n)
  else Mem.move_down m (dst + n) (src + n) (Z.to_nat n).

(** char is unsigned on RISC-V. *)
Definition memcmp (m : gmap Z Z) (s1 s2 n : Z) : Z := Mem.memcmp_loop m s1 s2 (Z.to_nat n).

Definition memcpy (m : gmap Z Z) (dst src n : Z) : gmap Z Z := memmove m dst src n.

(** ** Input *)

Section input.
Context `{Os}.

(** The entry point: main() need not call exit(). *)
Definition _main (main : U unit) : U unit := main ;;; exit 0.

(** The bytes gets() stores before the NUL. *)
Definition gets (max : Z) : U (list Z) :=
  loop (S (Z.to_nat max)) (fun buf =>
    if Z.of_nat (length buf) + 1 <? max then
      do (cc, c) <- read 0 1 ;;
      if cc <? 1 then ret (inr buf) else
      let c := chr c in
      let buf := buf ++ [c] in
      if (c =? 10) || (c =? 13) then ret (inr buf) else ret (inl buf)
    else ret (inr buf)) [].

Definition stat (n : list Z) : U (Z * (Z * Z * Z)) :=
  fd <- open n 0 ;;
  if fd <? 0 then ret (-1, (0, 0, 0)) else
  r <- fstat fd ;;
  close fd ;;;
  ret r.
End input.

(** ** What the functions compute *)

Lemma cstring_app a b : 0 ∉ a -> cstring (a ++ 0 :: b) = a.
Proof.
  intros Ha. unfold cstring. rewrite length_app. cbn [length]. generalize (length b). intros n.
  induction a as [|c a IH]; cbn [app length plus cstr]; [reflexivity|]. apply not_elem_of_cons in Ha as [Hc Ha].
  change (chr (c :: a ++ 0 :: b)) with c. rewrite (proj2 (Z.eqb_neq c 0)) by auto. cbn [tail]. by rewrite IH.
Qed.

Lemma cstring_id a : 0 ∉ a -> cstring a = a.
Proof.
  intros Ha. unfold cstring. induction a as [|c a IH]; [reflexivity|]. apply not_elem_of_cons in Ha as [Hc Ha]. cbn [length cstr].
  change (chr (c :: a)) with c. rewrite (proj2 (Z.eqb_neq c 0)) by auto. cbn [tail]. by rewrite IH.
Qed.

(** Writing into the middle of an array, seen from one of its positions. *)
Lemma drop_zset_mid (l : list Z) p a x y b : 0 <= p -> drop (Z.to_nat p) l = a ++ x :: b ->
  drop (Z.to_nat p) (zset l (p + Z.of_nat (length a)) y) = a ++ y :: b.
Proof.
  intros Hp Hd. unfold zset. replace (Z.to_nat (p + Z.of_nat (length a))) with (Z.to_nat p + length a)%nat by lia.
  rewrite drop_insert_ge by lia. rewrite Hd. replace (Z.to_nat p + length a - Z.to_nat p)%nat with (length a + 0)%nat by lia.
  by rewrite insert_app_r.
Qed.

(** The first place where a character occurs. *)
Lemma strchr_some s c k : strchr s c = Some k <->
  s !! k = Some c /\ forall j, (j < k)%nat -> s !! j <> Some c.
Proof.
  revert k. induction s as [|x s IH]; intros k; cbn [strchr]; [split; [done|intros [? _]; done]|].
  destruct (Z.eqb_spec x c) as [->|Hne].
  - split; [intros [= <-]; split; [reflexivity|lia]|]. intros [_ Hk]. destruct k; [reflexivity|]. destruct (Hk 0%nat); [lia|reflexivity].
  - destruct (strchr s c) as [j|] eqn:E; cbn.
    + split.
      * intros [= <-]. destruct (proj1 (IH j) eq_refl) as [A B]. split; [exact A|]. intros [|i] Hi; [cbn; congruence|apply B; lia].
      * intros [Hk Hb]. destruct k as [|k]; [cbn in Hk; congruence|]. do 2 f_equal.
        apply (inj Some). apply IH. split; [exact Hk|]. intros i Hi. apply (Hb (S i)). lia.
    + split; [done|]. intros [Hk Hb]. destruct k as [|k]; [cbn in Hk; congruence|].
      assert (None = Some k) as [=]. apply IH. split; [exact Hk|]. intros i Hi. apply (Hb (S i)). lia.
Qed.

Lemma strchr_none s c : strchr s c = None <-> c ∉ s.
Proof.
  induction s as [|x s IH]; cbn [strchr]; [by rewrite elem_of_nil; tauto|]. rewrite elem_of_cons.
  destruct (Z.eqb_spec x c) as [->|Hne]; [split; [done|tauto]|]. rewrite fmap_None, IH. naive_solver.
Qed.

Lemma strcmp_eq p q : bytes_ok p -> bytes_ok q -> 0 ∉ p -> 0 ∉ q -> strcmp p q = 0 <-> p = q.
Proof.
  revert q. induction p as [|c p IH]; intros q Hp Hq Zp Zq; cbn [strcmp].
  - destruct q as [|d q]; cbn; [tauto|]. apply Forall_cons in Hq as [Hd _]. apply not_elem_of_cons in Zq as [Zd _].
    rewrite !u8_id by lia. split; [lia|done].
  - apply Forall_cons in Hp as [Hc Hp]. apply not_elem_of_cons in Zp as [Zc Zp].
    destruct q as [|d q]; cbn [chr head default tail]; unfold chr; cbn.
    + rewrite (proj2 (Z.eqb_neq c 0)) by lia. rewrite !u8_id by lia. split; [lia|done].
    + apply Forall_cons in Hq as [Hd Hq]. apply not_elem_of_cons in Zq as [Zd Zq].
      destruct (Z.eqb_spec c d) as [->|Hne]; [rewrite IH by assumption; naive_solver|].
      rewrite !u8_id by lia. split; [lia|naive_solver].
Qed.

(** memmove() copies, whatever the overlap. *)
Lemma umemmove_spec m dst src n : 0 <= n ->
  memmove m dst src n = store_bytes m dst (load_bytes m src (Z.to_nat n)).
Proof.
  intros Hn. unfold memmove. destruct (Z.ltb_spec dst src).
  - rewrite Mem.move_up_spec by lia. reflexivity.
  - replace (dst + n) with (dst + Z.of_nat (Z.to_nat n)) by lia. replace (src + n) with (src + Z.of_nat (Z.to_nat n)) by lia.
    rewrite Mem.move_down_spec by lia. by rewrite !Z.add_simpl_r.
Qed.
