(* ===== verification/UPrintf.v ===== *)
(** * user/printf.c: formatted output of the user programs.

    The variadic arguments are a list of machine words and strings; a missing
    argument, or one of the wrong kind, is undefined in C and reads as zero or
    the null pointer here. *)

From S2P Require Import Prelude Mem UProg Ulib.

Definition udigits : list Z := str "0123456789ABCDEF".

Inductive varg := Vword (w : Z) | Vstr (s : option (list Z)).

Definition va_word (args : list varg) : Z := match args with Vword w :: _ => w | _ => 0 end.
Definition va_str (args : list varg) : option (list Z) := match args with Vstr s :: _ => s | _ => None end.

(** do { buf[i++] = digits[x % base]; } while((x /= base) != 0): 32 iterations
    are enough for an unsigned int. *)
Fixpoint uint_digits (fuel : nat) (x base : Z) : list Z :=
  match fuel with
  | O => []
  | S n => zget udigits (x mod base) :: (if x / base =? 0 then [] else uint_digits n (x / base) base)
  end.

(** The array [buf] of printint(). *)
Definition uint_buf (xx base : Z) (sgn : bool) : list Z :=
  let neg := sgn && (xx <? 0) in
  let x := if neg then u32 (- xx) else u32 xx in
  uint_digits 32 x base ++ (if neg then str "-" else []).

Fixpoint uptr_digits (n : nat) (x : Z) : list Z :=
  match n with
  | O => []
  | S n => zget udigits (Z.shiftr x 60) :: uptr_digits n (u64 (Z.shiftl x 4))
  end.

Section printf.
Context `{Os}.

Definition putc (fd c : Z) : U unit := write fd [u8 c] ;;; ret tt.

Definition printint (fd xx base : Z) (sgn : bool) : U unit :=
  forM (rev (uint_buf (i32 xx) base sgn)) (putc fd).

Definition printptr (fd x : Z) : U unit :=
  putc fd 48 ;;; putc fd 120 ;;; forM (uptr_digits 16 (u64 x)) (putc fd).

(** One conversion: what is printed and the arguments left. *)
Definition convert (fd c : Z) (args : list varg) : U (list varg) :=
  if c =? 100 then printint fd (va_word args) 10 true ;;; ret (tail args)
  else if c =? 108 then printint fd (va_word args) 10 false ;;; ret (tail args)
  else if c =? 120 then printint fd (va_word args) 16 false ;;; ret (tail args)
  else if c =? 112 then printptr fd (va_word args) ;;; ret (tail args)
  else if c =? 115 then forM (default (str "(null)") (va_str args)) (putc fd) ;;; ret (tail args)
  else if c =? 99 then putc fd (va_word args) ;;; ret (tail args)
  else if c =? 37 then putc fd c ;;; ret args
  else putc fd 37 ;;; putc fd c ;;; ret args.

(** [state] is true after a percent sign. *)
Fixpoint vprintf (fd : Z) (fmt : list Z) (state : bool) (args : list varg) : U unit :=
  match fmt with
  | [] => ret tt
  | c :: fmt =>
      if negb state then
        if c =? 37 then vprintf fd fmt true args
        else putc fd c ;;; vprintf fd fmt false args
      else
        args <- convert fd c args ;;
        vprintf fd fmt false args
  end.

Definition fprintf (fd : Z) (fmt : list Z) (args : list varg) : U unit := vprintf fd fmt false args.
Definition printf (fmt : list Z) (args : list varg) : U unit := vprintf 1 fmt false args.
End printf.

(** ** What is printed *)

Section printed.
Context `{Streams}.

(** The world has printed [bs] to [fd] and nothing else has changed. *)
Definition prints (fd : Z) (bs : list Z) (w w' : world) : Prop :=
  printed w' fd = printed w fd ++ bs /\ (forall fd', fd' <> fd -> printed w' fd' = printed w fd') /\ input w' = input w.

Lemma prints_nil fd w : prints fd [] w w.
Proof. split; [by rewrite app_nil_r|done]. Qed.

Lemma prints_input fd bs w w' : prints fd bs w w' -> input w' = input w.
Proof. by intros (_ & _ & E). Qed.

Lemma prints_trans fd a b w1 w2 w3 : prints fd a w1 w2 -> prints fd b w2 w3 -> prints fd (a ++ b) w1 w3.
Proof.
  intros (A1 & B1 & C1) (A2 & B2 & C2). split; [|split; [|congruence]].
  - by rewrite A2, A1, app_assoc.
  - intros fd' Hne. by rewrite B2, B1.
Qed.

Lemma putc_spec fd c (Q : unit -> world -> Prop) X w : writable (input w) fd ->
  (forall w', prints fd [u8 c] w w' -> Q tt w') -> uwp (putc fd c) Q X w.
Proof. intros Hw HQ. unfold putc. uwp_step. apply uwp_write; [exact Hw|]. intros w' A B C. uwp_steps. by apply HQ. Qed.

Lemma puts_spec fd l (Q : unit -> world -> Prop) X w : writable (input w) fd ->
  (forall w', prints fd (u8 <$> l) w w' -> Q tt w') -> uwp (forM l (putc fd)) Q X w.
Proof.
  revert w. induction l as [|c l IH]; intros w Hw HQ; cbn [forM]; [uwp_steps; apply HQ, prints_nil|].
  uwp_step. apply putc_spec; [exact Hw|]. intros w1 H1. apply IH; [by rewrite (prints_input _ _ _ _ H1)|].
  intros w2 H2. apply HQ. apply (prints_trans _ [u8 c] (u8 <$> l) _ _ _ H1 H2).
Qed.

(** What a conversion prints, and what a format prints. *)
Definition convert_text (c : Z) (args : list varg) : list Z * list varg :=
  if c =? 100 then (rev (uint_buf (i32 (va_word args)) 10 true), tail args)
  else if c =? 108 then (rev (uint_buf (i32 (va_word args)) 10 false), tail args)
  else if c =? 120 then (rev (uint_buf (i32 (va_word args)) 16 false), tail args)
  else if c =? 112 then (str "0x" ++ uptr_digits 16 (u64 (va_word args)), tail args)
  else if c =? 115 then (default (str "(null)") (va_str args), tail args)
  else if c =? 99 then ([va_word args], tail args)
  else if c =? 37 then ([c], args)
  else ([37; c], args).

Fixpoint format_text (fmt : list Z) (state : bool) (args : list varg) : list Z :=
  match fmt with
  | [] => []
  | c :: fmt =>
      if negb state then if c =? 37 then format_text fmt true args else c :: format_text fmt false args
      else (convert_text c args).1 ++ format_text fmt false (convert_text c args).2
  end.

Lemma convert_spec fd c args (Q : list varg -> world -> Prop) X w : writable (input w) fd ->
  (forall w', prints fd (u8 <$> (convert_text c args).1) w w' -> Q (convert_text c args).2 w') -> uwp (convert fd c args) Q X w.
Proof.
  intros Hw HQ. unfold convert, convert_text, printint in *.
  repeat (match goal with |- uwp (if ?b then _ else _) _ _ _ => destruct b end);
    try (by uwp_step; apply puts_spec; [exact Hw|]; intros w' Hp; uwp_steps; apply HQ).
  - unfold printptr. repeat uwp_step. apply putc_spec; [exact Hw|]. intros w1 H1. uwp_step. apply putc_spec; [by rewrite (prints_input _ _ _ _ H1)|].
    intros w2 H2. pose proof (prints_trans _ _ _ _ _ _ H1 H2) as H12. apply puts_spec; [by rewrite (prints_input _ _ _ _ H12)|].
    intros w3 H3. uwp_steps. apply HQ. apply (prints_trans _ _ _ _ _ _ H12 H3).
  - uwp_step. apply putc_spec; [exact Hw|]. intros w' Hp. uwp_steps. by apply HQ.
  - uwp_step. apply putc_spec; [exact Hw|]. intros w' Hp. uwp_steps. by apply HQ.
  - uwp_step. apply putc_spec; [exact Hw|]. intros w1 H1. uwp_step. apply putc_spec; [by rewrite (prints_input _ _ _ _ H1)|].
    intros w2 H2. uwp_steps. apply HQ. apply (prints_trans _ _ _ _ _ _ H1 H2).
Qed.

Lemma vprintf_spec fd fmt state args (Q : unit -> world -> Prop) X w : writable (input w) fd ->
  (forall w', prints fd (u8 <$> format_text fmt state args) w w' -> Q tt w') -> uwp (vprintf fd fmt state args) Q X w.
Proof.
  revert state args w. induction fmt as [|c fmt IH]; intros state args w Hw HQ; cbn [vprintf format_text] in *; [uwp_steps; apply HQ, prints_nil|].
  destruct (negb state); [destruct (c =? 37); [by apply IH|]|]; uwp_step; [apply putc_spec|apply convert_spec]; (exact Hw || idtac);
    intros w1 H1; (apply IH; [by rewrite (prints_input _ _ _ _ H1)|]); intros w2 H2; apply HQ; rewrite ?fmap_app; apply (prints_trans _ _ _ _ _ _ H1 H2).
Qed.
End printed.

(** ** Numbers *)

Lemma u8_bytes l : bytes_ok l -> u8 <$> l = l.
Proof. induction 1 as [|c l Hc Hl IH]; [done|]. cbn. by rewrite IH, u8_id by lia. Qed.

Lemma udigit_dec d : 0 <= d < 10 -> zget udigits d = 48 + d.
Proof.
  intros Hd. assert (d ∈ seqZ 0 10) as Hin by (apply elem_of_seqZ; lia). revert Hin.
  change (seqZ 0 10) with [0;1;2;3;4;5;6;7;8;9]. rewrite !elem_of_cons, elem_of_nil. intros Hin. destruct_or!; subst; done.
Qed.

(** The decimal digits of [x], read back by atoi(). *)
Lemma uint_digits_dec fuel x l : 0 <= x < 2 ^ 31 -> x < 10 ^ Z.of_nat fuel -> (0 < fuel)%nat ->
  atoi_loop (rev (uint_digits fuel x 10) ++ l) 0 = atoi_loop l x /\ bytes_ok (uint_digits fuel x 10).
Proof.
  revert x l. induction fuel as [|fuel IH]; intros x l Hx Hf Hn; [lia|]. cbn [uint_digits].
  pose proof (Z.mod_pos_bound x 10 ltac:(lia)) as Hm. rewrite (udigit_dec _ Hm).
  assert (forall n, 0 <= n -> n * 10 + x mod 10 = x -> atoi_loop ((48 + x mod 10) :: l) n = atoi_loop l x) as Hlast.
  { intros n Hn0 E. cbn [atoi_loop]. rewrite (proj2 (Z.leb_le 48 _)), (proj2 (Z.leb_le _ 57)) by lia. cbn [andb].
    rewrite (i32_id (n * 10)) by lia. rewrite i32_id by lia. f_equal. lia. }
  destruct (Z.eqb_spec (x / 10) 0) as [E|E].
  - split; [|repeat constructor; lia]. cbn [rev app]. apply Hlast; dlia.
  - rewrite Nat2Z.inj_succ, Z.pow_succ_r in Hf by lia. assert (0 < fuel)%nat by (destruct fuel; [cbn in Hf; dlia|lia]).
    destruct (IH (x / 10) ((48 + x mod 10) :: l)) as [IH1 IH2]; [dlia|dlia|done|]. split.
    + cbn [rev]. rewrite <- app_assoc. cbn [app]. rewrite IH1. apply Hlast; dlia.
    + constructor; [lia|exact IH2].
Qed.

Lemma bytes_ok_rev l : bytes_ok l -> bytes_ok (rev l).
Proof. intros Hl. apply Forall_forall. intros x Hx. apply (proj1 (Forall_forall _ _) Hl). by apply list_elem_of_In, in_rev, list_elem_of_In. Qed.

(** Printf's %d and atoi() are inverse: printing a number from 0 to INT_MAX
    with %d writes digits from which atoi() gets the number back. *)
Theorem printf_atoi_roundtrip `{Streams} (fd n : Z) (w : world) :
  writable (input w) fd -> 0 <= n < 2 ^ 31 ->
  uwp (fprintf fd (str "%d") [Vword n]) (fun _ w' => exists ds, prints fd ds w w' /\ atoi ds = n) (fun _ _ => False) w.
Proof.
  intros Hw Hn. unfold fprintf. apply vprintf_spec; [exact Hw|]. intros w' Hp. eexists. split; [exact Hp|].
  destruct (uint_digits_dec 32 n []) as [Hv Hb]; [exact Hn|cbn; lia|lia|].
  cbn [format_text negb convert_text fst snd app]. change (format_text (str "%d") false [Vword n]) with (rev (uint_buf (i32 n) 10 true) ++ []).
  unfold uint_buf. rewrite i32_id by lia. rewrite (proj2 (Z.ltb_ge n 0)) by lia. cbn [andb].
  rewrite u32_id, !app_nil_r by lia. rewrite u8_bytes by (by apply bytes_ok_rev). unfold atoi. rewrite <- (app_nil_r (rev _)). by rewrite Hv.
Qed.

Lemma printf_atoi_roundtrip_witness :
  let w0 : @world (stream_os 0) := (∅, ∅) in
  @uwp (stream_os 0) unit (@fprintf (stream_os 0) 1 (str "%d") [Vword 2147483647])
    (fun _ w' => exists ds, @printed _ (stream_os_ok 0) w' 1 = ds /\ atoi ds = 2147483647) (fun _ _ => False) w0.
Proof.
  intros w0. eapply uwp_mono; [apply (@printf_atoi_roundtrip (stream_os 0) (stream_os_ok 0) 1 2147483647 w0); [exact I|lia]|].
  cbn beta. intros _ w' (ds & [Hp _] & Ha). exists ds. split; [|exact Ha]. exact Hp.
Defined.
