(* ===== verification/Grep.v ===== *)
(** * user/grep.c.

    The matcher is compared with the language of the pattern it is given, and
    grep() with the lines of its input, for every way the system may cut the
    input into reads. *)

From S2P Require Import Prelude Mem UProg Ulib UPrintf.

(** ** The matcher *)

(** [do { if(matchhere(re, text)) return 1; } while( *text != '\0' && ( *text++ == c || c == '.'))] *)
Fixpoint star_loop (c : Z) (here : list Z -> bool) (text : list Z) : bool :=
  here text ||
  match text with
  | [] => false
  | t :: text => ((t =? c) || (c =? 46)) && star_loop c here text
  end.

Fixpoint matchhere (re : list Z) (text : list Z) : bool :=
  match re with
  | [] => true
  | c :: re1 =>
      match re1 with
      | d :: re2 =>
          if d =? 42 then star_loop c (matchhere re2) text
          else match text with
               | t :: text => ((c =? 46) || (c =? t)) && matchhere re1 text
               | [] => false
               end
      | [] =>
          if c =? 36 then match text with [] => true | _ => false end
          else match text with
               | t :: text => ((c =? 46) || (c =? t)) && matchhere re1 text
               | [] => false
               end
      end
  end.

Definition matchstar (c : Z) (re text : list Z) : bool := star_loop c (matchhere re) text.

(** [do { ... } while( *text++ != '\0')] *)
Fixpoint match_loop (re text : list Z) : bool :=
  matchhere re text ||
  match text with
  | [] => false
  | _ :: text => match_loop re text
  end.

Definition match_ (re text : list Z) : bool :=
  match re with
  | 94 :: re => matchhere re text
  | _ => match_loop re text
  end.

(** ** The language of a pattern *)

Inductive atom : Type := Lit (c : Z) | Any.
Inductive item : Type := One (a : atom) | Many (a : atom).
Record pattern : Type := mkPattern { anchored : bool; items : list item; to_end : bool }.

Definition atom_of (c : Z) : atom := if c =? 46 then Any else Lit c.

(** The items of a pattern after [^], and whether it ends with [$]. *)
Fixpoint parse_items (re : list Z) : list item * bool :=
  match re with
  | [] => ([], false)
  | c :: re1 =>
      match re1 with
      | 42 :: re2 => let '(l, e) := parse_items re2 in (Many (atom_of c) :: l, e)
      | [] => if c =? 36 then ([], true) else ([One (atom_of c)], false)
      | _ => let '(l, e) := parse_items re1 in (One (atom_of c) :: l, e)
      end
  end.

Definition parse (re : list Z) : pattern :=
  match re with
  | 94 :: re => mkPattern true (parse_items re).1 (parse_items re).2
  | _ => mkPattern false (parse_items re).1 (parse_items re).2
  end.

Definition accepts (a : atom) (x : Z) : Prop := match a with Lit c => x = c | Any => True end.

Inductive lang : list item -> list Z -> Prop :=
| lang_nil : lang [] []
| lang_one a l x w : accepts a x -> lang l w -> lang (One a :: l) (x :: w)
| lang_many a l u w : Forall (accepts a) u -> lang l w -> lang (Many a :: l) (u ++ w).

(** The pattern occurs in the text. *)
Definition occurs (p : pattern) (text : list Z) : Prop :=
  exists before w after, text = before ++ w ++ after /\ lang (items p) w /\
    (anchored p = true -> before = []) /\ (to_end p = true -> after = []).

(** ** The matcher decides the language *)

Lemma accepts_atom c x : accepts (atom_of c) x <-> ((c =? 46) || (c =? x)) = true.
Proof.
  unfold atom_of. destruct (Z.eqb_spec c 46); cbn; [tauto|]. destruct (Z.eqb_spec c x); split; congruence.
Qed.

Lemma star_loop_spec c here text :
  star_loop c here text = true <-> exists u w, text = u ++ w /\ Forall (accepts (atom_of c)) u /\ here w = true.
Proof.
  induction text as [|t text IH]; cbn [star_loop].
  - rewrite orb_false_r. split; [intros Hh; by exists [], []|]. intros ([|] & w & E & _ & Hw); [|done]. cbn in E. by subst.
  - rewrite orb_true_iff, andb_true_iff, IH. split.
    + intros [Hh|[Hc (u & w & -> & Hu & Hw)]]; [by exists [], (t :: text)|]. exists (t :: u), w. split; [done|].
      split; [|exact Hw]. constructor; [|exact Hu]. apply accepts_atom. rewrite orb_comm in Hc. by rewrite (Z.eqb_sym c t).
    + intros ([|x u] & w & E & Hu & Hw); cbn in E; [subst; by left|]. injection E as <- ->. right.
      apply Forall_cons in Hu as [Hx Hu]. apply accepts_atom in Hx. rewrite (Z.eqb_sym t c), orb_comm. split; [exact Hx|]. by exists u, w.
Qed.

(** The text starts with the pattern. *)
Definition starts (p : list item * bool) (text : list Z) : Prop :=
  exists w after, text = w ++ after /\ lang p.1 w /\ (p.2 = true -> after = []).

Lemma starts_one a l e text :
  starts (One a :: l, e) text <-> exists t text', text = t :: text' /\ accepts a t /\ starts (l, e) text'.
Proof.
  split.
  - intros (w & after & -> & Hl & He). inversion Hl as [|? ? x w' Hx Hw|]; subst. eexists x, _. split; [reflexivity|]. split; [exact Hx|]. by exists w', after.
  - intros (t & text' & -> & Ha & w & after & -> & Hl & He). exists (t :: w), after. split; [done|]. split; [by constructor|exact He].
Qed.

Lemma starts_many a l e text :
  starts (Many a :: l, e) text <-> exists u w, text = u ++ w /\ Forall (accepts a) u /\ starts (l, e) w.
Proof.
  split.
  - intros (w & after & -> & Hl & He). inversion Hl as [| |? ? u w' Hu Hw]; subst. exists u, (w' ++ after).
    rewrite app_assoc. split; [done|]. split; [exact Hu|]. by exists w', after.
  - intros (u & w & -> & Ha & w' & after & -> & Hl & He). exists (u ++ w'), after. rewrite app_assoc. split; [done|].
    split; [by constructor|exact He].
Qed.

Lemma one_step c l e here text : (forall text, here text = true <-> starts (l, e) text) ->
  match text with t :: text => ((c =? 46) || (c =? t)) && here text | [] => false end = true <->
  starts (One (atom_of c) :: l, e) text.
Proof.
  intros Hh. rewrite starts_one. destruct text as [|t text]; [split; [done|intros (? & ? & ? & _); done]|].
  rewrite andb_true_iff, <- accepts_atom, Hh. split; [intros [? ?]; eauto|]. by intros (? & ? & [= <- <-] & ? & ?).
Qed.

Lemma matchhere_spec re : forall text, matchhere re text = true <-> starts (parse_items re) text.
Proof.
  induction (length re) as [n IH] eqn:En using (well_founded_induction lt_wf) in re |- *. subst n.
  destruct re as [|c re1]; cbn [matchhere parse_items].
  { intros text. split; [|done]. intros _. exists [], text. split; [done|]. split; [constructor|done]. }
  destruct re1 as [|d re2].
  - intros text. destruct (c =? 36) eqn:Ec.
    + split.
      * destruct text; [|done]. intros _. exists [], []. split; [done|]. split; [constructor|done].
      * intros (w & after & -> & Hl & He). inversion Hl; subst. by rewrite (He eq_refl).
    + apply (one_step c [] false (matchhere [])). intros t. apply (IH 0%nat); cbn; [lia|reflexivity].
  - assert (forall t, matchhere re2 t = true <-> starts (parse_items re2) t) as H2 by (apply (IH (length re2)); [cbn; lia|done]).
    assert (forall t, matchhere (d :: re2) t = true <-> starts (parse_items (d :: re2)) t) as H1
      by (apply (IH (S (length re2))); [cbn; lia|done]).
    intros text. destruct (Z.eqb_spec d 42) as [->|Hd].
    + destruct (parse_items re2) as [l e]. rewrite star_loop_spec, starts_many. setoid_rewrite H2. reflexivity.
    + replace (match d with 42 => _ | _ => _ end) with (let '(l, e) := parse_items (d :: re2) in (One (atom_of c) :: l, e))
        by (clear -Hd; repeat (case_match; try done)).
      destruct (parse_items (d :: re2)) as [l e]. apply one_step, H1.
Qed.

Lemma match_loop_spec re text :
  match_loop re text = true <-> exists before rest, text = before ++ rest /\ matchhere re rest = true.
Proof.
  induction text as [|t text IH]; cbn [match_loop]; rewrite orb_true_iff.
  - split; [intros [Hm|]; [by exists [], []|done]|]. intros ([|] & rest & E & Hm); [|done]. cbn in E. subst. by left.
  - rewrite IH. split.
    + intros [Hm|(b & r & -> & Hm)]; [by exists [], (t :: text)|by exists (t :: b), r].
    + intros ([|x b] & r & E & Hm); cbn in E; [subst; by left|]. injection E as -> ->. right. eauto.
Qed.

(** C32: grep's matcher answers 1 exactly on the texts in which the pattern occurs:
    [c] matches itself, [.] any character, [c*] any number of them, a leading
    [^] ties the match to the start of the text and a trailing [$] to its end. *)
Theorem match_correct re text : match_ re text = true <-> occurs (parse re) text.
Proof.
  assert (forall re, matchhere re text = true <-> occurs (mkPattern true (parse_items re).1 (parse_items re).2) text) as Ha.
  { intros r. rewrite matchhere_spec. split.
    - intros (w & after & -> & Hl & He). by exists [], w, after.
    - intros (b & w & after & -> & Hl & Hb & He). rewrite (Hb eq_refl). by exists w, after. }
  assert (forall re, match_loop re text = true <-> occurs (mkPattern false (parse_items re).1 (parse_items re).2) text) as Hs.
  { intros r. rewrite match_loop_spec. setoid_rewrite matchhere_spec. split.
    - intros (b & r' & -> & w & after & -> & Hl & He). by exists b, w, after.
    - intros (b & w & after & -> & Hl & Hb & He). exists b, (w ++ after). split; [done|]. by exists w, after. }
  unfold match_, parse. repeat (case_match; try apply Hs). apply Ha.
Qed.

(** ** grep() *)

Section grep.
Context `{Os}.

(** [while((q = strchr(p, '\n')) != 0)]: the buffer and [p] afterwards. *)
Definition grep_lines (pattern buf : list Z) (m : Z) : U (list Z * Z) :=
  loop (S (Z.to_nat m)) (fun '(buf, p) =>
    match strchr (cstring (drop (Z.to_nat p) buf)) 10 with
    | None => ret (inr (buf, p))
    | Some k =>
        let q := p + Z.of_nat k in
        let buf := zset buf q 0 in
        if match_ pattern (cstring (drop (Z.to_nat p) buf)) then
          let buf := zset buf q 10 in
          write 1 (slice buf p (q + 1 - p)) ;;;
          ret (inl (buf, q + 1))
        else ret (inl (buf, q + 1))
    end) (buf, 0).

Definition grep (fuel : nat) (pattern : list Z) (fd : Z) (buf : list Z) : U (list Z) :=
  loop fuel (fun '(buf, m) =>
    do (n, bs) <- read fd (1024 - m - 1) ;;
    if negb (0 <? n) then ret (inr buf) else
    let buf := splice buf m bs in
    let m := m + n in
    let buf := zset buf m 0 in
    do (buf, p) <- grep_lines pattern buf m ;;
    if 0 <? m then
      let m := m - p in
      ret (inl (splice buf 0 (slice buf p m), m))
    else ret (inl (buf, m))) (buf, 0).

(** main(): [buf] is the global buffer, which the files share. *)
Definition grep_main (fuel : nat) (argv : list (list Z)) (buf : list Z) : U unit :=
  match argv with
  | [] | [_] => fprintf 2 (str "usage: grep pattern [file ...]" ++ [10]) [] ;;; exit 1
  | [_; pattern] => grep fuel pattern 0 buf ;;; exit 0
  | _ :: pattern :: files =>
      loop (S (length files)) (fun '(files, buf) =>
        match files with
        | [] => ret (inr tt)
        | f :: files =>
            fd <- open f 0 ;;
            if fd <? 0 then
              printf (str "grep: cannot open %s" ++ [10]) [Vstr (Some f)] ;;;
              exit 1
            else
            buf <- grep fuel pattern fd buf ;;
            close fd ;;;
            ret (inl (files, buf))
        end) (files, buf) ;;;
      exit 0
  end.
End grep.

(** The complete lines of a text, without their newlines. *)
Fixpoint lines_from (acc l : list Z) : list (list Z) :=
  match l with
  | [] => []
  | c :: l => if c =? 10 then acc :: lines_from [] l else lines_from (acc ++ [c]) l
  end.
Definition lines (l : list Z) : list (list Z) := lines_from [] l.

(** What grep is to print. *)
Definition matching (pattern input : list Z) : list Z :=
  concat ((fun l => l ++ [10]) <$> filter (fun l => match_ pattern l = true) (lines input)).

(** No line is longer than the buffer allows. *)
Definition short_lines (input : list Z) : Prop :=
  forall a b c, input = a ++ b ++ c -> 10 ∉ b -> (length b <= 1022)%nat.

Lemma lines_from_app acc a l : 10 ∉ a -> lines_from acc (a ++ l) = lines_from (acc ++ a) l.
Proof.
  revert acc. induction a as [|c a IH]; intros acc Ha; cbn [app lines_from]; [by rewrite app_nil_r|].
  apply not_elem_of_cons in Ha as [Hc Ha]. rewrite (proj2 (Z.eqb_neq c 10)) by auto. rewrite IH by exact Ha. by rewrite <- app_assoc.
Qed.

Lemma lines_line a l : 10 ∉ a -> lines (a ++ 10 :: l) = a :: lines l.
Proof. intros Ha. unfold lines. by rewrite lines_from_app. Qed.

Lemma matching_line re a l : 10 ∉ a ->
  matching re (a ++ 10 :: l) = (if match_ re a then a ++ [10] else []) ++ matching re l.
Proof.
  intros Ha. unfold matching. rewrite lines_line by exact Ha. destruct (match_ re a) eqn:E.
  - by rewrite filter_cons_True by exact E.
  - rewrite filter_cons_False by congruence. reflexivity.
Qed.

Lemma matching_none re a : 10 ∉ a -> matching re a = [].
Proof. intros Ha. unfold matching, lines. rewrite <- (app_nil_r a). by rewrite lines_from_app. Qed.

(** The text at [p] in the buffer is [t]. *)
Definition text_at (buf : list Z) (p : Z) (t : list Z) : Prop :=
  0 <= p /\ exists rest, drop (Z.to_nat p) buf = t ++ 0 :: rest.

Section grep_spec.
Context `{Streams}.
Variables (re : list Z) (X : Z -> world -> Prop).

Lemma strchr_line t k : strchr t 10 = Some k -> exists a l, t = a ++ 10 :: l /\ length a = k /\ 10 ∉ a.
Proof.
  intros [Hk Hb]%strchr_some. exists (take k t), (drop (S k) t). split; [symmetry; by apply take_drop_middle|].
  split; [rewrite length_take; apply lookup_lt_Some in Hk; lia|]. intros [j Hj]%list_elem_of_lookup.
  apply lookup_take_Some in Hj as [Hj Hlt]. exact (Hb j Hlt Hj).
Qed.

Lemma text_at_next buf p a x l : text_at buf p (a ++ x :: l) -> text_at buf (p + Z.of_nat (length a) + 1) l.
Proof.
  intros [Hp [rest E]]. split; [lia|]. exists rest.
  replace (Z.to_nat (p + Z.of_nat (length a) + 1)) with (Z.to_nat p + S (length a))%nat by lia.
  rewrite <- drop_drop, E, <- app_assoc. rewrite drop_app_ge by lia. by replace (S (length a) - length a)%nat with 1%nat by lia.
Qed.

Lemma grep_lines_spec buf t m w (Q : list Z * Z -> world -> Prop) :
  writable (input w) 1 -> text_at buf 0 t -> Z.of_nat (length t) = m -> 0 ∉ t ->
  (forall buf' p' t' out w', text_at buf' p' t' -> length buf' = length buf -> p' + Z.of_nat (length t') = m -> 10 ∉ t' ->
     (forall x, matching re (t ++ x) = out ++ matching re (t' ++ x)) -> printed w' 1 = printed w 1 ++ out ->
     input w' = input w -> (exists pre, t = pre ++ t') -> Q (buf', p') w') ->
  uwp (grep_lines re buf m) Q X w.
Proof.
  intros Hwr Ht Hm Hz HQ. unfold grep_lines.
  apply uwp_loop with (I := fun n '(b, p) w1 => exists t1 out, text_at b p t1 /\ length b = length buf /\ n = length t1 /\
    p + Z.of_nat (length t1) = m /\ (exists pre, t = pre ++ t1) /\ (forall x, matching re (t ++ x) = out ++ matching re (t1 ++ x)) /\
    printed w1 1 = printed w 1 ++ out /\ input w1 = input w) (n := length t); [| |lia].
  - intros n [b p] w1 (t1 & out & Ht1 & Hlb & -> & Hp & [pre Hpre] & Hout & Hpr & Hpe).
    pose proof Ht1 as [Hp0 [rest E]]. assert (0 ∉ t1) as Hz1 by (subst t; set_solver). rewrite E, cstring_app by exact Hz1.
    destruct (strchr t1 10) as [k|] eqn:Ek; [|uwp_steps; eapply HQ; eauto; by apply strchr_none].
    destruct (strchr_line _ _ Ek) as (a & l & -> & Hk & Ha). subst k.
    assert (E' : drop (Z.to_nat p) b = a ++ 10 :: l ++ 0 :: rest) by (rewrite E, <- app_assoc; reflexivity).
    set (b0 := zset b (p + Z.of_nat (length a)) 0). pose proof (drop_zset_mid _ _ _ _ 0 _ Hp0 E') as E0. fold b0 in E0.
    rewrite E0, cstring_app by set_solver.
    assert (forall b1 y, length b1 = length b -> drop (Z.to_nat p) b1 = a ++ y :: l ++ 0 :: rest -> forall o w2,
      o = (if match_ re a then a ++ [10] else []) -> printed w2 1 = printed w1 1 ++ o -> input w2 = input w1 ->
      exists m0, (m0 < length (a ++ 10%Z :: l))%nat /\ exists t2 out2, text_at b1 (p + Z.of_nat (length a) + 1) t2 /\
        length b1 = length buf /\ m0 = length t2 /\ p + Z.of_nat (length a) + 1 + Z.of_nat (length t2) = m /\ (exists pre, t = pre ++ t2) /\
        (forall x, matching re (t ++ x) = out2 ++ matching re (t2 ++ x)) /\ printed w2 1 = printed w 1 ++ out2 /\ input w2 = input w) as Hnext.
    { intros b1 y Hl1 E1 o w2 -> Hp2 He2. exists (length l). split; [rewrite length_app; cbn; lia|]. exists l, (out ++ if match_ re a then a ++ [10] else []).
      split_and!; [apply (text_at_next b1 p a y l); split; [exact Hp0|]; exists rest; rewrite E1, <- app_assoc; reflexivity|congruence|reflexivity| | | | |congruence].
      - rewrite length_app in Hp. cbn in Hp. lia.
      - exists (pre ++ a ++ [10]). rewrite Hpre, <- !app_assoc. reflexivity.
      - intros x. rewrite Hout, <- app_assoc. cbn. rewrite matching_line by exact Ha. by rewrite app_assoc.
      - rewrite Hp2, Hpr. by rewrite app_assoc. }
    destruct (match_ re a) eqn:Em; cbv zeta.
    + pose proof (drop_zset_mid _ _ _ _ 10 _ Hp0 E0) as E10. uwp_step. apply uwp_write; [by rewrite Hpe|]. intros w2 Hp2 _ He2. uwp_steps.
      assert (slice (zset b0 (p + Z.of_nat (length a)) 10) p (p + Z.of_nat (length a) + 1 - p) = a ++ [10]) as Esl.
      { unfold slice. rewrite E10. replace (Z.to_nat (p + Z.of_nat (length a) + 1 - p)) with (length (a ++ [10])) by (rewrite length_app; cbn; lia).
        change (a ++ 10 :: l ++ 0 :: rest) with (a ++ [10] ++ (l ++ 0 :: rest)). rewrite app_assoc. by rewrite take_app_length. }
      rewrite Esl in Hp2. refine (Hnext _ 10 _ E10 _ w2 eq_refl Hp2 He2). unfold b0. by rewrite !zset_length.
    + uwp_steps. refine (Hnext _ 0 _ E0 _ w1 eq_refl _ eq_refl); [unfold b0; by rewrite zset_length|by rewrite app_nil_r].
  - exists t, []. split_and!; [exact Ht|reflexivity..|lia|by exists []|reflexivity|by rewrite app_nil_r|reflexivity].
Qed.

(** Between two reads the buffer starts with an unfinished line. *)
Record carrying (txt : list Z) (w0 w : world) (fd : Z) (buf : list Z) (m : Z) : Prop := {
  ca_len : length buf = 1024%nat;
  ca_pos : 0 <= m;
  ca_line : 10 ∉ take (Z.to_nat m) buf;
  ca_input : exists pre, txt = pre ++ take (Z.to_nat m) buf ++ pending w fd;
  ca_out : printed w 1 ++ matching re (take (Z.to_nat m) buf ++ pending w fd) = printed w0 1 ++ matching re txt;
}.

Lemma carrying_room txt w0 w fd buf m : carrying txt w0 w fd buf m -> short_lines txt -> m <= 1022 \/ 1024 < m.
Proof.
  intros [A B C [pre D] _] Hs. pose proof (Hs _ _ _ D C) as Hl. rewrite length_take, A in Hl. lia.
Qed.

Lemma grep_step txt w0 w w1 fd buf m bs (Q : list Z * Z + list Z -> world -> Prop) :
  writable (input w1) 1 -> carrying txt w0 w fd buf m -> 0 ∉ txt -> m + Z.of_nat (length bs) <= 1023 -> bs <> [] ->
  pending w fd = bs ++ pending w1 fd -> printed w1 = printed w ->
  (forall buf' m' w', carrying txt w0 w' fd buf' m' -> input w' = input w1 -> m' <= 1023 -> Q (inl (buf', m')) w') ->
  uwp (do (buf, p) <- grep_lines re (zset (splice buf m bs) (m + Z.of_nat (length bs)) 0) (m + Z.of_nat (length bs)) ;;
       if 0 <? m + Z.of_nat (length bs) then
         let m := m + Z.of_nat (length bs) - p in
         ret (inl (splice buf 0 (slice buf p m), m))
       else ret (inl (buf, m + Z.of_nat (length bs)))) Q X w1.
Proof.
  intros Hwr [A B C [pre D] E] Hz Hm Hbs Hpe Hpr HQ. set (a := take (Z.to_nat m) buf) in *. set (n := Z.of_nat (length bs)) in *.
  assert (length a = Z.to_nat m) as Ha by (unfold a; rewrite length_take; lia). assert (0 < n) as Hn by (unfold n; destruct bs; [done|cbn; lia]).
  assert (0 ∉ a ++ bs) as Hz1 by (rewrite D, Hpe in Hz; set_solver).
  set (b2 := zset (splice buf m bs) (m + n) 0).
  assert (length b2 = 1024%nat) as Hl2 by (unfold b2; rewrite zset_length, splice_length; lia).
  assert (text_at b2 0 (a ++ bs)) as Ht.
  { split; [lia|]. exists (drop (Z.to_nat (m + n) + 1) buf). change (drop (Z.to_nat 0) b2) with b2. unfold b2, splice, zset. fold a.
    rewrite app_assoc. replace (Z.to_nat (m + n)) with (length (a ++ bs) + 0)%nat by (rewrite length_app; unfold n; lia).
    rewrite insert_app_r. f_equal. replace (Z.to_nat m + length bs)%nat with (Z.to_nat (m + n)) by (unfold n; lia).
    destruct (drop (Z.to_nat (m + n)) buf) as [|x r] eqn:Er; [apply (f_equal length) in Er; rewrite length_drop in Er; cbn in Er; lia|].
    cbn. f_equal. rewrite length_app, Nat.add_0_r. replace (length a + length bs + 1)%nat with (Z.to_nat (m + n) + 1)%nat by (unfold n; lia).
    by rewrite <- drop_drop, Er. }
  uwp_step. apply (grep_lines_spec b2 (a ++ bs)); [exact Hwr|exact Ht|rewrite length_app; unfold n; lia|exact Hz1|].
  intros b' p' t' out w' [Hp' [rest Et]] Hl' Hlen Ht' Hout Hprt Hin [pre' Hpre'].
  assert (pending w' = pending w1) as Hpend by (unfold pending; by rewrite Hin). rewrite (proj2 (Z.ltb_lt 0 (m + n))) by lia. cbv zeta. uwp_steps.
  assert (slice b' p' (m + n - p') = t') as Esl.
  { unfold slice. rewrite Et. replace (Z.to_nat (m + n - p')) with (length t') by lia. by rewrite take_app_length. }
  rewrite Esl. apply HQ; [|exact Hin|lia].
  assert (take (Z.to_nat (m + n - p')) (splice b' 0 t') = t') as Etk.
  { unfold splice. cbn [take app]. change (take (Z.to_nat 0) b') with (@nil Z). cbn [app].
    replace (Z.to_nat (m + n - p')) with (length t') by lia. by rewrite take_app_length. }
  split; rewrite ?Etk.
  - rewrite splice_length; lia.
  - lia.
  - exact Ht'.
  - exists (pre ++ pre'). rewrite D, Hpe, Hpend. rewrite (app_assoc a), Hpre', <- !app_assoc. reflexivity.
  - rewrite Hprt, Hpend, <- app_assoc, <- Hout, Hpr. by rewrite <- app_assoc, <- Hpe.
Qed.
End grep_spec.

(** C33: grep() prints the lines of its input that match the pattern, in order and
    nothing else, however the input is cut into reads.  The lines must fit into
    the buffer and the input must have no NUL bytes; a last line without a
    newline is not looked at. *)
Theorem grep_correct `{Streams} (pattern : list Z) (fd : Z) (buf : list Z) (w : world) (fuel : nat) :
  readable (input w) fd -> writable (input w) 1 ->
  length buf = 1024%nat -> short_lines (pending w fd) -> 0 ∉ pending w fd -> (length (pending w fd) < fuel)%nat ->
  uwp (grep fuel pattern fd buf) (fun _ w' => pending w' fd = [] /\
    printed w' 1 = printed w 1 ++ matching pattern (pending w fd)) (fun _ _ => False) w.
Proof.
  intros Hrd Hwr Hl Hs Hz Hf. unfold grep.
  apply uwp_loop with (I := fun n '(b, m) w1 => readable (input w1) fd /\ writable (input w1) 1 /\ carrying pattern (pending w fd) w w1 fd b m /\ m <= 1023 /\ n = length (pending w1 fd))
    (n := length (pending w fd)); [| |exact Hf].
  - intros n [b m] w1 (Hrd1 & Hwr1 & Hc & Hm & ->). pose proof (ca_pos _ _ _ _ _ _ _ Hc) as Hm0.
    assert (m <= 1022) as Hm1 by (destruct (carrying_room _ _ _ _ _ _ _ Hc Hs); lia). uwp_step. apply uwp_read; [lia|exact Hrd1|].
    intros bs w2 Hlb Hpe Hne Hpr [Hro Hwo]. destruct bs as [|c bs].
    + change (0 <? Z.of_nat (length [])) with false. cbn [negb]. uwp_steps. destruct Hc as [A B C _ E]. cbn in Hpe.
      assert (pending w1 fd = []) as Hnil by (destruct (pending w1 fd); [done|]; destruct Hne; [lia|done|done]).
      rewrite Hnil in Hpe, E. split; [done|]. rewrite Hpr, <- E, app_nil_r, matching_none by exact C. by rewrite app_nil_r.
    + rewrite (proj2 (Z.ltb_lt 0 _)) by (cbn; lia). cbn [negb]. cbv zeta.
      apply (grep_step pattern _ (pending w fd) w w1 w2 fd b m (c :: bs)); [by apply Hwo|exact Hc|exact Hz|lia|done|exact Hpe|exact Hpr|].
      intros b' m' w' Hc' Hp' Hm'. rewrite Hp'. eexists. split; [|split_and!; [by apply Hro|by apply Hwo|exact Hc'|exact Hm'|reflexivity]].
      unfold pending at 1. rewrite Hp'. fold (pending w2 fd). rewrite Hpe, length_app. cbn. lia.
  - split_and!; [done..| |lia|reflexivity]. split; [exact Hl|lia|apply not_elem_of_nil|by exists []|reflexivity].
Qed.

(** Three bytes at a time. *)
Lemma grep_correct_witness :
  let text := str "one" ++ [10] ++ str "two" ++ [10] ++ str "none" ++ [10] in
  let w0 : @world (stream_os 2) := ({[ 0 := text ]}, ∅) in
  @uwp (stream_os 2) _ (@grep (stream_os 2) 100 (str "o*ne$") 0 (replicate 1024 0))
    (fun _ w' => @printed _ (stream_os_ok 2) w' 1 = str "one" ++ [10] ++ str "none" ++ [10]) (fun _ _ => False) w0.
Proof.
  intros text w0. eapply uwp_mono; [apply (@grep_correct (stream_os 2) (stream_os_ok 2) (str "o*ne$") 0 (replicate 1024 0) w0 100)|].
  - exact I.
  - exact I.
  - reflexivity.
  - intros a b c E _. apply (f_equal length) in E. rewrite !length_app in E. change (length (pending w0 0)) with 13%nat in E. lia.
  - apply (bool_decide_unpack (0 ∉ text)). vm_compute. exact I.
  - vm_compute. lia.
  - cbn beta. intros _ w' [_ Hp]. exact Hp.
Defined.
