(* ===== verification/Umalloc.v ===== *)
(** * user/umalloc.c: malloc() and free().

    The free list is a ring of headers in address order through the static
    header [base].  The state is the list pointer, the headers by address and
    the end of the process's memory, which sbrk() moves; whether the kernel
    grants more memory is the parameter [grow_ok].  A header is 16 bytes. *)

From S2P Require Import Prelude Exec.

Record uheap := mkUheap { u_freep : Z; u_hdr : gmap Z (Z * Z); u_brk : Z }.

(** The header at an address; fresh memory is zero. *)
Definition hdr (h : gmap Z (Z * Z)) (p : Z) : Z * Z := default (0, 0) (h !! p).

(** The address of [base], and the kernel's decision about a request for [n]
    bytes at the end of a memory of [brk] bytes. *)
Class Break := { base : Z; grow_ok : Z -> Z -> bool }.

(** The linker puts [base] below the heap; the machine has less than 4 GB. *)
Class BreakOk `{Break} := {
  base_pos : 0 < base;
  grow_limit brk n : grow_ok brk n = true -> brk + n <= 2 ^ 32;
}.

Section umalloc.
Context `{Break}.
Notation UM := (M uheap).

Definition hdr_ptr (p : Z) : UM Z := gets (fun s => fst (hdr (u_hdr s) p)).
Definition hdr_size (p : Z) : UM Z := gets (fun s => snd (hdr (u_hdr s) p)).
Definition set_hdr (p : Z) (f : Z * Z -> Z * Z) : UM unit :=
  modify (fun s => mkUheap (u_freep s) (<[p := f (hdr (u_hdr s) p)]> (u_hdr s)) (u_brk s)).
Definition set_ptr (p v : Z) : UM unit := set_hdr p (fun h => (v, snd h)).
Definition set_size (p v : Z) : UM unit := set_hdr p (fun h => (fst h, v)).
Definition set_freep (p : Z) : UM unit := modify (fun s => mkUheap p (u_hdr s) (u_brk s)).

(** sbrk(n), n an int: the old end of the memory, or -1. *)
Definition sbrk (n : Z) : UM Z := fun s =>
  let brk := u_brk s in
  if 0 <? n then
    if grow_ok brk n then Ok brk (mkUheap (u_freep s) (u_hdr s) (brk + n)) else Ok (-1) s
  else
    let sz := u64 (brk + n) in
    Ok brk (mkUheap (u_freep s) (u_hdr s) (if sz <? brk then sz else brk)).

(** The walk of free() to the place of [bp]; the ring has no more nodes than
    there are headers. *)
Definition free_search (bp p : Z) : UM Z :=
  fuel <- gets (fun s => S (size (u_hdr s))) ;;
  loop fuel (fun p =>
    nx <- hdr_ptr p ;;
    if (p <? bp) && (bp <? nx) then ret (inr p) else
    if (nx <=? p) && ((p <? bp) || (bp <? nx)) then ret (inr p) else
    ret (inl nx)) p.

Definition free (ap : Z) : UM unit :=
  let bp := ap - 16 in
  p <- gets u_freep ;;
  p <- free_search bp p ;;
  nx <- hdr_ptr p ;;
  bsz <- hdr_size bp ;;
  (if bp + 16 * bsz =? nx then
     nsz <- hdr_size nx ;;
     set_size bp (u32 (bsz + nsz)) ;;;
     nnx <- hdr_ptr nx ;;
     set_ptr bp nnx
   else set_ptr bp nx) ;;;
  psz <- hdr_size p ;;
  (if p + 16 * psz =? bp then
     bsz <- hdr_size bp ;;
     set_size p (u32 (psz + bsz)) ;;;
     bnx <- hdr_ptr bp ;;
     set_ptr p bnx
   else set_ptr p bp) ;;;
  set_freep p.

Definition morecore (nu : Z) : UM Z :=
  let nu := if nu <? 4096 then 4096 else nu in
  p <- sbrk (i32 (nu * 16)) ;;
  if p =? -1 then ret 0 else
  set_size p nu ;;;
  free (p + 16) ;;;
  gets u_freep.

(** The header units of a request. *)
Definition units (nbytes : Z) : Z := u32 ((nbytes + 16 - 1) / 16 + 1).

Definition malloc (nbytes : Z) : UM Z :=
  let nunits := units nbytes in
  prevp <- gets u_freep ;;
  prevp <- (if prevp =? 0 then set_freep base ;;; set_ptr base base ;;; set_size base 0 ;;; ret base else ret prevp) ;;
  fuel <- gets (fun s => (2 * size (u_hdr s) + 4)%nat) ;;
  p <- hdr_ptr prevp ;;
  loop fuel (fun '(prevp, p) =>
    psz <- hdr_size p ;;
    if nunits <=? psz then
      p <- (if psz =? nunits then
              nx <- hdr_ptr p ;;
              set_ptr prevp nx ;;;
              ret p
            else
              set_size p (psz - nunits) ;;;
              let p := p + 16 * (psz - nunits) in
              set_size p nunits ;;;
              ret p) ;;
      set_freep prevp ;;;
      ret (inr (p + 16))
    else
    fp <- gets u_freep ;;
    if p =? fp then
      p <- morecore nunits ;;
      if p =? 0 then ret (inr 0) else
      nx <- hdr_ptr p ;;
      ret (inl (p, nx))
    else
    nx <- hdr_ptr p ;;
    ret (inl (p, nx))) (prevp, p).
End umalloc.
