(* ===== verification/UmallocSpec.v ===== *)
(** * user/umalloc.c: what malloc() and free() promise.

    The invariant [heap_ok s F A]: the free blocks [F] form the ring in address
    order with a gap between any two (neighbours are merged), the allocated
    blocks [A] carry their size, and no two blocks overlap.  A block is its
    address and its number of 16-byte units, the header included. *)

From stdpp Require Import sorting.
From S2P Require Import Prelude Exec Umalloc.

Implicit Types (F A L : list (Z * Z)) (b c : Z * Z).

Definition bend b : Z := b.1 + 16 * b.2.
Definition gap b c : Prop := bend b < c.1.
Definition apart b c : Prop := bend b <= c.1 \/ bend c <= b.1.
(** The byte [x] lies in a block of [F]. *)
Definition within F (x : Z) : Prop := exists b, b ∈ F /\ b.1 <= x < bend b.

(** The address a list of blocks starts with. *)
Definition first L (z : Z) : Z := match L with [] => z | b :: _ => b.1 end.

(** The headers of [L] are linked in its order, the last one to [z]. *)
Fixpoint chain (h : gmap Z (Z * Z)) L (z : Z) : Prop :=
  match L with
  | [] => True
  | b :: L => hdr h b.1 = (first L z, b.2) /\ chain h L z
  end.

Lemma chain_app h L1 L2 z : chain h (L1 ++ L2) z <-> chain h L1 (first L2 z) /\ chain h L2 z.
Proof.
  induction L1 as [|b L1 IH]; cbn [app chain]; [tauto|]. rewrite IH.
  replace (first (L1 ++ L2) z) with (first L1 (first L2 z)) by (by destruct L1). tauto.
Qed.

Lemma chain_ext h h' L z : (forall b, b ∈ L -> hdr h' b.1 = hdr h b.1) -> chain h L z -> chain h' L z.
Proof.
  induction L as [|b L IH]; intros E; cbn [chain]; [done|]. intros [Hb Hc]. split; [rewrite E by (by left); exact Hb|].
  apply IH; [|exact Hc]. intros c Hc'. apply E. by right.
Qed.

Lemma chain_lookup h L z i b : chain h L z -> L !! i = Some b -> hdr h b.1 = (first (drop (S i) L) z, b.2).
Proof.
  revert i. induction L as [|c L IH]; intros i Hc Hi; [done|]. destruct Hc as [Hb Hc]. destruct i as [|i].
  - injection Hi as <-. exact Hb.
  - exact (IH i Hc Hi).
Qed.

Lemma first_drop L i z c : L !! i = Some c -> first (drop i L) z = c.1.
Proof. intros Hi. by rewrite (drop_S _ _ _ Hi). Qed.

Lemma drop_head L i c l : drop i L = c :: l -> L !! i = Some c.
Proof. intros E. rewrite <- (Nat.add_0_r i), <- lookup_drop, E. reflexivity. Qed.

Lemma hdr_insert_eq h p x : hdr (<[p := x]> h) p = x.
Proof. unfold hdr. by rewrite lookup_insert_eq. Qed.

Lemma hdr_insert_ne h p q x : p <> q -> hdr (<[p := x]> h) q = hdr h q.
Proof. intros Hne. unfold hdr. by rewrite lookup_insert_ne. Qed.

Section heap.
Context `{BreakOk}.

(** A block of the heap: above [base] and below the end of the memory. *)
Definition block_ok (brk : Z) b : Prop := 1 <= b.2 /\ base + 16 <= b.1 /\ bend b <= brk.

Definition ring F : list (Z * Z) := (base, 0) :: F.

Record heap_ok (s : uheap) F A : Prop := {
  ho_ring : chain (u_hdr s) (ring F) base;
  ho_sorted : StronglySorted gap (ring F);
  ho_free : forall b, b ∈ F -> block_ok (u_brk s) b;
  ho_alloc : forall b, b ∈ A -> block_ok (u_brk s) b /\ snd (hdr (u_hdr s) b.1) = b.2;
  ho_freep : exists i b, ring F !! i = Some b /\ b.1 = u_freep s;
  ho_disj : forall b c, b ∈ A -> c ∈ F -> apart b c;
  ho_apart : StronglySorted apart A;
  ho_brk : base + 16 <= u_brk s <= 2 ^ 32;
}.

Lemma ring_base F i b : StronglySorted gap (ring F) -> ring F !! i = Some b -> base <= b.1.
Proof.
  intros [_ Hs]%StronglySorted_inv Hi. destruct i as [|i]; [injection Hi as <-; cbn; lia|].
  rewrite Forall_forall in Hs. specialize (Hs b). cbn in Hi. apply list_elem_of_lookup_2 in Hi. apply Hs in Hi. unfold gap, bend in Hi. cbn in Hi. lia.
Qed.

Lemma sorted_lookup L i j b c : StronglySorted gap L -> L !! i = Some b -> L !! j = Some c -> (i < j)%nat -> gap b c.
Proof.
  revert i j. induction L as [|x L IH]; intros i j Hs Hi Hj Hlt; [done|]. apply StronglySorted_inv in Hs as [Hs Hx].
  destruct j as [|j]; [lia|]. destruct i as [|i].
  - injection Hi as <-. rewrite Forall_forall in Hx. apply Hx. cbn in Hj. by eapply list_elem_of_lookup_2.
  - apply (IH i j); auto. lia.
Qed.

Lemma ring_size s F A i b : heap_ok s F A -> ring F !! i = Some b -> 0 <= b.2.
Proof.
  intros Ho Hi. destruct i as [|i]; [injection Hi as <-; cbn; lia|]. cbn in Hi. apply list_elem_of_lookup_2, (ho_free _ _ _ Ho) in Hi as [? _]. lia.
Qed.

(** The ring has at most as many nodes as there are headers. *)
Lemma ring_length s F A : heap_ok s F A -> (length (ring F) <= size (u_hdr s))%nat.
Proof.
  intros Ho. rewrite <- (size_dom (D := gset Z)). assert (NoDup ((ring F).*1)) as Hnd.
  { apply NoDup_alt. intros i j x Hi Hj. apply list_lookup_fmap_Some in Hi as (b & -> & Hi). apply list_lookup_fmap_Some in Hj as (c & E & Hj).
    pose proof (ring_size _ _ _ _ _ Ho Hi). pose proof (ring_size _ _ _ _ _ Ho Hj). pose proof (ho_sorted _ _ _ Ho) as Hs.
    destruct (lt_eq_lt_dec i j) as [[Hlt|]|Hlt]; [|done|].
    - pose proof (sorted_lookup _ _ _ _ _ Hs Hi Hj Hlt) as Hg. unfold gap, bend in Hg. lia.
    - pose proof (sorted_lookup _ _ _ _ _ Hs Hj Hi Hlt) as Hg. unfold gap, bend in Hg. lia. }
  rewrite <- (length_fmap fst (ring F)). rewrite <- (size_list_to_set (C := gset Z) _ Hnd). apply subseteq_size. intros a Ha.
  apply elem_of_list_to_set, list_elem_of_fmap in Ha as (b & -> & Hb). apply elem_of_dom.
  apply list_elem_of_lookup in Hb as [i Hi]. pose proof (chain_lookup _ _ _ _ _ (ho_ring _ _ _ Ho) Hi) as Hh.
  destruct (u_hdr s !! b.1) eqn:E; [done|]. unfold hdr in Hh. rewrite E in Hh. cbn in Hh. injection Hh as E0 _.
  assert (base <= first (drop i F) base) as Hf; [|pose proof base_pos; lia].
  destruct (drop i F) as [|c l] eqn:Ed; cbn; [lia|]. apply (ring_base F (S i)); [apply (ho_sorted _ _ _ Ho)|].
  exact (drop_head F i c l Ed).
Qed.

(** ** The place of a block in the ring *)

(** The nodes of [ring F] up to number [t] lie before [x], the others after it. *)
Definition splits F (t : nat) (x : Z) : Prop :=
  (t < length (ring F))%nat /\ forall i b, ring F !! i = Some b -> if decide (i <= t)%nat then b.1 < x else x < b.1.

Lemma splits_exists F A s b : heap_ok s F A -> base < b.1 -> (forall c, c ∈ F -> c.1 <> b.1) -> exists t, splits F t b.1.
Proof.
  intros Ho Hb Hne. assert (forall L, StronglySorted gap L -> (forall c, c ∈ L -> 0 <= c.2 /\ c.1 <> b.1) ->
    exists k, (k <= length L)%nat /\ forall i c, L !! i = Some c -> if decide (i < k)%nat then c.1 < b.1 else b.1 < c.1) as Hk.
  { intros L Hs. induction Hs as [|x L Hs IH Hx]; intros Hc; [exists 0%nat; split; [lia|done]|].
    destruct (Hc x ltac:(by left)) as [Hn0 Hn1]. destruct (Z.lt_ge_cases x.1 b.1) as [Hlt|Hge].
    - destruct IH as (k & Hk & IH); [intros c Hin; apply Hc; by right|]. exists (S k). split; [cbn; lia|].
      intros [|i] c Hi; [injection Hi as <-; rewrite decide_True by lia; exact Hlt|]. specialize (IH i c Hi). repeat case_decide; lia.
    - exists 0%nat. split; [lia|]. intros i c Hi. rewrite decide_False by lia. destruct i as [|i]; [injection Hi as <-; lia|].
      rewrite Forall_forall in Hx. cbn in Hi. apply list_elem_of_lookup_2, Hx in Hi. unfold gap, bend in Hi. lia. }
  destruct (Hk F) as (k & Hlen & Hs).
  - by apply (StronglySorted_inv (ho_sorted _ _ _ Ho)).
  - intros c Hc. split; [apply (ho_free _ _ _ Ho) in Hc as [? _]; lia|by apply Hne].
  - exists k. split; [cbn; lia|]. intros [|i] c Hi; [injection Hi as <-; rewrite decide_True by lia; exact Hb|].
    specialize (Hs i c Hi). repeat case_decide; lia.
Qed.

(** free() walks around the ring to the node before the block. *)
Lemma free_search_spec s F A t p x (Q : Z -> uheap -> Prop) :
  heap_ok s F A -> splits F t x -> ring F !! t = Some p -> base < x -> Q p.1 s -> wp (free_search x (u_freep s)) Q s.
Proof.
  intros Ho [Ht Hsp] Hp Hx HQ. unfold free_search. do 2 wp_step. set (n := length (ring F)) in *.
  destruct (ho_freep _ _ _ Ho) as (i0 & b0 & Hi0 & <-). pose proof (lookup_lt_Some _ _ _ Hi0) as Hl0. fold n in Hl0.
  pose proof (ring_length _ _ _ Ho) as Hlen. fold n in Hlen.
  apply wp_loop with (I := fun d q s' => s' = s /\ exists i b, ring F !! i = Some b /\ b.1 = q /\
    d = if decide (i <= t)%nat then (t - i)%nat else (n - i + t)%nat) (n := if decide (i0 <= t)%nat then (t - i0)%nat else (n - i0 + t)%nat);
    [|by eauto 10|case_decide; lia].
  intros d q ? (-> & i & b & Hi & <- & ->). pose proof (lookup_lt_Some _ _ _ Hi) as Hli. fold n in Hli. unfold hdr_ptr. do 2 wp_step.
  rewrite (chain_lookup _ _ _ _ _ (ho_ring _ _ _ Ho) Hi). cbn [fst]. pose proof (Hsp i b Hi) as Hb.
  pose proof (ring_base F i b (ho_sorted _ _ _ Ho) Hi) as Hbase. pose proof (ring_size _ _ _ _ _ Ho Hi) as Hsz.
  destruct (drop (S i) (ring F)) as [|c l] eqn:Ed; cbn [first].
  - assert (S i = n) as Hend by (apply (f_equal length) in Ed; rewrite length_drop in Ed; fold n in Ed; cbn [length] in Ed; lia).
    rewrite (proj2 (Z.ltb_ge x base)) by lia. rewrite andb_false_r, orb_false_r, (proj2 (Z.leb_le base _)) by lia. cbn [andb].
    destruct (decide (i <= t)%nat) as [Hit|Hit].
    + rewrite (proj2 (Z.ltb_lt _ _) Hb). wp_steps. assert (i = t) as -> by lia. rewrite Hi in Hp. by injection Hp as ->.
    + rewrite (proj2 (Z.ltb_ge _ _)) by lia. wp_steps. exists t. split; [lia|]. split; [reflexivity|]. exists 0%nat, (base, 0).
      split_and!; [reflexivity..|]. rewrite decide_True by lia. lia.
  - assert (ring F !! S i = Some c) as Hc by (exact (drop_head _ _ _ _ Ed)).
    pose proof (sorted_lookup _ _ _ _ _ (ho_sorted _ _ _ Ho) Hi Hc ltac:(lia)) as Hg. unfold gap, bend in Hg.
    pose proof (Hsp (S i) c Hc) as Hcx. pose proof (lookup_lt_Some _ _ _ Hc) as Hlc. fold n in Hlc.
    rewrite (proj2 (Z.leb_gt c.1 b.1)) by lia. cbn [andb]. destruct (decide (i = t)) as [->|Hne].
    + rewrite decide_True in Hb by lia. rewrite decide_False in Hcx by lia. rewrite (proj2 (Z.ltb_lt _ _) Hb), (proj2 (Z.ltb_lt _ _) Hcx).
      wp_steps. rewrite Hi in Hp. by injection Hp as ->.
    + replace ((b.1 <? x) && (x <? c.1)) with false.
      * wp_steps. exists (if decide (S i <= t)%nat then (t - S i)%nat else (n - S i + t)%nat). split; [repeat case_decide; lia|].
        split; [reflexivity|]. by exists (S i), c.
      * symmetry. apply andb_false_iff. repeat case_decide; [right|lia|left|left]; apply Z.ltb_ge; lia.
Qed.

(** ** free() *)

(** A block outside the ring that is to be put into it. *)
Record loose (s : uheap) F A b : Prop := {
  lo_ok : heap_ok s F A;
  lo_block : block_ok (u_brk s) b;
  lo_size : snd (hdr (u_hdr s) b.1) = b.2;
  lo_free : forall c, c ∈ F -> apart b c;
  lo_alloc : forall c, c ∈ A -> apart b c;
}.

Lemma within_cons b F x : within (b :: F) x <-> b.1 <= x < bend b \/ within F x.
Proof.
  unfold within. setoid_rewrite elem_of_cons. split.
  - intros (c & [->|Hc] & Hx); [by left|right; eauto].
  - intros [Hx|(c & Hc & Hx)]; [exists b; eauto|exists c; eauto].
Qed.

Lemma within_app F1 F2 x : within (F1 ++ F2) x <-> within F1 x \/ within F2 x.
Proof. unfold within. setoid_rewrite elem_of_app. naive_solver. Qed.

(** The block and what is left of the part of the ring behind it, after it has
    been joined with the block that follows directly. *)
Record joined (brk : Z) b (L2 : list (Z * Z)) b' (L2' : list (Z * Z)) : Prop := {
  jo_addr : b'.1 = b.1;
  jo_size : b.2 <= b'.2;
  jo_block : block_ok brk b';
  jo_sub : exists l, L2 = l ++ L2';
  jo_gap : forall c, c ∈ L2' -> gap b' c;
  jo_within : forall x, within (b' :: L2') x <-> within (b :: L2) x;
}.

Lemma merge_next s b L2 (Q : unit -> uheap -> Prop) :
  block_ok (u_brk s) b -> snd (hdr (u_hdr s) b.1) = b.2 -> chain (u_hdr s) L2 base -> StronglySorted gap L2 -> u_brk s <= 2 ^ 32 ->
  (forall c, c ∈ L2 -> block_ok (u_brk s) c /\ bend b <= c.1) ->
  (forall h1 b' L2', joined (u_brk s) b L2 b' L2' -> hdr h1 b.1 = (first L2' base, b'.2) ->
     (forall q, q <> b.1 -> hdr h1 q = hdr (u_hdr s) q) -> Q tt (mkUheap (u_freep s) h1 (u_brk s))) ->
  wp (if b.1 + 16 * b.2 =? first L2 base then
        nsz <- hdr_size (first L2 base) ;;
        set_size b.1 (u32 (b.2 + nsz)) ;;;
        nnx <- hdr_ptr (first L2 base) ;;
        set_ptr b.1 nnx
      else set_ptr b.1 (first L2 base)) Q s.
Proof.
  intros Hb Hsz Hc Hs Hbrk HL HQ. pose proof Hb as (Hb1 & Hb2 & Hb3). pose proof base_pos. unfold bend in Hb3.
  destruct L2 as [|c L2]; cbn [first].
  - rewrite (proj2 (Z.eqb_neq _ _)) by lia. unfold set_ptr, set_hdr. wp_steps. rewrite Hsz. apply (HQ _ b []).
    + split; [done|lia|done|by exists []|by intros c Hin%elem_of_nil|done].
    + apply hdr_insert_eq.
    + intros q Hq. by apply hdr_insert_ne.
  - destruct Hc as [Hh Hc]. apply StronglySorted_inv in Hs as [Hs Hg]. rewrite Forall_forall in Hg.
    destruct (HL c ltac:(by left)) as [(Hc1 & Hc2 & Hc3) Hbc]. unfold bend in *. destruct (Z.eqb_spec (b.1 + 16 * b.2) c.1) as [E|E].
    + unfold hdr_size, hdr_ptr, set_size, set_ptr, set_hdr. wp_steps. cbn [u_hdr u_freep u_brk]. rewrite hdr_insert_eq.
      rewrite (hdr_insert_ne _ b.1 c.1) by lia. rewrite Hh. cbn [fst snd]. rewrite u32_id by lia.
      apply (HQ _ (b.1, b.2 + c.2) L2); cbn [fst snd].
      * split; cbn [fst snd]; [done|lia|unfold block_ok, bend; cbn; lia|by exists [c]| |].
        -- intros d Hd. specialize (Hg d Hd). unfold gap, bend in *. cbn. lia.
        -- intros x. rewrite !within_cons. unfold bend. cbn [fst snd]. split; [intros [?|?]|intros [?|[?|?]]]; try tauto; lia.
      * apply hdr_insert_eq.
      * intros q Hq. by rewrite !hdr_insert_ne by auto.
    + unfold set_ptr, set_hdr. wp_steps. rewrite Hsz. apply (HQ _ b (c :: L2)).
      * split; [done|lia|done|by exists []| |done]. intros d Hd. unfold gap, bend. destruct (elem_of_cons L2 d c) as [Hd' _].
        destruct (Hd' Hd) as [->|Hin]; [lia|]. specialize (Hg d Hin). unfold gap, bend in Hg. lia.
      * apply hdr_insert_eq.
      * intros q Hq. by apply hdr_insert_ne.
Qed.

(** The predecessor takes the block in, or is linked to it. *)
Definition joins p b' (M' : list (Z * Z)) : Prop :=
  bend p = b'.1 /\ M' = [(p.1, p.2 + b'.2)] \/ bend p <> b'.1 /\ M' = [p; b'].

Lemma merge_prev s p b' L2' (Q : unit -> uheap -> Prop) :
  p.1 < b'.1 -> 0 <= p.2 -> 1 <= b'.2 -> bend p <= b'.1 -> bend b' <= u_brk s -> 0 < p.1 -> u_brk s <= 2 ^ 32 ->
  hdr (u_hdr s) b'.1 = (first L2' base, b'.2) -> snd (hdr (u_hdr s) p.1) = p.2 ->
  (forall h2 M', joins p b' M' -> hdr h2 p.1 = (first (tail M' ++ L2') base, (hd p M').2) ->
     (forall q, q <> p.1 -> hdr h2 q = hdr (u_hdr s) q) -> Q tt (mkUheap p.1 h2 (u_brk s))) ->
  wp (psz <- hdr_size p.1 ;;
      (if p.1 + 16 * psz =? b'.1 then
         bsz <- hdr_size b'.1 ;;
         set_size p.1 (u32 (psz + bsz)) ;;;
         bnx <- hdr_ptr b'.1 ;;
         set_ptr p.1 bnx
       else set_ptr p.1 b'.1) ;;;
      set_freep p.1) Q s.
Proof.
  intros Hlt Hp0 Hb0 Hle Hend Hpos Hbrk Hb Hp HQ. unfold bend in *.
  unfold hdr_size at 1. do 2 wp_step. rewrite Hp. destruct (Z.eqb_spec (p.1 + 16 * p.2) b'.1) as [E|E].
  - unfold hdr_size, hdr_ptr, set_size, set_ptr, set_hdr, set_freep. wp_steps. cbn [u_hdr u_freep u_brk].
    rewrite hdr_insert_eq. rewrite (hdr_insert_ne _ p.1 b'.1) by lia. rewrite Hb. cbn [fst snd]. rewrite u32_id by lia.
    apply (HQ _ [(p.1, p.2 + b'.2)]); [left; unfold bend; auto|apply hdr_insert_eq|]. intros q Hq. by rewrite !hdr_insert_ne by auto.
  - unfold set_ptr, set_hdr, set_freep. wp_steps. cbn [u_hdr u_freep u_brk]. rewrite Hp.
    apply (HQ _ [p; b']); [right; unfold bend; auto|apply hdr_insert_eq|]. intros q Hq. by rewrite !hdr_insert_ne by auto.
Qed.

(** The ring around the place of a block. *)
Lemma ring_split s F A b t p : loose s F A b -> splits F t b.1 -> ring F !! t = Some p ->
  exists L1 L2, ring F = L1 ++ p :: L2 /\ bend p <= b.1 /\ (forall c, c ∈ L1 -> gap c p) /\
    (forall c, c ∈ L2 -> block_ok (u_brk s) c /\ bend b <= c.1) /\ (forall c, c ∈ p :: L2 -> c ∈ F \/ c = (base, 0)).
Proof.
  intros [Ho (Hb1 & Hb2 & Hb3) Hsz Hf Ha] [Ht Hsp] Hp. exists (take t (ring F)), (drop (S t) (ring F)).
  assert (ring F = take t (ring F) ++ p :: drop (S t) (ring F)) as E by (symmetry; by apply take_drop_middle).
  pose proof (Hsp t p Hp) as Hpb. rewrite decide_True in Hpb by lia. split; [exact E|].
  assert (forall c, c ∈ p :: drop (S t) (ring F) -> c ∈ F \/ c = (base, 0)) as Hin.
  { intros c Hc. assert (c ∈ ring F) as [->|?]%elem_of_cons by (rewrite E; apply elem_of_app; by right); tauto. }
  split_and!.
  - destruct (Hin p ltac:(by left)) as [Hpf| ->]; [|unfold bend; cbn; lia]. destruct (Hf p Hpf) as [Hx|Hx]; [unfold bend in Hx; lia|exact Hx].
  - intros c Hc. apply (StronglySorted_app_1_elem_of gap (take t (ring F)) (p :: drop (S t) (ring F))); [|exact Hc|by left].
    rewrite <- E. apply (ho_sorted _ _ _ Ho).
  - intros c [j Hj]%list_elem_of_lookup. rewrite lookup_drop in Hj. pose proof (Hsp _ _ Hj) as Hc. rewrite decide_False in Hc by lia.
    assert (c ∈ F) as HcF by (change (ring F !! S (t + j) = Some c) in Hj; cbn in Hj; by eapply list_elem_of_lookup_2).
    split; [by apply (ho_free _ _ _ Ho)|]. destruct (Hf c HcF) as [Hx|Hx]; [exact Hx|]. destruct (ho_free _ _ _ Ho c HcF) as (? & ? & ?). unfold bend in Hx. lia.
  - exact Hin.
Qed.

Lemma joins_facts p b' M' : joins p b' M' -> p.1 < b'.1 -> 0 <= p.2 -> 1 <= b'.2 -> bend p <= b'.1 ->
  (forall z, first M' z = p.1) /\ StronglySorted gap M' /\ (forall c m, gap c p -> m ∈ M' -> gap c m) /\
  (forall c m, gap b' c -> m ∈ M' -> gap m c) /\ (forall x, within M' x <-> within [p; b'] x) /\
  exists c, c ∈ M' /\ c <> p /\ b'.2 <= c.2.
Proof.
  unfold bend. intros [[E ->]|[E ->]] H1 H2 H3 H4; unfold bend in E.
  - split_and!; [done|repeat constructor| | | |].
    + intros c m Hg Hm. apply list_elem_of_singleton in Hm as ->. exact Hg.
    + intros c m Hg Hm. apply list_elem_of_singleton in Hm as ->. unfold gap, bend in *. cbn. lia.
    + intros x. rewrite !within_cons. unfold bend. cbn [fst snd]. split; [intros [?|?]|intros [?|[?|?]]]; try tauto; lia.
    + exists (p.1, p.2 + b'.2). split; [by left|]. split; [|cbn; lia]. intros Ep. apply (f_equal snd) in Ep. cbn in Ep. lia.
  - split_and!; [done| | | |done|].
    + repeat constructor. unfold gap, bend. lia.
    + intros c m Hg Hm. apply elem_of_cons in Hm as [->|Hm%list_elem_of_singleton]; [exact Hg|]. subst m. unfold gap, bend in *. lia.
    + intros c m Hg Hm. apply elem_of_cons in Hm as [->|Hm%list_elem_of_singleton]; [|by subst m]. unfold gap, bend in *. lia.
    + exists b'. split; [by right; left|]. split; [intros ->; lia|lia].
Qed.

Lemma ring_front F L1 p L2 M' L2' : ring F = L1 ++ p :: L2 -> (forall z, first M' z = p.1) ->
  (p = (base, 0) -> exists b', M' = [p; b']) -> exists F', L1 ++ M' ++ L2' = ring F'.
Proof.
  intros E Hf Hb. destruct L1 as [|x L1]; cbn in E.
  - injection E as <- _. destruct (Hb eq_refl) as [b' ->]. by exists (b' :: L2').
  - injection E as <- _. by exists (L1 ++ M' ++ L2').
Qed.

Lemma apart_ne b c : 1 <= b.2 -> 1 <= c.2 -> apart b c -> b.1 <> c.1.
Proof. unfold apart, bend. lia. Qed.

(** Blocks that cover no more than the old ones and the new one are sound. *)
Lemma covered_ok s F A b F' : loose s F A b -> (forall c, c ∈ F' -> 1 <= c.2) ->
  (forall x, within F' x -> within F x \/ b.1 <= x < bend b) ->
  (forall c, c ∈ F' -> block_ok (u_brk s) c) /\ forall a c, a ∈ A -> c ∈ F' -> apart a c.
Proof.
  intros [Ho (Hb1 & Hb2 & Hb3) _ Hf Ha] H1 Hw.
  assert (forall c x, c ∈ F' -> c.1 <= x < bend c -> within F x \/ b.1 <= x < bend b) as Hx by (intros c x Hc Hx; apply Hw; by exists c).
  split.
  - intros c Hc. specialize (H1 c Hc). split; [exact H1|]. unfold bend in *. split.
    + destruct (Hx c c.1 Hc ltac:(unfold bend; lia)) as [(d & Hd & Hr)|Hr]; [|lia]. destruct (ho_free _ _ _ Ho d Hd) as (? & ? & _). lia.
    + destruct (Hx c (c.1 + 16 * c.2 - 1) Hc ltac:(unfold bend; lia)) as [(d & Hd & Hr)|Hr]; [|lia].
      destruct (ho_free _ _ _ Ho d Hd) as (_ & _ & ?). unfold bend in *. lia.
  - intros a c HaA Hc. specialize (H1 c Hc). destruct (ho_alloc _ _ _ Ho a HaA) as [(Ha1 & _ & _) _].
    destruct (Z.le_gt_cases (bend a) c.1) as [?|Hac]; [by left|]. destruct (Z.le_gt_cases (bend c) a.1) as [?|Hca]; [by right|]. exfalso.
    destruct (Hx c (Z.max a.1 c.1) Hc ltac:(unfold bend in *; lia)) as [(d & Hd & Hr)|Hr].
    + destruct (ho_free _ _ _ Ho d Hd) as (? & _ & _). pose proof (ho_disj _ _ _ Ho a d HaA Hd) as Had. unfold apart, bend in *. lia.
    + pose proof (Ha a HaA) as Hba. unfold apart, bend in *. lia.
Qed.

Lemma free_chain h h1 h2 b b' p L1 L2 L2' M' :
  chain h (L1 ++ p :: L2) base -> (forall c, c ∈ L1 -> gap c p /\ 0 <= c.2) -> p.1 < b.1 -> (forall c, c ∈ L2 -> b.1 < c.1) -> b'.1 = b.1 ->
  (exists l, L2 = l ++ L2') -> hdr h1 b.1 = (first L2' base, b'.2) -> (forall q, q <> b.1 -> hdr h1 q = hdr h q) ->
  joins p b' M' -> (forall z, first M' z = p.1) -> hdr h2 p.1 = (first (tail M' ++ L2') base, (hd p M').2) ->
  (forall q, q <> p.1 -> hdr h2 q = hdr h1 q) -> chain h2 (L1 ++ M' ++ L2') base.
Proof.
  intros Hc HL1 Hlt HL2 Ja [l Jl] Hh1 Ho1 HM M1 Hh2 Ho2. apply chain_app in Hc as [C1 C2]. cbn [chain first] in C1, C2. destruct C2 as [_ C2].
  rewrite Jl in C2. apply chain_app in C2 as [_ C2]. apply chain_app.
  assert (first (M' ++ L2') base = p.1) as ->. { destruct M' as [|m M']; [by destruct HM as [[_ ?]|[_ ?]]|exact (M1 0)]. }
  assert (chain h2 L2' base) as C3.
  { apply (chain_ext h); [|exact C2]. intros c Hc'. assert (b.1 < c.1) by (apply HL2; rewrite Jl; apply elem_of_app; by right). rewrite Ho2, Ho1 by lia. done. }
  split.
  - apply (chain_ext h); [|exact C1]. intros c Hc'. destruct (HL1 c Hc') as [Hg Hc0]. unfold gap, bend in Hg. rewrite Ho2, Ho1 by lia. done.
  - destruct HM as [[_ ->]|[_ ->]]; cbn [app chain first tail hd fst snd] in *; [by split|].
    split; [exact Hh2|]. split; [|exact C3]. rewrite Ja in *. rewrite Ho2 by lia. exact Hh1.
Qed.

(** The ring with the new block in it. *)
Lemma free_ring s F A b t p L1 L2 b' L2' M' h1 h2 :
  loose s F A b -> splits F t b.1 -> ring F !! t = Some p -> ring F = L1 ++ p :: L2 -> bend p <= b.1 -> (forall c, c ∈ L1 -> gap c p) ->
  (forall c, c ∈ L2 -> bend b <= c.1) -> (forall c, c ∈ p :: L2 -> c ∈ F \/ c = (base, 0)) ->
  joined (u_brk s) b L2 b' L2' -> hdr h1 b.1 = (first L2' base, b'.2) -> (forall q, q <> b.1 -> hdr h1 q = hdr (u_hdr s) q) ->
  joins p b' M' -> hdr h2 p.1 = (first (tail M' ++ L2') base, (hd p M').2) -> (forall q, q <> p.1 -> hdr h2 q = hdr h1 q) ->
  exists F', heap_ok (mkUheap p.1 h2 (u_brk s)) F' A /\ (forall x, within F' x <-> within F x \/ b.1 <= x < bend b) /\
    (exists c, c ∈ F' /\ b.2 <= c.2) /\ (length F' <= S (length F))%nat.
Proof.
  intros [Ho (Hb1 & Hb2 & Hb3) Hsz Hf Ha] [Ht Hsp] Hp E Hpb HL1 HL2 Hin [Ja Js (Jb1 & Jb2 & Jb3) [l Jl] Jg Jw] Hh1 Ho1 HM Hh2 Ho2.
  pose proof (Hsp t p Hp) as Hlt. rewrite decide_True in Hlt by lia. pose proof (ring_size _ _ _ _ _ Ho Hp) as Hp0.
  destruct (joins_facts _ _ _ HM ltac:(lia) Hp0 Jb1 ltac:(lia)) as (M1 & M2 & M3 & M4 & M5 & (c0 & Mc & Mp & Ms)).
  pose proof (ho_sorted _ _ _ Ho) as Hs. rewrite E in Hs. apply StronglySorted_app in Hs as (S1 & S2 & [S3 S4]%StronglySorted_inv).
  assert (StronglySorted gap L2') as S5 by (rewrite Jl in S3; by eapply StronglySorted_app_1_r).
  destruct (ring_front F L1 p L2 M' L2' E M1) as [F' E'].
  { intros ->. destruct HM as [[Hx _]|[_ ->]]; [unfold bend in Hx; cbn in Hx; lia|by eauto]. }
  assert (forall x, within (ring F') x <-> within (ring F) x \/ b.1 <= x < bend b) as Hw.
  { intros x. rewrite <- E', E, !within_app, M5. rewrite (within_cons p [b']), (within_cons p L2), (within_cons b' []).
    specialize (Jw x). rewrite !within_cons in Jw. assert (~ within [] x) by (intros (? & ?%elem_of_nil & _); done). tauto. }
  assert (forall x, within (ring F') x <-> within F' x) as Hr' by (intros x; unfold ring; rewrite within_cons; unfold bend; cbn; intuition lia).
  assert (forall x, within (ring F) x <-> within F x) as Hr by (intros x; unfold ring; rewrite within_cons; unfold bend; cbn; intuition lia).
  setoid_rewrite Hr' in Hw. setoid_rewrite Hr in Hw. exists F'.
  assert (StronglySorted gap (ring F')) as Hs'.
  { rewrite <- E'. apply StronglySorted_app_2; [|exact S2|apply StronglySorted_app_2; [|exact M2|exact S5]].
    - intros c d Hc [Hd|Hd]%elem_of_app; [apply M3; auto|]. apply S1; [exact Hc|]. rewrite Jl. right. apply elem_of_app. by right.
    - intros c d Hc Hd. apply M4; auto. }
  assert (forall c, c ∈ F' -> c <> (base, 0)) as Hnb.
  { intros c Hc ->. apply StronglySorted_inv in Hs' as [_ Hx]. rewrite Forall_forall in Hx. apply Hx in Hc. unfold gap, bend in Hc. cbn in Hc. lia. }
  assert (forall c, c ∈ F' -> 1 <= c.2) as H1.
  { intros c Hc. assert (c ∈ F \/ c = (base, 0) -> 1 <= c.2) as Hold.
    { intros [HcF| ->]; [by apply (ho_free _ _ _ Ho) in HcF as [? _]|by destruct (Hnb _ Hc)]. }
    assert (c ∈ L1 ++ M' ++ L2') as Hc' by (rewrite E'; by right). rewrite !elem_of_app in Hc'. destruct Hc' as [Hc'|[Hc'|Hc']].
    - apply Hold. assert (c ∈ ring F) as [->|?]%elem_of_cons by (rewrite E; apply elem_of_app; by left); tauto.
    - destruct HM as [[_ ->]|[_ ->]]; [apply list_elem_of_singleton in Hc' as ->; cbn; lia|].
      apply elem_of_cons in Hc' as [->|Hc'%list_elem_of_singleton]; [apply Hold, Hin; by left|subst c; exact Jb1].
    - apply Hold, Hin. right. rewrite Jl. apply elem_of_app. by right. }
  destruct (covered_ok s F A b F') as [Hbo Hdis]; [by split|exact H1|intros x Hx; by apply Hw|].
  assert (forall a, a ∈ A -> a.1 <> p.1 /\ a.1 <> b.1) as Hne.
  { intros a HaA. destruct (ho_alloc _ _ _ Ho a HaA) as [(Ha1 & Ha2 & _) _]. split.
    - destruct (Hin p ltac:(by left)) as [HpF| ->]; [|cbn; lia]. apply apart_ne; [exact Ha1|by apply (ho_free _ _ _ Ho) in HpF as [? _]|by apply (ho_disj _ _ _ Ho)].
    - intros Eq. symmetry in Eq. revert Eq. by apply apart_ne; [| |apply Ha]. }
  split; [split; cbn [u_hdr u_brk u_freep]|split; [exact Hw|split]].
  - rewrite <- E'. apply (free_chain (u_hdr s) h1 h2 b b' p L1 L2 L2' M'); try assumption; [rewrite <- E; apply Ho| | |by exists l].
    + intros c Hc. split; [by apply HL1|]. assert (c ∈ ring F) as [i Hi]%list_elem_of_lookup by (rewrite E; apply elem_of_app; by left).
      by apply (ring_size _ _ _ _ _ Ho Hi).
    + intros c Hc. specialize (HL2 c Hc). unfold bend in HL2. lia.
  - exact Hs'.
  - exact Hbo.
  - intros a HaA. destruct (Hne a HaA). rewrite Ho2, Ho1 by auto. by apply (ho_alloc _ _ _ Ho).
  - destruct M' as [|m M']; [by destruct HM as [[_ ?]|[_ ?]]|]. exists (length L1), m. split; [|exact (M1 0)].
    rewrite <- E'. by apply list_lookup_middle.
  - exact Hdis.
  - apply (ho_apart _ _ _ Ho).
  - apply (ho_brk _ _ _ Ho).
  - assert (c0 ∈ ring F') as [->|Hc0]%elem_of_cons by (rewrite <- E'; apply elem_of_app; right; apply elem_of_app; by left);
      [cbn in Ms; lia|]. exists c0. split; [exact Hc0|lia].
  - apply (f_equal length) in E, E'. rewrite Jl in E. rewrite !length_app in E'. cbn [ring length] in E, E'. rewrite !length_app in E. cbn [length] in E.
    rewrite length_app in E. destruct HM as [[_ ->]|[_ ->]]; cbn [length] in E'; lia.
Qed.

Lemma free_block s F A b (Q : unit -> uheap -> Prop) : loose s F A b ->
  (forall s' F', heap_ok s' F' A -> (forall x, within F' x <-> within F x \/ b.1 <= x < bend b) ->
     (exists c, c ∈ F' /\ b.2 <= c.2) -> (length F' <= S (length F))%nat -> u_brk s' = u_brk s -> Q tt s') ->
  wp (free (b.1 + 16)) Q s.
Proof.
  intros Hl HQ. pose proof Hl as [Ho Hb Hsz Hf Ha]. pose proof Hb as (Hb1 & Hb2 & Hb3).
  destruct (splits_exists F A s b Ho) as [t Ht]; [lia| |].
  { intros c Hc. apply not_eq_sym, apart_ne; [exact Hb1|by apply (ho_free _ _ _ Ho) in Hc as [? _]|by apply Hf]. }
  destruct (lookup_lt_is_Some_2 (ring F) t (proj1 Ht)) as [p Hp].
  destruct (ring_split _ _ _ _ _ _ Hl Ht Hp) as (L1 & L2 & E & Hpb & HL1 & HL2 & Hin).
  pose proof (ho_ring _ _ _ Ho) as Hc. rewrite E in Hc. apply chain_app in Hc as [_ [Hhp Hc2]].
  pose proof (ho_sorted _ _ _ Ho) as Hs. rewrite E in Hs. apply StronglySorted_app in Hs as (_ & _ & [Hs2 _]%StronglySorted_inv).
  pose proof (proj2 Ht t p Hp) as Hlt. rewrite decide_True in Hlt by lia. pose proof (ring_base F t p (ho_sorted _ _ _ Ho) Hp) as Hbp.
  pose proof base_pos as Hbase. destruct (ho_brk _ _ _ Ho) as [_ Hbrk].
  unfold free. replace (b.1 + 16 - 16) with b.1 by lia. do 3 wp_step. apply (free_search_spec s F A t p b.1 _ Ho Ht Hp); [lia|].
  wp_step. unfold hdr_ptr at 1. wp_step. rewrite Hhp. cbn [fst]. wp_step. unfold hdr_size at 1. wp_step. rewrite Hsz. wp_step.
  apply merge_next; [exact Hb|exact Hsz|exact Hc2|exact Hs2|exact Hbrk|exact HL2|].
  intros h1 b' L2' Hj Hh1 Ho1. pose proof Hj as [Ja Js (Jb1 & Jb2 & Jb3) _ _ _]. rewrite <- Ja in *.
  apply (merge_prev (mkUheap (u_freep s) h1 (u_brk s)) p b' L2'); cbn [u_hdr u_brk]; try assumption; [by apply (ring_size _ _ _ _ _ Ho Hp)|lia| |].
  { rewrite Ho1 by lia. by rewrite Hhp. }
  intros h2 M' HM Hh2 Ho2. rewrite Ja in *.
  destruct (free_ring s F A b t p L1 L2 b' L2' M' h1 h2) as (F' & Hok & Hw & Hbig & Hlen); try assumption.
  { intros c Hc. by apply HL2. }
  by apply (HQ _ F').
Qed.

(** ** morecore() *)

Lemma heap_ok_ext s s' F A : heap_ok s F A -> u_freep s' = u_freep s -> u_brk s <= u_brk s' <= 2 ^ 32 ->
  (forall b, b ∈ ring F ++ A -> hdr (u_hdr s') b.1 = hdr (u_hdr s) b.1) -> heap_ok s' F A.
Proof.
  intros [O1 O2 O3 O4 O5 O6 O7 O8] Ef Hb Hh. split; auto.
  - apply (chain_ext (u_hdr s)); [|exact O1]. intros b Hb'. apply Hh, elem_of_app. by left.
  - intros b Hb'. destruct (O3 b Hb') as (? & ? & ?). unfold block_ok. lia.
  - intros b Hb'. destruct (O4 b Hb') as [(? & ? & ?) Hs]. unfold block_ok. split; [lia|].
    rewrite Hh by (apply elem_of_app; by right). exact Hs.
  - by rewrite Ef.
  - lia.
Qed.

Lemma below_brk s F A b : heap_ok s F A -> b ∈ ring F ++ A -> b.1 < u_brk s.
Proof.
  intros Ho Hb. pose proof (ho_brk _ _ _ Ho). apply elem_of_app in Hb as [[->|Hb]%elem_of_cons|Hb]; [cbn; lia| |].
  - destruct (ho_free _ _ _ Ho b Hb) as (? & ? & ?). unfold bend in *. lia.
  - destruct (ho_alloc _ _ _ Ho b Hb) as [(? & ? & ?) _]. unfold bend in *. lia.
Qed.

Lemma morecore_spec s F A nu (Q : Z -> uheap -> Prop) : let k := Z.max nu 4096 in
  heap_ok s F A -> 16 * k < 2 ^ 31 ->
  (grow_ok (u_brk s) (16 * k) = false -> Q 0 s) ->
  (forall s' F', grow_ok (u_brk s) (16 * k) = true -> heap_ok s' F' A ->
     (forall x, within F' x <-> within F x \/ u_brk s <= x < u_brk s + 16 * k) ->
     (exists c, c ∈ F' /\ nu <= c.2) -> (length F' <= S (length F))%nat -> u_brk s' = u_brk s + 16 * k -> Q (u_freep s') s') ->
  wp (morecore nu) Q s.
Proof.
  intros k Ho Hk HQ0 HQ. unfold morecore. pose proof base_pos. pose proof (ho_brk _ _ _ Ho) as Hbrk.
  replace (if nu <? 4096 then 4096 else nu) with k by (unfold k; destruct (Z.ltb_spec nu 4096); lia).
  wp_step. rewrite i32_id by lia. rewrite (Z.mul_comm k 16). unfold sbrk at 1, wp at 1.
  rewrite (proj2 (Z.ltb_lt 0 (16 * k))) by (unfold k; lia). destruct (grow_ok (u_brk s) (16 * k)) eqn:Eg.
  - rewrite (proj2 (Z.eqb_neq _ (-1))) by lia. unfold set_size, set_hdr. do 2 wp_step. cbn [u_hdr u_freep u_brk].
    pose proof (grow_limit _ _ Eg) as Hlim. set (s1 := mkUheap _ _ _). wp_step. apply (free_block s1 F A (u_brk s, k)).
    + assert (forall b, b ∈ ring F ++ A -> b.1 < u_brk s) as Hlow by (intros b; by apply below_brk).
      assert (forall c, c ∈ F \/ c ∈ A -> apart (u_brk s, k) c) as Hap.
      { intros c [Hc|Hc]; right; unfold bend; cbn; [by destruct (ho_free _ _ _ Ho c Hc) as (_ & _ & ?)|by destruct (ho_alloc _ _ _ Ho c Hc) as [(_ & _ & ?) _]]. }
      split; [apply (heap_ok_ext s); [exact Ho|reflexivity|cbn; unfold k in *; lia|]| |cbn; by rewrite hdr_insert_eq|auto|auto].
      * intros b Hb. cbn. apply hdr_insert_ne. specialize (Hlow b Hb). lia.
      * unfold block_ok, bend. cbn. unfold k. lia.
    + intros s' F' Hok Hw (c & Hc & Hbig) Hl Hb. wp_steps. cbn in *. apply HQ with F'; auto. exists c. split; [exact Hc|unfold k in Hbig; lia].
  - change (-1 =? -1) with true. wp_steps. by apply HQ0.
Qed.

(** ** Taking a block out of the ring *)

Lemma apart_sym b c : apart b c -> apart c b.
Proof. unfold apart. tauto. Qed.

Lemma ring_apart F1 c F2 d : StronglySorted gap (ring (F1 ++ c :: F2)) -> d ∈ F1 ++ F2 -> gap d c \/ gap c d.
Proof.
  intros [Hs _]%StronglySorted_inv Hd. apply StronglySorted_app in Hs as (S1 & _ & [_ S2]%StronglySorted_inv). rewrite Forall_forall in S2.
  apply elem_of_app in Hd as [Hd|Hd]; [left; apply S1; [exact Hd|by left]|right; by apply S2].
Qed.

(** The ring around a block [c] and the node [q] before it. *)
Lemma ring_around s F1 c F2 A L q : heap_ok s (F1 ++ c :: F2) A -> ring F1 = L ++ [q] ->
  (forall F', ring (F1 ++ F') = L ++ q :: F') /\ chain (u_hdr s) L q.1 /\ hdr (u_hdr s) q.1 = (c.1, q.2) /\
  hdr (u_hdr s) c.1 = (first F2 base, c.2) /\ chain (u_hdr s) F2 base /\
  (forall b, b ∈ L -> b.1 < q.1) /\ (forall b, b ∈ c :: F2 -> gap q b) /\ q.1 < c.1 /\ (forall b, b ∈ F2 -> gap c b) /\
  (forall b d, b ∈ L ++ [q] -> d ∈ c :: F2 -> gap b d) /\ (forall b, b ∈ A -> b.1 <> q.1 /\ b.1 <> c.1).
Proof.
  intros Ho Eq. assert (forall F', ring (F1 ++ F') = L ++ q :: F') as E.
  { intros F'. change (ring (F1 ++ F')) with (ring F1 ++ F'). rewrite Eq, <- app_assoc. reflexivity. }
  pose proof Ho as [O1 O2 O3 O4 _ O6 _ _]. rewrite E in O1, O2. apply chain_app in O1 as (C1 & C2 & C3 & C4).
  assert (forall b, b ∈ ring (F1 ++ c :: F2) -> 0 <= b.2) as Hnn by (intros b [i Hi]%list_elem_of_lookup; by apply (ring_size _ _ _ _ _ Ho Hi)).
  assert (0 <= q.2) as Hq by (apply Hnn; rewrite E; apply elem_of_app; right; by left).
  pose proof O2 as O2'. change (q :: c :: F2) with ([q] ++ (c :: F2)) in O2'. rewrite app_assoc in O2'. apply StronglySorted_app in O2' as (S0 & _).
  apply StronglySorted_app in O2 as (S1 & _ & [[_ S5]%StronglySorted_inv S3]%StronglySorted_inv). rewrite Forall_forall in S3, S5.
  split_and!; try assumption.
  - intros b Hb. pose proof (S1 b q Hb ltac:(by left)) as Hg. pose proof (Hnn b ltac:(rewrite E; apply elem_of_app; by left)). unfold gap, bend in Hg. lia.
  - pose proof (S3 c ltac:(by left)) as Hg. unfold gap, bend in Hg. lia.
  - intros b Hb. destruct (O4 b Hb) as [(Hb1 & Hb2 & _) _]. assert (c ∈ F1 ++ c :: F2) as HcF by (apply elem_of_app; right; by left). split.
    + assert (q ∈ ring (F1 ++ c :: F2)) as [->|HqF]%elem_of_cons by (rewrite E; apply elem_of_app; right; by left); [cbn; lia|].
      apply apart_ne; [exact Hb1|by apply O3 in HqF as [? _]|by apply O6].
    + apply apart_ne; [exact Hb1|by apply O3 in HcF as [? _]|by apply O6].
Qed.

(** The whole block [c], which follows [q] in the ring. *)
Lemma take_whole s F1 c F2 A L q : heap_ok s (F1 ++ c :: F2) A -> ring F1 = L ++ [q] ->
  heap_ok (mkUheap q.1 (<[q.1 := (first F2 base, q.2)]> (u_hdr s)) (u_brk s)) (F1 ++ F2) (c :: A).
Proof.
  intros Ho Eq. destruct (ring_around _ _ _ _ _ _ _ Ho Eq) as (E & C1 & C2 & C3 & C4 & HL & HR & Hqc & HF2 & Hall & HA).
  pose proof Ho as [_ O2 O3 O4 _ O6 O7 O8].
  assert (c ∈ F1 ++ c :: F2) as HcF by (apply elem_of_app; right; by left).
  assert (forall b, b ∈ F1 ++ F2 -> b ∈ F1 ++ c :: F2) as Hsub by (intros b; rewrite !elem_of_app, elem_of_cons; tauto).
  assert (forall b, b ∈ F2 -> q.1 < b.1) as HF2' by (intros b Hb; specialize (HF2 b Hb); apply O3 in HcF as [? _]; unfold gap, bend in HF2; lia).
  split; cbn [u_hdr u_brk u_freep].
  - rewrite E. apply chain_app. cbn [chain first]. split; [|split; [apply hdr_insert_eq|]].
    + apply (chain_ext (u_hdr s)); [|exact C1]. intros b Hb. apply hdr_insert_ne. specialize (HL b Hb). lia.
    + apply (chain_ext (u_hdr s)); [|exact C4]. intros b Hb. apply hdr_insert_ne. specialize (HF2' b Hb). lia.
  - change (ring (F1 ++ F2)) with (ring F1 ++ F2). change (ring (F1 ++ c :: F2)) with (ring F1 ++ c :: F2) in O2.
    apply StronglySorted_app in O2 as (S1 & S2 & [S3 _]%StronglySorted_inv). apply StronglySorted_app_2; [|exact S2|exact S3].
    intros x y Hx Hy. apply S1; [exact Hx|by right].
  - auto.
  - intros b Hb. apply elem_of_cons in Hb as [->|Hb]; [split; [by apply O3|]; rewrite hdr_insert_ne by lia; by rewrite C3|].
    destruct (O4 b Hb) as [Hk Hs]. destruct (HA b Hb). split; [exact Hk|]. by rewrite hdr_insert_ne by auto.
  - exists (length L), q. split; [rewrite E; by apply list_lookup_middle|reflexivity].
  - intros b d Hb Hd. apply elem_of_cons in Hb as [->|Hb]; [|by apply O6; auto].
    destruct (ring_apart _ _ _ _ O2 Hd) as [Hg|Hg]; unfold gap in Hg; [right|left]; lia.
  - constructor; [exact O7|]. apply Forall_forall. intros b Hb. apply apart_sym. by apply O6.
  - exact O8.
Qed.

(** The last [n] units of the block [c]. *)
Lemma take_part s F1 c F2 A L q n x : heap_ok s (F1 ++ c :: F2) A -> ring F1 = L ++ [q] -> 1 <= n < c.2 ->
  let e := c.1 + 16 * (c.2 - n) in
  heap_ok (mkUheap q.1 (<[e := (x, n)]> (<[c.1 := (first F2 base, c.2 - n)]> (u_hdr s))) (u_brk s)) (F1 ++ (c.1, c.2 - n) :: F2) ((e, n) :: A).
Proof.
  intros Ho Eq Hn e. destruct (ring_around _ _ _ _ _ _ _ Ho Eq) as (E & C1 & C2 & C3 & C4 & HL & HR & Hqc & HF2 & Hall & HA).
  pose proof Ho as [_ O2 O3 O4 _ O6 O7 O8]. set (c' := (c.1, c.2 - n)).
  assert (c ∈ F1 ++ c :: F2) as HcF by (apply elem_of_app; right; by left). destruct (O3 c HcF) as (Hc1 & Hc2 & Hc3). unfold bend in Hc3.
  assert (forall b, b ∈ F1 ++ c' :: F2 -> b = c' \/ b ∈ F1 ++ F2) as Hin by (intros b; rewrite !elem_of_app, elem_of_cons; tauto).
  assert (forall b, b ∈ F1 ++ F2 -> b ∈ F1 ++ c :: F2) as Hsub by (intros b; rewrite !elem_of_app, elem_of_cons; tauto).
  assert (forall b, b ∈ L ++ [q] -> b.1 <= q.1) as HL' by (intros b [Hb|Hb%list_elem_of_singleton]%elem_of_app; [specialize (HL b Hb)|subst b]; lia).
  assert (forall b, b ∈ F2 -> e < b.1) as HF2' by (intros b Hb; specialize (HF2 b Hb); unfold gap, bend in HF2; lia).
  split; cbn [u_hdr u_brk u_freep].
  - change (ring (F1 ++ c' :: F2)) with (ring F1 ++ c' :: F2). rewrite Eq. apply chain_app. split; [|split].
    + apply (chain_ext (u_hdr s)).
      * intros b Hb. specialize (HL' b Hb). by rewrite !hdr_insert_ne by lia.
      * apply chain_app. split; [exact C1|]. split; [exact C2|done].
    + cbn [c' fst snd]. rewrite hdr_insert_ne by lia. apply hdr_insert_eq.
    + apply (chain_ext (u_hdr s)); [|exact C4]. intros b Hb. specialize (HF2' b Hb). by rewrite !hdr_insert_ne by lia.
  - change (ring (F1 ++ c' :: F2)) with (ring F1 ++ c' :: F2). change (ring (F1 ++ c :: F2)) with (ring F1 ++ c :: F2) in O2.
    apply StronglySorted_app in O2 as (S1 & S2 & [S3 S4]%StronglySorted_inv). apply StronglySorted_app_2; [|exact S2|constructor; [exact S3|]].
    + intros a b Ha [->|Hb]%elem_of_cons; [exact (S1 a c Ha ltac:(by left))|apply S1; [exact Ha|by right]].
    + rewrite Forall_forall in *. intros b Hb. specialize (S4 b Hb). unfold gap, bend in *. cbn. lia.
  - intros b Hb. destruct (Hin b Hb) as [->|Hb']; [unfold block_ok, bend; cbn; lia|auto].
  - intros b Hb. apply elem_of_cons in Hb as [->|Hb]; [split; [unfold block_ok, bend; cbn; lia|cbn; by rewrite hdr_insert_eq]|].
    destruct (O4 b Hb) as [Hk Hs]. destruct (HA b Hb) as [_ Hbc]. split; [exact Hk|]. rewrite !hdr_insert_ne; auto.
    pose proof (O6 b c Hb HcF) as Hap. destruct Hk as (? & _ & _). unfold apart, bend in Hap. lia.
  - exists (length L), q. split; [rewrite E; by apply list_lookup_middle|reflexivity].
  - intros b d Hb Hd. apply elem_of_cons in Hb as [->|Hb].
    + destruct (Hin d Hd) as [->|Hd']; [right; unfold bend; cbn; lia|].
      destruct (ring_apart _ _ _ _ O2 Hd') as [Hg|Hg]; unfold gap, bend in Hg; [right|left]; unfold bend; cbn; lia.
    + destruct (Hin d Hd) as [->|Hd']; [|by apply O6; auto]. pose proof (O6 b c Hb HcF) as Hap. unfold apart, bend in *. cbn. lia.
  - constructor; [exact O7|]. apply Forall_forall. intros b Hb. pose proof (O6 b c Hb HcF) as Hap. unfold apart, bend in *. cbn. lia.
  - exact O8.
Qed.

(** ** malloc() *)

(** A request served from the ring: [p] is the new block's payload, and no byte
    is lost. *)
Definition served (s : uheap) F A (n p : Z) (s' : uheap) : Prop :=
  exists F', heap_ok s' F' ((p - 16, n) :: A) /\ u_brk s' = u_brk s /\
    forall x, within F x <-> within F' x \/ p - 16 <= x < p - 16 + 16 * n.

Lemma serve s F A n i c q (Q : Z * Z + Z -> uheap -> Prop) :
  heap_ok s F A -> ring F !! S i = Some c -> ring F !! i = Some q -> 1 <= n <= c.2 ->
  (forall p s', served s F A n p s' -> Q (inr p) s') ->
  wp (p <- (if c.2 =? n then
              nx <- hdr_ptr c.1 ;;
              set_ptr q.1 nx ;;;
              ret c.1
            else
              set_size c.1 (c.2 - n) ;;;
              let p := c.1 + 16 * (c.2 - n) in
              set_size p n ;;;
              ret p) ;;
      set_freep q.1 ;;;
      ret (inr (p + 16))) Q s.
Proof.
  intros Ho Hc Hq Hn HQ. cbn in Hc. assert (F = take i F ++ c :: drop (S i) F) as EF by (symmetry; by apply take_drop_middle).
  assert (ring (take i F) = take i (ring F) ++ [q]) as Er by (rewrite <- (take_S_r _ _ _ Hq); reflexivity).
  set (F1 := take i F) in *. set (F2 := drop (S i) F) in *. rewrite EF in Ho. set (L := take i (ring F)) in *. clearbody L F1 F2. subst F.
  destruct (ring_around _ _ _ _ _ _ _ Ho Er) as (_ & _ & C2 & C3 & _ & _ & _ & Hqc & _).
  assert (forall x, within (F1 ++ c :: F2) x <-> within (F1 ++ F2) x \/ c.1 <= x < bend c) as Hw by (intros x; rewrite !within_app, within_cons; tauto).
  destruct (Z.eqb_spec c.2 n) as [E|E].
  - unfold hdr_ptr, set_ptr, set_hdr, set_freep. wp_steps. cbn [u_hdr u_freep u_brk]. rewrite C3, C2. cbn [fst snd].
    apply HQ. exists (F1 ++ F2). replace (c.1 + 16 - 16) with c.1 by lia. split_and!; [|reflexivity|].
    + rewrite <- E, <- surjective_pairing. by apply (take_whole s F1 c F2 A L q).
    + intros x. rewrite Hw. unfold bend. rewrite E. reflexivity.
  - unfold set_size, set_hdr, set_freep. wp_steps. cbv zeta. wp_steps. cbn [u_hdr u_freep u_brk]. rewrite (hdr_insert_ne _ c.1) by lia. rewrite C3. cbn [fst snd].
    apply HQ. exists (F1 ++ (c.1, c.2 - n) :: F2). replace (c.1 + 16 * (c.2 - n) + 16 - 16) with (c.1 + 16 * (c.2 - n)) by lia. split_and!; [|reflexivity|].
    + apply (take_part s F1 c F2 A L q n); [exact Ho|exact Er|lia].
    + intros x. rewrite Hw, !within_app, within_cons. unfold bend. cbn [fst snd]. split; [intros [[?|?]|?]|intros [[?|[?|?]]|?]]; try tauto; lia.
Qed.

(** Steps from node [i] to node [j] of a ring of [n] nodes. *)
Definition dist (n i j : nat) : nat := if decide (i <= j)%nat then (j - i)%nat else (n - i + j)%nat.
Definition nxt (n i : nat) : nat := if decide (S i = n) then 0%nat else S i.

Lemma dist_nxt n i j : (i < n)%nat -> (j < n)%nat -> i <> j -> dist n (nxt n i) j = (dist n i j - 1)%nat /\ (0 < dist n i j)%nat.
Proof. unfold dist, nxt. intros. repeat case_decide; lia. Qed.

Lemma dist_self n i : dist n i i = 0%nat.
Proof. unfold dist. rewrite decide_True by lia. lia. Qed.

Lemma dist_bound n i j : (i < n)%nat -> (j < n)%nat -> (dist n i j < n)%nat.
Proof. unfold dist. intros. case_decide; lia. Qed.

(** The node after node [i]. *)
Lemma ring_next s F A i c : heap_ok s F A -> ring F !! i = Some c ->
  exists d, ring F !! nxt (length (ring F)) i = Some d /\ fst (hdr (u_hdr s) c.1) = d.1.
Proof.
  intros Ho Hi. pose proof (chain_lookup _ _ _ _ _ (ho_ring _ _ _ Ho) Hi) as Hh. pose proof (lookup_lt_Some _ _ _ Hi) as Hl.
  rewrite Hh. unfold nxt. case_decide as Hd.
  - exists (base, 0). split; [reflexivity|]. rewrite drop_ge by lia. reflexivity.
  - destruct (lookup_lt_is_Some_2 (ring F) (S i)) as [d Hd']; [lia|]. exists d. split; [exact Hd'|]. by rewrite (first_drop _ _ _ _ Hd').
Qed.

Lemma ring_inj s F A i j b c : heap_ok s F A -> ring F !! i = Some b -> ring F !! j = Some c -> b.1 = c.1 -> i = j.
Proof.
  intros Ho Hi Hj E. pose proof (ring_size _ _ _ _ _ Ho Hi). pose proof (ring_size _ _ _ _ _ Ho Hj). pose proof (ho_sorted _ _ _ Ho) as Hs.
  destruct (lt_eq_lt_dec i j) as [[Hlt|]|Hlt]; [|done|];
    [pose proof (sorted_lookup _ _ _ _ _ Hs Hi Hj Hlt) as Hg|pose proof (sorted_lookup _ _ _ _ _ Hs Hj Hi Hlt) as Hg]; unfold gap, bend in Hg; lia.
Qed.

(** malloc() is at node [i] of the ring, coming from the node before it; [f] is
    the node it started from. *)
Record at_node (s : uheap) F A (i f : nat) (prevp p : Z) : Prop := {
  an_ok : heap_ok s F A;
  an_node : exists c, ring F !! i = Some c /\ c.1 = p;
  an_prev : exists i0 q, nxt (length (ring F)) i0 = i /\ ring F !! i0 = Some q /\ q.1 = prevp;
  an_free : exists b, ring F !! f = Some b /\ b.1 = u_freep s;
}.

(** After the list pointer, every node is ahead. *)
Lemma at_start s F A f b : heap_ok s F A -> ring F !! f = Some b -> b.1 = u_freep s ->
  let n := length (ring F) in
  at_node s F A (nxt n f) f (u_freep s) (fst (hdr (u_hdr s) (u_freep s))) /\
  forall j c, ring F !! j = Some c -> (dist n (nxt n f) j <= dist n (nxt n f) f)%nat.
Proof.
  intros Ho Hf Eb n. destruct (ring_next _ _ _ _ _ Ho Hf) as (d & Hd & Ed). rewrite <- Eb. split; [split; eauto|].
  intros j c Hj. pose proof (lookup_lt_Some _ _ _ Hj) as Hlj. pose proof (lookup_lt_Some _ _ _ Hf) as Hlf. fold n in Hlj, Hlf. unfold dist, nxt. repeat case_decide; lia.
Qed.

Lemma at_next s F A i f prevp p : at_node s F A i f prevp p ->
  let n := length (ring F) in at_node s F A (nxt n i) f p (fst (hdr (u_hdr s) p)).
Proof.
  intros [Ho (c & Hc & <-) _ Hf] n. destruct (ring_next _ _ _ _ _ Ho Hc) as (d & Hd & Ed). split; eauto.
Qed.

(** The result of malloc(): a block, from the ring or after the memory has
    grown, or 0 when no block is large enough and the kernel refuses. *)
Definition malloc_result (s : uheap) F A (n p : Z) (s' : uheap) : Prop :=
  let k := 16 * Z.max n 4096 in
  p = 0 /\ s' = s /\ (forall b, b ∈ F -> b.2 < n) /\ grow_ok (u_brk s) k = false \/
  p <> 0 /\ (exists F', heap_ok s' F' ((p - 16, n) :: A) /\
    forall x, within F' x \/ p - 16 <= x < p - 16 + 16 * n <-> within F x \/ u_brk s <= x < u_brk s') /\
  (u_brk s' = u_brk s \/ u_brk s' = u_brk s + k).

Lemma served_pos s F A n p s' : served s F A n p s' -> p <> 0.
Proof.
  intros (F' & Ho & _) ->. destruct (ho_alloc _ _ _ Ho (0 - 16, n) ltac:(by left)) as [(_ & ? & _) _]. cbn in *. pose proof base_pos. lia.
Qed.

Section search.
Variables (n : Z) (s : uheap) (F A : list (Z * Z)).
Hypothesis n_pos : 1 <= n.
Hypothesis n_small : 16 * Z.max n 4096 < 2 ^ 31.

(** The first time around the ring, and the second after the memory has grown. *)
Definition searching (d : nat) (st : Z * Z) (s1 : uheap) : Prop :=
  let '(prevp, p) := st in exists F1 i f, at_node s1 F1 A i f prevp p /\
    let m := length (ring F1) in
    (s1 = s /\ F1 = F /\ (forall j b, ring F !! j = Some b -> b.2 < n \/ (dist m i j <= dist m i f)%nat) /\ d = (dist m i f + (m + 2))%nat \/
     u_brk s1 = u_brk s + 16 * Z.max n 4096 /\ (forall x, within F1 x <-> within F x \/ u_brk s <= x < u_brk s1) /\
     exists j b, ring F1 !! j = Some b /\ n <= b.2 /\ (dist m i j <= dist m i f)%nat /\ d = dist m i j).

Lemma search_served s1 p s' F1 :
  (s1 = s /\ F1 = F \/ u_brk s1 = u_brk s + 16 * Z.max n 4096 /\ (forall x, within F1 x <-> within F x \/ u_brk s <= x < u_brk s1)) ->
  served s1 F1 A n p s' -> malloc_result s F A n p s'.
Proof.
  intros Hcase Hs. right. split; [by eapply served_pos|]. destruct Hs as (F' & Ho & Hb & Hw).
  destruct Hcase as [[-> ->]|[Hg Hg']].
  - split; [|by left]. exists F'. split; [exact Ho|]. intros x. rewrite Hb, <- Hw. split; [tauto|]. intros [?|?]; [done|lia].
  - split; [|right; congruence]. exists F'. split; [exact Ho|]. intros x. by rewrite Hb, <- Hw, Hg'.
Qed.

(** One step of the search. *)
Definition malloc_body (st : Z * Z) : M uheap (Z * Z + Z) :=
  let '(prevp, p) := st in
  psz <- hdr_size p ;;
  if n <=? psz then
    p <- (if psz =? n then
            nx <- hdr_ptr p ;;
            set_ptr prevp nx ;;;
            ret p
          else
            set_size p (psz - n) ;;;
            let p := p + 16 * (psz - n) in
            set_size p n ;;;
            ret p) ;;
    set_freep prevp ;;;
    ret (inr (p + 16))
  else
  fp <- gets u_freep ;;
  if p =? fp then
    p <- morecore n ;;
    if p =? 0 then ret (inr 0) else
    nx <- hdr_ptr p ;;
    ret (inl (p, nx))
  else
  nx <- hdr_ptr p ;;
  ret (inl (p, nx)).

(** No block is large enough: the memory grows, or malloc() answers 0. *)
Lemma search_grow d : heap_ok s F A -> (forall b, b ∈ F -> b.2 < n) -> (length (ring F) + 2 <= d)%nat ->
  wp (p <- morecore n ;;
      if p =? 0 then ret (inr 0) else
      nx <- hdr_ptr p ;;
      ret (inl (p, nx))) (fun r s2 => match r with
    | inl st' => exists d', (d' < d)%nat /\ searching d' st' s2
    | inr p => malloc_result s F A n p s2
    end) s.
Proof.
  intros Ho Hsm Hd. wp_step. apply (morecore_spec s F A n); [exact Ho|exact n_small| |].
  - intros Hg. change (0 =? 0) with true. wp_steps. by left.
  - intros s2 F2 Hg Ho2 Hw (e & He & Hbig) Hlen Hb. destruct (ho_freep _ _ _ Ho2) as (f & b & Hf & Eb).
    pose proof (ring_base F2 f b (ho_sorted _ _ _ Ho2) Hf) as Hbase. pose proof base_pos.
    rewrite (proj2 (Z.eqb_neq (u_freep s2) 0)) by lia. unfold hdr_ptr. wp_steps.
    destruct (at_start _ _ _ _ _ Ho2 Hf Eb) as [Hat Hall]. set (m := length (ring F2)) in *.
    apply list_elem_of_lookup in He as [j Hj]. change (ring F2 !! S j = Some e) in Hj. pose proof (lookup_lt_Some _ _ _ Hj) as Hlj.
    pose proof (lookup_lt_Some _ _ _ Hf) as Hlf. fold m in Hlj, Hlf. exists (dist m (nxt m f) (S j)). split.
    + assert (nxt m f < m)%nat by (unfold nxt; case_decide; lia). pose proof (dist_bound m (nxt m f) (S j) ltac:(done) Hlj).
      assert (m = S (length F2)) by reflexivity. cbn [ring length] in Hd. lia.
    + exists F2, (nxt m f), f. split; [exact Hat|]. fold m. right. rewrite Hb. split; [reflexivity|]. split; [exact Hw|].
      exists (S j), e. split; [exact Hj|]. split; [exact Hbig|]. split; [by apply (Hall _ e)|reflexivity].
Qed.

(** The block at hand is too small and not the last of the round. *)
Lemma search_advance d s1 F1 i f prevp p c : at_node s1 F1 A i f prevp p -> ring F1 !! i = Some c -> c.2 < n -> i <> f ->
  let m := length (ring F1) in
  (s1 = s /\ F1 = F /\ (forall j b, ring F !! j = Some b -> b.2 < n \/ (dist m i j <= dist m i f)%nat) /\ d = (dist m i f + (m + 2))%nat \/
   u_brk s1 = u_brk s + 16 * Z.max n 4096 /\ (forall x, within F1 x <-> within F x \/ u_brk s <= x < u_brk s1) /\
   exists j b, ring F1 !! j = Some b /\ n <= b.2 /\ (dist m i j <= dist m i f)%nat /\ d = dist m i j) ->
  exists d', (d' < d)%nat /\ searching d' (p, fst (hdr (u_hdr s1) p)) s1.
Proof.
  intros Hat Hc Hfit Hne m Hph. pose proof (an_free _ _ _ _ _ _ _ Hat) as (b & Hb & _).
  pose proof (lookup_lt_Some _ _ _ Hc) as Hlc. pose proof (lookup_lt_Some _ _ _ Hb) as Hlb. fold m in Hlc, Hlb. destruct (dist_nxt m i f Hlc Hlb Hne) as [Dn Dp].
  assert (forall j e, ring F1 !! j = Some e -> e.2 < n \/ (dist m i j <= dist m i f)%nat ->
    e.2 < n \/ (dist m (nxt m i) j <= dist m (nxt m i) f)%nat /\ (dist m (nxt m i) j < dist m i j)%nat) as Hkeep.
  { intros j e Hj [?|Hd]; [by left|]. destruct (decide (i = j)) as [->|Hij]; [left; rewrite Hc in Hj; injection Hj as <-; exact Hfit|right].
    pose proof (lookup_lt_Some _ _ _ Hj) as Hlj. fold m in Hlj. destruct (dist_nxt m i j Hlc Hlj Hij). lia. }
  pose proof (at_next _ _ _ _ _ _ _ Hat) as Hat'. fold m in Hat'. destruct Hph as [(-> & -> & Hsm & ->)|(Hg & Hg' & j & e & Hj & Hbig & Hd & ->)].
  - exists (dist m (nxt m i) f + (m + 2))%nat. split; [lia|]. exists F, (nxt m i), f. split; [exact Hat'|]. fold m. left. split_and!; [done|done| |done].
    intros j e Hj. destruct (Hkeep j e Hj (Hsm j e Hj)) as [?|[? _]]; auto.
  - destruct (Hkeep j e Hj ltac:(right; exact Hd)) as [?|[Hd' Hlt]]; [lia|]. exists (dist m (nxt m i) j). split; [lia|].
    exists F1, (nxt m i), f. split; [exact Hat'|]. fold m. right. split; [exact Hg|]. split; [exact Hg'|]. by exists j, e.
Qed.

Lemma search_step d st s1 : searching d st s1 ->
  wp (malloc_body st) (fun r s2 => match r with
    | inl st' => exists d', (d' < d)%nat /\ searching d' st' s2
    | inr p => malloc_result s F A n p s2
    end) s1.
Proof.
  destruct st as [prevp p]. intros (F1 & i & f & Hat & Hph). set (m := length (ring F1)) in *. pose proof Hat as [Ho (c & Hc & <-) (i0 & q & Hi0 & Hq & <-) (b & Hb & Eb)].
  unfold malloc_body. wp_step. unfold hdr_size at 1. wp_step. rewrite (chain_lookup _ _ _ _ _ (ho_ring _ _ _ Ho) Hc). cbn [snd].
  pose proof (lookup_lt_Some _ _ _ Hc) as Hlc. pose proof (lookup_lt_Some _ _ _ Hb) as Hlb. pose proof (lookup_lt_Some _ _ _ Hq) as Hlq. fold m in Hlc, Hlb, Hlq.
  destruct (Z.leb_spec n c.2) as [Hfit|Hfit].
  - assert (i = S i0) as ->. { unfold nxt in Hi0. case_decide; [|done]. subst i. injection Hc as <-. cbn in Hfit. lia. }
    apply (serve s1 F1 A n i0 c q); [exact Ho|exact Hc|exact Hq|lia|]. intros p s' Hs. apply (search_served s1 p s' F1); [|exact Hs].
    destruct Hph as [(-> & -> & _)|(? & ? & _)]; auto.
  - do 2 wp_step. destruct (Z.eqb_spec c.1 (u_freep s1)) as [E|E].
    + assert (i = f) as -> by (apply (ring_inj _ _ _ _ _ _ _ Ho Hc Hb); congruence). rewrite Hc in Hb. injection Hb as <-.
      destruct Hph as [(-> & -> & Hsm & ->)|(_ & _ & j & b & Hj & Hbig & Hd & _)].
      * apply search_grow; [exact Ho| |lia]. intros b Hb. apply list_elem_of_lookup in Hb as [j Hj]. change (ring F !! S j = Some b) in Hj.
        destruct (Hsm _ _ Hj) as [?|Hd]; [done|]. rewrite dist_self in Hd. pose proof (lookup_lt_Some _ _ _ Hj) as Hlj. fold m in Hlj.
        destruct (decide (f = S j)) as [->|Hne]; [rewrite Hc in Hj; injection Hj as <-; lia|]. destruct (dist_nxt m f (S j) Hlc Hlj Hne). lia.
      * rewrite dist_self in Hd. pose proof (lookup_lt_Some _ _ _ Hj) as Hlj. fold m in Hlj. destruct (decide (f = j)) as [->|Hne]; [rewrite Hc in Hj; injection Hj as ->; lia|].
        destruct (dist_nxt m f j Hlc Hlj Hne). lia.
    + wp_step. unfold hdr_ptr. wp_steps. apply (search_advance d s1 F1 i f q.1 c.1 c Hat Hc Hfit); [|exact Hph].
      intros ->. rewrite Hc in Hb. injection Hb as <-. congruence.
Qed.
End search.

Lemma malloc_spec s F A nbytes :
  let n := units nbytes in heap_ok s F A -> 1 <= n -> 16 * Z.max n 4096 < 2 ^ 31 ->
  wp (malloc nbytes) (malloc_result s F A n) s.
Proof.
  intros n Ho Hn Hk. destruct (ho_freep _ _ _ Ho) as (f & b & Hf & Eb). pose proof (ring_base F f b (ho_sorted _ _ _ Ho) Hf) as Hbase. pose proof base_pos.
  unfold malloc. fold n. do 3 wp_step. rewrite (proj2 (Z.eqb_neq _ 0)) by lia. do 3 wp_step. unfold hdr_ptr at 1. do 2 wp_step.
  destruct (at_start _ _ _ _ _ Ho Hf Eb) as [Hat Hall]. set (m := length (ring F)) in *. pose proof (ring_length _ _ _ Ho) as Hlen. fold m in Hlen.
  pose proof (lookup_lt_Some _ _ _ Hf) as Hlf. fold m in Hlf.
  apply (wp_loop (searching n s F A) (malloc_body n)) with (n := (dist m (nxt m f) f + (m + 2))%nat).
  - intros d st s1. apply search_step; assumption.
  - exists F, (nxt m f), f. split; [exact Hat|]. left. split_and!; [done|done| |done]. intros j e Hj. right. by apply (Hall _ e).
  - assert (nxt m f < m)%nat by (unfold nxt; case_decide; lia). pose proof (dist_bound m (nxt m f) f ltac:(done) Hlf). lia.
Qed.

(** ** The theorems *)

(** The state after the first call has made the ring. *)
Definition started (s : uheap) : uheap := if u_freep s =? 0 then mkUheap base (<[base := (base, 0)]> (u_hdr s)) (u_brk s) else s.

Lemma started_ok s : u_freep s = 0 -> base + 16 <= u_brk s <= 2 ^ 32 -> heap_ok (started s) [] [].
Proof.
  intros E Hb. unfold started. rewrite E. cbn. split; cbn.
  - by rewrite hdr_insert_eq.
  - repeat constructor.
  - by intros b Hin%elem_of_nil.
  - by intros b Hin%elem_of_nil.
  - by exists 0%nat, (base, 0).
  - by intros b c Hin%elem_of_nil.
  - constructor.
  - exact Hb.
Qed.

Lemma malloc_started s nbytes : 0 < u_freep (started s) -> malloc nbytes s = malloc nbytes (started s).
Proof.
  unfold started. destruct (Z.eqb_spec (u_freep s) 0) as [E|E]; [|done]. cbn [u_freep]. intros Hb.
  unfold malloc. cbv zeta. set (s0 := mkUheap base _ _). rewrite (bind_ok (gets u_freep) _ 0 s s) by (unfold gets; by rewrite E).
  rewrite (bind_ok (gets u_freep) _ base s0 s0 eq_refl). change (0 =? 0) with true. rewrite (proj2 (Z.eqb_neq base 0)) by lia. cbv iota.
  assert ((set_freep base;;; set_ptr base base;;; set_size base 0;;; ret base) s = Ok base s0) as Es.
  { unfold s0. cbn. rewrite hdr_insert_eq. cbn. by rewrite insert_insert_eq. }
  rewrite (bind_ok _ _ _ _ _ Es). by rewrite (bind_ok (ret base) _ base s0 s0 eq_refl).
Qed.

Lemma units_eq nbytes : 0 <= nbytes < 2 ^ 32 -> units nbytes = (nbytes + 15) / 16 + 1.
Proof. intros Hn. unfold units. replace (nbytes + 16 - 1) with (nbytes + 15) by lia. apply u32_id. dlia. Qed.

(** C29: malloc(nbytes) keeps the heap sound.  It answers a pointer to at least
    nbytes bytes that overlap no block in use; every byte of the free blocks and
    of the memory it got from sbrk() is in the new block or still free.  It
    answers 0 only when no free block is large enough and sbrk() refuses. *)
Theorem malloc_correct s F A nbytes :
  heap_ok (started s) F A -> 0 <= nbytes <= 2 ^ 31 - 64 ->
  wp (malloc nbytes) (fun p s' =>
    p = 0 /\ heap_ok s' F A /\ (forall b, b ∈ F -> bend b - b.1 - 16 < nbytes) /\ grow_ok (u_brk s) (16 * Z.max (units nbytes) 4096) = false \/
    exists F', heap_ok s' F' ((p - 16, units nbytes) :: A) /\ nbytes <= 16 * (units nbytes - 1) /\
      (forall b, b ∈ A -> p + nbytes <= b.1 \/ bend b <= p - 16) /\
      forall x, within F' x \/ p - 16 <= x < p - 16 + 16 * units nbytes <-> within F x \/ u_brk s <= x < u_brk s') s.
Proof.
  intros Ho Hn. pose proof (units_eq nbytes ltac:(lia)) as Eu. assert (1 <= units nbytes /\ 16 * Z.max (units nbytes) 4096 < 2 ^ 31) as [Hu Hk] by dlia.
  destruct (ho_freep _ _ _ Ho) as (f & b & Hf & Eb). pose proof (ring_base F f b (ho_sorted _ _ _ Ho) Hf) as Hbase. pose proof base_pos as Hbp.
  match goal with |- wp _ ?P _ => set (Post := P) end.
  assert (wp (malloc nbytes) Post (started s)) as Hwp; [|revert Hwp; unfold wp; by rewrite <- malloc_started by lia].
  assert (u_brk (started s) = u_brk s) as Ek by (unfold started; by case_match).
  eapply wp_mono; [by apply malloc_spec|]. subst Post. cbn beta. intros p s' [(-> & -> & Hsm & Hg)|(Hp & (F' & Ho' & Hw) & _)]; rewrite ?Ek in *.
  - left. split_and!; [done|exact Ho| |exact Hg]. intros c Hc. specialize (Hsm c Hc). unfold bend. dlia.
  - right. exists F'. split_and!; [exact Ho'|dlia| |exact Hw]. intros c Hc. pose proof (ho_apart _ _ _ Ho') as [_ Hap]%StronglySorted_inv.
    rewrite Forall_forall in Hap. specialize (Hap c Hc). unfold apart, bend in Hap. cbn in Hap. unfold bend. dlia.
Qed.

(** C30: free() of a block in use keeps the heap sound: the bytes of the block are
    free again and joined with free neighbours, and nothing else changes. *)
Theorem free_correct s F A1 b A2 :
  heap_ok s F (A1 ++ b :: A2) ->
  wp (free (b.1 + 16)) (fun _ s' => exists F', heap_ok s' F' (A1 ++ A2) /\
    (forall x, within F' x <-> within F x \/ b.1 <= x < bend b) /\ u_brk s' = u_brk s) s.
Proof.
  intros Ho. assert (loose s F (A1 ++ A2) b) as Hl; [|apply (free_block _ _ _ _ _ Hl); by eauto].
  pose proof Ho as [O1 O2 O3 O4 O5 O6 O7 O8]. assert (b ∈ A1 ++ b :: A2) as Hb by (apply elem_of_app; right; by left).
  assert (forall c, c ∈ A1 ++ A2 -> c ∈ A1 ++ b :: A2) as Hsub by (intros c; rewrite !elem_of_app, elem_of_cons; tauto).
  apply StronglySorted_app in O7 as (S1 & S2 & [S3 S4]%StronglySorted_inv). rewrite Forall_forall in S4. split.
  - split; auto. apply StronglySorted_app_2; [|exact S2|exact S3]. intros x y Hx Hy. apply S1; [exact Hx|by right].
  - by apply O4.
  - by apply O4.
  - auto.
  - intros c [Hc|Hc]%elem_of_app; [apply apart_sym, S1; [exact Hc|by left]|by apply S4].
Qed.

(** What morecore() does with 2^28 + 1 units: their size in bytes is 16 as an int. *)
Lemma overflow_morecore h brk (Q : Z -> uheap -> Prop) :
  hdr h base = (base, 0) -> base + 16 <= brk -> grow_ok brk 16 = true ->
  (forall s1, u_freep s1 = base -> hdr (u_hdr s1) base = (brk, 0) -> hdr (u_hdr s1) brk = (base, 268435457) -> u_brk s1 = brk + 16 -> Q base s1) ->
  wp (morecore 268435457) Q (mkUheap base h brk).
Proof.
  intros Eh Hb Hg HQ. pose proof base_pos as Hp. unfold morecore. change (if 268435457 <? 4096 then 4096 else 268435457) with 268435457.
  change (i32 (268435457 * 16)) with 16. wp_step. unfold sbrk, wp at 1. change (0 <? 16) with true. cbn [u_brk u_freep u_hdr]. rewrite Hg.
  rewrite (proj2 (Z.eqb_neq brk (-1))) by lia. unfold set_size at 1, set_hdr. do 2 wp_step. cbn [u_brk u_freep u_hdr]. wp_step.
  unfold free. replace (brk + 16 - 16) with brk by lia. do 3 wp_step. cbn [u_freep]. unfold free_search. do 2 wp_step. apply wp_loop_exit.
  unfold hdr_ptr at 1. do 2 wp_step. cbn [u_hdr]. rewrite hdr_insert_ne, Eh by lia. cbn [fst].
  rewrite (proj2 (Z.ltb_ge brk base)), (proj2 (Z.ltb_lt base brk)), Z.leb_refl by lia. cbn [andb orb]. wp_steps.
  unfold hdr_ptr at 1. wp_step. cbn [u_hdr]. rewrite hdr_insert_ne, Eh by lia. cbn [fst]. wp_step. unfold hdr_size at 1. wp_step.
  cbn [u_hdr]. rewrite hdr_insert_eq. cbn [snd]. rewrite (proj2 (Z.eqb_neq _ base)) by lia. unfold set_ptr, set_hdr, set_freep, hdr_size. wp_steps. cbn [u_hdr u_freep u_brk].
  rewrite hdr_insert_ne, hdr_insert_ne, Eh by lia. cbn [snd]. rewrite (proj2 (Z.eqb_neq _ brk)) by lia. wp_steps. cbn [u_hdr u_freep u_brk].
  apply HQ; cbn [u_hdr u_freep u_brk]; [done| | |done].
  - rewrite hdr_insert_eq. rewrite !hdr_insert_ne by lia. by rewrite Eh.
  - rewrite (hdr_insert_ne _ base) by lia. rewrite !hdr_insert_eq. reflexivity.
Qed.

End heap.

(** ** A process with [base] at 4096 and memory up to 16384 *)

#[local] Instance break0 : Break := {| base := 4096; grow_ok brk n := brk + n <=? 2 ^ 27 |}.

#[local] Instance break0_ok : BreakOk.
Proof. split; [reflexivity|]. intros brk n Hg. apply Z.leb_le in Hg. lia. Qed.

Definition heap0 : uheap := mkUheap 0 ∅ 16384.

Lemma malloc_correct_witness :
  wp (malloc 100) (fun p s' => exists F', heap_ok s' F' [(p - 16, 8)]) heap0.
Proof.
  eapply wp_mono; [apply (malloc_correct heap0 [] [] 100)|].
  - apply started_ok; [reflexivity|cbn; lia].
  - lia.
  - cbn beta. intros p s' [(_ & _ & _ & Hg)|(F' & Ho & _)]; [vm_compute in Hg; discriminate|]. by exists F'.
Defined.

Lemma heap0_malloc : exists p s F, malloc 100 heap0 = Ok p s /\ heap_ok s F [(p - 16, 8)].
Proof.
  assert (heap_ok (started heap0) [] []) as Ho by (apply started_ok; [reflexivity|cbn; lia]).
  pose proof (malloc_spec (started heap0) [] [] 100 Ho ltac:(vm_compute; discriminate) ltac:(vm_compute; reflexivity)) as Hm.
  apply wp_ok in Hm as (p & s & E & [(_ & _ & _ & Hg)|(_ & (F & Hok & _) & _)]); [vm_compute in Hg; discriminate|].
  exists p, s, F. split; [rewrite malloc_started by reflexivity; exact E|exact Hok].
Qed.

Lemma free_correct_witness :
  wp (p <- malloc 100 ;; free p ;;; ret p) (fun p s' => exists F', heap_ok s' F' [] /\ within F' p) heap0.
Proof.
  destruct heap0_malloc as (p & s & F & E & Ho). apply wp_bind. unfold wp at 1. rewrite E. wp_step.
  pose proof (free_correct s F [] (p - 16, 8) [] Ho) as Hf. replace ((p - 16, 8).1 + 16) with p in Hf by (cbn; lia).
  eapply wp_mono; [exact Hf|]. cbn beta. intros _ s' (F' & Ho' & Hw & _). wp_steps. exists F'. split; [exact Ho'|].
  apply Hw. right. unfold bend. cbn. lia.
Defined.

