(* ===== verification/Sh.v ===== *)
(** * user/sh.c: the shell.

    Parsing: the command line is a list of bytes without its NUL; a [char*] into
    it is an offset, the state of the parsing functions.  A [struct cmd] is a
    value of [cmd]; the counted strings are pairs of offsets.  Running: the
    state is the descriptor table of the process and the programs started so
    far, each with the descriptors it gets. *)

From S2P Require Import Prelude Params Mem Ulib Exec.

Definition MAXARGS : nat := 10.


Inductive cmd : Type :=
| EXEC (argv : list (nat * nat))
| REDIR (c : cmd) (file efile : nat) (mode fd : Z)
| PIPE (left right : cmd)
| LIST (left right : cmd)
| BACK (c : cmd).

Definition whitespace : list Z := [32; 9; 13; 10; 11].
Definition symbols : list Z := str "<|>&;()".

Definition is_in (toks : list Z) (c : Z) : bool := match strchr toks c with Some _ => true | None => false end.
Definition is_ws (c : Z) : bool := is_in whitespace c.
Definition is_word (c : Z) : bool := negb (is_ws c) && negb (is_in symbols c).

(** [while(s < es && p( *s)) s++] from the start of a list. *)
Fixpoint skip (p : Z -> bool) (l : list Z) : nat :=
  match l with
  | c :: l => if p c then S (skip p l) else O
  | [] => O
  end.

(** [cmd->argv[argc] = q], where [ret] is the execcmd or redirections around it. *)
Fixpoint add_arg (q : nat * nat) (ret : cmd) : cmd :=
  match ret with
  | EXEC argv => EXEC (argv ++ [q])
  | REDIR c f e m fd => REDIR (add_arg q c) f e m fd
  | c => c
  end.

Section parse.
Variable buf : list Z.
Notation PM := (M nat).

(** [*s], the NUL at the end included. *)
Definition char_at (s : nat) : Z := default 0 (buf !! s).
Definition skip_ws (s : nat) : nat := (s + skip is_ws (drop s buf))%nat.

(** The token, [*q] and [*eq]. *)
Definition gettoken : PM (Z * (nat * nat)) := fun s =>
  let s := skip_ws s in
  let q := s in
  let c := char_at s in
  let '(r, s) :=
    if c =? 0 then (c, s)
    else if is_in (str "|();&<") c then (c, S s)
    else if c =? 62 then (if char_at (S s) =? 62 then (43, S (S s)) else (c, S s))
    else (97, (s + skip is_word (drop s buf))%nat) in
  let eq := s in
  Ok (r, (q, eq)) (skip_ws s).

Definition peek (toks : list Z) : PM bool := fun s =>
  let s := skip_ws s in
  Ok (negb (char_at s =? 0) && is_in toks (char_at s)) s.

(** Every iteration of the loops below takes a token of at least one byte. *)
Definition parseredirs (c : cmd) : PM cmd :=
  loop (S (length buf)) (fun c =>
    b <- peek (str "<>") ;;
    if negb b then ret (inr c) else
    do (tok, _) <- gettoken ;;
    do (w, q) <- gettoken ;;
    if negb (w =? 97) then panic "missing file for redirection" else
    ret (inl (if tok =? 60 then REDIR c q.1 q.2 O_RDONLY 0
              else if tok =? 62 then REDIR c q.1 q.2 (Z.lor (Z.lor O_WRONLY O_CREATE) O_TRUNC) 1
              else if tok =? 43 then REDIR c q.1 q.2 (Z.lor O_WRONLY O_CREATE) 1
              else c))) c.

(** The loop of parseexec() over the arguments. *)
Definition parseargs (r : cmd) : PM cmd :=
  loop (S (length buf)) (fun '(r, argc) =>
    b <- peek (str "|)&;") ;;
    if b then ret (inr r) else
    do (tok, q) <- gettoken ;;
    if tok =? 0 then ret (inr r) else
    if negb (tok =? 97) then panic "syntax" else
    let r := add_arg q r in
    let argc := S argc in
    if (MAXARGS <=? argc)%nat then panic "too many args" else
    r <- parseredirs r ;;
    ret (inl (r, argc))) (r, O).

(** The recursive descent; [n] bounds the depth of the calls. *)
Fixpoint parseline (n : nat) : PM cmd :=
  match n with
  | O => fun _ => NoFuel
  | S n =>
      c <- parsepipe n ;;
      c <- loop (S (length buf)) (fun c =>
        b <- peek (str "&") ;;
        if b then gettoken ;;; ret (inl (BACK c)) else ret (inr c)) c ;;
      b <- peek (str ";") ;;
      if b then
        gettoken ;;;
        r <- parseline n ;;
        ret (LIST c r)
      else ret c
  end
with parsepipe (n : nat) : PM cmd :=
  match n with
  | O => fun _ => NoFuel
  | S n =>
      c <- parseexec n ;;
      b <- peek (str "|") ;;
      if b then
        gettoken ;;;
        r <- parsepipe n ;;
        ret (PIPE c r)
      else ret c
  end
with parseexec (n : nat) : PM cmd :=
  match n with
  | O => fun _ => NoFuel
  | S n =>
      b <- peek (str "(") ;;
      if b then parseblock n else
      r <- parseredirs (EXEC []) ;;
      parseargs r
  end
with parseblock (n : nat) : PM cmd :=
  match n with
  | O => fun _ => NoFuel
  | S n =>
      b <- peek (str "(") ;;
      if negb b then panic "parseblock" else
      gettoken ;;;
      c <- parseline n ;;
      b <- peek (str ")") ;;
      if negb b then panic "syntax - missing )" else
      gettoken ;;;
      parseredirs c
  end.

(** The offsets nulterminate() writes a NUL to, in its order. *)
Fixpoint nul_offsets (c : cmd) : list nat :=
  match c with
  | EXEC argv => argv.*2
  | REDIR c _ efile _ _ => nul_offsets c ++ [efile]
  | PIPE l r | LIST l r => nul_offsets l ++ nul_offsets r
  | BACK c => nul_offsets c
  end.

(** The command line afterwards, with its NUL. *)
Definition nulterminate (c : cmd) : list Z := fold_left (fun b e => <[e := 0]> b) (nul_offsets c) (buf ++ [0]).

(** [es] is the length of the line; the depth of the calls is at most five per
    byte.  The result is the command and the line with its strings terminated;
    the text printed before panic("syntax") is left out. *)
Definition parsecmd : PM (cmd * list Z) :=
  c <- parseline (5 * length buf + 5) ;;
  peek [] ;;;
  s <- gets (fun s => s) ;;
  if negb (s =? length buf)%nat then panic "syntax" else
  ret (c, nulterminate c).
End parse.

(** ** Running commands *)

(** What a descriptor refers to: one the shell inherited, a file that was opened,
    or an end of a pipe. *)
Inductive ofile : Type := Inherited (n : nat) | Opened (path : list Z) (mode : Z) | ReadEnd (pipe : nat) | WriteEnd (pipe : nat).

Record shst := mkShst {
  sh_fds : list (option ofile);   (* the descriptors of the process *)
  sh_pipes : nat;                 (* the number of pipes made so far *)
  sh_forks : nat;                 (* the number of forks so far *)
  sh_started : list (list (list Z) * list (option ofile));   (* programs started by exec() *)
}.

(** Which calls the kernel grants. *)
Class Grants := {
  can_open : list Z -> Z -> bool;
  can_fork : nat -> bool;
  can_exec : list Z -> bool;
  can_chdir : list Z -> bool;
}.

Section run.
Context `{Grants}.

Definition with_fds (f : list (option ofile)) (s : shst) : shst := mkShst f (sh_pipes s) (sh_forks s) (sh_started s).

(** The lowest free descriptor gets [o]. *)
Definition fd_alloc (o : ofile) (s : shst) : option (nat * shst) :=
  match list_find (fun x => x = None) (sh_fds s) with
  | Some (i, _) => Some (i, with_fds (<[i := Some o]> (sh_fds s)) s)
  | None => None
  end.

Definition close (fd : nat) (s : shst) : shst := with_fds (<[fd := None]> (sh_fds s)) s.
Definition open (path : list Z) (mode : Z) (s : shst) : option (nat * shst) :=
  if can_open path mode then fd_alloc (Opened path mode) s else None.
Definition dup (fd : nat) (s : shst) : shst :=
  match mjoin (sh_fds s !! fd) with
  | Some o => match fd_alloc o s with Some (_, s) => s | None => s end
  | None => s
  end.
Definition pipe (s : shst) : option (nat * nat * shst) :=
  match fd_alloc (ReadEnd (sh_pipes s)) s with
  | Some (p0, s1) =>
      match fd_alloc (WriteEnd (sh_pipes s)) s1 with
      | Some (p1, s2) => Some (p0, p1, mkShst (sh_fds s2) (S (sh_pipes s)) (sh_forks s2) (sh_started s2))
      | None => None
      end
  | None => None
  end.

(** fork1(): the child runs [child] on a copy of the descriptors and exits; the
    parent goes on with its own.  [None] when fork() fails and the shell panics. *)
Definition fork1 (child : shst -> shst) (s : shst) : option shst :=
  if can_fork (sh_forks s) then
    Some (with_fds (sh_fds s) (child (mkShst (sh_fds s) (sh_pipes s) (S (sh_forks s)) (sh_started s))))
  else None.

(** The string at an offset of the line after nulterminate(). *)
Definition string_at (line : list Z) (q : nat) : list Z := cstring (drop q line).

(** The state when the process has exited or become another program. *)
Fixpoint runcmd (line : list Z) (c : cmd) (s : shst) : shst :=
  match c with
  | EXEC [] => s
  | EXEC (a :: argv) =>
      if can_exec (string_at line a.1) then
        mkShst (sh_fds s) (sh_pipes s) (sh_forks s)
          (sh_started s ++ [((fun q => string_at line q.1) <$> (a :: argv), sh_fds s)])
      else s
  | REDIR c file _ mode fd =>
      let s := close (Z.to_nat fd) s in
      match open (string_at line file) mode s with
      | None => s
      | Some (_, s) => runcmd line c s
      end
  | LIST l r =>
      match fork1 (runcmd line l) s with
      | None => s
      | Some s => runcmd line r s
      end
  | PIPE l r =>
      match pipe s with
      | None => s
      | Some (p0, p1, s) =>
          match fork1 (fun s => runcmd line l (close p1 (close p0 (dup p1 (close 1 s))))) s with
          | None => s
          | Some s =>
              match fork1 (fun s => runcmd line r (close p1 (close p0 (dup p0 (close 0 s))))) s with
              | None => s
              | Some s => close p1 (close p0 s)
              end
          end
      end
  | BACK c =>
      match fork1 (runcmd line c) s with
      | None => s
      | Some s => s
      end
  end.
End run.
