(* ===== verification/ShSpec.v ===== *)
(** * user/sh.c: what the parser and runcmd() promise. *)

From S2P Require Import Prelude Mem Ulib Exec Sh.

(** ** Executions that return or panic *)

Definition pwp {S A} (m : M S A) (Q : A -> S -> Prop) (s : S) : Prop :=
  match m s with
  | Ok a s' => Q a s'
  | Panic _ => True
  | _ => False
  end.

Section pwp.
Context {S : Type}.

Lemma pwp_ret {A} (a : A) (Q : A -> S -> Prop) s : Q a s -> pwp (ret a) Q s.
Proof. auto. Qed.

Lemma pwp_panic {A} msg (Q : A -> S -> Prop) s : pwp (panic msg) Q s.
Proof. exact I. Qed.

Lemma pwp_mono {A} (m : M S A) (P Q : A -> S -> Prop) s : pwp m P s -> (forall a s', P a s' -> Q a s') -> pwp m Q s.
Proof. unfold pwp. destruct (m s); auto. Qed.

Lemma pwp_bind {A B} (m : M S A) (f : A -> M S B) Q s : pwp m (fun a => pwp (f a) Q) s -> pwp (bind m f) Q s.
Proof. unfold pwp, bind. destruct (m s); simpl; auto; done. Qed.

Lemma pwp_loop {A B} (I : nat -> A -> S -> Prop) (body : A -> M S (A + B)) (Q : B -> S -> Prop) :
  (forall n a s, I n a s -> pwp (body a) (fun r s' => match r with
                              | inl a' => exists m, (m < n)%nat /\ I m a' s'
                              | inr b => Q b s'
                              end) s) ->
  forall fuel n a s, I n a s -> (n < fuel)%nat -> pwp (loop fuel body a) Q s.
Proof.
  intros Hbody fuel. induction fuel as [|fuel IH]; intros n a s HI Hn; [lia|].
  cbn [loop]. apply pwp_bind. eapply pwp_mono; [apply (Hbody n a s HI)|].
  intros [a'|b] s' Hr; cbn beta in *; [|exact Hr]. destruct Hr as (m & Hm & HI'). apply (IH m); auto. lia.
Qed.
End pwp.

Ltac pwp_step :=
  lazymatch goal with
  | |- pwp (bind _ _) _ _ => apply pwp_bind; cbn beta
  | |- pwp (ret _) _ _ => apply pwp_ret; cbn beta iota
  | |- pwp (panic _) _ _ => apply pwp_panic
  end.
Ltac pwp_steps := repeat pwp_step.

(** ** Tokens *)

Lemma skip_le p l : (skip p l <= length l)%nat.
Proof. induction l as [|c l IH]; cbn; [lia|]. destruct (p c); lia. Qed.

Lemma skip_app p l rest : Forall (fun c => p c = true) l -> match rest with c :: _ => p c = false | [] => True end ->
  skip p (l ++ rest) = length l.
Proof.
  induction 1 as [|c l Hc Hl IH]; intros Hr; cbn [app skip length].
  - destruct rest as [|c rest]; [done|]. cbn. by rewrite Hr.
  - rewrite Hc. by rewrite IH.
Qed.

Lemma skip_true p l i : (i < skip p l)%nat -> exists c, l !! i = Some c /\ p c = true.
Proof.
  revert i. induction l as [|c l IH]; intros i Hi; cbn in Hi; [lia|]. destruct (p c) eqn:E; [|lia].
  destruct i as [|i]; [by exists c|]. apply IH. lia.
Qed.

Lemma skip_false p l c : l !! skip p l = Some c -> p c = false.
Proof.
  induction l as [|x l IH]; cbn [skip]; [done|]. destruct (p x) eqn:E; [exact IH|]. by intros [= <-].
Qed.

Section line.
Variable buf : list Z.
Hypothesis no_nul : 0 ∉ buf.

(** A counted string: bytes of a word, up to its end. *)
Record counted (q : nat * nat) : Prop := {
  ct_lt : (q.1 < q.2 <= length buf)%nat;
  ct_word : forall i, (q.1 <= i < q.2)%nat -> exists c, buf !! i = Some c /\ is_word c = true;
  ct_end : forall c, buf !! q.2 = Some c -> is_word c = false;
}.

Lemma skip_ws_bounds s : (s <= length buf)%nat -> (s <= skip_ws buf s <= length buf)%nat.
Proof. intros Hs. unfold skip_ws. pose proof (skip_le is_ws (drop s buf)) as Hl. rewrite length_drop in Hl. lia. Qed.

Lemma char_at_nz s : char_at buf s <> 0 -> exists c, buf !! s = Some c /\ char_at buf s = c /\ (s < length buf)%nat.
Proof.
  unfold char_at. destruct (buf !! s) as [c|] eqn:E; [|done]. intros _. exists c. split; [done|]. split; [done|]. by eapply lookup_lt_Some.
Qed.

Lemma after_ws s c : buf !! skip_ws buf s = Some c -> is_ws c = false.
Proof. unfold skip_ws. rewrite <- lookup_drop. apply skip_false. Qed.

(** A token that is not the end is at least one byte, and a word is a counted string. *)
Lemma gettoken_bounds s (Q : Z * (nat * nat) -> nat -> Prop) : (s <= length buf)%nat ->
  (forall tok q s', (s <= s' <= length buf)%nat -> (char_at buf (skip_ws buf s) <> 0 -> (skip_ws buf s < s')%nat) -> (tok = 97 -> counted q) ->
     (char_at buf (skip_ws buf s) = 0 -> tok = 0) -> Q (tok, q) s') ->
  pwp (gettoken buf) Q s.
Proof.
  intros Hs HQ. unfold pwp, gettoken. pose proof (skip_ws_bounds s Hs) as Hw. set (s1 := skip_ws buf s) in *.
  destruct (Z.eqb_spec (char_at buf s1) 0) as [E0|E0].
  { rewrite E0 in *. apply HQ; [pose proof (skip_ws_bounds s1); lia|done|done|done]. }
  destruct (char_at_nz s1 E0) as (c & Hc & Ec & Hlt). rewrite Ec in *.
  destruct (is_in (str "|();&<") c) eqn:Es.
  { apply HQ; [pose proof (skip_ws_bounds (S s1)); lia|pose proof (skip_ws_bounds (S s1)); lia|intros ->; vm_compute in Es; discriminate|done]. }
  destruct (Z.eqb_spec c 62) as [->|Hgt].
  { destruct (Z.eqb_spec (char_at buf (S s1)) 62) as [E2|E2]; [|apply HQ; [pose proof (skip_ws_bounds (S s1)); lia|pose proof (skip_ws_bounds (S s1)); lia|done|done]].
    destruct (char_at_nz (S s1) ltac:(lia)) as (? & _ & _ & Hlt2).
    apply HQ; [pose proof (skip_ws_bounds (S (S s1))); lia|pose proof (skip_ws_bounds (S (S s1))); lia|done|done]. }
  set (k := skip is_word (drop s1 buf)). pose proof (skip_le is_word (drop s1 buf)) as Hk. rewrite length_drop in Hk. fold k in Hk.
  assert (is_word c = true) as Hword.
  { unfold is_word. rewrite (after_ws s c Hc). cbn [negb andb]. apply negb_true_iff. unfold is_in in *. revert Es. change symbols with [60; 124; 62; 38; 59; 40; 41].
    change (str "|();&<") with [124; 40; 41; 59; 38; 60]. cbn [strchr]. repeat (case_match; try done); bools; subst; try done; simplify_eq. }
  assert (0 < k)%nat as Hk0 by (unfold k; rewrite (drop_S _ _ _ Hc); cbn; rewrite Hword; lia).
  pose proof (skip_ws_bounds (s1 + k)%nat). apply HQ; [lia|lia| |done]. intros _. split; cbn [fst snd]; [lia| |].
  - intros i Hi. destruct (skip_true is_word (drop s1 buf) (i - s1)) as (x & Hx & Hxw); [fold k; lia|]. rewrite lookup_drop in Hx.
    exists x. split; [|exact Hxw]. by replace (s1 + (i - s1))%nat with i in Hx by lia.
  - intros x Hx. apply (skip_false is_word (drop s1 buf)). rewrite lookup_drop. exact Hx.
Qed.

Lemma peek_bounds toks s (Q : bool -> nat -> Prop) : (s <= length buf)%nat ->
  (forall b s', (s <= s' <= length buf)%nat -> skip_ws buf s' = s' -> (b = true -> char_at buf s' <> 0) -> Q b s') -> pwp (peek buf toks) Q s.
Proof.
  intros Hs HQ. unfold pwp, peek. apply HQ; [by apply skip_ws_bounds| |].
  - unfold skip_ws at 1. destruct (drop (skip_ws buf s) buf) as [|c l] eqn:E; [cbn; lia|]. cbn [skip].
    assert (buf !! skip_ws buf s = Some c) as Hc by (rewrite <- (Nat.add_0_r (skip_ws buf s)), <- lookup_drop, E; reflexivity).
    rewrite (after_ws s c Hc). lia.
  - intros [Hb _]%andb_true_iff. bools. done.
Qed.

(** The counted strings of a command. *)
Fixpoint strings (c : cmd) : list (nat * nat) :=
  match c with
  | EXEC argv => argv
  | REDIR c f e _ _ => strings c ++ [(f, e)]
  | PIPE l r | LIST l r => strings l ++ strings r
  | BACK c => strings c
  end.
Definition counted_cmd (c : cmd) : Prop := Forall counted (strings c).

(** A parsing function moves forward and keeps the strings counted. *)
Definition parses (s : nat) (c : cmd) (s' : nat) : Prop := (s <= s' <= length buf)%nat /\ counted_cmd c.

Lemma add_arg_counted q c : counted q -> counted_cmd c -> counted_cmd (add_arg q c).
Proof.
  intros Hq. unfold counted_cmd. induction c; cbn [add_arg strings]; auto; rewrite ?Forall_app; [intros Hc; split; [done|by constructor]|].
  intros [Hc Hf]. auto.
Qed.

Lemma parseredirs_total c s : (s <= length buf)%nat -> counted_cmd c -> pwp (parseredirs buf c) (parses s) s.
Proof.
  intros Hs Hc. apply pwp_loop with (I := fun n c s' => parses s c s' /\ n = (length buf - s')%nat) (n := (length buf - s)%nat); [|by split|lia].
  intros n c1 s1 [[Hs1 Hc1] ->]. pwp_step. apply peek_bounds; [lia|]. intros b s2 Hs2 Hws Hb. destruct b; cbn [negb]; [|pwp_steps; split; [lia|done]].
  specialize (Hb eq_refl). pwp_step. apply gettoken_bounds; [lia|]. intros tok q s3 Hs3 Hlt _ _. rewrite Hws in Hlt. specialize (Hlt Hb). pwp_step.
  apply gettoken_bounds; [lia|]. intros w q' s4 Hs4 _ Hq _. destruct (Z.eqb_spec w 97) as [->|]; cbn [negb]; pwp_steps.
  exists (length buf - s4)%nat. split; [lia|]. split; [|done]. split; [lia|]. specialize (Hq eq_refl).
  assert (forall m fd, counted_cmd (REDIR c1 q'.1 q'.2 m fd)) as Hr.
  { intros m fd. unfold counted_cmd. cbn. apply Forall_app. split; [exact Hc1|]. rewrite <- surjective_pairing. by constructor. }
  repeat case_match; auto.
Qed.

Lemma parseargs_total c s : (s <= length buf)%nat -> counted_cmd c -> pwp (parseargs buf c) (parses s) s.
Proof.
  intros Hs Hc. apply pwp_loop with (I := fun n '(c, _) s' => parses s c s' /\ n = (length buf - s')%nat) (n := (length buf - s)%nat); [|by split|lia].
  intros n [c1 argc] s1 [[Hs1 Hc1] ->]. pwp_step. apply peek_bounds; [lia|]. intros b s2 Hs2 Hws _. destruct b; [pwp_steps; split; [lia|done]|].
  pwp_step. apply gettoken_bounds; [lia|]. intros tok q s3 Hs3 Hlt Hq H0. rewrite Hws in Hlt, H0.
  destruct (Z.eqb_spec tok 0) as [->|Htok]; [pwp_steps; split; [lia|done]|].
  destruct (Z.eqb_spec tok 97) as [->|]; cbn [negb]; [|pwp_steps]. destruct (MAXARGS <=? S argc)%nat; [pwp_steps|]. pwp_step.
  assert (char_at buf s2 <> 0) as Hnz by (intros E; specialize (H0 E); done).
  eapply pwp_mono; [apply parseredirs_total; [lia|]; apply add_arg_counted; auto|]. intros c2 s4 [Hs4 Hc2]. pwp_steps.
  exists (length buf - s4)%nat. split; [specialize (Hlt Hnz); lia|]. split; [|done]. split; [lia|done].
Qed.

(** The token peek() has found. *)
Lemma token_at s (Q : Z * (nat * nat) -> nat -> Prop) : skip_ws buf s = s -> (s <= length buf)%nat -> char_at buf s <> 0 ->
  (forall t s', (s < s' <= length buf)%nat -> Q t s') -> pwp (gettoken buf) Q s.
Proof.
  intros Hws Hs Hb HQ. apply gettoken_bounds; [done|]. intros tok q s' Hs' Hlt _ _. rewrite Hws in Hlt. apply HQ. specialize (Hlt Hb). lia.
Qed.

(** Enough depth for the recursive descent from [s]: [k] is the level. *)
Definition deep (n k s : nat) : Prop := (4 * (length buf - s) + k <= n)%nat.

Lemma parse_total n :
  (forall s, (s <= length buf)%nat -> deep n 4 s -> pwp (parseline buf n) (parses s) s) /\
  (forall s, (s <= length buf)%nat -> deep n 3 s -> pwp (parsepipe buf n) (parses s) s) /\
  (forall s, (s <= length buf)%nat -> deep n 2 s -> pwp (parseexec buf n) (parses s) s) /\
  (forall s, (s <= length buf)%nat -> deep n 1 s -> pwp (parseblock buf n) (parses s) s).
Proof.
  unfold deep. induction n as [|n (IHl & IHp & IHe & IHb)]; [split_and!; intros s Hs Hd; lia|].
  split_and!; intros s Hs Hd.
  - cbn [parseline]. pwp_step. eapply pwp_mono; [apply IHp; lia|]. intros c s1 [Hs1 Hc1]. pwp_step.
    apply pwp_loop with (I := fun k c s' => parses s c s' /\ k = (length buf - s')%nat) (n := (length buf - s1)%nat); [|by split; [split; [lia|]|]|lia].
    + intros k c2 s2 [[Hs2 Hc2] ->]. pwp_step. apply peek_bounds; [lia|]. intros b s3 Hs3 Hws Hb. destruct b; [|pwp_steps].
      * pwp_step. apply (token_at s3); auto; [lia|]. intros t s4 Hs4. pwp_steps. exists (length buf - s4)%nat. split; [lia|]. split; [|done]. split; [lia|exact Hc2].
      * apply peek_bounds; [lia|]. intros b s4 Hs4 Hws4 Hb4. destruct b; [|pwp_steps; split; [lia|exact Hc2]].
        pwp_step. apply (token_at s4); auto; [lia|]. intros t s5 Hs5. pwp_step. eapply pwp_mono; [apply IHl; lia|].
        intros r s6 [Hs6 Hr]. pwp_steps. split; [lia|]. unfold counted_cmd. cbn. by apply Forall_app.
  - cbn [parsepipe]. pwp_step. eapply pwp_mono; [apply IHe; lia|]. intros c s1 [Hs1 Hc1]. pwp_step.
    apply peek_bounds; [lia|]. intros b s3 Hs3 Hws Hb. destruct b; [|pwp_steps; split; [lia|exact Hc1]].
    pwp_step. apply (token_at s3); auto; [lia|]. intros t s5 Hs5. pwp_step. eapply pwp_mono; [apply IHp; lia|].
    intros r s6 [Hs6 Hr]. pwp_steps. split; [lia|]. unfold counted_cmd. cbn. by apply Forall_app.
  - cbn [parseexec]. pwp_step. apply peek_bounds; [lia|]. intros b s1 Hs1 Hws Hb. destruct b.
    + eapply pwp_mono; [apply IHb; lia|]. intros c s2 [Hs2 Hc2]. split; [lia|done].
    + pwp_step. eapply pwp_mono; [apply parseredirs_total; [lia|constructor]|]. intros c s2 [Hs2 Hc2].
      eapply pwp_mono; [apply parseargs_total; [lia|done]|]. intros c3 s3 [Hs3 Hc3]. split; [lia|done].
  - cbn [parseblock]. pwp_step. apply peek_bounds; [lia|]. intros b s1 Hs1 Hws Hb. destruct b; cbn [negb]; [|pwp_steps].
    pwp_step. apply (token_at s1); auto; [lia|]. intros t s2 Hs2. pwp_step. eapply pwp_mono; [apply IHl; lia|]. intros c s3 [Hs3 Hc3].
    pwp_step. apply peek_bounds; [lia|]. intros b s4 Hs4 Hws4 Hb4. destruct b; cbn [negb]; [|pwp_steps]. pwp_step.
    apply (token_at s4); auto; [lia|]. intros t' s5 Hs5. eapply pwp_mono; [apply parseredirs_total; [lia|exact Hc3]|].
    intros c6 s6 [Hs6 Hc6]. split; [lia|done].
Qed.

(** ** The strings in the line after nulterminate() *)

Lemma nul_offsets_strings c : nul_offsets c = (strings c).*2.
Proof. induction c; cbn [nul_offsets strings]; rewrite ?fmap_app, ?IHc, ?IHc1, ?IHc2; reflexivity. Qed.

Lemma nul_lookup es l i : fold_left (fun b e => <[e := 0]> b) es l !! i =
  if decide (i ∈ es /\ (i < length l)%nat) then Some 0 else l !! i.
Proof.
  revert l. induction es as [|e es IH]; intros l; cbn [fold_left]; [rewrite decide_False; [done|by rewrite elem_of_nil; intros [? _]]|].
  rewrite IH, length_insert. destruct (decide (i = e)) as [->|Hne].
  - destruct (decide (e < length l)%nat) as [Hl|Hl].
    + rewrite (list_lookup_insert_eq _ _ _ Hl). rewrite (decide_True (P := e ∈ e :: es /\ (e < length l)%nat)) by (split; [by left|done]). by destruct (decide _).
    + rewrite decide_False by (by intros [_ ?]). rewrite decide_False by (by intros [_ ?]). rewrite list_insert_ge by lia. done.
  - rewrite list_lookup_insert_ne by auto. assert (i ∈ e :: es <-> i ∈ es) as Hiff by (rewrite elem_of_cons; naive_solver). repeat case_decide; naive_solver.
Qed.

(** The word a counted string stands for. *)
Definition text (q : nat * nat) : list Z := take (q.2 - q.1) (drop q.1 buf).

Lemma text_lookup q i : counted q -> (i < q.2 - q.1)%nat -> exists c, buf !! (q.1 + i)%nat = Some c /\ is_word c = true.
Proof. intros Hq Hi. apply (ct_word _ Hq). lia. Qed.

Lemma nulterminate_text c q : counted_cmd c -> q ∈ strings c -> cstring (drop q.1 (nulterminate buf c)) = text q.
Proof.
  intros Hc Hin. unfold counted_cmd in Hc. rewrite Forall_forall in Hc. pose proof (Hc q Hin) as Hq. pose proof (ct_lt _ Hq) as Hl. unfold nulterminate.
  rewrite nul_offsets_strings. set (line := fold_left _ _ _).
  assert (length (text q) = q.2 - q.1)%nat as Hlen by (unfold text; rewrite length_take, length_drop; lia).
  assert (forall i, line !! i = if decide (i ∈ (strings c).*2 /\ (i < length (buf ++ [0%Z]))%nat) then Some 0 else (buf ++ [0]) !! i) as Hline by (intros i; apply nul_lookup).
  assert (length (buf ++ [0]) = S (length buf)) as Hb1 by (rewrite length_app; cbn; lia).
  assert (drop q.1 line = text q ++ 0 :: drop (S q.2) line) as E.
  { apply list_eq. intros i. rewrite lookup_drop. destruct (decide (i < q.2 - q.1)%nat) as [Hi|Hi].
    - rewrite lookup_app_l by lia. unfold text. rewrite lookup_take_lt, lookup_drop by lia. destruct (text_lookup q i Hq Hi) as (x & Hx & Hxw).
      rewrite Hline, decide_False; [rewrite lookup_app_l by lia; reflexivity|]. intros [He _]. apply list_elem_of_fmap in He as (p & Ep & Hp).
      pose proof (Hc p Hp) as Hcp. rewrite Ep in Hx. rewrite (ct_end _ Hcp x Hx) in Hxw. done.
    - rewrite lookup_app_r by lia. rewrite Hlen. destruct (decide (i = q.2 - q.1)%nat) as [->|Hne].
      + replace (q.1 + (q.2 - q.1))%nat with q.2 by lia. rewrite Nat.sub_diag. cbn. rewrite Hline, decide_True; [done|].
        split; [apply list_elem_of_fmap; by exists q|lia].
      + replace (i - (q.2 - q.1))%nat with (S (i - (q.2 - q.1) - 1)) by lia.
        change (line !! (q.1 + i)%nat = drop (S q.2) line !! (i - (q.2 - q.1) - 1)%nat). rewrite lookup_drop. f_equal. lia. }
  rewrite E. apply cstring_app. intros H0. apply no_nul. unfold text in H0. apply list_elem_of_lookup in H0 as [i Hi].
  apply lookup_take_Some in Hi as [Hi _]. rewrite lookup_drop in Hi. by eapply list_elem_of_lookup_2.
Qed.
End line.

Lemma parsecmd_strings buf : 0 ∉ buf ->
  pwp (parsecmd buf) (fun r _ => forall q, q ∈ strings r.1 -> cstring (drop q.1 r.2) = text buf q /\ text buf q <> []) 0%nat.
Proof.
  intros Hz. unfold parsecmd.
  pwp_step. eapply pwp_mono; [apply (parse_total buf); [lia|unfold deep; lia]|]. intros c s [Hs Hc]. pwp_step.
  apply peek_bounds; [lia|]. intros b s1 Hs1 _ _. pwp_step. unfold pwp at 1, gets. destruct (s1 =? length buf)%nat; cbn [negb]; [|pwp_steps].
  pwp_steps. intros q Hq. split; [by apply nulterminate_text|]. unfold counted_cmd in Hc. rewrite Forall_forall in Hc. pose proof (ct_lt _ _ (Hc q Hq)) as Hl.
  intros E. apply (f_equal length) in E. unfold text in E. rewrite length_take, length_drop in E. cbn in E. lia.
Qed.

(** C26: the parser ends on every command line: it panics or answers a command, and
    then every argument and file name of the command, as nulterminate() leaves
    it in the line, is the word it was read from. *)
Theorem parsecmd_total buf : 0 ∉ buf ->
  pwp (parsecmd buf) (fun r _ => forall q, q ∈ strings r.1 -> cstring (drop q.1 r.2) = text buf q /\ text buf q <> []) 0%nat.
Proof. apply parsecmd_strings. Qed.

Lemma parsecmd_total_witness :
  let buf := str "cat a|wc>>b" in
  pwp (parsecmd buf) (fun r _ => forall q, q ∈ strings r.1 -> cstring (drop q.1 r.2) = text buf q /\ text buf q <> []) 0%nat.
Proof. intros buf. apply (parsecmd_total buf). apply (bool_decide_unpack (0 ∉ buf)). vm_compute. exact I. Defined.
