(* ===== verification/ShParse.v ===== *)
(** * user/sh.c: the parser reads back what is written.

    Abstract commands, the tokens that write them down, the lines that consist
    of these tokens with any spacing, and the theorem that parsecmd() of such a
    line is the command. *)

From S2P Require Import Prelude Params Mem Ulib Exec Sh ShSpec.

(** ** Tokens *)

Inductive tok : Type := W (w : list Z) | T (c : Z).

Definition kind (t : tok) : Z := match t with W _ => 97 | T c => c end.
(** Its first character; [>>] is the token [+]. *)
Definition lead (t : tok) : Z := match t with W w => chr w | T c => if c =? 43 then 62 else c end.

Definition word (w : list Z) : Prop := w <> [] /\ Forall (fun c => is_word c = true /\ c <> 0) w.
Definition blank (l : list Z) : Prop := Forall (fun c => is_ws c = true) l.

(** The text [l] consists of the tokens and blanks. *)
Inductive lexes : list Z -> list tok -> Prop :=
| lex_nil l : blank l -> lexes l []
| lex_word l w rest ts : blank l -> word w -> match rest with c :: _ => is_word c = false | [] => True end ->
    lexes rest ts -> lexes (l ++ w ++ rest) (W w :: ts)
| lex_sym l c rest ts : blank l -> is_in (str "|();&<") c = true -> lexes rest ts -> lexes (l ++ c :: rest) (T c :: ts)
| lex_gt l rest ts : blank l -> head rest <> Some 62 -> lexes rest ts -> lexes (l ++ 62 :: rest) (T 62 :: ts)
| lex_app l rest ts : blank l -> lexes rest ts -> lexes (l ++ 62 :: 62 :: rest) (T 43 :: ts).

Lemma blank_app a b : blank a -> blank b -> blank (a ++ b).
Proof. intros Ha Hb. by apply Forall_app. Qed.

Lemma lexes_blank a l ts : blank a -> lexes l ts -> lexes (a ++ l) ts.
Proof.
  intros Ha Hl. destruct Hl; rewrite ?(app_assoc a);
    [apply lex_nil|apply lex_word|apply lex_sym|apply lex_gt|apply lex_app]; auto using blank_app.
Qed.

(** The blanks in front do not matter. *)
Lemma lexes_skip l ts : lexes l ts -> lexes (drop (skip is_ws l) l) ts.
Proof.
  intros Hl. assert (forall a b, blank a -> match b with c :: _ => is_ws c = false | [] => True end -> drop (skip is_ws (a ++ b)) (a ++ b) = b) as Hd.
  { intros a b Ha Hb. rewrite skip_app by assumption. by rewrite drop_app_length. }
  destruct Hl as [l Hb|l w rest ts Hb Hw Hr Hl|l c rest ts Hb Hc Hl|l rest ts Hb Hr Hl|l rest ts Hb Hl].
  - rewrite <- (app_nil_r l), Hd by done. constructor. constructor.
  - destruct w as [|c w]; [by destruct Hw|]. rewrite Hd; [exact (lex_word [] (c :: w) rest ts (Forall_nil_2 _) Hw Hr Hl)|done|]. destruct Hw as [_ [[Hc _] _]%Forall_cons].
    cbn. unfold is_word in Hc. apply andb_true_iff in Hc as [Hc _]. by apply negb_true_iff in Hc.
  - rewrite Hd; [exact (lex_sym [] c rest ts (Forall_nil_2 _) Hc Hl)|done|]. revert Hc. unfold is_in, is_ws. change (str "|();&<") with [124; 40; 41; 59; 38; 60]. unfold whitespace.
    cbn [strchr]. repeat (case_match; try done); bools; subst; done.
  - rewrite Hd; [exact (lex_gt [] rest ts (Forall_nil_2 _) Hr Hl)|done|done].
  - rewrite Hd; [exact (lex_app [] rest ts (Forall_nil_2 _) Hl)|done|done].
Qed.

Lemma lexes_length l ts : lexes l ts -> (length ts <= length l)%nat.
Proof.
  induction 1 as [|l w rest ts _ [Hw _] _ _ IH|l c rest ts _ _ _ IH|l rest ts _ _ _ IH|l rest ts _ _ IH]; cbn [length]; rewrite ?length_app; cbn [length]; try lia.
  destruct w; [done|]. cbn [length]. lia.
Qed.

Lemma is_in_elem toks c : is_in toks c = true <-> c ∈ toks.
Proof.
  unfold is_in. destruct (strchr toks c) as [k|] eqn:E; [apply strchr_some in E as [E _]; apply list_elem_of_lookup_2 in E; tauto|].
  apply strchr_none in E. split; [done|tauto].
Qed.

(** A word starts with none of the symbols. *)
Lemma word_no_symbol toks c : Forall (fun x => is_in symbols x = true) toks -> is_word c = true -> is_in toks c = false.
Proof.
  intros Ht Hc. unfold is_word in Hc. apply andb_true_iff in Hc as [_ Hc]. apply negb_true_iff in Hc.
  unfold is_in. destruct (strchr toks c) as [k|] eqn:E; [|done]. apply strchr_some in E as [E _]. apply list_elem_of_lookup_2 in E.
  rewrite Forall_forall in Ht. specialize (Ht c E). congruence.
Qed.

Section lex.
Variable buf : list Z.

Lemma skip_lex s ts : lexes (drop s buf) ts -> lexes (drop (skip_ws buf s) buf) ts.
Proof. intros Hl. unfold skip_ws. rewrite <- drop_drop. by apply lexes_skip. Qed.

(** What gettoken() and peek() see at a token. *)
Lemma gettoken_lex s t ts : lexes (drop s buf) (t :: ts) ->
  exists q s', gettoken buf s = Ok (kind t, q) s' /\ lexes (drop s' buf) ts /\ forall w, t = W w -> text buf q = w.
Proof.
  intros Hl. apply skip_lex in Hl. unfold gettoken. cbv zeta. set (s1 := skip_ws buf s) in *.
  assert (forall c l, drop s1 buf = c :: l -> char_at buf s1 = c /\ drop (S s1) buf = l) as Hd.
  { intros c l E. split; [unfold char_at; by rewrite <- (Nat.add_0_r s1), <- lookup_drop, E|]. rewrite <- Nat.add_1_r, <- drop_drop, E. reflexivity. }
  assert (forall k, drop s1 buf !! k = buf !! (s1 + k)%nat) as Hk by (intros k; apply lookup_drop).
  assert (forall c l, drop s1 buf = c :: l -> is_ws c = false) as Hws by (intros c l E; apply (after_ws buf s); fold s1; rewrite <- (Nat.add_0_r s1), <- Hk, E; done).
  inversion Hl as [|l w rest ts' Hb Hw Hr Hrest E E1|l c rest ts' Hb Hc Hrest E E1|l rest ts' Hb Hr Hrest E E1|l rest ts' Hb Hrest E E1]; subst;
    (destruct l as [|x l]; [|exfalso; apply Forall_cons in Hb as [Hx _]; rewrite (Hws x _ (eq_sym E)) in Hx; done]); cbn [app] in E; symmetry in E.
  - destruct w as [|c w]; [by destruct Hw|]. destruct (Hd _ _ E) as [Ec _]. rewrite Ec. pose proof Hw as [_ Hall]. apply Forall_cons in Hall as [[Hc1 Hc2] _].
    rewrite (proj2 (Z.eqb_neq c 0)) by done. rewrite (word_no_symbol _ c) by (done || (vm_compute; repeat constructor)).
    destruct (Z.eqb_spec c 62) as [->|_]; [vm_compute in Hc1; discriminate|]. rewrite !app_nil_l, skip_app; [|apply (Forall_impl _ _ _ (proj2 Hw)); naive_solver|exact Hr].
    eexists _, _. split; [reflexivity|]. split.
    + apply skip_lex. rewrite <- drop_drop, E. by rewrite drop_app_length.
    + intros w' [= <-]. unfold text. cbn [fst snd]. rewrite E. replace (s1 + length (c :: w) - s1)%nat with (length (c :: w)) by lia. by rewrite take_app_length.
  - destruct (Hd _ _ E) as [Ec Er]. rewrite Ec, Hc. destruct (Z.eqb_spec c 0) as [->|_]; [vm_compute in Hc; discriminate|].
    eexists _, _. split; [reflexivity|]. split; [|done]. apply skip_lex. by rewrite Er.
  - destruct (Hd _ _ E) as [Ec Er]. rewrite Ec. change (62 =? 0) with false. change (is_in (str "|();&<") 62) with false. change (62 =? 62) with true. cbv iota.
    assert (char_at buf (S s1) =? 62 = false) as ->.
    { apply Z.eqb_neq. unfold char_at. rewrite <- (Nat.add_0_r (S s1)), <- lookup_drop, Er. destruct rest as [|x rest]; cbn in *; [done|congruence]. }
    eexists _, _. split; [reflexivity|]. split; [|done]. apply skip_lex. by rewrite Er.
  - destruct (Hd _ _ E) as [Ec Er]. rewrite Ec. change (62 =? 0) with false. change (is_in (str "|();&<") 62) with false. change (62 =? 62) with true. cbv iota.
    assert (char_at buf (S s1) =? 62 = true) as ->.
    { apply Z.eqb_eq. unfold char_at. by rewrite <- (Nat.add_0_r (S s1)), <- lookup_drop, Er. }
    eexists _, _. split; [reflexivity|]. split; [|done]. apply skip_lex. rewrite <- Nat.add_1_r, <- drop_drop, Er. done.
Qed.

Lemma lexes_lead s t ts : lexes (drop s buf) (t :: ts) -> skip_ws buf s = s -> char_at buf s = lead t /\ lead t <> 0.
Proof.
  intros Hl Hs. unfold char_at.
  assert (forall c l, drop s buf = c :: l -> default 0 (buf !! s) = c /\ is_ws c = false) as Hd.
  { intros c l E. assert (buf !! s = Some c) as Hc by (rewrite <- (Nat.add_0_r s), <- lookup_drop, E; done). rewrite Hc. split; [done|].
    apply (after_ws buf s). by rewrite Hs. }
  inversion Hl as [|l w rest ts' Hb Hw Hr Hrest E E1|l c rest ts' Hb Hc Hrest E E1|l rest ts' Hb Hr Hrest E E1|l rest ts' Hb Hrest E E1]; subst;
    (destruct l as [|x l]; [|exfalso; apply Forall_cons in Hb as [Hx _]; rewrite (proj2 (Hd x _ (eq_sym E))) in Hx; done]); cbn [app] in E; symmetry in E.
  - destruct w as [|c w]; [by destruct Hw|]. destruct (Hd _ _ E) as [-> _]. cbn. destruct Hw as [_ [[_ Hc] _]%Forall_cons]. done.
  - destruct (Hd _ _ E) as [-> _]. cbn. destruct (Z.eqb_spec c 43) as [->|]; [vm_compute in Hc; discriminate|]. split; [done|]. intros ->. vm_compute in Hc. discriminate.
  - destruct (Hd _ _ E) as [-> _]. done.
  - destruct (Hd _ _ E) as [-> _]. done.
Qed.

Lemma peek_lex s ts toks : lexes (drop s buf) ts ->
  exists s', peek buf toks s = Ok (match ts with [] => false | t :: _ => is_in toks (lead t) end) s' /\ lexes (drop s' buf) ts /\ (s <= s')%nat.
Proof.
  intros Hl. unfold peek. exists (skip_ws buf s). pose proof (skip_lex _ _ Hl) as Hl'. split; [|split; [exact Hl'|unfold skip_ws; lia]]. f_equal.
  assert (skip_ws buf (skip_ws buf s) = skip_ws buf s) as Hs.
  { unfold skip_ws at 1. destruct (drop (skip_ws buf s) buf) as [|c l] eqn:E; [cbn; lia|]. cbn [skip].
    assert (buf !! skip_ws buf s = Some c) as Hc by (rewrite <- (Nat.add_0_r (skip_ws buf s)), <- lookup_drop, E; reflexivity).
    rewrite (after_ws buf s c Hc). lia. }
  destruct ts as [|t ts].
  - inversion Hl' as [l Hb E| | | |]. subst l. unfold char_at. destruct (drop (skip_ws buf s) buf) as [|c l] eqn:E.
    + assert (buf !! skip_ws buf s = None) as ->; [|done]. by rewrite <- (Nat.add_0_r (skip_ws buf s)), <- lookup_drop, E.
    + apply Forall_cons in Hb as [Hx _]. assert (buf !! skip_ws buf s = Some c) as Hc by (rewrite <- (Nat.add_0_r (skip_ws buf s)), <- lookup_drop, E; reflexivity).
      rewrite (after_ws buf s c Hc) in Hx. done.
  - destruct (lexes_lead _ _ _ Hl' Hs) as [-> Hnz]. by rewrite (proj2 (Z.eqb_neq _ _) Hnz).
Qed.
End lex.

(** ** Abstract commands *)

Inductive rkind : Type := Rin | Rout | Rapp.
Definition rtok (k : rkind) : Z := match k with Rin => 60 | Rout => 62 | Rapp => 43 end.
Definition rmode (k : rkind) : Z :=
  match k with Rin => O_RDONLY | Rout => Z.lor (Z.lor O_WRONLY O_CREATE) O_TRUNC | Rapp => Z.lor O_WRONLY O_CREATE end.
Definition rfd (k : rkind) : Z := match k with Rin => 0 | _ => 1 end.

Inductive scmd : Type :=
| SExec (argv : list (list Z))
| SRedir (c : scmd) (k : rkind) (file : list Z)
| SPipe (left right : scmd)
| SList (left right : scmd)
| SBack (c : scmd).

(** Words are words, and argv has room for them and the null pointer. *)
Fixpoint swf (c : scmd) : Prop :=
  match c with
  | SExec ws => Forall word ws /\ (length ws < MAXARGS)%nat
  | SRedir c _ f => swf c /\ word f
  | SPipe l r | SList l r => swf l /\ swf r
  | SBack c => swf c
  end.

(** The tokens of a command where the grammar allows a simple command (level
    0), a pipeline (1), a pipeline in the background (2) or a line (3). *)
Definition paren (b : bool) (ts : list tok) : list tok := if b then T 40 :: ts ++ [T 41] else ts.
Fixpoint show (c : scmd) (level : nat) : list tok :=
  match c with
  | SExec ws => W <$> ws
  | SRedir c k f => show c 0 ++ [T (rtok k); W f]
  | SPipe l r => paren (level <? 1)%nat (show l 0 ++ T 124 :: show r 1)
  | SBack c => paren (level <? 2)%nat (show c 2 ++ [T 38])
  | SList l r => paren (level <? 3)%nat (show l 2 ++ T 59 :: show r 3)
  end.

Fixpoint nodes (c : scmd) : nat :=
  match c with
  | SExec _ => O
  | SRedir c _ _ | SBack c => S (nodes c)
  | SPipe l r | SList l r => S (nodes l + nodes r)
  end.

Lemma paren_length b ts : (length ts <= length (paren b ts))%nat.
Proof. destruct b; cbn; rewrite ?length_app; lia. Qed.

Lemma show_nodes c k : (nodes c <= length (show c k))%nat.
Proof.
  revert k. induction c as [ws|c IH r f|l IHl r IHr|l IHl r IHr|c IH]; intros k; cbn [nodes show]; [lia|..].
  - specialize (IH 0%nat). rewrite length_app. cbn. lia.
  - etransitivity; [|apply paren_length]. specialize (IHl 0%nat). specialize (IHr 1%nat). rewrite length_app. cbn. lia.
  - etransitivity; [|apply paren_length]. specialize (IHl 2%nat). specialize (IHr 3%nat). rewrite length_app. cbn. lia.
  - etransitivity; [|apply paren_length]. specialize (IH 2%nat). rewrite length_app. cbn. lia.
Qed.

(** Redirections around a command. *)
Definition swrap (c : scmd) (rs : list (rkind * list Z)) : scmd := fold_left (fun c r => SRedir c r.1 r.2) rs c.
Definition cwrap (c : cmd) (qs : list (rkind * (nat * nat))) : cmd :=
  fold_left (fun c r => REDIR c r.2.1 r.2.2 (rmode r.1) (rfd r.1)) qs c.
Definition rtoks (rs : list (rkind * list Z)) : list tok := concat ((fun r => [T (rtok r.1); W r.2]) <$> rs).

Lemma unwrap_redirs c : exists c0 rs, c = swrap c0 rs /\ show c 0 = show c0 0 ++ rtoks rs /\
  (nodes c = nodes c0 + length rs)%nat /\ (swf c -> swf c0 /\ Forall (fun r => word r.2) rs) /\ match c0 with SRedir _ _ _ => False | _ => True end.
Proof.
  assert (forall c0 : scmd, match c0 with SRedir _ _ _ => False | _ => True end -> exists c1 rs, c0 = swrap c1 rs /\ show c0 0 = show c1 0 ++ rtoks rs /\
    (nodes c0 = nodes c1 + length rs)%nat /\ (swf c0 -> swf c1 /\ Forall (fun r => word r.2) rs) /\ match c1 with SRedir _ _ _ => False | _ => True end) as Hcore.
  { intros c0 Hc. exists c0, []. cbn. rewrite app_nil_r. split_and!; [done..|lia|done|done]. }
  induction c as [ws|c (c0 & rs & E & Es & En & Hw & Hc) k f| | |]; [by apply Hcore| |by apply Hcore..].
  exists c0, (rs ++ [(k, f)]). unfold swrap, rtoks in *. rewrite fold_left_app, fmap_app, concat_app, length_app. cbn [show nodes swf fold_left fmap list_fmap concat fst snd length].
  rewrite <- E, Es, En. split_and!; [done|by rewrite app_assoc|lia| |done].
  intros [H1 H2]. apply Hw in H1 as [H1 H1']. split; [done|]. apply Forall_app. split; [done|]. by constructor.
Qed.

(** The tokens that may follow a simple command. *)
Definition stops (ts : list tok) : Prop := match ts with [] => True | t :: _ => is_in (str "|)&;") (lead t) = true end.

Section parser.
Variable buf : list Z.

(** The parsed command [c] is the abstract command [sc]. *)
Fixpoint denotes (c : cmd) (sc : scmd) : Prop :=
  match c, sc with
  | EXEC argv, SExec ws => text buf <$> argv = ws
  | REDIR c f e m fd, SRedir sc k w => denotes c sc /\ text buf (f, e) = w /\ m = rmode k /\ fd = rfd k
  | PIPE l r, SPipe sl sr => denotes l sl /\ denotes r sr
  | LIST l r, SList sl sr => denotes l sl /\ denotes r sr
  | BACK c, SBack sc => denotes c sc
  | _, _ => False
  end.

Lemma denotes_wrap c sc qs : denotes c sc -> denotes (cwrap c qs) (swrap sc (prod_map id (text buf) <$> qs)).
Proof.
  revert c sc. induction qs as [|[k q] qs IH]; intros c sc Hd; [exact Hd|]. cbn. apply IH. by destruct q.
Qed.

Lemma wp_gettoken s t ts (Q : Z * (nat * nat) -> nat -> Prop) : lexes (drop s buf) (t :: ts) ->
  (forall q s', lexes (drop s' buf) ts -> (forall w, t = W w -> text buf q = w) -> Q (kind t, q) s') -> wp (gettoken buf) Q s.
Proof. intros Hl HQ. destruct (gettoken_lex buf s t ts Hl) as (q & s' & E & Hl' & Hq). unfold wp. rewrite E. auto. Qed.

Lemma wp_peek s ts toks (Q : bool -> nat -> Prop) : lexes (drop s buf) ts ->
  (forall s', lexes (drop s' buf) ts -> Q (match ts with [] => false | t :: _ => is_in toks (lead t) end) s') -> wp (peek buf toks) Q s.
Proof. intros Hl HQ. destruct (peek_lex buf s ts toks Hl) as (s' & E & Hl' & _). unfold wp. rewrite E. auto. Qed.

Lemma wp_gettoken_end s (Q : Z * (nat * nat) -> nat -> Prop) : lexes (drop s buf) [] ->
  (forall q s', lexes (drop s' buf) [] -> Q (0, q) s') -> wp (gettoken buf) Q s.
Proof.
  intros Hl HQ. unfold wp, gettoken. apply skip_lex in Hl. set (s1 := skip_ws buf s) in *. cbv zeta.
  assert (char_at buf s1 = 0) as E; [|rewrite E; cbn; apply HQ; by apply skip_lex].
  inversion Hl as [l Hb E| | | |]. subst l. unfold char_at. destruct (buf !! s1) as [c|] eqn:Ec; [|done].
  rewrite (drop_S _ _ _ Ec) in Hb. apply Forall_cons in Hb as [Hb _]. rewrite (after_ws buf s c Ec) in Hb. done.
Qed.

(** ** Redirections and arguments *)

Lemma redirs_loop rs : forall fuel c s ts (Q : cmd -> nat -> Prop),
  lexes (drop s buf) (rtoks rs ++ ts) -> match ts with t :: _ => is_in (str "<>") (lead t) = false | [] => True end -> (length rs < fuel)%nat ->
  (forall qs s', prod_map id (text buf) <$> qs = rs -> lexes (drop s' buf) ts -> Q (cwrap c qs) s') ->
  wp (loop fuel (fun c =>
    b <- peek buf (str "<>") ;;
    if negb b then ret (inr c) else
    do (tok, _) <- gettoken buf ;;
    do (w, q) <- gettoken buf ;;
    if negb (w =? 97) then panic "missing file for redirection" else
    ret (inl (if tok =? 60 then REDIR c q.1 q.2 O_RDONLY 0
              else if tok =? 62 then REDIR c q.1 q.2 (Z.lor (Z.lor O_WRONLY O_CREATE) O_TRUNC) 1
              else if tok =? 43 then REDIR c q.1 q.2 (Z.lor O_WRONLY O_CREATE) 1
              else c))) c) Q s.
Proof.
  induction rs as [|[k f] rs IH]; intros fuel c s ts Q Hl Hts Hf HQ; (destruct fuel as [|fuel]; [cbn in Hf; lia|]); cbn [loop]; do 2 wp_step.
  - apply (wp_peek s ts); [exact Hl|]. intros s1 Hl1. assert ((match ts with [] => false | t :: _ => is_in (str "<>") (lead t) end) = false) as -> by (by destruct ts).
    cbn [negb]. wp_steps. by apply (HQ []).
  - apply (wp_peek s (T (rtok k) :: W f :: rtoks rs ++ ts)); [exact Hl|]. intros s1 Hl1.
    assert (is_in (str "<>") (lead (T (rtok k))) = true) as -> by (by destruct k). cbn [negb]. wp_step. apply (wp_gettoken s1 _ _ _ Hl1). intros q1 s2 Hl2 _. wp_step.
    apply (wp_gettoken s2 _ _ _ Hl2). intros q2 s3 Hl3 Hq2. cbn [kind]. change (97 =? 97) with true. cbn [negb]. wp_steps.
    assert ((if rtok k =? 60 then REDIR c q2.1 q2.2 O_RDONLY 0 else if rtok k =? 62 then REDIR c q2.1 q2.2 (Z.lor (Z.lor O_WRONLY O_CREATE) O_TRUNC) 1
      else if rtok k =? 43 then REDIR c q2.1 q2.2 (Z.lor O_WRONLY O_CREATE) 1 else c) = REDIR c q2.1 q2.2 (rmode k) (rfd k)) as -> by (by destruct k).
    apply (IH fuel _ s3 ts); [exact Hl3|exact Hts|cbn in Hf; lia|]. intros qs s' Eq Hl'. apply (HQ ((k, q2) :: qs)); [|exact Hl'].
    cbn. rewrite Eq, (Hq2 f eq_refl). done.
Qed.

Lemma parseredirs_lex rs c s ts (Q : cmd -> nat -> Prop) :
  lexes (drop s buf) (rtoks rs ++ ts) -> match ts with t :: _ => is_in (str "<>") (lead t) = false | [] => True end ->
  (forall qs s', prod_map id (text buf) <$> qs = rs -> lexes (drop s' buf) ts -> Q (cwrap c qs) s') -> wp (parseredirs buf c) Q s.
Proof.
  intros Hl Hts HQ. apply (redirs_loop rs _ c s ts); [exact Hl|exact Hts| |exact HQ]. apply lexes_length in Hl. rewrite length_app, length_drop in Hl.
  assert (length rs <= length (rtoks rs))%nat; [|lia]. unfold rtoks. clear. induction rs as [|r rs IH]; cbn; lia.
Qed.

Lemma stops_lead t ts : stops (t :: ts) -> is_in (str "<>") (lead t) = false /\ is_in (str "(") (lead t) = false.
Proof.
  cbn. intros Hs%is_in_elem. change (str "|)&;") with [124; 41; 38; 59] in Hs. rewrite !elem_of_cons, elem_of_nil in Hs.
  destruct Hs as [Hs|[Hs|[Hs|[Hs|[]]]]]; rewrite Hs; done.
Qed.

Lemma stops_redir ts : stops ts -> match ts with t :: _ => is_in (str "<>") (lead t) = false | [] => True end.
Proof. destruct ts; [done|]. intros Hs. by apply stops_lead in Hs as [? _]. Qed.

Lemma word_lead w toks : word w -> Forall (fun x => is_in symbols x = true) toks -> is_in toks (lead (W w)) = false.
Proof. intros [Hne Hw] Ht. destruct w as [|c w]; [done|]. apply Forall_cons in Hw as [[Hc _] _]. by apply word_no_symbol. Qed.

(** parseargs() stops at the end of the simple command. *)
Lemma args_stop fuel r argc s ts (Q : cmd -> nat -> Prop) : lexes (drop s buf) ts -> stops ts -> (0 < fuel)%nat ->
  (forall s', lexes (drop s' buf) ts -> Q r s') ->
  wp (loop fuel (fun '(r, argc) =>
    b <- peek buf (str "|)&;") ;;
    if b then ret (inr r) else
    do (tok, q) <- gettoken buf ;;
    if tok =? 0 then ret (inr r) else
    if negb (tok =? 97) then panic "syntax" else
    let r := add_arg q r in
    let argc := S argc in
    if (MAXARGS <=? argc)%nat then panic "too many args" else
    r <- parseredirs buf r ;;
    ret (inl (r, argc))) (r, argc)) Q s.
Proof.
  intros Hl Hs Hf HQ. destruct fuel as [|fuel]; [lia|]. apply wp_loop_exit. wp_step. apply (wp_peek s ts); [exact Hl|]. intros s1 Hl1.
  destruct ts as [|t ts]; unfold stops in Hs; [|rewrite Hs; wp_steps; by apply HQ]. wp_step. apply (wp_gettoken_end s1); [exact Hl1|].
  intros q s2 Hl2. change (0 =? 0) with true. wp_steps. by apply HQ.
Qed.

Lemma args_loop ws : forall fuel argv argc rs s ts (Q : cmd -> nat -> Prop),
  lexes (drop s buf) ((W <$> ws) ++ rtoks rs ++ ts) -> ws <> [] -> Forall word ws -> stops ts ->
  (argc + length ws < MAXARGS)%nat -> (length ws < fuel)%nat ->
  (forall args qs s', text buf <$> args = ws -> prod_map id (text buf) <$> qs = rs -> lexes (drop s' buf) ts -> Q (cwrap (EXEC (argv ++ args)) qs) s') ->
  wp (loop fuel (fun '(r, argc) =>
    b <- peek buf (str "|)&;") ;;
    if b then ret (inr r) else
    do (tok, q) <- gettoken buf ;;
    if tok =? 0 then ret (inr r) else
    if negb (tok =? 97) then panic "syntax" else
    let r := add_arg q r in
    let argc := S argc in
    if (MAXARGS <=? argc)%nat then panic "too many args" else
    r <- parseredirs buf r ;;
    ret (inl (r, argc))) (EXEC argv, argc)) Q s.
Proof.
  induction ws as [|w ws IH]; intros fuel argv argc rs s ts Q Hl Hne Hw Hst Hargc Hf HQ; [done|]. clear Hne.
  destruct fuel as [|fuel]; [cbn in Hf; lia|]. apply Forall_cons in Hw as [Hw1 Hw]. cbn [loop]. do 2 wp_step.
  apply (wp_peek s (W w :: (W <$> ws) ++ rtoks rs ++ ts)); [exact Hl|]. intros s1 Hl1. rewrite word_lead by (done || (vm_compute; repeat constructor)).
  wp_step. apply (wp_gettoken s1 _ _ _ Hl1). intros q s2 Hl2 Hq. cbn [kind]. change (97 =? 0) with false. change (97 =? 97) with true. cbn [negb]. cbv zeta.
  cbn [length] in Hargc, Hf. rewrite (proj2 (Nat.leb_gt MAXARGS (S argc))) by lia. cbn [add_arg]. wp_step. destruct ws as [|w2 ws].
  - apply (parseredirs_lex rs _ s2 ts); [exact Hl2|by apply stops_redir|]. intros qs s3 Eq Hl3. wp_steps.
    apply (args_stop fuel _ _ s3 ts); [exact Hl3|exact Hst|cbn in Hf; lia|]. intros s4 Hl4. apply (HQ [q]); [by rewrite <- (Hq w eq_refl)|done|done].
  - apply (parseredirs_lex [] _ s2 ((W <$> w2 :: ws) ++ rtoks rs ++ ts)); [exact Hl2| |].
    { apply Forall_cons in Hw as [Hw2 _]. cbn. by apply word_lead; [|vm_compute; repeat constructor]. }
    intros qs s3 Eq Hl3. assert (qs = []) as -> by (by destruct qs). wp_steps. cbn [cwrap fold_left].
    apply (IH fuel (argv ++ [q]) (S argc) rs s3 ts); [exact Hl3|done|exact Hw|exact Hst|cbn [length] in *; lia|cbn [length] in *; lia|].
    intros args qs s4 Ea Eq' Hl4. rewrite <- app_assoc. apply (HQ (q :: args)); [cbn; by rewrite Ea, (Hq w eq_refl)|done|done].
Qed.

(** A simple command, with its redirections. *)
Lemma exec_lex n ws rs s ts (Q : cmd -> nat -> Prop) :
  lexes (drop s buf) ((W <$> ws) ++ rtoks rs ++ ts) -> Forall word ws -> (length ws < MAXARGS)%nat -> stops ts ->
  (forall c s', denotes c (swrap (SExec ws) rs) -> lexes (drop s' buf) ts -> Q c s') -> wp (parseexec buf (S n)) Q s.
Proof.
  intros Hl Hw Hlen Hst HQ. cbn [parseexec]. wp_step. apply (wp_peek s _ _ _ Hl). intros s1 Hl1.
  assert (match (W <$> ws) ++ rtoks rs ++ ts with [] => false | t :: _ => is_in (str "(") (lead t) end = false) as ->.
  { destruct ws as [|w ws]; [|apply Forall_cons in Hw as [Hw _]; cbn; by apply word_lead; [|vm_compute; repeat constructor]].
    destruct rs as [|[[] f] rs]; [|done..]. destruct ts as [|t ts]; [done|]. by apply stops_lead in Hst as [_ ?]. }
  wp_step. assert (forall args qs, text buf <$> args = ws -> prod_map id (text buf) <$> qs = rs -> denotes (cwrap (EXEC args) qs) (swrap (SExec ws) rs)) as Hd.
  { intros args qs <- <-. by apply denotes_wrap. }
  assert (length ws + length rs <= length buf)%nat as Hfuel.
  { apply lexes_length in Hl1. rewrite !length_app, length_fmap, length_drop in Hl1. assert (length rs <= length (rtoks rs))%nat; [|lia].
    unfold rtoks. clear. induction rs as [|r rs IH]; cbn; lia. }
  destruct ws as [|w ws].
  - apply (parseredirs_lex rs _ s1 ts); [exact Hl1|by apply stops_redir|]. intros qs s2 Eq Hl2. apply (args_stop _ _ _ s2 ts); [exact Hl2|exact Hst|lia|].
    intros s3 Hl3. apply HQ; [by apply (Hd [] qs)|exact Hl3].
  - apply (parseredirs_lex [] _ s1 ((W <$> w :: ws) ++ rtoks rs ++ ts)); [exact Hl1| |].
    { apply Forall_cons in Hw as [Hw _]. cbn. by apply word_lead; [|vm_compute; repeat constructor]. }
    intros qs s2 Eq Hl2. assert (qs = []) as -> by (by destruct qs). cbn [cwrap fold_left].
    apply (args_loop (w :: ws) _ [] 0 rs s2 ts); [exact Hl2|done|exact Hw|exact Hst|exact Hlen|cbn [length] in *; lia|].
    intros args qs s3 Ea Eq' Hl3. apply HQ; [by apply (Hd args qs)|exact Hl3].
Qed.

(** ** Lines *)

Lemma unback c : exists k c0, c = Nat.iter k SBack c0 /\ show c 2 = show c0 1 ++ replicate k (T 38) /\ (nodes c = nodes c0 + k)%nat /\ (swf c -> swf c0).
Proof.
  assert (forall c, match c with SBack _ => False | _ => True end -> show c 2 = show c 1) as Hs by (by intros []).
  induction c as [ws|c IH r f|l IHl r IHr|l IHl r IHr|c IH];
    try (eexists 0%nat, _; split_and!; [reflexivity|rewrite Hs by done; cbn [replicate]; by rewrite app_nil_r|lia|done]).
  destruct IH as (k & c0 & E & Es & En & Hw). exists (S k), c0. split_and!; [by rewrite E| |cbn [nodes]; lia|exact Hw].
  change (show (SBack c) 2) with (show c 2 ++ [T 38]). rewrite Es, <- app_assoc. f_equal. by rewrite (replicate_S_end k).
Qed.

Definition amp_body (c : cmd) : M nat (cmd + cmd) :=
  b <- peek buf (str "&") ;;
  if b then gettoken buf ;;; ret (inl (BACK c)) else ret (inr c).

Lemma amp_loop k : forall fuel c s ts (Q : cmd -> nat -> Prop), lexes (drop s buf) (replicate k (T 38) ++ ts) ->
  match ts with t :: _ => is_in (str "&") (lead t) = false | [] => True end -> (k < fuel)%nat ->
  (forall s', lexes (drop s' buf) ts -> Q (Nat.iter k BACK c) s') -> wp (loop fuel amp_body c) Q s.
Proof.
  induction k as [|k IH]; intros fuel c s ts Q Hl Hts Hf HQ; (destruct fuel as [|fuel]; [lia|]); cbn [loop]; wp_step; unfold amp_body at 1; wp_step.
  - apply (wp_peek s ts); [exact Hl|]. intros s1 Hl1. assert (match ts with [] => false | t :: _ => is_in (str "&") (lead t) end = false) as -> by (by destruct ts).
    wp_steps. by apply HQ.
  - apply (wp_peek s _ _ _ Hl). intros s1 Hl1. cbn [replicate app]. change (is_in (str "&") (lead (T 38))) with true. do 2 wp_step.
    apply (wp_gettoken s1 _ _ _ Hl1). intros q s2 Hl2 _. wp_steps. apply (IH fuel _ s2 ts); [exact Hl2|exact Hts|lia|]. intros s3 Hl3.
    rewrite Nat.iter_swap. by apply HQ.
Qed.

(** What may follow a line, and a pipeline. *)
Definition closes (ts : list tok) : Prop := match ts with [] => True | t :: _ => t = T 41 end.
Definition ends (ts : list tok) : Prop := match ts with [] => True | t :: _ => t = T 41 \/ t = T 38 \/ t = T 59 end.

(** The extra depth of a command that is written in parentheses. *)
Definition eslack (sc : scmd) : nat := match sc with SExec _ | SRedir _ _ _ => 0 | _ => 4 end.
Definition pslack (sc : scmd) : nat := match sc with SList _ _ | SBack _ => 4 | _ => 0 end.

Definition line_ok (sc : scmd) : Prop := forall n s ts (Q : cmd -> nat -> Prop), (5 * nodes sc + 4 <= n)%nat -> swf sc ->
  lexes (drop s buf) (show sc 3 ++ ts) -> closes ts -> (forall c s', denotes c sc -> lexes (drop s' buf) ts -> Q c s') -> wp (parseline buf n) Q s.
Definition pipe_ok (sc : scmd) : Prop := forall n s ts (Q : cmd -> nat -> Prop), (5 * nodes sc + 3 + pslack sc <= n)%nat -> swf sc ->
  lexes (drop s buf) (show sc 1 ++ ts) -> ends ts -> (forall c s', denotes c sc -> lexes (drop s' buf) ts -> Q c s') -> wp (parsepipe buf n) Q s.
Definition exec_ok (sc : scmd) : Prop := forall n s ts (Q : cmd -> nat -> Prop), (5 * nodes sc + 2 + eslack sc <= n)%nat -> swf sc ->
  lexes (drop s buf) (show sc 0 ++ ts) -> stops ts -> (forall c s', denotes c sc -> lexes (drop s' buf) ts -> Q c s') -> wp (parseexec buf n) Q s.

Lemma ends_stops ts : ends ts -> stops ts /\ match ts with t :: _ => is_in (str "|") (lead t) = false | [] => True end.
Proof. destruct ts as [|t ts]; [done|]. intros [->|[->| ->]]; done. Qed.

(** A command in parentheses, with redirections. *)
Lemma block_lex c0 rs n s ts (Q : cmd -> nat -> Prop) : line_ok c0 -> swf c0 -> (5 * nodes c0 + 6 <= n)%nat ->
  lexes (drop s buf) (T 40 :: (show c0 3 ++ [T 41]) ++ rtoks rs ++ ts) -> stops ts ->
  (forall c s', denotes c (swrap c0 rs) -> lexes (drop s' buf) ts -> Q c s') -> wp (parseexec buf n) Q s.
Proof.
  intros HL Hw Hn Hl Hst HQ. destruct n as [|[|n]]; [lia..|]. cbn [parseexec]. wp_step. apply (wp_peek s _ _ _ Hl). intros s1 Hl1.
  change (is_in (str "(") (lead (T 40))) with true. cbn [parseblock]. wp_step. apply (wp_peek s1 _ _ _ Hl1). intros s2 Hl2.
  change (is_in (str "(") (lead (T 40))) with true. cbn [negb]. wp_step. apply (wp_gettoken s2 _ _ _ Hl2). intros q s3 Hl3 _. wp_step.
  rewrite <- app_assoc in Hl3. apply (HL n s3 _ _ ltac:(lia) Hw Hl3); [done|]. intros c s4 Hd Hl4. wp_step. apply (wp_peek s4 _ _ _ Hl4). intros s5 Hl5.
  change (match [T 41] ++ rtoks rs ++ ts with [] => false | t :: _ => is_in (str ")") (lead t) end) with true. cbn [negb]. wp_step.
  apply (wp_gettoken s5 _ _ _ Hl5). intros q' s6 Hl6 _. apply (parseredirs_lex rs c s6 ts); [exact Hl6|by apply stops_redir|].
  intros qs s7 <- Hl7. apply HQ; [by apply denotes_wrap|exact Hl7].
Qed.

Lemma exec_all sc : (forall c, (nodes c < nodes sc)%nat -> line_ok c) ->
  match sc with SExec _ | SRedir _ _ _ => True | _ => line_ok sc end -> exec_ok sc.
Proof.
  intros IH HL n s ts Q Hn Hw Hl Hst HQ. destruct (unwrap_redirs sc) as (c0 & rs & E & Es & En & Hwf & Hc0). destruct (Hwf Hw) as [Hw0 _].
  rewrite Es, <- app_assoc in Hl. subst sc.
  assert (line_ok c0 -> show c0 0 = T 40 :: show c0 3 ++ [T 41] -> eslack c0 = 4%nat -> wp (parseexec buf n) Q s) as Hblock.
  { intros HL0 E0 Es0. rewrite E0 in Hl. apply (block_lex c0 rs n s ts); [done|done| |done..]. rewrite En in Hn.
    destruct rs as [|r rs]; [|cbn [length] in Hn; lia]. cbn [swrap fold_left length] in Hn. lia. }
  assert (match c0 with SExec _ => True | _ => line_ok c0 end) as HL0.
  { destruct rs as [|r rs]; [by destruct c0|]. assert (line_ok c0) by (apply IH; rewrite En; cbn; lia). by destruct c0. }
  destruct c0 as [ws| | | |]; [|done|by apply Hblock..]. destruct n as [|n]; [lia|]. destruct Hw0. by apply (exec_lex n ws rs s ts).
Qed.

Lemma pipe_all sc : match sc with SPipe _ _ => True | _ => exec_ok sc end -> (forall c, (nodes c < nodes sc)%nat -> exec_ok c /\ pipe_ok c) -> pipe_ok sc.
Proof.
  intros HE IH n s ts Q Hn Hw Hl He HQ. destruct n as [|n]; [lia|]. destruct (ends_stops ts He) as [Hst Hbar].
  assert (exec_ok sc -> show sc 1 = show sc 0 -> eslack sc = pslack sc -> wp (parsepipe buf (S n)) Q s) as Hone.
  { clear HE. intros HE E Es. rewrite E in Hl. cbn [parsepipe]. wp_step. apply (HE n s ts _ ltac:(lia) Hw Hl Hst). intros c s1 Hd Hl1. wp_step.
    apply (wp_peek s1 ts); [exact Hl1|]. intros s2 Hl2. assert (match ts with [] => false | t :: _ => is_in (str "|") (lead t) end = false) as -> by (by destruct ts).
    wp_steps. by apply HQ. }
  destruct sc as [ws|c r f|l r|l r|c]; try (by apply Hone). destruct Hw as [Hwl Hwr]. cbn [nodes pslack] in *.
  assert (eslack l <= 4 /\ pslack r <= 4)%nat as [? ?] by (by destruct l, r; cbn; split; lia).
  change (show (SPipe l r) 1) with (show l 0 ++ T 124 :: show r 1) in Hl. rewrite <- app_assoc in Hl. cbn [app] in Hl. cbn [parsepipe]. wp_step.
  destruct (IH l ltac:(lia)) as [HEl _]. destruct (IH r ltac:(lia)) as [_ HPr].
  apply (HEl n s _ _ ltac:(lia) Hwl Hl); [done|]. intros c s1 Hd Hl1. wp_step. apply (wp_peek s1 _ _ _ Hl1). intros s2 Hl2.
  change (is_in (str "|") (lead (T 124))) with true. do 2 wp_step. apply (wp_gettoken s2 _ _ _ Hl2). intros q s3 Hl3 _. wp_step.
  apply (HPr n s3 ts _ ltac:(lia) Hwr Hl3 He). intros c' s4 Hd' Hl4. wp_steps. apply HQ; [by split|exact Hl4].
Qed.

Lemma back_lex l n s ts (Q : cmd -> nat -> Prop) : (forall c0 k, l = Nat.iter k SBack c0 -> show l 2 = show c0 1 ++ replicate k (T 38) ->
    pipe_ok c0 /\ (5 * nodes c0 + 3 + pslack c0 <= n)%nat) -> swf l -> lexes (drop s buf) (show l 2 ++ ts) ->
  match ts with [] => True | t :: _ => t = T 41 \/ t = T 59 end -> (forall c s', denotes c l -> lexes (drop s' buf) ts -> Q c s') ->
  wp (parsepipe buf n) (fun c => wp (loop (S (length buf)) amp_body c) Q) s.
Proof.
  intros HP Hw Hl Hts HQ. destruct (unback l) as (k & c0 & E & Es & En & Hwf). destruct (HP c0 k E Es) as [HP0 Hn]. rewrite Es, <- app_assoc in Hl.
  assert (k <= length buf)%nat as Hk. { apply lexes_length in Hl. rewrite !length_app, length_replicate, length_drop in Hl. lia. }
  assert (ends (replicate k (T 38) ++ ts)) as He by (destruct k; cbn; [destruct ts as [|t ts]; [done|]; cbn; tauto|auto]).
  apply (HP0 n s _ _ Hn (Hwf Hw) Hl He). intros c s1 Hd Hl1. apply (amp_loop k _ c s1 ts); [exact Hl1|destruct ts as [|t ts]; [done|by destruct Hts as [->| ->]]|lia|].
  intros s2 Hl2. apply HQ; [|exact Hl2]. rewrite E. clear -Hd. induction k as [|k IH]; [exact Hd|]. exact IH.
Qed.

Lemma iter_nodes k c : nodes (Nat.iter k SBack c) = (nodes c + k)%nat.
Proof. induction k as [|k IH]; [cbn; lia|]. change (S (nodes (Nat.iter k SBack c)) = (nodes c + S k)%nat). lia. Qed.

Lemma line_all sc : (forall c, (nodes c < nodes sc)%nat -> line_ok c /\ exec_ok c /\ pipe_ok c) -> line_ok sc.
Proof.
  intros IH n s ts Q Hn Hw Hl Hc HQ. destruct n as [|n]; [lia|].
  assert (forall c : scmd, (nodes c < nodes sc)%nat -> pipe_ok c /\ (5 * nodes c + 3 + pslack c <= 5 * nodes c + 7)%nat) as Hsub.
  { intros c Hlt. split; [by apply IH|]. assert (pslack c <= 4)%nat by (destruct c; cbn; lia). lia. }
  assert (show sc 3 = show sc 2 -> wp (parseline buf (S n)) Q s) as Hone.
  { intros E. rewrite E in Hl. cbn [parseline]. wp_step.
    apply wp_mono with (P := fun c => wp (loop (S (length buf)) amp_body c) (fun c s' => denotes c sc /\ lexes (drop s' buf) ts)).
    - apply (back_lex sc n s ts); [|exact Hw|exact Hl|destruct ts; [done|by left]|done]. intros c0 [|k] E0 Es.
      + cbn in E0. subst c0. cbn [replicate] in Es. rewrite app_nil_r in Es.
        assert (match sc with SList _ _ | SBack _ => False | _ => True end) as Hop.
        { destruct sc; [done..| |]; [apply (f_equal length) in E|apply (f_equal length) in Es]; cbn [show paren Nat.ltb Nat.leb length] in *; rewrite ?length_app in *; cbn [length] in *; lia. }
        split; [|destruct sc; cbn [pslack]; lia || done]. apply pipe_all; [|intros c Hlt; by apply IH].
        by destruct sc; try done; apply exec_all; [intros c' Hlt; by apply IH| |intros c' Hlt; by apply IH|].
      + assert (nodes sc = nodes c0 + S k)%nat as En by (rewrite E0; apply iter_nodes). destruct (Hsub c0 ltac:(lia)). split; [done|lia].
    - intros c s1 Hloop. wp_step. eapply wp_mono; [exact Hloop|]. intros c' s2 [Hd Hl2]. wp_step. apply (wp_peek s2 ts); [exact Hl2|].
      intros s3 Hl3. assert (match ts with [] => false | t :: _ => is_in (str ";") (lead t) end = false) as -> by (destruct ts; [done|by rewrite Hc]).
      wp_steps. by apply HQ. }
  destruct sc as [ws|c r f|l r|l r|c]; try (by apply Hone). clear Hone. destruct Hw as [Hwl Hwr]. cbn [nodes] in *.
  change (show (SList l r) 3) with (show l 2 ++ T 59 :: show r 3) in Hl. rewrite <- app_assoc in Hl. cbn [app] in Hl. cbn [parseline]. wp_step.
  apply wp_mono with (P := fun c => wp (loop (S (length buf)) amp_body c) (fun c s' => denotes c l /\ lexes (drop s' buf) (T 59 :: show r 3 ++ ts))).
  - apply (back_lex l n s (T 59 :: show r 3 ++ ts)); [|exact Hwl|exact Hl|by right|done]. intros c0 k E0 Es.
    assert (nodes l = nodes c0 + k)%nat as En by (rewrite E0; apply iter_nodes). destruct (Hsub c0 ltac:(lia)). split; [done|lia].
  - intros c s1 Hloop. wp_step. eapply wp_mono; [exact Hloop|]. intros c' s2 [Hd Hl2]. wp_step. apply (wp_peek s2 _ _ _ Hl2).
    intros s3 Hl3. change (is_in (str ";") (lead (T 59))) with true. do 2 wp_step. apply (wp_gettoken s3 _ _ _ Hl3). intros q s4 Hl4 _. wp_step.
    apply (proj1 (IH r ltac:(lia)) n s4 ts _ ltac:(lia) Hwr Hl4 Hc). intros c2 s5 Hd2 Hl5. wp_steps. apply HQ; [by split|exact Hl5].
Qed.

Lemma parse_all sc : line_ok sc /\ exec_ok sc /\ pipe_ok sc.
Proof.
  induction (nodes sc) as [m IH] eqn:Em using (well_founded_induction lt_wf) in sc |- *. subst m.
  assert (forall c, (nodes c < nodes sc)%nat -> line_ok c /\ exec_ok c /\ pipe_ok c) as IH' by (intros c Hlt; by apply (IH (nodes c))).
  pose proof (line_all sc IH') as HL. assert (exec_ok sc) as HE by (apply exec_all; [intros c Hlt; by apply IH'|by destruct sc]).
  split_and!; [exact HL|exact HE|]. apply pipe_all; [by destruct sc|]. intros c Hlt. split; by apply IH'.
Qed.
End parser.

Lemma parsecmd_denotes (sc : scmd) (buf : list Z) : swf sc -> lexes buf (show sc 3) ->
  wp (parsecmd buf) (fun r _ => denotes buf r.1 sc) 0%nat.
Proof.
  intros Hw Hl. unfold parsecmd. wp_step. assert (length (show sc 3) <= length buf)%nat as Hlen by (by apply lexes_length).
  pose proof (show_nodes sc 3) as Hnodes. set (n := (5 * length buf + 5)%nat).
  assert (wp (parseline buf n) (fun c s => denotes buf c sc /\ lexes (drop s buf) []) 0%nat) as Hp.
  { apply (proj1 (parse_all buf sc) n 0%nat [] _ ltac:(unfold n; lia) Hw); [by rewrite app_nil_r, drop_0|done|]. auto. }
  apply wp_ok in Hp as (c & s & E & Hd & Hl1). pose proof (proj1 (parse_total buf n) 0%nat ltac:(lia) ltac:(unfold deep, n; lia)) as Ht.
  unfold pwp in Ht. rewrite E in Ht. destruct Ht as [Hs _]. unfold wp at 1. rewrite E. wp_step. unfold wp at 1, peek. do 2 wp_step.
  assert (skip_ws buf s = length buf) as ->; [|rewrite Nat.eqb_refl; cbn [negb]; wp_steps; exact Hd].
  pose proof (skip_ws_bounds buf s ltac:(lia)) as Hb. apply skip_lex in Hl1. destruct (buf !! skip_ws buf s) as [x|] eqn:Ex; [|apply lookup_ge_None in Ex; lia].
  inversion Hl1 as [l Hbl El| | | |]. subst l. rewrite (drop_S _ _ _ Ex) in Hbl. apply Forall_cons in Hbl as [Hx _]. rewrite (after_ws buf s x Ex) in Hx. done.
Qed.

(** C25: writing a command down and parsing it: any line that consists of the tokens
    of the command, with any blanks between them, parses to the command. *)
Theorem parse_roundtrip (sc : scmd) (buf : list Z) : swf sc -> lexes buf (show sc 3) ->
  wp (parsecmd buf) (fun r _ => denotes buf r.1 sc) 0%nat.
Proof. apply parsecmd_denotes. Qed.

(** (ls ;wc)>f *)
Lemma parse_roundtrip_witness :
  let sc := SRedir (SList (SExec [str "ls"]) (SExec [str "wc"])) Rout (str "f") in
  let buf := str "(ls ;wc)>f" in
  wp (parsecmd buf) (fun r _ => denotes buf r.1 sc) 0%nat.
Proof.
  assert (word (str "ls") /\ word (str "wc") /\ word (str "f")) as (H1 & H2 & H3).
  { split_and!; (split; [done|]); repeat constructor; discriminate. }
  intros sc buf. apply (parse_roundtrip sc buf).
  - split; [|exact H3]. split; (split; [by apply Forall_singleton|vm_compute; lia]).
  - apply (lex_sym [] 40 (str "ls ;wc)>f")); [constructor|reflexivity|].
    apply (lex_word [] (str "ls") (str " ;wc)>f")); [constructor|exact H1|reflexivity|].
    apply (lex_sym [32] 59 (str "wc)>f")); [repeat constructor|reflexivity|].
    apply (lex_word [] (str "wc") (str ")>f")); [constructor|exact H2|reflexivity|].
    apply (lex_sym [] 41 (str ">f")); [constructor|reflexivity|].
    apply (lex_gt [] (str "f")); [constructor|discriminate|].
    apply (lex_word [] (str "f") []); [constructor|exact H3|done|]. apply lex_nil. constructor.
Defined.
