(* ===== verification/ShRun.v ===== *)
(** * user/sh.c: what runcmd() connects. *)

From S2P Require Import Prelude Mem Ulib Exec Sh.

(** The programs of a command and the descriptors 0, 1 and 2 they are to have,
    when the command runs with [i] and [o]; the pipes are numbered from [n].
    Every other descriptor of a program is closed. *)
Fixpoint plan (line : list Z) (c : cmd) (i o e : ofile) (n : nat) : nat * list (list (list Z) * list (option ofile)) :=
  match c with
  | EXEC [] => (n, [])
  | EXEC argv => (n, [((fun q => string_at line q.1) <$> argv, [Some i; Some o; Some e] ++ replicate 13 None)])
  | REDIR c file _ mode fd =>
      let f := Opened (string_at line file) mode in
      if fd =? 0 then plan line c f o e n else plan line c i f e n
  | PIPE l r =>
      let '(n1, pl) := plan line l i (WriteEnd n) e (S n) in
      let '(n2, pr) := plan line r (ReadEnd n) o e n1 in
      (n2, pl ++ pr)
  | LIST l r =>
      let '(n1, pl) := plan line l i o e n in
      let '(n2, pr) := plan line r i o e n1 in
      (n2, pl ++ pr)
  | BACK c => plan line c i o e n
  end.

(** The redirections are of descriptor 0 or 1, as the parser makes them. *)
Fixpoint redirs_ok (c : cmd) : Prop :=
  match c with
  | EXEC _ => True
  | REDIR c _ _ _ fd => (fd = 0 \/ fd = 1) /\ redirs_ok c
  | PIPE l r | LIST l r => redirs_ok l /\ redirs_ok r
  | BACK c => redirs_ok c
  end.

Section run_spec.
Context `{Grants}.
Hypothesis open_ok : forall p m, can_open p m = true.
Hypothesis fork_ok : forall k, can_fork k = true.
Hypothesis exec_ok : forall p, can_exec p = true.

Definition std (i o e : ofile) : list (option ofile) := [Some i; Some o; Some e] ++ replicate 13 None.

(** The descriptors after the calls runcmd() makes. *)
Lemma redirect s i o e p m fd : sh_fds s = std i o e -> fd = 0 \/ fd = 1 ->
  open p m (close (Z.to_nat fd) s) = Some (Z.to_nat fd, with_fds (if fd =? 0 then std (Opened p m) o e else std i (Opened p m) e) s).
Proof. destruct s as [fds np nf st]. cbn. intros -> Hfd. unfold open. rewrite open_ok. by destruct Hfd as [-> | ->]. Qed.

Lemma pipe_fds s i o e : sh_fds s = std i o e ->
  pipe s = Some (3%nat, 4%nat, mkShst ([Some i; Some o; Some e; Some (ReadEnd (sh_pipes s)); Some (WriteEnd (sh_pipes s))] ++ replicate 11 None)
                   (S (sh_pipes s)) (sh_forks s) (sh_started s)).
Proof. destruct s as [fds np nf st]. cbn. by intros ->. Qed.

Lemma fork1_ok child s : fork1 child s =
  Some (with_fds (sh_fds s) (child (mkShst (sh_fds s) (sh_pipes s) (S (sh_forks s)) (sh_started s)))).
Proof. unfold fork1. by rewrite fork_ok. Qed.

Lemma runcmd_spec line c : forall s i o e, redirs_ok c -> sh_fds s = std i o e ->
  sh_pipes (runcmd line c s) = (plan line c i o e (sh_pipes s)).1 /\
  sh_started (runcmd line c s) = sh_started s ++ (plan line c i o e (sh_pipes s)).2.
Proof.
  induction c as [argv|c IH f e' m fd|l IHl r IHr|l IHl r IHr|c IH]; intros s i o e Hr Hs; cbn [runcmd plan redirs_ok] in *.
  - destruct argv as [|a argv]; [by rewrite app_nil_r|]. rewrite exec_ok. cbn. by rewrite Hs.
  - destruct Hr as [Hfd Hr]. rewrite (redirect s i o e _ m fd Hs Hfd). cbv zeta iota.
    destruct Hfd as [-> | ->]; [change (0 =? 0) with true|change (1 =? 0) with false]; cbv iota; apply (IH (with_fds _ s) _ _ e Hr); reflexivity.
  - destruct Hr as [Hl Hr]. rewrite (pipe_fds s i o e Hs), fork1_ok, fork1_ok. cbv iota. cbn [sh_fds sh_pipes sh_forks sh_started with_fds].
    set (sl := close 4 (close 3 (dup 4 _))). destruct (IHl sl i (WriteEnd (sh_pipes s)) e Hl eq_refl) as [Pl Sl].
    change (sh_pipes sl) with (S (sh_pipes s)) in Pl, Sl. change (sh_started sl) with (sh_started s) in Sl.
    destruct (plan line l i (WriteEnd (sh_pipes s)) e (S (sh_pipes s))) as [n1 pl]. cbn [fst snd] in Pl, Sl.
    set (sr := close 4 (close 3 (dup 3 _))). destruct (IHr sr (ReadEnd (sh_pipes s)) o e Hr eq_refl) as [Pr Sr].
    change (sh_pipes sr) with (sh_pipes (runcmd line l sl)) in Pr, Sr. change (sh_started sr) with (sh_started (runcmd line l sl)) in Sr. rewrite Pl in Pr, Sr. rewrite Sl in Sr.
    destruct (plan line r (ReadEnd (sh_pipes s)) o e n1) as [n2 pr]. cbn [fst snd] in *. rewrite app_assoc. split; [exact Pr|exact Sr].
  - destruct Hr as [Hl Hr]. rewrite fork1_ok. cbv iota. set (sl := mkShst _ _ (S (sh_forks s)) _). destruct (IHl sl i o e Hl Hs) as [Pl Sl].
    change (sh_pipes sl) with (sh_pipes s) in Pl, Sl. change (sh_started sl) with (sh_started s) in Sl.
    destruct (plan line l i o e (sh_pipes s)) as [n1 pl]. cbn [fst snd] in Pl, Sl.
    destruct (IHr (with_fds (sh_fds s) (runcmd line l sl)) i o e Hr Hs) as [Pr Sr]. cbn [with_fds sh_pipes sh_started] in Pr, Sr.
    rewrite Pl in Pr, Sr. rewrite Sl in Sr. destruct (plan line r i o e n1) as [n2 pr]. cbn [fst snd] in *. rewrite app_assoc. split; [exact Pr|exact Sr].
  - rewrite fork1_ok. cbv iota. cbn [with_fds sh_pipes sh_started]. apply (IH (mkShst _ _ (S (sh_forks s)) _) i o e Hr Hs).
Qed.
End run_spec.

(** When the kernel grants every call, runcmd() starts exactly the programs of
    the command, each with the standard input, output and error the command
    asks for: files for redirections and the ends of one fresh pipe for the two
    sides of a bar.  No other descriptor of a program is open, so that the end of
    a pipe is seen when its writers have exited. *)
Theorem runcmd_correct `{Grants} (line : list Z) (c : cmd) (s : shst) (i o e : ofile) :
  (forall p m, can_open p m = true) -> (forall k, can_fork k = true) -> (forall p, can_exec p = true) ->
  redirs_ok c -> sh_fds s = std i o e ->
  sh_started (runcmd line c s) = sh_started s ++ (plan line c i o e (sh_pipes s)).2.
Proof. intros Ho Hf He Hr Hs. by apply runcmd_spec. Qed.

(** cat < a | wc > b *)
Lemma runcmd_correct_witness :
  let G : Grants := {| can_open _ _ := true; can_fork _ := true; can_exec _ := true; can_chdir _ := true |} in
  let line := str "cat" ++ [0] ++ str "a" ++ [0] ++ str "wc" ++ [0] ++ str "b" ++ [0] in
  let c := PIPE (REDIR (EXEC [(0, 3)%nat]) 4 5 0 0) (REDIR (EXEC [(6, 8)%nat]) 9 10 1537 1) in
  let s := mkShst (std (Inherited 0) (Inherited 1) (Inherited 2)) 0 0 [] in
  sh_started (@runcmd G line c s) =
    [([str "cat"], std (Opened (str "a") 0) (WriteEnd 0) (Inherited 2));
     ([str "wc"], std (ReadEnd 0) (Opened (str "b") 1537) (Inherited 2))].
Proof.
  intros G line c s. rewrite (@runcmd_correct G line c s (Inherited 0) (Inherited 1) (Inherited 2)); [|done..| |done].
  - vm_compute. reflexivity.
  - cbn. auto.
Defined.
