(* ===== verification/ShMain.v ===== *)
(** * user/sh.c: main(), and the shell from its input to the programs it starts.

    main() reads lines from descriptor 0 through gets() and runs each in a child,
    except for cd, which it does itself.  The programs it starts are given by the
    descriptors they get; what they read and write themselves is not part of the
    model. *)

From S2P Require Import Prelude Params Mem Exec.
From S2P Require Import Sh ShSpec ShParse ShRun.
From S2P Require Import UProg UPrintf Ulib.

(** The shell: its descriptors and programs, and the directories it went to. *)
Record shell := mkShell { sm_st : shst; sm_dirs : list (list Z) }.

Section main.
Context `{Os} `{Grants}.

(** The value returned and the string in [buf]. *)
Definition getcmd (nbuf : Z) : U (Z * list Z) :=
  write 2 (str "$ ") ;;;
  buf <- Ulib.gets nbuf ;;
  ret (if chr buf =? 0 then -1 else 0, cstring buf).

(** The loop that opens the console until three descriptors are open; it ends at
    the fourth descriptor at the latest. *)
Fixpoint open_console (n : nat) (s : shst) : shst :=
  match n with
  | O => s
  | S n =>
      match Sh.open (str "console") O_RDWR s with
      | None => s
      | Some (fd, s) => if (3 <=? fd)%nat then Sh.close fd s else open_console n s
      end
  end.

(** A line other than cd: [None] when fork() fails and the shell exits. *)
Definition run_line (buf : list Z) (s : shst) : option shst :=
  fork1 (fun s =>
    match parsecmd buf 0%nat with
    | Ok (c, line) _ => runcmd line c s
    | _ => s
    end) s.

(** The result is the state in which main() calls exit(0). *)
Definition sh_main (fuel : nat) (s : shell) : U shell :=
  loop fuel (fun s =>
    do (r, buf) <- getcmd 100 ;;
    if r <? 0 then ret (inr s) else
    if bool_decide (take 3 buf = str "cd ") then
      let path := drop 3 (removelast buf) in
      if can_chdir path then ret (inl (mkShell (sm_st s) (sm_dirs s ++ [path])))
      else fprintf 2 (str "cannot cd %s" ++ [10]) [Vstr (Some path)] ;;; ret (inl s)
    else
      match run_line buf (sm_st s) with
      | None => fprintf 2 (str "fork" ++ [10]) [] ;;; exit 1
      | Some st => ret (inl (mkShell st (sm_dirs s)))
      end) (mkShell (open_console 4 (sm_st s)) (sm_dirs s)).
End main.

(** ** What the shell is asked to do *)

(** The programs of an abstract command and their standard descriptors. *)
Fixpoint splan (c : scmd) (i o e : ofile) (n : nat) : nat * list (list (list Z) * list (option ofile)) :=
  match c with
  | SExec [] => (n, [])
  | SExec argv => (n, [(argv, std i o e)])
  | SRedir c k f => match k with Rin => splan c (Opened f (rmode k)) o e n | _ => splan c i (Opened f (rmode k)) e n end
  | SPipe l r =>
      let '(n1, pl) := splan l i (WriteEnd n) e (S n) in
      let '(n2, pr) := splan r (ReadEnd n) o e n1 in
      (n2, pl ++ pr)
  | SList l r =>
      let '(n1, pl) := splan l i o e n in
      let '(n2, pr) := splan r i o e n1 in
      (n2, pl ++ pr)
  | SBack c => splan c i o e n
  end.

(** A line of input: a command in some spacing, or cd. *)
Inductive sline : Type := Run (text : list Z) (c : scmd) | Cd (path : list Z).

Definition line_text (l : sline) : list Z := match l with Run t _ => t | Cd p => str "cd " ++ p end.

Definition sline_ok (l : sline) : Prop :=
  0 ∉ line_text l /\ 10 ∉ line_text l /\ 13 ∉ line_text l /\ (length (line_text l) < 99)%nat /\
  match l with
  | Run t c => swf c /\ lexes (t ++ [10]) (show c 3) /\ take 3 t <> str "cd "
  | Cd _ => True
  end.

Fixpoint session (ls : list sline) (i o e : ofile) (n : nat) : list (list (list Z) * list (option ofile)) :=
  match ls with
  | [] => []
  | Run _ c :: ls => let '(n, ps) := splan c i o e n in ps ++ session ls i o e n
  | Cd _ :: ls => session ls i o e n
  end.
Definition dirs (ls : list sline) : list (list Z) := omap (fun l => match l with Cd p => Some p | _ => None end) ls.

(** A parsed command is planned as the command written. *)
Lemma plan_denotes buf line c : forall sc i o e n, denotes buf c sc ->
  (forall q, q ∈ strings c -> string_at line q.1 = text buf q) ->
  redirs_ok c /\ plan line c i o e n = splan sc i o e n.
Proof.
  induction c as [argv|c IH f e' m fd|l IHl r IHr|l IHl r IHr|c IH]; intros [ws|sc k w|sl sr|sl sr|sc] i o e n Hd Hs;
    cbn [denotes] in Hd; try done; cbn [strings] in Hs.
  - subst ws. split; [done|]. assert ((fun q => string_at line q.1) <$> argv = text buf <$> argv) as E.
    { apply list_fmap_ext. intros k q Hq. apply Hs. by eapply list_elem_of_lookup_2. }
    destruct argv as [|a argv]; [done|]. cbn [plan]. rewrite E. done.
  - destruct Hd as (Hd & Hw & -> & ->). pose proof (Hs (f, e') ltac:(set_solver)) as Hf. cbn [fst] in Hf.
    assert (forall i o, redirs_ok c /\ plan line c i o e n = splan sc i o e n) as IH' by (intros; apply IH; set_solver).
    cbn [plan splan redirs_ok]. rewrite Hf, Hw. split; [split; [destruct k; auto|apply (IH' i o)]|]. destruct k; apply IH'.
  - destruct Hd as [Hl Hr]. cbn [plan splan redirs_ok].
    destruct (IHl sl i (WriteEnd n) e (S n) Hl ltac:(set_solver)) as [Rl ->]. destruct (splan sl _ _ _ _) as [n1 pl].
    destruct (IHr sr (ReadEnd n) o e n1 Hr ltac:(set_solver)) as [Rr ->]. done.
  - destruct Hd as [Hl Hr]. cbn [plan splan redirs_ok].
    destruct (IHl sl i o e n Hl ltac:(set_solver)) as [Rl ->]. destruct (splan sl _ _ _ _) as [n1 pl].
    destruct (IHr sr i o e n1 Hr ltac:(set_solver)) as [Rr ->]. done.
  - apply (IH sc i o e n Hd Hs).
Qed.

(** ** Input *)

Section input.
Context `{Streams}.

(** gets() delivers a line with its newline. *)
Lemma gets_line t rest max w (Q : list Z -> world -> Prop) X :
  10 ∉ t -> 13 ∉ t -> Z.of_nat (length t) + 1 < max -> readable (input w) 0 -> pending w 0 = t ++ 10 :: rest ->
  (forall w', pending w' 0 = rest -> still_open w w' -> Q (t ++ [10]) w') -> uwp (Ulib.gets max) Q X w.
Proof.
  intros H10 H13 Hm Hrd Hp HQ. unfold Ulib.gets.
  apply uwp_loop with (I := fun n buf w1 => still_open w w1 /\ exists t', t = buf ++ t' /\ pending w1 0 = t' ++ 10 :: rest /\ n = length t') (n := length t);
    [|by split; [|exists t]|lia].
  intros n buf w1 ([Ho1 Ho2] & t' & Et & Hp1 & ->). assert (length t = length buf + length t')%nat as Hlen by (rewrite Et; apply length_app).
  rewrite (proj2 (Z.ltb_lt _ _)) by lia. uwp_step. apply uwp_read; [lia|by apply Ho1|]. intros bs w2 Hb Hp2 Hne _ [Ho3 Ho4].
  assert (still_open w w2) as Ho by (split; auto).
  destruct bs as [|c [|c' bs]]; [exfalso; apply Hne; [lia| |done]; rewrite Hp1; by destruct t'| |cbn in Hb; lia].
  change (Z.of_nat (length [c]) <? 1) with false. cbv iota. change (chr [c]) with c. cbv zeta. rewrite Hp1 in Hp2. destruct t' as [|x t'].
  - injection Hp2 as <- Hp2. rewrite app_nil_r in Et. subst buf. change (10 =? 10) with true. cbn [orb]. uwp_steps. by apply HQ.
  - injection Hp2 as <- Hp2. rewrite (proj2 (Z.eqb_neq x 10)), (proj2 (Z.eqb_neq x 13)) by set_solver. cbn [orb]. uwp_steps.
    exists (length t'). split; [cbn; lia|]. split; [exact Ho|]. exists t'. by rewrite <- app_assoc.
Qed.

Lemma gets_eof max w (Q : list Z -> world -> Prop) X : 1 < max -> readable (input w) 0 -> pending w 0 = [] ->
  (forall w', Q [] w') -> uwp (Ulib.gets max) Q X w.
Proof.
  intros Hm Hrd Hp HQ. unfold Ulib.gets.
  apply uwp_loop with (I := fun n buf w => n = 0%nat /\ buf = [] /\ readable (input w) 0 /\ pending w 0 = []) (n := 0%nat); [|done|lia].
  intros n buf w1 (-> & -> & Hrd1 & Hp1). change (Z.of_nat (length (@nil Z)) + 1) with 1. rewrite (proj2 (Z.ltb_lt 1 max)) by lia.
  uwp_step. apply uwp_read; [lia|exact Hrd1|]. intros bs w2 Hb Hp2 _ _ _. rewrite Hp1 in Hp2. destruct bs; [|done]. uwp_steps. apply HQ.
Qed.

Lemma not_cd t : take 3 t <> str "cd " -> take 3 (t ++ [10]) <> str "cd ".
Proof. intros Ht E. apply Ht. destruct t as [|a [|b [|c t]]]; done. Qed.

(** getcmd() at a line and at the end of the input. *)
Lemma getcmd_line l rest w (Q : Z * list Z -> world -> Prop) X : sline_ok l ->
  readable (input w) 0 -> writable (input w) 2 -> pending w 0 = line_text l ++ 10 :: rest ->
  (forall w', pending w' 0 = rest -> still_open w w' -> Q (0, line_text l ++ [10]) w') -> uwp (getcmd 100) Q X w.
Proof.
  intros (Hnul & H10 & H13 & Hlen & _) Hrd Hwr Hp HQ. unfold getcmd. uwp_step. apply uwp_write; [exact Hwr|].
  intros w1 _ _ Hp1. uwp_step.
  apply (gets_line (line_text l) rest); [done..|lia|by rewrite Hp1|unfold pending; by rewrite Hp1|]. intros w2 Hp2 Ho. uwp_step.
  assert (0 ∉ line_text l ++ [10]) as Hz by set_solver.
  assert (chr (line_text l ++ [10]) =? 0 = false) as ->.
  { apply Z.eqb_neq. destruct (line_text l) as [|c t]; cbn; [done|]. set_solver. }
  assert (cstring (line_text l ++ [10]) = line_text l ++ [10]) as ->; [|apply HQ; [done|]; unfold still_open in *; by rewrite <- Hp1].
  by apply cstring_id.
Qed.
End input.

Section shell.
Context `{Streams} `{Grants}.
Hypothesis open_ok : forall p m, can_open p m = true.
Hypothesis fork_ok : forall k, can_fork k = true.
Hypothesis exec_ok : forall p, can_exec p = true.
Hypothesis chdir_ok : forall p, can_chdir p = true.

Lemma run_line_spec buf sc s i o e : 0 ∉ buf -> swf sc -> lexes buf (show sc 3) -> sh_fds s = std i o e ->
  exists s', run_line buf s = Some s' /\ sh_fds s' = std i o e /\ sh_pipes s' = (splan sc i o e (sh_pipes s)).1 /\
    sh_started s' = sh_started s ++ (splan sc i o e (sh_pipes s)).2.
Proof.
  intros Hz Hw Hl Hs. pose proof (parsecmd_denotes sc buf Hw Hl) as Hp. apply wp_ok in Hp as ([c line] & k & E & Hd).
  pose proof (parsecmd_strings buf Hz) as Ht. unfold pwp in Ht. rewrite E in Ht. cbn in Hd, Ht.
  destruct (plan_denotes buf line c sc i o e (sh_pipes s) Hd) as [Hr Hp]; [intros q Hq; by apply Ht|].
  unfold run_line. rewrite fork1_ok by exact fork_ok. eexists. split; [reflexivity|]. rewrite E. cbn. split; [exact Hs|]. rewrite <- Hp.
  by apply (runcmd_spec open_ok fork_ok exec_ok line c (mkShst (sh_fds s) (sh_pipes s) (S (sh_forks s)) (sh_started s))).
Qed.

(** Three open descriptors: the console is closed again. *)
Lemma open_console_id st i o e : sh_fds st = std i o e -> open_console 4 st = st.
Proof. destruct st as [fds np nf started]. cbn. intros ->. unfold Sh.open. rewrite open_ok. reflexivity. Qed.

End shell.

Definition session_text (ls : list sline) : list Z := concat ((fun l => line_text l ++ [10]) <$> ls).

(** C24: the shell from its input to the programs it starts.  When the kernel grants
    every call and the input consists of lines that write down commands, in any
    spacing and however the reads cut the input, main() reads it to the end and has
    started exactly the programs of the commands in order, each with the standard
    input, output and error the command asks for and no other descriptor open, and
    has changed to the directories of the cd lines. *)
Theorem shell_correct `{Streams} `{Grants} (ls : list sline) (s : shell) (i o e : ofile) (fuel : nat) (w : world) :
  (forall p m, can_open p m = true) -> (forall k, can_fork k = true) -> (forall p, can_exec p = true) ->
  (forall p, can_chdir p = true) ->
  readable (input w) 0 -> writable (input w) 2 -> Forall sline_ok ls -> pending w 0 = session_text ls -> sh_fds (sm_st s) = std i o e -> (length ls < fuel)%nat ->
  uwp (sh_main fuel s) (fun s' _ =>
    sh_started (sm_st s') = sh_started (sm_st s) ++ session ls i o e (sh_pipes (sm_st s)) /\
    sm_dirs s' = sm_dirs s ++ dirs ls) (fun _ _ => False) w.
Proof.
  intros Ho Hf He Hc Hrd Hwr Hls Hp Hs Hfuel. unfold sh_main.
  assert (open_console 4 (sm_st s) = sm_st s) as -> by (by apply (open_console_id Ho _ i o e)).
  apply uwp_loop with (n := length ls) (I := fun n s1 w1 => exists ls1, n = length ls1 /\ readable (input w1) 0 /\ writable (input w1) 2 /\ Forall sline_ok ls1 /\
    pending w1 0 = session_text ls1 /\ sh_fds (sm_st s1) = std i o e /\
    sh_started (sm_st s1) ++ session ls1 i o e (sh_pipes (sm_st s1)) = sh_started (sm_st s) ++ session ls i o e (sh_pipes (sm_st s)) /\
    sm_dirs s1 ++ dirs ls1 = sm_dirs s ++ dirs ls); [|by exists ls|exact Hfuel].
  intros n s1 w1 (ls1 & -> & Hrd1 & Hwr1 & Hok & Hp1 & Hs1 & Hst & Hd). destruct ls1 as [|l ls1]; uwp_step.
  - unfold getcmd. uwp_step. apply uwp_write; [exact Hwr1|]. intros w2 _ _ Hp2. uwp_step. apply gets_eof; [lia|by rewrite Hp2|unfold pending; by rewrite Hp2|]. intros w3. uwp_steps.
    change (chr [] =? 0) with true. cbv iota. change (-1 <? 0) with true. uwp_steps. rewrite !app_nil_r in Hst, Hd. done.
  - apply Forall_cons in Hok as [Hl Hok]. apply (getcmd_line l (session_text ls1)); [done..|by rewrite Hp1; cbn; rewrite <- app_assoc|].
    intros w2 Hp2 [Hro Hwo]. change (0 <? 0) with false. cbv iota. destruct Hl as (Hnul & _ & _ & _ & Hl). destruct l as [t c|p]; cbn [line_text] in *.
    + destruct Hl as (Hw & Hlex & Hcd). rewrite bool_decide_false by (by apply not_cd).
      destruct (run_line_spec Ho Hf He (t ++ [10]) c (sm_st s1) i o e) as (st & -> & Hs2 & Hn & Hst2); [set_solver|done..|].
      uwp_step. exists (length ls1). split; [cbn; lia|]. exists ls1. split_and!; try done; [by apply Hro|by apply Hwo|]. cbn [sm_st].
      rewrite Hst2, Hn, <- Hst. cbn [session]. destruct (splan c i o e (sh_pipes (sm_st s1))). by rewrite <- app_assoc.
    + change (take 3 ((str "cd " ++ p) ++ [10])) with (str "cd "). rewrite bool_decide_true by done.
      assert (drop 3 (removelast ((str "cd " ++ p) ++ [10])) = p) as -> by (by rewrite removelast_last).
      rewrite Hc. uwp_step. exists (length ls1). split; [cbn; lia|]. exists ls1. split_and!; try done; [by apply Hro|by apply Hwo|]. cbn. by rewrite <- Hd, <- app_assoc.
Qed.

(** The lines "a |b" and "cd d". *)
Lemma shell_correct_witness :
  let G : Grants := {| can_open _ _ := true; can_fork _ := true; can_exec _ := true; can_chdir _ := true |} in
  let ls := [Run (str "a |b") (SPipe (SExec [str "a"]) (SExec [str "b"])); Cd (str "d")] in
  let w : @world (stream_os 2) := ({[ 0 := session_text ls ]}, ∅) in
  let s := mkShell (mkShst (std (Inherited 0) (Inherited 1) (Inherited 2)) 0 0 []) [] in
  @uwp (stream_os 2) _ (@sh_main (stream_os 2) G 3 s) (fun s' _ =>
    sh_started (sm_st s') = [([str "a"], std (Inherited 0) (WriteEnd 0) (Inherited 2));
                             ([str "b"], std (ReadEnd 0) (Inherited 1) (Inherited 2))] /\
    sm_dirs s' = [str "d"]) (fun _ _ => False) w.
Proof.
  intros G ls w s.
  assert (word (str "a") /\ word (str "b")) as [Ha Hb] by (split; (split; [done|]); repeat constructor; discriminate).
  apply (@shell_correct (stream_os 2) (stream_os_ok 2) G ls s (Inherited 0) (Inherited 1) (Inherited 2) 3 w);
    [done..| |reflexivity|reflexivity|cbn; lia].
  assert (forall l, bool_decide (0 ∉ line_text l /\ 10 ∉ line_text l /\ 13 ∉ line_text l /\ (length (line_text l) < 99)%nat) = true ->
    match l with Run t c => swf c /\ lexes (t ++ [10]) (show c 3) /\ take 3 t <> str "cd " | Cd _ => True end -> sline_ok l) as Hdec
    by (intros l (A & B & C & D)%bool_decide_eq_true E; done).
  apply Forall_cons_2; [|apply Forall_singleton]; apply Hdec; [vm_compute; reflexivity|split_and!|vm_compute; reflexivity|exact I].
  - split; (split; [by apply Forall_singleton|vm_compute; lia]).
  - apply (lex_word [] (str "a") (str " |b" ++ [10])); [constructor|exact Ha|reflexivity|].
    apply (lex_sym [32] 124 (str "b" ++ [10])); [repeat constructor|reflexivity|].
    apply (lex_word [] (str "b") [10]); [constructor|exact Hb|reflexivity|]. apply lex_nil. repeat constructor.
  - done.
Defined.
