(* ===== verification/Primes.v ===== *)
(** * user/primes.c: the sieve of processes.

    One process per prime, connected by pipes.  The state is what main() has
    still to write and the stages in the order of the pipes; a step is a step of
    any one process, so that the theorem covers every interleaving.  A stage's
    pipe is a queue of ints: an int is written and read whole, and at most 34
    are in flight, which a pipe holds, so no write() blocks.  pipe() and fork()
    succeed, the case the program does not test for. *)

From S2P Require Import Prelude.

(** Where a process in primes() is: before its first read, past the fork with
    the prime still to print, in the loop, in wait(), or gone. *)
Inductive pstate : Type := First | Forked (prime : Z) | Filter (prime : Z) | Waiting | Exited.

(** A process and the pipe it reads from; [st_eof]: no write end is open. *)
Record stage := mkStage { st_queue : list Z; st_eof : bool; st_ps : pstate }.

Inductive mstate : Type := MWriting | MWaiting | MExited.

Record net := mkNet {
  n_src : list Z;          (* what main() has still to write *)
  n_main : mstate;
  n_stages : list stage;
  n_out : list Z;          (* the primes printed *)
}.

Definition push (n : Z) (s : stage) : stage := mkStage (st_queue s ++ [n]) (st_eof s) (st_ps s).
Definition shut (s : stage) : stage := mkStage (st_queue s) true (st_ps s).
Definition goto (p : pstate) (s : stage) : stage := mkStage (st_queue s) (st_eof s) p.

(** A step of process number [k], and what it prints. *)
Fixpoint stage_step (k : nat) (l : list stage) : option (list stage * list Z) :=
  match k, l with
  | S k, s :: l => '(l', out) ← stage_step k l; Some (s :: l', out)
  | O, s :: l =>
      match st_ps s with
      | First =>
          match st_queue s with
          | prime :: q => Some (mkStage q (st_eof s) (Forked prime) :: mkStage [] false First :: l, [])
          | [] => if st_eof s then Some (goto Exited s :: l, []) else None
          end
      | Forked prime => Some (goto (Filter prime) s :: l, [prime])
      | Filter prime =>
          match st_queue s, l with
          | n :: q, c :: l' =>
              let s' := mkStage q (st_eof s) (Filter prime) in
              if negb (n mod prime =? 0) then Some (s' :: push n c :: l', []) else Some (s' :: c :: l', [])
          | [], c :: l' => if st_eof s then Some (goto Waiting s :: shut c :: l', []) else None
          | _, [] => None
          end
      | Waiting =>
          match l with
          | c :: _ => match st_ps c with Exited => Some (goto Exited s :: l, []) | _ => None end
          | [] => None
          end
      | Exited => None
      end
  | _, [] => None
  end.

(** A step of main(): write the next number, close the pipe, wait, exit. *)
Definition main_step (n : net) : option net :=
  match n_main n, n_stages n with
  | MWriting, s :: l =>
      match n_src n with
      | i :: src => Some (mkNet src MWriting (push i s :: l) (n_out n))
      | [] => Some (mkNet [] MWaiting (shut s :: l) (n_out n))
      end
  | MWaiting, s :: l =>
      match st_ps s with Exited => Some (mkNet (n_src n) MExited (s :: l) (n_out n)) | _ => None end
  | _, _ => None
  end.

Inductive step : net -> net -> Prop :=
| step_main n n' : main_step n = Some n' -> step n n'
| step_stage k n l out :
    stage_step k (n_stages n) = Some (l, out) -> step n (mkNet (n_src n) (n_main n) l (n_out n ++ out)).

(** After the pipe and the first fork: for(int i = 2; i <= 35; i++). *)
Definition primes_init : net := mkNet (seqZ 2 34) MWriting [mkStage [] false First] [].

(** ** The sieve the network computes *)

Definition strike (p : Z) (l : list Z) : list Z := filter (fun n => n mod p <> 0) l.

Fixpoint sieve_loop (fuel : nat) (l : list Z) : list Z :=
  match fuel, l with
  | S fuel, p :: l => p :: sieve_loop fuel (strike p l)
  | _, _ => []
  end.
Definition sieve (l : list Z) : list Z := sieve_loop (length l) l.

(** The steps the network will make on a stream from a stage's first read on. *)
Fixpoint work_loop (fuel : nat) (l : list Z) : nat :=
  match fuel, l with
  | S fuel, p :: l => (length l + 4 + work_loop fuel (strike p l))%nat
  | _, _ => 1%nat
  end.
Definition work (l : list Z) : nat := work_loop (length l) l.

Lemma strike_length p l : (length (strike p l) <= length l)%nat.
Proof. apply length_filter. Qed.

Lemma loop_fuel f l : (length l <= f)%nat -> sieve_loop f l = sieve l /\ work_loop f l = work l.
Proof.
  unfold sieve, work. revert l. induction f as [f IH] using lt_wf_ind; intros l Hl.
  destruct l as [|p l]; [by destruct f|]. destruct f as [|f]; [cbn in Hl; lia|]. cbn in Hl |- *.
  pose proof (strike_length p l) as Hs.
  destruct (IH f ltac:(lia) (strike p l) ltac:(lia)) as [-> ->].
  destruct (IH (length l) ltac:(lia) (strike p l) ltac:(lia)) as [-> ->]. done.
Qed.

Lemma sieve_cons p l : sieve (p :: l) = p :: sieve (strike p l).
Proof. unfold sieve at 1. cbn. by rewrite (proj1 (loop_fuel _ _ (strike_length p l))). Qed.
Lemma work_cons p l : work (p :: l) = (length l + 4 + work (strike p l))%nat.
Proof. unfold work at 1. cbn. by rewrite (proj2 (loop_fuel _ _ (strike_length p l))). Qed.

Lemma strike_app p l l' : strike p (l ++ l') = strike p l ++ strike p l'.
Proof. apply filter_app. Qed.

#[local] Arguments sieve : simpl never.
#[local] Arguments work : simpl never.
#[local] Arguments strike : simpl never.

Lemma strike_cons p n l : strike p (n :: l) = if n mod p =? 0 then strike p l else n :: strike p l.
Proof. unfold strike. rewrite filter_cons. destruct (Z.eqb_spec (n mod p) 0); by case_decide. Qed.

(** ** The invariant

    [fut] is what the first stage will still be sent and [fopen] whether the
    process before it still holds the write end. *)
Fixpoint stages_ok (fut : list Z) (fopen : bool) (l : list stage) : Prop :=
  match l with
  | [] => False
  | s :: l =>
      st_eof s = negb fopen /\ (fopen = false -> fut = []) /\
      match st_ps s with
      | First => l = []
      | Forked p => l = [mkStage [] false First]
      | Filter p => stages_ok (strike p (st_queue s ++ fut)) true l
      | Waiting => st_queue s = [] /\ fopen = false /\ stages_ok [] false l
      | Exited => st_queue s = [] /\ fopen = false /\ Forall (fun s => st_ps s = Exited) l
      end
  end.

(** The primes still to be printed. *)
Fixpoint todo (fut : list Z) (l : list stage) : list Z :=
  match l with
  | [] => []
  | s :: l =>
      match st_ps s with
      | First => sieve (st_queue s ++ fut)
      | Forked p => p :: sieve (strike p (st_queue s ++ fut))
      | Filter p => todo (strike p (st_queue s ++ fut)) l
      | Waiting => todo [] l
      | Exited => []
      end
  end.

(** The steps still to be made. *)
Fixpoint steps_left (fut : list Z) (l : list stage) : nat :=
  match l with
  | [] => 0
  | s :: l =>
      match st_ps s with
      | First => work (st_queue s ++ fut)
      | Forked p => length (st_queue s ++ fut) + 3 + work (strike p (st_queue s ++ fut))
      | Filter p => length (st_queue s ++ fut) + 2 + steps_left (strike p (st_queue s ++ fut)) l
      | Waiting => 1 + steps_left [] l
      | Exited => 0
      end
  end.

Definition opened (m : mstate) : bool := match m with MWriting => true | _ => false end.

Record net_ok (all : list Z) (n : net) : Prop := {
  no_stages : stages_ok (n_src n) (opened (n_main n)) (n_stages n);
  no_out : n_out n ++ todo (n_src n) (n_stages n) = sieve all;
  no_exit : n_main n = MExited -> Forall (fun s => st_ps s = Exited) (n_stages n);
}.
Definition net_left (n : net) : nat :=
  length (n_src n) + (match n_main n with MWriting => 2 | MWaiting => 1 | MExited => 0 end)
  + steps_left (n_src n) (n_stages n).

(** Sending a number on, or closing, changes nothing downstream but the queue. *)
Lemma push_ok n fut s l :
  stages_ok (n :: fut) true (s :: l) ->
  stages_ok fut true (push n s :: l) /\ todo fut (push n s :: l) = todo (n :: fut) (s :: l) /\
  steps_left fut (push n s :: l) = steps_left (n :: fut) (s :: l).
Proof.
  destruct s as [q e ps]. cbn. rewrite <- app_assoc. cbn.
  destruct ps; cbn; naive_solver.
Qed.

Lemma shut_ok s l :
  stages_ok [] true (s :: l) ->
  stages_ok [] false (shut s :: l) /\ todo [] (shut s :: l) = todo [] (s :: l) /\
  steps_left [] (shut s :: l) = steps_left [] (s :: l).
Proof. destruct s as [q e ps]. destruct ps; cbn; naive_solver. Qed.

Lemma exited_stuck k l : Forall (fun s => st_ps s = Exited) l -> stage_step k l = None.
Proof.
  revert l. induction k as [|k IH]; intros [|s l] Hl; try done; apply Forall_cons in Hl as [Hs Hl]; cbn.
  - by rewrite Hs.
  - by rewrite (IH l Hl).
Qed.

Lemma stage_step_ok k fut fopen l l' out :
  stages_ok fut fopen l -> stage_step k l = Some (l', out) ->
  stages_ok fut fopen l' /\ out ++ todo fut l' = todo fut l /\ S (steps_left fut l') = steps_left fut l.
Proof.
  revert fut fopen l l' out. induction k as [|k IH]; intros fut fopen [|s l] l' out Hok Hs; try done.
  - destruct s as [q e ps]. destruct ps as [|p|p| |]; cbn in Hs, Hok.
    + destruct Hok as (He & Hf & ->). destruct q as [|p q].
      * destruct e; simplify_eq. destruct fopen; [done|]. rewrite (Hf eq_refl). done.
      * simplify_eq. cbn. rewrite sieve_cons, work_cons. repeat split; auto; lia.
    + simplify_eq. destruct Hok as (He & Hf & ->). cbn. repeat split; auto; first [done | lia].
    + destruct Hok as (He & Hf & Hl). destruct l as [|c l]; [by destruct q|]. destruct q as [|n q].
      * destruct e; simplify_eq. destruct fopen; [done|]. rewrite (Hf eq_refl) in *.
        destruct (shut_ok _ _ Hl) as (? & _ & _). split; [|done]. do 4 (split; [done|]). done.
      * cbn -[stages_ok] in Hl. rewrite strike_cons in Hl. destruct (n mod p =? 0) eqn:Hn; simplify_eq/=.
        -- rewrite strike_cons, Hn. auto.
        -- destruct (push_ok _ _ _ _ Hl) as (? & Ht & Hw). cbn in Ht, Hw. rewrite strike_cons, Hn, Ht, Hw. auto.
    + destruct Hok as (He & Hf & -> & -> & Hl). destruct l as [|c l]; [done|].
      destruct (st_ps c) eqn:Hc; simplify_eq. cbn in Hl |- *. rewrite Hc in *. naive_solver.
    + done.
  - cbn in Hs. apply bind_Some in Hs as ([l1 out1] & Hs & [= <- <-]).
    cbn in Hok |- *. destruct Hok as (He & Hf & Hok). destruct (st_ps s).
    + subst l. by destruct k.
    + subst l. destruct k as [|[|k]]; done.
    + destruct (IH _ _ _ _ _ Hok Hs) as (? & <- & <-). split_and!; auto; lia.
    + destruct Hok as (Hq & -> & Hok). destruct (IH _ _ _ _ _ Hok Hs) as (? & <- & <-). split_and!; auto; lia.
    + destruct Hok as (_ & _ & Hl). by rewrite (exited_stuck k l Hl) in Hs.
Qed.

Lemma step_ok all n n' : net_ok all n -> step n n' -> net_ok all n' /\ S (net_left n') = net_left n.
Proof.
  intros [Hok Ho He] Hs. destruct Hs as [n n' Hs|k n l out Hs].
  - destruct n as [src m [|s l] out]; [by destruct m|]. unfold main_step in Hs.
    cbn -[stages_ok todo shut push] in Hok, Ho, He, Hs.
    unfold net_left. destruct m; [|destruct (st_ps s) eqn:Hps; simplify_eq|done].
    + destruct src as [|i src]; injection Hs as <-.
      * destruct (shut_ok _ _ Hok) as (? & Ht & Hw).
        split; [split|]; cbn -[stages_ok todo steps_left shut]; rewrite ?Ht, ?Hw; first [done | lia].
      * destruct (push_ok _ _ _ _ Hok) as (? & Ht & Hw).
        split; [split|]; cbn -[stages_ok todo steps_left push]; rewrite ?Ht, ?Hw; first [done | lia].
    + split; [split|]; cbn -[stages_ok todo steps_left]; auto; [|lia].
      intros _. cbn in Hok. rewrite Hps in Hok. constructor; tauto.
  - destruct (stage_step_ok _ _ _ _ _ _ Hok Hs) as (? & Ht & Hw). split; [split|]; cbn; auto.
    + by rewrite <- app_assoc, Ht.
    + intros Hm. by rewrite (exited_stuck _ _ (He Hm)) in Hs.
    + unfold net_left. cbn. rewrite <- Hw. lia.
Qed.

(** A network that cannot step has printed everything. *)
Lemma stages_progress fut l :
  stages_ok fut false l -> Forall (fun s => st_ps s = Exited) l \/ exists k r, stage_step k l = Some r.
Proof.
  revert fut. induction l as [|s l IH]; intros fut Hok; [done|]. cbn in Hok. destruct Hok as (He & Hf & Hok).
  destruct (st_ps s) eqn:Hps.
  - right. exists 0%nat. cbn. rewrite Hps, He. destruct (st_queue s); eauto.
  - right. exists 0%nat. cbn. rewrite Hps. eauto.
  - right. exists 0%nat. cbn. rewrite Hps, He. destruct l as [|c l]; [done|].
    destruct (st_queue s); [|destruct (negb _)]; eauto.
  - right. destruct Hok as (_ & _ & Hok). destruct (IH _ Hok) as [Hl|(k & [l' out] & Hk)].
    + exists 0%nat. cbn. rewrite Hps. destruct l as [|c l]; [done|]. apply Forall_cons in Hl as [-> _]. eauto.
    + exists (S k). cbn. rewrite Hk. cbn. eauto.
  - left. constructor; [done|]. tauto.
Qed.

Lemma net_progress all n :
  net_ok all n -> (forall n', ~ step n n') ->
  n_out n = sieve all /\ n_main n = MExited /\ Forall (fun s => st_ps s = Exited) (n_stages n).
Proof.
  intros [Hok Ho He] Hstuck. destruct n as [src m l out]. cbn in *. destruct m; cbn in Hok.
  - destruct l as [|s l]; [done|]. exfalso. destruct src as [|i src]; eapply Hstuck, step_main; reflexivity.
  - destruct (stages_progress _ _ Hok) as [Hl|(k & [l' o] & Hk)].
    + destruct l as [|s l]; [done|]. apply Forall_cons in Hl as [Hs _].
      exfalso. eapply Hstuck, step_main. cbn. by rewrite Hs.
    + exfalso. eapply Hstuck, step_stage. exact Hk.
  - specialize (He eq_refl). split; [|done]. destruct l as [|s l]; [done|].
    apply Forall_cons in He as [Hs _]. cbn in Ho. rewrite Hs, app_nil_r in Ho. done.
Qed.

Lemma steps_ok all k n n' : net_ok all n -> nsteps step k n n' -> net_ok all n' /\ (k + net_left n')%nat = net_left n.
Proof.
  intros Hok Hs. induction Hs as [|k n n1 n' Hn Hs IH]; [done|].
  destruct (step_ok _ _ _ Hok Hn) as [Hok1 Hl]. destruct (IH Hok1). split; [done|lia].
Qed.

Lemma init_ok : net_ok (seqZ 2 34) primes_init.
Proof. split; [by repeat split|reflexivity|done]. Qed.

(** [x] has no divisor but 1 and itself. *)
Definition is_prime (x : Z) : Prop := Forall (fun d => x mod d <> 0) (seqZ 2 (x - 2)).
#[export] Instance is_prime_dec x : Decision (is_prime x).
Proof. unfold is_prime. apply _. Defined.

(** C27: in every interleaving of the processes, the primes printed so far
    are the primes up to 35 in order from 2; no run makes more than 168 steps; and a
    state in which no process can step has printed all of them, with main() and every
    process of the sieve gone: none of them is left waiting for another. *)
Theorem primes_correct k n :
  nsteps step k primes_init n ->
  n_out n `prefix_of` filter is_prime (seqZ 2 34) /\
  (k <= 168)%nat /\
  ((forall n', ~ step n n') ->
   n_out n = filter is_prime (seqZ 2 34) /\ n_main n = MExited /\
   Forall (fun s => st_ps s = Exited) (n_stages n)).
Proof.
  intros Hs. assert (sieve (seqZ 2 34) = filter is_prime (seqZ 2 34)) as Hp by (vm_compute; reflexivity).
  destruct (steps_ok (seqZ 2 34) _ _ _ init_ok Hs) as [Hok Hl]. split; [|split].
  - rewrite <- Hp, <- (no_out _ _ Hok). by apply prefix_app_r.
  - assert (net_left primes_init = 168%nat) as Hi by (vm_compute; reflexivity). lia.
  - rewrite <- Hp. apply (net_progress _ _ Hok).
Qed.

(** A schedule: at every step the first of main() and the stages that can run. *)
Fixpoint first_stage (k : nat) (n : net) : option net :=
  match k with
  | O => None
  | S k =>
      match first_stage k n with
      | Some n' => Some n'
      | None => '(l, out) ← stage_step k (n_stages n); Some (mkNet (n_src n) (n_main n) l (n_out n ++ out))
      end
  end.
Fixpoint schedule (k : nat) (n : net) : option net :=
  match k with
  | O => Some n
  | S k => n' ← match main_step n with Some n' => Some n' | None => first_stage (length (n_stages n)) n end; schedule k n'
  end.

Lemma first_stage_step k n n' : first_stage k n = Some n' -> step n n'.
Proof.
  induction k as [|k IH]; cbn; [done|]. destruct (first_stage k n) as [n1|]; [intros [= <-]; auto|].
  intros ([l out] & Hs & [= <-])%bind_Some. by eapply step_stage.
Qed.
Lemma schedule_steps k n n' : schedule k n = Some n' -> nsteps step k n n'.
Proof.
  revert n. induction k as [|k IH]; cbn; intros n; [intros [= <-]; constructor|].
  intros (n1 & Hs & Hk)%bind_Some. econstructor; [|by apply IH].
  destruct (main_step n) eqn:Hm; [simplify_eq; by apply step_main|by eapply first_stage_step].
Qed.

Lemma primes_correct_witness :
  exists n, nsteps step 168 primes_init n /\ n_out n = [2; 3; 5; 7; 11; 13; 17; 19; 23; 29; 31].
Proof.
  destruct (schedule 168 primes_init) as [n|] eqn:Hn; [|by vm_compute in Hn].
  pose proof (schedule_steps _ _ _ Hn) as Hs. exists n. split; [exact Hs|].
  destruct (primes_correct _ _ Hs) as (_ & _ & Hd). refine (proj1 (Hd _)).
  vm_compute in Hn. injection Hn as <-. intros n' Hst. inversion Hst as [? ? Hm|k ? l out Hk]; subst.
  - discriminate Hm.
  - cbn in Hk. rewrite exited_stuck in Hk by (repeat constructor). discriminate Hk.
Defined.
