(* ===== verification/UProgs.v ===== *)
(** * user/: the small programs.

    cat, wc, echo, kill, ln, mkdir, rm, sleep, ls and find over the system calls
    of [Os].  The argument vector is the list of its strings; loops that run to
    the end of a file take their bound as [fuel]. *)

From S2P Require Import Prelude Params Mem UProg Ulib UPrintf.

Section programs.
Context `{Os}.

(** A loop over the files named by the arguments, argv[1] on. *)
Definition each (args : list (list Z)) (f : list Z -> U unit) : U unit := forM args f ;;; exit 0.

(** ** cat.c *)

Definition cat (fuel : nat) (fd : Z) : U unit :=
  loop fuel (fun _ =>
    do (n, buf) <- read fd 512 ;;
    if 0 <? n then
      r <- write 1 (take (Z.to_nat n) buf) ;;
      if negb (r =? n) then fprintf 2 (str "cat: write error" ++ [10]) [] ;;; exit 1
      else ret (inl tt)
    else if n <? 0 then fprintf 2 (str "cat: read error" ++ [10]) [] ;;; exit 1
    else ret (inr tt)) tt.

Definition cat_main (fuel : nat) (argv : list (list Z)) : U unit :=
  if (length argv <=? 1)%nat then cat fuel 0 ;;; exit 0 else
  each (tail argv) (fun f =>
    fd <- open f 0 ;;
    if fd <? 0 then fprintf 2 (str "cat: cannot open %s" ++ [10]) [Vstr (Some f)] ;;; exit 1
    else cat fuel fd ;;; close fd ;;; ret tt).

(** ** wc.c *)

(** The counters of lines, words and bytes, and [inword]. *)
Record counts := mkCounts { wc_l : Z; wc_w : Z; wc_c : Z; wc_in : bool }.

Definition wc_spaces : list Z := [32; 13; 9; 10; 11].

(** The body of the loop over buf. *)
Definition wc_byte (s : counts) (b : Z) : counts :=
  let c := i32 (wc_c s + 1) in
  let l := if b =? 10 then i32 (wc_l s + 1) else wc_l s in
  match strchr wc_spaces b with
  | Some _ => mkCounts l (wc_w s) c false
  | None => if negb (wc_in s) then mkCounts l (i32 (wc_w s + 1)) c true else mkCounts l (wc_w s) c (wc_in s)
  end.

Definition wc (fuel : nat) (fd : Z) (name : list Z) : U unit :=
  s <- loop fuel (fun s =>
    do (n, buf) <- read fd 512 ;;
    if 0 <? n then ret (inl (fold_left wc_byte (take (Z.to_nat n) buf) s))
    else if n <? 0 then printf (str "wc: read error" ++ [10]) [] ;;; exit 1
    else ret (inr s)) (mkCounts 0 0 0 false) ;;
  printf (str "%d %d %d %s" ++ [10]) [Vword (wc_l s); Vword (wc_w s); Vword (wc_c s); Vstr (Some name)].

Definition wc_main (fuel : nat) (argv : list (list Z)) : U unit :=
  if (length argv <=? 1)%nat then wc fuel 0 [] ;;; exit 0 else
  each (tail argv) (fun f =>
    fd <- open f 0 ;;
    if fd <? 0 then printf (str "wc: cannot open %s" ++ [10]) [Vstr (Some f)] ;;; exit 1
    else wc fuel fd f ;;; close fd ;;; ret tt).

(** ** echo.c, kill.c, ln.c, mkdir.c, rm.c, sleep.c *)

Fixpoint echo (args : list (list Z)) : U unit :=
  match args with
  | [] => exit 0
  | a :: args =>
      write 1 a ;;;
      write 1 (if (0 <? length args)%nat then str " " else [10]) ;;;
      echo args
  end.
Definition echo_main (argv : list (list Z)) : U unit := echo (tail argv).

Definition kill_main (argv : list (list Z)) : U unit :=
  if (length argv <? 2)%nat then fprintf 2 (str "usage: kill pid..." ++ [10]) [] ;;; exit 1 else
  each (tail argv) (fun a => kill (atoi a) ;;; ret tt).

Definition ln_main (argv : list (list Z)) : U unit :=
  match argv with
  | [_; old; new] =>
      r <- link old new ;;
      when (r <? 0) (fprintf 2 (str "link %s %s: failed" ++ [10]) [Vstr (Some old); Vstr (Some new)]) ;;;
      exit 0
  | _ => fprintf 2 (str "Usage: ln old new" ++ [10]) [] ;;; exit 1
  end.

(** The loop of mkdir and rm, which stops at the first failure. *)
Fixpoint until_failure (args : list (list Z)) (f : list Z -> U Z) (msg : list Z) : U unit :=
  match args with
  | [] => exit 0
  | a :: args =>
      r <- f a ;;
      if r <? 0 then fprintf 2 msg [Vstr (Some a)] ;;; exit 0 else until_failure args f msg
  end.

Definition mkdir_main (argv : list (list Z)) : U unit :=
  if (length argv <? 2)%nat then fprintf 2 (str "Usage: mkdir files..." ++ [10]) [] ;;; exit 1 else
  until_failure (tail argv) mkdir (str "mkdir: %s failed to create" ++ [10]).

Definition rm_main (argv : list (list Z)) : U unit :=
  if (length argv <? 2)%nat then fprintf 2 (str "Usage: rm files..." ++ [10]) [] ;;; exit 1 else
  until_failure (tail argv) unlink (str "rm: %s failed to delete" ++ [10]).

(** atoi(argv[2]): with two arguments argv[2] is the null pointer, [None]. *)
Definition sleep_main (argv : list (list Z)) : option (U unit) :=
  if (length argv =? 1)%nat then Some (printf (str "error: please enter time number " ++ [13; 10]) [] ;;; exit 1) else
  t ← argv !! 2%nat;
  Some (sleep (atoi t) ;;; exit 0).

(** ** ls.c *)

(** The index after the last slash: the loop from the end of the path down. *)
Fixpoint after_slash (path : list Z) (n : nat) : nat :=
  if bool_decide (path !! n = Some 47) then S n else
  match n with
  | O => O
  | S n => after_slash path n
  end.

Definition fmtname (path : list Z) : list Z :=
  let p := drop (after_slash path (length path)) path in
  if DIRSIZ <=? strlen p then p else p ++ replicate (Z.to_nat (DIRSIZ - strlen p)) 32.

(** A directory entry: the inode number and the 14 bytes of the name. *)
Definition dirent_of (bs : list Z) : Z * list Z := (le_val (take 2 bs), take 14 (drop 2 bs)).

(** The path of an entry: what buf holds when path, a slash and the name have
    been written to it and the byte after the name is zero. *)
Definition entry_path (path name : list Z) : list Z := path ++ [47] ++ cstring name.

Definition ls (fuel : nat) (path : list Z) : U unit :=
  fd <- open path 0 ;;
  if fd <? 0 then fprintf 2 (str "ls: cannot open %s" ++ [10]) [Vstr (Some path)] else
  do (r, st) <- fstat fd ;;
  if r <? 0 then fprintf 2 (str "ls: cannot stat %s" ++ [10]) [Vstr (Some path)] ;;; close fd ;;; ret tt else
  let '(type, ino, size) := st in
  (if (type =? T_DEVICE) || (type =? T_FILE) then
     printf (str "%s %d %d %l" ++ [10]) [Vstr (Some (fmtname path)); Vword type; Vword ino; Vword size]
   else when (type =? T_DIR)
     (if 512 <? strlen path + 1 + DIRSIZ + 1 then printf (str "ls: path too long" ++ [10]) [] else
      loop fuel (fun _ =>
        do (n, bs) <- read fd 16 ;;
        if negb (n =? 16) then ret (inr tt) else
        let '(inum, name) := dirent_of bs in
        if inum =? 0 then ret (inl tt) else
        let buf := entry_path path name in
        do (r, st) <- Ulib.stat buf ;;
        if r <? 0 then printf (str "ls: cannot stat %s" ++ [10]) [Vstr (Some buf)] ;;; ret (inl tt) else
        let '(type, ino, size) := st in
        printf (str "%s %d %d %d" ++ [10]) [Vstr (Some (fmtname buf)); Vword type; Vword ino; Vword size] ;;;
        ret (inl tt)) tt)) ;;;
  close fd ;;;
  ret tt.

Definition ls_main (fuel : nat) (argv : list (list Z)) : U unit :=
  if (length argv <? 2)%nat then ls fuel (str ".") ;;; exit 0 else
  each (tail argv) (ls fuel).

(** ** find.c *)

(** [junk] is the contents of the array buf of a call when it starts: find does
    not write a zero after the name of an entry, so a name of DIRSIZ bytes is
    continued by what the stack held.  A path too long for buf is copied over its
    end: the behaviour is undefined and the model stops.  [fuel] bounds the depth
    of the directories and the entries of each. *)
Fixpoint find_file (junk : world -> list Z) (fuel : nat) (path file : list Z) : U unit :=
  match fuel with
  | O => fun _ => NoFuel
  | S fuel =>
      fd <- open path 0 ;;
      if fd <? 0 then fprintf 2 (str "cannot open %s" ++ [10]) [Vstr (Some path)] else
      do (r, st) <- fstat fd ;;
      if r <? 0 then fprintf 2 (str "cannot stat %s" ++ [10]) [Vstr (Some path)] ;;; close fd ;;; ret tt else
      if negb (st.1.1 =? T_DIR) then close fd ;;; ret tt else
      if 512 <? strlen path + 1 + DIRSIZ + 1 then printf (str "find : path too long" ++ [10]) [] ;;; (fun _ => NoFuel) else
      buf <- call (fun w => (junk w, w)) ;;
      let buf := strcpy buf path in
      let p := Z.of_nat (length path) + 1 in
      let buf := zset buf (p - 1) 47 in
      loop fuel (fun buf =>
        do (n, bs) <- read fd 16 ;;
        if negb (n =? 16) then ret (inr tt) else
        let '(inum, name) := dirent_of bs in
        if inum =? 0 then ret (inl buf) else
        let buf := splice buf p name in
        do (r, st) <- Ulib.stat (cstring buf) ;;
        if r <? 0 then printf (str "ls: cannot stat %s" ++ [10]) [Vstr (Some (cstring buf))] ;;; ret (inl buf) else
        let type := st.1.1 in
        if type =? T_DIR then
          when (negb (zget buf p =? 46) && negb (zget buf (p + 1) =? 46)) (find_file junk fuel (cstring buf) file) ;;;
          ret (inl buf)
        else
          when (((type =? T_FILE) || (type =? T_DEVICE)) && (strcmp (cstring (drop (Z.to_nat p) buf)) file =? 0))
            (printf (str "%s" ++ [10]) [Vstr (Some (cstring buf))]) ;;;
          ret (inl buf)) buf
  end.

Definition find_main (junk : world -> list Z) (fuel : nat) (argv : list (list Z)) : U unit :=
  match argv with
  | _ :: path :: file :: _ => find_file junk fuel path file ;;; exit 0
  | _ => printf (str "error with param " ++ [10]) [] ;;; exit 1
  end.

(** ** xargs.c

    The argument vector xargs builds for exec(): the strings of its own arguments,
    then the bytes it copies to a malloc()ed block for each line, the newline left
    off and no zero put in its place.  [None] is undefined behaviour: a read past
    the end of rbuf, or more entries than cmd has. *)
Definition xargs_body (s : list Z * Z * Z * list (list Z)) : U (list Z * Z * Z * list (list Z) + option (list (list Z))) :=
  let '(rbuf, p, n, cmd) := s in
  do (r, bs) <- read 0 MAXARG ;;
  let n := i32 (n + r) in
  if MAXARG <? p + Z.of_nat (length bs) then ret (inr None) else
  let rbuf := splice rbuf p bs in
  if negb (0 <? n) then ret (inr (Some cmd)) else
  let p := n in
  if negb (zget rbuf (p - 1) =? 10) then ret (inl (rbuf, p, n, cmd)) else
  if MAXARG <=? Z.of_nat (length cmd) then ret (inr None) else
  let cmd := cmd ++ [slice (zset rbuf (p - 1) 0) 0 (n - 1)] in
  ret (inl (replicate (Z.to_nat MAXARG) 0, 0, 0, cmd)).

Definition xargs (fuel : nat) (argv : list (list Z)) : U (option (list (list Z))) :=
  loop fuel xargs_body (replicate (Z.to_nat MAXARG) 0, 0, 0, tail argv).

(** main(), over the three calls that only it makes.  Neither the vector nor the
    strings added to it are terminated: [found cmd] is what exec() finds in memory
    from cmd on.  Without a command argv[1] is the null pointer ([None]). *)
Definition xargs_main (sys_fork sys_wait : world -> Z * world) (sys_exec : list Z -> list (list Z) -> world -> Z * world)
    (found : list (list Z) -> list (list Z)) (fuel : nat) (argv : list (list Z)) : U (option unit) :=
  do o <- xargs fuel argv ;;
  match o, argv with
  | Some cmd, _ :: file :: _ =>
      do pid <- call sys_fork ;;
      (if pid =? 0 then do _ <- call (sys_exec file (found cmd)) ;; ret tt else do _ <- call sys_wait ;; ret tt) ;;;
      exit 0
  | _, _ => ret None
  end.
End programs.
