(* ===== verification/UProgsSpec.v ===== *)
(** * user/: what cat and wc print. *)

From S2P Require Import Prelude Params Mem UProg Ulib UPrintf UProgs.

(** ** Words *)

Definition is_space (b : Z) : bool := match strchr wc_spaces b with Some _ => true | None => false end.

(** The maximal runs of other bytes, [cur] being the one begun. *)
Fixpoint fields (cur : list Z) (t : list Z) : list (list Z) :=
  match t with
  | [] => match cur with [] => [] | _ => [cur] end
  | b :: t =>
      if is_space b then match cur with [] => fields [] t | _ => cur :: fields [] t end
      else fields (cur ++ [b]) t
  end.
Definition words (t : list Z) : list (list Z) := fields [] t.
Definition newlines (t : list Z) : nat := length (filter (fun b => b = 10) t).

Definition begun (cur : list Z) : Z := match cur with [] => 0 | _ => 1 end.

Lemma fields_length cur t : begun cur <= Z.of_nat (length (fields cur t)) <= begun cur + Z.of_nat (length t).
Proof.
  revert cur. induction t as [|b t IH]; intros cur; cbn [fields length]; [destruct cur; cbn; lia|].
  destruct (is_space b); [|specialize (IH (cur ++ [b])); destruct cur; cbn in *; lia].
  specialize (IH []). destruct cur; cbn in *; lia.
Qed.

(** The counters after the bytes [t], where [cur] is the word being read. *)
Lemma wc_bytes t s cur :
  wc_in s = bool_decide (cur <> []) -> 0 <= wc_l s -> 0 <= wc_w s -> 0 <= wc_c s ->
  wc_l s + Z.of_nat (length t) < 2 ^ 31 -> wc_w s + Z.of_nat (length t) < 2 ^ 31 -> wc_c s + Z.of_nat (length t) < 2 ^ 31 ->
  let s' := fold_left wc_byte t s in
  wc_l s' = wc_l s + Z.of_nat (newlines t) /\ wc_c s' = wc_c s + Z.of_nat (length t) /\
  wc_w s' + begun cur = wc_w s + Z.of_nat (length (fields cur t)).
Proof.
  revert s cur. induction t as [|b t IH]; intros s cur Hin Hl Hw Hc Bl Bw Bc; cbv zeta in *; cbn [fold_left].
  - cbn. split_and!; [lia|lia|]. destruct cur; cbn; lia.
  - cbn [length] in Bl, Bw, Bc. assert (newlines (b :: t) = (if (b =? 10)%Z then 1 else 0) + newlines t)%nat as ->.
    { unfold newlines. rewrite filter_cons. destruct (Z.eqb_spec b 10); by case_decide. }
    cbn [fields length]. unfold is_space. assert (wc_l (wc_byte s b) = wc_l s + (if b =? 10 then 1 else 0) /\ wc_c (wc_byte s b) = wc_c s + 1) as [El Ec].
    { unfold wc_byte. rewrite !i32_id by lia. destruct (strchr wc_spaces b); [|destruct (wc_in s)]; cbn; destruct (b =? 10); lia. }
    destruct (strchr wc_spaces b) as [k|] eqn:Es.
    + assert (wc_in (wc_byte s b) = false /\ wc_w (wc_byte s b) = wc_w s) as [Ei Ew] by (unfold wc_byte; by rewrite Es).
      destruct (IH (wc_byte s b) []) as (A & B & C); rewrite ?El, ?Ec, ?Ew in *; try (destruct (b =? 10); lia); [done|].
      split_and!; [destruct (b =? 10); lia|lia|]. destruct cur; cbn in *; lia.
    + assert (wc_in (wc_byte s b) = true /\ wc_w (wc_byte s b) = wc_w s + 1 - begun cur) as [Ei Ew].
      { unfold wc_byte. rewrite Es, Hin. rewrite (i32_id (wc_w s + 1)) by lia. destruct cur; cbn; split; auto; lia. }
      destruct (IH (wc_byte s b) (cur ++ [b])) as (A & B & C).
      1: rewrite Ei; symmetry; apply bool_decide_true; by destruct cur.
      all: rewrite ?El, ?Ec, ?Ew in *; try (destruct cur, (b =? 10); cbn; lia).
      split_and!; [destruct (b =? 10); lia|lia|]. destruct cur; cbn in *; lia.
Qed.

(** ** Reading a file to its end *)

Section copy.
Context `{Streams}.

(** A loop that reads [fd] to its end in pieces of at most [size] bytes. *)
Lemma uwp_read_all {A B} fd size (I : list Z -> A -> world -> Prop) (body : Z * list Z -> A -> U (A + B)) (Q : B -> world -> Prop) X fuel a w t :
  0 < size ->
  (forall t bs a w w', I t a w -> bs <> [] -> Z.of_nat (length bs) <= size -> printed w' = printed w -> still_open w w' ->
     uwp (body (Z.of_nat (length bs), bs) a) (fun r w2 => match r with
       | inl a' => I (t ++ bs) a' w2 /\ input w2 = input w'
       | inr _ => False
       end) X w') ->
  (forall a w w', I t a w -> printed w' = printed w -> still_open w w' -> pending w' fd = [] ->
     uwp (body (0, []) a) (fun r w2 => match r with inl _ => False | inr b => Q b w2 end) X w') ->
  readable (input w) fd -> pending w fd = t -> I [] a w -> (length t < fuel)%nat ->
  uwp (loop fuel (fun a => r <- read fd size ;; body r a) a) Q X w.
Proof.
  intros Hsz Hmore Hend Hrd Hp HI Hf.
  apply uwp_loop with (I := fun n a w1 => readable (input w1) fd /\ exists t1, t = t1 ++ pending w1 fd /\ I t1 a w1 /\ n = length (pending w1 fd))
    (n := length t); [|split; [exact Hrd|]; exists []; by rewrite Hp|exact Hf].
  intros n a1 w1 (Hrd1 & t1 & Et & HI1 & ->). uwp_step. apply uwp_read; [lia|exact Hrd1|]. intros bs w2 Hl Hp2 Hne Hpr Ho.
  destruct bs as [|b bs].
  - cbn in Hp2. assert (pending w1 fd = []) as Hnil by (destruct (pending w1 fd); [done|]; by destruct Hne).
    eapply uwp_mono; [apply (Hend a1 w1 w2); [by rewrite Et, Hnil, app_nil_r|exact Hpr|exact Ho|congruence]|]. intros [?|r] w3; [done|auto].
  - eapply uwp_mono; [apply (Hmore t1 (b :: bs) a1 w1 w2); auto|]. intros [a2|?] w3; [|done]. intros [HI2 Hin]. cbn beta.
    assert (pending w3 fd = pending w2 fd) as E3 by (unfold pending; by rewrite Hin). rewrite Hin, E3.
    exists (length (pending w2 fd)). split; [rewrite Hp2, length_app; cbn; lia|].
    split; [by apply Ho|]. exists (t1 ++ b :: bs). rewrite <- app_assoc, <- Hp2. auto.
Qed.
End copy.

(** Cat() copies the file to the standard output and returns at its end, however
    the reads cut the file. *)
Theorem cat_correct `{Streams} (fd : Z) (fuel : nat) (w : world) :
  readable (input w) fd -> writable (input w) 1 -> (length (pending w fd) < fuel)%nat ->
  uwp (cat fuel fd) (fun _ w' => printed w' 1 = printed w 1 ++ pending w fd /\ pending w' fd = []) (fun _ _ => False) w.
Proof.
  intros Hrd Hwr Hf. unfold cat.
  apply (uwp_read_all fd 512 (fun t _ w1 => writable (input w1) 1 /\ printed w1 1 = printed w 1 ++ t)
    (fun r _ => let '(n, buf) := r in if 0 <? n then r <- write 1 (take (Z.to_nat n) buf) ;;
        if negb (r =? n) then fprintf 2 (str "cat: write error" ++ [10]) [] ;;; exit 1 else ret (inl tt)
      else if n <? 0 then fprintf 2 (str "cat: read error" ++ [10]) [] ;;; exit 1 else ret (inr tt))) with (t := pending w fd); try done.
  - intros t bs a w1 w2 [Hw1 Hp1] Hne Hl Hpr Ho. rewrite (proj2 (Z.ltb_lt 0 _)) by (destruct bs; [done|cbn; lia]).
    rewrite take_ge by lia. uwp_step. apply uwp_write; [by apply Ho|]. intros w3 Hp3 _ Hin. rewrite Z.eqb_refl. cbn [negb]. uwp_steps.
    rewrite Hin. split_and!; [by apply Ho| |done]. by rewrite Hp3, Hpr, Hp1, app_assoc.
  - intros a w1 w2 [_ Hp1] Hpr _ Hnil. change (0 <? 0) with false. uwp_steps. by rewrite Hpr.
  - split; [done|]. by rewrite app_nil_r.
Qed.

(** Wc() prints the number of newlines, of words and of bytes of the file and its
    name, however the reads cut the file: a word is a maximal run of bytes other
    than blanks, and one that lies across two reads counts once. *)
Theorem wc_correct `{Streams} (fd : Z) (name : list Z) (fuel : nat) (w : world) :
  readable (input w) fd -> writable (input w) 1 -> (length (pending w fd) < fuel)%nat -> Z.of_nat (length (pending w fd)) < 2 ^ 31 ->
  let t := pending w fd in
  uwp (wc fuel fd name) (fun _ w' => printed w' 1 = printed w 1 ++
    (u8 <$> format_text (str "%d %d %d %s" ++ [10]) false
       [Vword (Z.of_nat (newlines t)); Vword (Z.of_nat (length (words t))); Vword (Z.of_nat (length t)); Vstr (Some name)]))
    (fun _ _ => False) w.
Proof.
  intros Hrd Hwr Hf Hb t. fold t in Hf, Hb. unfold wc. uwp_step.
  apply (uwp_read_all fd 512 (fun t1 s w1 => writable (input w1) 1 /\ printed w1 = printed w /\ s = fold_left wc_byte t1 (mkCounts 0 0 0 false))
    (fun r s => let '(n, buf) := r in if 0 <? n then ret (inl (fold_left wc_byte (take (Z.to_nat n) buf) s))
      else if n <? 0 then printf (str "wc: read error" ++ [10]) [] ;;; exit 1 else ret (inr s))) with (t := t); try done.
  - intros t1 bs a w1 w2 (Hw1 & Hp1 & ->) Hne Hl Hpr Ho. rewrite (proj2 (Z.ltb_lt 0 _)) by (destruct bs; [done|cbn; lia]).
    rewrite take_ge by lia. uwp_steps. split_and!; [by apply Ho|congruence|by rewrite fold_left_app|done].
  - intros s w1 w2 (Hw1 & Hp1 & ->) Hpr Ho Hnil. change (0 <? 0) with false. uwp_steps.
    destruct (wc_bytes t (mkCounts 0 0 0 false) []) as (El & Ec & Ew); [done|cbn; lia..|]. cbn [wc_l wc_w wc_c begun] in El, Ec, Ew.
    rewrite Z.add_0_r, Z.add_0_l in Ew. rewrite El, Ec, Ew. unfold printf.
    apply vprintf_spec; [by apply Ho|]. intros w3 (Hp3 & _). by rewrite Hp3, Hpr, Hp1.
Qed.

Lemma cat_correct_witness :
  let w : @world (stream_os 1) := ({[ 3 := str "some text" ]}, ∅) in
  @uwp (stream_os 1) _ (@cat (stream_os 1) 10 3) (fun _ w' => @printed _ (stream_os_ok 1) w' 1 = str "some text") (fun _ _ => False) w.
Proof.
  intros w. eapply uwp_mono; [apply (@cat_correct (stream_os 1) (stream_os_ok 1) 3 10 w); [exact I|exact I|vm_compute; lia]|].
  intros _ w' [Hp _]. exact Hp.
Defined.

(** Two words, the first of them cut by a read. *)
Lemma wc_correct_witness :
  let w : @world (stream_os 2) := ({[ 0 := str "hello  you" ++ [10] ]}, ∅) in
  @uwp (stream_os 2) _ (@wc (stream_os 2) 12 0 (str "f"))
    (fun _ w' => @printed _ (stream_os_ok 2) w' 1 = str "1 2 11 f" ++ [10]) (fun _ _ => False) w.
Proof.
  intros w. eapply uwp_mono; [apply (@wc_correct (stream_os 2) (stream_os_ok 2) 0 (str "f") 12 w); [exact I|exact I|vm_compute; lia|vm_compute; reflexivity]|].
  intros a w' Hp. cbv beta zeta in Hp. rewrite Hp. vm_compute. reflexivity.
Defined.

(** ** xargs on one line *)

Lemma splice_last rbuf k bs b : 0 <= k <= Z.of_nat (length rbuf) -> zget (splice rbuf k (bs ++ [b])) (k + Z.of_nat (length (bs ++ [b])) - 1) = b.
Proof.
  intros Hk. rewrite length_app. cbn [length]. unfold splice, zget. rewrite lookup_total_app_r by (rewrite length_take; lia).
  rewrite length_take, lookup_total_app_l by (rewrite length_app; cbn; lia). rewrite lookup_total_app_r by lia.
  by replace (_ - _ - _)%nat with 0%nat by lia.
Qed.

Lemma splice_line rbuf k bs b : 0 <= k <= Z.of_nat (length rbuf) ->
  slice (zset (splice rbuf k (bs ++ [b])) (k + Z.of_nat (length (bs ++ [b])) - 1) 0) 0 (k + Z.of_nat (length (bs ++ [b])) - 1) = take (Z.to_nat k) rbuf ++ bs.
Proof.
  intros Hk. unfold slice, zset. rewrite drop_0, take_insert_ge by lia. unfold splice. rewrite length_app. cbn [length].
  rewrite !app_assoc, <- !app_assoc, (app_assoc (take _ _)). apply take_app_length'. rewrite length_app, length_take. lia.
Qed.

(** rbuf starts with the [k] bytes read of the line, [l] and the newline are to come;
    or the line is complete and the input at its end. *)
Definition in_line `{Streams} (line : list Z) (argv : list (list Z)) (n : nat) (s : list Z * Z * Z * list (list Z)) (w : world) : Prop :=
  let '(rbuf, p, k, cmd) := s in
  readable (input w) 0 /\ p = k /\ length rbuf = Z.to_nat MAXARG /\
  ((exists l, pending w 0 = l ++ [10] /\ 0 <= k <= MAXARG /\ line = take (Z.to_nat k) rbuf ++ l /\ cmd = argv /\ n = S (length l)) \/
   pending w 0 = [] /\ k = 0 /\ cmd = argv ++ [line] /\ n = 0%nat).

Lemma xargs_body_line `{Streams} line argv X n s w : 10 ∉ line -> Z.of_nat (length line) < MAXARG -> Z.of_nat (length argv) < MAXARG -> in_line line argv n s w ->
  uwp (xargs_body s) (fun r w' => match r with inl s' => exists n', (n' < n)%nat /\ in_line line argv n' s' w'
    | inr o => o = Some (argv ++ [line]) /\ pending w' 0 = [] end) X w.
Proof.
  destruct s as [[[rbuf p] k] cmd]. intros Hnl Hlen Hargv (Hrd & -> & Hbuf & Hcase). unfold uwp, xargs_body, bind, read, call.
  destruct (read_ok 0 MAXARG w ltac:(unfold MAXARG; lia) Hrd) as (bs & w' & -> & _ & Hp & Hne & Hro & _). fold (pending w 0) in Hp, Hne. fold (pending w' 0) in Hp.
  destruct Hcase as [(l & El & Hk & Eline & -> & ->)|(E0 & -> & -> & ->)].
  2: { rewrite E0 in Hp. symmetry in Hp. apply app_eq_nil in Hp as [-> Ep]. by cbn. }
  rewrite Hp in El, Hne. specialize (Hne ltac:(unfold MAXARG; lia) ltac:(rewrite El; by destruct l)).
  assert (Z.of_nat (length line) = k + Z.of_nat (length l)) as Hll by (rewrite Eline, length_app, length_take; unfold MAXARG in *; lia).
  assert (Z.of_nat (length bs) + Z.of_nat (length (pending w' 0)) = Z.of_nat (length l) + 1) as Hbs.
  { apply (f_equal length) in El. rewrite !length_app in El. cbn in El. lia. }
  assert (0 < length bs)%nat by (destruct bs; [done|cbn; lia]).
  rewrite (proj2 (Z.ltb_ge MAXARG _)) by lia. rewrite i32_id by (unfold MAXARG in *; lia). rewrite (proj2 (Z.ltb_lt 0 _)) by lia. cbn [negb].
  destruct bs as [|b bs' _] using rev_ind; [done|]. rewrite splice_last by (rewrite Hbuf; lia).
  destruct (pending w' 0) as [|c rest _] eqn:Ep using rev_ind.
  - rewrite app_nil_r in El. apply app_inj_tail in El as [<- ->]. rewrite Z.eqb_refl. cbn [negb].
    rewrite (proj2 (Z.leb_gt _ _)) by lia. exists 0%nat. split; [lia|]. rewrite splice_line, <- Eline by (rewrite Hbuf; lia).
    split; [by apply Hro|]. split; [done|]. split; [by rewrite length_replicate|]. right. done.
  - rewrite app_assoc in El. apply app_inj_tail in El as [<- ->]. rewrite (proj2 (Z.eqb_neq b 10)) by (rewrite Eline in Hnl; set_solver). cbn [negb].
    exists (S (length rest)). split; [rewrite !length_app; cbn; lia|]. split; [by apply Hro|]. split; [done|].
    rewrite splice_length by (rewrite ?Hbuf; lia). split; [done|]. left. exists rest. split; [done|]. split; [lia|]. split; [|done].
    rewrite Eline. unfold splice. rewrite (app_assoc _ _ rest). f_equal. rewrite (app_assoc _ _ (drop _ _)). symmetry. apply take_app_length'.
    rewrite !length_app, length_take, Hbuf. unfold MAXARG in *. lia.
Qed.

(** One line that fits the buffer, however the input is cut into reads: xargs starts
    the command with the line, the newline left off, as its last argument, and waits. *)
Theorem xargs_correct `{Streams} sys_fork sys_wait sys_exec found (line cmd : list Z) (args : list (list Z)) (w : world) (fuel : nat) :
  readable (input w) 0 -> pending w 0 = line ++ [10] -> 10 ∉ line -> Z.of_nat (length line) < MAXARG -> Z.of_nat (length (cmd :: args)) < MAXARG ->
  (length line + 1 < fuel)%nat ->
  uwp (xargs_main sys_fork sys_wait sys_exec found fuel (str "xargs" :: cmd :: args)) (fun _ _ => False)
    (fun st w' => st = 0 /\ exists w0, pending w0 0 = [] /\ let '(pid, w1) := sys_fork w0 in
       if pid =? 0 then w' = (sys_exec cmd (found (cmd :: args ++ [line])) w1).2 else w' = (sys_wait w1).2) w.
Proof.
  intros Hrd Hp Hnl Hlen Hargs Hfuel. unfold xargs_main. apply uwp_bind. unfold xargs. cbn [tail].
  eapply uwp_mono; [apply (uwp_loop (in_line line (cmd :: args)) _ (fun o w' => o = Some ((cmd :: args) ++ [line]) /\ pending w' 0 = []) _) with (n := S (length line))|].
  - intros n s w1 HI. by apply xargs_body_line.
  - split; [done|]. split; [done|]. split; [by rewrite length_replicate|]. left. exists line. done.
  - lia.
  - intros o w0 [-> Hend]. unfold uwp, bind, call. destruct (sys_fork w0) as [pid w1] eqn:E.
    destruct (pid =? 0) eqn:Ep; [destruct (sys_exec _ _ w1) as [r w2] eqn:E2|destruct (sys_wait w1) as [r w2] eqn:E2].
    all: cbn in *; split; [done|]; exists w0; split; [done|]; by rewrite E, Ep, E2.
Qed.

(** ** xargs at the end of its input *)

(** rbuf holds [k] bytes without a newline, and what comes fits. *)
Record mid_line `{Streams} (rbuf : list Z) (k : Z) (w : world) : Prop := {
  ml_open : readable (input w) 0;
  ml_size : length rbuf = Z.to_nat MAXARG;
  ml_fits : 0 <= k /\ k + Z.of_nat (length (pending w 0)) <= MAXARG;
  ml_more : 10 ∉ pending w 0;
  ml_some : k = 0 -> pending w 0 <> [];
  ml_last : 0 < k -> zget rbuf (k - 1) <> 10;
}.

Lemma xargs_step `{Streams} rbuf k cmd w : mid_line rbuf k w ->
  exists rbuf' k' w', xargs_body (rbuf, k, k, cmd) w = Returns (inl (rbuf', k', k', cmd)) w' /\ mid_line rbuf' k' w'.
Proof.
  intros [A B [C1 C2] D E F]. unfold xargs_body, bind, read, call. destruct (read_ok 0 MAXARG w ltac:(unfold MAXARG; lia) A) as (bs & w' & Er & Hl & Hp & Hne & Hro & Hwo & _).
  fold (pending w 0) in Hp, Hne. fold (pending w' 0) in Hp. rewrite Er, Hp in *. rewrite length_app in C2. unfold MAXARG in *.
  assert (bs = [] -> 0 < k) as Hpos.
  { intros ->. destruct (decide (k = 0)) as [->|]; [|lia]. exfalso. apply Hne; [lia|by apply E|done]. }
  assert (0 < k + Z.of_nat (length bs)) as Hn by (destruct bs; [specialize (Hpos eq_refl); cbn; lia|cbn; lia]).
  rewrite (proj2 (Z.ltb_ge 32 _)) by lia. rewrite i32_id by lia. rewrite (proj2 (Z.ltb_lt 0 _)) by lia. cbn [negb].
  assert (zget (splice rbuf k bs) (k + Z.of_nat (length bs) - 1) <> 10) as Hlast.
  { destruct bs as [|b bs' _] using rev_ind.
    - unfold splice. cbn. rewrite Nat.add_0_r, take_drop, Z.add_0_r. auto.
    - rewrite splice_last by lia. set_solver. }
  rewrite (proj2 (Z.eqb_neq _ _) Hlast). cbn [negb]. eexists _, _, _. split; [reflexivity|]. split; [by apply Hro| | |set_solver|lia|done].
  - rewrite splice_length; unfold MAXARG in *; lia.
  - unfold MAXARG. lia.
Qed.

(** Input that does not end with a newline: read() answers 0 at the end of the input,
    the count stays positive, and xargs reads on for ever. *)
Theorem xargs_hangs `{Streams} (argv : list (list Z)) (fuel : nat) (w : world) :
  readable (input w) 0 -> pending w 0 <> [] -> 10 ∉ pending w 0 -> Z.of_nat (length (pending w 0)) <= MAXARG ->
  xargs fuel argv w = NoFuel.
Proof.
  intros Hrd Hne Hnl Hlen. unfold xargs.
  assert (forall rbuf k w1, mid_line rbuf k w1 -> loop fuel xargs_body (rbuf, k, k, tail argv) w1 = NoFuel) as Hind.
  { induction fuel as [|fuel IH]; intros rbuf k w1 Hm; [done|]. cbn [loop]. unfold bind.
    destruct (xargs_step rbuf k (tail argv) w1 Hm) as (rbuf' & k' & w' & -> & Hm'). by apply IH. }
  apply Hind. split; [done|by rewrite length_replicate|lia|done|done|lia].
Qed.
