(* ===== verification/FindSpec.v ===== *)
(** * user/find.c: what find prints.

    A system with a tree of directories and sixteen descriptors, and the theorem
    that find_file() prints the matching files below a directory. *)

From S2P Require Import Prelude Params Mem UProg Ulib UPrintf UProgs.

(** ** A system with files

    [node path] is the type of the file and its contents. *)
Section tree_os.
Variable node : list Z -> option (Z * list Z).

(** An open descriptor has the type of its file and the bytes not yet read. *)
Record tworld := mkTworld { tw_fds : list (option (Z * list Z)); tw_out : gmap Z (list Z) }.

Definition fds_file (l : list (option (Z * list Z))) (fd : Z) : option (Z * list Z) := if fd <? 0 then None else mjoin (l !! Z.to_nat fd).

#[local] Instance tree_os : Os := {|
  world := tworld;
  sys_read fd n w :=
    match fds_file (tw_fds w) fd with
    | Some (ty, c) => let k := Z.to_nat n in
        (Z.of_nat (length (take k c)), take k c, mkTworld (<[Z.to_nat fd := Some (ty, drop k c)]> (tw_fds w)) (tw_out w))
    | None => (-1, [], w)
    end;
  sys_write fd bs w :=
    match fds_file (tw_fds w) fd with
    | Some _ => (Z.of_nat (length bs), mkTworld (tw_fds w) (<[fd := default [] (tw_out w !! fd) ++ bs]> (tw_out w)))
    | None => (-1, w)
    end;
  sys_open path _ w :=
    match node path, list_find (fun x => x = None) (tw_fds w) with
    | Some f, Some (i, _) => (Z.of_nat i, mkTworld (<[i := Some f]> (tw_fds w)) (tw_out w))
    | _, _ => (-1, w)
    end;
  sys_close fd w :=
    match fds_file (tw_fds w) fd with
    | Some _ => (0, mkTworld (<[Z.to_nat fd := None]> (tw_fds w)) (tw_out w))
    | None => (-1, w)
    end;
  sys_fstat fd w := match fds_file (tw_fds w) fd with Some (ty, _) => (0, (ty, 0, 0), w) | None => (-1, (0, 0, 0), w) end;
  sys_link _ _ := failing;
  sys_unlink _ := failing;
  sys_mkdir _ := failing;
  sys_kill _ := failing;
  sys_sleep _ := failing;
|}.

(** Changing an open descriptor. *)
Lemma fds_file_lt l fd f : fds_file l fd = Some f -> 0 <= fd /\ l !! Z.to_nat fd = Some (Some f).
Proof.
  unfold fds_file. destruct (Z.ltb_spec fd 0) as [|Hfd]; [done|]. intros E. split; [exact Hfd|].
  destruct (l !! Z.to_nat fd) as [x|]; cbn in E; congruence.
Qed.

Lemma fds_file_insert l fd x fd' : 0 <= fd -> (Z.to_nat fd < length l)%nat ->
  fds_file (<[Z.to_nat fd := x]> l) fd' = if decide (fd' = fd) then x else fds_file l fd'.
Proof.
  intros Hfd Hl. unfold fds_file. destruct (Z.ltb_spec fd' 0); [by rewrite decide_False by lia|].
  destruct (decide (fd' = fd)) as [->|Hne]; [by rewrite list_lookup_insert_eq|]. by rewrite list_lookup_insert_ne by lia.
Qed.

#[local] Instance tree_os_ok : @Streams tree_os.
Proof.
  refine {| input (w : @world tree_os) := tw_fds w; pend l fd := match fds_file l fd with Some (_, c) => c | None => [] end;
            readable l fd := is_Some (fds_file l fd); writable l fd := is_Some (fds_file l fd); printed w fd := default [] (tw_out w !! fd) |}.
  - intros fd n [l o] Hn [[ty c] Hf]. cbn [sys_read tree_os tw_fds tw_out] in *. rewrite Hf.
    destruct (fds_file_lt _ _ _ Hf) as [Hfd Hl]. apply lookup_lt_Some in Hl.
    eexists _, _. split; [reflexivity|]. cbn [tw_fds tw_out].
    split_and!; [| | |intros fd'; rewrite fds_file_insert by done; case_decide; eauto..|done].
    + rewrite length_take. lia.
    + rewrite fds_file_insert, decide_True by done. by rewrite take_drop.
    + intros Hn0 Hc E. apply (f_equal length) in E. rewrite length_take in E. destruct c; [done|]. cbn [length] in E. lia.
  - intros fd bs [l o] [f Hf]. cbn [sys_write tree_os tw_fds tw_out] in *. rewrite Hf.
    eexists. cbn [tw_out tw_fds]. split_and!; [reflexivity|cbn; by rewrite lookup_insert_eq| |reflexivity].
    intros fd' Hne. cbn. by rewrite lookup_insert_ne.
Defined.
End tree_os.

(** ** The tree and the files find looks for *)

(** An entry of a directory: inode number, name and file; [Dot] is a directory
    named "." or "..", whose contents are not followed. *)
Inductive tree : Type := Leaf (type : Z) | Dot | Dir (es : list (Z * list Z * tree)).

Definition encode (e : Z * list Z * tree) : list Z :=
  le_bytes 2 e.1.1 ++ e.1.2 ++ replicate (14 - length e.1.2) 0.

(** Names end with a zero inside the entry: they have fewer than DIRSIZ bytes. *)
Definition entry_ok (e : Z * list Z * tree) : Prop :=
  0 <= e.1.1 < 2 ^ 16 /\ 0 ∉ e.1.2 /\ bytes_ok e.1.2 /\ (length e.1.2 < 14)%nat /\
  (e.2 = Dot -> e.1.2 = str "." \/ e.1.2 = str "..").

Definition below (p name : list Z) : list Z := p ++ [47] ++ name.

Inductive holds (node : list Z -> option (Z * list Z)) : list Z -> tree -> Prop :=
| holds_leaf p ty c : node p = Some (ty, c) -> ty <> T_DIR -> holds node p (Leaf ty)
| holds_dot p c : node p = Some (T_DIR, c) -> holds node p Dot
| holds_dir p es : node p = Some (T_DIR, concat (encode <$> es)) ->
    Forall (fun e => entry_ok e /\ (e.1.1 = 0 \/ holds node (below p e.1.2) e.2)) es -> holds node p (Dir es).

(** The directories find enters: not those with a dot as first or second byte. *)
Definition enters (name : list Z) : bool :=
  negb (bool_decide (name !! 0%nat = Some 46)) && negb (bool_decide (name !! 1%nat = Some 46)).

(** What is printed for a directory, and the descriptors left open. *)
Fixpoint found (file : list Z) (t : tree) (p : list Z) : list Z :=
  match t with
  | Dir es => concat (map (fun e =>
      if e.1.1 =? 0 then [] else
      match e.2 with
      | Leaf ty => if ((ty =? T_FILE) || (ty =? T_DEVICE)) && bool_decide (e.1.2 = file) then below p e.1.2 ++ [10] else []
      | Dot => []
      | Dir _ => if enters e.1.2 then found file e.2 (below p e.1.2) else []
      end) es)
  | _ => []
  end.

Fixpoint opens (t : tree) : nat :=
  match t with
  | Dir es => S (sum_list (map (fun e =>
      if e.1.1 =? 0 then 0%nat else
      match e.2 with Dir _ => if enters e.1.2 then opens e.2 else 0%nat | _ => 0%nat end) es))
  | _ => 0
  end.

(** The paths fit into buf, and [fuel] is enough. *)
Fixpoint fits (fuel : nat) (t : tree) (p : list Z) : Prop :=
  match fuel, t with
  | S fuel, Dir es => (length es < fuel)%nat /\ (length p + 16 <= 512)%nat /\
      Forall (fun e => match e.2 with Dir _ => fits fuel e.2 (below p e.1.2) | _ => True end) es
  | _, _ => False
  end.

(** ** The calls *)

Section calls.
Variable node : list Z -> option (Z * list Z).
#[local] Existing Instance tree_os.
#[local] Existing Instance tree_os_ok.
Notation TW := (@world (tree_os node)).

Definition free (l : list (option (Z * list Z))) : nat := length (filter (fun x => x = None) l).

Lemma free_insert l i x : l !! i = Some None -> (free (<[i := Some x]> l) + 1 = free l)%nat.
Proof.
  intros Hi. unfold free. rewrite (insert_take_drop l i (Some x)) by (by eapply lookup_lt_Some). rewrite <- (take_drop_middle l i None Hi) at 3.
  rewrite !filter_app, !length_app, !filter_cons. rewrite decide_False by done. rewrite decide_True by done. cbn. lia.
Qed.

Lemma free_find l : (0 < free l)%nat -> exists i, list_find (fun x => x = None) l = Some (i, None) /\ l !! i = Some None.
Proof.
  intros Hf. destruct (list_find (fun x => x = None) l) as [[i x]|] eqn:E.
  - apply list_find_Some in E as E'. destruct E' as (Hi & -> & _). eauto.
  - exfalso. apply list_find_None in E. unfold free in Hf. rewrite Forall_forall in E.
    destruct (filter (fun x => x = None) l) as [|x r] eqn:Ef; [cbn in Hf; lia|].
    assert (x ∈ filter (fun x => x = None) l) as Hx by (rewrite Ef; by left). apply list_elem_of_filter in Hx as [-> Hx]. by apply (E None).
Qed.

(** Descriptors that were open still are, at the same place. *)
Definition kept (l l' : list (option (Z * list Z))) : Prop := forall fd f, fds_file l fd = Some f -> fds_file l' fd = Some f.

Lemma uwp_open p m f (Q : Z -> TW -> Prop) X (w : TW) : node p = Some f -> (0 < free (tw_fds w))%nat ->
  (forall i, tw_fds w !! i = Some None -> Q (Z.of_nat i) (mkTworld (<[i := Some f]> (tw_fds w)) (tw_out w))) -> uwp (open p m) Q X w.
Proof.
  intros Hn Hf HQ. destruct (free_find _ Hf) as (i & E & Hi). unfold uwp, open, call. cbn [sys_open tree_os]. rewrite Hn, E. by apply HQ.
Qed.

Lemma fds_file_new l i x : (i < length l)%nat -> fds_file (<[i := Some x]> l) (Z.of_nat i) = Some x.
Proof. intros Hi. unfold fds_file. rewrite (proj2 (Z.ltb_ge _ 0)) by lia. rewrite Nat2Z.id, list_lookup_insert_eq by done. done. Qed.

Lemma kept_new l i x : l !! i = Some None -> kept l (<[i := Some x]> l).
Proof.
  intros Hi fd f Hf. destruct (fds_file_lt _ _ _ Hf) as [Hfd Hl]. rewrite <- (Nat2Z.id i), fds_file_insert; [|lia|].
  - rewrite decide_False; [done|]. intros ->. rewrite Nat2Z.id in Hl. congruence.
  - rewrite Nat2Z.id. by eapply lookup_lt_Some.
Qed.

Lemma uwp_fstat fd ty c (Q : Z * (Z * Z * Z) -> TW -> Prop) X (w : TW) : fds_file (tw_fds w) fd = Some (ty, c) ->
  Q (0, (ty, 0, 0)) w -> uwp (fstat fd) Q X w.
Proof. intros Hf HQ. unfold uwp, fstat, call. cbn [sys_fstat tree_os]. by rewrite Hf. Qed.

(** stat() opens, looks and closes. *)
Lemma uwp_stat p ty c (Q : Z * (Z * Z * Z) -> TW -> Prop) X (w : TW) : node p = Some (ty, c) -> (0 < free (tw_fds w))%nat ->
  Q (0, (ty, 0, 0)) w -> uwp (Ulib.stat p) Q X w.
Proof.
  intros Hn Hf HQ. unfold Ulib.stat. uwp_step. apply (uwp_open _ _ _ _ _ _ Hn Hf). intros i Hi. pose proof (lookup_lt_Some _ _ _ Hi) as Hl.
  rewrite (proj2 (Z.ltb_ge _ 0)) by lia. uwp_step. eapply uwp_fstat; [cbn; by apply fds_file_new|]. uwp_step.
  unfold uwp at 1, close, call. cbn [sys_close tree_os tw_fds tw_out]. rewrite fds_file_new by done. uwp_steps.
  rewrite Nat2Z.id, list_insert_insert_eq, list_insert_id by done. by destruct w.
Qed.

(** read() of a directory delivers an entry. *)
Lemma uwp_read_entry fd ty e rest (Q : Z * list Z -> TW -> Prop) X (w : TW) : length e = 16%nat ->
  fds_file (tw_fds w) fd = Some (ty, e ++ rest) ->
  Q (16, e) (mkTworld (<[Z.to_nat fd := Some (ty, rest)]> (tw_fds w)) (tw_out w)) -> uwp (read fd 16) Q X w.
Proof.
  intros He Hf HQ. unfold uwp, read, call. cbn [sys_read tree_os]. rewrite Hf. change (Z.to_nat 16) with 16%nat.
  rewrite take_app_le, drop_app_ge by lia. rewrite take_ge by lia. by rewrite He, Nat.sub_diag, drop_0.
Qed.
End calls.

(** ** The array buf *)

Definition pad (name : list Z) : list Z := name ++ replicate (14 - length name) 0.

Lemma pad_length name : (length name < 14)%nat -> length (pad name) = 14%nat.
Proof. intros Hl. unfold pad. rewrite length_app, length_replicate. lia. Qed.

Lemma pad_zero name : (length name < 14)%nat -> exists r, pad name = name ++ 0 :: r.
Proof. intros Hl. unfold pad. replace (14 - length name)%nat with (S (13 - length name)) by lia. cbn. eauto. Qed.

Lemma encode_length e : entry_ok e -> length (encode e) = 16%nat.
Proof. intros (_ & _ & _ & Hl & _). unfold encode. rewrite length_app, le_bytes_length. fold (pad e.1.2). rewrite pad_length by done. done. Qed.

Lemma dirent_encode e : entry_ok e -> dirent_of (encode e) = (e.1.1, pad e.1.2).
Proof.
  intros (Hi & _ & _ & Hl & _). unfold dirent_of, encode. fold (pad e.1.2). f_equal.
  - rewrite take_app_length' by (by rewrite le_bytes_length). rewrite le_val_bytes. apply Z.mod_small. cbn. lia.
  - rewrite drop_app_length' by (by rewrite le_bytes_length). apply take_ge. by rewrite pad_length.
Qed.

(** buf starts with the path and a slash. *)
Definition buf_at (buf p : list Z) : Prop := length buf = 512%nat /\ exists r, buf = p ++ [47] ++ r.

Lemma buf_start junk p : length junk = 512%nat -> (length p + 16 <= 512)%nat ->
  buf_at (zset (strcpy junk p) (Z.of_nat (length p) + 1 - 1) 47) p.
Proof.
  intros Hj Hp. split; [rewrite zset_length; unfold strcpy; rewrite splice_length; rewrite ?length_app; cbn; lia|].
  unfold strcpy, splice, zset. rewrite Z.add_simpl_r, Nat2Z.id. change (take (Z.to_nat 0) junk) with (@nil Z). rewrite app_nil_l, <- app_assoc.
  set (r := drop _ junk). pose proof (insert_app_r p ([0] ++ r) 0 47) as E. rewrite Nat.add_0_r in E. rewrite E. cbn. eauto.
Qed.

Lemma buf_entry buf p name : buf_at buf p -> (length p + 16 <= 512)%nat -> (length name < 14)%nat ->
  buf_at (splice buf (Z.of_nat (length p) + 1) (pad name)) p /\
  exists r, splice buf (Z.of_nat (length p) + 1) (pad name) = p ++ [47] ++ pad name ++ r.
Proof.
  intros [Hl [r E]] Hp Hn. pose proof (pad_length name Hn) as Hpad.
  assert (splice buf (Z.of_nat (length p) + 1) (pad name) = p ++ [47] ++ pad name ++ drop 14 r) as Es.
  { unfold splice. replace (Z.to_nat (Z.of_nat (length p) + 1)) with (length (p ++ [47])) by (rewrite length_app; cbn; lia).
    rewrite E, Hpad, (app_assoc p), take_app_length, <- drop_drop, drop_app_length. by rewrite <- app_assoc. }
  split; [|eauto]. split; [|rewrite Es; eauto]. rewrite splice_length; lia.
Qed.

Lemma buf_path p name r : 0 ∉ p -> 0 ∉ name -> (length name < 14)%nat ->
  cstring (p ++ [47] ++ pad name ++ r) = below p name /\
  cstring (drop (Z.to_nat (Z.of_nat (length p) + 1)) (p ++ [47] ++ pad name ++ r)) = name.
Proof.
  intros Hp Hn Hl. destruct (pad_zero name Hl) as [z ->]. split.
  - replace (p ++ [47] ++ (name ++ 0 :: z) ++ r) with ((p ++ [47] ++ name) ++ 0 :: (z ++ r)) by (by rewrite <- !app_assoc).
    apply cstring_app. set_solver.
  - replace (Z.to_nat (Z.of_nat (length p) + 1)) with (length (p ++ [47])) by (rewrite length_app; cbn; lia).
    rewrite app_assoc, drop_app_length, <- app_assoc. by apply cstring_app.
Qed.

Lemma buf_dots p name r : (length name < 14)%nat -> let buf := p ++ [47] ++ pad name ++ r in
  negb (zget buf (Z.of_nat (length p) + 1) =? 46) && negb (zget buf (Z.of_nat (length p) + 1 + 1) =? 46) = enters name.
Proof.
  intros Hl buf.
  assert (forall k, (k < 14)%nat -> zget buf (Z.of_nat (length p) + 1 + Z.of_nat k) = default 0 (name !! k)) as Hz.
  { intros k Hk. unfold zget, buf. replace (Z.to_nat (Z.of_nat (length p) + 1 + Z.of_nat k)) with (length (p ++ [47%Z]) + k)%nat by (rewrite length_app; cbn; lia).
    rewrite app_assoc, lookup_total_app_r by lia. rewrite Nat.add_comm, Nat.add_sub. rewrite lookup_total_app_l by (rewrite pad_length by done; lia).
    unfold pad. destruct (decide (k < length name)%nat) as [Hlt|Hge].
    - rewrite lookup_total_app_l by done. destruct (lookup_lt_is_Some_2 _ _ Hlt) as [x Hx]. rewrite Hx. cbn. by apply list_lookup_total_correct.
    - rewrite lookup_total_app_r by lia. rewrite lookup_total_replicate_2 by lia. by rewrite lookup_ge_None_2 by lia. }
  pose proof (Hz 0%nat ltac:(lia)) as H0. pose proof (Hz 1%nat ltac:(lia)) as H1. rewrite Z.add_0_r in H0. change (Z.of_nat 1) with 1 in H1.
  rewrite H0, H1. unfold enters. f_equal; f_equal; [destruct (name !! 0%nat) as [x|]|destruct (name !! 1%nat) as [x|]]; cbn; try done;
    destruct (Z.eqb_spec x 46); case_bool_decide; congruence.
Qed.

(** ** The search *)

Section find.
Variable node : list Z -> option (Z * list Z).
#[local] Existing Instance tree_os.
#[local] Existing Instance tree_os_ok.
Notation TW := (@world (tree_os node)).
Variable junk : TW -> list Z.
Hypothesis junk_length : forall w, length (junk w) = 512%nat.
Variable file : list Z.
Hypothesis file_ok : 0 ∉ file /\ bytes_ok file.

Definition entry_found (p : list Z) (e : Z * list Z * tree) : list Z :=
  if e.1.1 =? 0 then [] else
  match e.2 with
  | Leaf ty => if ((ty =? T_FILE) || (ty =? T_DEVICE)) && bool_decide (e.1.2 = file) then below p e.1.2 ++ [10] else []
  | Dot => []
  | Dir _ => if enters e.1.2 then found file e.2 (below p e.1.2) else []
  end.
Definition entry_opens (e : Z * list Z * tree) : nat :=
  if e.1.1 =? 0 then 0%nat else
  match e.2 with Dir _ => if enters e.1.2 then opens e.2 else 0%nat | _ => 0%nat end.

(** From [w] to [w'] find has printed [out] and left [k] more descriptors open. *)
Definition searched (w : TW) (k : nat) (out : list Z) (w' : TW) : Prop :=
  kept (tw_fds w) (tw_fds w') /\ (free (tw_fds w') + k = free (tw_fds w))%nat /\
  printed w' 1 = printed w 1 ++ out.

Definition searches (fuel : nat) : Prop := forall p es (w : TW),
  holds node p (Dir es) -> fits fuel (Dir es) p -> 0 ∉ p -> bytes_ok p ->
  (opens (Dir es) < free (tw_fds w))%nat -> is_Some (fds_file (tw_fds w) 1) ->
  uwp (find_file junk fuel p file) (fun _ w' => searched w (opens (Dir es)) (found file (Dir es) p) w') (fun _ _ => False) w.

(** The body of the loop for an entry [bs]. *)
Definition find_entry (fuel : nat) (path buf bs : list Z) : @U (tree_os node) (list Z + unit) :=
  let p := Z.of_nat (length path) + 1 in
  let '(inum, name) := dirent_of bs in
  if inum =? 0 then ret (inl buf) else
  let buf := splice buf p name in
  do (r, st) <- Ulib.stat (cstring buf) ;;
  if r <? 0 then printf (str "ls: cannot stat %s" ++ [10]) [Vstr (Some (cstring buf))] ;;; ret (inl buf) else
  let type := st.1.1 in
  if type =? T_DIR then
    when (negb (zget buf p =? 46) && negb (zget buf (p + 1) =? 46)) (find_file junk fuel (cstring buf) file) ;;;
    ret (inl buf)
  else
    when (((type =? T_FILE) || (type =? T_DEVICE)) && (strcmp (cstring (drop (Z.to_nat p) buf)) file =? 0))
      (printf (str "%s" ++ [10]) [Vstr (Some (cstring buf))]) ;;;
    ret (inl buf).

Lemma searched_refl w : searched w 0 [] w.
Proof. split_and!; [by intros fd f|lia|by rewrite app_nil_r]. Qed.

Lemma below_ok p name : 0 ∉ p -> bytes_ok p -> 0 ∉ name -> bytes_ok name -> 0 ∉ below p name /\ bytes_ok (below p name).
Proof.
  intros Hp Bp Hn Bn. unfold below. split; [set_solver|]. unfold bytes_ok in *. rewrite !Forall_app. split_and!; [done| |done]. repeat constructor; lia.
Qed.

(** The entry of a file: its path is printed when the name is the one looked for. *)
Lemma print_match p name ty (Q : unit -> TW -> Prop) X (w : TW) :
  0 ∉ p -> bytes_ok p -> 0 ∉ name -> bytes_ok name -> is_Some (fds_file (tw_fds w) 1) ->
  (forall w', searched w 0 (if ((ty =? T_FILE) || (ty =? T_DEVICE)) && bool_decide (name = file) then below p name ++ [10] else []) w' -> Q tt w') ->
  uwp (when (((ty =? T_FILE) || (ty =? T_DEVICE)) && (strcmp name file =? 0)) (printf (str "%s" ++ [10]) [Vstr (Some (below p name))])) Q X w.
Proof.
  intros Hp Bp Hn Bn Hw HQ. destruct file_ok as [Hf Bf].
  assert ((strcmp name file =? 0) = bool_decide (name = file)) as ->.
  { pose proof (strcmp_eq name file Bn Bf Hn Hf) as E. case_bool_decide as Hb; [apply Z.eqb_eq, E, Hb|]. apply Z.eqb_neq. by rewrite E. }
  destruct (_ && bool_decide _); cbn [when]; [|uwp_steps; apply HQ, searched_refl].
  unfold printf. apply vprintf_spec; [exact Hw|]. intros w' (Hpr & _ & Hin). apply HQ. cbn in Hin. unfold searched. rewrite Hin.
  split_and!; [by intros fd f|lia|]. rewrite Hpr. f_equal.
  change (format_text (str "%s" ++ [10]) false [Vstr (Some (below p name))]) with (below p name ++ [10]).
  destruct (below_ok p name) as [_ Hb]; [done..|]. apply u8_bytes. unfold bytes_ok in *. rewrite Forall_app. split; [done|]. repeat constructor; lia.
Qed.

Lemma find_entry_ok fuel path buf e (Q : list Z + unit -> TW -> Prop) (w : TW) :
  searches fuel -> buf_at buf path -> (length path + 16 <= 512)%nat -> 0 ∉ path -> bytes_ok path -> entry_ok e ->
  (e.1.1 = 0 \/ holds node (below path e.1.2) e.2) -> match e.2 with Dir _ => fits fuel e.2 (below path e.1.2) | _ => True end ->
  (entry_opens e < free (tw_fds w))%nat -> is_Some (fds_file (tw_fds w) 1) ->
  (forall buf' w', buf_at buf' path -> searched w (entry_opens e) (entry_found path e) w' -> Q (inl buf') w') ->
  uwp (find_entry fuel path buf (encode e)) Q (fun _ _ => False) w.
Proof.
  intros IH Hbuf Hlen Hp Bp He Hh Hfit Hfree Hw HQ. unfold find_entry. rewrite dirent_encode by exact He.
  destruct He as (Hi & Hn & Bn & Hln & Hdot). destruct e as [[inum name] t]. cbn [fst snd] in *.
  unfold entry_opens, entry_found in *. cbn [fst snd] in *. destruct (Z.eqb_spec inum 0) as [_|Hi0].
  { uwp_steps. apply HQ; [exact Hbuf|apply searched_refl]. }
  destruct Hh as [?|Hh]; [done|]. destruct (buf_entry buf path name Hbuf Hlen Hln) as [Hbuf' [r Er]].
  destruct (buf_path path name r Hp Hn Hln) as [Hc Hd]. pose proof (buf_dots path name r Hln) as Hdots. cbv zeta in Hdots.
  rewrite <- Er in Hc, Hd, Hdots. rewrite Hc. uwp_step.
  inversion Hh as [p' ty c Hnode Hty|p' c Hnode|p' es Hnode Hes]; subst.
  - eapply uwp_stat; [exact Hnode|lia|]. change (0 <? 0) with false. cbv iota zeta. cbn [fst]. rewrite (proj2 (Z.eqb_neq _ _) Hty). rewrite Hd.
    uwp_step. apply print_match; auto. intros w' Hs. uwp_steps. by apply HQ.
  - eapply uwp_stat; [exact Hnode|lia|]. change (0 <? 0) with false. cbv iota zeta. cbn [fst]. change (T_DIR =? T_DIR) with true. cbv iota.
    rewrite Hdots. assert (enters name = false) as -> by (by destruct (Hdot eq_refl) as [-> | ->]). uwp_steps. apply HQ; [exact Hbuf'|apply searched_refl].
  - eapply uwp_stat; [exact Hnode|lia|]. change (0 <? 0) with false. cbv iota zeta. cbn [fst]. change (T_DIR =? T_DIR) with true. cbv iota.
    rewrite Hdots. destruct (enters name); cbn [when]; [|uwp_steps; apply HQ; [exact Hbuf'|apply searched_refl]].
    destruct (below_ok path name) as [Hz Hb]; [done..|]. uwp_step.
    eapply uwp_mono; [apply (IH (below path name) es w); auto|]. intros [] w' Hs. cbn beta in Hs. uwp_steps. by apply HQ.
Qed.

(** Reading on changes a descriptor of the directory only. *)
Lemma read_on (w0 w : TW) fd f g : kept (tw_fds w0) (tw_fds w) -> fds_file (tw_fds w0) fd = None -> fds_file (tw_fds w) fd = Some f ->
  let l := <[Z.to_nat fd := Some g]> (tw_fds w) in
  kept (tw_fds w0) l /\ fds_file l fd = Some g /\ free l = free (tw_fds w) /\ (is_Some (fds_file (tw_fds w0) 1) -> is_Some (fds_file l 1)).
Proof.
  intros Hk H0 Hf l. destruct (fds_file_lt _ _ _ Hf) as [Hfd Hl]. pose proof (lookup_lt_Some _ _ _ Hl) as Hlt.
  assert (kept (tw_fds w0) l) as Hkl.
  { intros fd' h Hh. unfold l. rewrite fds_file_insert by done. case_decide as Hd; [subst; congruence|auto]. }
  split_and!; [exact Hkl| | |intros [h Hh]; eauto].
  - unfold l. rewrite fds_file_insert by done. by rewrite decide_True.
  - unfold l, free. rewrite insert_take_drop by done. rewrite <- (take_drop_middle _ _ _ Hl) at 3.
    rewrite !filter_app, !length_app, !filter_cons. by rewrite !decide_False by done.
Qed.

(** The loop over the entries [es] not yet read from [fd]. *)
Lemma find_entries_ok fuel path fd (w0 : TW) es : forall n buf (w : TW),
  searches fuel -> buf_at buf path -> (length path + 16 <= 512)%nat -> 0 ∉ path -> bytes_ok path ->
  Forall (fun e => entry_ok e /\ (e.1.1 = 0 \/ holds node (below path e.1.2) e.2)) es ->
  Forall (fun e => match e.2 with Dir _ => fits fuel e.2 (below path e.1.2) | _ => True end) es ->
  kept (tw_fds w0) (tw_fds w) -> fds_file (tw_fds w0) fd = None -> is_Some (fds_file (tw_fds w0) 1) ->
  fds_file (tw_fds w) fd = Some (T_DIR, concat (encode <$> es)) ->
  (sum_list (map entry_opens es) < free (tw_fds w))%nat -> (length es < n)%nat ->
  uwp (loop n (fun buf => do (k, bs) <- read fd 16 ;; if negb (k =? 16) then ret (inr tt) else find_entry fuel path buf bs) buf)
    (fun _ w' => kept (tw_fds w0) (tw_fds w') /\ (free (tw_fds w') + sum_list (map entry_opens es) = free (tw_fds w))%nat /\
       printed w' 1 = printed w 1 ++ concat (map (entry_found path) es)) (fun _ _ => False) w.
Proof.
  induction es as [|e es IH]; intros n buf w Hs Hbuf Hlen Hz Hb Hes Hfit Hk H0 H1 Hf Hfree Hn; (destruct n as [|n]; [cbn in Hn; lia|]); cbn [loop]; do 2 uwp_step.
  - unfold uwp at 1, read, call. cbn [sys_read tree_os]. rewrite Hf. cbn [fmap list_fmap concat]. change (take (Z.to_nat 16) []) with (@nil Z).
    change (negb (Z.of_nat (length (@nil Z)) =? 16)) with true. uwp_steps. cbn [tw_fds tw_out].
    destruct (read_on w0 w fd _ (T_DIR, drop (Z.to_nat 16) []) Hk H0 Hf) as (Hk2 & _ & Hfr & _). split_and!; [exact Hk2| |by rewrite app_nil_r].
    rewrite Hfr. cbn. lia.
  - apply Forall_cons in Hes as [[He Hh] Hes]. apply Forall_cons in Hfit as [Hfe Hfit]. cbn [fmap list_fmap concat] in Hf.
    eapply uwp_read_entry; [by apply encode_length|exact Hf|]. change (negb (16 =? 16)) with false. cbv iota.
    destruct (read_on w0 w fd _ (T_DIR, concat (encode <$> es)) Hk H0 Hf) as (Hk2 & Hf2 & Hfr & H12). 
    change (sum_list (map entry_opens (e :: es))) with (entry_opens e + sum_list (map entry_opens es))%nat in *.
    set (w2 := mkTworld _ _). apply (find_entry_ok fuel path buf e); auto; [change (tw_fds w2) with (<[Z.to_nat fd := Some (T_DIR, concat (encode <$> es))]> (tw_fds w)); lia|].
    intros buf' w3 Hbuf' (K3 & F3 & P3). cbn beta iota. change (tw_fds w2) with (<[Z.to_nat fd := Some (T_DIR, concat (encode <$> es))]> (tw_fds w)) in K3, F3.
    eapply uwp_mono; [apply (IH n buf' w3); auto; [intros fd' f Hf'; auto|lia|cbn in Hn; lia]|].
    intros [] w4 (K4 & F4 & P4). split_and!; [exact K4|lia|]. rewrite P4, P3. cbn [map concat]. by rewrite app_assoc.
Qed.

Lemma find_file_ok fuel : searches fuel.
Proof.
  induction fuel as [|fuel IH]; intros p es w Hh Hfit Hz Hb Hfree H1; [done|].
  inversion Hh as [| |p' es' Hnode Hes]; subst. destruct Hfit as (Hn & Hlen & Hfit). cbn [find_file]. uwp_step.
  apply (uwp_open node p 0 _ _ _ _ Hnode); [lia|]. intros i Hi. pose proof (lookup_lt_Some _ _ _ Hi) as Hlt.
  rewrite (proj2 (Z.ltb_ge _ 0)) by lia. uwp_step. eapply uwp_fstat; [cbn; by apply fds_file_new|]. change (0 <? 0) with false. cbv iota.
  cbn [fst]. change (negb (T_DIR =? T_DIR)) with false. cbv iota. unfold strlen. rewrite u32_id by lia.
  rewrite (proj2 (Z.ltb_ge 512 _)) by (unfold DIRSIZ; lia). uwp_step. unfold uwp at 1, call. cbv zeta.
  set (w1 := mkTworld _ _).
  eapply uwp_mono; [apply (find_entries_ok fuel p (Z.of_nat i) w es fuel _ w1); auto|].
  - by apply buf_start.
  - by apply kept_new.
  - unfold fds_file. rewrite (proj2 (Z.ltb_ge _ 0)) by lia. by rewrite Nat2Z.id, Hi.
  - by apply fds_file_new.
  - pose proof (free_insert _ _ (T_DIR, concat (encode <$> es)) Hi) as Hfi. cbn [opens] in Hfree. unfold w1. cbn [tw_fds].
    change (map entry_opens es) with (map (fun e => if e.1.1 =? 0 then 0%nat else
      match e.2 with Dir _ => if enters e.1.2 then opens e.2 else 0%nat | _ => 0%nat end) es). lia.
  - intros [] w' (K & F & P). pose proof (free_insert _ _ (T_DIR, concat (encode <$> es)) Hi) as Hfi. split_and!; [exact K| |exact P].
    unfold w1 in F. cbn [tw_fds] in F. change (opens (Dir es)) with (S (sum_list (map entry_opens es))). lia.
Qed.
End find.

(** C34: find prints, in the order of the directories, the path of every file with the
    name below the directory, reached through directories whose names do not have
    a dot as first or second byte, and nothing else.  Every directory entered
    stays open, so there must be that many descriptors and one more; names are
    shorter than DIRSIZ and paths fit into the buffer. *)
Theorem find_correct (node : list Z -> option (Z * list Z)) (junk : tworld -> list Z) (file p : list Z) (es : list (Z * list Z * tree))
    (fuel : nat) (w : tworld) :
  (forall w, length (junk w) = 512%nat) -> 0 ∉ file /\ bytes_ok file -> 0 ∉ p -> bytes_ok p ->
  holds node p (Dir es) -> fits fuel (Dir es) p -> (opens (Dir es) < free (tw_fds w))%nat -> is_Some (fds_file (tw_fds w) 1) ->
  @uwp (tree_os node) _ (@find_file (tree_os node) junk fuel p file) (fun _ w' =>
    default [] (tw_out w' !! 1) = default [] (tw_out w !! 1) ++ found file (Dir es) p /\
    (free (tw_fds w') + opens (Dir es) = free (tw_fds w))%nat) (fun _ _ => False) w.
Proof.
  intros Hj Hfile Hz Hb Hh Hfit Hfree H1. eapply uwp_mono; [by apply (find_file_ok node junk Hj file Hfile fuel p es w)|].
  intros [] w' (_ & F & P). split; [exact P|exact F].
Qed.

(** The tree of the example: d holds ".", ".." , a file x and the directories e and
    .f, each with a file x. *)
Definition example_sub : list (Z * list Z * tree) := [(1, str ".", Dot); (1, str "..", Dot); (5, str "x", Leaf T_FILE)].
Definition example_dir : list (Z * list Z * tree) :=
  [(1, str ".", Dot); (1, str "..", Dot); (0, [], Leaf 0); (2, str "x", Leaf T_FILE); (3, str "e", Dir example_sub); (4, str ".f", Dir example_sub)].
Definition example_node (path : list Z) : option (Z * list Z) :=
  if bool_decide (path = str "d") then Some (T_DIR, concat (encode <$> example_dir))
  else if bool_decide (path = str "d/e" \/ path = str "d/.f") then Some (T_DIR, concat (encode <$> example_sub))
  else if bool_decide (last path = Some 46) then Some (T_DIR, [])
  else Some (T_FILE, []).
Definition example_world : tworld := mkTworld (replicate 3 (Some (T_DEVICE, [])) ++ replicate 13 None) ∅.

Lemma entry_okb e : bool_decide (0 <= e.1.1 < 2 ^ 16 /\ 0 ∉ e.1.2 /\ bytes_ok e.1.2 /\ (length e.1.2 < 14)%nat) = true ->
  (e.2 = Dot -> e.1.2 = str "." \/ e.1.2 = str "..") -> entry_ok e.
Proof. intros (A & B & C & D)%bool_decide_eq_true E. done. Qed.

Lemma example_holds : holds example_node (str "d") (Dir example_dir).
Proof.
  assert (forall p, p = str "d/e" \/ p = str "d/.f" -> holds example_node p (Dir example_sub)) as Hsub.
  { intros p Hp. apply holds_dir; [by destruct Hp as [-> | ->]|]. unfold example_sub.
    repeat (apply Forall_cons; split; [split; [apply entry_okb; [by vm_compute|by auto]|right]|]); [| | |constructor];
      [eapply holds_dot|eapply holds_dot|eapply holds_leaf; [|done]]; destruct Hp as [-> | ->]; vm_compute; reflexivity. }
  apply holds_dir; [by vm_compute|]. unfold example_dir.
  repeat (apply Forall_cons; split; [split; [apply entry_okb; [by vm_compute|by auto]|]|]); [..|constructor].
  - right. eapply holds_dot. by vm_compute.
  - right. eapply holds_dot. by vm_compute.
  - by left.
  - right. eapply holds_leaf; by vm_compute.
  - right. apply Hsub. by left.
  - right. apply Hsub. by right.
Qed.

(** find d x: the file in .f is not found. *)
Lemma find_correct_witness :
  @uwp (tree_os example_node) _ (@find_file (tree_os example_node) (fun _ => replicate 512 7) 10 (str "d") (str "x")) (fun _ w' =>
    default [] (tw_out w' !! 1) = str "d/x" ++ [10] ++ str "d/e/x" ++ [10] /\ free (tw_fds w') = 11%nat) (fun _ _ => False) example_world.
Proof.
  eapply uwp_mono; [apply (find_correct example_node (fun _ => replicate 512 7) (str "x") (str "d") example_dir 10 example_world)|].
  - done.
  - split; [apply (bool_decide_unpack (0 ∉ str "x")); by vm_compute|repeat constructor; done].
  - apply (bool_decide_unpack (0 ∉ str "d")). by vm_compute.
  - repeat constructor; done.
  - exact example_holds.
  - cbn. repeat (split || constructor); cbn; try lia.
  - vm_compute. lia.
  - by eexists.
  - intros [] w' [P F]. split; [exact P|]. change (opens (Dir example_dir)) with 2%nat in F. change (free (tw_fds example_world)) with 13%nat in F. lia.
Defined.
