(* ===== verification/Pingpong.v ===== *)
(** * user/pingpong.c: one pipe in both directions.

    A step is a step of the parent or of the child; the pipe is the number of
    bytes in it, all of them 'a'.  Both processes keep both ends open, so a read
    of the empty pipe waits. *)

From S2P Require Import Prelude.

Inductive message : Type := Ping | Pong.
Inductive parent : Type := PWrite | PRead | PPrint | PWait | PExited.
Inductive child : Type := CRead | CPrint | CWrite | CExited.

Record pp := mkPp { pp_parent : parent; pp_child : child; pp_pipe : nat; pp_out : list message }.

#[export] Instance message_eq : EqDecision message.
Proof. solve_decision. Defined.
#[export] Instance parent_eq : EqDecision parent.
Proof. solve_decision. Defined.
#[export] Instance child_eq : EqDecision child.
Proof. solve_decision. Defined.
#[export] Instance pp_eq : EqDecision pp.
Proof. solve_decision. Defined.

Definition parent_step (s : pp) : option pp :=
  let '(mkPp p c n o) := s in
  match p, n with
  | PWrite, _ => Some (mkPp PRead c (S n) o)
  | PRead, S n => Some (mkPp PPrint c n o)
  | PRead, O => None
  | PPrint, _ => Some (mkPp PWait c n (o ++ [Pong]))
  | PWait, _ => if decide (c = CExited) then Some (mkPp PExited c n o) else None
  | PExited, _ => None
  end.

Definition child_step (s : pp) : option pp :=
  let '(mkPp p c n o) := s in
  match c, n with
  | CRead, S n => Some (mkPp p CPrint n o)
  | CRead, O => None
  | CPrint, _ => Some (mkPp p CWrite n (o ++ [Ping]))
  | CWrite, _ => Some (mkPp p CExited (S n) o)
  | CExited, _ => None
  end.

Definition pp_step (s s' : pp) : Prop := parent_step s = Some s' \/ child_step s = Some s'.
Definition pp_init : pp := mkPp PWrite CRead 0 [].
Definition pp_stuck (s : pp) : Prop := parent_step s = None /\ child_step s = None.

(** The states that can be reached, by breadth-first search. *)
Definition pp_next (s : pp) : list pp := option_list (parent_step s) ++ option_list (child_step s).
Fixpoint pp_search (n : nat) (seen : list pp) : list pp :=
  match n with
  | O => seen
  | S n => pp_search n (remove_dups (seen ++ (seen ≫= pp_next)))
  end.
Definition pp_states : list pp := pp_search 8 [pp_init].

Lemma pp_states_closed s s' : s ∈ pp_states -> pp_step s s' -> s' ∈ pp_states.
Proof.
  assert (Forall (fun s => Forall (fun s' => s' ∈ pp_states) (pp_next s)) pp_states) as Hall by (refine (bool_decide_eq_true_1 _ _); vm_compute; reflexivity).
  intros Hs Hst. rewrite Forall_forall in Hall. specialize (Hall s Hs). rewrite Forall_forall in Hall. apply Hall.
  unfold pp_next. rewrite elem_of_app. destruct Hst as [-> | ->]; [left|right]; by apply list_elem_of_singleton.
Qed.

(** A run by a schedule: [true] is a step of the parent. *)
Fixpoint pp_run (sched : list bool) (s : pp) : option pp :=
  match sched with
  | [] => Some s
  | b :: sched => s' ← (if b then parent_step s else child_step s); pp_run sched s'
  end.
Lemma run_rtc sched s s' : pp_run sched s = Some s' -> rtc pp_step s s'.
Proof.
  revert s. induction sched as [|b sched IH]; cbn; intros s; [intros [= <-]; constructor|].
  intros (s1 & Hs & Hr)%bind_Some. eapply rtc_l; [|by apply IH]. destruct b; [by left|by right].
Qed.

(** C35: a run of pingpong ends in one of two ways, and both happen: ping and pong are
    printed in this order and both processes exit; or the parent takes its own byte
    back out of the pipe, prints pong, and then waits for the child, which waits for
    a byte that nobody will write. *)
Theorem pingpong_outcomes :
  (forall s, rtc pp_step pp_init s -> pp_stuck s ->
     s = mkPp PExited CExited 0 [Ping; Pong] \/ s = mkPp PWait CRead 0 [Pong]) /\
  rtc pp_step pp_init (mkPp PExited CExited 0 [Ping; Pong]) /\
  rtc pp_step pp_init (mkPp PWait CRead 0 [Pong]) /\ pp_stuck (mkPp PWait CRead 0 [Pong]).
Proof.
  split_and!.
  - intros s Hr Hst.
    assert (s ∈ pp_states) as Hs.
    { assert (forall a, a ∈ pp_states -> rtc pp_step a s -> s ∈ pp_states) as Hind.
      { intros a Ha Has. induction Has as [a|a b c Hab _ IH]; [exact Ha|]. by apply IH, (pp_states_closed a). }
      apply (Hind pp_init); [|exact Hr]. refine (bool_decide_eq_true_1 _ _); vm_compute; reflexivity. }
    assert (Forall (fun s => parent_step s = None /\ child_step s = None ->
      s = mkPp PExited CExited 0 [Ping; Pong] \/ s = mkPp PWait CRead 0 [Pong]) pp_states) as Hall by (refine (bool_decide_eq_true_1 _ _); vm_compute; reflexivity).
    rewrite Forall_forall in Hall. exact (Hall s Hs Hst).
  - apply (run_rtc [true; false; false; false; true; true; true]). reflexivity.
  - apply (run_rtc [true; true; true]). reflexivity.
  - done.
Qed.
