(* ===== verification/Mkfs.v ===== *)
(** * mkfs.c: the program that builds the file system image.

    The image file is the map of its blocks of BSIZE bytes; a block that is not
    in the map lies beyond the end of the file.  A struct dinode is the kernel's
    [inode], of which [write_dinode] stores the fields of the disk.  The host is
    a little-endian machine whose system calls on the image file succeed; exit
    with status 1 and a failed assert are [panic]. *)

From S2P Require Import Prelude Exec Params State Mem Vm Sched Sleeplock Bio Log RingBuf Uart Printf Console Fs FsBlock.

Record image := mkImage {
  im_block : gmap Z (list Z);       (* the file fsfd is open on *)
  im_freeinode : Z;
  im_freeblock : Z;
}.
Definition with_im_block (v : gmap Z (list Z)) (s : image) : image := mkImage v (im_freeinode s) (im_freeblock s).
Definition with_im_freeinode (v : Z) (s : image) : image := mkImage (im_block s) v (im_freeblock s).
Definition with_im_freeblock (v : Z) (s : image) : image := mkImage (im_block s) (im_freeinode s) v.

Notation IM := (M image).

Definition assert (b : bool) : IM unit := if b then ret tt else panic "assert".

Definition NINODES : Z := 200.
Definition nbitmap : Z := FSSIZE / (BSIZE * 8) + 1.
Definition ninodeblocks : Z := NINODES / IPB + 1.
Definition nlog : Z := LOGSIZE.
Definition nmeta : Z := 2 + nlog + ninodeblocks + nbitmap.
Definition nblocks : Z := FSSIZE - nmeta.

(** The bytes of [y], stored one by one. *)
Definition xshort (x : Z) : Z := le_val [u8 x; u8 (Z.shiftr x 8)].
Definition xint (x : Z) : Z := le_val [u8 x; u8 (Z.shiftr x 8); u8 (Z.shiftr x 16); u8 (Z.shiftr x 24)].

Definition sb : superblock :=
  mkSuperblock FSMAGIC (xint FSSIZE) (xint (u32 nblocks)) (xint NINODES) (xint nlog) (xint 2) (xint (2 + nlog))
    (xint (2 + nlog + ninodeblocks)).

(** sizeof(sb) bytes at &sb. *)
Definition sb_bytes : list Z :=
  concat (le_bytes 4 <$> [sb_magic sb; sb_size sb; sb_nblocks sb; sb_ninodes sb; sb_nlog sb; sb_logstart sb; sb_inodestart sb; sb_bmapstart sb]).

(** The block at offset [sec * BSIZE], a product of unsigned ints. *)
Definition sector (sec : Z) : Z := u32 (sec * BSIZE) / BSIZE.

Definition wsect (sec : Z) (buf : list Z) : IM unit :=
  modify (fun s => with_im_block (<[sector sec := buf]> (im_block s)) s).

Definition rsect (sec : Z) : IM (list Z) :=
  b <- gets (fun s => im_block s !! sector sec) ;;
  match b with
  | Some buf => ret buf
  | None => panic "read"
  end.

Definition winode (inum : Z) (ip : inode) : IM unit :=
  let bn := IBLOCK inum sb in
  buf <- rsect bn ;;
  wsect bn (write_dinode buf (dinode_off inum) ip).

Definition rinode (inum : Z) : IM inode :=
  buf <- rsect (IBLOCK inum sb) ;;
  ret (read_dinode buf (dinode_off inum) inhabitant).

(** The value of [freeinode++] and [freeblock++]. *)
Definition next_inode : IM Z :=
  n <- gets im_freeinode ;;
  modify (with_im_freeinode (u32 (n + 1))) ;;;
  ret n.
Definition next_block : IM Z :=
  n <- gets im_freeblock ;;
  modify (with_im_freeblock (u32 (n + 1))) ;;;
  ret n.

Definition ialloc (type : Z) : IM Z :=
  inum <- next_inode ;;
  let din := with_i_addrs (replicate (Z.to_nat (NDIRECT + 1)) 0) inhabitant in
  let din := with_i_type (i16 (xshort type)) din in
  let din := with_i_nlink (i16 (xshort 1)) din in
  let din := with_i_size (xint 0) din in
  winode inum din ;;;
  ret inum.

(** The bitmap with the first [used] bits set. *)
Definition bitmap (used : Z) : list Z :=
  fold_left (fun buf i => zset buf (i / 8) (u8 (Z.lor (zget buf (i / 8)) (Z.shiftl 1 (i mod 8))))) (seqZ 0 used) zeros.

Definition balloc (used : Z) : IM unit :=
  assert (used <? BSIZE * 8) ;;;
  wsect (sb_bmapstart sb) (bitmap used).

(** The block of the image for block [fbn] of the file, allocated if need be. *)
Definition file_block (din : inode) (fbn : Z) : IM (inode * Z) :=
  if fbn <? NDIRECT then
    din <- (if xint (zget (i_addrs din) fbn) =? 0
            then b <- next_block ;; ret (with_i_addrs (zset (i_addrs din) fbn (xint b)) din)
            else ret din) ;;
    ret (din, xint (zget (i_addrs din) fbn))
  else
    din <- (if xint (zget (i_addrs din) NDIRECT) =? 0
            then b <- next_block ;; ret (with_i_addrs (zset (i_addrs din) NDIRECT (xint b)) din)
            else ret din) ;;
    let ind := xint (zget (i_addrs din) NDIRECT) in
    indirect <- rsect ind ;;
    indirect <- (if get32 indirect (4 * (fbn - NDIRECT)) =? 0
                 then b <- next_block ;;
                      let indirect := put32 indirect (4 * (fbn - NDIRECT)) (xint b) in
                      wsect ind indirect ;;;
                      ret indirect
                 else ret indirect) ;;
    ret (din, xint (get32 indirect (4 * (fbn - NDIRECT)))).

(** One iteration of the loop of iappend(): the inode, the offset and the bytes
    at [p] that are left. *)
Definition append_block (st : inode * Z * list Z) : IM (inode * Z * list Z + inode * Z) :=
  let '(din, off, p) := st in
  let n := Z.of_nat (length p) in
  if n <=? 0 then ret (inr (din, off)) else
  let fbn := off / BSIZE in
  assert (fbn <? MAXFILE) ;;;
  do (din, x) <- file_block din fbn ;;
  let n1 := Z.min n (u32 ((fbn + 1) * BSIZE - off)) in
  buf <- rsect x ;;
  wsect x (splice buf (off - fbn * BSIZE) (take (Z.to_nat n1) p)) ;;;
  ret (inl (din, u32 (off + n1), drop (Z.to_nat n1) p)).

Definition iappend (inum : Z) (p : list Z) : IM unit :=
  din <- rinode inum ;;
  do (din, off) <- loop (S (length p)) append_block (din, xint (i_size din), p) ;;
  winode inum (with_i_size (xint off) din).

(** The sizeof(de) bytes of a struct dirent. *)
Definition dirent_bytes (inum : Z) (name : list Z) : list Z := le_bytes 2 (xshort inum) ++ name.

(** The name the file [path] gets: without the directory, and without a leading _. *)
Definition basename (path : list Z) : list Z := if strncmp path (str "user/") 5 =? 0 then drop 5 path else path.
Definition shortname (path : list Z) : list Z :=
  let n := basename path in if chr n =? 95 then tail n else n.

(** An input file: its path, and what the reads of it return until the end, or
    [None] if it cannot be opened. *)
Definition input : Type := list Z * option (list (list Z)).

Definition add_file (rootino : Z) (f : input) : IM unit :=
  let '(path, data) := f in
  assert (negb (bool_decide (47 ∈ basename path))) ;;;
  match data with
  | None => panic "open"
  | Some chunks =>
      inum <- ialloc T_FILE ;;
      iappend rootino (dirent_bytes inum (strncpy (shortname path) (Z.to_nat DIRSIZ))) ;;;
      forM chunks (iappend inum)
  end.

Definition dot (name : list Z) : list Z := name ++ replicate (Z.to_nat DIRSIZ - length name) 0.

(** main(), from the truncated image file on; [files] are argv[2], .... *)
Definition main (files : list input) : IM unit :=
  modify (with_im_freeblock nmeta) ;;;
  forM (seqZ 0 FSSIZE) (fun i => wsect i zeros) ;;;
  wsect 1 (splice zeros 0 sb_bytes) ;;;
  rootino <- ialloc T_DIR ;;
  assert (rootino =? ROOTINO) ;;;
  iappend rootino (dirent_bytes rootino (dot (str "."))) ;;;
  iappend rootino (dirent_bytes rootino (dot (str ".."))) ;;;
  forM files (add_file rootino) ;;;
  din <- rinode rootino ;;
  let off := xint (i_size din) in
  let off := u32 ((off / BSIZE + 1) * BSIZE) in
  winode rootino (with_i_size (xint off) din) ;;;
  used <- gets im_freeblock ;;
  balloc (i32 used).

Definition image0 : image := mkImage ∅ 1 0.
