(* ===== verification/MkfsFile.v ===== *)
(** * mkfs.c, first part of the proofs: the blocks of a file that only grows.

    [rep c hi a nb l]: on the blocks [c] the file with block addresses [a] has
    its first [nb] blocks, all of them below [hi], and they hold [l] followed by
    zeros. *)

From S2P Require Import Prelude Exec Params State Mem Vm VmTable VmUser Sched Sleeplock Bio BioSpec Log LogSpec LogCrash LogOp.
From S2P Require Import RingBuf Uart Printf Console Fs FsBlock FsFile FsInode FsData FsWrite Mkfs.

(** The number of blocks that hold [n] bytes, and what [nb] blocks cost with the indirect block. *)
Definition blocks (n : Z) : Z := (n + BSIZE - 1) / BSIZE.
Definition cost (nb : Z) : Z := nb + b2z (NDIRECT <? nb).

Definition len (l : list Z) : Z := Z.of_nat (length l).

Record rep (c : Z -> list Z) (hi : Z) (a : list Z) (nb : Z) (l : list Z) : Prop := {
  rp_len : length a = Z.to_nat (NDIRECT + 1);
  rp_nb : 0 <= nb <= MAXFILE;
  rp_fit : len l <= nb * BSIZE;
  rp_ind : zget a NDIRECT = 0 <-> nb <= NDIRECT;
  rp_map : forall bn, 0 <= bn < MAXFILE -> baddr c a bn = 0 <-> nb <= bn;
  rp_range : forall k, 0 <= k <= MAXFILE -> owned c a k <> 0 -> nmeta <= owned c a k < hi;
  rp_inj : forall j k, 0 <= j <= MAXFILE -> 0 <= k <= MAXFILE -> owned c a j <> 0 -> owned c a j = owned c a k -> j = k;
  rp_bytes : forall o, 0 <= o < nb * BSIZE -> file_byte c a o = default 0 (l !! Z.to_nat o);
}.

Lemma nmeta_eq : nmeta = 46. Proof. reflexivity. Qed.
Lemma fssize_eq : FSSIZE = 2000. Proof. reflexivity. Qed.

Ltac sizes := rewrite ?ndirect_eq, ?maxfile_eq, ?bsize_eq, ?nmeta_eq, ?fssize_eq, ?nindirect_eq in *.

Lemma owned_lt c a k : k < MAXFILE -> owned c a k = baddr c a k.
Proof. intros Hk. unfold owned. by rewrite (proj2 (Z.eqb_neq k MAXFILE)) by lia. Qed.

Lemma owned_max c a : owned c a MAXFILE = zget a NDIRECT.
Proof. unfold owned. by rewrite Z.eqb_refl. Qed.

Lemma baddr_direct c a k : k < NDIRECT -> baddr c a k = zget a k.
Proof. intros Hk. unfold baddr. by rewrite (proj2 (Z.ltb_lt _ _) Hk). Qed.

Lemma baddr_indirect c a k : NDIRECT <= k -> zget a NDIRECT <> 0 ->
  baddr c a k = get32 (c (zget a NDIRECT)) (4 * (k - NDIRECT)).
Proof. intros Hk Hi. unfold baddr. rewrite (proj2 (Z.ltb_ge _ _) Hk), (proj2 (Z.eqb_neq _ 0) Hi). reflexivity. Qed.

Lemma baddr_hole c a k : NDIRECT <= k -> zget a NDIRECT = 0 -> baddr c a k = 0.
Proof. intros Hk Hi. unfold baddr. by rewrite (proj2 (Z.ltb_ge _ _) Hk), Hi. Qed.

(** The addresses fit the fields of the inode. *)
Lemma rep_addrs c hi a nb l : rep c hi a nb l -> hi <= FSSIZE -> Forall (fun x => 0 <= x < 2 ^ 32) a.
Proof.
  intros R Hh. apply Forall_lookup. intros k x Hx. pose proof (lookup_lt_Some _ _ _ Hx) as Hk. rewrite (rp_len _ _ _ _ _ R) in Hk.
  assert (x = owned c a (if Z.of_nat k =? NDIRECT then MAXFILE else Z.of_nat k)) as E.
  { sizes. destruct (Z.eqb_spec (Z.of_nat k) 12) as [E|E].
    - rewrite <- maxfile_eq, owned_max. unfold zget. sizes. rewrite <- E, Nat2Z.id. symmetry. by apply list_lookup_total_correct.
    - rewrite owned_lt, baddr_direct by (sizes; lia). unfold zget. rewrite Nat2Z.id. symmetry. by apply list_lookup_total_correct. }
  destruct (decide (x = 0)) as [->|Hne]; [lia|].
  pose proof (rp_range _ _ _ _ _ R (if Z.of_nat k =? NDIRECT then MAXFILE else Z.of_nat k)) as Hr. rewrite <- E in Hr.
  sizes. destruct (Z.of_nat k =? 12); lia.
Qed.

(** ** Changes of other blocks *)

Section frame.
Variables (c c' : Z -> list Z) (a : list Z).
Hypothesis same : forall k, 0 <= k <= MAXFILE -> owned c a k <> 0 -> c' (owned c a k) = c (owned c a k).

Lemma frame_owned k : owned c' a k = owned c a k.
Proof.
  unfold owned. destruct (k =? MAXFILE); [reflexivity|]. apply baddr_ext. intros Hi.
  specialize (same MAXFILE). rewrite owned_max in same. apply same; [sizes; lia|exact Hi].
Qed.

Lemma rep_frame hi hi' nb l : hi <= hi' -> rep c hi a nb l -> rep c' hi' a nb l.
Proof.
  intros Hh [A N F I Mp Rg J B].
  assert (forall k, 0 <= k < MAXFILE -> baddr c' a k = baddr c a k) as Eb.
  { intros k Hk. rewrite <- !owned_lt by lia. apply frame_owned. }
  split; [exact A|exact N|exact F|exact I| | | |].
  - intros bn Hbn. rewrite Eb by exact Hbn. auto.
  - intros k Hk. rewrite frame_owned. intros Hne. specialize (Rg k Hk Hne). lia.
  - intros j k Hj Hk. rewrite !frame_owned. auto.
  - intros o Ho. rewrite <- B by exact Ho. unfold file_byte.
    assert (0 <= o / BSIZE < nb) as Hb by (sizes; dlia). rewrite Eb by lia. f_equal.
    rewrite <- owned_lt by lia. apply same; [lia|]. rewrite owned_lt by lia. rewrite Mp by lia. lia.
Qed.
End frame.

(** ** One more block *)

Ltac cases := repeat match goal with |- context [?x =? ?y] => destruct (Z.eqb_spec x y) end; cbn [andb].

(** Block number [nb] of the file becomes [hi' - 1], and the indirect block
    becomes [hi] if it was not needed before. *)
Lemma rep_add c c' hi a a' nb l : let hi' := hi + 1 + b2z (nb =? NDIRECT) in
  rep c hi a nb l -> nmeta <= hi -> nb < MAXFILE -> length a' = length a ->
  (forall k, 0 <= k <= MAXFILE -> owned c' a' k =
     if k =? nb then hi' - 1 else if (k =? MAXFILE) && (nb =? NDIRECT) then hi else owned c a k) ->
  (forall k, 0 <= k < nb -> c' (baddr c a k) = c (baddr c a k)) -> c' (hi' - 1) = zeros ->
  rep c' hi' a' (nb + 1) l.
Proof.
  intros hi' [A N F I Mp Rg J B] Hhi Hnb Hl Ho Hc Hz.
  assert (forall k, 0 <= k < MAXFILE -> baddr c' a' k = if k =? nb then hi' - 1 else baddr c a k) as Eb.
  { intros k Hk. rewrite <- owned_lt, Ho by lia. cases; try lia; apply owned_lt; lia. }
  assert (0 < hi' - 1 /\ hi <= hi' - 1 /\ (nb = NDIRECT -> hi < hi' - 1) /\ hi' - 1 < hi') as (P1 & P2 & P3 & P4).
  { subst hi'. sizes. destruct (Z.eqb_spec nb 12); simpl b2z; lia. }
  clearbody hi'. split; [congruence|lia|sizes; lia| | | | |].
  - rewrite <- (owned_max c'), Ho by (sizes; lia). rewrite owned_max. sizes. cases; lia.
  - intros bn Hbn. rewrite Eb by exact Hbn. specialize (Mp bn Hbn). cases; lia.
  - intros k Hk. rewrite Ho by exact Hk. specialize (Rg k Hk). cases; sizes; lia.
  - intros j k Hj Hk. rewrite !Ho by assumption. pose proof (Rg j Hj). pose proof (Rg k Hk). specialize (J j k Hj Hk).
    cases; sizes; lia.
  - intros o Hoo. unfold file_byte. assert (0 <= o / BSIZE < nb + 1) as Hb by (sizes; dlia). rewrite Eb by lia.
    destruct (Z.eqb_spec (o / BSIZE) nb) as [D|D].
    + rewrite Hz. rewrite lookup_ge_None_2 by (unfold len in F; sizes; dlia). unfold zeros, zget.
      apply lookup_total_replicate_2. sizes. dlia.
    + rewrite Hc by lia. apply B. sizes. dlia.
Qed.

(** ** Bytes at the end of the file *)

Section write.
Variables (c : Z -> list Z) (hi : Z) (a : list Z) (nb : Z) (l p : list Z).
Hypothesis R : rep c hi a nb l.
Let off := len l mod BSIZE.
Let fbn := len l / BSIZE.
Hypothesis blocks_len : length (c (baddr c a fbn)) = Z.to_nat BSIZE.
Hypothesis have : fbn < nb.
Hypothesis part : off + len p <= BSIZE.
Let x := baddr c a fbn.
Let c' := put_block c (x, splice (c x) off p).

Lemma write_at m : c' m = if decide (m = x) then splice (c x) off p else c m.
Proof. reflexivity. Qed.

Lemma write_owned k : owned c' a k = owned c a k.
Proof.
  unfold owned. destruct (k =? MAXFILE); [reflexivity|]. apply baddr_ext. intros Hi. rewrite write_at. rewrite decide_False; [reflexivity|].
  intros E. destruct R as [_ N _ _ _ _ J _]. assert (0 <= fbn) by (unfold fbn, len; sizes; dlia).
  assert (MAXFILE = fbn); [|lia]. apply J; [sizes; lia|lia|by rewrite owned_max|]. rewrite owned_max, owned_lt by lia. exact E.
Qed.

Lemma rep_write : rep c' hi a nb (l ++ p).
Proof.
  pose proof R as [A N F I Mp Rg J B]. unfold len in *.
  assert (forall k, 0 <= k < MAXFILE -> baddr c' a k = baddr c a k) as Eb.
  { intros k Hk. rewrite <- !owned_lt by lia. apply write_owned. }
  assert (0 <= fbn /\ 0 <= off < BSIZE /\ Z.of_nat (length l) = fbn * BSIZE + off) as (F0 & F1 & F2) by (unfold fbn, off, len; sizes; dlia).
  assert (length (c x) = Z.to_nat BSIZE) as Hx by exact blocks_len.
  split; [exact A|exact N| |exact I| | | |].
  - unfold len. rewrite length_app. sizes. nia.
  - intros bn Hbn. rewrite Eb by exact Hbn. auto.
  - intros k Hk. rewrite write_owned. auto.
  - intros j k Hj Hk. rewrite !write_owned. auto.
  - intros o Ho. unfold file_byte. assert (0 <= o / BSIZE < nb) as Hb by (sizes; dlia). rewrite Eb, write_at by lia.
    specialize (B o Ho). unfold file_byte in B. case_decide as D.
    + assert (o / BSIZE = fbn) as E. { apply J; [lia|lia| |]; rewrite !owned_lt by lia; [|exact D]. rewrite Mp by lia. lia. }
      rewrite zget_splice by (sizes; dlia). rewrite D in B. case_decide as D2.
      * rewrite lookup_app_r by (sizes; dlia). replace (Z.to_nat o - length l)%nat with (Z.to_nat (o mod BSIZE - off)) by (sizes; dlia).
        destruct (lookup_lt_is_Some_2 p (Z.to_nat (o mod BSIZE - off))) as [y Hy]; [sizes; dlia|].
        rewrite Hy. simpl. by apply list_lookup_total_correct.
      * rewrite B. destruct (decide (Z.to_nat o < length l)%nat); [by rewrite lookup_app_l by lia|].
        rewrite !lookup_ge_None_2; [reflexivity| |lia]. rewrite length_app. sizes. dlia.
    + rewrite B. assert (o / BSIZE <> fbn) as E by (intros E; apply D; rewrite E; reflexivity).
      destruct (decide (Z.to_nat o < length l)%nat); [by rewrite lookup_app_l by lia|].
      rewrite !lookup_ge_None_2; [reflexivity| |lia]. rewrite length_app. sizes. dlia.
Qed.
End write.
