(* ===== verification/MkfsSpec.v ===== *)
(** * mkfs.c, second part of the proofs: the image is a file system the kernel accepts. *)

From S2P Require Import Prelude Exec Params State Mem Vm VmTable VmUser Sched Sleeplock Bio BioSpec Log LogSpec LogCrash LogOp.
From S2P Require Import RingBuf Uart Printf Console Fs FsBlock FsFile FsInode FsData FsWrite Mkfs MkfsFile.

(** ** The image file *)

Definition blk (s : image) (n : Z) : list Z := default zeros (im_block s !! n).

(** Every block of the image has been written. *)
Definition present (s : image) : Prop :=
  forall n, 0 <= n < FSSIZE -> exists d, im_block s !! n = Some d /\ length d = Z.to_nat BSIZE.

Lemma present_len s n : present s -> 0 <= n < FSSIZE -> length (blk s n) = Z.to_nat BSIZE.
Proof. intros Hp Hn. destruct (Hp n Hn) as (d & E & L). unfold blk. rewrite E. exact L. Qed.

Lemma xint_id x : 0 <= x < 2 ^ 32 -> xint x = x.
Proof. intros Hx. unfold xint, le_val, u8. rewrite !Z.shiftr_div_pow2 by lia. dlia. Qed.

Lemma sector_id n : 0 <= n < FSSIZE -> sector n = n.
Proof. intros Hn. unfold sector. sizes. rewrite u32_id by lia. apply Z.div_mul. lia. Qed.

Lemma wp_rsect s n (Q : list Z -> image -> Prop) : present s -> 0 <= n < FSSIZE -> Q (blk s n) s -> wp (rsect n) Q s.
Proof.
  intros Hp Hn HQ. destruct (Hp n Hn) as (d & E & L). unfold rsect. do 2 wp_step. rewrite sector_id, E by exact Hn.
  unfold blk in HQ. rewrite E in HQ. by apply wp_ret.
Qed.

Lemma wp_wsect s n d (Q : unit -> image -> Prop) : present s -> 0 <= n < FSSIZE -> length d = Z.to_nat BSIZE ->
  (forall s', present s' -> (forall m, blk s' m = put_block (blk s) (n, d) m) -> im_freeinode s' = im_freeinode s ->
     im_freeblock s' = im_freeblock s -> Q tt s') ->
  wp (wsect n d) Q s.
Proof.
  intros Hp Hn Hd HQ. unfold wsect. wp_step. apply HQ; [| |reflexivity..].
  - intros m Hm. cbn. rewrite sector_id by exact Hn. destruct (decide (m = n)) as [->|Hne].
    + exists d. by rewrite lookup_insert_eq.
    + rewrite lookup_insert_ne by auto. auto.
  - intros m. unfold blk, put_block. cbn. rewrite sector_id by exact Hn. case_decide as D.
    + subst m. by rewrite lookup_insert_eq.
    + by rewrite lookup_insert_ne by auto.
Qed.

Lemma wp_next_block s (Q : Z -> image -> Prop) : 0 <= im_freeblock s < FSSIZE ->
  Q (im_freeblock s) (with_im_freeblock (im_freeblock s + 1) s) -> wp next_block Q s.
Proof.
  intros Hb HQ. unfold next_block. do 4 wp_step. rewrite u32_id by (sizes; lia). wp_step. exact HQ.
Qed.

Lemma with_i_addrs_id (i : inode) : with_i_addrs (i_addrs i) i = i.
Proof. by destruct i. Qed.

Lemma with_im_freeblock_id s : with_im_freeblock (im_freeblock s) s = s.
Proof. by destruct s. Qed.

(** ** The block of a file that iappend() writes to *)

Section block.
Variables (s : image) (din : inode) (nb : Z) (l : list Z).
Let hi := im_freeblock s.
Let a := i_addrs din.
Hypothesis here : present s.
Hypothesis R : rep (blk s) hi a nb l.
Hypothesis top : hi <= FSSIZE.

Lemma rep_xint k : 0 <= k <= NDIRECT -> xint (zget a k) = zget a k.
Proof.
  intros Hk. apply xint_id. pose proof (rep_addrs _ _ _ _ _ R top) as Hf. rewrite Forall_forall in Hf. apply Hf.
  apply zget_elem_of. rewrite (rp_len _ _ _ _ _ R). sizes. lia.
Qed.

(** An owned block is on the image. *)
Lemma rep_on_image k : 0 <= k <= MAXFILE -> owned (blk s) a k <> 0 -> 0 < owned (blk s) a k < FSSIZE.
Proof. intros Hk Hne. pose proof (rp_range _ _ _ _ _ R k Hk Hne). sizes. lia. Qed.

Lemma rep_block bn : 0 <= bn < nb -> 0 < baddr (blk s) a bn < FSSIZE /\ baddr (blk s) a bn <> zget a NDIRECT.
Proof.
  intros Hb. pose proof (rp_nb _ _ _ _ _ R). assert (baddr (blk s) a bn <> 0) as Hne by (rewrite (rp_map _ _ _ _ _ R) by lia; lia).
  rewrite <- owned_lt in * by lia. split; [apply rep_on_image; [lia|exact Hne]|]. rewrite <- (owned_max (blk s)). intros E.
  assert (bn = MAXFILE); [|lia]. apply (rp_inj _ _ _ _ _ R); [lia|sizes; lia|exact Hne|exact E].
Qed.

Lemma rep_indirect : NDIRECT < nb -> 0 < zget a NDIRECT < FSSIZE.
Proof.
  intros Hn. rewrite <- (owned_max (blk s)). apply rep_on_image; [sizes; lia|]. rewrite owned_max, (rp_ind _ _ _ _ _ R). lia.
Qed.

(** A block the file already has. *)
Lemma file_block_old bn (Q : inode * Z -> image -> Prop) : 0 <= bn < nb ->
  Q (din, baddr (blk s) a bn) s -> wp (file_block din bn) Q s.
Proof.
  intros Hb HQ. destruct (rep_block bn Hb) as [Hr _]. unfold file_block. fold a. destruct (Z.ltb_spec bn NDIRECT) as [Hd|Hd].
  - rewrite rep_xint by lia. rewrite baddr_direct in Hr, HQ by lia. rewrite (proj2 (Z.eqb_neq (zget a bn) 0)) by lia.
    do 2 wp_step. fold a. rewrite rep_xint by lia. wp_step. exact HQ.
  - pose proof (rep_indirect ltac:(lia)) as Hi. rewrite baddr_indirect in Hr, HQ by lia. rewrite rep_xint by (sizes; lia).
    rewrite (proj2 (Z.eqb_neq (zget a NDIRECT) 0)) by lia. do 2 wp_step. fold a. rewrite rep_xint by (sizes; lia). wp_step.
    apply wp_rsect; [exact here|lia|]. rewrite (proj2 (Z.eqb_neq (get32 _ _) 0)) by lia. do 2 wp_step.
    rewrite xint_id by (sizes; lia). wp_step. exact HQ.
Qed.

(** The file got block number [nb], and nothing else changed but its indirect block. *)
Record grown (c' : Z -> list Z) (hi' : Z) (a' : list Z) : Prop := {
  gw_rep : rep c' hi' a' (nb + 1) l;
  gw_frame : forall m, m < hi -> m < nmeta \/ m <> zget a NDIRECT -> c' m = blk s m;
  gw_zero : forall m, hi' <= m < FSSIZE -> c' m = zeros;
  gw_owned : forall k, 0 <= k <= MAXFILE -> owned c' a' k <> 0 -> owned c' a' k = owned (blk s) a k \/ hi <= owned c' a' k;
}.

Hypothesis low : nmeta <= hi.
Hypothesis more : nb < MAXFILE.
Hypothesis fresh : forall m, hi <= m < FSSIZE -> blk s m = zeros.
Let hi' := hi + 1 + b2z (nb =? NDIRECT).
Hypothesis space : hi' <= FSSIZE.

Lemma grown_intro c' a' : length a' = length a ->
  (forall k, 0 <= k <= MAXFILE -> owned c' a' k =
     if k =? nb then hi' - 1 else if (k =? MAXFILE) && (nb =? NDIRECT) then hi else owned (blk s) a k) ->
  (forall m, m <> hi' - 1 -> m = 0 \/ m <> zget a' NDIRECT -> c' m = blk s m) -> c' (hi' - 1) = zeros -> grown c' hi' a'.
Proof.
  intros Hl Ho Hf Hz. assert (hi <= hi' - 1) as Hh by (unfold hi'; destruct (nb =? NDIRECT); cbn [b2z]; lia).
  assert (forall k, 0 <= k <= MAXFILE -> owned (blk s) a k <> 0 -> nmeta <= owned (blk s) a k < hi) as Rg by apply (rp_range _ _ _ _ _ R).
  assert (zget a' NDIRECT = zget a NDIRECT \/ zget a' NDIRECT = hi) as Hi.
  { rewrite <- (owned_max c'), <- (owned_max (blk s)), Ho by (sizes; lia). sizes. cases; auto; lia. }
  assert (zget a' NDIRECT = 0 \/ nmeta <= zget a' NDIRECT < hi') as Hv.
  { pose proof (Rg MAXFILE ltac:(sizes; lia)) as Hr. rewrite owned_max in Hr. lia. }
  split.
  - apply (rep_add (blk s) c' hi a a' nb l); [exact R|exact low|exact more|exact Hl|exact Ho| |exact Hz].
    intros k Hk. destruct (rep_block k Hk) as [Hr Hne]. pose proof (Rg k ltac:(lia)) as Hr2. rewrite owned_lt in Hr2 by lia.
    apply Hf; [lia|]. destruct Hi; [right; congruence|lia].
  - intros m Hm Hd. apply Hf; lia.
  - intros m Hm. rewrite Hf by lia. apply fresh. lia.
  - intros k Hk. rewrite Ho by exact Hk. cases; [right; lia|right; lia|left; reflexivity..].
Qed.

Lemma new_direct : nb < NDIRECT -> grown (blk s) hi' (zset a nb hi).
Proof.
  intros Hn. pose proof (rp_len _ _ _ _ _ R) as La. pose proof (rp_nb _ _ _ _ _ R) as [Hb _].
  assert (hi' - 1 = hi) as E by (unfold hi'; rewrite (proj2 (Z.eqb_neq nb NDIRECT)) by lia; cbn [b2z]; lia).
  assert (zget (zset a nb hi) NDIRECT = zget a NDIRECT) as En by (apply zget_zset_ne; sizes; lia).
  apply grown_intro; [apply zset_length| |reflexivity|].
  - intros k Hk. rewrite E, (proj2 (Z.eqb_neq nb NDIRECT)), andb_false_r by lia. unfold owned, baddr. rewrite En.
    destruct (Z.eqb_spec k nb) as [->|Hne].
    + rewrite (proj2 (Z.eqb_neq nb MAXFILE)), (proj2 (Z.ltb_lt nb NDIRECT)) by lia. apply zget_zset_eq. rewrite La. sizes. lia.
    + destruct (k =? MAXFILE); [reflexivity|]. destruct (k <? NDIRECT); [|reflexivity]. apply zget_zset_ne; lia.
  - rewrite E. apply fresh. lia.
Qed.

(** The block is entered in the indirect block [ind], which is new if [nb] is NDIRECT. *)
Lemma new_indirect c' a' : let ind := zget a' NDIRECT in
  NDIRECT <= nb -> a' = (if nb =? NDIRECT then zset a NDIRECT hi else a) ->
  (forall m, c' m = put_block (blk s) (ind, put32 (blk s ind) (4 * (nb - NDIRECT)) (hi' - 1)) m) ->
  grown c' hi' a'.
Proof.
  intros ind Hn Ea Ec. pose proof (rp_len _ _ _ _ _ R) as La.
  assert (length a' = length a) as Ll by (subst a'; destruct (nb =? NDIRECT); [apply zset_length|reflexivity]).
  assert (forall k, 0 <= k < NDIRECT -> zget a' k = zget a k) as Ek.
  { intros k Hk. subst a'. destruct (nb =? NDIRECT); [apply zget_zset_ne; sizes; lia|reflexivity]. }
  assert (ind = if nb =? NDIRECT then hi else zget a NDIRECT) as Ei.
  { subst ind a'. destruct (nb =? NDIRECT); [apply zget_zset_eq; rewrite La; sizes; lia|reflexivity]. }
  assert (nmeta <= ind < hi' /\ ind <> hi' - 1) as [Hi Hi'].
  { rewrite Ei. unfold hi'. destruct (Z.eqb_spec nb NDIRECT); cbn [b2z]; [lia|].
    pose proof (rp_range _ _ _ _ _ R MAXFILE ltac:(sizes; lia)) as Hr. rewrite owned_max, (rp_ind _ _ _ _ _ R) in Hr. lia. }
  assert (length (blk s ind) = 1024%nat) as Lb by (apply (present_len s ind here); sizes; lia).
  unfold put_block in Ec. cbn [fst snd] in Ec. apply grown_intro; [exact Ll| | |].
  - intros k Hk. unfold owned. fold ind. destruct (Z.eqb_spec k nb) as [->|Hne].
    + rewrite (proj2 (Z.eqb_neq nb MAXFILE)) by lia. rewrite baddr_indirect by (fold ind; sizes; lia). fold ind. rewrite Ec, decide_True by reflexivity.
      rewrite get32_put32_eq by (sizes; lia). apply u32_id. sizes; lia.
    + destruct (Z.eqb_spec k MAXFILE) as [->|Hm]; [rewrite Ei; by destruct (nb =? NDIRECT)|]. cbn [andb].
      destruct (Z_lt_le_dec k NDIRECT) as [Hd|Hd]; [rewrite !baddr_direct by lia; apply Ek; lia|].
      rewrite (baddr_indirect c') by (fold ind; sizes; lia). fold ind. rewrite Ec, decide_True by reflexivity. rewrite get32_put32_ne by (sizes; lia).
      destruct (Z.eqb_spec nb NDIRECT) as [Eq|Eq].
      * rewrite baddr_hole by (try apply (rp_ind _ _ _ _ _ R); lia). rewrite Ei, fresh by lia. apply get32_zeros. sizes; lia.
      * rewrite baddr_indirect by (try rewrite <- Ei; sizes; lia). by rewrite Ei.
  - intros m Hm1 Hm2. rewrite Ec, decide_False; [reflexivity|]. fold ind in Hm2. sizes. lia.
  - rewrite Ec, decide_False by lia. apply fresh. unfold hi' in *. destruct (nb =? NDIRECT); cbn [b2z] in *; lia.
Qed.

Let addrs' := if nb =? NDIRECT then zset a NDIRECT hi else a.

Lemma new_range : 0 <= hi < FSSIZE /\ 0 <= hi' - 1 < FSSIZE /\ (nb <> NDIRECT -> hi' = hi + 1).
Proof. unfold hi' in *. destruct (Z.eqb_spec nb NDIRECT); cbn [b2z] in *; sizes; lia. Qed.

Lemma new_ind_block : NDIRECT <= nb -> 0 < zget addrs' NDIRECT < FSSIZE /\
  get32 (blk s (zget addrs' NDIRECT)) (4 * (nb - NDIRECT)) = 0.
Proof.
  intros Hn. pose proof new_range as (H1 & _ & _). unfold addrs'. destruct (Z.eqb_spec nb NDIRECT) as [E|E].
  - rewrite zget_zset_eq by (rewrite (rp_len _ _ _ _ _ R); sizes; lia). split; [sizes; lia|]. rewrite fresh by lia. apply get32_zeros. sizes; lia.
  - pose proof (rep_indirect ltac:(lia)) as Hi. split; [exact Hi|]. rewrite <- baddr_indirect by lia. apply (rp_map _ _ _ _ _ R); sizes; lia.
Qed.

(** The indirect block is allocated with the first block it is needed for. *)
Lemma wp_new_ind (Q : inode -> image -> Prop) : NDIRECT <= nb -> Q (with_i_addrs addrs' din) (with_im_freeblock (hi' - 1) s) ->
  wp (if xint (zget a NDIRECT) =? 0 then b <- next_block ;; ret (with_i_addrs (zset a NDIRECT (xint b)) din) else ret din) Q s.
Proof.
  intros Hn HQ. pose proof new_range as (H1 & H2 & H3). rewrite rep_xint by (sizes; lia). unfold addrs', hi' in *.
  pose proof (rp_ind _ _ _ _ _ R) as Ri. destruct (Z.eqb_spec nb NDIRECT) as [En|En]; cbn [b2z] in *.
  - rewrite (proj2 (Z.eqb_eq (zget a NDIRECT) 0)) by (apply Ri; lia). wp_step. apply wp_next_block; [exact H1|]. fold hi. wp_step.
    rewrite (xint_id hi) by (sizes; lia). by replace (hi + 1 + 1 - 1) with (hi + 1) in HQ by lia.
  - rewrite (proj2 (Z.eqb_neq (zget a NDIRECT) 0)) by lia. wp_step. replace (hi + 1 + 0 - 1) with hi in HQ by lia.
    unfold a, hi in HQ. by rewrite with_i_addrs_id, with_im_freeblock_id in HQ.
Qed.

(** The first block the file does not have. *)
Lemma file_block_new (Q : inode * Z -> image -> Prop) :
  (forall s' a', present s' -> grown (blk s') hi' a' -> im_freeblock s' = hi' -> im_freeinode s' = im_freeinode s ->
     Q (with_i_addrs a' din, baddr (blk s') a' nb) s') ->
  wp (file_block din nb) Q s.
Proof.
  intros HQ. pose proof (rp_nb _ _ _ _ _ R) as [Hn _]. pose proof (rp_len _ _ _ _ _ R) as La. pose proof new_range as (H1 & H2 & H3).
  unfold file_block. fold a. destruct (Z.ltb_spec nb NDIRECT) as [Hd|Hd].
  - pose proof (rp_map _ _ _ _ _ R nb ltac:(lia)) as Hm. rewrite baddr_direct in Hm by lia.
    rewrite rep_xint, (proj2 (Z.eqb_eq (zget a nb) 0)) by (try apply Hm; lia).
    do 2 wp_step. apply wp_next_block; [exact H1|]. fold hi. wp_step. change (i_addrs (with_i_addrs ?x din)) with x.
    rewrite (xint_id hi), zget_zset_eq, xint_id by (try rewrite La; sizes; lia). wp_step.
    specialize (HQ (with_im_freeblock (hi + 1) s) (zset a nb hi) here). rewrite baddr_direct, zget_zset_eq in HQ by (try rewrite La; sizes; lia).
    apply HQ; [exact (new_direct Hd)|symmetry; apply H3; lia|reflexivity].
  - wp_step. apply wp_new_ind; [exact Hd|]. change (i_addrs (with_i_addrs ?x din)) with x. destruct (new_ind_block Hd) as [Hi Hz].
    rewrite (xint_id (zget addrs' NDIRECT)) by (sizes; lia). wp_step. apply wp_rsect; [exact here|lia|].
    change (blk (with_im_freeblock _ s)) with (blk s). rewrite Hz. cbn [Z.eqb]. do 2 wp_step. apply wp_next_block; [exact H2|].
    change (im_freeblock (with_im_freeblock ?v s)) with v. rewrite xint_id by (sizes; lia). wp_step.
    assert (length (blk s (zget addrs' NDIRECT)) = 1024%nat) as Lb by (apply (present_len s _ here); lia).
    apply wp_wsect; [exact here|lia|rewrite put32_length by (sizes; lia); exact Lb|]. intros s' Hp Hc Hfi Hfb. do 2 wp_step.
    rewrite get32_put32_eq, u32_id, xint_id by (sizes; lia).
    assert (baddr (blk s') addrs' nb = hi' - 1) as E.
    { rewrite baddr_indirect, Hc by lia. unfold put_block. cbn [fst snd]. rewrite decide_True by reflexivity.
      change (blk (with_im_freeblock _ _)) with (blk s). rewrite get32_put32_eq, u32_id by (sizes; lia). reflexivity. }
    rewrite <- E. apply HQ; [exact Hp|exact (new_indirect _ addrs' Hd eq_refl Hc)| |exact Hfi]. rewrite Hfb. cbn. lia.
Qed.
End block.

(** ** The files of the image *)

(** The data blocks of files with contents [L]. *)
Fixpoint space (L : list (list Z)) : Z :=
  match L with
  | [] => 0
  | l :: L => cost (blocks (len l)) + space L
  end.

(** The files have block addresses [A] and contents [L], own distinct blocks,
    and with the meta blocks they are all the blocks below freeblock. *)
Record fsys (s : image) (A L : list (list Z)) : Prop := {
  fy_here : present s;
  fy_same : length A = length L;
  fy_rep : forall k a l, A !! k = Some a -> L !! k = Some l -> rep (blk s) (im_freeblock s) a (blocks (len l)) l;
  fy_apart : forall j k a b x y, j <> k -> A !! j = Some a -> A !! k = Some b -> 0 <= x <= MAXFILE -> 0 <= y <= MAXFILE ->
    owned (blk s) a x <> 0 -> owned (blk s) a x <> owned (blk s) b y;
  fy_count : im_freeblock s = nmeta + space L;
  fy_fresh : forall m, im_freeblock s <= m < FSSIZE -> blk s m = zeros;
}.

Lemma blocks_nonneg l : 0 <= blocks (len l).
Proof. unfold blocks, len. sizes. dlia. Qed.

Lemma cost_nonneg n : 0 <= n -> 0 <= cost n.
Proof. intros Hn. unfold cost. destruct (NDIRECT <? n); cbn [b2z]; lia. Qed.

Lemma space_nonneg L : 0 <= space L.
Proof. induction L as [|l L IH]; cbn [space]; [lia|]. pose proof (cost_nonneg _ (blocks_nonneg l)). lia. Qed.

Lemma space_app L L' : space (L ++ L') = space L + space L'.
Proof. induction L as [|l L IH]; cbn [space app]; [reflexivity|]. rewrite IH. lia. Qed.

Lemma space_insert L k l l' : L !! k = Some l -> space (<[k := l']> L) = space L - cost (blocks (len l)) + cost (blocks (len l')).
Proof.
  revert k. induction L as [|x L IH]; intros [|k] Hk; try discriminate.
  - injection Hk as ->. cbn [insert list_insert space]. lia.
  - change (<[S k := l']> (x :: L)) with (x :: <[k := l']> L). cbn [space]. rewrite (IH k Hk). lia.
Qed.

Lemma cost_mono m n : 0 <= m <= n -> cost m <= cost n.
Proof. intros H. unfold cost. sizes. destruct (Z.ltb_spec 12 m), (Z.ltb_spec 12 n); cbn [b2z]; lia. Qed.

(** What a change of one file may do to the image. *)
Record touches (s s' : image) (a a' : list Z) : Prop := {
  tc_mono : im_freeblock s <= im_freeblock s';
  tc_frame : forall m, m < im_freeblock s -> m < nmeta \/ (forall x, 0 <= x <= MAXFILE -> m <> owned (blk s) a x) -> blk s' m = blk s m;
  tc_owned : forall x, 0 <= x <= MAXFILE -> owned (blk s') a' x <> 0 ->
    owned (blk s') a' x = owned (blk s) a x \/ im_freeblock s <= owned (blk s') a' x;
  tc_fresh : forall m, im_freeblock s' <= m < FSSIZE -> blk s' m = zeros;
  tc_inode : im_freeinode s' = im_freeinode s;
}.

Section step.
Variables (s s' : image) (A L : list (list Z)) (k : nat) (a a' l l' : list Z).
Hypothesis F : fsys s A L.
Hypothesis Ha : A !! k = Some a.
Hypothesis Hl : L !! k = Some l.
Hypothesis T : touches s s' a a'.

(** The other files keep their blocks. *)
Lemma other_kept j b x : j <> k -> A !! j = Some b -> 0 <= x <= MAXFILE -> owned (blk s) b x <> 0 ->
  blk s' (owned (blk s) b x) = blk s (owned (blk s) b x).
Proof.
  intros Hj Hb Hx Hne. destruct (lookup_lt_is_Some_2 L j) as [m Hm]; [rewrite <- (fy_same _ _ _ F); by eapply lookup_lt_Some|].
  pose proof (rp_range _ _ _ _ _ (fy_rep _ _ _ F j b m Hb Hm) x Hx Hne). apply (tc_frame _ _ _ _ T); [lia|]. right.
  intros y Hy. by apply (fy_apart _ _ _ F j k b a x y).
Qed.

Lemma fsys_step : present s' -> rep (blk s') (im_freeblock s') a' (blocks (len l')) l' ->
  im_freeblock s' = im_freeblock s - cost (blocks (len l)) + cost (blocks (len l')) -> fsys s' (<[k := a']> A) (<[k := l']> L).
Proof.
  intros Hp Hr Hc. pose proof (lookup_lt_Some _ _ _ Ha) as Hk. pose proof (lookup_lt_Some _ _ _ Hl) as Hk'.
  assert (forall j b x, j <> k -> A !! j = Some b -> owned (blk s') b x = owned (blk s) b x) as Eo.
  { intros j b x Hj Hb. apply frame_owned. intros y Hy. by apply (other_kept j). }
  assert (forall j b x, j <> k -> A !! j = Some b -> 0 <= x <= MAXFILE -> owned (blk s) b x <> 0 -> owned (blk s) b x < im_freeblock s) as Hlt.
  { intros j b x Hj Hb Hx Hne. destruct (lookup_lt_is_Some_2 L j) as [m Hm]; [rewrite <- (fy_same _ _ _ F); by eapply lookup_lt_Some|].
    by apply (rp_range _ _ _ _ _ (fy_rep _ _ _ F j b m Hb Hm) x). }
  split; [exact Hp|rewrite !length_insert; apply F| | | |apply T].
  - intros j b m Hb Hm. destruct (decide (j = k)) as [->|Hj].
    + rewrite list_lookup_insert_eq in Hb, Hm by assumption. injection Hb as <-. injection Hm as <-. exact Hr.
    + rewrite list_lookup_insert_ne in Hb, Hm by auto. apply (rep_frame (blk s)) with (hi := im_freeblock s); [|apply T|by apply (fy_rep _ _ _ F j)].
      intros x Hx. by apply (other_kept j).
  - intros i j b b' x y Hij Hb Hb' Hx Hy. destruct (decide (i = k)) as [->|Hi]; [|destruct (decide (j = k)) as [->|Hj]].
    + rewrite list_lookup_insert_eq in Hb by assumption. injection Hb as <-. rewrite list_lookup_insert_ne in Hb' by auto.
      rewrite (Eo j b' y) by auto. intros Hne E. destruct (tc_owned _ _ _ _ T x Hx Hne) as [E'|E'].
      * apply (fy_apart _ _ _ F k j a b' x y); congruence.
      * assert (owned (blk s) b' y < im_freeblock s) by (apply (Hlt j); [auto|assumption..|congruence]). lia.
    + rewrite list_lookup_insert_eq in Hb' by assumption. injection Hb' as <-. rewrite list_lookup_insert_ne in Hb by auto.
      rewrite (Eo i b x) by auto. intros Hne E. destruct (tc_owned _ _ _ _ T y Hy) as [E'|E']; [congruence| |].
      * apply (fy_apart _ _ _ F i k b a x y); congruence.
      * assert (owned (blk s) b x < im_freeblock s) by (apply (Hlt i); assumption). lia.
    + rewrite list_lookup_insert_ne in Hb, Hb' by auto. rewrite (Eo i b x), (Eo j b' y) by auto. by apply (fy_apart _ _ _ F i j).
  - rewrite (space_insert L k l l' Hl), Hc, (fy_count _ _ _ F). lia.
Qed.
End step.

(** ** iappend() *)

Lemma touches_refl s a : (forall m, im_freeblock s <= m < FSSIZE -> blk s m = zeros) -> touches s s a a.
Proof. split; [lia|reflexivity|by left|assumption|reflexivity]. Qed.

(** The last block of a file, or the one after it if that is full. *)
Lemma blocks_next l : let fbn := len l / BSIZE in 0 <= fbn /\
  (blocks (len l) = fbn + 1 \/ blocks (len l) = fbn).
Proof. unfold blocks, len. sizes. dlia. Qed.

Lemma file_block_spec s din l (Q : inode * Z -> image -> Prop) : let fbn := len l / BSIZE in let nb := blocks (len l) in
  present s -> rep (blk s) (im_freeblock s) (i_addrs din) nb l -> nmeta <= im_freeblock s ->
  (forall m, im_freeblock s <= m < FSSIZE -> blk s m = zeros) -> fbn < MAXFILE -> im_freeblock s - cost nb + cost (fbn + 1) <= FSSIZE ->
  (forall s1 a1, present s1 -> rep (blk s1) (im_freeblock s1) a1 (fbn + 1) l ->
     im_freeblock s1 = im_freeblock s - cost nb + cost (fbn + 1) -> touches s s1 (i_addrs din) a1 ->
     Q (with_i_addrs a1 din, baddr (blk s1) a1 fbn) s1) ->
  wp (file_block din fbn) Q s.
Proof.
  intros fbn nb Hp R Hlow Hf Hm Hs HQ. pose proof (blocks_next l) as [H0 Hn]. fold fbn nb in Hn, H0.
  destruct Hn as [En|En]; fold nb in En.
  - apply (file_block_old s din nb l Hp R); [rewrite En in Hs; lia|lia|]. rewrite <- (with_i_addrs_id din) at 1.
    apply HQ; [exact Hp|rewrite <- En; exact R|rewrite <- En; lia|by apply touches_refl].
  - assert (im_freeblock s + 1 + b2z (nb =? NDIRECT) = im_freeblock s - cost nb + cost (fbn + 1)) as E.
    { rewrite <- En. unfold cost. sizes. destruct (Z.eqb_spec nb 12), (Z.ltb_spec 12 nb), (Z.ltb_spec 12 (nb + 1)); cbn [b2z]; lia. }
    assert (im_freeblock s <= FSSIZE) as Ht by (rewrite <- E in Hs; destruct (nb =? NDIRECT); cbn [b2z] in Hs; lia).
    rewrite <- En at 1. apply (file_block_new s din nb l Hp R Ht Hlow ltac:(lia) Hf ltac:(lia)). intros s1 a1 Hp1 [G1 G2 G3 G4] Hb Hi.
    rewrite En in *. rewrite E in *. apply HQ; [exact Hp1|rewrite Hb; exact G1|exact Hb|]. split; [| |exact G4|rewrite Hb; exact G3|exact Hi].
    + rewrite Hb, <- E. destruct (fbn =? NDIRECT); cbn [b2z]; lia.
    + intros m Hm1 Hm2. apply G2; [exact Hm1|]. destruct Hm2 as [Hm2|Hm2]; [by left|right]. rewrite <- (owned_max (blk s)). apply Hm2. sizes; lia.
Qed.

(** Writing at the end of the file. *)
Lemma append_touches s s1 s2 a a1 l p : let fbn := len l / BSIZE in let x := baddr (blk s1) a1 fbn in
  touches s s1 a a1 -> rep (blk s1) (im_freeblock s1) a1 (fbn + 1) l -> nmeta <= im_freeblock s -> im_freeblock s1 <= FSSIZE -> present s1 ->
  len l mod BSIZE + len p <= BSIZE ->
  (forall m, blk s2 m = put_block (blk s1) (x, splice (blk s1 x) (len l mod BSIZE) p) m) ->
  im_freeinode s2 = im_freeinode s1 -> im_freeblock s2 = im_freeblock s1 ->
  rep (blk s2) (im_freeblock s2) a1 (fbn + 1) (l ++ p) /\ touches s s2 a a1.
Proof.
  intros fbn x T R Hlow Htop Hp Hfit Hb Hi Hfb. pose proof (blocks_next l) as [H0 _]. fold fbn in H0. pose proof (rp_nb _ _ _ _ _ R) as Hnb.
  destruct (rep_block s1 (with_i_addrs a1 inhabitant) (fbn + 1) l R Htop fbn ltac:(lia)) as [Hx _]. cbn [i_addrs with_i_addrs] in Hx. fold x in Hx.
  pose proof (rep_write (blk s1) (im_freeblock s1) a1 (fbn + 1) l p R (present_len s1 x Hp ltac:(lia)) ltac:(fold fbn; lia) Hfit) as Rw.
  pose proof (write_owned (blk s1) (im_freeblock s1) a1 (fbn + 1) l p R (present_len s1 x Hp ltac:(lia)) ltac:(fold fbn; lia) Hfit) as Ew. fold fbn x in Rw, Ew.
  set (c2 := put_block _ _) in *.
  assert (forall k, owned (blk s2) a1 k = owned (blk s1) a1 k) as Eo.
  { intros k. rewrite <- Ew. apply frame_owned. intros j _ _. apply Hb. }
  assert (forall m, m <> x -> blk s2 m = blk s1 m) as Hne.
  { intros m Hm. rewrite Hb. unfold c2, put_block. cbn [fst snd]. by rewrite decide_False. }
  assert (x = owned (blk s1) a1 fbn) as Ex by (symmetry; apply owned_lt; lia).
  pose proof (rp_range _ _ _ _ _ R fbn ltac:(lia) ltac:(rewrite <- Ex; lia)) as Hr. rewrite <- Ex in Hr.
  split; [|split].
  - rewrite Hfb. apply (rep_frame c2) with (hi := im_freeblock s1); [intros; apply Hb|lia|exact Rw].
  - rewrite Hfb. apply T.
  - intros m Hm Hd. rewrite Hne; [by apply T|]. intros ->. destruct Hd as [Hd|Hd]; [lia|].
    destruct (tc_owned _ _ _ _ T fbn ltac:(lia) ltac:(rewrite <- Ex; lia)) as [E|E]; [|rewrite <- Ex in E; lia]. apply (Hd fbn); [lia|]. congruence.
  - intros k Hk. rewrite Eo. by apply T.
  - intros m Hm. rewrite Hfb in Hm. rewrite Hne by lia. by apply T.
  - rewrite Hi. apply T.
Qed.

(** The files have room for contents [L]. *)
Definition fits (L : list (list Z)) : Prop := Forall (fun l => len l <= MAXFILE * BSIZE) L /\ nmeta + space L <= FSSIZE.

Lemma fits_prefix L k l l' : L !! k = Some (l ++ l') -> fits L -> fits (<[k := l]> L).
Proof.
  intros Hk [F S]. split.
  - apply Forall_insert; [exact F|]. rewrite Forall_lookup in F. specialize (F k _ Hk). unfold len in *. rewrite length_app in F. lia.
  - rewrite (space_insert L k _ l Hk). pose proof (blocks_nonneg l).
    assert (cost (blocks (len l)) <= cost (blocks (len (l ++ l')))); [|lia]. apply cost_mono. split; [assumption|].
    unfold blocks, len. rewrite length_app. sizes. dlia.
Qed.

Section append.
Variables (A L : list (list Z)) (k : nat) (s : image) (din : inode) (l p : list Z).
Let off := len l.
Let fbn := off / BSIZE.
Let n1 := Z.min (len p) ((fbn + 1) * BSIZE - off).
Let l1 := l ++ take (Z.to_nat n1) p.
Hypothesis F : fsys s A L.
Hypothesis Ha : A !! k = Some (i_addrs din).
Hypothesis Hl : L !! k = Some l.
Hypothesis more : p <> [].
Hypothesis room : fits (<[k := l1]> L).

Lemma append_room : 0 < n1 <= len p /\ off mod BSIZE + n1 <= BSIZE /\ len l1 = off + n1 /\ blocks (len l1) = fbn + 1 /\ fbn < MAXFILE /\
  im_freeblock s - cost (blocks (len l)) + cost (fbn + 1) <= FSSIZE.
Proof.
  assert (0 < len p) as Hp by (unfold len; destruct p; [done|cbn [length]; lia]).
  assert (0 <= off) by (unfold off, len; lia). assert (0 < n1 <= len p /\ off mod BSIZE + n1 <= BSIZE) as [H1 H2] by (unfold n1, fbn; sizes; dlia).
  assert (len l1 = off + n1) as H3 by (unfold l1, len, off in *; unfold len in *; rewrite length_app, length_take; lia).
  assert (blocks (len l1) = fbn + 1) as H4 by (rewrite H3; unfold blocks, n1, fbn in *; sizes; dlia).
  destruct room as [Rf Rs]. rewrite (space_insert L k l l1 Hl), H4 in Rs. rewrite (fy_count _ _ _ F).
  assert (len l1 <= MAXFILE * BSIZE) as H5.
  { rewrite Forall_lookup in Rf. apply (Rf k). apply list_lookup_insert_eq. by eapply lookup_lt_Some. }
  split; [exact H1|]. split; [exact H2|]. split; [exact H3|]. split; [exact H4|]. split; [|lia].
  rewrite H3 in H5. unfold fbn. sizes. dlia.
Qed.

Lemma append_block_spec (Q : inode * Z * list Z + inode * Z -> image -> Prop) :
  (forall s' a', fsys s' (<[k := a']> A) (<[k := l1]> L) -> im_freeinode s' = im_freeinode s ->
     (forall m, m < nmeta -> blk s' m = blk s m) -> (0 < Z.to_nat n1)%nat ->
     Q (inl (with_i_addrs a' din, len l1, drop (Z.to_nat n1) p)) s') ->
  wp (append_block (din, off, p)) Q s.
Proof.
  intros HQ. destruct append_room as (H1 & H2 & H3 & H4 & H5 & H6). unfold append_block. fold (len p).
  pose proof (space_nonneg L) as Hs. pose proof (fy_count _ _ _ F) as Hc.
  assert (0 <= off /\ len l1 <= MAXFILE * BSIZE) as [H0 H7].
  { split; [unfold off, len; lia|]. destruct room as [Rf _]. rewrite Forall_lookup in Rf. apply (Rf k). apply list_lookup_insert_eq. by eapply lookup_lt_Some. }
  rewrite (proj2 (Z.leb_gt (len p) 0)) by lia. fold fbn. unfold assert. rewrite (proj2 (Z.ltb_lt fbn MAXFILE)) by lia.
  rewrite (u32_id ((fbn + 1) * BSIZE - off)) by (unfold fbn; sizes; dlia). fold n1. do 2 wp_step. wp_step.
  pose proof (fy_rep _ _ _ F k _ l Ha Hl) as R.
  apply (file_block_spec s din l); [apply F|exact R|lia|apply F|exact H5|exact H6|].
  fold off fbn. intros s1 a1 Hp1 R1 Hb1 T1. set (x := baddr (blk s1) a1 fbn).
  destruct (rep_block s1 (with_i_addrs a1 inhabitant) (fbn + 1) l R1 ltac:(rewrite Hb1; exact H6) fbn) as [Hx _];
    [split; [unfold fbn; sizes; dlia|lia]|]. cbn [i_addrs with_i_addrs] in Hx. fold x in Hx.
  wp_step. apply wp_rsect; [exact Hp1|lia|]. wp_step. replace (off - fbn * BSIZE) with (off mod BSIZE) by (unfold fbn; sizes; dlia).
  assert (len (take (Z.to_nat n1) p) = n1) as Lt by (unfold len in *; rewrite length_take; lia).
  pose proof (present_len s1 x Hp1 ltac:(lia)) as Lx.
  apply wp_wsect; [exact Hp1|lia|rewrite splice_length; [exact Lx|sizes; dlia|fold (len (take (Z.to_nat n1) p)); rewrite Lt, Lx; sizes; lia]|].
  intros s2 Hp2 Hc2 Hi2 Hb2. wp_step.
  destruct (append_touches s s1 s2 (i_addrs din) a1 l (take (Z.to_nat n1) p)) as [R2 T2];
    [exact T1|exact R1|lia|rewrite Hb1; exact H6|exact Hp1|rewrite Lt; exact H2|exact Hc2|exact Hi2|exact Hb2|]. fold l1 in R2.
  rewrite (u32_id (off + n1)), <- H3 by (rewrite <- H3; sizes; lia). apply HQ.
  - apply (fsys_step s s2 A L k (i_addrs din) a1 l l1 F Ha Hl T2 Hp2); [rewrite H4; exact R2|rewrite H4, Hb2; exact Hb1].
  - rewrite Hi2. apply T1.
  - intros m Hm. apply (tc_frame _ _ _ _ T2); [lia|by left].
  - lia.
Qed.
End append.
