(* ===== verification/MkfsImage.v ===== *)
(** * mkfs.c, third part of the proofs: the inodes, and the whole program. *)

From S2P Require Import Prelude Exec Params State Mem Vm VmTable VmUser Sched Sleeplock Bio BioSpec Log LogSpec LogCrash LogOp.
From S2P Require Import RingBuf Uart Printf Console Fs FsBlock FsFile FsInode FsData FsWrite Mkfs MkfsFile MkfsSpec.

(** The inode [inum] on the blocks [c], as ilock() reads it. *)
Definition dinode (c : Z -> list Z) (inum : Z) : inode := read_dinode (c (IBLOCK inum sb)) (dinode_off inum) inhabitant.

(** The inode of a file of type [t] and [n] bytes. *)
Definition din_of (t n : Z) (a : list Z) : inode := mkInode 0 0 0 inhabitant false t 0 0 1 n a.

Lemma iblock_eq inum : 0 <= inum < NINODES -> IBLOCK inum sb = inum / 16 + 32 /\ 32 <= IBLOCK inum sb < 45.
Proof.
  intros Hi. change NINODES with 200 in Hi. unfold IBLOCK. change IPB with 16. change (sb_inodestart sb) with 32.
  rewrite u32_id by dlia. dlia.
Qed.

Lemma dinode_off_eq inum : dinode_off inum = 64 * (inum mod 16).
Proof. reflexivity. Qed.

Lemma wp_rinode s inum (Q : inode -> image -> Prop) : present s -> 0 <= inum < NINODES -> Q (dinode (blk s) inum) s -> wp (rinode inum) Q s.
Proof.
  intros Hp Hi HQ. destruct (iblock_eq inum Hi) as [_ Hb]. unfold rinode. wp_step.
  apply wp_rsect; [exact Hp|sizes; lia|]. wp_step. exact HQ.
Qed.

Lemma wp_winode s inum t n a (Q : unit -> image -> Prop) : present s -> 0 <= inum < NINODES -> inode_ok (din_of t n a) ->
  (forall s', present s' -> im_freeinode s' = im_freeinode s -> im_freeblock s' = im_freeblock s ->
     (forall m, ~ 32 <= m < 45 -> blk s' m = blk s m) -> dinode (blk s') inum = din_of t n a ->
     (forall j, 0 <= j < NINODES -> j <> inum -> dinode (blk s') j = dinode (blk s) j) -> Q tt s') ->
  wp (winode inum (din_of t n a)) Q s.
Proof.
  intros Hp Hi Hok HQ. destruct (iblock_eq inum Hi) as [Eb Hb]. destruct (dinode_off_range inum) as [D1 D2]. unfold winode. wp_step.
  apply wp_rsect; [exact Hp|sizes; lia|]. set (bn := IBLOCK inum sb) in *.
  assert (length (blk s bn) = Z.to_nat BSIZE) as Lb by (apply present_len; [exact Hp|sizes; lia]).
  assert (dinode_off inum + DINODE_SIZE <= Z.of_nat (length (blk s bn))) as D3 by (rewrite Lb; sizes; lia).
  apply wp_wsect; [exact Hp|sizes; lia|by rewrite write_dinode_length|]. intros s' Hp' Hc Hfi Hfb. unfold put_block in Hc. cbn [fst snd] in Hc.
  apply HQ; [exact Hp'|exact Hfi|exact Hfb| | |].
  - intros m Hm. rewrite Hc. rewrite decide_False; [reflexivity|]. lia.
  - unfold dinode. fold bn. rewrite Hc, decide_True by reflexivity. by rewrite dinode_roundtrip.
  - intros j Hj Hne. destruct (iblock_eq j Hj) as [Ej _]. unfold dinode. rewrite Hc. case_decide as D; [|reflexivity]. rewrite D.
    destruct (dinode_off_range j) as [J1 _]. apply read_dinode_other; [exact D1|exact J1|exact D3|].
    rewrite !dinode_off_eq. change DINODE_SIZE with 64. rewrite Ej, Eb in D. dlia.
Qed.

(** ** The image with its inodes *)

(** Inode number [k + 1] is the file number [k] of [F], a type and the content. *)
Record fimg (s : image) (F : list (Z * list Z)) (A : list (list Z)) : Prop := {
  fi_sys : fsys s A F.*2;
  fi_next : im_freeinode s = 1 + Z.of_nat (length F);
  fi_table : forall k t l a, F !! k = Some (t, l) -> A !! k = Some a -> dinode (blk s) (Z.of_nat k + 1) = din_of t (len l) a;
  fi_unused : forall n, 1 + Z.of_nat (length F) <= n < NINODES -> i_type (dinode (blk s) n) = 0;
  fi_types : Forall (fun f => - 2 ^ 15 <= f.1 < 2 ^ 15) F;
  fi_boot : blk s 0 = zeros;
  fi_sb : blk s 1 = splice zeros 0 sb_bytes;
  fi_log : forall n, 2 <= n < 32 -> blk s n = zeros;
}.

(** Only blocks of the inodes or of the bitmap change. *)
Lemma fsys_meta s s' A L : fsys s A L -> present s' -> im_freeblock s' = im_freeblock s ->
  (forall m, nmeta <= m -> blk s' m = blk s m) -> fsys s' A L.
Proof.
  intros F Hp Hb Hm.
  assert (forall k a x, A !! k = Some a -> 0 <= x <= MAXFILE -> owned (blk s) a x <> 0 -> blk s' (owned (blk s) a x) = blk s (owned (blk s) a x)) as Hk.
  { intros k a x Ha Hx Hne. apply Hm. destruct (lookup_lt_is_Some_2 L k) as [l Hl]; [rewrite <- (fy_same _ _ _ F); by eapply lookup_lt_Some|].
    by apply (rp_range _ _ _ _ _ (fy_rep _ _ _ F k a l Ha Hl)). }
  split; [exact Hp|apply F| | |rewrite Hb; apply F|].
  - intros k a l Ha Hl. rewrite Hb. apply (rep_frame (blk s)) with (hi := im_freeblock s); [intros x; by apply (Hk k)|lia|by apply (fy_rep _ _ _ F k)].
  - intros j k a b x y Hj Ha Hb'. rewrite (frame_owned (blk s) (blk s') a), (frame_owned (blk s) (blk s') b);
      [by apply (fy_apart _ _ _ F j k)|intros z; by apply (Hk k)|intros z; by apply (Hk j)].
  - intros m. rewrite Hb. intros Hr. rewrite Hm; [by apply (fy_fresh _ _ _ F)|]. pose proof (fy_count _ _ _ F). pose proof (space_nonneg L). lia.
Qed.

Lemma fimg_file s F A k t l : fimg s F A -> F !! k = Some (t, l) -> exists a, A !! k = Some a /\ F.*2 !! k = Some l.
Proof.
  intros I Hk. assert (F.*2 !! k = Some l) as Hl by (rewrite list_lookup_fmap, Hk; reflexivity).
  destruct (lookup_lt_is_Some_2 A k) as [a Ha]; [|by exists a].
  rewrite (fy_same _ _ _ (fi_sys _ _ _ I)). by eapply lookup_lt_Some.
Qed.

(** The inode of a file of the image. *)
Lemma fimg_inode_ok s A L k t l a : fsys s A L -> A !! k = Some a -> L !! k = Some l -> fits L -> - 2 ^ 15 <= t < 2 ^ 15 -> inode_ok (din_of t (len l) a).
Proof.
  intros F Ha Hl [Ff Fs] Ht. pose proof (fy_rep _ _ _ F k a l Ha Hl) as R.
  assert (len l <= MAXFILE * BSIZE) by (rewrite Forall_lookup in Ff; by apply (Ff k)). 
  split; cbn; [exact Ht|lia..|unfold len in *; sizes; lia|]. split; [apply R|]. apply (rep_addrs _ _ _ _ _ R). by rewrite (fy_count _ _ _ F).
Qed.

Section iappend.
Variables (s : image) (F : list (Z * list Z)) (A : list (list Z)) (k : nat) (t : Z) (l p : list Z).
Hypothesis I : fimg s F A.
Hypothesis Hk : F !! k = Some (t, l).
Hypothesis room : fits (<[k := (t, l ++ p)]> F).*2.
Hypothesis few : Z.of_nat (length F) < NINODES.

Lemma iappend_fits done rest : p = done ++ rest -> fits (<[k := l ++ done]> F.*2).
Proof.
  intros E. rewrite list_fmap_insert in room. pose proof (fimg_file _ _ _ _ _ _ I Hk) as (_ & _ & Hl). apply lookup_lt_Some in Hl.
  rewrite <- (list_insert_insert_eq F.*2 k (l ++ done) (l ++ p)). apply (fits_prefix _ k (l ++ done) rest); [|exact room].
  rewrite list_lookup_insert_eq by exact Hl. by rewrite E, app_assoc.
Qed.

Lemma append_loop_spec a (Q : inode * Z -> image -> Prop) : A !! k = Some a ->
  (forall s' a', fsys s' (<[k := a']> A) (<[k := l ++ p]> F.*2) -> im_freeinode s' = im_freeinode s ->
     (forall m, m < nmeta -> blk s' m = blk s m) -> Q (din_of t (len l) a', len (l ++ p)) s') ->
  wp (loop (S (length p)) append_block (din_of t (len l) a, len l, p)) Q s.
Proof.
  intros Ha HQ. pose proof (fimg_file _ _ _ _ _ _ I Hk) as (_ & _ & Hl). pose proof (lookup_lt_Some _ _ _ Hl) as Hlt.
  pose proof (lookup_lt_Some _ _ _ Ha) as Hlt'.
  apply wp_loop with (n := length p) (I := fun n st s1 => exists done rest a', p = done ++ rest /\ n = length rest /\
    st = (din_of t (len l) a', len (l ++ done), rest) /\ fsys s1 (<[k := a']> A) (<[k := l ++ done]> F.*2) /\
    im_freeinode s1 = im_freeinode s /\ (forall m, m < nmeta -> blk s1 m = blk s m)); [| |lia].
  2: { exists [], p, a. rewrite app_nil_r, (list_insert_id A), (list_insert_id F.*2) by assumption. repeat (split; [reflexivity|]).
       split; [apply I|]. by split. }
  intros n st s1 (done & rest & a' & Ep & -> & -> & Fs & Hi & Hm). destruct rest as [|x rest].
  { rewrite app_nil_r in Ep. subst done. exact (HQ s1 a' Fs Hi Hm). }
  apply (append_block_spec (<[k := a']> A) (<[k := l ++ done]> F.*2) k s1 (din_of t (len l) a') (l ++ done) (x :: rest)); [exact Fs|..|].
  - by apply list_lookup_insert_eq.
  - by apply list_lookup_insert_eq.
  - done.
  - rewrite list_insert_insert_eq. set (n1 := Z.to_nat _). rewrite <- app_assoc. apply iappend_fits with (rest := drop n1 (x :: rest)).
    by rewrite <- app_assoc, take_drop.
  - set (n1 := Z.to_nat _). intros s2 a2 Fs2 Hi2 Hm2 Hn. rewrite !list_insert_insert_eq in Fs2. exists (length (drop n1 (x :: rest))).
    split; [rewrite length_drop; cbn [length]; lia|]. exists (done ++ take n1 (x :: rest)), (drop n1 (x :: rest)), a2.
    rewrite <- !app_assoc, take_drop in *. split; [exact Ep|]. split; [reflexivity|]. split; [reflexivity|]. split; [exact Fs2|].
    split; [congruence|]. intros m Hlow. rewrite Hm2 by exact Hlow. auto.
Qed.

Lemma iappend_spec : wp (iappend (Z.of_nat k + 1) p) (fun _ s' => exists A', fimg s' (<[k := (t, l ++ p)]> F) A') s.
Proof.
  destruct (fimg_file _ _ _ _ _ _ I Hk) as (a & Ha & Hl). pose proof (lookup_lt_Some _ _ _ Hk) as Hlt.
  assert (fits (<[k := l ++ p]> F.*2)) as Hf by (apply iappend_fits with (rest := []); by rewrite app_nil_r).
  assert (len (l ++ p) <= MAXFILE * BSIZE /\ 0 <= len l <= len (l ++ p)) as [H1 H2].
  { destruct Hf as [Ff _]. rewrite Forall_lookup in Ff. split; [apply (Ff k), list_lookup_insert_eq; by eapply lookup_lt_Some|].
    unfold len. rewrite length_app. lia. }
  assert (- 2 ^ 15 <= t < 2 ^ 15) as Ht by (pose proof (fi_types _ _ _ I) as Hty; rewrite Forall_lookup in Hty; exact (Hty k _ Hk)).
  unfold iappend. wp_step. apply wp_rinode; [apply I|lia|]. rewrite (fi_table _ _ _ I k t l a Hk Ha). cbn [i_size din_of].
  rewrite xint_id by (sizes; lia). wp_step. apply append_loop_spec; [exact Ha|]. intros s1 a1 Fs1 Hi1 Hm1.
  change (with_i_size ?n (din_of t (len l) a1)) with (din_of t n a1). rewrite xint_id by (sizes; lia).
  apply wp_winode; [apply Fs1|lia| |].
  { apply (fimg_inode_ok s1 (<[k := a1]> A) (<[k := l ++ p]> F.*2) k); [exact Fs1| |  |exact Hf|exact Ht];
      apply list_lookup_insert_eq; by eapply lookup_lt_Some. }
  intros s2 Hp2 Hi2 Hb2 Hm2 Hd2 Ho2. exists (<[k := a1]> A).
  assert (forall m, m < 32 -> blk s2 m = blk s m) as Hlow by (intros m Hm; rewrite Hm2, Hm1 by (sizes; lia); reflexivity).
  split.
  - rewrite list_fmap_insert. apply (fsys_meta s1); [exact Fs1|exact Hp2|exact Hb2|]. intros m Hm. apply Hm2. sizes; lia.
  - rewrite length_insert, Hi2, Hi1. apply I.
  - intros j t' l' a' Hj Ha'. destruct (decide (j = k)) as [->|Hne].
    + rewrite list_lookup_insert_eq in Hj by exact Hlt. rewrite list_lookup_insert_eq in Ha' by (by eapply lookup_lt_Some).
      injection Hj as <- <-. injection Ha' as <-. exact Hd2.
    + rewrite list_lookup_insert_ne in Hj by auto. rewrite list_lookup_insert_ne in Ha' by auto. apply lookup_lt_Some in Hj as Hjl. rewrite Ho2 by lia.
      rewrite <- (fi_table _ _ _ I j t' l' a' Hj Ha'). destruct (iblock_eq (Z.of_nat j + 1) ltac:(lia)) as [_ Hib].
      unfold dinode. rewrite Hm1; [reflexivity|]. sizes; lia.
  - rewrite length_insert. intros n Hn. rewrite Ho2 by lia. rewrite <- (fi_unused _ _ _ I n Hn). destruct (iblock_eq n ltac:(lia)) as [_ Hib].
    unfold dinode. rewrite Hm1; [reflexivity|]. sizes; lia.
  - apply Forall_insert; [apply I|exact Ht].
  - rewrite Hlow by lia. exact (fi_boot _ _ _ I).
  - rewrite Hlow by lia. exact (fi_sb _ _ _ I).
  - intros n Hn. rewrite Hlow by lia. exact (fi_log _ _ _ I n Hn).
Qed.
End iappend.

(** ** ialloc() *)

Lemma xshort_id x : 0 <= x < 2 ^ 16 -> xshort x = x.
Proof. intros Hx. unfold xshort, le_val, u8. rewrite Z.shiftr_div_pow2 by lia. dlia. Qed.

Definition no_blocks : list Z := replicate (Z.to_nat (NDIRECT + 1)) 0.

Lemma no_blocks_owned c k : 0 <= k <= MAXFILE -> owned c no_blocks k = 0.
Proof.
  intros Hk. assert (forall j, 0 <= j <= NDIRECT -> zget no_blocks j = 0) as E.
  { intros j Hj. unfold zget, no_blocks. apply lookup_total_replicate_2. sizes. lia. }
  unfold owned, baddr. rewrite (E NDIRECT) by (sizes; lia). cbn [Z.eqb]. destruct (k =? MAXFILE); [reflexivity|].
  destruct (Z.ltb_spec k NDIRECT); [apply E; lia|reflexivity].
Qed.

Lemma rep_empty c hi : rep c hi no_blocks (blocks (len [])) [].
Proof.
  change (blocks (len [])) with 0. split; [reflexivity|sizes; lia|done| | | | |].
  - rewrite <- (owned_max c), no_blocks_owned by (sizes; lia). sizes; lia.
  - intros bn Hb. rewrite <- owned_lt, no_blocks_owned by lia. lia.
  - intros k Hk. by rewrite no_blocks_owned by exact Hk.
  - intros j k Hj Hk. by rewrite (no_blocks_owned _ j) by exact Hj.
  - lia.
Qed.

Lemma lookup_snoc {B} (l : list B) (x y : B) k : (l ++ [x]) !! k = Some y -> l !! k = Some y \/ k = length l /\ y = x.
Proof.
  intros H. apply lookup_app_Some in H as [H|[Hk H]]; [by left|right].
  destruct (k - length l)%nat eqn:E; [|discriminate]. injection H as <-. split; [lia|reflexivity].
Qed.

Lemma fsys_new s A L : fsys s A L -> fsys s (A ++ [no_blocks]) (L ++ [[]]).
Proof.
  intros F. split; [apply F|rewrite !length_app, (fy_same _ _ _ F); reflexivity| | | |apply F].
  - intros k a l Ha Hl. apply lookup_snoc in Ha as [Ha|[-> ->]], Hl as [Hl|[Ek ->]].
    + by apply (fy_rep _ _ _ F k).
    + exfalso. apply lookup_lt_Some in Ha. rewrite (fy_same _ _ _ F) in Ha. lia.
    + exfalso. apply lookup_lt_Some in Hl. rewrite (fy_same _ _ _ F) in Hl. lia.
    + apply rep_empty.
  - intros j k a b x y Hj Ha Hb Hx Hy. apply lookup_snoc in Ha as [Ha|[-> ->]], Hb as [Hb|[-> ->]].
    + by apply (fy_apart _ _ _ F j k).
    + rewrite (no_blocks_owned _ y) by exact Hy. auto.
    + by rewrite no_blocks_owned by exact Hx.
    + lia.
  - rewrite space_app. change (space [[]]) with 0. rewrite (fy_count _ _ _ F). lia.
Qed.

Lemma ialloc_spec s F A t : fimg s F A -> 1 + Z.of_nat (length F) < NINODES -> 0 <= t < 2 ^ 15 ->
  wp (ialloc t) (fun r s' => r = 1 + Z.of_nat (length F) /\ fimg s' (F ++ [(t, [])]) (A ++ [no_blocks])) s.
Proof.
  intros I Hn Ht. pose proof (fi_next _ _ _ I) as Hi. change NINODES with 200 in Hn. unfold ialloc, next_inode. do 5 wp_step.
  cbn [im_freeinode with_im_freeinode]. rewrite Hi, u32_id by lia. cbv zeta. set (inum := 1 + Z.of_nat (length F)) in *. wp_step.
  set (s1 := with_im_freeinode _ s). change (with_i_size _ _) with (din_of (i16 (xshort t)) 0 no_blocks).
  replace (i16 (xshort t)) with t by (rewrite xshort_id by lia; unfold i16; dlia).
  wp_step. apply wp_winode; [apply I|change NINODES with 200; lia| |].
  { split; cbn; [lia..|]. split; [reflexivity|]. apply Forall_replicate. lia. }
  intros s2 Hp2 Hi2 Hb2 Hm2 Hd2 Ho2. wp_step. split; [reflexivity|]. change (blk s1) with (blk s) in *. split.
  - rewrite fmap_app. apply fsys_new, (fsys_meta s); [apply I|exact Hp2|exact Hb2|]. intros m Hm. apply Hm2. sizes; lia.
  - rewrite length_app, Hi2. cbn. lia.
  - intros k t' l a Hk Ha. apply lookup_snoc in Hk as [Hk|[-> Hk]], Ha as [Ha|[Ek ->]].
    + rewrite Ho2 by (apply lookup_lt_Some in Hk; change NINODES with 200; lia). by apply (fi_table _ _ _ I).
    + exfalso. apply lookup_lt_Some in Hk. pose proof (fy_same _ _ _ (fi_sys _ _ _ I)) as E. rewrite length_fmap in E. lia.
    + exfalso. apply lookup_lt_Some in Ha. pose proof (fy_same _ _ _ (fi_sys _ _ _ I)) as E. rewrite length_fmap in E. lia.
    + injection Hk as -> ->. rewrite Z.add_comm. exact Hd2.
  - intros n Hn'. rewrite length_app in Hn'. cbn in Hn'. rewrite Ho2 by lia. apply (fi_unused _ _ _ I). lia.
  - apply Forall_app_2; [apply I|]. constructor; [cbn; lia|constructor].
  - rewrite Hm2 by lia. exact (fi_boot _ _ _ I).
  - rewrite Hm2 by lia. exact (fi_sb _ _ _ I).
  - intros n Hn'. rewrite Hm2 by lia. exact (fi_log _ _ _ I n Hn').
Qed.
