(* ===== verification/MkfsMain.v ===== *)
(** * mkfs.c, last part of the proofs: main(). *)

From S2P Require Import Prelude Exec Params State Mem Vm VmTable VmUser Sched Sleeplock Bio BioSpec Log LogSpec LogCrash LogOp.
From S2P Require Import RingBuf Uart Printf Console Fs FsBlock FsFile FsInode FsData FsWrite Mkfs MkfsFile MkfsSpec MkfsImage.

(** ** What the image should contain *)

(** An input file that can be opened: its path, and what the reads of it return. *)
Notation infile := (list Z * list (list Z))%type.
Definition argv (files : list infile) : list input := (fun f => (f.1, Some f.2)) <$> files.

(** The directory entry of the input file number [i]. *)
Definition dir_entry (i : nat) (f : infile) : list Z := dirent_bytes (Z.of_nat i + 2) (strncpy (shortname f.1) (Z.to_nat DIRSIZ)).

Definition dots : list Z := dirent_bytes ROOTINO (dot (str ".")) ++ dirent_bytes ROOTINO (dot (str "..")).

Definition root_dir (files : list infile) : list Z := dots ++ concat (imap dir_entry files).
Definition plain_file (f : infile) : Z * list Z := (T_FILE, concat f.2).
Definition contents (files : list infile) : list (Z * list Z) := (T_DIR, root_dir files) :: (plain_file <$> files).

(** The inputs have good names and fit the image. *)
Record inputs_ok (files : list infile) : Prop := {
  ip_names : Forall (fun f => 47 ∉ basename f.1) files;
  ip_few : Z.of_nat (length files) + 1 < NINODES;
  ip_fits : fits (contents files).*2;
}.

(** ** Adding a file *)

(** [f] has been entered in the directory, and [done] is what has been copied of it. *)
Definition adding (pre : list infile) (f : infile) (done : list Z) : list (Z * list Z) :=
  (T_DIR, root_dir (pre ++ [f])) :: (plain_file <$> pre) ++ [(T_FILE, done)].

Lemma root_dir_snoc pre f : root_dir (pre ++ [f]) = root_dir pre ++ dir_entry (length pre) f.
Proof.
  unfold root_dir. rewrite imap_app, concat_app, app_assoc. f_equal. cbn. rewrite app_nil_r, Nat.add_0_r. reflexivity.
Qed.

Lemma root_dir_prefix pre rest : root_dir pre `prefix_of` root_dir (pre ++ rest).
Proof. unfold root_dir. rewrite imap_app, concat_app, app_assoc. by apply prefix_app_r. Qed.

Lemma cost_prefix l l' : l `prefix_of` l' -> cost (blocks (len l)) <= cost (blocks (len l')).
Proof.
  intros [k ->]. apply cost_mono. split; [apply blocks_nonneg|]. unfold blocks, len. rewrite length_app. sizes. dlia.
Qed.

(** Files whose contents are parts of ones that fit. *)
Lemma fits_below L L1 L2 : Forall2 prefix L L1 -> fits (L1 ++ L2) -> fits L.
Proof.
  intros Hp [F S]. rewrite space_app in S. apply Forall_app in F as [F _]. pose proof (space_nonneg L2) as H2.
  enough (Forall (fun l => len l <= MAXFILE * BSIZE) L /\ space L <= space L1) by (split; [tauto|lia]). clear S H2.
  induction Hp as [|l l1 L L1 Hl Hp IH]; [split; [constructor|lia]|]. apply Forall_cons in F as [F1 F]. destruct (IH F) as [I1 I2].
  pose proof (cost_prefix _ _ Hl). cbn [space]. split; [|lia]. constructor; [|exact I1]. destruct Hl as [k ->].
  unfold len in *. rewrite length_app in F1. lia.
Qed.

Lemma adding_fits pre f rest done : done `prefix_of` concat f.2 -> fits (contents (pre ++ f :: rest)).*2 -> fits (adding pre f done).*2.
Proof.
  intros Hd. assert ((contents (pre ++ f :: rest)).*2 =
    (root_dir (pre ++ f :: rest) :: (plain_file <$> pre).*2 ++ [concat f.2]) ++ (plain_file <$> rest).*2) as ->.
  { unfold contents. rewrite fmap_cons, !fmap_app, !fmap_cons. cbn [app]. by rewrite <- app_assoc. }
  apply fits_below. unfold adding. rewrite fmap_cons, fmap_app. constructor.
  - cbn [snd]. change (pre ++ f :: rest) with (pre ++ [f] ++ rest). rewrite app_assoc. apply root_dir_prefix.
  - apply Forall2_app; [|constructor; [exact Hd|constructor]]. clear. induction (plain_file <$> pre).*2; constructor; auto.
Qed.

Section add.
Variables (pre : list infile) (f : infile) (rest : list infile).
Let files := pre ++ f :: rest.
Hypothesis ok : inputs_ok files.
Let inum : Z := Z.of_nat (length pre) + 2.

Lemma add_few : Z.of_nat (length pre) + 2 < NINODES.
Proof. pose proof (ip_few _ ok) as H. unfold files in H. rewrite length_app in H. cbn in H. lia. Qed.

(** The entry goes to the directory. *)
Lemma add_entry s A : fimg s (contents pre ++ [(T_FILE, [])]) A ->
  wp (iappend ROOTINO (dir_entry (length pre) f)) (fun _ s' => exists A', fimg s' (adding pre f []) A') s.
Proof.
  intros I. pose proof add_few as Hn.
  assert (adding pre f [] = <[0%nat := (T_DIR, root_dir pre ++ dir_entry (length pre) f)]> (contents pre ++ [(T_FILE, [])])) as E.
  { unfold adding, contents. rewrite root_dir_snoc. reflexivity. }
  rewrite E. apply (iappend_spec s (contents pre ++ [(T_FILE, [])]) A 0 T_DIR (root_dir pre) (dir_entry (length pre) f) I); [reflexivity| |].
  - rewrite <- E. apply (adding_fits pre f rest); [apply prefix_nil|apply ok].
  - rewrite length_app. unfold contents. cbn [length]. rewrite length_fmap. lia.
Qed.

(** The content of the file. *)
Lemma add_content s A : fimg s (adding pre f []) A ->
  wp (forM f.2 (iappend inum)) (fun _ s' => exists A', fimg s' (contents (pre ++ [f])) A') s.
Proof.
  intros I. pose proof add_few as Hn. eapply wp_mono.
  - apply (wp_forM (fun r s1 => exists done A1, f.2 = done ++ r /\ fimg s1 (adding pre f (concat done)) A1)); [by exists [], A|].
    intros p r s1 (done & A1 & Ef & I1). set (k := length (contents pre)).
    assert (length (contents pre) = S (length pre)) as Lc by (unfold contents; cbn [length]; by rewrite length_fmap).
    assert (forall l, adding pre f l = ((T_DIR, root_dir (pre ++ [f])) :: (plain_file <$> pre)) ++ [(T_FILE, l)]) as Ea by reflexivity.
    assert (length ((T_DIR, root_dir (pre ++ [f])) :: (plain_file <$> pre)) = k) as Lk by (unfold k; cbn [length]; rewrite Lc, length_fmap; reflexivity).
    assert (adding pre f (concat (done ++ [p])) = <[k := (T_FILE, concat done ++ p)]> (adding pre f (concat done))) as E.
    { rewrite !Ea, insert_app_r_alt by lia. rewrite Lk, Nat.sub_diag, concat_app. cbn [concat]. by rewrite app_nil_r. }
    replace inum with (Z.of_nat k + 1) by (unfold k, inum; rewrite Lc; lia).
    eapply wp_mono; [apply (iappend_spec s1 (adding pre f (concat done)) A1 k T_FILE (concat done) p I1)|].
    + rewrite Ea, lookup_app_r by lia. by rewrite Lk, Nat.sub_diag.
    + rewrite <- E. apply (adding_fits pre f rest); [|apply ok]. rewrite Ef. change (p :: r) with ([p] ++ r).
      rewrite app_assoc, (concat_app (done ++ [p])). by apply prefix_app_r.
    + rewrite Ea, length_app, Lk. unfold k. rewrite Lc. cbn [length]. lia.
    + intros _ s2 (A2 & I2). exists (done ++ [p]), A2. split; [by rewrite <- app_assoc|]. by rewrite E.
  - intros _ s1 (done & A1 & Ef & I1). exists A1. rewrite app_nil_r in Ef. unfold contents. rewrite fmap_app. cbn [fmap list_fmap].
    unfold plain_file at 2. rewrite Ef. exact I1.
Qed.

Lemma add_file_spec s A : fimg s (contents pre) A ->
  wp (add_file ROOTINO (f.1, Some f.2)) (fun _ s' => exists A', fimg s' (contents (pre ++ [f])) A') s.
Proof.
  intros I. pose proof add_few as Hn. assert (length (contents pre) = S (length pre)) as Lc by (unfold contents; cbn [length]; by rewrite length_fmap).
  unfold add_file, assert. rewrite bool_decide_eq_false_2.
  2: { pose proof (ip_names _ ok) as Hf. rewrite Forall_forall in Hf. apply Hf. unfold files. apply elem_of_app. right. by left. }
  cbn [negb]. do 2 wp_step. wp_step. eapply wp_mono; [apply (ialloc_spec s (contents pre) A T_FILE I); [lia|unfold T_FILE; lia]|].
  intros r s1 [-> I1]. wp_step. replace (1 + Z.of_nat (length (contents pre))) with inum by (rewrite Lc; unfold inum; lia).
  eapply wp_mono; [exact (add_entry s1 _ I1)|]. intros _ s2 (A2 & I2). exact (add_content s2 A2 I2).
Qed.
End add.

(** ** The empty file system *)

Lemma wp_clear s : wp (forM (seqZ 0 FSSIZE) (fun i => wsect i zeros)) (fun _ s' => present s' /\ im_freeinode s' = im_freeinode s /\
  im_freeblock s' = im_freeblock s /\ ((forall m, blk s m = zeros) -> forall m, blk s' m = zeros)) s.
Proof.
  eapply wp_mono.
  - apply (wp_forM (fun rest s1 => Forall (fun m => 0 <= m < FSSIZE) rest /\
      (forall m, 0 <= m < FSSIZE -> m ∈ rest \/ im_block s1 !! m = Some zeros) /\ im_freeinode s1 = im_freeinode s /\
      im_freeblock s1 = im_freeblock s /\ ((forall m, blk s m = zeros) -> forall m, blk s1 m = zeros))).
    + split; [apply Forall_forall; intros m Hm; apply elem_of_seqZ in Hm; lia|]. split; [|auto].
      intros m Hm. left. apply elem_of_seqZ. lia.
    + intros x rest s1 (Hr & Hw & Hi & Hb & Hz). apply Forall_cons in Hr as [Hx Hr]. unfold wsect. wp_step. rewrite sector_id by exact Hx.
      split; [exact Hr|]. split; [|split; [exact Hi|split; [exact Hb|]]].
      * intros m Hm. cbn. destruct (decide (m = x)) as [->|Hne]; [right; apply lookup_insert_eq|]. rewrite lookup_insert_ne by auto.
        destruct (Hw m Hm) as [Hin|Hin]; [|by right]. apply elem_of_cons in Hin as [Hin|Hin]; [congruence|by left].
      * intros H0 m. unfold blk. cbn. destruct (decide (m = x)) as [->|Hne]; [by rewrite lookup_insert_eq|].
        rewrite lookup_insert_ne by auto. by apply Hz.
  - intros _ s1 (_ & Hw & Hi & Hb & Hz). split; [|auto]. intros m Hm. exists zeros. destruct (Hw m Hm) as [Hin|Hin]; [by apply not_elem_of_nil in Hin|].
    split; [exact Hin|apply length_replicate].
Qed.

Lemma dinode_zeros inum : 0 <= inum -> i_type (read_dinode zeros (dinode_off inum) inhabitant) = 0.
Proof.
  intros Hi. destruct (dinode_off_range inum) as [D1 D2]. change DINODE_SIZE with 64 in D2. cbn. unfold get16, slice, zeros.
  rewrite drop_replicate, take_replicate. replace (Nat.min _ _) with 2%nat by (sizes; lia). reflexivity.
Qed.

Lemma fimg_empty s : present s -> im_freeinode s = 1 -> im_freeblock s = nmeta -> (forall m, m <> 1 -> blk s m = zeros) ->
  blk s 1 = splice zeros 0 sb_bytes -> fimg s [] [].
Proof.
  intros Hp Hi Hb Hz Hs. split; [|exact Hi|done| |constructor|apply Hz; lia|exact Hs|intros; apply Hz; lia].
  - split; [exact Hp|reflexivity|done|done|cbn; lia|]. intros m Hm. apply Hz. sizes; lia.
  - intros n Hn. unfold dinode. destruct (iblock_eq n) as [_ Hib]; [cbn in Hn; lia|]. rewrite Hz by lia. apply dinode_zeros. cbn in Hn. lia.
Qed.

(** The directory with its first two entries. *)
Lemma root_spec files s (K : Z -> IM unit) Q : inputs_ok files -> fimg s [] [] ->
  (forall s' A, fimg s' (contents []) A -> wp (K ROOTINO) Q s') ->
  wp (r <- ialloc T_DIR ;; assert (r =? ROOTINO) ;;; iappend r (dirent_bytes r (dot (str "."))) ;;;
      iappend r (dirent_bytes r (dot (str ".."))) ;;; K r) Q s.
Proof.
  intros Hok I HK. wp_step. eapply wp_mono; [apply (ialloc_spec s [] [] T_DIR I); [cbn; unfold NINODES; lia|unfold T_DIR; lia]|].
  intros r s1 [-> I1]. change (1 + Z.of_nat (length [])) with ROOTINO. cbn [app] in I1. unfold assert. rewrite Z.eqb_refl. do 3 wp_step.
  set (d1 := dirent_bytes ROOTINO (dot (str "."))). set (d2 := dirent_bytes ROOTINO (dot (str ".."))).
  assert (fits (contents []).*2) as Hf.
  { apply (fits_below _ [root_dir files] ((plain_file <$> files).*2)); [|exact (ip_fits _ Hok)]. constructor; [|constructor].
    exact (root_dir_prefix [] files). }
  eapply wp_mono; [apply (iappend_spec s1 [(T_DIR, [])] _ 0 T_DIR [] d1 I1 eq_refl)|].
  { apply (fits_below _ [root_dir []] []); [|exact Hf]. constructor; [|constructor]. exists d2. reflexivity. }
  { cbn. unfold NINODES. lia. }
  intros _ s2 (A2 & I2). cbn [insert list_insert app] in I2. wp_step.
  eapply wp_mono; [apply (iappend_spec s2 [(T_DIR, d1)] A2 0 T_DIR d1 d2 I2 eq_refl); [exact Hf|cbn; unfold NINODES; lia]|].
  intros _ s3 (A3 & I3). exact (HK s3 A3 I3).
Qed.

(** ** The bitmap *)

Lemma bitmap_spec (n : nat) : Z.of_nat n <= 8192 -> length (bitmap (Z.of_nat n)) = Z.to_nat BSIZE /\
  forall b, 0 <= b < 8192 -> Z.testbit (zget (bitmap (Z.of_nat n)) (b / 8)) (b mod 8) = bool_decide (b < Z.of_nat n).
Proof.
  induction n as [|n IH]; intros Hn.
  { split; [apply length_replicate|]. intros b Hb. change (bitmap (Z.of_nat 0)) with zeros. unfold zeros, zget.
    rewrite lookup_total_replicate_2 by (sizes; dlia). rewrite Z.bits_0. symmetry. apply bool_decide_eq_false_2. lia. }
  destruct (IH ltac:(lia)) as [Hl Hb]. set (i := Z.of_nat n) in *.
  assert (bitmap (Z.of_nat (S n)) = zset (bitmap i) (i / 8) (u8 (Z.lor (zget (bitmap i) (i / 8)) (Z.shiftl 1 (i mod 8))))) as E.
  { unfold bitmap. rewrite Nat2Z.inj_succ, <- Z.add_1_r, seqZ_app, fold_left_app by lia. rewrite Z.add_0_l.
    change (seqZ (Z.of_nat n) 1) with [Z.of_nat n]. reflexivity. }
  rewrite E. split; [rewrite zset_length; exact Hl|]. intros b Hr. destruct (Z.eq_dec (b / 8) (i / 8)) as [Eb|Eb].
  - rewrite Eb, zget_zset_eq by (rewrite Hl; sizes; dlia). unfold u8. rewrite Z.mod_pow2_bits_low by dlia.
    rewrite Z.lor_spec, Z.shiftl_spec, <- Eb, Hb by dlia. destruct (Z.eq_dec b i) as [->|Hne].
    + rewrite Z.sub_diag, orb_true_r. symmetry. apply bool_decide_eq_true_2. lia.
    + assert (Z.testbit 1 (b mod 8 - i mod 8) = false) as ->.
      { assert (b mod 8 - i mod 8 <> 0) by dlia. destruct (Z_lt_le_dec (b mod 8 - i mod 8) 0); [by apply Z.testbit_neg_r|].
        apply Z.bits_above_log2; [lia|]. change (Z.log2 1) with 0. lia. }
      rewrite orb_false_r. apply bool_decide_ext. lia.
  - rewrite zget_zset_ne by dlia. rewrite Hb by exact Hr. assert (b <> i) by congruence. apply bool_decide_ext. lia.
Qed.

(** ** The finished image, as the kernel reads it *)

(** The log that initlog() sets up. *)
Definition log_of : log := with_l_size (sb_nlog sb) (with_l_start (sb_logstart sb) inhabitant).

(** Inode [inum] is a file of type [t] with content [bs]. *)
Record holds (c : Z -> list Z) (inum t : Z) (bs : list Z) : Prop := {
  ho_type : i_type (dinode c inum) = t;
  ho_nlink : i_nlink (dinode c inum) = 1;
  ho_size : i_size (dinode c inum) = len bs;
  ho_file : file_ok sb log_of c (i_addrs (dinode c inum));
  ho_bytes : file_bytes c (i_addrs (dinode c inum)) 0 (len bs) = bs;
}.

(** The root directory is filled up with zeros to a multiple of the block size. *)
Definition pad (l : list Z) : list Z := replicate (Z.to_nat (BSIZE - len l mod BSIZE)) 0.

Record image_ok (files : list infile) (c : Z -> list Z) : Prop := {
  io_sb : mkSuperblock (get32 (c 1) 0) (get32 (c 1) 4) (get32 (c 1) 8) (get32 (c 1) 12) (get32 (c 1) 16)
            (get32 (c 1) 20) (get32 (c 1) 24) (get32 (c 1) 28) = sb;
  io_log : get32 (c (sb_logstart sb)) 0 = 0;
  io_geom : fs_geom sb log_of;
  io_free : free_ok sb log_of c;
  io_used : forall b, 0 <= b < sb_size sb -> used sb c b = bool_decide (b < nmeta + space (contents files).*2);
  io_root : holds c ROOTINO T_DIR (root_dir files ++ pad (root_dir files));
  io_root_blocks : forall bn, 0 <= bn < MAXFILE ->
    baddr c (i_addrs (dinode c ROOTINO)) bn = 0 <-> blocks (len (root_dir files)) <= bn;
  io_files : forall k f, files !! k = Some f -> holds c (Z.of_nat k + 2) T_FILE (concat f.2);
  io_apart : forall i j x y, 1 <= i <= Z.of_nat (length files) + 1 -> 1 <= j <= Z.of_nat (length files) + 1 -> i <> j ->
    0 <= x <= MAXFILE -> 0 <= y <= MAXFILE -> let a := i_addrs (dinode c i) in
    owned c a x <> 0 -> owned c a x <> owned c (i_addrs (dinode c j)) y;
  io_unused : forall n, Z.of_nat (length files) + 1 < n < NINODES -> i_type (dinode c n) = 0;
}.

Lemma bblock_eq b : 0 <= b < FSSIZE -> BBLOCK b sb = 45.
Proof. intros Hb. unfold BBLOCK. change (sb_bmapstart sb) with 45. rewrite bpb_eq. sizes. rewrite Z.div_small by lia. reflexivity. Qed.

Lemma home_iff m : home log_of m <-> ~ 2 <= m < 32.
Proof. reflexivity. Qed.

Lemma geom : fs_geom sb log_of.
Proof.
  split; [change (sb_size sb) with 2000; lia|change (sb_bmapstart sb) with 45; split; [lia|vm_compute; reflexivity]|]. intros b Hb. change (sb_size sb) with FSSIZE in Hb.
  rewrite bblock_eq by exact Hb. apply home_iff. lia.
Qed.

Section final.
Variables (c : Z -> list Z) (hi : Z).
Hypothesis marked : forall b, 0 <= b < FSSIZE -> used sb c b = bool_decide (b < hi).
Hypothesis low : nmeta <= hi.
Hypothesis top : hi <= FSSIZE.

Lemma final_free : free_ok sb log_of c.
Proof.
  intros b Hb Hu. change (sb_size sb) with FSSIZE in *. rewrite marked in Hu by exact Hb. apply bool_decide_eq_false_1 in Hu.
  sizes. split; [lia|]. split; [apply home_iff; lia|]. intros b' Hb'. rewrite bblock_eq by (sizes; exact Hb'). lia.
Qed.

Lemma rep_file_ok a nb l : rep c hi a nb l -> file_ok sb log_of c a.
Proof.
  intros R. split; [apply R| |apply R]. intros k Hk Hne. pose proof (rp_range _ _ _ _ _ R k Hk Hne) as Hr.
  split; [change (sb_size sb) with FSSIZE; sizes; lia|rewrite marked by (sizes; lia); apply bool_decide_eq_true_2; lia|apply home_iff; sizes; lia|].
  intros b Hb. change (sb_size sb) with FSSIZE in Hb. rewrite bblock_eq by exact Hb. sizes; lia.
Qed.

End final.

(** The bytes of a file, and zeros up to the end of the block after them. *)
Lemma rep_content c hi a nb l n : rep c hi a nb l -> c 0 = zeros -> (nb + 1) * BSIZE <= MAXFILE * BSIZE \/ Z.of_nat n = 0 ->
  len l + Z.of_nat n <= (nb + 1) * BSIZE -> file_bytes c a 0 (len l + Z.of_nat n) = l ++ replicate n 0.
Proof.
  intros R Hz Hm Hn. assert (0 <= len l) as Hl by (unfold len; lia).
  apply list_eq_same_length with (Z.to_nat (len l + Z.of_nat n)).
  - rewrite length_app, length_replicate. unfold len. lia.
  - pose proof (file_bytes_length c a 0 (len l + Z.of_nat n) ltac:(lia)). lia.
  - intros j x y Hj Hx Hy. unfold file_bytes in Hx. apply list_lookup_fmap_Some in Hx as (k & -> & Hk). apply lookup_seqZ in Hk as [-> Hk].
    assert (default 0 (l !! j) = y) as <-.
    { apply lookup_app_Some in Hy as [Hy|[Hlt Hy]]; [by rewrite Hy|]. apply lookup_replicate in Hy as [-> _].
      by rewrite lookup_ge_None_2 by exact Hlt. }
    rewrite !Z.add_0_l. destruct (Z_lt_le_dec (Z.of_nat j) (nb * BSIZE)) as [Hb|Hb].
    + rewrite (rp_bytes _ _ _ _ _ R) by lia. by rewrite Nat2Z.id.
    + pose proof (rp_fit _ _ _ _ _ R). pose proof (rp_nb _ _ _ _ _ R). unfold file_byte. rewrite (proj2 (rp_map _ _ _ _ _ R (Z.of_nat j / BSIZE) ltac:(sizes; dlia))) by (sizes; dlia).
      rewrite Hz. unfold zeros, zget. rewrite lookup_total_replicate_2 by (sizes; dlia). rewrite lookup_ge_None_2; [reflexivity|]. unfold len in *. lia.
Qed.

Lemma root_dir_len files : len (root_dir files) = DIRENT_SIZE * (Z.of_nat (length files) + 2).
Proof.
  induction files as [|f files IH] using rev_ind; [reflexivity|]. rewrite root_dir_snoc. unfold len in *.
  rewrite length_app, Nat2Z.inj_add, IH. unfold dir_entry, dirent_bytes. rewrite !length_app, le_bytes_length, strncpy_length.
  change DIRENT_SIZE with 16. change (Z.to_nat DIRSIZ) with 14%nat. cbn [length]. lia.
Qed.

Section finish.
Variables (files : list infile) (s s' : image) (A : list (list Z)) (root : list Z).
Let F := contents files.
Let dir := root_dir files.
Hypothesis ok : inputs_ok files.
Hypothesis I : fimg s F A.
Hypothesis Hroot : A !! 0%nat = Some root.
Hypothesis here : present s'.
Hypothesis kept : forall m, ~ 32 <= m < 46 -> blk s' m = blk s m.
Hypothesis inode_root : dinode (blk s') ROOTINO = din_of T_DIR (len (dir ++ pad dir)) root.
Hypothesis inode_other : forall j, 0 <= j < NINODES -> j <> ROOTINO -> dinode (blk s') j = dinode (blk s) j.
Hypothesis bits : blk s' 45 = bitmap (im_freeblock s).

Lemma finish_high : im_freeblock s = nmeta + space F.*2 /\ nmeta <= im_freeblock s <= FSSIZE.
Proof.
  pose proof (fy_count _ _ _ (fi_sys _ _ _ I)) as E. pose proof (space_nonneg F.*2). pose proof (ip_fits _ ok) as [_ Hf]. fold F in Hf. lia.
Qed.

Lemma finish_used b : 0 <= b < FSSIZE -> used sb (blk s') b = bool_decide (b < im_freeblock s).
Proof.
  intros Hb. destruct finish_high as (_ & H1 & H2). unfold used. rewrite bblock_eq, bits by exact Hb. rewrite bpb_eq, Z.mod_small by (sizes; lia).
  destruct (bitmap_spec (Z.to_nat (im_freeblock s)) ltac:(sizes; lia)) as [_ Hbm]. rewrite Z2Nat.id in Hbm by (sizes; lia). apply Hbm. sizes; lia.
Qed.

Lemma finish_rep k a l : A !! k = Some a -> F.*2 !! k = Some l ->
  (forall x, owned (blk s') a x = owned (blk s) a x) /\ rep (blk s') (im_freeblock s) a (blocks (len l)) l.
Proof.
  intros Ha Hl. pose proof (fy_rep _ _ _ (fi_sys _ _ _ I) k a l Ha Hl) as R.
  assert (forall x, 0 <= x <= MAXFILE -> owned (blk s) a x <> 0 -> blk s' (owned (blk s) a x) = blk s (owned (blk s) a x)) as Hk.
  { intros x Hx Hne. apply kept. pose proof (rp_range _ _ _ _ _ R x Hx Hne). sizes; lia. }
  split; [by apply frame_owned|]. apply (rep_frame (blk s)) with (hi := im_freeblock s); [exact Hk|lia|exact R].
Qed.

Lemma finish_addrs k : (k <= length files)%nat -> exists a l, A !! k = Some a /\ F.*2 !! k = Some l /\
  i_addrs (dinode (blk s') (Z.of_nat k + 1)) = a.
Proof.
  intros Hk. pose proof (ip_few _ ok) as Hn.
  destruct (lookup_lt_is_Some_2 F k) as [[t l] HF]; [unfold F, contents; cbn [length]; rewrite length_fmap; lia|].
  destruct (fimg_file _ _ _ _ _ _ I HF) as (a & Ha & Hl). exists a, l. split; [exact Ha|]. split; [exact Hl|]. destruct k as [|k].
  - change (Z.of_nat 0 + 1) with ROOTINO. rewrite inode_root. cbn. congruence.
  - rewrite inode_other by (unfold ROOTINO; lia). by rewrite (fi_table _ _ _ I (S k) t l a HF Ha).
Qed.

Lemma finish_root : holds (blk s') ROOTINO T_DIR (dir ++ pad dir).
Proof.
  assert (F.*2 !! 0%nat = Some dir) as Hl by reflexivity. destruct (finish_rep 0 root dir Hroot Hl) as [_ R]. destruct finish_high as (_ & H1 & H2).
  pose proof (root_dir_len files) as Hd. fold dir in Hd. change DIRENT_SIZE with 16 in Hd. pose proof (ip_few _ ok) as Hn. change NINODES with 200 in Hn.
  split; rewrite ?inode_root; cbn [i_type i_nlink i_size i_addrs din_of]; [reflexivity..| |].
  - by apply (rep_file_ok _ _ finish_used H1 H2 _ _ _ R).
  - unfold pad. set (n := Z.to_nat _). assert (len (dir ++ replicate n 0) = len dir + Z.of_nat n) as -> by (unfold len; rewrite length_app, length_replicate; lia).
    apply (rep_content _ (im_freeblock s) _ (blocks (len dir))); [exact R| | |].
    + rewrite kept by lia. exact (fi_boot _ _ _ I).
    + left. unfold blocks. rewrite Hd. sizes. dlia.
    + unfold n, blocks. rewrite Hd. sizes. dlia.
Qed.

Lemma finish_file k f : files !! k = Some f -> holds (blk s') (Z.of_nat k + 2) T_FILE (concat f.2).
Proof.
  intros Hf. assert (F !! S k = Some (T_FILE, concat f.2)) as HF by (change (F !! S k) with ((plain_file <$> files) !! k); exact (eq_trans (list_lookup_fmap plain_file files k) (f_equal (fmap plain_file) Hf))).
  destruct (fimg_file _ _ _ _ _ _ I HF) as (a & Ha & Hl). destruct (finish_rep (S k) a _ Ha Hl) as [_ R]. destruct finish_high as (_ & H1 & H2).
  pose proof (ip_few _ ok) as Hn. apply lookup_lt_Some in Hf as Hk.
  assert (dinode (blk s') (Z.of_nat k + 2) = din_of T_FILE (len (concat f.2)) a) as E.
  { rewrite inode_other by (unfold ROOTINO; lia). rewrite <- (fi_table _ _ _ I (S k) _ _ a HF Ha). f_equal. lia. }
  split; rewrite E; cbn [i_type i_nlink i_size i_addrs din_of]; [reflexivity..| |].
  - by apply (rep_file_ok _ _ finish_used H1 H2 _ _ _ R).
  - rewrite <- (app_nil_r (concat f.2)) at 2. change [] with (replicate 0 0). rewrite <- (Z.add_0_r (len (concat f.2))).
    apply (rep_content _ (im_freeblock s) _ (blocks (len (concat f.2)))) with (n := 0%nat); [exact R| |by right|].
    + rewrite kept by lia. exact (fi_boot _ _ _ I).
    + pose proof (rp_fit _ _ _ _ _ R). sizes. lia.
Qed.

Lemma finish_apart i j x y : 1 <= i <= Z.of_nat (length files) + 1 -> 1 <= j <= Z.of_nat (length files) + 1 -> i <> j ->
  0 <= x <= MAXFILE -> 0 <= y <= MAXFILE -> let a := i_addrs (dinode (blk s') i) in
  owned (blk s') a x <> 0 -> owned (blk s') a x <> owned (blk s') (i_addrs (dinode (blk s') j)) y.
Proof.
  intros Hi Hj Hne Hx Hy. replace i with (Z.of_nat (Z.to_nat (i - 1)) + 1) by lia. replace j with (Z.of_nat (Z.to_nat (j - 1)) + 1) by lia.
  destruct (finish_addrs (Z.to_nat (i - 1)) ltac:(lia)) as (a & l & Ha & Hl & ->).
  destruct (finish_addrs (Z.to_nat (j - 1)) ltac:(lia)) as (b & m & Hb & Hm & ->). cbv zeta.
  rewrite (proj1 (finish_rep _ a l Ha Hl)), (proj1 (finish_rep _ b m Hb Hm)).
  apply (fy_apart _ _ _ (fi_sys _ _ _ I) (Z.to_nat (i - 1)) (Z.to_nat (j - 1))); [lia|assumption..].
Qed.

Lemma finish_ok : image_ok files (blk s').
Proof.
  destruct finish_high as (E & H1 & H2). split.
  - rewrite kept, (fi_sb _ _ _ I) by lia. vm_compute. reflexivity.
  - change (sb_logstart sb) with 2. rewrite kept, (fi_log _ _ _ I) by lia. apply (get32_zeros 0). sizes; lia.
  - exact geom.
  - exact (final_free _ _ finish_used H1 H2).
  - intros b Hb. rewrite finish_used by exact Hb. by rewrite E.
  - exact finish_root.
  - intros bn Hbn. rewrite inode_root. apply (rp_map _ _ _ _ _ (proj2 (finish_rep 0 root dir Hroot eq_refl)) bn Hbn).
  - exact finish_file.
  - exact finish_apart.
  - intros n Hn. rewrite inode_other by (unfold ROOTINO; lia). apply (fi_unused _ _ _ I).
    unfold F, contents. cbn [length]. rewrite length_fmap. lia.
Qed.
End finish.

Lemma files_spec files s A : inputs_ok files -> fimg s (contents []) A ->
  wp (forM (argv files) (add_file ROOTINO)) (fun _ s' => exists A', fimg s' (contents files) A') s.
Proof.
  intros Hok I. eapply wp_mono.
  - apply (wp_forM (fun rest s1 => exists pre post A1, files = pre ++ post /\ rest = argv post /\ fimg s1 (contents pre) A1)); [by exists [], files, A|].
    intros x rest s1 (pre & post & A1 & Ef & Er & I1). destruct post as [|f post]; [discriminate|]. injection Er as -> ->. rewrite Ef in Hok.
    eapply wp_mono; [exact (add_file_spec pre f post Hok s1 A1 I1)|]. intros _ s2 (A2 & I2). exists (pre ++ [f]), post, A2.
    split; [by rewrite <- app_assoc|]. by split.
  - intros _ s1 (pre & post & A1 & Ef & Er & I1). destruct post; [|discriminate]. rewrite app_nil_r in Ef. subst pre. by exists A1.
Qed.

Lemma pad_len l : len (l ++ pad l) = (len l / BSIZE + 1) * BSIZE.
Proof.
  assert (len (l ++ pad l) = len l + (BSIZE - len l mod BSIZE)) as ->; [|sizes; dlia].
  assert (0 <= BSIZE - len l mod BSIZE) by (sizes; dlia). unfold pad. set (n := BSIZE - len l mod BSIZE) in *. clearbody n.
  unfold len. rewrite length_app, length_replicate. lia.
Qed.

(** The size of the root directory, and the bitmap. *)
Lemma finish_spec files s A : inputs_ok files -> fimg s (contents files) A ->
  wp (din <- rinode ROOTINO ;; winode ROOTINO (with_i_size (xint (u32 ((xint (i_size din) / BSIZE + 1) * BSIZE))) din) ;;;
      used <- gets im_freeblock ;; balloc (i32 used)) (fun _ s' => image_ok files (blk s')) s.
Proof.
  intros Hok I. wp_step. destruct (fimg_file s (contents files) A 0 T_DIR (root_dir files) I eq_refl) as (root & Ha & Hl).
  pose proof (root_dir_len files) as Hd. change DIRENT_SIZE with 16 in Hd. pose proof (ip_few _ Hok) as Hn. change NINODES with 200 in Hn.
  apply wp_rinode; [apply I|unfold ROOTINO, NINODES; lia|]. pose proof (fi_table _ _ _ I 0 T_DIR _ root eq_refl Ha) as Et.
  change (Z.of_nat 0 + 1) with ROOTINO in Et. rewrite Et. cbn [i_size din_of]. rewrite (xint_id (len (root_dir files))) by lia.
  set (dir := root_dir files) in *. change (with_i_size ?n (din_of T_DIR (len dir) root)) with (din_of T_DIR n root).
  rewrite u32_id, xint_id by (sizes; dlia). rewrite <- pad_len.
  wp_step. apply wp_winode; [apply I|unfold ROOTINO, NINODES; lia| |].
  { destruct (fimg_inode_ok s A (contents files).*2 0 T_DIR dir root (fi_sys _ _ _ I) Ha Hl (ip_fits _ Hok) ltac:(unfold T_DIR; lia)) as [O1 O2 O3 O4 _ O6].
    split; [exact O1|exact O2|exact O3|exact O4| |exact O6]. cbn [i_size din_of]. rewrite pad_len, Hd. sizes. dlia. }
  intros s5 Hp5 Hi5 Hb5 Hm5 Hd5 Ho5. do 2 wp_step. destruct (finish_high files s A Hok I) as (_ & H1 & H2). unfold balloc, assert.
  replace (i32 (im_freeblock s5)) with (im_freeblock s) by (rewrite Hb5; unfold i32; sizes; dlia).
  rewrite (proj2 (Z.ltb_lt (im_freeblock s) (BSIZE * 8))) by (sizes; lia). do 2 wp_step. change (sb_bmapstart sb) with 45.
  destruct (bitmap_spec (Z.to_nat (im_freeblock s)) ltac:(sizes; lia)) as [Hbl _]. rewrite Z2Nat.id in Hbl by (sizes; lia).
  apply wp_wsect; [exact Hp5|sizes; lia|exact Hbl|]. intros s6 Hp6 Hc6 _ _. unfold put_block in Hc6. cbn [fst snd] in Hc6.
  assert (forall j, 0 <= j < NINODES -> dinode (blk s6) j = dinode (blk s5) j) as E6.
  { intros j Hj. destruct (iblock_eq j Hj) as [_ Hib]. unfold dinode. rewrite Hc6, decide_False by lia. reflexivity. }
  apply (finish_ok files s s6 A root Hok I Ha).
  - intros m Hm. rewrite Hc6, decide_False by lia. apply Hm5. lia.
  - rewrite E6 by (unfold ROOTINO, NINODES; lia). exact Hd5.
  - intros j Hj Hne. rewrite E6 by exact Hj. by apply Ho5.
  - rewrite Hc6. by rewrite decide_True.
Qed.

(** mkfs ends normally on inputs that fit, and writes an image that the kernel
    takes for a file system with exactly these files: the superblock as readsb()
    reads it, an empty log, a bitmap that marks the blocks in use and no others,
    the root directory, and under each inode number the content of its file, in
    blocks no other file has.  The size of the root directory is rounded up to
    the next multiple of BSIZE, also when it is a multiple of BSIZE already; the
    last block is then one that the directory does not have. *)
Theorem mkfs_correct files : inputs_ok files -> wp (main (argv files)) (fun _ s => image_ok files (blk s)) image0.
Proof.
  intros Hok. unfold main. do 3 wp_step. eapply wp_mono; [apply wp_clear|]. intros _ s1 (Hp1 & Hi1 & Hb1 & Hz1).
  cbn [im_freeinode im_freeblock with_im_freeblock image0] in Hi1, Hb1. specialize (Hz1 (fun m => eq_refl)). wp_step.
  apply wp_wsect; [exact Hp1|sizes; lia|reflexivity|]. intros s2 Hp2 Hc2 Hi2 Hb2. unfold put_block in Hc2. cbn [fst snd] in Hc2.
  apply (root_spec files); [exact Hok| |].
  { apply fimg_empty; [exact Hp2|congruence|congruence| |rewrite Hc2; by rewrite decide_True].
    intros m Hm. rewrite Hc2, decide_False by exact Hm. apply Hz1. }
  intros s3 A3 I3. wp_step. eapply wp_mono; [exact (files_spec files s3 A3 Hok I3)|]. intros _ s4 (A & I).
  exact (finish_spec files s4 A Hok I).
Qed.

(** mkfs does not check the number of inodes: number 208 would go to the bitmap block. *)
Lemma inode_in_bitmap : IBLOCK 208 sb = sb_bmapstart sb.
Proof. reflexivity. Qed.

Definition files0 : list infile :=
  [(str "user/_cat", [replicate 1024 7; replicate 300 8]); (str "README", replicate 20 (replicate 1024 9))].
