(* ===== verification/MkfsBoot.v ===== *)
(** * The kernel on the image that mkfs wrote: fsinit(). *)

From S2P Require Import Prelude Exec Params State Mem Vm VmTable VmUser Sched Sleeplock Bio BioSpec Log LogSpec LogCrash LogOp.
From S2P Require Import RingBuf Uart Printf Console Fs FsBlock FsFile FsInode FsData FsWrite Mkfs MkfsFile MkfsSpec MkfsImage MkfsMain.

(** ** The blocks outside the log *)

Section outside.
Variables (files : list infile) (c c' : Z -> list Z).
Hypothesis ok : image_ok files c.
Hypothesis inputs : inputs_ok files.
Hypothesis same : forall m, home log_of m -> c' m = c m.

Lemma same_low m : m < 2 \/ 32 <= m -> c' m = c m.
Proof. intros Hm. apply same, home_iff. lia. Qed.

Lemma same_dinode n : 0 <= n < NINODES -> dinode c' n = dinode c n.
Proof. intros Hn. destruct (iblock_eq n Hn) as [_ Hb]. unfold dinode. rewrite same_low by lia. reflexivity. Qed.

Lemma same_used b : 0 <= b < FSSIZE -> used sb c' b = used sb c b.
Proof. intros Hb. unfold used. rewrite bblock_eq by exact Hb. by rewrite same_low by lia. Qed.

Lemma same_owned a k : file_ok sb log_of c a -> owned c' a k = owned c a k.
Proof.
  intros Hf. apply frame_owned. intros x Hx Hne. apply same. by apply (fk_data _ _ _ _ Hf).
Qed.

Lemma same_file a : file_ok sb log_of c a -> file_ok sb log_of c' a.
Proof.
  intros Hf. pose proof Hf as [A B C]. split; [exact A| |].
  - intros k Hk. rewrite same_owned by exact Hf. intros Hne. destruct (B k Hk Hne) as [D1 D2 D3 D4]. split; [exact D1| |exact D3|exact D4].
    rewrite same_used; [exact D2|]. change (sb_size sb) with FSSIZE in D1. lia.
  - intros j k Hj Hk. rewrite !same_owned by exact Hf. auto.
Qed.

Lemma same_bytes a n : file_ok sb log_of c a -> 0 <= n <= MAXFILE * BSIZE -> file_bytes c' a 0 n = file_bytes c a 0 n.
Proof.
  intros Hf Hn. unfold file_bytes. apply list_fmap_ext. intros j k Hk. apply lookup_seqZ in Hk as [-> Hk]. unfold file_byte.
  set (bn := _ / BSIZE). assert (0 <= bn < MAXFILE) as Hb by (unfold bn; sizes; dlia).
  rewrite <- !owned_lt, same_owned by (lia || exact Hf). f_equal. apply same.
  destruct (decide (owned c a bn = 0)) as [->|Hne]; [apply home_iff; lia|]. apply (fk_data _ _ _ _ Hf); [lia|exact Hne].
Qed.

Lemma same_holds inum t bs : 0 <= inum < NINODES -> len bs <= MAXFILE * BSIZE -> holds c inum t bs -> holds c' inum t bs.
Proof.
  intros Hi Hl [A B C D E]. split; rewrite same_dinode by exact Hi; [exact A|exact B|exact C|by apply same_file|].
  rewrite same_bytes; [exact E|exact D|unfold len in *; lia].
Qed.

Lemma same_image : get32 (c' (sb_logstart sb)) 0 = 0 -> image_ok files c'.
Proof.
  intros Hlog. pose proof (ip_few _ inputs) as Hn. destruct (ip_fits _ inputs) as [Hf _]. rewrite Forall_lookup in Hf.
  pose proof (root_dir_len files) as Hd. change DIRENT_SIZE with 16 in Hd.
  assert (forall i, 1 <= i <= Z.of_nat (length files) + 1 -> file_ok sb log_of c (i_addrs (dinode c i))) as Hfile.
  { intros i Hi. destruct (decide (i = 1)) as [->|Hne]; [apply (io_root _ _ ok)|].
    destruct (lookup_lt_is_Some_2 files (Z.to_nat (i - 2)) ltac:(lia)) as [f Hfl]. pose proof (io_files _ _ ok _ f Hfl) as Hh.
    rewrite Z2Nat.id, Z.sub_add in Hh by lia. apply Hh. }
  assert (dinode c' ROOTINO = dinode c ROOTINO) as Er by (apply same_dinode; unfold ROOTINO, NINODES; lia).
  split.
  - rewrite same_low by lia. apply ok.
  - exact Hlog.
  - apply ok.
  - intros b Hb Hu. rewrite same_used in Hu by exact Hb. by apply (io_free _ _ ok).
  - intros b Hb. rewrite same_used by exact Hb. by apply ok.
  - apply same_holds; [unfold ROOTINO, NINODES; lia| |apply ok]. rewrite pad_len, Hd. change NINODES with 200 in Hn. sizes. dlia.
  - intros bn Hbn. rewrite Er, <- owned_lt, same_owned, owned_lt by (lia || exact (ho_file _ _ _ _ (io_root _ _ ok))). by apply ok.
  - intros k f Hk. apply lookup_lt_Some in Hk as Hlt. apply same_holds; [lia| |by apply ok].
    apply (Hf (S k)). change ((contents files).*2 !! S k) with ((plain_file <$> files).*2 !! k). by rewrite !list_lookup_fmap, Hk.
  - intros i j x y Hi Hj Hne Hx Hy. cbv zeta. rewrite !same_dinode by lia. rewrite !same_owned by (apply Hfile; lia). by apply (io_apart _ _ ok).
  - intros n Hr. rewrite same_dinode by lia. by apply (io_unused _ _ ok).
Qed.
End outside.

(** ** fsinit() *)

Section boot.
Context `{DiskOk} `{Waits}.
Variables (i : nat) (pid : Z).

Lemma cache_sb sb' lks s : cache i pid [] lks s -> cache i pid [] lks (with_k_sb sb' s).
Proof.
  intros Hc. destruct (ca_inv _ _ _ _ _ Hc) as [l Hi]. eapply (cache_frame _ _ _ _ s); [exact Hc| | |reflexivity].
  - apply (bcache_inv_frame s); [exact Hi|reflexivity..].
  - apply (running_frame _ _ s); [exact (ca_run _ _ _ _ _ Hc)|reflexivity..].
Qed.

Lemma readsb_spec s (Q : unit -> kernel -> Prop) : cache i pid [] [] s ->
  (forall s', cache i pid [] [] s' -> let d := content s 1 in
     k_sb s' = mkSuperblock (get32 d 0) (get32 d 4) (get32 d 8) (get32 d 12) (get32 d 16) (get32 d 20) (get32 d 24) (get32 d 28) ->
     (forall m, content s' m = content s m) -> Q tt s') ->
  wp (readsb ROOTDEV) Q s.
Proof.
  intros Hc HQ. unfold readsb, data_of, buf_at. wp_step.
  apply (bread_spec i pid [] [] s 1); [exact Hc|apply not_elem_of_nil|cbn [length]; unfold HEAD, NBUF, MAXOPBLOCKS; lia|].
  intros b s1 Hc1 _ E1 F1. destruct (cache_data _ _ _ _ _ b 1 Hc1 ltac:(by left)) as (bf & Hb & _ & Hd & _). do 6 wp_step.
  rewrite (list_lookup_total_correct _ _ _ Hb), Hd, E1. set (sb1 := mkSuperblock _ _ _ _ _ _ _ _).
  apply (brelse_spec i pid [] [] [] (with_k_sb sb1 s1) b 1); [by apply cache_sb| |].
  { right. change (content s1 1 = disk_block s1 1). rewrite E1, (cache_clean i pid [] s 1 Hc (not_elem_of_nil 1)).
    unfold disk_block. rewrite (bio_frame_eq _ _ F1). reflexivity. }
  intros s2 Hc2 E2 F2. apply HQ; [exact Hc2|rewrite (bio_frame_eq _ _ F2); reflexivity|]. intros m. rewrite E2. exact (E1 m).
Qed.

(** The log header is empty. *)
Lemma empty_hdr lg d : get32 d 0 = 0 -> read_hdr lg d = with_lh_n 0 lg.
Proof. intros E. unfold read_hdr. rewrite E. by destruct lg. Qed.

(** What fsinit() sets up. *)
Record mounted (files : list infile) (s : kernel) : Prop := {
  mt_cache : cache i pid [] [] s;
  mt_sb : k_sb s = sb;
  mt_start : l_start (k_log s) = sb_logstart sb;
  mt_size : l_size (k_log s) = sb_nlog sb;
  mt_dev : l_dev (k_log s) = ROOTDEV;
  mt_n : lh_n (k_log s) = 0;
  mt_image : image_ok files (content s);
}.

Lemma fsinit_spec files img s : inputs_ok files -> image_ok files (blk img) -> cache i pid [] [] s -> k_disk s = im_block img ->
  wp (fsinit ROOTDEV) (fun _ s' => mounted files s') s.
Proof.
  intros Hin Hok Hc Hd. assert (forall m, content s m = blk img m) as Hb.
  { intros m. rewrite (cache_clean i pid [] s m Hc (not_elem_of_nil m)). unfold disk_block. rewrite Hd. reflexivity. }
  unfold fsinit, get_sb. wp_step. apply readsb_spec; [exact Hc|]. intros s1 Hc1 d Hs1 E1. unfold d in Hs1.
  rewrite Hb, (io_sb _ _ Hok) in Hs1. do 2 wp_step. rewrite Hs1. change (sb_magic sb =? FSMAGIC) with true. cbn [negb].
  unfold initlog, upd_log. change (BSIZE <=? 4 + 4 * LOGSIZE) with false. cbv iota. do 2 wp_step. set (lg := with_l_dev _ _). set (s2 := with_k_log lg s1).
  assert (cache i pid [] [] s2) as Hc2 by (by apply cache_relog).
  assert (forall m, disk_block s2 m = blk img m) as Hd2.
  { intros m. rewrite <- (cache_clean i pid [] s2 m Hc2 (not_elem_of_nil m)). change (content s1 m = blk img m). by rewrite E1. }
  assert (read_hdr lg (disk_block s2 2) = with_lh_n 0 lg) as Eh by (rewrite Hd2; apply empty_hdr; exact (io_log _ _ Hok)).
  apply (recover_spec i pid s2); [exact Hc2| |].
  { change (k_log s2) with lg. change (l_start lg) with 2. rewrite Eh. split; [reflexivity| | |change (lh_n (with_lh_n 0 lg)) with 0; lia..].
    - change (l_start (with_lh_n 0 lg)) with 2. change (l_size (with_lh_n 0 lg)) with 30. lia.
    - change (lh_n (with_lh_n 0 lg)) with 0. change (l_size (with_lh_n 0 lg)) with 30. change LOGSIZE with 30. lia. }
  intros s3 Hc3 L3 S3. unfold recover_writes in S3. change (k_log s2) with lg in S3, L3. change (l_start lg) with 2 in S3, L3. rewrite Eh in S3, L3.
  change (to_home (with_lh_n 0 lg) (disk_block s2)) with (@nil (Z * list Z)) in S3. cbn [app] in S3.
  assert (forall m, content s3 m = put_block (blk img) (2, write_hdr 0 (lh_block lg) (blk img 2)) m) as E3.
  { intros m. rewrite (st_cont _ _ _ S3 m : content s3 m = _). unfold apply_writes, put_block. cbn [fold_left fst snd]. rewrite Hd2.
    case_decide; [reflexivity|]. change (content s1 m = blk img m). by rewrite E1. }
  split; [exact Hc3| |rewrite L3; reflexivity..|].
  - rewrite <- Hs1. exact (f_equal k_sb (st_frame _ _ _ S3 : with_k_log lg s3 = _)).
  - apply (same_image files (blk img) _ Hok Hin).
    + intros m Hm. apply (proj1 (home_iff m)) in Hm. rewrite E3. unfold put_block. cbn [fst snd]. rewrite decide_False by lia. reflexivity.
    + change (sb_logstart sb) with 2. rewrite E3. unfold put_block. cbn [fst snd]. rewrite decide_True by reflexivity.
      unfold write_hdr. change (seqZ 0 0) with (@nil Z). cbn [fold_left].
      rewrite <- Hb. destruct (ca_inv _ _ _ _ _ Hc) as [l Hi]. apply (get32_put32_eq _ 0 0); [lia|]. rewrite (content_length s l 2 Hi). sizes; lia.
Qed.

(** C12: from the input files to the mounted file system: on inputs that fit, mkfs
    ends normally, and when the kernel starts on the image it wrote, fsinit()
    returns with the superblock of the image, an empty log and a cache through
    which the kernel sees exactly these files: their inodes, contents, disjoint
    blocks and directory entries, and a bitmap that marks the blocks in use. *)
Theorem mkfs_then_boot files : inputs_ok files ->
  exists img, main (argv files) image0 = Ok tt img /\
    forall s, cache i pid [] [] s -> k_disk s = im_block img -> wp (fsinit ROOTDEV) (fun _ s' => mounted files s') s.
Proof.
  intros Hin. destruct (proj1 (wp_ok _ _ _) (mkfs_correct files Hin)) as ([] & img & E & Hok). exists img. split; [exact E|].
  intros s Hc Hd. by apply (fsinit_spec files img).
Qed.
End boot.

Lemma files0_ok : inputs_ok files0.
Proof.
  split.
  - repeat constructor; apply (bool_decide_unpack _); vm_compute; exact I.
  - reflexivity.
  - split; [|vm_compute; discriminate]. repeat constructor; vm_compute; discriminate.
Qed.

Lemma files0_blocks img : main (argv files0) image0 = Ok tt img -> forall n x, im_block img !! n = Some x -> length x = Z.to_nat BSIZE.
Proof.
  intros E. assert (match main (argv files0) image0 with
    | Ok _ s => forallb (fun p => (length p.2 =? Z.to_nat BSIZE)%nat) (map_to_list (im_block s)) | _ => false end = true) as Hv by (vm_compute; reflexivity).
  rewrite E in Hv. intros n x Hx. apply elem_of_map_to_list, list_elem_of_In in Hx.
  rewrite List.forallb_forall in Hv. specialize (Hv _ Hx). by apply Nat.eqb_eq in Hv.
Qed.

Lemma mkfs_then_boot_witness : exists img s', main (argv files0) image0 = Ok tt img /\
  @fsinit sync_disk 1%nat ROOTDEV (with_k_disk (im_block img) bio0) = Ok tt s' /\ mounted 0 1 files0 s'.
Proof.
  destruct (@mkfs_then_boot sync_disk sync_disk_ok 1%nat 0 1 files0 files0_ok) as (img & E & Hboot).
  specialize (Hboot (with_k_disk (im_block img) bio0)). destruct (proj1 (wp_ok _ _ _) (Hboot (cache_new_disk 0 1 bio0 (im_block img) bio0_cache
    (fun j bf Hj Hd => ltac:(destruct (proj2 (proj2 bio0_inv) j bf Hj) as (_ & _ & E0); rewrite E0 in Hd; discriminate))
    (files0_blocks img E)) eq_refl)) as ([] & s' & E' & Hm).
  exists img, s'. auto.
Defined.
